(* ===== verification/_CoqProject ===== *)
-Q . S2P
Prelude.v
FromBoot.v
Pmm.v
PageTable.v
Vmm.v
VmmFacts.v
VmmSpec.v
VmmInit.v
VmmTheorems.v
KernelMem.v
VmmMem.v
Kmalloc.v
Chain.v
KmallocFacts.v
KfreeFacts.v
KmallocTheorems.v
StringLib.v
StringFacts.v
StringTheorems.v
Fs.v
FsFacts.v
FsTree.v
FsOps.v
FsTheorems.v
Initramfs.v
InitramfsFacts.v
CpioFormat.v
InitramfsTheorems.v
Graphics.v
GraphicsFacts.v
FontData.v
GraphicsTheorems.v
Stdio.v
StdioFacts.v
StdioTheorems.v
Cpu.v
CpuFacts.v
CpuTheorems.v
Syscalls.v
SyscallTheorems.v
Init.v
InitTheorems.v
KernelMain.v
KernelMainTheorems.v
Grs.v
Thread.v
Asm.v
AsmFacts.v
AsmTheorems.v
AsmRoutines.v
Demo.v
DemoFpu.v
DemoPoints.v
DemoFacts.v
DemoTheorems.v
WholeKernel.v
Efi.v
EfiFacts.v
BootLib.v
BootPaging.v
BootPagingFacts.v
BootPagingTheorems.v
BootElf.v
BootElfFacts.v
BootElfTheorems.v
BootGop.v
LogoData.v
Boot.v
BootRecord.v
BootFacts.v
BootGopFacts.v
BootDraw.v
BootReturn.v
BootStages.v
BootHandOver.v
BootMain.v
BootSim.v
BootLibFacts.v
BootTheorems.v
