(* ===== verification/Prelude.v ===== *)
(** * ArchaOS: a verification development

    ArchaOS is an operating system in C for x86-64.  A UEFI loader
    ([bootloader/uefi.c]) builds page tables, loads the kernel and a RAM disk,
    chooses a graphics mode, leaves the firmware and calls the kernel with a
    record of what it found ([common/fromboot.h]).  The kernel
    ([kernel/startup.c]) sets up the descriptor tables, the memory managers,
    the interrupt controllers, the heap, the file system and the terminal.
    This library models both programs and proves what their parts promise.

    ** The layers, from below

    - [Prelude]: machine integers as [Z] with their wrap-around written out,
      the state monad [M] whose runs end with [Done], [Panicked]
      ([kernel_panic], which does not return) or [Fault] (undefined behaviour:
      a NULL dereference, an access out of bounds, a division by zero),
      counting loops with their invariant rule, arrays, shared tactics.
    - [FromBoot]: the hand-off record.
    - [Pmm] ([mm/pmm.c]): the bitmap allocator of page frames with its
      properties.
    - [PageTable]: the entry format and the tree of tables as a predicate
      ([tables_wf]), with the walk the processor makes ([walk]).
    - [Vmm] ([mm/vmm.c]), [VmmSpec] (the contracts), [VmmFacts], [VmmInit]
      ([init_vmm] and [map_range]), [VmmTheorems].
    - [KernelMem]: the memory the heap needs, as a class; [VmmMem] proves that
      the page tables provide it.
    - [Kmalloc] ([lib/kmalloc.c]) over that class; [Chain] (a heap as a list
      of blocks), [KmallocFacts], [KfreeFacts], [KmallocTheorems].
    - [StringLib], [StringFacts], [StringTheorems] ([lib/string.c]).
    - [Fs] ([fs/fs.c]) over an allocator with its laws, [FsFacts] (path
      resolution), [FsTree] (adding and removing a directory entry), [FsOps],
      [FsTheorems].
    - [Initramfs] ([fs/drivers/initramfs.c], [init_fs]), [InitramfsFacts],
      [CpioFormat] (a writer of the format, which shares nothing with the
      reader), [InitramfsTheorems].
    - [Graphics] ([graphics/graphics.c], [graphics/terminal.c]), [FontData]
      (the font linked into the kernel), [GraphicsFacts], [GraphicsTheorems].
    - [Stdio] ([lib/stdio.c]), [StdioFacts], [StdioTheorems].
    - [Cpu] (GDT, TSS, IDT, MSRs, the 8259, the APIC, the timer), [CpuFacts],
      [CpuTheorems].
    - [Syscalls], [SyscallTheorems] ([syscalls/syscalls.c]).
    - [Init] ([init.c], [lib/time.h], [errs], the checks of [startup.c]),
      [InitTheorems]; [KernelMain] ([startup.c]) puts the kernel's components
      together into one machine, [KernelMainTheorems].
    - [Grs] ([grs/grs.c]) and [Thread] ([thread/thread.c]), each with its
      lemmas.
    - [Asm]: the assembly routines ([entry.s], [interrupts.s], [idtLoad.s],
      [gdtLLong.s], [syscalls_s.s], [thread_s.s], [clock_s.s]) instruction by
      instruction, over an interpreter of the part of x86-64 they use;
      [AsmFacts] (memory, flags, pushing and popping the registers, calls),
      [AsmTheorems] (interrupts and exceptions),
      [AsmRoutines] (system calls, contexts, descriptor tables, [_start]).
    - [Demo] ([kernel_apps/demo.c], [lib/math.h]) over a floating-point unit
      given as the class [Fpu]; [DemoFpu] (its accuracy as the class
      [FpuLaws], error bounds of the geometry), [DemoPoints] (where the
      vertices appear; [Fixed], a unit with the laws), [DemoFacts] (lines as
      lists of pixels, what printing keeps), [DemoTheorems]; [WholeKernel] puts
      [kernel_main] and the demo together.
    - The loader: [Efi] ([efi.h]: codes, structures, the memory of the
      machine, and the firmware as the class [Firmware]), [EfiFacts] (the laws
      the loader relies on, [FirmwareLaws], and [keeps], the relation between
      states in which the pages the loader owns kept their contents);
      [BootLib] (strings, CPU identification), [BootPaging] (the tables of the
      hand-off), [BootElf] ([load_file], the segments of the kernel),
      [BootGop] (device listings, the mode, the picture), [LogoData], [Boot]
      ([efi_main]), [BootRecord] (the record in memory), [BootReturn] (what
      follows a return of the kernel).  Each has its file of lemmas;
      [BootStages], [BootHandOver] and [BootMain] put them
      together, [BootSim] is a small firmware at which the theorems are
      applied, and [BootTheorems] holds the properties.

    ** State and operations

    A component's globals are a record, its functions are definitions of the
    same name in the monad of that record; a loop is a [Fixpoint] of its own.
    Pointers into a component's own data are addresses in a [gmap] (the nodes
    of the file system, the words of the heap and of the page tables), so that
    aliasing is the code's.  What the code only calls (the firmware, the
    linker's symbols, CPUID, the floating-point unit) is a parameter, with its
    documented behaviour as the laws of a class or as a named hypothesis.
    [FirmwareLaws] says of a frame buffer only what UEFI does, for the two pixel
    formats with four bytes a pixel; that the mode the loader draws in is laid
    out like them, which the code takes for granted, is the hypothesis
    [screens_linear].  The stores of the compiler's [__get_cpuid] through the
    null pointers the loader passes are modelled as they are emitted without
    optimisation: to address 0 where page 0 can be written ([ce_page0]), and
    [Fault] elsewhere.
    Where C meets assembly the C side has the routine as a parameter or as an
    event of the processor, and [Asm] has the C function as a parameter: a
    transformer of processor states that keeps to the calling convention.

    ** What the theorems show

    - Allocation: [palloc] is first fit and complete, its accounting is an
      invariant of every reachable state; [map_page], [unmap_page], [vallocs]
      and [vfrees] change exactly the translations they should, give the frames
      they took back on failure and undo each other; [init_vmm] maps physical memory; [kmalloc]
      and [kfree] refine first fit with splitting and coalescing on a list of
      blocks.
    - Data: [memcpy] and [memmove]; path resolution against a reference; every
      file operation with its errors, the tree invariant of every reachable
      state, round trips; the archive reader on arbitrary bytes and, against
      the meaning of its entries, on written archives.
    - Devices: lines, rectangles and characters stay in the frame buffer;
      [print] and [format] emit the text the format denotes; gates, masks and
      the system call table behave as stated.
    - Assembly: the clock interrupt is transparent to what it interrupts; what the exception handlers, the
      system call entry, [grab_context], [load_gdt] and [_start] pass on and
      give back; [restore_context] loads the context the model of the threads
      describes.
    - The demo: each frame is the saved screen with the lines of the figure
      over it, near the middle of the screen for all angles and in spite of
      rounding; the loop goes on for any number of frames.  On the machine that
      [kernel_main] leaves it runs without touching anything but pixels.
    - Start-up: [kernel_main] from its entry to the call of the demo, on the
      machine made of all components, with the descriptor tables it leaves; the
      waiting loops; [efi_main] faults at its stores through null pointers or
      ends, and when it enters the kernel the address space, the images, the record and
      the memory map are as specified, and [kernel_main] accepts the record.

    ** Fuel

    Loops with a counter run on it ([for_up]).  The others have fuel that is
    shown to be enough: the length of the data (strings, paths, archives,
    memory maps), the number of blocks or nodes, the 16 bits of [e_phnum], 20
    digits of a 64-bit number, [size / PAGE_SIZE + 2] pages of a range, the
    number of graphics modes.  Out of fuel is [Fault], and the theorems show
    that it does not occur.  Waiting for the user or the clock has the number
    of polls as a parameter, and the theorems say when it suffices; the demo
    has the number of frames it is observed for, and the theorem holds for all
    of them.

    ** Not modelled

    - Linker scripts and headers of declarations.
    - In the assembly routines privilege checks, non-canonical addresses and
      the paging of their memory.
    - In the loader [draw_glyph], [read_rip] and [GopInstalledCallback], which
      nothing calls.
    - The diagnostics that the memory managers, the file system and the tables
      print on the console, and the polling of the serial port's line status.
    - [kernel_main] meets the file system on any allocator with the laws of
      [AllocatorLaws]; [Kmalloc] is not shown to satisfy them, since [kfree]
      breaks the heap when both neighbours of the block are free.
    - Interrupts do not preempt the modelled C functions; [AsmTheorems] shows
      what the clock interrupt leaves unchanged. *)

From stdpp Require Export base numbers list gmap strings.
From Stdlib Require Export ZArith Lia.
From Stdlib Require Import Ascii.

#[global] Open Scope Z_scope.

(** ** Machine integers

    A C unsigned integer of width [w] is a [Z] in [0, 2^w); the wrap-around of
    an operation is written where the C operation wraps. *)

Definition u8 (x : Z) : Z := x mod 256.
Definition u16 (x : Z) : Z := x mod 65536.
Definition u32 (x : Z) : Z := x mod 4294967296.
Definition u64 (x : Z) : Z := x mod 18446744073709551616.

(** Conversion to a signed 32-bit [int] (two's complement). *)
Definition s32 (x : Z) : Z := (x + 2147483648) mod 4294967296 - 2147483648.

Definition in_u8 (x : Z) : Prop := 0 <= x < 256.
Definition in_u32 (x : Z) : Prop := 0 <= x < 4294967296.
Definition in_u64 (x : Z) : Prop := 0 <= x < 18446744073709551616.

(** The bytes (or the 16-bit units) of a string literal. *)
Definition L (s : string) : list Z :=
  (fix go (s : string) : list Z :=
     match s with
     | EmptyString => []
     | String c r => Z.of_N (N_of_ascii c) :: go r
     end) s.

(** ** Outcomes of kernel code

    [Done] is a normal return, [Panicked] a call of [kernel_panic] (which
    never returns), [Fault] a C undefined behaviour or CPU exception the code
    runs into (NULL dereference, out-of-bounds access, division by zero). *)

Inductive outcome (A : Type) : Type :=
  | Done (a : A)
  | Panicked (why : string)
  | Fault.
Arguments Done {A} a.
Arguments Panicked {A} why.
Arguments Fault {A}.

(** A state monad over [outcome]; [x ← m; k] sequences, as in the C text. *)
Definition M (S A : Type) : Type := S -> outcome (A * S).

#[export] Instance M_ret (S : Type) : MRet (M S) := fun A a s => Done (a, s).
#[export] Instance M_bind (S : Type) : MBind (M S) := fun A B f m s =>
  match m s with
  | Done (a, s') => f a s'
  | Panicked w => Panicked w
  | Fault => Fault
  end.

Definition get {S : Type} : M S S := fun s => Done (s, s).
Definition put {S : Type} (s : S) : M S unit := fun _ => Done (tt, s).
Definition gets {S A : Type} (f : S -> A) : M S A := fun s => Done (f s, s).
Definition modify {S : Type} (f : S -> S) : M S unit := fun s => Done (tt, f s).
Definition kernel_panic {S A : Type} (why : string) : M S A := fun _ => Panicked why.
Definition fault {S A : Type} : M S A := fun _ => Fault.

Lemma bind_Done {S A B : Type} (m : M S A) (f : A -> M S B) s b s'' :
  (m ≫= f) s = Done (b, s'') <->
  exists a s', m s = Done (a, s') /\ f a s' = Done (b, s'').
Proof.
  unfold mbind, M_bind. destruct (m s) as [[a s']| |]; split; intros H.
  - eauto.
  - destruct H as (? & ? & [= <- <-] & ?). done.
  - done.
  - destruct H as (? & ? & ? & ?). done.
  - done.
  - destruct H as (? & ? & ? & ?). done.
Qed.

Lemma bind_eq {S A B : Type} (m : M S A) (f : A -> M S B) s a s' :
  m s = Done (a, s') -> (m ≫= f) s = f a s'.
Proof. intros H. unfold mbind, M_bind. by rewrite H. Qed.

Lemma bind_ext {S A B : Type} (m : M S A) (f g : A -> M S B) s :
  (forall a s', f a s' = g a s') -> (m ≫= f) s = (m ≫= g) s.
Proof. intros H. unfold mbind, M_bind. destruct (m s) as [[a s']| |]; [apply H|done..]. Qed.

Lemma gets_eq {S A : Type} (f : S -> A) (s : S) : gets f s = Done (f s, s).
Proof. done. Qed.

Lemma ret_Done {S A : Type} (a b : A) (s s' : S) :
  (mret a : M S A) s = Done (b, s') <-> a = b /\ s = s'.
Proof. unfold mret, M_ret. split; [by intros [= -> ->]|by intros [-> ->]]. Qed.

Lemma bind_assoc {S A B C : Type} (m : M S A) (f : A -> M S B) (g : B -> M S C) s :
  ((m ≫= f) ≫= g) s = (m ≫= fun a => f a ≫= g) s.
Proof. unfold mbind, M_bind. by destruct (m s) as [[a s']| |]. Qed.

(** [safe P m Q]: from a state in [P], [m] never performs an undefined access;
    it panics, or finishes with a result and a state in [Q]. *)
Definition safe {S A : Type} (P : S -> Prop) (m : M S A) (Q : A -> S -> Prop) : Prop :=
  forall s, P s -> match m s with
                   | Done (a, s') => Q a s'
                   | Panicked _ => True
                   | Fault => False
                   end.

Lemma safe_bind {S A B : Type} (P : S -> Prop) (m : M S A) (R : A -> S -> Prop)
    (f : A -> M S B) (Q : B -> S -> Prop) :
  safe P m R -> (forall a, safe (R a) (f a) Q) -> safe P (m ≫= f) Q.
Proof.
  intros Hm Hf s Hs. specialize (Hm s Hs). unfold mbind, M_bind.
  destruct (m s) as [[a s']| |]; [by apply Hf|done..].
Qed.

Lemma safe_conseq {S A : Type} (P P' : S -> Prop) (m : M S A) (Q Q' : A -> S -> Prop) :
  safe P m Q -> (forall s, P' s -> P s) -> (forall a s, Q a s -> Q' a s) -> safe P' m Q'.
Proof.
  intros Hm HP HQ s Hs. specialize (Hm s (HP s Hs)). destruct (m s) as [[a s']| |]; auto.
Qed.

Lemma safe_ret {S A : Type} (P : S -> Prop) (a : A) (Q : A -> S -> Prop) :
  (forall s, P s -> Q a s) -> safe P (mret a) Q.
Proof. intros H s Hs. by apply H. Qed.

Lemma safe_gets {S A : Type} (P : S -> Prop) (f : S -> A) (Q : A -> S -> Prop) :
  (forall s, P s -> Q (f s) s) -> safe P (gets f) Q.
Proof. intros H s Hs. by apply H. Qed.

Lemma safe_modify {S : Type} (P : S -> Prop) (f : S -> S) (Q : unit -> S -> Prop) :
  (forall s, P s -> Q tt (f s)) -> safe P (modify f) Q.
Proof. intros H s Hs. by apply H. Qed.

Lemma safe_panic {S A : Type} (P : S -> Prop) w (Q : A -> S -> Prop) :
  safe P (kernel_panic w) Q.
Proof. by intros s Hs. Qed.

(** Memory maps are total: a word that was never written reads as 0. *)
#[export] Instance Z_zero_inhabited : Inhabited Z | 0 := populate 0.

(** ** Loops

    [for_up n i body] is the C loop [for (k = i; k < i + n; k++) body(k)]. *)

Fixpoint for_up {S : Type} (n : nat) (i : Z) (body : Z -> S -> S) (s : S) : S :=
  match n with
  | O => s
  | S n' => for_up n' (i + 1) body (body i s)
  end.

Fixpoint for_upM {S : Type} (n : nat) (i : Z) (body : Z -> M S unit) : M S unit :=
  match n with
  | O => mret tt
  | S n' => body i ≫= fun _ => for_upM n' (i + 1) body
  end.

Lemma safe_for_upM {S : Type} (I : Z -> S -> Prop) (body : Z -> M S unit) n i :
  (forall k, i <= k < i + Z.of_nat n -> safe (I k) (body k) (fun _ => I (k + 1))) ->
  safe (I i) (for_upM n i body) (fun _ => I (i + Z.of_nat n)).
Proof.
  revert i. induction n as [|n IH]; intros i Hb; cbn [for_upM].
  - apply safe_ret. intros s. by rewrite Z.add_0_r.
  - apply (safe_bind _ _ (fun _ => I (i + 1))); [apply Hb; lia|]. intros [].
    replace (i + Z.of_nat (Datatypes.S n)) with (i + 1 + Z.of_nat n) by lia.
    apply IH. intros k Hk. apply Hb. lia.
Qed.

Lemma for_up_inv {S : Type} (I : Z -> S -> Prop) (body : Z -> S -> S) n i s :
  I i s ->
  (forall k t, i <= k < i + Z.of_nat n -> I k t -> I (k + 1) (body k t)) ->
  I (i + Z.of_nat n) (for_up n i body s).
Proof.
  revert i s. induction n as [|n IH]; intros i s H0 Hstep.
  - by rewrite Z.add_0_r.
  - cbn [for_up]. replace (i + Z.of_nat (Datatypes.S n)) with (i + 1 + Z.of_nat n) by lia.
    apply IH; [apply Hstep; [lia|done]|]. intros k t Hk. apply Hstep. lia.
Qed.

Lemma for_up_S_r {S : Type} n i (body : Z -> S -> S) s :
  for_up (Datatypes.S n) i body s = body (i + Z.of_nat n) (for_up n i body s).
Proof.
  revert i s. induction n as [|n IH]; intros i s.
  - cbn. by rewrite Z.add_0_r.
  - change (for_up (Datatypes.S (Datatypes.S n)) i body s)
      with (for_up (Datatypes.S n) (i + 1) body (body i s)).
    rewrite IH. cbn [for_up]. f_equal. lia.
Qed.

(** ** Arrays indexed by C integers *)

Section arrays.
Context {A : Type} `{Inhabited A}.

(** [a[i]]; reading outside the list yields the inhabitant, and every use
    comes with a bound on [i]. *)
Definition aget (l : list A) (i : Z) : A :=
  if i <? 0 then inhabitant else l !!! Z.to_nat i.
(** [a[i] = x] *)
Definition aset (l : list A) (i : Z) (x : A) : list A :=
  if i <? 0 then l else <[Z.to_nat i := x]> l.

Lemma length_aset l i x : length (aset l i x) = length l.
Proof. unfold aset. case_match; [done|]. apply length_insert. Qed.

Lemma aget_aset_eq l i x : 0 <= i < Z.of_nat (length l) -> aget (aset l i x) i = x.
Proof.
  intros Hi. unfold aget, aset. destruct (Z.ltb_spec i 0); [lia|].
  rewrite list_lookup_total_insert_eq; [done|lia].
Qed.

Lemma aget_aset_ne l i j x : i <> j -> aget (aset l i x) j = aget l j.
Proof.
  intros Hij. unfold aget, aset.
  destruct (Z.ltb_spec j 0); [done|]. destruct (Z.ltb_spec i 0); [done|].
  apply list_lookup_total_insert_ne. lia.
Qed.

Lemma aset_aset l i x y : aset (aset l i x) i y = aset l i y.
Proof. unfold aset. case_match; [done|]. apply list_insert_insert_eq. Qed.

Lemma aset_aget l i : 0 <= i < Z.of_nat (length l) -> aset l i (aget l i) = l.
Proof.
  intros Hi. unfold aset, aget. destruct (Z.ltb_spec i 0); [lia|].
  apply list_insert_id. apply list_lookup_lookup_total_lt. lia.
Qed.

Lemma aget_replicate n i x : 0 <= i < Z.of_nat n -> aget (replicate n x) i = x.
Proof.
  intros Hi. unfold aget. destruct (Z.ltb_spec i 0); [lia|].
  apply lookup_total_replicate_2. lia.
Qed.

Lemma list_eq_aget (l1 l2 : list A) :
  length l1 = length l2 ->
  (forall i, 0 <= i < Z.of_nat (length l1) -> aget l1 i = aget l2 i) -> l1 = l2.
Proof.
  intros Hlen Hget. apply list_eq_same_length with (n := length l1); [done|done|].
  intros i x y Hi H1 H2. specialize (Hget (Z.of_nat i)).
  unfold aget in Hget. destruct (Z.ltb_spec (Z.of_nat i) 0); [lia|].
  rewrite Nat2Z.id in Hget. rewrite (list_lookup_total_correct l1 i x), (list_lookup_total_correct l2 i y) in Hget by done.
  apply Hget. lia.
Qed.
End arrays.

(** ** Counting over an index range *)

Fixpoint count_upto (f : Z -> bool) (n : nat) : Z :=
  match n with
  | O => 0
  | S n' => count_upto f n' + (if f (Z.of_nat n') then 1 else 0)
  end.

Lemma count_upto_bounds f n : 0 <= count_upto f n <= Z.of_nat n.
Proof. induction n as [|n IH]; [done|]. cbn [count_upto]. case_match; lia. Qed.

Lemma count_upto_ext f g n :
  (forall k, 0 <= k < Z.of_nat n -> f k = g k) -> count_upto f n = count_upto g n.
Proof.
  induction n as [|n IH]; intros H; [done|]. cbn [count_upto].
  rewrite IH, (H (Z.of_nat n)) by (intros; try apply H; lia). done.
Qed.

Lemma count_upto_flip f g n k :
  0 <= k < Z.of_nat n -> f k = false -> g k = true ->
  (forall j, 0 <= j < Z.of_nat n -> j <> k -> f j = g j) ->
  count_upto g n = count_upto f n + 1.
Proof.
  induction n as [|n IH]; intros Hk Hf Hg Hfg; [lia|]. cbn [count_upto].
  destruct (decide (k = Z.of_nat n)) as [->|].
  - rewrite Hf, Hg. rewrite (count_upto_ext f g) by (intros; apply Hfg; lia). lia.
  - rewrite IH by (first [done|lia|intros; apply Hfg; lia]).
    rewrite (Hfg (Z.of_nat n)) by lia. lia.
Qed.

Lemma count_upto_0 f n :
  count_upto f n = 0 <-> forall k, 0 <= k < Z.of_nat n -> f k = false.
Proof.
  induction n as [|n IH]; [split; [intros; lia|done]|]. cbn [count_upto].
  pose proof (count_upto_bounds f n). split.
  - intros H0 k Hk. destruct (f (Z.of_nat n)) eqn:E; [lia|].
    destruct (decide (k = Z.of_nat n)) as [->|]; [done|]. apply IH; lia.
  - intros H0. rewrite (H0 (Z.of_nat n)) by lia.
    rewrite (proj2 IH); [done|]. intros; apply H0; lia.
Qed.

(** ** Bits of bytes *)

Lemma land_bit_zero b k :
  0 <= k -> (Z.land b (Z.shiftl 1 k) =? 0) = negb (Z.testbit b k).
Proof.
  intros Hk. rewrite Z.shiftl_1_l.
  destruct (Z.testbit b k) eqn:E; cbn.
  - apply Z.eqb_neq. intros H0.
    assert (Z.testbit (Z.land b (2 ^ k)) k = true) as Ht.
    { rewrite Z.land_spec, E, Z.pow2_bits_true by lia. done. }
    rewrite H0, Z.bits_0 in Ht. done.
  - apply Z.eqb_eq. apply Z.bits_inj'. intros j Hj.
    rewrite Z.land_spec, Z.bits_0. destruct (decide (j = k)) as [->|].
    + by rewrite E.
    + rewrite Z.pow2_bits_false by lia. apply andb_false_r.
Qed.

Lemma testbit_high_u8 b k : in_u8 b -> 8 <= k -> Z.testbit b k = false.
Proof.
  intros Hb Hk. unfold in_u8 in Hb. destruct (decide (b = 0)) as [->|]; [apply Z.bits_0|].
  apply Z.bits_above_log2; [lia|]. apply Z.log2_lt_pow2; [lia|].
  apply Z.lt_le_trans with (2 ^ 8); [lia|]. apply Z.pow_le_mono_r; lia.
Qed.

Lemma u8_id b : in_u8 b -> u8 b = b.
Proof. intros. apply Z.mod_small. done. Qed.
Lemma u32_id b : in_u32 b -> u32 b = b.
Proof. intros. apply Z.mod_small. done. Qed.
Lemma u64_id b : in_u64 b -> u64 b = b.
Proof. intros. apply Z.mod_small. done. Qed.

Lemma u8_range b : in_u8 (u8 b).
Proof. apply Z.mod_pos_bound. done. Qed.
Lemma u32_range b : in_u32 (u32 b).
Proof. apply Z.mod_pos_bound. done. Qed.
Lemma u64_range b : in_u64 (u64 b).
Proof. apply Z.mod_pos_bound. done. Qed.

Lemma testbit_u8 x k : 0 <= k -> Z.testbit (u8 x) k = (k <? 8) && Z.testbit x k.
Proof.
  intros. unfold u8. change 256 with (2 ^ 8). rewrite Z.testbit_mod_pow2 by lia. done.
Qed.

Lemma testbit_shl1 k j : 0 <= k -> 0 <= j -> Z.testbit (Z.shiftl 1 k) j = (j =? k).
Proof.
  intros. rewrite Z.shiftl_1_l. destruct (Z.eqb_spec j k) as [->|].
  - by apply Z.pow2_bits_true.
  - by apply Z.pow2_bits_false.
Qed.

Lemma testbit_set_u8 b k j :
  0 <= k < 8 -> 0 <= j < 8 ->
  Z.testbit (u8 (Z.lor b (Z.shiftl 1 k))) j = Z.testbit b j || (j =? k).
Proof.
  intros. rewrite testbit_u8, Z.lor_spec, testbit_shl1 by lia.
  destruct (Z.ltb_spec j 8); [done|lia].
Qed.

Lemma testbit_clear_u8 b k j :
  0 <= k < 8 -> 0 <= j < 8 ->
  Z.testbit (u8 (Z.land b (Z.lnot (Z.shiftl 1 k)))) j = Z.testbit b j && negb (j =? k).
Proof.
  intros. rewrite testbit_u8, Z.land_spec, Z.lnot_spec, testbit_shl1 by lia.
  destruct (Z.ltb_spec j 8); [done|lia].
Qed.

Lemma u8_ext a b :
  in_u8 a -> in_u8 b -> (forall j, 0 <= j < 8 -> Z.testbit a j = Z.testbit b j) -> a = b.
Proof.
  intros Ha Hb H. apply Z.bits_inj'. intros j Hj.
  destruct (decide (j < 8)); [apply H; lia|]. rewrite !testbit_high_u8 by (done || lia). done.
Qed.

Lemma u64_pred_succ f : in_u64 f -> u64 (u64 (f - 1) + 1) = f.
Proof. unfold in_u64, u64. intros. Z.div_mod_to_equations. lia. Qed.
Lemma u64_succ_pred f : in_u64 f -> u64 (u64 (f + 1) - 1) = f.
Proof. unfold in_u64, u64. intros. Z.div_mod_to_equations. lia. Qed.

(** ** Automation *)

Create HintDb archa.
#[export] Hint Resolve u8_range u32_range u64_range : archa.

(** Unfold the widths so that [lia] sees the [mod]. *)
Ltac wunfold := unfold u8, u16, u32, u64, s32, in_u8, in_u32, in_u64 in *.
Ltac wsolve := wunfold; (lia || (Z.div_mod_to_equations; lia)).
