(* ===== verification/FromBoot.v ===== *)
(** * The loader's hand-off record ([common/fromboot.h]) *)

From S2P Require Import Prelude.

Definition BOOTINFOMAGIC : Z := 0xCAFEBABEDEADBEEF.

Record BootInfo := mk_BootInfo {
  magic : Z;
  framebuffer_base : Z;
  framebuffer_size : Z;
  width : Z;
  height : Z;
  pixels_per_scanline : Z;
  framebuffer_pixel_format : Z;
  memory_map : Z;
  memory_map_size : Z;
  memory_descriptor_size : Z;
  kernel_physical_address : Z;
  kernel_physical_address_start : Z;
  kernel_physical_address_end : Z;
  kernel_virtual_address : Z;
  kernel_size : Z;
  initramfs_address : Z;
  initramfs_size : Z;
}.
