(* ===== verification/Pmm.v ===== *)
(** * Physical memory manager ([kernel/arch/x86_64/mm/pmm.c])

    The bitmap allocator of 4 KiB frames.  The globals of [pmm.c] are the
    fields of [pmm]; the bitmap that [bitmap] points to is its list of bytes
    (bit set: the frame is in use).  [print] diagnostics are left out. *)

From S2P Require Import Prelude.

Definition PAGE_SIZE : Z := 0x1000.

Definition EfiLoaderCode : Z := 1.
Definition EfiLoaderData : Z := 2.
Definition EfiBootServicesCode : Z := 3.
Definition EfiBootServicesData : Z := 4.
Definition EfiRuntimeServicesCode : Z := 5.
Definition EfiRuntimeServicesData : Z := 6.
Definition EfiConventionalMemory : Z := 7.
Definition EfiACPIReclaimMemory : Z := 9.
Definition EfiACPIMemoryNVS : Z := 10.

Record EFI_MEMORY_DESCRIPTOR := mk_desc {
  Type_ : Z;
  PhysicalStart : Z;
  VirtualStart : Z;
  NumberOfPages : Z;
  Attribute_ : Z;
}.

Record pmm := mk_pmm {
  sizeof_bitmap : Z;
  max_pages : Z;
  bitmap : list Z;
  bitmap_addr : Z;
  bitmap_init : bool;
  free_pages : Z;
  total_pages : Z;
  total_ram_pages : Z;
  total_memory : Z;
  total_usable_memory : Z;
  max_physical_address : Z;
}.

(** The globals as the loader leaves them. *)
Definition pmm_boot : pmm :=
  mk_pmm 0 0 [] 0 false 0 0 0 0 0 0.

Definition set_bitmap (b : list Z) (n : Z) (s : pmm) : pmm :=
  mk_pmm s.(sizeof_bitmap) s.(max_pages) b s.(bitmap_addr) s.(bitmap_init) n
    s.(total_pages) s.(total_ram_pages) s.(total_memory) s.(total_usable_memory)
    s.(max_physical_address).

Definition page_used (s : pmm) (page : Z) : bool :=
  if s.(max_pages) <=? page then true
  else negb (Z.land (aget s.(bitmap) (page / 8)) (Z.shiftl 1 (page mod 8)) =? 0).

Definition mark_used (page : Z) (s : pmm) : pmm :=
  if s.(max_pages) <=? page then s
  else if negb (page_used s page) then
    set_bitmap
      (aset s.(bitmap) (page / 8)
         (u8 (Z.lor (aget s.(bitmap) (page / 8)) (Z.shiftl 1 (page mod 8)))))
      (u64 (s.(free_pages) - 1)) s
  else s.

Definition mark_free (page : Z) (s : pmm) : pmm :=
  if s.(max_pages) <=? page then s
  else if page_used s page then
    set_bitmap
      (aset s.(bitmap) (page / 8)
         (u8 (Z.land (aget s.(bitmap) (page / 8)) (Z.lnot (Z.shiftl 1 (page mod 8))))))
      (u64 (s.(free_pages) + 1)) s
  else s.

Definition reserve_region (base length : Z) (s : pmm) : pmm :=
  let start := base / PAGE_SIZE in
  let pages := u64 (length + PAGE_SIZE - 1) / PAGE_SIZE in
  for_up (Z.to_nat pages) 0 (fun i => mark_used (u64 (start + i))) s.

(** The inner loop of [palloc] over the bits [bit, ..., bit + n - 1] of byte
    [byte]: [Some r] is a [return r], [None] the end of the loop. *)
Fixpoint palloc_bits (n : nat) (byte bit : Z) (s : pmm) : option (Z * pmm) :=
  match n with
  | O => None
  | S n' =>
      let mask := u8 (Z.shiftl 1 bit) in
      if Z.land (aget s.(bitmap) byte) mask =? 0 then
        let page := byte * 8 + bit in
        if s.(max_pages) <=? page then Some (0, s)
        else Some (page * PAGE_SIZE, mark_used page s)
      else palloc_bits n' byte (bit + 1) s
  end.

Fixpoint palloc_bytes (n : nat) (byte : Z) (s : pmm) : Z * pmm :=
  match n with
  | O => (0, s)
  | S n' =>
      if aget s.(bitmap) byte =? 0xFF then palloc_bytes n' (byte + 1) s
      else match palloc_bits 8 byte 0 s with
           | Some r => r
           | None => palloc_bytes n' (byte + 1) s
           end
  end.

Definition palloc (s : pmm) : Z * pmm :=
  if negb s.(bitmap_init) then (0, s)
  else palloc_bytes (Z.to_nat s.(sizeof_bitmap)) 0 s.

Definition pfree (address : Z) (s : pmm) : pmm :=
  mark_free (address / PAGE_SIZE) s.

Definition get_free_pages (s : pmm) : Z := s.(free_pages).
Definition get_total_pages (s : pmm) : Z := s.(total_pages).

(** ** [init_pmm]

    [read_desc a] is the memory descriptor stored at address [a]; the map the
    firmware left has [mem_map_size / descriptor_size] entries. *)

Section init.
Variable read_desc : Z -> EFI_MEMORY_DESCRIPTOR.

Definition desc_at (mem_map descriptor_size i : Z) : EFI_MEMORY_DESCRIPTOR :=
  read_desc (u64 (mem_map + i * descriptor_size)).

(** The types the inner [switch] adds to [total_ram_pages]. *)
Definition counts_as_ram (ty : Z) : bool :=
  bool_decide (ty ∈ [EfiConventionalMemory; EfiLoaderCode; EfiLoaderData;
    EfiBootServicesCode; EfiBootServicesData; EfiRuntimeServicesCode;
    EfiRuntimeServicesData; EfiACPIReclaimMemory; EfiACPIMemoryNVS]).

Definition end_of (d : EFI_MEMORY_DESCRIPTOR) : Z :=
  u64 (d.(PhysicalStart) + u64 (d.(NumberOfPages) * PAGE_SIZE)).

(** First pass: the highest address and the page totals. *)
Definition scan_entry (d : EFI_MEMORY_DESCRIPTOR) (acc : Z * Z * Z) : Z * Z * Z :=
  let '(maxa, total, ram) := acc in
  if d.(Type_) =? EfiConventionalMemory then
    let e := end_of d in
    let maxa' := if maxa <? e then e else maxa in
    let total' := u64 (total + d.(NumberOfPages)) in
    let ram' := if counts_as_ram d.(Type_) then u64 (ram + d.(NumberOfPages)) else ram in
    (maxa', total', ram')
  else acc.

(** Second pass: the first large enough conventional region. *)
Definition pick_entry (size : Z) (d : EFI_MEMORY_DESCRIPTOR) (addr : Z) : Z :=
  if negb (d.(Type_) =? EfiConventionalMemory) then addr
  else if (size <=? u64 (d.(NumberOfPages) * PAGE_SIZE)) && (addr =? 0)
  then d.(PhysicalStart) else addr.

(** Third pass: free the frames of the conventional regions. *)
Definition free_entry (d : EFI_MEMORY_DESCRIPTOR) (s : pmm) : pmm :=
  if d.(Type_) =? EfiConventionalMemory then
    let start := d.(PhysicalStart) / PAGE_SIZE in
    for_up (Z.to_nat d.(NumberOfPages)) 0 (fun p => mark_free (u64 (start + p))) s
  else s.

Definition init_pmm (mem_map mem_map_size descriptor_size : Z) : M pmm unit := fun s0 =>
  if descriptor_size =? 0 then Fault (* division by zero *)
  else
    let entries := Z.to_nat (mem_map_size / descriptor_size) in
    let at_ i := desc_at mem_map descriptor_size i in
    let '(maxa, total, ram) :=
      for_up entries 0 (fun i => scan_entry (at_ i)) (0, 0, 0) in
    let maxp := maxa / PAGE_SIZE in
    let size := u64 (maxp + 7) / 8 in
    let addr := for_up entries 0 (fun i => pick_entry size (at_ i)) 0 in
    if addr =? 0 then Panicked "No room for PMM bitmap"
    else
      let s1 := mk_pmm size maxp (replicate (Z.to_nat size) 0xFF) addr
                  s0.(bitmap_init) 0 total ram s0.(total_memory)
                  s0.(total_usable_memory) maxa in
      let s2 := for_up entries 0 (fun i => free_entry (at_ i)) s1 in
      let bitmap_start_page := addr / PAGE_SIZE in
      let bitmap_pages := u64 (size + PAGE_SIZE - 1) / PAGE_SIZE in
      let s3 := mark_used 0 s2 in
      let s4 := for_up (Z.to_nat bitmap_pages) 0
                  (fun i => mark_used (u64 (bitmap_start_page + i))) s3 in
      Done (tt, mk_pmm s4.(sizeof_bitmap) s4.(max_pages) s4.(bitmap)
                  s4.(bitmap_addr) true s4.(free_pages) s4.(total_pages)
                  s4.(total_ram_pages) (u64 (ram * PAGE_SIZE))
                  (u64 (total * PAGE_SIZE)) s4.(max_physical_address)).
End init.

(** ** Well-formedness *)

(** The number of frames the bitmap shows as free. *)
Definition count_free (s : pmm) : Z :=
  count_upto (fun p => negb (page_used s p)) (Z.to_nat s.(max_pages)).

(** The bitmap has the size [init_pmm] computes, holds bytes, and
    [free_pages] counts its clear bits. *)
Record pmm_wf (s : pmm) : Prop := {
  wf_max : 0 <= s.(max_pages) < 2 ^ 52;
  wf_size : s.(sizeof_bitmap) = (s.(max_pages) + 7) / 8;
  wf_len : Z.of_nat (length s.(bitmap)) = s.(sizeof_bitmap);
  wf_bytes : forall i, 0 <= i < s.(sizeof_bitmap) -> in_u8 (aget s.(bitmap) i);
  wf_free : s.(free_pages) = count_free s;
}.

(** The fields a frame operation leaves alone. *)
Definition same_region (s s' : pmm) : Prop :=
  s'.(sizeof_bitmap) = s.(sizeof_bitmap) /\ s'.(max_pages) = s.(max_pages) /\
  s'.(bitmap_addr) = s.(bitmap_addr) /\ s'.(bitmap_init) = s.(bitmap_init) /\
  s'.(total_pages) = s.(total_pages) /\ s'.(total_ram_pages) = s.(total_ram_pages) /\
  s'.(total_memory) = s.(total_memory) /\
  s'.(total_usable_memory) = s.(total_usable_memory) /\
  s'.(max_physical_address) = s.(max_physical_address).

#[export] Instance same_region_preorder : PreOrder same_region.
Proof.
  split; [intros s; unfold same_region; naive_solver|].
  intros s1 s2 s3 (?&?&?&?&?&?&?&?&?) (?&?&?&?&?&?&?&?&?). unfold same_region.
  intuition congruence.
Qed.

Lemma set_bitmap_region b n s : same_region s (set_bitmap b n s).
Proof. done. Qed.

Lemma mark_used_region p s : same_region s (mark_used p s).
Proof. unfold mark_used. repeat case_match; done. Qed.

Lemma mark_free_region p s : same_region s (mark_free p s).
Proof. unfold mark_free. repeat case_match; done. Qed.

Lemma same_region_max s s' : same_region s s' -> s'.(max_pages) = s.(max_pages).
Proof. intros H. apply H. Qed.

Lemma page_used_bit s p :
  page_used s p = (s.(max_pages) <=? p) || Z.testbit (aget s.(bitmap) (p / 8)) (p mod 8).
Proof.
  unfold page_used. destruct (_ <=? p); [done|].
  rewrite land_bit_zero by (apply Z.mod_pos_bound; lia). by rewrite negb_involutive.
Qed.

Lemma free_lt_max s p : page_used s p = false -> p < s.(max_pages).
Proof. rewrite page_used_bit. destruct (Z.leb_spec s.(max_pages) p); [done|lia]. Qed.

(** The index the C code computes is always inside the bitmap. *)
Lemma page_index_in_bounds s p :
  pmm_wf s -> 0 <= p < s.(max_pages) -> 0 <= p / 8 < Z.of_nat (length s.(bitmap)).
Proof. intros [] ?. rewrite wf_len0, wf_size0. wsolve. Qed.

Lemma page_split p q : p / 8 = q / 8 -> p mod 8 = q mod 8 -> p = q.
Proof. intros. wsolve. Qed.

Lemma count_free_bounds s : 0 <= s.(max_pages) -> 0 <= count_free s <= s.(max_pages).
Proof.
  intros. unfold count_free.
  pose proof (count_upto_bounds (fun p => negb (page_used s p)) (Z.to_nat s.(max_pages))). lia.
Qed.

(** *** [mark_used] and [mark_free] change one bit *)

Lemma mark_used_page_used s p q :
  pmm_wf s -> 0 <= p -> 0 <= q ->
  page_used (mark_used p s) q = page_used s q || (q =? p).
Proof.
  intros Hwf Hp Hq. rewrite !page_used_bit.
  rewrite (same_region_max s _ (mark_used_region p s)).
  unfold mark_used. destruct (Z.leb_spec s.(max_pages) p) as [Hge|Hlt].
  - destruct (Z.eqb_spec q p) as [->|]; [|by rewrite orb_false_r].
    destruct (Z.leb_spec s.(max_pages) p); [done|lia].
  - destruct (Z.leb_spec s.(max_pages) q); [done|]. cbn [orb].
    destruct (page_used s p) eqn:Hu; cbn [negb set_bitmap bitmap].
    + destruct (Z.eqb_spec q p) as [->|]; [|by rewrite orb_false_r].
      rewrite page_used_bit in Hu. destruct (Z.leb_spec s.(max_pages) p); [lia|].
      cbn in Hu. by rewrite Hu.
    + destruct (decide (p / 8 = q / 8)) as [He|Hne].
      * rewrite <-He, aget_aset_eq by (by apply page_index_in_bounds).
        rewrite testbit_set_u8 by (apply Z.mod_pos_bound; lia). f_equal.
        destruct (Z.eqb_spec q p) as [->|]; [by rewrite Z.eqb_refl|].
        apply Z.eqb_neq. intros E. apply n. by apply page_split.
      * rewrite aget_aset_ne by done. destruct (Z.eqb_spec q p) as [->|]; [done|].
        by rewrite orb_false_r.
Qed.

Lemma mark_free_page_used s p q :
  pmm_wf s -> 0 <= p -> 0 <= q ->
  page_used (mark_free p s) q =
    page_used s q && negb ((q =? p) && (p <? s.(max_pages))).
Proof.
  intros Hwf Hp Hq. rewrite !page_used_bit.
  rewrite (same_region_max s _ (mark_free_region p s)).
  unfold mark_free. destruct (Z.leb_spec s.(max_pages) p) as [Hge|Hlt].
  - destruct (Z.ltb_spec p s.(max_pages)); [lia|]. by rewrite andb_false_r, andb_true_r.
  - destruct (Z.ltb_spec p s.(max_pages)); [|lia]. rewrite andb_true_r.
    destruct (Z.leb_spec s.(max_pages) q) as [Hq'|Hq'].
    { destruct (Z.eqb_spec q p); [lia|done]. }
    cbn [orb]. destruct (page_used s p) eqn:Hu; cbn [negb set_bitmap bitmap].
    + destruct (decide (p / 8 = q / 8)) as [He|Hne].
      * rewrite <-He, aget_aset_eq by (by apply page_index_in_bounds).
        rewrite testbit_clear_u8 by (apply Z.mod_pos_bound; lia). f_equal. f_equal.
        destruct (Z.eqb_spec q p) as [->|]; [by rewrite Z.eqb_refl|].
        apply Z.eqb_neq. intros E. apply n. by apply page_split.
      * rewrite aget_aset_ne by done. destruct (Z.eqb_spec q p) as [->|]; [done|].
        by rewrite andb_true_r.
    + destruct (Z.eqb_spec q p) as [->|]; [|by rewrite andb_true_r].
      rewrite page_used_bit in Hu. destruct (Z.leb_spec s.(max_pages) p); [lia|].
      cbn in Hu. by rewrite Hu.
Qed.

Lemma wf_aset s p b :
  pmm_wf s -> 0 <= p < s.(max_pages) -> in_u8 b ->
  forall i, 0 <= i < s.(sizeof_bitmap) -> in_u8 (aget (aset s.(bitmap) (p / 8) b) i).
Proof.
  intros Hwf Hp Hb i Hi. destruct (decide (p / 8 = i)) as [<-|].
  - by rewrite aget_aset_eq by (by apply page_index_in_bounds).
  - rewrite aget_aset_ne by done. by apply Hwf.
Qed.

Lemma mark_used_wf s p : pmm_wf s -> 0 <= p -> pmm_wf (mark_used p s).
Proof.
  intros Hwf Hp. pose proof (mark_used_page_used s p) as Hpu.
  unfold mark_used in *. destruct (Z.leb_spec s.(max_pages) p) as [|Hlt]; [done|].
  destruct (page_used s p) eqn:Hu; [done|]. cbn [negb] in *.
  set (s' := set_bitmap _ _ _) in *.
  assert (count_free s = count_free s' + 1) as Hc.
  { unfold count_free. apply count_upto_flip with p; fold s'.
    - cbn. lia.
    - rewrite Hpu by done. by rewrite Hu, Z.eqb_refl.
    - by rewrite Hu.
    - intros j Hj Hne. rewrite Hpu by (done || lia). destruct (Z.eqb_spec j p); [done|].
      by rewrite orb_false_r. }
  pose proof (count_free_bounds s' (proj1 (wf_max s Hwf))) as Hb.
  constructor; try apply Hwf.
  - unfold s'; cbn. rewrite length_aset. exact (wf_len s Hwf).
  - exact (wf_aset s p _ Hwf (conj Hp Hlt) (u8_range _)).
  - cbn [s' set_bitmap free_pages]. rewrite (wf_free s Hwf), Hc.
    pose proof (wf_max s Hwf). change (max_pages s') with (max_pages s) in Hb.
    rewrite u64_id; unfold in_u64; fold s'; lia.
Qed.

Lemma mark_free_wf s p : pmm_wf s -> 0 <= p -> pmm_wf (mark_free p s).
Proof.
  intros Hwf Hp. pose proof (mark_free_page_used s p) as Hpu.
  unfold mark_free in *. destruct (Z.leb_spec s.(max_pages) p) as [|Hlt]; [done|].
  destruct (page_used s p) eqn:Hu; [|done].
  set (s' := set_bitmap _ _ _) in *.
  assert (count_free s' = count_free s + 1) as Hc.
  { unfold count_free. apply count_upto_flip with p; fold s'.
    - cbn. lia.
    - by rewrite Hu.
    - rewrite Hpu by done. rewrite Hu, Z.eqb_refl. by destruct (Z.ltb_spec p s.(max_pages)); [|lia].
    - intros j Hj Hne. rewrite Hpu by (done || lia). destruct (Z.eqb_spec j p); [done|].
      by rewrite andb_true_r. }
  pose proof (count_free_bounds s' (proj1 (wf_max s Hwf))) as Hb.
  constructor; try apply Hwf.
  - unfold s'; cbn. rewrite length_aset. exact (wf_len s Hwf).
  - exact (wf_aset s p _ Hwf (conj Hp Hlt) (u8_range _)).
  - cbn [s' set_bitmap free_pages]. rewrite (wf_free s Hwf), <-Hc.
    pose proof (wf_max s Hwf). change (max_pages s') with (max_pages s) in Hb.
    rewrite u64_id; [done|]; unfold in_u64; fold s'; lia.
Qed.
#[export] Hint Resolve mark_used_wf mark_free_wf : archa.

(** ** [palloc]: exact behaviour *)

(** What a first-fit frame search returns from frame [from] on: the lowest
    free frame, or nothing when every frame is in use. *)
Definition first_fit (s : pmm) (from : Z) (r : Z * pmm) : Prop :=
  (exists p, from <= p < s.(max_pages) /\ page_used s p = false /\
     (forall q, from <= q < p -> page_used s q = true) /\
     r = (p * PAGE_SIZE, mark_used p s)) \/
  ((forall q, from <= q -> page_used s q = true) /\ r = (0, s)).

Lemma first_fit_skip s a b r :
  (forall q, a <= q < b -> page_used s q = true) -> a <= b ->
  first_fit s b r -> first_fit s a r.
Proof.
  intros Hskip Hab [(p & Hp & Hf & Hq & ->)|[Hall ->]].
  - left. exists p. repeat split; try done; [lia|lia|]. intros q Hq'.
    destruct (decide (q < b)); [apply Hskip; lia|apply Hq; lia].
  - right. split; [|done]. intros q Hq.
    destruct (decide (q < b)); [apply Hskip; lia|apply Hall; lia].
Qed.

Lemma mask_bit k : 0 <= k < 8 -> u8 (Z.shiftl 1 k) = Z.shiftl 1 k.
Proof.
  intros Hk. apply u8_id. rewrite Z.shiftl_1_l. unfold in_u8. split; [lia|].
  apply Z.le_lt_trans with (2 ^ 7); [apply Z.pow_le_mono_r; lia|done].
Qed.

Lemma palloc_bits_spec n : forall byte bit s,
  pmm_wf s -> 0 <= byte -> 0 <= bit -> bit + Z.of_nat n = 8 ->
  match palloc_bits n byte bit s with
  | Some r => first_fit s (byte * 8 + bit) r
  | None => forall q, byte * 8 + bit <= q < byte * 8 + 8 -> page_used s q = true
  end.
Proof.
  induction n as [|n IH]; intros byte bit s Hwf Hby Hbit Hn; cbn [palloc_bits].
  { intros q Hq. lia. }
  rewrite mask_bit, land_bit_zero by lia.
  set (page := byte * 8 + bit).
  assert (page / 8 = byte /\ page mod 8 = bit) as [Hd Hm] by (unfold page; wsolve).
  assert (page_used s page = (max_pages s <=? page) || Z.testbit (aget (bitmap s) byte) bit) as Hu.
  { by rewrite page_used_bit, Hd, Hm. }
  destruct (Z.testbit (aget (bitmap s) byte) bit) eqn:E; cbn [negb].
  - rewrite orb_true_r in Hu. specialize (IH byte (bit + 1) s Hwf Hby ltac:(lia) ltac:(lia)).
    destruct (palloc_bits n byte (bit + 1) s) as [r|].
    + apply first_fit_skip with (byte * 8 + (bit + 1)); [|lia|done].
      intros q Hq. by replace q with page by (unfold page in *; lia).
    + intros q Hq. destruct (decide (q = page)) as [->|]; [done|]. apply IH. unfold page in *. lia.
  - rewrite orb_false_r in Hu. destruct (Z.leb_spec (max_pages s) page).
    + right. split; [|done]. intros q Hq. rewrite page_used_bit.
      destruct (Z.leb_spec (max_pages s) q); [done|lia].
    + left. exists page. repeat split; try done; try lia. 
Qed.

Lemma full_byte_used s byte q :
  aget s.(bitmap) byte = 0xFF -> byte * 8 <= q < byte * 8 + 8 -> page_used s q = true.
Proof.
  intros Hb Hq. rewrite page_used_bit.
  replace (q / 8) with byte by wsolve. rewrite Hb. change 255 with (Z.ones 8).
  rewrite Z.ones_spec_low by wsolve. apply orb_true_r.
Qed.

Lemma palloc_bytes_spec n : forall byte s,
  pmm_wf s -> 0 <= byte -> byte + Z.of_nat n = s.(sizeof_bitmap) ->
  first_fit s (byte * 8) (palloc_bytes n byte s).
Proof.
  induction n as [|n IH]; intros byte s Hwf Hby Hn; cbn [palloc_bytes].
  - right. split; [|done]. intros q Hq. rewrite page_used_bit.
    destruct (Z.leb_spec (max_pages s) q) as [|Hlt]; [done|].
    pose proof (wf_size s Hwf). pose proof (wf_max s Hwf). exfalso. wsolve.
  - destruct (Z.eqb_spec (aget (bitmap s) byte) 0xFF) as [Hff|_].
    + apply first_fit_skip with ((byte + 1) * 8); [|lia|apply IH; [done|lia|lia]].
      intros q Hq. apply full_byte_used with byte; [done|lia].
    + pose proof (palloc_bits_spec 8 byte 0 s Hwf Hby ltac:(lia) ltac:(lia)) as Hb.
      rewrite Z.add_0_r in Hb.
      destruct (palloc_bits 8 byte 0 s) as [r|]; [done|].
      apply first_fit_skip with ((byte + 1) * 8); [|lia|apply IH; [done|lia|lia]].
      intros q Hq. apply Hb. lia.
Qed.

(** [palloc] on an initialised bitmap is first-fit from frame 0. *)
Lemma palloc_first_fit s :
  pmm_wf s -> s.(bitmap_init) = true -> first_fit s 0 (palloc s).
Proof.
  intros Hwf Hi. unfold palloc. rewrite Hi. cbn [negb].
  pose proof (wf_max s Hwf). pose proof (wf_size s Hwf).
  apply (palloc_bytes_spec _ 0 s Hwf); [lia|]. rewrite Z2Nat.id; [lia|]. wsolve.
Qed.

Lemma palloc_wf s : pmm_wf s -> pmm_wf (palloc s).2.
Proof.
  intros Hwf. destruct (s.(bitmap_init)) eqn:Hi.
  - destruct (palloc_first_fit s Hwf Hi) as [(p & Hp & _ & _ & ->)|[_ ->]]; [|done].
    cbn. apply mark_used_wf; [done|lia].
  - unfold palloc. by rewrite Hi.
Qed.

Lemma palloc_region s : pmm_wf s -> same_region s (palloc s).2.
Proof.
  intros Hwf. destruct (s.(bitmap_init)) eqn:Hi.
  - destruct (palloc_first_fit s Hwf Hi) as [(p & Hp & _ & _ & ->)|[_ ->]]; [|done].
    apply mark_used_region.
  - unfold palloc. by rewrite Hi.
Qed.

(** The shape a client relies on: frame 0 reserved, so a null return means
    failure. *)
Definition pmm_ready (s : pmm) : Prop :=
  pmm_wf s /\ s.(bitmap_init) = true /\ page_used s 0 = true.

(** A successful [palloc] in client terms. *)
Lemma palloc_some s a s' :
  pmm_ready s -> palloc s = (a, s') -> a <> 0 ->
  exists p, a = p * PAGE_SIZE /\ 0 < p < s.(max_pages) /\ page_used s p = false /\
    (forall q, 0 <= q < p -> page_used s q = true) /\ s' = mark_used p s.
Proof.
  intros (Hwf & Hi & H0) Hpa Ha.
  destruct (palloc_first_fit s Hwf Hi) as [(p & Hp & Hf & Hq & E)|[_ E]]; rewrite E in Hpa;
    injection Hpa as <- <-; [|done].
  exists p. assert (p <> 0) by congruence. repeat split; try done; lia.
Qed.

Lemma palloc_none s s' :
  pmm_ready s -> palloc s = (0, s') -> s' = s /\ forall q, 0 <= q -> page_used s q = true.
Proof.
  intros (Hwf & Hi & H0) Hpa.
  destruct (palloc_first_fit s Hwf Hi) as [(p & Hp & Hf & Hq & E)|[Hall E]]; rewrite E in Hpa.
  - exfalso. injection Hpa as Hz _. assert (p = 0) by (unfold PAGE_SIZE in Hz; lia). congruence.
  - by injection Hpa as <-.
Qed.

Lemma palloc_ready s : pmm_ready s -> pmm_ready (palloc s).2.
Proof.
  intros (Hwf & Hi & H0).
  destruct (palloc_first_fit s Hwf Hi) as [(p & Hp & Hf & Hq & ->)|[Hall ->]]; [|done].
  cbn. split_and!.
  - by apply mark_used_wf; [|lia].
  - destruct (mark_used_region p s) as (_&_&_&Hb&_). congruence.
  - rewrite mark_used_page_used by (done || lia). by rewrite H0.
Qed.
#[export] Hint Resolve palloc_wf palloc_ready : archa.

(** ** Ranges of frames *)

Definition in_range (start n q : Z) : bool := (start <=? q) && (q <? start + n).

Lemma in_range_spec start n q : in_range start n q = true <-> start <= q < start + n.
Proof. unfold in_range. rewrite andb_true_iff, Z.leb_le, Z.ltb_lt. done. Qed.

Lemma in_range_succ start k q :
  0 <= k -> in_range start (k + 1) q = in_range start k q || (q =? start + k).
Proof.
  intros. apply eq_bool_prop_intro. rewrite !Is_true_true, orb_true_iff, !in_range_spec, Z.eqb_eq. lia.
Qed.

Lemma use_range_spec n start s :
  pmm_wf s -> 0 <= start -> start + Z.of_nat n <= 2 ^ 64 ->
  let s' := for_up n 0 (fun i => mark_used (u64 (start + i))) s in
  pmm_wf s' /\ same_region s s' /\
  forall q, 0 <= q -> page_used s' q = page_used s q || in_range start (Z.of_nat n) q.
Proof.
  intros Hwf Hst Hn.
  apply (for_up_inv (fun k t => pmm_wf t /\ same_region s t /\
    forall q, 0 <= q -> page_used t q = page_used s q || in_range start k q)).
  - split_and!; [done|done|]. intros q Hq. unfold in_range.
    destruct (Z.leb_spec start q), (Z.ltb_spec q (start + 0)); try lia; by rewrite orb_false_r.
  - intros k t Hk (Hwt & Hr & Hu). rewrite u64_id by (unfold in_u64; lia). split_and!.
    + apply mark_used_wf; [done|lia].
    + etrans; [done|]. apply mark_used_region.
    + intros q Hq. rewrite mark_used_page_used by (done || lia).
      rewrite Hu, in_range_succ by lia. by rewrite orb_assoc.
Qed.

Lemma free_range_spec n start s :
  pmm_wf s -> 0 <= start -> start + Z.of_nat n <= 2 ^ 64 ->
  let s' := for_up n 0 (fun i => mark_free (u64 (start + i))) s in
  pmm_wf s' /\ same_region s s' /\
  forall q, 0 <= q -> page_used s' q =
    page_used s q && negb (in_range start (Z.of_nat n) q && (q <? s.(max_pages))).
Proof.
  intros Hwf Hst Hn.
  apply (for_up_inv (fun k t => pmm_wf t /\ same_region s t /\
    forall q, 0 <= q -> page_used t q =
      page_used s q && negb (in_range start k q && (q <? s.(max_pages))))).
  - split_and!; [done|done|]. intros q Hq. unfold in_range.
    destruct (Z.leb_spec start q), (Z.ltb_spec q (start + 0)); try lia; by rewrite andb_true_r.
  - intros k t Hk (Hwt & Hr & Hu). rewrite u64_id by (unfold in_u64; lia). split_and!.
    + apply mark_free_wf; [done|lia].
    + etrans; [done|]. apply mark_free_region.
    + intros q Hq. rewrite mark_free_page_used by (done || lia).
      rewrite Hu, in_range_succ, (same_region_max _ _ Hr) by lia.
      destruct (Z.eqb_spec q (start + k)) as [->|]; [|by rewrite andb_true_r, orb_false_r].
      by destruct (page_used s _), (in_range start k _), (_ <? max_pages s).
Qed.

(** ** What [init_pmm] establishes *)

(** UEFI describes a region by a page-aligned start and a number of 4 KiB
    pages that stay inside the 64-bit address space. *)
Definition desc_ok (d : EFI_MEMORY_DESCRIPTOR) : Prop :=
  0 <= d.(PhysicalStart) /\ d.(PhysicalStart) mod PAGE_SIZE = 0 /\
  0 <= d.(NumberOfPages) /\
  d.(PhysicalStart) + d.(NumberOfPages) * PAGE_SIZE < 2 ^ 64.

Definition desc_covers (d : EFI_MEMORY_DESCRIPTOR) (p : Z) : bool :=
  (d.(Type_) =? EfiConventionalMemory) &&
  in_range (d.(PhysicalStart) / PAGE_SIZE) d.(NumberOfPages) p.

(** Frame [p] lies in a conventional region of the first [n] entries. *)
Definition conventional (at_ : Z -> EFI_MEMORY_DESCRIPTOR) (n : Z) (p : Z) : Prop :=
  exists i, 0 <= i < n /\ desc_covers (at_ i) p = true.

Lemma conventional_succ at_ n p :
  0 <= n -> conventional at_ (n + 1) p <-> conventional at_ n p \/ desc_covers (at_ n) p = true.
Proof.
  intros Hn. split.
  - intros (i & Hi & Hc). destruct (decide (i = n)) as [->|]; [by right|].
    left. exists i. split; [lia|done].
  - intros [(i & Hi & Hc)|Hc]; [exists i|exists n]; (split; [lia|done]).
Qed.

Lemma end_of_ok d :
  desc_ok d -> end_of d = d.(PhysicalStart) + d.(NumberOfPages) * PAGE_SIZE.
Proof.
  intros (?&?&?&?). unfold end_of, PAGE_SIZE in *.
  rewrite (u64_id (_ * _)), u64_id by (unfold in_u64; lia). done.
Qed.

Lemma desc_covers_end d p :
  desc_ok d -> desc_covers d p = true -> (p + 1) * PAGE_SIZE <= end_of d.
Proof.
  intros Hok. rewrite end_of_ok by done. destruct Hok as (?&Hal&?&?).
  unfold desc_covers. rewrite andb_true_iff, in_range_spec. intros [_ ?].
  unfold PAGE_SIZE in *. wsolve.
Qed.

(** Where the memory ends: the largest end of a conventional region among the
    first [n] entries. *)
Definition ram_end (at_ : Z -> EFI_MEMORY_DESCRIPTOR) (n : Z) : Z :=
  foldl Z.max 0 (map (fun d => d.(PhysicalStart) + d.(NumberOfPages) * PAGE_SIZE)
    (filter (fun d => d.(Type_) = EfiConventionalMemory) (map at_ (seqZ 0 n)))).

Lemma ram_end_succ at_ k : 0 <= k ->
  ram_end at_ (k + 1) = if decide ((at_ k).(Type_) = EfiConventionalMemory)
    then Z.max (ram_end at_ k) ((at_ k).(PhysicalStart) + (at_ k).(NumberOfPages) * PAGE_SIZE) else ram_end at_ k.
Proof.
  intros Hk. unfold ram_end. rewrite seqZ_app by lia. rewrite map_app, filter_app, map_app, foldl_app.
  assert (seqZ (0 + k) 1 = [k]) as -> by (unfold seqZ; cbn; f_equal; lia). cbn [map].
  case_decide as E; [rewrite filter_cons_True by done|rewrite filter_cons_False by done]; done.
Qed.

Section init_facts.
Context (at_ : Z -> EFI_MEMORY_DESCRIPTOR) (entries : nat).
Context (Hok : forall i, 0 <= i < Z.of_nat entries -> desc_ok (at_ i)).

Lemma scan_bounds :
  let '(maxa, _, _) := for_up entries 0 (fun i => scan_entry (at_ i)) (0, 0, 0) in
  0 <= maxa < 2 ^ 64 /\ maxa = ram_end at_ (Z.of_nat entries) /\
  forall p, conventional at_ (Z.of_nat entries) p -> p < maxa / PAGE_SIZE.
Proof.
  pose proof (for_up_inv (fun k (t : Z * Z * Z) => 0 <= t.1.1 < 2 ^ 64 /\ t.1.1 = ram_end at_ k /\
    forall i p, 0 <= i < k -> desc_covers (at_ i) p = true -> (p + 1) * PAGE_SIZE <= t.1.1)
    (fun i => scan_entry (at_ i)) entries 0 (0, 0, 0)) as Hinv.
  cbn beta in Hinv. destruct (for_up _ _ _ _) as [[maxa tot] ram]. cbn in Hinv.
  destruct Hinv as (Hb & He & Hcov).
  - split; [lia|]. split; [done|]. intros; lia.
  - intros k [[m t] r] Hk (Hb & Hm & Hc). cbn in *. unfold scan_entry. rewrite ram_end_succ, <-Hm by lia.
    specialize (Hok k ltac:(lia)).
    destruct (Z.eqb_spec (Type_ (at_ k)) EfiConventionalMemory) as [E|E]; cbn.
    + rewrite decide_True by done. pose proof (end_of_ok _ Hok) as He. destruct Hok as (?&?&?&?).
      split; [destruct (Z.ltb_spec m (end_of (at_ k))); unfold PAGE_SIZE in *; lia|].
      split; [rewrite <-He; destruct (Z.ltb_spec m (end_of (at_ k))); lia|].
      intros i p Hi Hcv. destruct (decide (i = k)) as [->|].
      * apply desc_covers_end in Hcv; [|done].
        destruct (Z.ltb_spec m (end_of (at_ k))); lia.
      * specialize (Hc i p ltac:(lia) Hcv). destruct (Z.ltb_spec m (end_of (at_ k))); lia.
    + rewrite decide_False by done. split; [done|]. split; [done|]. intros i p Hi Hcv. destruct (decide (i = k)) as [->|].
      * unfold desc_covers in Hcv. apply andb_true_iff in Hcv as [Ht _].
        apply Z.eqb_eq in Ht. done.
      * apply (Hc i p ltac:(lia) Hcv).
  - split; [done|]. split; [done|]. intros p (i & Hi & Hc). specialize (Hcov i p Hi Hc).
    unfold PAGE_SIZE in *. wsolve.
Qed.

Lemma free_entries_spec s :
  pmm_wf s ->
  (forall q, 0 <= q -> page_used s q = true) ->
  let s' := for_up entries 0 (fun i => free_entry (at_ i)) s in
  pmm_wf s' /\ same_region s s' /\
  forall q, 0 <= q -> page_used s' q = false <->
    q < s.(max_pages) /\ conventional at_ (Z.of_nat entries) q.
Proof.
  intros Hwf Hall.
  apply (for_up_inv (fun k t => pmm_wf t /\ same_region s t /\
    forall q, 0 <= q -> page_used t q = false <-> q < s.(max_pages) /\ conventional at_ k q)).
  - split_and!; [done|done|]. intros q Hq. rewrite Hall by done. split; [done|].
    intros (_ & i & ? & _). lia.
  - intros k t Hk (Hwt & Hr & Hu). unfold free_entry.
    specialize (Hok k ltac:(lia)) as (? & ? & ? & ?).
    setoid_rewrite conventional_succ; [|lia]. unfold desc_covers.
    destruct (Z.eqb_spec (Type_ (at_ k)) EfiConventionalMemory) as [E|E]; cbn [andb].
    + destruct (free_range_spec (Z.to_nat (NumberOfPages (at_ k)))
        (PhysicalStart (at_ k) / PAGE_SIZE) t) as (Hw2 & Hr2 & Hu2);
        [done|unfold PAGE_SIZE; wsolve|unfold PAGE_SIZE in *; wsolve|].
      split_and!; [done|by etrans|]. intros q Hq. rewrite Hu2 by done.
      rewrite Z2Nat.id, (same_region_max _ _ Hr) by done.
      rewrite andb_false_iff, negb_false_iff, andb_true_iff, Hu, Z.ltb_lt by done. tauto.
    + split_and!; [done|done|]. intros q Hq. rewrite Hu by done. naive_solver.
Qed.
End init_facts.

Definition mark_init (a b : Z) (s : pmm) : pmm :=
  mk_pmm s.(sizeof_bitmap) s.(max_pages) s.(bitmap) s.(bitmap_addr) true
    s.(free_pages) s.(total_pages) s.(total_ram_pages) a b s.(max_physical_address).

(** The frames [init_pmm] keeps for the bitmap itself. *)
Definition bitmap_frame (s : pmm) (p : Z) : bool :=
  in_range (s.(bitmap_addr) / PAGE_SIZE)
    ((s.(sizeof_bitmap) + PAGE_SIZE - 1) / PAGE_SIZE) p.

Lemma fresh_bitmap_wf n addr init tot ram tm tu maxa :
  0 <= n < 2 ^ 52 ->
  let s := mk_pmm ((n + 7) / 8) n (replicate (Z.to_nat ((n + 7) / 8)) 0xFF) addr init 0
             tot ram tm tu maxa in
  pmm_wf s /\ forall q, 0 <= q -> page_used s q = true.
Proof.
  intros Hn s.
  assert (forall q, 0 <= q -> page_used s q = true) as Hall.
  { intros q Hq. destruct (Z.leb_spec n q) as [?|?].
    - rewrite page_used_bit. cbn. by destruct (Z.leb_spec n q); [|lia].
    - apply full_byte_used with (q / 8); [|wsolve]. cbn.
      rewrite aget_replicate; [done|]. split; [wsolve|]. rewrite Z2Nat.id; wsolve. }
  split; [|done]. constructor; cbn; [done|done| | |].
  - rewrite length_replicate, Z2Nat.id; wsolve.
  - intros i Hi. rewrite aget_replicate; [done|lia].
  - symmetry. apply count_upto_0. intros k Hk. rewrite Hall by lia. done.
Qed.

Lemma mark_init_wf a b s : pmm_wf s -> pmm_wf (mark_init a b s).
Proof. intros []. by constructor. Qed.

Lemma mark_init_used a b s p : page_used (mark_init a b s) p = page_used s p.
Proof. done. Qed.

(** The region second pass picks: the first conventional one that is large
    enough and does not start at address 0. *)
Definition can_hold (size : Z) (d : EFI_MEMORY_DESCRIPTOR) : Prop :=
  d.(Type_) = EfiConventionalMemory /\ size <= d.(NumberOfPages) * PAGE_SIZE /\
  d.(PhysicalStart) <> 0.

Lemma pick_spec at_ entries size :
  (forall i, 0 <= i < Z.of_nat entries -> desc_ok (at_ i)) ->
  let addr := for_up entries 0 (fun i => pick_entry size (at_ i)) 0 in
  if addr =? 0 then forall i, 0 <= i < Z.of_nat entries -> ~ can_hold size (at_ i)
  else exists i, 0 <= i < Z.of_nat entries /\ can_hold size (at_ i) /\
         addr = (at_ i).(PhysicalStart).
Proof.
  intros Hok.
  apply (for_up_inv (fun k addr =>
    if addr =? 0 then forall i, 0 <= i < k -> ~ can_hold size (at_ i)
    else exists i, 0 <= i < k /\ can_hold size (at_ i) /\ addr = (at_ i).(PhysicalStart))).
  { cbn. intros; lia. }
  intros k addr Hk Hinv. unfold pick_entry.
  specialize (Hok k ltac:(lia)) as (?&?&?&?). unfold PAGE_SIZE in *.
  rewrite u64_id by (unfold in_u64; lia).
  destruct (Z.eqb_spec addr 0) as [->|Hne].
  - destruct (Z.eqb_spec (Type_ (at_ k)) EfiConventionalMemory) as [Ht|Ht]; cbn [negb andb];
      [rewrite andb_true_r; destruct (Z.leb_spec size (NumberOfPages (at_ k) * 4096)) as [Hs|Hs]|].
    + destruct (Z.eqb_spec (PhysicalStart (at_ k)) 0) as [Hz|Hz].
      * intros i Hi Hc. destruct (decide (i = k)) as [->|]; [by destruct Hc as (?&?&?)|].
        apply (Hinv i); [lia|done].
      * exists k. split_and!; [lia|lia|done|done].
    + cbn. intros i Hi Hc. destruct (decide (i = k)) as [->|]; [|apply (Hinv i); [lia|done]].
      destruct Hc as (?&?&?). unfold PAGE_SIZE in *. lia.
    + cbn. intros i Hi Hc. destruct (decide (i = k)) as [->|]; [|apply (Hinv i); [lia|done]].
      by destruct Hc as (?&?&?).
  - rewrite andb_false_r. assert (forall b : bool, (if b then addr else addr) = addr) as ->
      by (by intros []). destruct (Z.eqb_spec addr 0); [done|].
    destruct Hinv as (i & Hi & Hc). exists i. split; [lia|done].
Qed.

(** The end of [init_pmm]: frame 0 and the bitmap's own frames are taken. *)
Lemma reserve_tail s start n :
  pmm_wf s -> 0 <= start -> 0 <= n -> start + n <= 2 ^ 64 ->
  let s' := for_up (Z.to_nat n) 0 (fun i => mark_used (u64 (start + i))) (mark_used 0 s) in
  pmm_wf s' /\ same_region s s' /\
  forall q, 0 <= q ->
    (page_used s' q = false <-> page_used s q = false /\ q <> 0 /\ in_range start n q = false).
Proof.
  intros Hwf Hst Hn0 Hn s'.
  destruct (use_range_spec (Z.to_nat n) start (mark_used 0 s)) as (Hw & Hr & Hu);
    [by apply mark_used_wf|done|lia|].
  fold s' in Hw, Hr, Hu. split_and!; [done|etrans; [apply mark_used_region|done]|].
  intros q Hq. rewrite Hu, mark_used_page_used, !orb_false_iff, Z2Nat.id, Z.eqb_neq by (done || lia). tauto.
Qed.

Section init_spec.
Context (read_desc : Z -> EFI_MEMORY_DESCRIPTOR) (mem_map size dsize : Z).
Let entries := Z.to_nat (size / dsize).
Let at_ := desc_at read_desc mem_map dsize.
Context (Hd : dsize <> 0) (Hpos : 0 <= size / dsize).
Context (Hok : forall i, 0 <= i < size / dsize -> desc_ok (at_ i)).

(** The frames left free: conventional ones, except 0 and the bitmap's. *)
Definition init_post (s' : pmm) : Prop :=
  pmm_wf s' /\ s'.(bitmap_init) = true /\
  (exists i, 0 <= i < size / dsize /\ can_hold s'.(sizeof_bitmap) (at_ i) /\
     s'.(bitmap_addr) = (at_ i).(PhysicalStart)) /\
  (forall p, 0 <= p ->
    (page_used s' p = false <->
     conventional at_ (size / dsize) p /\ p <> 0 /\ bitmap_frame s' p = false)) /\
  s'.(max_physical_address) = ram_end at_ (size / dsize) /\
  s'.(max_pages) = ram_end at_ (size / dsize) / PAGE_SIZE.

Lemma init_pmm_result s0 :
  match init_pmm read_desc mem_map size dsize s0 with
  | Done (_, s') => init_post s'
  | Panicked _ => forall i, 0 <= i < size / dsize ->
      ~ can_hold ((ram_end at_ (size / dsize) / PAGE_SIZE + 7) / 8) (at_ i)
  | Fault => False
  end.
Proof.
  assert (Hne : Z.of_nat entries = size / dsize) by (unfold entries; lia).
  assert (Hok' : forall i, 0 <= i < Z.of_nat entries -> desc_ok (at_ i)) by (by rewrite Hne).
  unfold init_pmm. destruct (Z.eqb_spec dsize 0) as [|_]; [done|]. fold at_ entries.
  pose proof (scan_bounds at_ entries Hok') as Hscan.
  destruct (for_up entries 0 (fun i => scan_entry _) _) as [[maxa tot] ram].
  rewrite Hne in Hscan. destruct Hscan as (Hmax & Hend & Hcov). rewrite <-Hend.
  set (maxp := maxa / PAGE_SIZE) in *.
  assert (0 <= maxp < 2 ^ 52) as Hmaxp by (unfold maxp, PAGE_SIZE; wsolve).
  rewrite (u64_id (maxp + 7)) by (unfold in_u64; lia).
  pose proof (pick_spec at_ entries ((maxp + 7) / 8) Hok') as Hpick. cbn zeta in Hpick.
  change (fun i => pick_entry ((maxp + 7) / 8) (desc_at read_desc mem_map dsize i))
    with (fun i => pick_entry ((maxp + 7) / 8) (at_ i)).
  set (addr := for_up entries 0 _ 0) in *. clearbody addr.
  destruct (Z.eqb_spec addr 0) as [_|Ha].
  { by rewrite Hne in Hpick. }
  rewrite Hne in Hpick. destruct Hpick as (j & Hj & Hjc & Hja).
  pose proof (Hok j Hj) as (?&?&?&?).
  destruct (fresh_bitmap_wf maxp addr s0.(bitmap_init) tot ram s0.(total_memory)
    s0.(total_usable_memory) maxa Hmaxp) as [Hwf1 Hall1].
  set (s1 := mk_pmm _ _ _ _ _ _ _ _ _ _ _) in *.
  destruct (free_entries_spec at_ entries Hok' s1 Hwf1 Hall1) as (Hwf2 & Hr2 & Hu2).
  fold s1 at_.
  change (fun i => free_entry (desc_at read_desc mem_map dsize i)) with (fun i => free_entry (at_ i)).
  set (s2 := for_up entries 0 _ s1) in *. clearbody s2.
  rewrite (u64_id ((maxp + 7) / 8 + PAGE_SIZE - 1)) by (unfold in_u64, PAGE_SIZE; wsolve).
  destruct (reserve_tail s2 (addr / PAGE_SIZE) (((maxp + 7) / 8 + PAGE_SIZE - 1) / PAGE_SIZE))
    as (Hwf3 & Hr3 & Hu3); [done|unfold PAGE_SIZE in *; wsolve..|].
  set (s3 := for_up (Z.to_nat _) 0 _ (mark_used 0 s2)) in *. clearbody s3.
  pose proof (transitivity Hr2 Hr3) as (Hsz & Hmx & Had & _ & _ & _ & _ & _ & Hmxa).
  change (init_post (mark_init (u64 (ram * PAGE_SIZE)) (u64 (tot * PAGE_SIZE)) s3)).
  split; [by apply mark_init_wf|]. split; [done|]. split; [|split; [|split; rewrite <-Hend; [exact Hmxa|exact Hmx]]].
  - exists j. cbn. rewrite Hsz, Had. done.
  - intros p Hp. rewrite mark_init_used, Hu3, Hu2, Hne by done.
    unfold bitmap_frame. cbn. rewrite Hsz, Had. cbn.
    split; [tauto|]. intros (Hc & Hp0 & Hb). pose proof (Hcov p Hc). tauto.
Qed.
End init_spec.

(** ** The operations as a transition system *)

Inductive pmm_op :=
  | OpPalloc
  | OpPfree (address : Z)
  | OpReserve (base length : Z).

Definition run_op (op : pmm_op) (s : pmm) : pmm :=
  match op with
  | OpPalloc => (palloc s).2
  | OpPfree a => pfree a s
  | OpReserve b l => reserve_region b l s
  end.

(** Arguments are C [uint64_t] values. *)
Definition op_args (op : pmm_op) : Prop :=
  match op with
  | OpPalloc => True
  | OpPfree a => in_u64 a
  | OpReserve b l => in_u64 b /\ in_u64 l
  end.

Inductive pmm_reach (s0 : pmm) : pmm -> Prop :=
  | reach_refl : pmm_reach s0 s0
  | reach_op s op : pmm_reach s0 s -> op_args op -> pmm_reach s0 (run_op op s).

Lemma run_op_wf op s : op_args op -> pmm_wf s -> pmm_wf (run_op op s).
Proof.
  intros Ha Hwf. destruct op as [|a|b l]; cbn in *.
  - auto with archa.
  - apply mark_free_wf; [done|]. unfold in_u64, PAGE_SIZE in *. wsolve.
  - unfold reserve_region. destruct Ha as [??].
    apply use_range_spec; [done|unfold in_u64, PAGE_SIZE in *; wsolve|].
    pose proof (u64_range (l + PAGE_SIZE - 1)). unfold in_u64, PAGE_SIZE in *. wsolve.
Qed.

Lemma reach_wf s0 s : pmm_wf s0 -> pmm_reach s0 s -> pmm_wf s.
Proof. intros H0. induction 1 as [|s op _ IH Ha]; [done|]. by apply run_op_wf. Qed.

(** ** Freeing undoes allocating *)

Lemma set_bitmap_back b n s : set_bitmap s.(bitmap) s.(free_pages) (set_bitmap b n s) = s.
Proof. by destruct s. Qed.

Lemma bit_set_clear b k : in_u8 b -> 0 <= k < 8 -> Z.testbit b k = false ->
  u8 (Z.land (u8 (Z.lor b (Z.shiftl 1 k))) (Z.lnot (Z.shiftl 1 k))) = b.
Proof.
  intros Hb Hk Hf. apply u8_ext; [apply u8_range|done|]. intros j Hj.
  rewrite testbit_clear_u8, testbit_set_u8 by done.
  destruct (Z.eqb_spec j k) as [->|]; [by rewrite Hf|by rewrite orb_false_r, andb_true_r].
Qed.

Lemma bit_clear_set b k : in_u8 b -> 0 <= k < 8 -> Z.testbit b k = true ->
  u8 (Z.lor (u8 (Z.land b (Z.lnot (Z.shiftl 1 k)))) (Z.shiftl 1 k)) = b.
Proof.
  intros Hb Hk Hf. apply u8_ext; [apply u8_range|done|]. intros j Hj.
  rewrite testbit_set_u8, testbit_clear_u8 by done.
  destruct (Z.eqb_spec j k) as [->|]; [by rewrite Hf|by rewrite andb_true_r, orb_false_r].
Qed.

Lemma free_pages_range s : pmm_wf s -> 0 <= s.(free_pages) < 2 ^ 52.
Proof.
  intros Hwf. rewrite (wf_free s Hwf). pose proof (wf_max s Hwf).
  pose proof (count_free_bounds s). lia.
Qed.

Lemma mark_free_mark_used s p :
  pmm_wf s -> 0 <= p -> page_used s p = false -> mark_free p (mark_used p s) = s.
Proof.
  intros Hwf Hp Hf. pose proof (free_lt_max s p Hf) as Hlt.
  pose proof (mark_used_page_used s p p Hwf Hp Hp) as Hu.
  pose proof (wf_free _ (mark_used_wf s p Hwf Hp)) as Hc.
  pose proof (free_pages_range s Hwf). pose proof (free_pages_range _ (mark_used_wf s p Hwf Hp)).
  unfold mark_free. rewrite (same_region_max _ _ (mark_used_region p s)), Hu, Z.eqb_refl, orb_true_r.
  destruct (Z.leb_spec (max_pages s) p); [lia|]. clear Hc.
  unfold mark_used in *. destruct (Z.leb_spec (max_pages s) p); [lia|]. rewrite Hf in *. cbn in *.
  pose proof (page_index_in_bounds s p Hwf ltac:(lia)).
  rewrite aget_aset_eq, aset_aset, bit_set_clear, aset_aget by
    (first [done | apply Z.mod_pos_bound; lia | apply Hwf; rewrite <-(wf_len s Hwf); done |
      rewrite page_used_bit in Hf; by apply orb_false_iff in Hf as [_ ?]]).
  assert (in_u64 (free_pages s)) by (unfold in_u64; lia).
  rewrite u64_pred_succ by done. apply set_bitmap_back.
Qed.

Lemma mark_used_mark_free s p :
  pmm_wf s -> 0 <= p < s.(max_pages) -> page_used s p = true -> mark_used p (mark_free p s) = s.
Proof.
  intros Hwf Hp Hf.
  pose proof (mark_free_page_used s p p Hwf ltac:(lia) ltac:(lia)) as Hu.
  pose proof (free_pages_range s Hwf). pose proof (free_pages_range _ (mark_free_wf s p Hwf ltac:(lia))).
  unfold mark_used. rewrite (same_region_max _ _ (mark_free_region p s)), Hu, Z.eqb_refl.
  destruct (Z.ltb_spec p (max_pages s)); [|lia]. cbn [andb negb]. rewrite andb_false_r. cbn [negb].
  destruct (Z.leb_spec (max_pages s) p); [lia|].
  unfold mark_free in *. destruct (Z.leb_spec (max_pages s) p); [lia|]. rewrite Hf in *. cbn in *.
  pose proof (page_index_in_bounds s p Hwf ltac:(lia)).
  rewrite aget_aset_eq, aset_aset, bit_clear_set, aset_aget by
    (first [done | apply Z.mod_pos_bound; lia | apply Hwf; rewrite <-(wf_len s Hwf); done |
      rewrite page_used_bit in Hf; destruct (Z.leb_spec (max_pages s) p); [lia|done]]).
  assert (in_u64 (free_pages s)) by (unfold in_u64; lia).
  rewrite u64_succ_pred by done. apply set_bitmap_back.
Qed.

(** ** Properties *)

(** A small machine: 16 frames, conventional memory in frames 2-9. *)
Module Demo.
Definition desc (a : Z) : EFI_MEMORY_DESCRIPTOR :=
  if a =? 0x5000 then mk_desc EfiConventionalMemory 0x2000 0 8 0
  else if a =? 0x5030 then mk_desc EfiLoaderData 0xA000 0 2 0
  else mk_desc EfiConventionalMemory 0 0 1 0.
Definition state : pmm :=
  match init_pmm desc 0x5000 144 48 pmm_boot with
  | Done (_, s) => s
  | _ => pmm_boot
  end.
Lemma desc_all_ok : forall i, 0 <= i < 144 / 48 -> desc_ok (desc_at desc 0x5000 48 i).
Proof.
  intros i Hi. change (144 / 48) with 3 in Hi.
  assert (i = 0 \/ i = 1 \/ i = 2) as [-> | [-> | ->]] by lia; by vm_compute.
Qed.
Lemma state_post : init_post desc 0x5000 144 48 state.
Proof.
  pose proof (init_pmm_result desc 0x5000 144 48 ltac:(lia) ltac:(by vm_compute) desc_all_ok pmm_boot) as H.
  unfold state. destruct (init_pmm desc 0x5000 144 48 pmm_boot) as [[[] s]|w|] eqn:E; [done|..];
    by vm_compute in E.
Qed.
Lemma state_ready : pmm_ready state.
Proof. pose proof state_post as (Hwf & Hi & _). by repeat split; try apply Hwf. Qed.
End Demo.

(** C1. [palloc] is first-fit and complete: on an initialised manager it
    either returns the address of the lowest free frame, takes exactly that
    frame and decrements [free_pages], or returns 0 with the state unchanged
    and then no frame is free. *)
Theorem palloc_spec s :
  pmm_ready s ->
  let '(a, s') := palloc s in
  (exists p, a = p * PAGE_SIZE /\ 0 < p < s.(max_pages) /\ page_used s p = false /\
     (forall q, 0 <= q < p -> page_used s q = true) /\
     (forall q, 0 <= q -> page_used s' q = page_used s q || (q =? p)) /\
     s'.(free_pages) = s.(free_pages) - 1 /\ same_region s s') \/
  (a = 0 /\ s' = s /\ s.(free_pages) = 0 /\ forall q, 0 <= q -> page_used s q = true).
Proof.
  intros Hr. destruct (palloc s) as [a s'] eqn:E.
  pose proof Hr as (Hwf & Hi & H0). destruct (decide (a = 0)) as [->|Ha].
  - right. destruct (palloc_none s s' Hr E) as [-> Hall]. split_and!; [done|done| |done].
    rewrite (wf_free s Hwf). apply count_upto_0. intros k Hk. rewrite Hall by lia. done.
  - left. destruct (palloc_some s a s' Hr E Ha) as (p & -> & Hp & Hf & Hlow & ->).
    exists p. split_and!; try done; try lia.
    + intros q Hq. apply mark_used_page_used; [done|lia|done].
    + pose proof (free_pages_range _ (mark_used_wf s p Hwf ltac:(lia))).
      pose proof (free_pages_range s Hwf).
      unfold mark_used in *. destruct (Z.leb_spec (max_pages s) p); [lia|].
      rewrite Hf in *. cbn in *. wsolve.
    + apply mark_used_region.
Qed.

Lemma palloc_spec_witness :
  pmm_ready Demo.state /\ (palloc Demo.state).1 = 0x3000 /\
  (let '(a, s') := palloc Demo.state in
   (exists p, a = p * PAGE_SIZE /\ 0 < p < Demo.state.(max_pages) /\ page_used Demo.state p = false /\
     (forall q, 0 <= q < p -> page_used Demo.state q = true) /\
     (forall q, 0 <= q -> page_used s' q = page_used Demo.state q || (q =? p)) /\
     s'.(free_pages) = Demo.state.(free_pages) - 1 /\ same_region Demo.state s') \/
   (a = 0 /\ s' = Demo.state /\ Demo.state.(free_pages) = 0 /\
     forall q, 0 <= q -> page_used Demo.state q = true)).
Proof.
  split; [exact Demo.state_ready|]. split; [vm_compute; reflexivity|].
  exact (palloc_spec Demo.state Demo.state_ready).
Defined.

(** Freeing the frame [palloc] just returned restores the manager
    exactly: bitmap, counters and all. *)
Theorem pfree_palloc_roundtrip s a s' :
  pmm_ready s -> palloc s = (a, s') -> a <> 0 -> pfree a s' = s.
Proof.
  intros Hr E Ha. destruct (palloc_some s a s' Hr E Ha) as (p & -> & Hp & Hf & _ & ->).
  unfold pfree, PAGE_SIZE. rewrite Z.div_mul by done.
  apply mark_free_mark_used; [apply Hr|lia|done].
Qed.

Lemma pfree_palloc_roundtrip_witness :
  palloc Demo.state = (0x3000, (palloc Demo.state).2) /\
  pfree 0x3000 (palloc Demo.state).2 = Demo.state.
Proof.
  assert (palloc Demo.state = (0x3000, (palloc Demo.state).2)) as E by (vm_compute; reflexivity).
  split; [exact E|].
  exact (pfree_palloc_roundtrip Demo.state 0x3000 _ Demo.state_ready E ltac:(lia)).
Defined.

(** C13. Whatever sequence of allocations, frees and reservations runs after
    [init_pmm], the bitmap keeps its size, [free_pages] is the number of
    clear bits, and it never exceeds the number of frames. *)
Theorem pmm_invariant_reachable rd mem_map size dsize s0 s1 s :
  dsize <> 0 -> 0 <= size / dsize ->
  (forall i, 0 <= i < size / dsize -> desc_ok (desc_at rd mem_map dsize i)) ->
  init_pmm rd mem_map size dsize s0 = Done (tt, s1) -> pmm_reach s1 s ->
  pmm_wf s /\ s.(free_pages) = count_free s /\ 0 <= s.(free_pages) <= s.(max_pages).
Proof.
  intros Hd Hpos Hok Hinit Hreach.
  pose proof (init_pmm_result rd mem_map size dsize Hd Hpos Hok s0) as Hp.
  rewrite Hinit in Hp. destruct Hp as (Hwf1 & _).
  pose proof (reach_wf s1 s Hwf1 Hreach) as Hwf. split_and!; [done|by apply wf_free|..];
    rewrite (wf_free s Hwf); apply count_free_bounds; apply (wf_max s Hwf).
Qed.

Lemma pmm_invariant_reachable_witness :
  let s := run_op (OpPfree 0x2000) (run_op OpPalloc Demo.state) in
  pmm_wf s /\ s.(free_pages) = count_free s /\ 0 <= s.(free_pages) <= s.(max_pages).
Proof.
  apply (pmm_invariant_reachable Demo.desc 0x5000 144 48 pmm_boot Demo.state);
    [lia|by vm_compute|exact Demo.desc_all_ok|vm_compute; reflexivity|].
  apply reach_op; [apply reach_op; [apply reach_refl|done]|].
  cbn. unfold in_u64. lia.
Defined.

(** C26. [init_pmm] on a well-formed UEFI map counts the frames up to the largest
    end of a conventional region ([ram_end]) and needs a bit for each.  It panics
    only when no conventional region can hold that many bytes; otherwise it puts
    a bitmap of that size inside a conventional region and leaves free exactly
    the conventional frames other than frame 0 and the frames of the bitmap. *)
Theorem init_pmm_spec rd mem_map size dsize s0 :
  dsize <> 0 -> 0 <= size / dsize ->
  (forall i, 0 <= i < size / dsize -> desc_ok (desc_at rd mem_map dsize i)) ->
  match init_pmm rd mem_map size dsize s0 with
  | Done (_, s') =>
      s'.(bitmap_init) = true /\ pmm_wf s' /\
      (exists i, 0 <= i < size / dsize /\
         can_hold s'.(sizeof_bitmap) (desc_at rd mem_map dsize i) /\
         s'.(bitmap_addr) = (desc_at rd mem_map dsize i).(PhysicalStart)) /\
      (forall p, 0 <= p ->
        (page_used s' p = false <->
         conventional (desc_at rd mem_map dsize) (size / dsize) p /\
         p <> 0 /\ bitmap_frame s' p = false)) /\
      s'.(max_physical_address) = ram_end (desc_at rd mem_map dsize) (size / dsize) /\
      s'.(max_pages) = ram_end (desc_at rd mem_map dsize) (size / dsize) / PAGE_SIZE /\
      s'.(sizeof_bitmap) = (ram_end (desc_at rd mem_map dsize) (size / dsize) / PAGE_SIZE + 7) / 8
  | Panicked _ => forall i, 0 <= i < size / dsize ->
      ~ can_hold ((ram_end (desc_at rd mem_map dsize) (size / dsize) / PAGE_SIZE + 7) / 8) (desc_at rd mem_map dsize i)
  | Fault => False
  end.
Proof.
  intros Hd Hpos Hok. pose proof (init_pmm_result rd mem_map size dsize Hd Hpos Hok s0) as H.
  destruct (init_pmm rd mem_map size dsize s0) as [[[] s']|w|]; [|done|done].
  destruct H as (Hwf & ? & ? & ? & ? & Hm). split_and!; [done..|]. by rewrite (wf_size _ Hwf), Hm.
Qed.

Lemma init_pmm_spec_witness :
  0 <= 144 / 48 /\
  match init_pmm Demo.desc 0x5000 144 48 pmm_boot with
  | Done (_, s') =>
      s'.(bitmap_init) = true /\ pmm_wf s' /\
      (exists i, 0 <= i < 144 / 48 /\
         can_hold s'.(sizeof_bitmap) (desc_at Demo.desc 0x5000 48 i) /\
         s'.(bitmap_addr) = (desc_at Demo.desc 0x5000 48 i).(PhysicalStart)) /\
      (forall p, 0 <= p ->
        (page_used s' p = false <->
         conventional (desc_at Demo.desc 0x5000 48) (144 / 48) p /\
         p <> 0 /\ bitmap_frame s' p = false)) /\
      s'.(max_physical_address) = ram_end (desc_at Demo.desc 0x5000 48) (144 / 48) /\
      s'.(max_pages) = ram_end (desc_at Demo.desc 0x5000 48) (144 / 48) / PAGE_SIZE /\
      s'.(sizeof_bitmap) = (ram_end (desc_at Demo.desc 0x5000 48) (144 / 48) / PAGE_SIZE + 7) / 8
  | Panicked _ => forall i, 0 <= i < 144 / 48 ->
      ~ can_hold ((ram_end (desc_at Demo.desc 0x5000 48) (144 / 48) / PAGE_SIZE + 7) / 8) (desc_at Demo.desc 0x5000 48 i)
  | Fault => False
  end.
Proof.
  split; [vm_compute; discriminate|].
  exact (init_pmm_spec Demo.desc 0x5000 144 48 pmm_boot ltac:(lia) ltac:(by vm_compute)
    Demo.desc_all_ok).
Defined.

(** Freeing address 0 breaks the "0 means out of memory" convention of
    [palloc]: the next call takes frame 0 and returns its address, 0, although
    frames are free; the caller sees a failure and frame 0 is lost. *)
Theorem pfree_zero_hides_memory s :
  pmm_ready s -> 0 < s.(max_pages) ->
  palloc (pfree 0 s) = (0, s) /\ (pfree 0 s).(free_pages) = s.(free_pages) + 1.
Proof.
  intros (Hwf & Hi & H0) Hm. change (pfree 0 s) with (mark_free 0 s).
  pose proof (mark_free_wf s 0 Hwf ltac:(lia)) as Hwf'.
  pose proof (mark_free_region 0 s) as (_ & Hmx & _ & Hin & _).
  assert (page_used (mark_free 0 s) 0 = false) as Hf0.
  { rewrite mark_free_page_used by (done || lia). rewrite H0. cbn.
    by destruct (Z.ltb_spec 0 (max_pages s)); [|lia]. }
  split.
  - destruct (palloc_first_fit _ Hwf' (eq_trans Hin Hi)) as [(p & Hp & Hf & Hq & ->)|[Hall _]].
    + assert (p = 0) as -> by (destruct (decide (p = 0)); [done|]; rewrite (Hq 0) in Hf0 by lia; done).
      by rewrite mark_used_mark_free by (done || lia).
    + rewrite (Hall 0) in Hf0 by lia. done.
  - pose proof (free_pages_range _ Hwf'). pose proof (free_pages_range s Hwf).
    unfold mark_free in *. destruct (Z.leb_spec (max_pages s) 0); [lia|].
    rewrite H0 in *. cbn in *. wsolve.
Qed.

Lemma pfree_zero_hides_memory_witness :
  0 < Demo.state.(max_pages) /\ 0 < Demo.state.(free_pages) /\
  palloc (pfree 0 Demo.state) = (0, Demo.state) /\
  (pfree 0 Demo.state).(free_pages) = Demo.state.(free_pages) + 1.
Proof.
  assert (0 < Demo.state.(max_pages)) as Hm by (vm_compute; reflexivity).
  split; [exact Hm|]. split; [vm_compute; reflexivity|].
  exact (pfree_zero_hides_memory Demo.state Demo.state_ready Hm).
Defined.
