(* ===== verification/PageTable.v ===== *)
(** * x86-64 page tables

    The entry layout and index macros of [kernel/arch/x86_64/mm/vmm.h] and
    [vmm.c], the page walk of the processor, and the theory of a tree of
    tables kept in a word-addressed memory. *)

From S2P Require Import Prelude.

Definition PTE_PRESENT : Z := 1.
Definition PTE_RW : Z := 2.
Definition PTE_PS : Z := 128.
Definition PTE_ADDR_MASK : Z := 0x000FFFFFFFFFF000.
Definition pml4_index (v : Z) : Z := Z.land (Z.shiftr v 39) 0x1FF.
Definition pdpt_index (v : Z) : Z := Z.land (Z.shiftr v 30) 0x1FF.
Definition pd_index (v : Z) : Z := Z.land (Z.shiftr v 21) 0x1FF.
Definition pt_index (v : Z) : Z := Z.land (Z.shiftr v 12) 0x1FF.

Definition present (e : Z) : bool := negb (Z.land e PTE_PRESENT =? 0).

(** [phys | PTE_PRESENT | PTE_RW] *)
Definition link_entry (phys : Z) : Z := Z.lor (Z.lor phys PTE_PRESENT) PTE_RW.

(** ** The processor's page walk

    What the hardware does with the tables: the reference [map_page] and
    [unmap_page] are judged against (Intel SDM vol. 3, 4-level paging). *)

Definition walk (m : gmap Z Z) (cr3 v : Z) : option Z :=
  let e4 := m !!! (Z.land cr3 PTE_ADDR_MASK + 8 * pml4_index v) in
  if negb (present e4) then None else
  let e3 := m !!! (Z.land e4 PTE_ADDR_MASK + 8 * pdpt_index v) in
  if negb (present e3) then None else
  if negb (Z.land e3 PTE_PS =? 0)
  then Some (Z.land e3 0x000FFFFFC0000000 + v mod 2 ^ 30) else
  let e2 := m !!! (Z.land e3 PTE_ADDR_MASK + 8 * pd_index v) in
  if negb (present e2) then None else
  if negb (Z.land e2 PTE_PS =? 0)
  then Some (Z.land e2 0x000FFFFFFFE00000 + v mod 2 ^ 21) else
  let e1 := m !!! (Z.land e2 PTE_ADDR_MASK + 8 * pt_index v) in
  if negb (present e1) then None else
  Some (Z.land e1 PTE_ADDR_MASK + v mod 2 ^ 12).


(** ** Entries *)

Definition idx_ok (i : Z) : Prop := 0 <= i < 512.

Lemma land_511 x : Z.land x 0x1FF = x mod 512.
Proof. change 0x1FF with (Z.ones 9). rewrite Z.land_ones by lia. done. Qed.

Lemma pml4_index_eq v : pml4_index v = v / 2 ^ 39 mod 512.
Proof. unfold pml4_index. by rewrite land_511, Z.shiftr_div_pow2 by lia. Qed.
Lemma pdpt_index_eq v : pdpt_index v = v / 2 ^ 30 mod 512.
Proof. unfold pdpt_index. by rewrite land_511, Z.shiftr_div_pow2 by lia. Qed.
Lemma pd_index_eq v : pd_index v = v / 2 ^ 21 mod 512.
Proof. unfold pd_index. by rewrite land_511, Z.shiftr_div_pow2 by lia. Qed.
Lemma pt_index_eq v : pt_index v = v / 2 ^ 12 mod 512.
Proof. unfold pt_index. by rewrite land_511, Z.shiftr_div_pow2 by lia. Qed.

Lemma pml4_index_ok v : idx_ok (pml4_index v).
Proof. rewrite pml4_index_eq. by apply Z.mod_pos_bound. Qed.
Lemma pdpt_index_ok v : idx_ok (pdpt_index v).
Proof. rewrite pdpt_index_eq. by apply Z.mod_pos_bound. Qed.
Lemma pd_index_ok v : idx_ok (pd_index v).
Proof. rewrite pd_index_eq. by apply Z.mod_pos_bound. Qed.
Lemma pt_index_ok v : idx_ok (pt_index v).
Proof. rewrite pt_index_eq. by apply Z.mod_pos_bound. Qed.
#[export] Hint Resolve pml4_index_ok pdpt_index_ok pd_index_ok pt_index_ok : archa.

(** The virtual page number the walk uses. *)
Definition vpn (v : Z) : Z := v / 4096 mod 2 ^ 36.

Lemma vpn_split v w :
  pml4_index v = pml4_index w -> pdpt_index v = pdpt_index w ->
  pd_index v = pd_index w -> pt_index v = pt_index w -> vpn v = vpn w.
Proof.
  rewrite !pml4_index_eq, !pdpt_index_eq, !pd_index_eq, !pt_index_eq. unfold vpn.
  assert (forall x, x / 4096 mod 2 ^ 36 =
    x / 2 ^ 12 mod 512 + 512 * (x / 2 ^ 21 mod 512) + 262144 * (x / 2 ^ 30 mod 512)
      + 134217728 * (x / 2 ^ 39 mod 512)) as E.
  { intros x.
    replace (x / 2 ^ 21) with (x / 4096 / 512) by (rewrite Z.div_div by lia; done).
    replace (x / 2 ^ 30) with (x / 4096 / 512 / 512) by (rewrite !Z.div_div by lia; done).
    replace (x / 2 ^ 39) with (x / 4096 / 512 / 512 / 512) by (rewrite !Z.div_div by lia; done).
    change (2 ^ 12) with 4096. generalize (x / 4096). intros y. Z.div_mod_to_equations. lia. }
  intros. rewrite !E. congruence.
Qed.

Lemma indexes_of_vpn v w :
  vpn v = vpn w -> pml4_index v = pml4_index w /\ pdpt_index v = pdpt_index w /\
    pd_index v = pd_index w /\ pt_index v = pt_index w.
Proof.
  rewrite !pml4_index_eq, !pdpt_index_eq, !pd_index_eq, !pt_index_eq. unfold vpn.
  assert (forall x, x / 2 ^ 39 mod 512 = x / 4096 mod 2 ^ 36 / 134217728 /\
    x / 2 ^ 30 mod 512 = x / 4096 mod 2 ^ 36 / 262144 mod 512 /\
    x / 2 ^ 21 mod 512 = x / 4096 mod 2 ^ 36 / 512 mod 512 /\
    x / 2 ^ 12 mod 512 = x / 4096 mod 2 ^ 36 mod 512) as E.
  { intros x.
    replace (x / 2 ^ 21) with (x / 4096 / 512) by (rewrite Z.div_div by lia; done).
    replace (x / 2 ^ 30) with (x / 4096 / 262144) by (rewrite Z.div_div by lia; done).
    replace (x / 2 ^ 39) with (x / 4096 / 134217728) by (rewrite Z.div_div by lia; done).
    change (2 ^ 12) with 4096. generalize (x / 4096). intros y.
    split_and!; Z.div_mod_to_equations; lia. }
  intros Hv. destruct (E v) as (-> & -> & -> & ->), (E w) as (-> & -> & -> & ->).
  by rewrite Hv.
Qed.

Lemma mask_addr x : Z.land x PTE_ADDR_MASK = x / 4096 mod 2 ^ 40 * 4096.
Proof.
  change PTE_ADDR_MASK with (Z.shiftl (Z.ones 40) 12).
  change 4096 with (2 ^ 12). rewrite <-Z.shiftr_div_pow2, <-Z.shiftl_mul_pow2, <-Z.land_ones by lia.
  apply Z.bits_inj'. intros n Hn. rewrite Z.land_spec, !Z.shiftl_spec by lia.
  destruct (decide (n < 12)).
  - rewrite !(Z.testbit_neg_r _ (n - 12)) by lia. apply andb_false_r.
  - rewrite Z.land_spec, Z.shiftr_spec by lia. by replace (n - 12 + 12) with n by lia.
Qed.

Lemma mask_frame f : 0 <= f < 2 ^ 40 -> Z.land (f * 4096) PTE_ADDR_MASK = f * 4096.
Proof. intros. rewrite mask_addr, Z.div_mul, Z.mod_small by lia. done. Qed.

Lemma mask_idem x : Z.land (Z.land x PTE_ADDR_MASK) PTE_ADDR_MASK = Z.land x PTE_ADDR_MASK.
Proof. by rewrite <-Z.land_assoc, Z.land_diag. Qed.

(** Every masked address is a frame address. *)
Lemma mask_is_frame x : exists f, Z.land x PTE_ADDR_MASK = f * 4096 /\ 0 <= f < 2 ^ 40.
Proof. rewrite mask_addr. eexists. split; [done|]. by apply Z.mod_pos_bound. Qed.

Lemma link_entry_eq f : link_entry (f * 4096) = f * 4096 + 3.
Proof.
  unfold link_entry, PTE_PRESENT, PTE_RW. rewrite <-Z.lor_assoc. change (Z.lor 1 2) with 3.
  symmetry. apply Z.add_nocarry_lor. apply Z.bits_inj'. intros n Hn.
  change (f * 4096) with (f * 2 ^ 12). rewrite <-Z.shiftl_mul_pow2 by lia.
  rewrite Z.land_spec, Z.bits_0, Z.shiftl_spec by lia.
  destruct (decide (n < 12)); [by rewrite Z.testbit_neg_r by lia|].
  apply andb_false_intro2. apply Z.bits_above_log2; [lia|]. change (Z.log2 3) with 1. lia.
Qed.

Lemma link_entry_present f : present (link_entry (f * 4096)) = true.
Proof.
  rewrite link_entry_eq. unfold present, PTE_PRESENT. change 1 with (Z.ones 1).
  rewrite Z.land_ones by lia. change (2 ^ 1) with 2.
  destruct (Z.eqb_spec ((f * 4096 + 3) mod 2) 0); [wsolve|done].
Qed.

Lemma link_entry_addr f :
  0 <= f < 2 ^ 40 -> Z.land (link_entry (f * 4096)) PTE_ADDR_MASK = f * 4096.
Proof.
  intros. rewrite link_entry_eq, mask_addr.
  replace ((f * 4096 + 3) / 4096) with f by wsolve. by rewrite Z.mod_small.
Qed.

Lemma link_entry_nops f : Z.land (link_entry (f * 4096)) PTE_PS = 0.
Proof.
  rewrite link_entry_eq. unfold PTE_PS. change 128 with (Z.shiftl 1 7).
  apply Z.eqb_eq. rewrite land_bit_zero by lia. apply negb_true_iff.
  rewrite Z.testbit_false by lia. change (2 ^ 7) with 128. wsolve.
Qed.

Lemma present_0 : present 0 = false.
Proof. done. Qed.

(** ** The tree of tables *)

Definition step (m : gmap Z Z) (t i : Z) : option Z :=
  let e := m !!! (t + 8 * i) in
  if present e then Some (Z.land e PTE_ADDR_MASK) else None.

(** The table reached from [t] by a path of indexes. *)
Fixpoint descend (m : gmap Z Z) (t : Z) (p : list Z) : option Z :=
  match p with
  | [] => Some t
  | i :: p' => match step m t i with Some t' => descend m t' p' | None => None end
  end.

Definition path_ok (p : list Z) : Prop := Forall idx_ok p /\ (length p <= 3)%nat.

(** [used f]: the frame is taken in the physical memory manager.  Distinct
    paths lead to distinct tables, each in a frame of its own, and no table
    above the last level holds a huge page. *)
Record tables_wf (m : gmap Z Z) (root : Z) (used : Z -> bool) : Prop := {
  tw_frame : forall p a, path_ok p -> descend m root p = Some a ->
    exists f, a = f * 4096 /\ 0 < f < 2 ^ 40 /\ used f = true;
  tw_inj : forall p q a, path_ok p -> path_ok q ->
    descend m root p = Some a -> descend m root q = Some a -> p = q;
  tw_nops : forall p a i, path_ok p -> (1 <= length p <= 2)%nat -> idx_ok i ->
    descend m root p = Some a -> present (m !!! (a + 8 * i)) = true ->
    Z.land (m !!! (a + 8 * i)) PTE_PS = 0;
}.

(** A frame that is no table is outside the tree. *)
Definition not_table (m : gmap Z Z) (root g : Z) : Prop :=
  forall q a, path_ok q -> descend m root q = Some a -> a <> g * 4096.

Definition vpath (v : Z) : list Z := [pml4_index v; pdpt_index v; pd_index v].

Ltac path_tac :=
  split; [repeat (apply Forall_cons; split; [auto with archa|]); by apply Forall_nil_2|cbn; lia].

Lemma vpath_ok v : path_ok (vpath v).
Proof. unfold vpath. path_tac. Qed.

(** The walk in terms of the tree. *)
Definition leaf (m : gmap Z Z) (root v : Z) : option Z :=
  match descend m root (vpath v) with
  | Some pt => Some (m !!! (pt + 8 * pt_index v))
  | None => None
  end.

Definition leaf_addr (v : Z) (e : option Z) : option Z :=
  match e with
  | Some e => if present e then Some (Z.land e PTE_ADDR_MASK + v mod 2 ^ 12) else None
  | None => None
  end.

Lemma descend_app m t p q :
  descend m t (p ++ q) =
  match descend m t p with Some t' => descend m t' q | None => None end.
Proof.
  revert t. induction p as [|i p IH]; intros t; [done|]. cbn.
  destruct (step m t i); [apply IH|done].
Qed.

Lemma descend_snoc m t p i :
  descend m t (p ++ [i]) =
  match descend m t p with Some t' => step m t' i | None => None end.
Proof. rewrite descend_app. destruct (descend m t p); [|done]. cbn. by destruct (step _ _ _). Qed.

Lemma path_ok_app p q : path_ok (p ++ q) -> path_ok p.
Proof. intros [H Hl]. rewrite Forall_app in H. rewrite length_app in Hl. split; [tauto|lia]. Qed.

Lemma path_ok_snoc p i : path_ok p -> (length p <= 2)%nat -> idx_ok i -> path_ok (p ++ [i]).
Proof.
  intros [H Hl] ? ?. split; [|rewrite length_app; cbn; lia].
  apply Forall_app. split; [done|]. by constructor.
Qed.

Lemma path_ok_snoc_inv p i : path_ok (p ++ [i]) -> path_ok p /\ (length p <= 2)%nat /\ idx_ok i.
Proof.
  intros [H Hl]. rewrite length_app in Hl. cbn in Hl. apply Forall_app in H as [? Hi].
  inversion Hi; subst. split_and!; [split; [done|lia]|lia|done].
Qed.

Lemma walk_leaf m root used v :
  tables_wf m (Z.land root PTE_ADDR_MASK) used ->
  walk m root v = leaf_addr v (leaf m (Z.land root PTE_ADDR_MASK) v).
Proof.
  intros Hwf. set (r := Z.land root PTE_ADDR_MASK) in *. unfold walk, leaf. fold r.
  pose proof (tw_nops _ _ _ Hwf [pml4_index v]) as Hn1.
  pose proof (tw_nops _ _ _ Hwf [pml4_index v; pdpt_index v]) as Hn2.
  unfold vpath. cbn [descend] in *. unfold step in *. cbv zeta in *.
  destruct (present (m !!! (r + 8 * pml4_index v))) eqn:E4; cbn [negb]; [|done].
  set (a3 := Z.land (m !!! (r + _)) _) in *.
  destruct (present (m !!! (a3 + 8 * pdpt_index v))) eqn:E3; cbn [negb]; [|done].
  rewrite (Hn1 a3 (pdpt_index v)); [cbn [Z.eqb negb]|path_tac|cbn; lia|auto with archa|done|done].
  set (a2 := Z.land (m !!! (a3 + _)) _) in *.
  destruct (present (m !!! (a2 + 8 * pd_index v))) eqn:E2; cbn [negb]; [|done].
  rewrite (Hn2 a2 (pd_index v)); [cbn [Z.eqb negb]|path_tac|cbn; lia|auto with archa|done|done].
  cbn [leaf_addr].
  set (e1 := m !!! (Z.land (m !!! (a2 + 8 * pd_index v)) PTE_ADDR_MASK + 8 * pt_index v)).
  by destruct (present e1).
Qed.

(** ** Updating the tree *)

(** [memset(page, 0, 0x1000)] on words. *)
Definition zero_page (c : Z) (m : gmap Z Z) : gmap Z Z :=
  for_up 512 0 (fun i m => <[c + 8 * i := 0]> m) m.

Lemma zero_page_in c m i : idx_ok i -> zero_page c m !!! (c + 8 * i) = 0.
Proof.
  intros Hi. unfold zero_page.
  apply (for_up_inv (fun k m' => forall j, 0 <= j < k -> m' !!! (c + 8 * j) = 0)
    (fun i m => <[c + 8 * i := 0]> m) 512 0 m); [intros; lia| |unfold idx_ok in Hi; lia].
  intros k t Hk IH j Hj. rewrite lookup_total_insert. case_decide; [done|]. apply IH. lia.
Qed.

Lemma zero_page_out c m a :
  (forall i, idx_ok i -> a <> c + 8 * i) -> zero_page c m !!! a = m !!! a.
Proof.
  intros Ha. unfold zero_page.
  apply (for_up_inv (fun k m' => m' !!! a = m !!! a)
    (fun i m => <[c + 8 * i := 0]> m) 512 0 m); [done|].
  intros k t Hk IH. rewrite lookup_total_insert_ne; [done|]. intros E.
  apply (Ha k); [unfold idx_ok; lia|done].
Qed.

(** Words of different frames, and different words of a frame, differ. *)
Lemma word_inj f g i j :
  idx_ok i -> idx_ok j -> f * 4096 + 8 * i = g * 4096 + 8 * j -> f = g /\ i = j.
Proof. unfold idx_ok. lia. Qed.

Definition link_table (t i c : Z) (m : gmap Z Z) : gmap Z Z :=
  <[t + 8 * i := link_entry c]> (zero_page c m).

Section link.
Context (m : gmap Z Z) (root : Z) (used : Z -> bool).
Context (Hwf : tables_wf m root used).
Context (p : list Z) (t i f : Z).
Context (Hp : path_ok p) (Hlen : (length p <= 2)%nat) (Hi : idx_ok i).
Context (Ht : descend m root p = Some t).
Context (Hf : 0 < f < 2 ^ 40) (Hfree : used f = false).
Let c := f * 4096.
Let m' := link_table t i c m.

(** A table word keeps its contents unless it is the linked entry. *)
Lemma link_word q a j :
  path_ok q -> descend m root q = Some a -> idx_ok j -> (q, j) <> (p, i) ->
  m' !!! (a + 8 * j) = m !!! (a + 8 * j).
Proof.
  intros Hq Ha Hj Hne.
  destruct (tw_frame _ _ _ Hwf q a Hq Ha) as (g & -> & _ & Hg).
  destruct (tw_frame _ _ _ Hwf p t Hp Ht) as (h & -> & _ & Hh).
  unfold m', link_table. rewrite lookup_total_insert_ne.
  - apply zero_page_out. intros k Hk E. apply word_inj in E as [-> _]; [congruence|done|done].
  - intros E. apply word_inj in E as [-> ->]; [|done|done].
    apply Hne. f_equal. by apply (tw_inj _ _ _ Hwf q p (g * 4096)).
Qed.

Lemma link_word_new j : idx_ok j -> m' !!! (c + 8 * j) = 0.
Proof.
  intros Hj. destruct (tw_frame _ _ _ Hwf p t Hp Ht) as (h & Hth & _ & Hh).
  unfold m', link_table. rewrite lookup_total_insert_ne; [by apply zero_page_in|].
  rewrite Hth. intros E. apply word_inj in E as [-> _]; [congruence|done|done].
Qed.

Lemma link_step : step m' t i = Some c.
Proof.
  unfold step, m', link_table, c. rewrite lookup_total_insert_eq, link_entry_present.
  cbn zeta. by rewrite link_entry_addr by lia.
Qed.

(** Paths not through the new table are unchanged. *)
Lemma link_descend_old q :
  path_ok q -> (forall r, q <> p ++ i :: r) -> descend m' root q = descend m root q.
Proof.
  induction q as [|j q IH] using rev_ind; intros Hq Hnp; [done|].
  apply path_ok_snoc_inv in Hq as (Hq & Hql & Hj).
  rewrite !descend_snoc, IH; [|done|].
  - destruct (descend m root q) as [a|] eqn:Ha; [|done]. unfold step.
    rewrite (link_word q a j); [done..|]. intros [= -> ->]. by apply (Hnp []).
  - intros r ->. apply (Hnp (r ++ [j])). by rewrite <-app_assoc.
Qed.

Lemma link_descend_p : descend m' root p = Some t.
Proof.
  rewrite link_descend_old; [done..|]. intros r E.
  apply (f_equal length) in E. rewrite length_app in E. cbn in E. lia.
Qed.

(** The new table is reached by the linked entry and is empty. *)
Lemma link_descend_new r :
  path_ok (p ++ i :: r) ->
  descend m' root (p ++ i :: r) = match r with [] => Some c | _ => None end.
Proof.
  intros Hr. rewrite descend_app, link_descend_p. cbn [descend]. rewrite link_step.
  destruct r as [|j r]; [done|]. cbn [descend]. unfold step.
  rewrite link_word_new; [done|]. destruct Hr as [Hr _].
  apply Forall_app in Hr as [_ Hr]. by inversion Hr as [|?? _ Hr']; inversion Hr'.
Qed.

Lemma link_cases q a :
  path_ok q -> descend m' root q = Some a ->
  (q = p ++ [i] /\ a = c) \/ ((forall r, q <> p ++ i :: r) /\ descend m root q = Some a).
Proof.
  intros Hq Ha. destruct (decide (p ++ [i] `prefix_of` q)) as [[r ->]|Hn].
  - rewrite <-app_assoc in *. cbn in *. left. rewrite link_descend_new in Ha by done. destruct r; [|done].
    by injection Ha as <-.
  - right. assert (forall r, q <> p ++ i :: r).
    { intros r ->. apply Hn. exists r. by rewrite <-app_assoc. }
    split; [done|].
    by rewrite <-link_descend_old.
Qed.
End link.

Lemma tables_wf_mono m root (used used' : Z -> bool) :
  (forall g, 0 <= g -> used g = true -> used' g = true) ->
  tables_wf m root used -> tables_wf m root used'.
Proof.
  intros Hmono [Hfr Hinj Hps]. constructor; [|done|done].
  intros p a Hp Ha. destruct (Hfr p a Hp Ha) as (f & ? & ? & ?). exists f. split_and!; try done; try lia.
  apply Hmono; [lia|done].
Qed.

(** Linking an empty table for an absent entry keeps the tree well formed
    and changes no translation. *)
Lemma link_wf m root used used' p t i f :
  tables_wf m root used -> path_ok p -> (length p <= 2)%nat -> idx_ok i ->
  descend m root p = Some t -> 0 < f < 2 ^ 40 -> used f = false ->
  (forall g, 0 <= g -> used g = true -> used' g = true) -> used' f = true ->
  tables_wf (link_table t i (f * 4096) m) root used'.
Proof.
  intros Hwf Hp Hl Hi Ht Hf Hfree Hmono Hf'.
  pose proof (link_cases m root used Hwf p t i f Hp Hl Hi Ht Hf Hfree) as Hc.
  constructor.
  - intros q a Hq Ha. destruct (Hc q a Hq Ha) as [[_ ->]|[_ Ho]]; [by exists f|].
    destruct (tw_frame _ _ _ Hwf q a Hq Ho) as (g & ? & ? & ?). exists g.
    split_and!; try done; try lia. apply Hmono; [lia|done].
  - assert (forall q a, path_ok q -> descend m root q = Some a -> a <> f * 4096) as Hne.
    { intros q a Hq Ha ->. destruct (tw_frame _ _ _ Hwf q _ Hq Ha) as (g & E & _ & Hg).
      assert (f = g) as -> by lia. congruence. }
    intros q1 q2 a Hq1 Hq2 Ha1 Ha2.
    destruct (Hc q1 a Hq1 Ha1) as [[-> ->]|[_ Ho1]], (Hc q2 _ Hq2 Ha2) as [[-> E]|[_ Ho2]]; try done.
    + by destruct (Hne _ _ Hq2 Ho2).
    + by destruct (Hne _ _ Hq1 Ho1).
    + by apply (tw_inj _ _ _ Hwf q1 q2 a).
  - intros q a j Hq Hql Hj Ha Hpr. destruct (Hc q a Hq Ha) as [[-> ->]|[_ Ho]].
    + rewrite (link_word_new m root used Hwf p t i f) in Hpr by done. done.
    + destruct (decide ((q, j) = (p, i))) as [[= -> ->]|Hne].
      * rewrite Ht in Ho. injection Ho as <-. unfold link_table.
        rewrite lookup_total_insert_eq. apply link_entry_nops.
      * rewrite (link_word m root used Hwf p t i f Hp Hi Ht Hfree q a j Hq Ho Hj Hne) in *.
        by apply (tw_nops _ _ _ Hwf q).
Qed.

Lemma link_leaf m root used p t i f v :
  tables_wf m root used -> path_ok p -> (length p <= 2)%nat -> idx_ok i ->
  descend m root p = Some t -> present (m !!! (t + 8 * i)) = false ->
  0 < f < 2 ^ 40 -> used f = false ->
  leaf_addr v (leaf (link_table t i (f * 4096) m) root v) = leaf_addr v (leaf m root v).
Proof.
  intros Hwf Hp Hl Hi Ht Habs Hf Hfree. unfold leaf.
  pose proof (vpath_ok v) as Hv.
  destruct (decide (p ++ [i] `prefix_of` vpath v)) as [[r E]|Hn].
  - rewrite <-app_assoc in E. cbn in E. rewrite E in *.
    rewrite (link_descend_new m root used Hwf p t i f) by done.
    rewrite descend_app, Ht. cbn [descend]. unfold step at 1. rewrite Habs.
    destruct r; [|done]. rewrite (link_word_new m root used Hwf p t i f); auto with archa.
  - rewrite (link_descend_old m root used Hwf p t i f); [|done..|].
    + destruct (descend m root (vpath v)) as [a|] eqn:Ha; [|done].
      rewrite (link_word m root used Hwf p t i f Hp Hi Ht Hfree (vpath v) a); auto with archa.
      intros [= <- _]. cbn in Hl. lia.
    + intros r E. apply Hn. exists r. by rewrite <-app_assoc.
Qed.

(** A frame that holds no table keeps its contents. *)
Lemma link_other_word m root used p t i f k j :
  tables_wf m root used -> path_ok p -> idx_ok i -> descend m root p = Some t ->
  k <> f -> not_table m root k -> idx_ok j ->
  link_table t i (f * 4096) m !!! (k * 4096 + 8 * j) = m !!! (k * 4096 + 8 * j).
Proof.
  intros Hwf Hp Hi Ht Hkf Hn Hj. unfold link_table. rewrite lookup_total_insert_ne.
  - apply zero_page_out. intros n Hk E. apply word_inj in E as [-> _]; done.
  - destruct (tw_frame _ _ _ Hwf p t Hp Ht) as (h & -> & _).
    intros E. apply word_inj in E as [-> _]; [|done|done]. by apply (Hn p (k * 4096)).
Qed.

(** Writing a word that holds no interior entry leaves the tree alone. *)
Section write.
Context (m : gmap Z Z) (root : Z) (used : Z -> bool).
Context (Hwf : tables_wf m root used).
Context (w e : Z).
Context (Hout : forall q a i, path_ok q -> (length q <= 2)%nat -> idx_ok i ->
  descend m root q = Some a -> a + 8 * i <> w).

Lemma write_descend q : path_ok q -> descend (<[w := e]> m) root q = descend m root q.
Proof.
  induction q as [|j q IH] using rev_ind; intros Hq; [done|].
  apply path_ok_snoc_inv in Hq as (Hq & Hql & Hj). rewrite !descend_snoc, IH by done.
  destruct (descend m root q) as [a|] eqn:Ha; [|done]. unfold step.
  rewrite lookup_total_insert_ne; [done|]. intros E. by apply (Hout q a j Hq Hql Hj Ha).
Qed.

Lemma write_wf : tables_wf (<[w := e]> m) root used.
Proof.
  constructor.
  - intros q a Hq. rewrite write_descend by done. by apply Hwf.
  - intros q1 q2 a Hq1 Hq2. rewrite !write_descend by done. by apply Hwf.
  - intros q a i Hq Hql Hi Ha. rewrite write_descend in Ha by done.
    rewrite lookup_total_insert_ne; [by apply (tw_nops _ _ _ Hwf q)|].
    intros E. apply (Hout q a i); [done|lia|done..].
Qed.
End write.

Lemma leaf_word_interior m root used p t j :
  tables_wf m root used -> path_ok p -> length p = 3%nat -> idx_ok j ->
  descend m root p = Some t ->
  forall q a i, path_ok q -> (length q <= 2)%nat -> idx_ok i ->
    descend m root q = Some a -> a + 8 * i <> t + 8 * j.
Proof.
  intros Hwf Hp Hl Hj Ht q a i Hq Hql Hi Ha E.
  destruct (tw_frame _ _ _ Hwf q a Hq Ha) as (g & -> & _).
  destruct (tw_frame _ _ _ Hwf p t Hp Ht) as (h & -> & _).
  apply word_inj in E as [-> _]; [|done|done].
  assert (q = p) as -> by (by apply (tw_inj _ _ _ Hwf q p (h * 4096))). lia.
Qed.

Lemma write_leaf_leaf m root used virt t e v :
  tables_wf m root used -> descend m root (vpath virt) = Some t ->
  leaf (<[t + 8 * pt_index virt := e]> m) root v =
  if decide (vpn v = vpn virt) then Some e else leaf m root v.
Proof.
  intros Hwf Ht. unfold leaf.
  rewrite (write_descend m root (t + 8 * pt_index virt)); [| |apply vpath_ok].
  2:{ apply (leaf_word_interior m root used (vpath virt)); auto using vpath_ok with archa. }
  destruct (decide (vpn v = vpn virt)) as [E|Hne].
  - destruct (indexes_of_vpn v virt E) as (E1 & E2 & E3 & E4).
    unfold vpath in *. rewrite E1, E2, E3, E4, Ht. by rewrite lookup_total_insert_eq.
  - destruct (descend m root (vpath v)) as [a|] eqn:Ha; [|done].
    rewrite lookup_total_insert_ne; [done|]. intros E.
    destruct (tw_frame _ _ _ Hwf _ _ (vpath_ok v) Ha) as (g & -> & _).
    destruct (tw_frame _ _ _ Hwf _ _ (vpath_ok virt) Ht) as (h & -> & _).
    apply word_inj in E as [-> Ej]; [|auto with archa..].
    assert (vpath v = vpath virt) as Ep
      by (apply (tw_inj _ _ _ Hwf _ _ (g * 4096)); auto using vpath_ok).
    unfold vpath in Ep. injection Ep as E1 E2 E3. apply Hne. by apply vpn_split.
Qed.

Lemma write_data m root used g i e :
  tables_wf m root used -> not_table m root g -> idx_ok i ->
  tables_wf (<[g * 4096 + 8 * i := e]> m) root used /\
  not_table (<[g * 4096 + 8 * i := e]> m) root g /\
  forall v, leaf (<[g * 4096 + 8 * i := e]> m) root v = leaf m root v.
Proof.
  intros Hwf Hg Hi.
  assert (forall q a k, path_ok q -> idx_ok k -> descend m root q = Some a ->
    a + 8 * k <> g * 4096 + 8 * i) as Hout.
  { intros q a k Hq Hk Ha E. destruct (tw_frame _ _ _ Hwf q a Hq Ha) as (h & -> & _).
    apply word_inj in E as [-> _]; [|done|done]. by apply (Hg q (g * 4096) Hq Ha). }
  split_and!.
  - apply write_wf; [done|]. intros. eapply Hout; eauto.
  - intros q a Hq. rewrite write_descend; [by apply Hg| |done]. intros. eapply Hout; eauto.
  - intros v. unfold leaf. rewrite write_descend; [| |apply vpath_ok].
    2:{ intros. eapply Hout; eauto. }
    destruct (descend m root (vpath v)) as [a|] eqn:Ha; [|done].
    rewrite lookup_total_insert_ne; [done|]. intros E. symmetry in E. revert E.
    apply (Hout (vpath v)); auto using vpath_ok with archa.
Qed.

(** A root whose page is all zeros is a tree by itself. *)
Lemma empty_step m f i :
  (forall i, idx_ok i -> m !!! (f * 4096 + 8 * i) = 0) -> idx_ok i -> step m (f * 4096) i = None.
Proof. intros Hz Hi. unfold step. by rewrite Hz. Qed.

Lemma empty_descend m f p a :
  (forall i, idx_ok i -> m !!! (f * 4096 + 8 * i) = 0) -> path_ok p ->
  descend m (f * 4096) p = Some a -> p = [] /\ a = f * 4096.
Proof.
  intros Hz [Hp _]. destruct p as [|i p]; cbn; [by intros [= <-]|].
  apply Forall_cons in Hp as [Hi _]. by rewrite (empty_step m f i).
Qed.

Lemma empty_root_wf m (used : Z -> bool) f :
  (forall i, idx_ok i -> m !!! (f * 4096 + 8 * i) = 0) -> 0 < f < 2 ^ 40 -> used f = true ->
  tables_wf m (f * 4096) used.
Proof.
  intros Hz Hf Hu. constructor.
  - intros p a Hp Ha. destruct (empty_descend m f p a Hz Hp Ha) as [_ ->]. by exists f.
  - intros p q a Hp Hq Ha Hb.
    by destruct (empty_descend m f p a Hz Hp Ha) as [-> _], (empty_descend m f q a Hz Hq Hb) as [-> _].
  - intros p a i Hp [Hl _] Hi Ha. destruct (empty_descend m f p a Hz Hp Ha) as [-> _]. cbn in Hl. lia.
Qed.

Lemma empty_leaf m f v :
  (forall i, idx_ok i -> m !!! (f * 4096 + 8 * i) = 0) -> leaf m (f * 4096) v = None.
Proof.
  intros Hz. unfold leaf, vpath. cbn [descend]. by rewrite empty_step by (done || auto with archa).
Qed.
