(* ===== verification/Vmm.v ===== *)
(** * Virtual memory manager ([kernel/arch/x86_64/mm/vmm.c])

    Four-level x86-64 page tables kept in physical memory.  [ram] holds the
    64-bit words of physical memory by address (absent words are 0); [cr3] is
    the control register; [tlb_flushed] records the [invlpg]s.  A pointer to a
    table is the physical address while the loader's identity map is active
    and the passthru window address afterwards, as [page_table_ptr] computes
    it; [phys_of] is the memory the pointer denotes under those two maps. *)

From S2P Require Import Prelude FromBoot Pmm PageTable.

Definition KHEAP_BASE : Z := 0xFFFFFFFE00000000.
Definition PASSTHRU_BASE : Z := 0xFFFFFFFF80000000.
(** [~(PAGE_SIZE - 1)] is the [int] -4096, sign-extended by the [uint64_t] [&]. *)
Definition PAGE_MASK : Z := 0xFFFFFFFFFFFFF000.

Record vmm := mk_vmm {
  pm : pmm;
  ram : gmap Z Z;
  cr3 : Z;
  virtual_mem_initialized : bool;
  next_virt : Z;
  tlb_flushed : list Z;
}.

Definition set_pm (p : pmm) (s : vmm) : vmm :=
  mk_vmm p s.(ram) s.(cr3) s.(virtual_mem_initialized) s.(next_virt) s.(tlb_flushed).
Definition set_ram (m : gmap Z Z) (s : vmm) : vmm :=
  mk_vmm s.(pm) m s.(cr3) s.(virtual_mem_initialized) s.(next_virt) s.(tlb_flushed).
Definition set_next_virt (v : Z) (s : vmm) : vmm :=
  mk_vmm s.(pm) s.(ram) s.(cr3) s.(virtual_mem_initialized) v s.(tlb_flushed).
Definition flush (v : Z) (s : vmm) : vmm :=
  mk_vmm s.(pm) s.(ram) s.(cr3) s.(virtual_mem_initialized) s.(next_virt)
    (v :: s.(tlb_flushed)).

Definition get_virt_addr (phys_addr : Z) : Z := u64 (phys_addr + PASSTHRU_BASE).

Definition invlpg (addr : Z) : M vmm unit := modify (flush addr).

Definition page_table_ptr (phys : Z) (s : vmm) : Z :=
  if negb s.(virtual_mem_initialized) then phys else get_virt_addr phys.

(** The physical address a kernel table pointer denotes. *)
Definition phys_of (s : vmm) (ptr : Z) : Z :=
  if negb s.(virtual_mem_initialized) then ptr else u64 (ptr - PASSTHRU_BASE).

Definition load64 (ptr : Z) : M vmm Z := gets (fun s => s.(ram) !!! phys_of s ptr).
Definition store64 (ptr x : Z) : M vmm unit :=
  modify (fun s => set_ram (<[phys_of s ptr := x]> s.(ram)) s).

(** [table[i]] *)
Definition load_entry (table i : Z) : M vmm Z := load64 (table + 8 * i).
Definition store_entry (table i x : Z) : M vmm unit := store64 (table + 8 * i) x.

(** [memset(table, 0, 0x1000)] *)
Definition clear_table (table : Z) : M vmm unit :=
  for_upM 512 0 (fun i => store_entry table i 0).

Definition do_palloc : M vmm Z := fun s =>
  let '(a, p) := palloc s.(pm) in Done (a, set_pm p s).
Definition do_pfree (a : Z) : M vmm unit := modify (fun s => set_pm (pfree a s.(pm)) s).

(** One level of [map_page]: the block that allocates the next table when the
    entry is absent, followed by the read of its address. *)
Definition next_table (table_phys i : Z) (msg : string) : M vmm Z :=
  table ← gets (page_table_ptr table_phys);
  e ← load_entry table i;
  _ ← (if negb (present e) then
         new ← do_palloc;
         if new =? 0 then kernel_panic msg
         else
           p ← gets (page_table_ptr new);
           _ ← clear_table p;
           store_entry table i
             (link_entry (Z.land new PTE_ADDR_MASK))
       else mret tt);
  e' ← load_entry table i;
  mret (Z.land e' PTE_ADDR_MASK).

Definition map_page (phys_addr virt_addr pml4_phys : Z) : M vmm unit :=
  pdpt_phys ← next_table pml4_phys (pml4_index virt_addr) "Out of memory creating PDPT";
  pd_phys ← next_table pdpt_phys (pdpt_index virt_addr) "Out of memory creating PD";
  pt_phys ← next_table pd_phys (pd_index virt_addr) "Out of memory creating PT";
  pt ← gets (page_table_ptr pt_phys);
  _ ← store_entry pt (pt_index virt_addr)
        (link_entry (Z.land phys_addr PTE_ADDR_MASK));
  invlpg virt_addr.

Definition unmap_page (virt_addr pml4_phys : Z) : M vmm Z :=
  pml4 ← gets (page_table_ptr pml4_phys);
  e4 ← load_entry pml4 (pml4_index virt_addr);
  if negb (present e4) then mret 0 else
  pdpt ← gets (page_table_ptr (Z.land e4 PTE_ADDR_MASK));
  e3 ← load_entry pdpt (pdpt_index virt_addr);
  if negb (present e3) then mret 0 else
  pd ← gets (page_table_ptr (Z.land e3 PTE_ADDR_MASK));
  e2 ← load_entry pd (pd_index virt_addr);
  if negb (present e2) then mret 0 else
  pt ← gets (page_table_ptr (Z.land e2 PTE_ADDR_MASK));
  e1 ← load_entry pt (pt_index virt_addr);
  _ ← store_entry pt (pt_index virt_addr) 0;
  _ ← invlpg virt_addr;
  mret (Z.land e1 PTE_ADDR_MASK).

(** A store by the running kernel to virtual address [v]. *)
Definition vstore64 (v x : Z) : M vmm unit := fun s =>
  match walk s.(ram) s.(cr3) v with
  | Some a => Done (tt, set_ram (<[a := x]> s.(ram)) s)
  | None => Fault
  end.

(** [memset((void * )virt, 0, PAGE_SIZE)] *)
Definition zero_virt_page (virt : Z) : M vmm unit :=
  for_upM 512 0 (fun i => vstore64 (virt + 8 * i) 0).

(** ** Virtual page allocation *)

Definition vfrees (virt_addr count : Z) : M vmm unit :=
  if count =? 0 then mret tt
  else
    pml4 ← gets (fun s => Z.land s.(cr3) PTE_ADDR_MASK);
    for_upM (Z.to_nat count) 0 (fun i =>
      phys ← unmap_page (u64 (virt_addr + i * PAGE_SIZE)) pml4;
      if negb (phys =? 0) then do_pfree phys else mret tt).

Definition vfree (virt_addr : Z) : M vmm unit := vfrees virt_addr 1.

(** The loop of [vallocs]: [false] when it returned early with 0. *)
Fixpoint vallocs_loop (n : nat) (i : Z) (zero : bool) (start pml4 : Z) : M vmm bool :=
  match n with
  | O => mret true
  | S n' =>
      phys ← do_palloc;
      if phys =? 0 then (_ ← vfrees start i; mret false)
      else
        let virt := u64 (start + i * PAGE_SIZE) in
        _ ← map_page phys virt pml4;
        _ ← (if zero then zero_virt_page virt else mret tt);
        vallocs_loop n' (i + 1) zero start pml4
  end.

Definition vallocs (zero : bool) (count : Z) : M vmm Z :=
  if count =? 0 then mret 0
  else
    pml4 ← gets (fun s => Z.land s.(cr3) PTE_ADDR_MASK);
    start ← gets next_virt;
    ok ← vallocs_loop (Z.to_nat count) 0 zero start pml4;
    if (ok : bool) then
      _ ← modify (fun s => set_next_virt (u64 (s.(next_virt) + u64 (count * PAGE_SIZE))) s);
      mret start
    else mret 0.

Definition valloc (zero : bool) : M vmm Z := vallocs zero 1.

(** [for (off = 0; off < mapped_size; off += PAGE_SIZE) map_page(...)]; past
    2^64 - PAGE_SIZE the 64-bit counter wraps and the C loop does not end. *)
Definition map_range (phys virt size pml4_phys : Z) : M vmm unit :=
  let phys_page := Z.land phys PAGE_MASK in
  let virt_page := Z.land virt PAGE_MASK in
  let offset := u64 (phys - phys_page) in
  let mapped_size := u64 (size + offset) in
  if 0xFFFFFFFFFFFFF000 <? mapped_size then fault else
  for_upM (Z.to_nat ((mapped_size + PAGE_SIZE - 1) / PAGE_SIZE)) 0 (fun k =>
    let off := k * PAGE_SIZE in
    map_page (u64 (phys_page + off)) (u64 (virt_page + off)) pml4_phys).

(** ** [init_vmm] *)

(** What [init_vmm] reads from the processor. *)
Record cpu_inputs := {
  rsp_in : Z;          (* read_rsp() *)
  rip_in : Z;          (* read_rip() *)
  cpuid1_edx : Z;      (* cpuid_(1, 0).edx *)
  apic_msr : Z;        (* rdmsr(0x1B) *)
  boot_ptr : Z;        (* the address of the BootInfo *)
}.

Definition set_initialized (s : vmm) : vmm :=
  mk_vmm s.(pm) s.(ram) s.(cr3) true s.(next_virt) s.(tlb_flushed).
Definition write_cr3 (v : Z) (s : vmm) : vmm :=
  mk_vmm s.(pm) s.(ram) v s.(virtual_mem_initialized) s.(next_virt) s.(tlb_flushed).

(** The identity map of the conventional regions, then of the APIC page. *)
Definition map_apic (read_desc : Z -> EFI_MEMORY_DESCRIPTOR) (boot : BootInfo)
    (cpu : cpu_inputs) (pml4_phys : Z) : M vmm unit :=
  if boot.(memory_descriptor_size) =? 0 then fault else
  let entries := boot.(memory_map_size) / boot.(memory_descriptor_size) in
  _ ← for_upM (Z.to_nat entries) 0 (fun i =>
    let d := desc_at read_desc boot.(memory_map) boot.(memory_descriptor_size) i in
    if d.(Type_) =? EfiConventionalMemory then
      map_range d.(PhysicalStart) d.(PhysicalStart)
        (u64 (d.(NumberOfPages) * PAGE_SIZE)) pml4_phys
    else mret tt);
  let apic_page := Z.land (Z.shiftr cpu.(apic_msr) 12) 0xFFFFF in
  let apic_base := Z.shiftl apic_page 12 in
  map_range apic_base apic_base 0x4000 pml4_phys.

(** The four tables of the new address space, with the first 2 MiB mapped
    one to one. *)
Definition first_tables (pml4_phys pdpt_phys pd_phys pt_phys : Z) : M vmm unit :=
  _ ← clear_table pml4_phys;
  _ ← clear_table pdpt_phys;
  _ ← clear_table pd_phys;
  _ ← clear_table pt_phys;
  _ ← store_entry pml4_phys 0 (link_entry pdpt_phys);
  _ ← store_entry pdpt_phys 0 (link_entry pd_phys);
  _ ← store_entry pd_phys 0 (link_entry pt_phys);
  for_upM 512 0 (fun i => store_entry pt_phys i (link_entry (i * PAGE_SIZE))).

Definition init_vmm (read_desc : Z -> EFI_MEMORY_DESCRIPTOR) (boot : BootInfo)
    (cpu : cpu_inputs) : M vmm unit :=
  pml4_phys ← do_palloc;
  pdpt_phys ← do_palloc;
  pd_phys ← do_palloc;
  pt_phys ← do_palloc;
  if (pml4_phys =? 0) || (pdpt_phys =? 0) || (pd_phys =? 0) || (pt_phys =? 0)
  then kernel_panic "Out of memory creating VMM" else
  _ ← first_tables pml4_phys pdpt_phys pd_phys pt_phys;
  (* kernel *)
  _ ← map_range boot.(kernel_physical_address_start) boot.(kernel_virtual_address)
        boot.(kernel_size) pml4_phys;
  (* kernel stack *)
  let stack_page := Z.land cpu.(rsp_in) PAGE_MASK in
  let stack_low := u64 (stack_page - 16 * PAGE_SIZE) in
  _ ← map_range stack_low stack_low (32 * PAGE_SIZE) pml4_phys;
  (* current RIP *)
  let rip_page := Z.land cpu.(rip_in) PAGE_MASK in
  let rip_low := u64 (rip_page - PAGE_SIZE) in
  _ ← map_range rip_low rip_low (PAGE_SIZE * 10) pml4_phys;
  (* framebuffer *)
  _ ← map_range boot.(framebuffer_base) boot.(framebuffer_base)
        boot.(framebuffer_size) pml4_phys;
  (* passthru window *)
  maxa ← gets (fun s => s.(pm).(max_physical_address));
  _ ← map_range 0 PASSTHRU_BASE maxa pml4_phys;
  (* ramdisk *)
  _ ← map_range boot.(initramfs_address) boot.(initramfs_address)
        boot.(initramfs_size) pml4_phys;
  let support_apic := negb (Z.land cpu.(cpuid1_edx) (Z.shiftl 1 9) =? 0) in
  _ ← (if support_apic then map_apic read_desc boot cpu pml4_phys else mret tt);
  (* BootInfo and the memory map *)
  let boot_page := Z.land cpu.(boot_ptr) PAGE_MASK in
  _ ← map_range boot_page boot_page PAGE_SIZE pml4_phys;
  let map_page_ := Z.land boot.(memory_map) PAGE_MASK in
  _ ← map_range map_page_ map_page_
        (u64 (boot.(memory_map_size) + Z.land boot.(memory_map) (PAGE_SIZE - 1)))
        pml4_phys;
  _ ← modify set_initialized;
  modify (write_cr3 pml4_phys).
