(* ===== verification/VmmFacts.v ===== *)
(** * The page-table operations are correct

    [map_page], [unmap_page], [vallocs] and [vfrees] of [Vmm] against the
    processor's page walk of [PageTable]. *)

From S2P Require Import Prelude FromBoot Pmm PageTable Vmm.

(** ** Pointers to tables *)

Definition same_mode (s t : vmm) : Prop :=
  t.(virtual_mem_initialized) = s.(virtual_mem_initialized).

(** The pointer [page_table_ptr] builds denotes the table it was built from,
    under the identity map and through the passthru window alike. *)
Lemma ptr_denotes s t phys k :
  same_mode s t -> 0 <= phys + k < 2 ^ 52 ->
  phys_of t (page_table_ptr phys s + k) = phys + k.
Proof.
  unfold same_mode, phys_of, page_table_ptr, get_virt_addr. intros -> Hk.
  destruct (virtual_mem_initialized s); cbn [negb]; [|done].
  unfold u64, PASSTHRU_BASE. Z.div_mod_to_equations. lia.
Qed.

Lemma load_entry_eq s t f i :
  same_mode s t -> 0 <= f < 2 ^ 40 -> idx_ok i ->
  load_entry (page_table_ptr (f * 4096) s) i t = Done (t.(ram) !!! (f * 4096 + 8 * i), t).
Proof.
  intros Hm Hf Hi. unfold load_entry, load64, gets, idx_ok in *.
  by rewrite ptr_denotes by (done || lia).
Qed.

Lemma store_entry_eq s t f i x :
  same_mode s t -> 0 <= f < 2 ^ 40 -> idx_ok i ->
  store_entry (page_table_ptr (f * 4096) s) i x t =
    Done (tt, set_ram (<[f * 4096 + 8 * i := x]> t.(ram)) t).
Proof.
  intros Hm Hf Hi. unfold store_entry, store64, modify, idx_ok in *.
  by rewrite ptr_denotes by (done || lia).
Qed.

Lemma set_ram_set_ram a b s : set_ram a (set_ram b s) = set_ram a s.
Proof. done. Qed.
Lemma set_ram_id s : set_ram s.(ram) s = s.
Proof. by destruct s. Qed.

Lemma clear_table_loop s f n : forall i t,
  same_mode s t -> 0 <= f < 2 ^ 40 -> 0 <= i -> i + Z.of_nat n <= 512 ->
  for_upM n i (fun k => store_entry (page_table_ptr (f * 4096) s) k 0) t =
  Done (tt, set_ram (for_up n i (fun k m => <[f * 4096 + 8 * k := 0]> m) t.(ram)) t).
Proof.
  induction n as [|n IH]; intros i t Hm Hf Hi Hn; cbn [for_upM for_up].
  - by rewrite set_ram_id.
  - rewrite (bind_eq _ _ _ _ _ (store_entry_eq s t f i 0 Hm Hf ltac:(unfold idx_ok; lia))).
    rewrite IH by (done || lia). done.
Qed.

Lemma clear_table_eq s t f :
  same_mode s t -> 0 <= f < 2 ^ 40 ->
  clear_table (page_table_ptr (f * 4096) s) t =
    Done (tt, set_ram (zero_page (f * 4096) t.(ram)) t).
Proof. intros. by apply (clear_table_loop s f 512 0 t). Qed.

#[local] Opaque clear_table zero_page link_table.

(** ** The invariant *)

Definition used_in (s : vmm) (g : Z) : bool := page_used s.(pm) g.

(** The frame allocator is ready, the machine has at most 2^52 bytes of
    memory, and [root] is the root of a well-formed tree of tables. *)
Definition vmm_wf (s : vmm) (root : Z) : Prop :=
  pmm_ready s.(pm) /\ s.(pm).(max_pages) <= 2 ^ 40 /\
  tables_wf s.(ram) root (used_in s).

(** Frame [h] still holds no table and has kept its words. *)
Definition same_data (root : Z) (s s' : vmm) (h : Z) : Prop :=
  not_table s'.(ram) root h /\
  forall i, idx_ok i -> s'.(ram) !!! (h * 4096 + 8 * i) = s.(ram) !!! (h * 4096 + 8 * i).

Lemma same_data_trans root s1 s2 s3 h :
  same_data root s1 s2 h -> same_data root s2 s3 h -> same_data root s1 s3 h.
Proof. intros [_ H1] [H2 H3]. split; [done|]. intros i Hi. by rewrite H3, H1. Qed.

(** What the table code never undoes: tables stay, used frames stay used, and
    a frame in use that holds no table keeps its contents. *)
Record extends (root : Z) (s s' : vmm) : Prop := {
  ext_cr3 : s'.(cr3) = s.(cr3);
  ext_mode : same_mode s s';
  ext_next : s'.(next_virt) = s.(next_virt);
  ext_region : same_region s.(pm) s'.(pm);
  ext_used : forall g, 0 <= g -> used_in s g = true -> used_in s' g = true;
  ext_data : forall g, 0 <= g -> used_in s g = true -> not_table s.(ram) root g ->
    same_data root s s' g;
  ext_path : forall q a, path_ok q -> descend s.(ram) root q = Some a ->
    descend s'.(ram) root q = Some a;
}.

#[export] Instance extends_preorder root : PreOrder (extends root).
Proof.
  split.
  - intros s. by constructor.
  - intros s1 s2 s3 [c1 m1 n1 r1 u1 d1 p1] [c2 m2 n2 r2 u2 d2 p2]. constructor.
    + congruence.
    + unfold same_mode in *. congruence.
    + congruence.
    + by etrans.
    + auto.
    + intros g Hg Hu Hn. destruct (d1 g Hg Hu Hn) as [Hn1 Hw1].
      destruct (d2 g Hg (u1 g Hg Hu) Hn1) as [Hn2 Hw2]. split; [done|].
      intros i Hi. by rewrite Hw2, Hw1.
    + auto.
Qed.

Lemma ext_not_table root s s' q : extends root s s' -> not_table s'.(ram) root q -> not_table s.(ram) root q.
Proof. intros He Hn p a Hp Ha. apply (Hn p a Hp). by apply He. Qed.

(** Every frame taken between the two states holds a table. *)
Definition only_tables (root : Z) (s s' : vmm) : Prop :=
  forall q, 0 <= q -> used_in s' q = true -> not_table s'.(ram) root q -> used_in s q = true.

Lemma only_tables_trans root s1 s2 s3 :
  extends root s2 s3 -> only_tables root s1 s2 -> only_tables root s2 s3 -> only_tables root s1 s3.
Proof. intros He H1 H2 q Hq Hu Hn. apply H1; [done|by apply H2|by apply (ext_not_table _ _ s3)]. Qed.

Lemma only_tables_pm root s s' : s'.(pm) = s.(pm) -> only_tables root s s'.
Proof. intros E q _ Hu _. unfold used_in in *. by rewrite E in Hu. Qed.

Lemma ext_max root s s' : extends root s s' -> s'.(pm).(max_pages) = s.(pm).(max_pages).
Proof. intros []. by apply same_region_max. Qed.

(** The translation the tables at [root] give to [v]. *)
Definition xlate (s : vmm) (root v : Z) : option Z := leaf_addr v (leaf s.(ram) root v).

Lemma walk_xlate s root v :
  vmm_wf s (Z.land root PTE_ADDR_MASK) ->
  walk s.(ram) root v = xlate s (Z.land root PTE_ADDR_MASK) v.
Proof. intros (_ & _ & Hwf). by apply (walk_leaf _ _ (used_in s)). Qed.

(** ** Allocating a frame *)

Lemma do_palloc_spec s root a s' :
  vmm_wf s root -> do_palloc s = Done (a, s') ->
  vmm_wf s' root /\ extends root s s' /\ s'.(ram) = s.(ram) /\
  ((a = 0 /\ s' = s /\ s.(pm).(free_pages) = 0) \/
   (exists g, a = g * 4096 /\ 0 < g < 2 ^ 40 /\ used_in s g = false /\ used_in s' g = true /\
      not_table s.(ram) root g /\ s' = set_pm (mark_used g s.(pm)) s /\
      s'.(pm).(free_pages) = s.(pm).(free_pages) - 1)).
Proof.
  intros (Hr & Hmax & Hwf) Hp. unfold do_palloc in Hp.
  destruct (palloc s.(pm)) as [a0 pm'] eqn:E. injection Hp as -> <-.
  pose proof (palloc_ready _ Hr) as Hr'. rewrite E in Hr'. cbn in Hr'.
  pose proof Hr as (Hpwf & Hi & H0). destruct (decide (a = 0)) as [->|Ha].
  - destruct (palloc_none _ _ Hr E) as [-> Hall].
    assert (set_pm s.(pm) s = s) as -> by (by destruct s).
    split_and!; [done|done|done|]. left. split_and!; [done|done|].
    rewrite (wf_free _ Hpwf). apply count_upto_0. intros k Hk. rewrite Hall by lia. done.
  - destruct (palloc_some _ _ _ Hr E Ha) as (g & -> & Hg & Hgf & _ & ->).
    pose proof (fun q => mark_used_page_used s.(pm) g q Hpwf ltac:(lia)) as Hu.
    assert (forall q, 0 <= q -> used_in s q = true ->
      used_in (set_pm (mark_used g s.(pm)) s) q = true) as Hmono.
    { intros q Hq Huq. unfold used_in in *. cbn. rewrite Hu by done. by rewrite Huq. }
    assert (not_table s.(ram) root g) as Hnt.
    { intros q b Hq Hb ->. destruct (tw_frame _ _ _ Hwf q _ Hq Hb) as (h & Eh & _ & Hh).
      assert (g = h) as -> by lia. unfold used_in in Hh. congruence. }
    split_and!.
    + split_and!; [done|cbn; by rewrite (same_region_max _ _ (mark_used_region g _))|].
      cbn. destruct Hwf as [Hfr Hinj Hps]. constructor; [|done|done].
      intros p b Hpp Hb. destruct (Hfr p b Hpp Hb) as (h & ? & ? & ?).
      exists h. split_and!; try done; try lia. apply Hmono; [lia|done].
    + constructor; try done; apply mark_used_region.
    + done.
    + right. exists g. split_and!; try done; try lia.
      * unfold used_in. cbn. rewrite Hu by lia. by rewrite Z.eqb_refl, orb_true_r.
      * cbn. pose proof (free_pages_range _ Hpwf).
        pose proof (free_pages_range _ (mark_used_wf s.(pm) g Hpwf ltac:(lia))).
        unfold mark_used in *. destruct (Z.leb_spec (max_pages (pm s)) g); [lia|].
        rewrite Hgf in *. cbn in *. wsolve.
Qed.

(** ** One level of [map_page] *)


(** [next_table] computed: the address in a present entry, or a new zeroed
    table linked into an absent one. *)
Lemma next_table_present s h i msg :
  0 <= h < 2 ^ 40 -> idx_ok i -> present (s.(ram) !!! (h * 4096 + 8 * i)) = true ->
  next_table (h * 4096) i msg s =
    Done (Z.land (s.(ram) !!! (h * 4096 + 8 * i)) PTE_ADDR_MASK, s).
Proof.
  intros Hh Hi Hp. unfold next_table. rewrite (bind_eq _ _ _ _ _ (gets_eq _ s)).
  rewrite (bind_eq _ _ _ _ _ (load_entry_eq s s h i eq_refl Hh Hi)), Hp. cbn [negb].
  by rewrite (bind_eq _ _ _ _ _ eq_refl), (bind_eq _ _ _ _ _ (load_entry_eq s s h i eq_refl Hh Hi)).
Qed.

Lemma next_table_absent s h i msg :
  0 <= h < 2 ^ 40 -> idx_ok i -> present (s.(ram) !!! (h * 4096 + 8 * i)) = false ->
  next_table (h * 4096) i msg s =
    match do_palloc s with
    | Done (new, t) =>
        if new =? 0 then Panicked msg
        else (p ← gets (page_table_ptr new); _ ← clear_table p;
              _ ← store_entry (page_table_ptr (h * 4096) s) i
                    (link_entry (Z.land new PTE_ADDR_MASK));
              e' ← load_entry (page_table_ptr (h * 4096) s) i;
              mret (Z.land e' PTE_ADDR_MASK)) t
    | Panicked w => Panicked w
    | Fault => Fault
    end.
Proof.
  intros Hh Hi Hp. unfold next_table. rewrite (bind_eq _ _ _ _ _ (gets_eq _ s)).
  rewrite (bind_eq _ _ _ _ _ (load_entry_eq s s h i eq_refl Hh Hi)), Hp. cbn [negb].
  unfold mbind, M_bind. destruct (do_palloc s) as [[new t]| |]; [|done..].
  destruct (new =? 0); [done|]. cbn.
  by destruct (clear_table (page_table_ptr new t) t) as [[? ?]| |].
Qed.

Lemma next_table_new s t h g i :
  same_mode s t -> 0 <= h < 2 ^ 40 -> 0 <= g < 2 ^ 40 -> idx_ok i ->
  (p ← gets (page_table_ptr (g * 4096)); _ ← clear_table p;
   _ ← store_entry (page_table_ptr (h * 4096) s) i (link_entry (Z.land (g * 4096) PTE_ADDR_MASK));
   e' ← load_entry (page_table_ptr (h * 4096) s) i; mret (Z.land e' PTE_ADDR_MASK)) t =
  Done (g * 4096, set_ram (link_table (h * 4096) i (g * 4096) t.(ram)) t).
Proof.
  intros Hm Hh Hg Hi. rewrite mask_frame by done.
  rewrite (bind_eq _ _ _ _ _ (gets_eq _ t)).
  rewrite (bind_eq _ _ _ _ _ (clear_table_eq t t g eq_refl Hg)).
  rewrite (bind_eq _ _ _ _ _ (store_entry_eq s (set_ram _ t) h i _ Hm Hh Hi)).
  rewrite (bind_eq _ _ _ _ _ (load_entry_eq s (set_ram _ (set_ram _ t)) h i Hm Hh Hi)).
  cbn [ram set_ram]. rewrite lookup_total_insert_eq, link_entry_addr by done. done.
Qed.

Definition level_post (root : Z) (s : vmm) (p : list Z) (r : outcome (Z * vmm)) : Prop :=
  match r with
  | Done (a, s') =>
      vmm_wf s' root /\ extends root s s' /\ descend s'.(ram) root p = Some a /\
      (forall v, xlate s' root v = xlate s root v) /\
      s.(pm).(free_pages) - 1 <= s'.(pm).(free_pages) /\ only_tables root s s'
  | Panicked _ => s.(pm).(free_pages) = 0
  | Fault => False
  end.

(** The state after linking frame [g] as the table of entry [i]. *)
Lemma level_post_link s root p h g i t :
  vmm_wf s root -> path_ok p -> (length p <= 2)%nat -> idx_ok i ->
  descend s.(ram) root p = Some (h * 4096) ->
  present (s.(ram) !!! (h * 4096 + 8 * i)) = false ->
  0 < g < 2 ^ 40 -> used_in s g = false -> used_in t g = true ->
  vmm_wf t root -> extends root s t -> t.(ram) = s.(ram) ->
  t.(pm).(free_pages) = s.(pm).(free_pages) - 1 ->
  (forall q, 0 <= q -> used_in t q = true -> used_in s q = true \/ q = g) ->
  level_post root s (p ++ [i])
    (Done (g * 4096, set_ram (link_table (h * 4096) i (g * 4096) s.(ram)) t)).
Proof.
  intros (_ & _ & Htw) Hp Hl Hi Ht Habs Hg Hgf Hgu (Hr1 & Hmax1 & _) Hext Hram Hfp Hnew.
  set (s' := set_ram _ t).
  assert (tables_wf s'.(ram) root (used_in s')) as Htw'.
  { apply (link_wf _ _ (used_in s) _ p); try done. intros k Hk. by apply Hext. }
  pose proof (link_cases _ _ _ Htw p _ i g Hp Hl Hi Ht Hg Hgf) as Hcases.
  assert (descend s'.(ram) root (p ++ [i]) = Some (g * 4096)) as Hgd.
  { cbn. by rewrite (link_descend_new _ _ _ Htw p _ i g Hp Hl Hi Ht Hg Hgf []) by
      (by apply path_ok_snoc). }
  split_and!; [by split_and!| |exact Hgd| |cbn; lia|].
  - destruct Hext as [e1 e2 e3 e4 e5 e6 e7]. constructor; try done.
    + intros k Hk Hku Hkn. split.
      * intros q a Hq Ha. destruct (Hcases q a Hq Ha) as [[_ ->]|[_ Ho]]; [|by apply (Hkn q)].
        intros E. assert (g = k) as -> by lia. congruence.
      * intros j Hj. apply (link_other_word _ root (used_in s) p); try done.
        intros ->. congruence.
    + intros q a Hq Ha.
      cbn. rewrite (link_descend_old _ _ _ Htw p _ i g); try done.
      intros r ->. rewrite descend_app, Ht in Ha. cbn in Ha. unfold step in Ha.
      by rewrite Habs in Ha.
  - intros v. unfold xlate. cbn. by apply (link_leaf _ _ (used_in s) p).
  - intros q Hq Hu Hn. destruct (Hnew q Hq Hu) as [|Eq]; [done|].
    by destruct (Hn (p ++ [i]) _ (path_ok_snoc _ _ Hp Hl Hi) Hgd); rewrite Eq.
Qed.

Lemma next_table_spec s root p t i msg :
  vmm_wf s root -> path_ok p -> (length p <= 2)%nat -> idx_ok i ->
  descend s.(ram) root p = Some t -> level_post root s (p ++ [i]) (next_table t i msg s).
Proof.
  intros Hwf Hp Hl Hi Ht. pose proof Hwf as (Hr & Hmax & Htw).
  destruct (tw_frame _ _ _ Htw p t Hp Ht) as (h & -> & Hh & Hhu).
  destruct (present (s.(ram) !!! (h * 4096 + 8 * i))) eqn:Hpr.
  - rewrite next_table_present by (done || lia).
    split_and!; [done|done| |done|lia|by apply only_tables_pm]. rewrite descend_snoc, Ht. unfold step. by rewrite Hpr.
  - rewrite next_table_absent by (done || lia).
    destruct (do_palloc s) as [[new t]| |] eqn:Epa;
      [|unfold do_palloc in Epa; by destruct (palloc _)..].
    destruct (do_palloc_spec s root new t Hwf Epa) as (Hwf1 & Hext & Hram & Hcase).
    destruct Hcase as [(-> & -> & Hz)|(g & -> & Hg & Hgf & Hgu & Hnt & Et & Hfp)]; [done|].
    destruct (Z.eqb_spec (g * 4096) 0); [lia|].
    rewrite next_table_new by first [apply Hext|done|lia]. rewrite Hram.
    apply (level_post_link s root p h g i t); try done. intros q Hq. rewrite Et. unfold used_in. cbn.
    rewrite mark_used_page_used by (apply Hr || lia). intros Hu. apply orb_true_iff in Hu as [Hu|Hu]; [by left|].
    right. by apply Z.eqb_eq.
Qed.

(** ** Writing a leaf entry *)

Lemma descend_frame s root p a :
  vmm_wf s root -> path_ok p -> descend s.(ram) root p = Some a ->
  exists h, a = h * 4096 /\ 0 < h < 2 ^ 40 /\ used_in s h = true.
Proof. intros (_ & _ & Htw) Hp Ha. by apply (tw_frame _ _ _ Htw p). Qed.

Lemma root_frame s root :
  vmm_wf s root -> exists h, root = h * 4096 /\ 0 < h < 2 ^ 40 /\ used_in s h = true.
Proof. intros Hwf. apply (descend_frame s root []); [done|by split; [constructor|cbn; lia]|done]. Qed.

(** Storing [e] in the last-level entry of [virt]. *)
Lemma leaf_store s root virt h e :
  vmm_wf s root -> descend s.(ram) root (vpath virt) = Some (h * 4096) ->
  let s' := set_ram (<[h * 4096 + 8 * pt_index virt := e]> s.(ram)) s in
  vmm_wf s' root /\ extends root s s' /\
  forall v, xlate s' root v =
    if decide (vpn v = vpn virt) then leaf_addr v (Some e) else xlate s root v.
Proof.
  intros (Hr & Hmax & Htw) Ht s'.
  pose proof (leaf_word_interior _ _ _ (vpath virt) _ (pt_index virt) Htw (vpath_ok virt)
    eq_refl (pt_index_ok virt) Ht) as Hout.
  split_and!.
  - split_and!; [done|done|]. by apply write_wf.
  - constructor; try done.
    + intros g Hg Hu Hn. split.
      * intros q a Hq Ha. cbn in Ha. rewrite write_descend in Ha by done. by apply (Hn q).
      * intros j Hj. cbn. apply lookup_total_insert_ne. intros E.
        apply word_inj in E as [<- _]; [|auto with archa|done].
        by apply (Hn (vpath virt) (h * 4096) (vpath_ok virt) Ht).
    + intros q a Hq Ha. cbn. by rewrite write_descend.
  - intros v. unfold xlate. cbn. rewrite (write_leaf_leaf _ _ (used_in s)) by done.
    by case_decide.
Qed.

Definition map_post (root phys virt : Z) (s : vmm) (r : outcome (unit * vmm)) : Prop :=
  match r with
  | Done (_, s') =>
      vmm_wf s' root /\ extends root s s' /\
      s.(pm).(free_pages) - 3 <= s'.(pm).(free_pages) /\ only_tables root s s' /\
      forall v, xlate s' root v =
        if decide (vpn v = vpn virt)
        then Some (Z.land phys PTE_ADDR_MASK + v mod 2 ^ 12) else xlate s root v
  | Panicked _ => s.(pm).(free_pages) < 3
  | Fault => False
  end.

Lemma leaf_addr_link v phys :
  leaf_addr v (Some (link_entry (Z.land phys PTE_ADDR_MASK))) =
    Some (Z.land phys PTE_ADDR_MASK + v mod 2 ^ 12).
Proof.
  destruct (mask_is_frame phys) as (f & -> & Hf). unfold leaf_addr.
  by rewrite link_entry_present, link_entry_addr.
Qed.

Lemma flush_wf v s root : vmm_wf s root -> vmm_wf (flush v s) root.
Proof. done. Qed.
Lemma flush_extends v s root : extends root s (flush v s).
Proof. by constructor. Qed.

Lemma level_bind {B} root s p (m : M vmm Z) (k : Z -> M vmm B) (Q : outcome (B * vmm) -> Prop) :
  level_post root s p (m s) ->
  (forall a t, level_post root s p (Done (a, t)) -> Q (k a t)) ->
  (forall w, s.(pm).(free_pages) = 0 -> Q (Panicked w)) ->
  Q ((m ≫= k) s).
Proof.
  intros Hm Hk Hw. unfold mbind, M_bind. destruct (m s) as [[a t]|w|]; [by apply Hk|by apply Hw|done].
Qed.

Lemma map_page_post s root phys virt :
  vmm_wf s root -> map_post root phys virt s (map_page phys virt root s).
Proof.
  intros Hwf. unfold map_page.
  assert (path_ok []) as Hp0 by (split; [constructor|cbn; lia]).
  assert (path_ok [pml4_index virt]) as Hp1 by path_tac.
  assert (path_ok [pml4_index virt; pdpt_index virt]) as Hp2 by path_tac.
  apply (level_bind root s [pml4_index virt]).
  { apply (next_table_spec s root []); auto with archa; cbn; lia. }
  2:{ intros w Hw. cbn. lia. }
  intros a3 s1 (Hwf1 & He1 & Hd1 & Hx1 & Hf1 & Hn1).
  apply (level_bind root s1 [pml4_index virt; pdpt_index virt]).
  { apply (next_table_spec s1 root [pml4_index virt]); auto with archa; cbn; lia. }
  2:{ intros w Hw. cbn. lia. }
  intros a2 s2 (Hwf2 & He2 & Hd2 & Hx2 & Hf2 & Hn2).
  apply (level_bind root s2 (vpath virt)).
  { apply (next_table_spec s2 root [pml4_index virt; pdpt_index virt]); auto with archa; cbn; lia. }
  2:{ intros w Hw. cbn. lia. }
  intros a1 s3 (Hwf3 & He3 & Hd3 & Hx3 & Hf3 & Hn3).
  destruct (descend_frame s3 root _ _ Hwf3 (vpath_ok virt) Hd3) as (h & -> & Hh & _).
  rewrite (bind_eq _ _ _ _ _ (gets_eq _ s3)).
  rewrite (bind_eq _ _ _ _ _ (store_entry_eq s3 s3 h (pt_index virt) _ eq_refl ltac:(lia) (pt_index_ok virt))).
  destruct (leaf_store s3 root virt h (link_entry (Z.land phys PTE_ADDR_MASK)) Hwf3 Hd3)
    as (Hwf4 & He4 & Hx4).
  unfold map_post, invlpg, modify. split_and!.
  - by apply flush_wf.
  - etrans; [done|]. etrans; [done|]. etrans; [done|]. etrans; [done|]. apply flush_extends.
  - cbn. lia.
  - apply (only_tables_trans _ s s3); [etrans; [exact He4|apply flush_extends]| |by apply only_tables_pm].
    by eauto using only_tables_trans.
  - intros v. change (xlate (flush virt ?t) root v) with (xlate t root v).
    rewrite Hx4, leaf_addr_link, Hx3, Hx2, Hx1. done.
Qed.

(** ** Unmapping *)

Definition unmap_post (root virt : Z) (s : vmm) (r : outcome (Z * vmm)) : Prop :=
  exists phys s', r = Done (phys, s') /\ vmm_wf s' root /\ extends root s s' /\
    s'.(pm) = s.(pm) /\
    (forall v, xlate s' root v = if decide (vpn v = vpn virt) then None else xlate s root v) /\
    (forall a, xlate s root virt = Some a -> phys = a - virt mod 2 ^ 12).

Lemma leaf_some m root v e :
  leaf m root v = Some e <-> exists pt, descend m root (vpath v) = Some pt /\ e = m !!! (pt + 8 * pt_index v).
Proof.
  unfold leaf. destruct (descend m root (vpath v)) as [pt|].
  - split; [intros [= <-]; eauto|]. by intros (? & [= <-] & ->).
  - split; [done|]. by intros (? & ? & ?).
Qed.

(** No table for the last level: nothing is mapped and nothing changes. *)
Lemma unmap_none s root virt :
  vmm_wf s root -> descend s.(ram) root (vpath virt) = None ->
  unmap_post root virt s (Done (0, s)).
Proof.
  intros Hwf Hd. exists 0, s. split_and!; try done.
  - intros v. case_decide as E; [|done]. unfold xlate, leaf.
    destruct (indexes_of_vpn v virt E) as (E1 & E2 & E3 & E4).
    unfold vpath in *. by rewrite E1, E2, E3, Hd.
  - intros a. unfold xlate, leaf. by rewrite Hd.
Qed.

Lemma unmap_page_post s root virt :
  vmm_wf s root -> unmap_post root virt s (unmap_page virt root s).
Proof.
  intros Hwf. unfold unmap_page.
  destruct (root_frame s root Hwf) as (h4 & -> & Hh4 & _).
  rewrite (bind_eq _ _ _ _ _ (gets_eq _ s)).
  rewrite (bind_eq _ _ _ _ _ (load_entry_eq s s h4 _ eq_refl ltac:(lia) (pml4_index_ok virt))).
  destruct (present _) eqn:P4; cbn [negb].
  2:{ apply unmap_none; [done|]. unfold vpath. cbn [descend]. unfold step at 1. by rewrite P4. }
  destruct (mask_is_frame (ram s !!! (h4 * 4096 + 8 * pml4_index virt))) as (h3 & E3 & Hh3).
  rewrite (bind_eq _ _ _ _ _ (gets_eq _ s)), E3.
  rewrite (bind_eq _ _ _ _ _ (load_entry_eq s s h3 _ eq_refl Hh3 (pdpt_index_ok virt))).
  destruct (present (ram s !!! (h3 * 4096 + _))) eqn:P3; cbn [negb].
  2:{ apply unmap_none; [done|]. unfold vpath. cbn [descend]. unfold step. by rewrite P4, E3, P3. }
  destruct (mask_is_frame (ram s !!! (h3 * 4096 + 8 * pdpt_index virt))) as (h2 & E2 & Hh2).
  rewrite (bind_eq _ _ _ _ _ (gets_eq _ s)), E2.
  rewrite (bind_eq _ _ _ _ _ (load_entry_eq s s h2 _ eq_refl Hh2 (pd_index_ok virt))).
  destruct (present (ram s !!! (h2 * 4096 + _))) eqn:P2; cbn [negb].
  2:{ apply unmap_none; [done|]. unfold vpath. cbn [descend]. unfold step.
      by rewrite P4, E3, P3, E2, P2. }
  destruct (mask_is_frame (ram s !!! (h2 * 4096 + 8 * pd_index virt))) as (h1 & E1 & Hh1).
  assert (descend s.(ram) (h4 * 4096) (vpath virt) = Some (h1 * 4096)) as Hd.
  { unfold vpath. cbn [descend]. unfold step. by rewrite P4, E3, P3, E2, P2, E1. }
  rewrite (bind_eq _ _ _ _ _ (gets_eq _ s)), E1.
  rewrite (bind_eq _ _ _ _ _ (load_entry_eq s s h1 _ eq_refl Hh1 (pt_index_ok virt))).
  rewrite (bind_eq _ _ _ _ _ (store_entry_eq s s h1 _ 0 eq_refl Hh1 (pt_index_ok virt))).
  destruct (leaf_store s _ virt h1 0 Hwf Hd) as (Hwf' & He & Hx).
  eexists _, (flush virt (set_ram _ s)). split; [done|]. split_and!; try done.
  - etrans; [done|]. apply flush_extends.
  - intros a. unfold xlate, leaf. rewrite Hd. cbn [leaf_addr].
    case_match; [|done]. intros [= Ea]. lia.
Qed.

(** ** Data frames *)

(** Storing into a data frame that was free in [s0]. *)
Lemma data_write s root g i x :
  vmm_wf s root -> idx_ok i -> not_table s.(ram) root g ->
  let s' := set_ram (<[g * 4096 + 8 * i := x]> s.(ram)) s in
  vmm_wf s' root /\
  (forall v, xlate s' root v = xlate s root v) /\
  (forall k j, k <> g -> idx_ok j ->
     s'.(ram) !!! (k * 4096 + 8 * j) = s.(ram) !!! (k * 4096 + 8 * j)) /\
  (forall k, not_table s.(ram) root k <-> not_table s'.(ram) root k) /\
  (forall q, path_ok q -> descend s'.(ram) root q = descend s.(ram) root q).
Proof.
  intros (Hr & Hmax & Htw) Hi Hnt s'.
  destruct (write_data s.(ram) root (used_in s) g i x Htw Hnt Hi) as (Htw' & Hnt' & Hleaf).
  assert (forall q, path_ok q -> descend s'.(ram) root q = descend s.(ram) root q) as Hdesc.
  { intros q Hq. apply write_descend; [|done]. intros q' a j Hq' _ Hj Ha E.
    destruct (tw_frame _ _ _ Htw q' a Hq' Ha) as (h & -> & _).
    apply word_inj in E as [-> _]; [|done|done]. by apply (Hnt q' (g * 4096)). }
  split_and!; try done.
  - intros v. unfold xlate. cbn. by rewrite Hleaf.
  - intros k j Hk Hj. cbn. apply lookup_total_insert_ne. intros E.
    by apply word_inj in E as [-> _].
  - intros k. split; intros Hk q a Hq; [rewrite Hdesc by done|rewrite <-Hdesc by done]; by apply Hk.
Qed.

Lemma data_store s0 s root g i x :
  vmm_wf s root -> extends root s0 s -> idx_ok i ->
  used_in s0 g = false -> not_table s.(ram) root g ->
  let s' := set_ram (<[g * 4096 + 8 * i := x]> s.(ram)) s in
  vmm_wf s' root /\ extends root s0 s' /\ not_table s'.(ram) root g /\
  (forall v, xlate s' root v = xlate s root v) /\
  (forall k j, k <> g -> idx_ok j ->
     s'.(ram) !!! (k * 4096 + 8 * j) = s.(ram) !!! (k * 4096 + 8 * j)) /\
  (forall k, not_table s.(ram) root k <-> not_table s'.(ram) root k).
Proof.
  intros Hwf Hext Hi Hg0 Hnt s'.
  destruct (data_write s root g i x Hwf Hi Hnt) as (Hwf' & Hx & Hword & Hk & Hdesc).
  split_and!; try done; [|by apply Hk].
  destruct Hext as [e1 e2 e3 e4 e5 e6 e7]. constructor; try done.
  - intros k Hk0 Hku Hkn. destruct (e6 k Hk0 Hku Hkn) as [Hn Hw]. split; [by apply Hk|].
    intros j Hj. unfold s'. rewrite Hword; [by apply Hw| |done]. intros ->. congruence.
  - intros q a Hq Ha. unfold s'. rewrite Hdesc by done. by apply e7.
Qed.

(** The stores of [memset] through the mapping of [virt]. *)
Lemma zero_loop s0 root cr virt g n : forall i s,
  Z.land cr PTE_ADDR_MASK = root -> 0 <= i -> i + Z.of_nat n <= 512 ->
  virt mod 4096 = 0 -> s.(cr3) = cr ->
  vmm_wf s root -> extends root s0 s -> used_in s0 g = false -> not_table s.(ram) root g ->
  (forall v, vpn v = vpn virt -> xlate s root v = Some (g * 4096 + v mod 2 ^ 12)) ->
  exists s', for_upM n i (fun k => vstore64 (virt + 8 * k) 0) s = Done (tt, s') /\
    vmm_wf s' root /\ extends root s0 s' /\ s'.(pm) = s.(pm) /\ s'.(cr3) = cr /\
    (forall v, xlate s' root v = xlate s root v) /\
    (forall j, i <= j < i + Z.of_nat n -> s'.(ram) !!! (g * 4096 + 8 * j) = 0) /\
    (forall k j, (k <> g \/ j < i) -> idx_ok j ->
       s'.(ram) !!! (k * 4096 + 8 * j) = s.(ram) !!! (k * 4096 + 8 * j)) /\
    (forall k, not_table s.(ram) root k <-> not_table s'.(ram) root k).
Proof.
  induction n as [|n IH]; intros i s Hcr Hi Hn Hal Hcr3 Hwf Hext Hg0 Hnt Hx; cbn [for_upM].
  { exists s. split_and!; try done. intros; lia. }
  assert (idx_ok i) as Hii by (unfold idx_ok; lia).
  assert (vstore64 (virt + 8 * i) 0 s =
    Done (tt, set_ram (<[g * 4096 + 8 * i := 0]> s.(ram)) s)) as Hst.
  { unfold vstore64. rewrite Hcr3, walk_xlate, Hcr by (by rewrite Hcr).
    assert ((virt + 8 * i) / 4096 = virt / 4096) as Hpg by wsolve.
    rewrite Hx by (unfold vpn; by rewrite Hpg).
    replace ((virt + 8 * i) mod 2 ^ 12) with (8 * i) by (change (2 ^ 12) with 4096; wsolve).
    done. }
  rewrite (bind_eq _ _ _ _ _ Hst).
  destruct (data_store s0 s root g i 0 Hwf Hext Hii Hg0 Hnt) as (Hw1 & He1 & Hn1 & Hx1 & Hword & Hk1).
  set (s1 := set_ram _ s) in *.
  destruct (IH (i + 1) s1) as (s' & Hrun & Hw' & He' & Hpm & Hc & Hx' & Hz & Hwd & Hk');
    try done; try lia.
  { intros v Hv. rewrite Hx1. by apply Hx. }
  exists s'. split_and!; try done.
  - intros v. by rewrite Hx', Hx1.
  - intros j Hj. destruct (decide (j = i)) as [->|]; [|apply Hz; lia].
    rewrite Hwd; [|right; lia|done]. cbn. by rewrite lookup_total_insert_eq.
  - intros k j Hkj Hj. rewrite Hwd; [|destruct Hkj; [by left|right; lia]|done].
    destruct (decide (k = g)) as [->|]; [|by apply Hword].
    destruct Hkj as [?|Hlt]; [done|]. cbn. apply lookup_total_insert_ne. lia.
  - intros k. by rewrite Hk1.
Qed.

(** Giving back a data frame. *)
Lemma do_pfree_spec s root g :
  vmm_wf s root -> 0 < g < s.(pm).(max_pages) -> used_in s g = true ->
  not_table s.(ram) root g ->
  exists s', do_pfree (g * 4096) s = Done (tt, s') /\ vmm_wf s' root /\
    s'.(ram) = s.(ram) /\ s'.(cr3) = s.(cr3) /\ s'.(next_virt) = s.(next_virt) /\
    same_mode s s' /\ same_region s.(pm) s'.(pm) /\
    s'.(pm).(free_pages) = s.(pm).(free_pages) + 1 /\
    forall q, 0 <= q -> used_in s' q = used_in s q && negb (q =? g).
Proof.
  intros ((Hpw & Hi & H0) & Hmax & Htw) Hg Hu Hnt.
  unfold do_pfree, modify, pfree, PAGE_SIZE. rewrite Z.div_mul by done.
  pose proof (fun q => mark_free_page_used s.(pm) g q Hpw ltac:(lia)) as Hpu.
  assert (forall q, 0 <= q -> used_in (set_pm (mark_free g s.(pm)) s) q =
    used_in s q && negb (q =? g)) as Hused.
  { intros q Hq. unfold used_in. cbn. rewrite Hpu by done.
    destruct (Z.ltb_spec g (max_pages (pm s))); [|lia]. by rewrite andb_true_r. }
  eexists. split; [done|]. pose proof (mark_free_region g s.(pm)) as Hreg.
  pose proof (mark_free_wf s.(pm) g Hpw ltac:(lia)) as Hpw'.
  split_and!; try done.
  - split_and!; [|cbn; by rewrite (same_region_max _ _ Hreg)|].
    + split_and!; [done|cbn; destruct Hreg as (_&_&_&Hb&_); congruence|].
      cbn. rewrite Hpu by lia. rewrite H0. by destruct (Z.eqb_spec 0 g); [lia|].
    + cbn. destruct Htw as [Hfr Hinj Hps]. constructor; [|done|done].
      intros p a Hp Ha. destruct (Hfr p a Hp Ha) as (h & -> & Hh & Hhu).
      exists h. split_and!; try done; try lia. rewrite Hused by lia. rewrite Hhu.
      destruct (Z.eqb_spec h g) as [->|]; [|done]. by destruct (Hnt p (g * 4096) Hp Ha).
  - cbn. pose proof (free_pages_range _ Hpw). pose proof (free_pages_range _ Hpw').
    unfold mark_free in *. destruct (Z.leb_spec (max_pages (pm s)) g); [lia|].
    unfold used_in in Hu. rewrite Hu in *. cbn in *. wsolve.
Qed.

(** ** Runs of pages *)

Definition page_at (start k : Z) : Z := start + k * PAGE_SIZE.

(** [n] pages from [start] on, inside the 64-bit address space. *)
Definition range_ok (start n : Z) : Prop :=
  0 <= start /\ start mod 4096 = 0 /\ page_at start n <= 2 ^ 64 /\ n <= 2 ^ 36.

Definition in_run (start a b v : Z) : Prop :=
  exists k, a <= k < b /\ vpn v = vpn (page_at start k).

Lemma page_at_u64 start n k :
  range_ok start n -> 0 <= k < n -> u64 (start + k * PAGE_SIZE) = page_at start k.
Proof. intros (?&?&?&?) ?. apply u64_id. unfold in_u64, page_at, PAGE_SIZE in *. lia. Qed.

Lemma page_at_vpn_inj start n k l :
  range_ok start n -> 0 <= k < n -> 0 <= l < n ->
  vpn (page_at start k) = vpn (page_at start l) -> k = l.
Proof.
  intros (?&Hal&?&?) ? ?. unfold vpn, page_at, PAGE_SIZE in *.
  replace ((start + k * 4096) / 4096) with (start / 4096 + k) by wsolve.
  replace ((start + l * 4096) / 4096) with (start / 4096 + l) by wsolve.
  generalize (start / 4096). intros y E. Z.div_mod_to_equations. lia.
Qed.

Lemma in_run_split start a b v :
  a < b -> in_run start a b v <-> vpn v = vpn (page_at start a) \/ in_run start (a + 1) b v.
Proof.
  intros Hab. split.
  - intros (k & Hk & E). destruct (decide (k = a)) as [->|]; [by left|].
    right. exists k. split; [lia|done].
  - intros [E|(k & Hk & E)]; [exists a|exists k]; (split; [lia|done]).
Qed.

Lemma in_run_snoc start a b v :
  a <= b -> in_run start a (b + 1) v <-> in_run start a b v \/ vpn v = vpn (page_at start b).
Proof.
  intros Hab. split.
  - intros (k & Hk & E). destruct (decide (k = b)) as [->|]; [by right|].
    left. exists k. split; [lia|done].
  - intros [(k & Hk & E)|E]; [exists k|exists b]; (split; [lia|done]).
Qed.

Definition data_frame (s : vmm) (root g : Z) : Prop :=
  0 < g < s.(pm).(max_pages) /\ used_in s g = true /\ not_table s.(ram) root g.

(** Page [j + k] of the run is mapped to the data frame [gs !! k]. *)
Definition mapped_run (s : vmm) (root start j : Z) (gs : list Z) : Prop :=
  NoDup gs /\
  forall k g, gs !! k = Some g ->
    data_frame s root g /\
    forall v, vpn v = vpn (page_at start (j + Z.of_nat k)) ->
      xlate s root v = Some (g * 4096 + v mod 2 ^ 12).

Definition free_body (start pml4 : Z) : Z -> M vmm unit := fun i =>
  phys ← unmap_page (u64 (start + i * PAGE_SIZE)) pml4;
  if negb (phys =? 0) then do_pfree phys else mret tt.

Record frees_post (root start j : Z) (gs : list Z) (s s' : vmm) : Prop := {
  fr_wf : vmm_wf s' root;
  fr_cr3 : s'.(cr3) = s.(cr3);
  fr_next : s'.(next_virt) = s.(next_virt);
  fr_region : same_region s.(pm) s'.(pm);
  fr_free : s'.(pm).(free_pages) = s.(pm).(free_pages) + Z.of_nat (length gs);
  fr_gone : forall v, in_run start j (j + Z.of_nat (length gs)) v -> xlate s' root v = None;
  fr_kept : forall v, ~ in_run start j (j + Z.of_nat (length gs)) v ->
    xlate s' root v = xlate s root v;
  fr_used : forall q, 0 <= q -> used_in s' q = used_in s q && negb (bool_decide (q ∈ gs));
  fr_tables : forall q, not_table s'.(ram) root q -> not_table s.(ram) root q;
  fr_data : forall h, 0 <= h -> h ∉ gs -> used_in s h = true -> not_table s.(ram) root h ->
    same_data root s s' h;
}.

Lemma free_step s root start n j g gs :
  vmm_wf s root -> range_ok start n -> 0 <= j -> j + Z.of_nat (S (length gs)) <= n ->
  mapped_run s root start j (g :: gs) ->
  exists s1, free_body start root j s = Done (tt, s1) /\ vmm_wf s1 root /\
    s1.(cr3) = s.(cr3) /\ s1.(next_virt) = s.(next_virt) /\ same_region s.(pm) s1.(pm) /\
    s1.(pm).(free_pages) = s.(pm).(free_pages) + 1 /\
    (forall v, xlate s1 root v =
       if decide (vpn v = vpn (page_at start j)) then None else xlate s root v) /\
    (forall q, 0 <= q -> used_in s1 q = used_in s q && negb (q =? g)) /\
    (forall q, not_table s1.(ram) root q -> not_table s.(ram) root q) /\
    (forall h, 0 <= h -> used_in s h = true -> not_table s.(ram) root h -> same_data root s s1 h) /\
    mapped_run s1 root start (j + 1) gs.
Proof.
  intros Hwf Hrg Hj Hn [Hnd Hrun]. apply NoDup_cons in Hnd as [Hg Hnd].
  unfold free_body. rewrite (page_at_u64 start n) by (done || lia).
  destruct (unmap_page_post s root (page_at start j) Hwf)
    as (phys & s' & E & Hwf' & He & Hpm & Hx & Hphys).
  rewrite (bind_eq _ _ _ _ _ E).
  destruct (Hrun 0%nat g eq_refl) as [[Hgm [Hgu Hgn]] Hgx].
  rewrite Z.add_0_r in Hgx. rewrite (Hphys _ (Hgx _ eq_refl)), Z.add_simpl_r.
  destruct (Z.eqb_spec (g * 4096) 0); [lia|]. cbn [negb].
  destruct (ext_data _ _ _ He g ltac:(lia) Hgu Hgn) as [Hgn' _].
  destruct (do_pfree_spec s' root g Hwf') as (s1 & E1 & Hw1 & Hr1 & Hc1 & Hnx1 & Hm1 & Hreg1 & Hf1 & Hu1);
    [rewrite Hpm; lia|by apply He; [lia|]|done|].
  assert (forall v, xlate s1 root v =
       if decide (vpn v = vpn (page_at start j)) then None else xlate s root v) as Hx1.
  { intros v. rewrite <-Hx. unfold xlate. by rewrite Hr1. }
  assert (forall q, 0 <= q -> used_in s1 q = used_in s q && negb (q =? g)) as Hu1'.
  { intros q Hq. rewrite Hu1 by done. unfold used_in. by rewrite Hpm. }
  exists s1. split_and!; try done; [by rewrite Hc1; apply He|by rewrite Hnx1; apply He| | |by rewrite Hr1; intros q; apply ext_not_table| |].
  - by rewrite Hpm in Hreg1.
  - by rewrite Hf1, Hpm.
  - intros h Hh Hhu Hhn. unfold same_data. rewrite Hr1. by apply He.
  - split; [done|]. intros k h Hk.
    destruct (Hrun (S k) h Hk) as [[Hhm [Hhu Hhn]] Hhx].
    assert (h <> g) by (intros ->; apply Hg; by eapply list_elem_of_lookup_2).
    unfold data_frame. rewrite (same_region_max _ _ Hreg1), Hpm.
    split_and!; [lia|lia| | |].
    + rewrite Hu1' by lia. rewrite Hhu. by destruct (Z.eqb_spec h g).
    + rewrite Hr1. by apply (ext_data _ _ _ He h ltac:(lia)).
    + intros v Hv. rewrite Hx1. apply lookup_lt_Some in Hk.
      replace (j + 1 + Z.of_nat k) with (j + Z.of_nat (S k)) in Hv by lia.
      rewrite decide_False; [by apply Hhx|]. rewrite Hv. intros Ev.
      apply (page_at_vpn_inj start n) in Ev; [lia|done|lia|lia].
Qed.

Lemma frees_loop root start n gs : forall j s,
  vmm_wf s root -> range_ok start n -> 0 <= j -> j + Z.of_nat (length gs) <= n ->
  mapped_run s root start j gs ->
  exists s', for_upM (length gs) j (free_body start root) s = Done (tt, s') /\
    frees_post root start j gs s s'.
Proof.
  induction gs as [|g gs IH]; intros j s Hwf Hrg Hj Hn Hrun; cbn [length for_upM].
  { exists s. split; [done|]. constructor; try done; cbn.
    - lia.
    - intros v (k & Hk & _). lia.
    - intros q Hq. by rewrite andb_true_r. }
  cbn [length] in Hn.
  destruct (free_step s root start n j g gs Hwf Hrg Hj ltac:(lia) Hrun)
    as (s1 & E1 & Hw1 & Hc1 & Hnx1 & Hreg1 & Hf1 & Hx1 & Hu1 & Ht1 & Hd1 & Hrun1).
  rewrite (bind_eq _ _ _ _ _ E1).
  destruct (IH (j + 1) s1 Hw1 Hrg ltac:(lia) ltac:(lia) Hrun1) as (s' & E' & Hp).
  exists s'. split; [done|]. destruct Hp as [p1 p2 p3 p4 p5 p6 p7 p8 p8' p9].
  assert (Hlen : j + Z.of_nat (S (length gs)) = j + 1 + Z.of_nat (length gs)) by lia.
  constructor; cbn [length]; rewrite ?Hlen.
  - done.
  - congruence.
  - congruence.
  - by etrans.
  - lia.
  - intros v Hv. destruct (decide (vpn v = vpn (page_at start j))) as [Ev|Ev].
    + rewrite p7; [by rewrite Hx1, decide_True|]. intros (k & Hk & Ek). rewrite Ev in Ek.
      apply (page_at_vpn_inj start n) in Ek; [lia|done|lia|lia].
    + apply p6. apply in_run_split in Hv as [?|?]; [done|done|lia].
  - intros v Hv. rewrite in_run_split in Hv by lia. rewrite p7, Hx1 by tauto.
    rewrite decide_False by tauto. done.
  - intros q Hq. rewrite p8, Hu1 by done. rewrite <-andb_assoc, <-negb_orb. do 2 f_equal.
    destruct (Z.eqb_spec q g) as [->|]; case_bool_decide; case_bool_decide; set_solver.
  - intros q Hq. by apply Ht1, p8'.
  - intros h Hh Hn' Hu Hnt. apply not_elem_of_cons in Hn' as [Hhg Hhgs].
    pose proof (Hd1 h Hh Hu Hnt) as Hs1. apply (same_data_trans _ _ s1); [done|].
    apply p9; [done|done| |apply Hs1]. rewrite Hu1, Hu by done. by destruct (Z.eqb_spec h g).
Qed.

(** [vfrees] on a run of mapped data frames. *)
Lemma vfrees_post s root start gs :
  Z.land s.(cr3) PTE_ADDR_MASK = root -> vmm_wf s root ->
  range_ok start (Z.of_nat (length gs)) -> mapped_run s root start 0 gs ->
  exists s', vfrees start (Z.of_nat (length gs)) s = Done (tt, s') /\
    frees_post root start 0 gs s s'.
Proof.
  intros Hroot Hwf Hrg Hrun. unfold vfrees.
  destruct (frees_loop root start _ gs 0 s Hwf Hrg ltac:(lia) ltac:(lia) Hrun) as (s' & E & Hp).
  exists s'. split; [|done].
  destruct (Z.eqb_spec (Z.of_nat (length gs)) 0) as [E0|_].
  - destruct gs; [|done]. by injection E as <-.
  - rewrite (bind_eq _ _ _ _ _ (gets_eq _ s)), Hroot, Nat2Z.id. exact E.
Qed.

(** ** [vallocs] *)

Lemma data_frame_extends s s' root h :
  extends root s s' -> data_frame s root h ->
  data_frame s' root h /\
  forall i, idx_ok i -> s'.(ram) !!! (h * 4096 + 8 * i) = s.(ram) !!! (h * 4096 + 8 * i).
Proof.
  intros He (Hm & Hu & Hn). destruct (ext_data _ _ _ He h ltac:(lia) Hu Hn) as [Hn' Hw].
  split; [|done]. unfold data_frame. rewrite (ext_max _ _ _ He). split_and!; try done; try lia.
  apply He; [lia|done].
Qed.

(** After [length gs] iterations: the run so far is mapped to frames that
    were free in [s0], zeroed on request, and nothing else changed. *)
Record run_inv (s0 s : vmm) (root start : Z) (zero : bool) (gs : list Z) : Prop := {
  ri_wf : vmm_wf s root;
  ri_ext : extends root s0 s;
  ri_run : mapped_run s root start 0 gs;
  ri_fresh : forall g, g ∈ gs -> used_in s0 g = false;
  ri_new : forall q, 0 <= q -> used_in s q = true -> not_table s.(ram) root q ->
    used_in s0 q = true \/ q ∈ gs;
  ri_out : forall v, ~ in_run start 0 (Z.of_nat (length gs)) v ->
    xlate s root v = xlate s0 root v;
  ri_zero : zero = true -> forall g i, g ∈ gs -> idx_ok i ->
    s.(ram) !!! (g * 4096 + 8 * i) = 0;
}.

(** [memset] of the new page, when asked for. *)
Lemma zero_step s0 s root virt g (zero : bool) :
  Z.land s.(cr3) PTE_ADDR_MASK = root -> virt mod 4096 = 0 ->
  vmm_wf s root -> extends root s0 s -> used_in s0 g = false -> not_table s.(ram) root g ->
  (forall v, vpn v = vpn virt -> xlate s root v = Some (g * 4096 + v mod 2 ^ 12)) ->
  exists s', (if zero then zero_virt_page virt else mret tt) s = Done (tt, s') /\
    vmm_wf s' root /\ extends root s0 s' /\ s'.(pm) = s.(pm) /\
    (forall v, xlate s' root v = xlate s root v) /\
    (zero = true -> forall j, idx_ok j -> s'.(ram) !!! (g * 4096 + 8 * j) = 0) /\
    (forall k j, k <> g -> idx_ok j ->
       s'.(ram) !!! (k * 4096 + 8 * j) = s.(ram) !!! (k * 4096 + 8 * j)) /\
    (forall k, not_table s.(ram) root k <-> not_table s'.(ram) root k).
Proof.
  intros Hcr Hal Hwf He Hg Hn Hx. destruct zero.
  - destruct (zero_loop s0 root s.(cr3) virt g 512 0 s Hcr ltac:(lia) ltac:(lia) Hal eq_refl Hwf He Hg Hn Hx)
      as (s' & E & ? & ? & ? & ? & ? & Hz & Hw & ?).
    exists s'. split_and!; try done.
    intros k j Hk Hj. apply Hw; [by left|done].
  - exists s. by split_and!.
Qed.

Lemma run_inv_snoc s0 s s3 root start zero gs g :
  let i := Z.of_nat (length gs) in
  run_inv s0 s root start zero gs -> range_ok start (i + 1) ->
  g ∉ gs -> data_frame s3 root g -> used_in s0 g = false ->
  vmm_wf s3 root -> extends root s0 s3 ->
  (forall h, h ∈ gs -> data_frame s3 root h /\
     forall j, idx_ok j -> s3.(ram) !!! (h * 4096 + 8 * j) = s.(ram) !!! (h * 4096 + 8 * j)) ->
  (forall q, 0 <= q -> used_in s3 q = true -> not_table s3.(ram) root q ->
     (used_in s q = true /\ not_table s.(ram) root q) \/ q = g) ->
  (forall v, xlate s3 root v = if decide (vpn v = vpn (page_at start i))
     then Some (g * 4096 + v mod 2 ^ 12) else xlate s root v) ->
  (zero = true -> forall j, idx_ok j -> s3.(ram) !!! (g * 4096 + 8 * j) = 0) ->
  run_inv s0 s3 root start zero (gs ++ [g]).
Proof.
  intros i [r1 r2 [r3 r3'] r4 rn r5 r6] Hrg Hgn Hgd Hg0 Hw He Hold Hnew Hx Hz. constructor; try done.
  - split.
    + apply NoDup_app. split_and!; [done| |by apply NoDup_singleton]. set_solver.
    + intros k h Hk. rewrite Z.add_0_l. apply lookup_app_Some in Hk as [Hk|[Hlen Hk]].
      * split; [apply Hold; by eapply list_elem_of_lookup_2|].
        intros v Hv. rewrite Hx. destruct (r3' k h Hk) as [_ Hxo].
        rewrite decide_False; [by apply Hxo; rewrite Z.add_0_l|]. rewrite Hv. intros Ev.
        apply lookup_lt_Some in Hk. apply (page_at_vpn_inj start (i + 1)) in Ev; lia || done.
      * apply list_lookup_singleton_Some in Hk as [Hk <-]. split; [done|].
        intros v Hv. rewrite Hx, decide_True; [done|]. rewrite Hv. do 2 f_equal. lia.
  - intros h Hh. apply elem_of_app in Hh as [?|Hh]; [by apply r4|]. set_solver.
  - intros q Hq Hu Hn. destruct (Hnew q Hq Hu Hn) as [[Hu' Hn']| ->]; [|set_solver].
    destruct (rn q Hq Hu' Hn') as [|]; [by left|set_solver].
  - intros v Hv. rewrite length_app in Hv. cbn in Hv. rewrite Nat2Z.inj_add in Hv.
    change (Z.of_nat 1) with 1 in Hv. rewrite in_run_snoc in Hv by lia.
    rewrite Hx, decide_False by tauto. apply r5. tauto.
  - intros Hzero h j Hh Hj. apply elem_of_app in Hh as [Hh|Hh].
    + destruct (Hold h Hh) as [_ ->]; [|done]. by apply r6.
    + assert (h = g) as -> by set_solver. by apply Hz.
Qed.

(** One iteration after a successful [palloc]. *)
Lemma map_zero_step s0 s root start zero gs g :
  let i := Z.of_nat (length gs) in
  Z.land s0.(cr3) PTE_ADDR_MASK = root ->
  run_inv s0 s root start zero gs -> range_ok start (i + 1) ->
  do_palloc s = Done (g * 4096, set_pm (mark_used g s.(pm)) s) -> 0 < g ->
  match (_ ← map_page (g * 4096) (page_at start i) root;
         if zero then zero_virt_page (page_at start i) else mret tt)
          (set_pm (mark_used g s.(pm)) s) with
  | Done (_, s3) => run_inv s0 s3 root start zero (gs ++ [g]) /\
      s.(pm).(free_pages) - 4 <= s3.(pm).(free_pages)
  | Panicked _ => s.(pm).(free_pages) < 4
  | Fault => False
  end.
Proof.
  intros i Hroot Hinv Hrg Epa Hgpos. pose proof Hinv as [r1 r2 r3 r4 rn r5 r6].
  set (s1 := set_pm (mark_used g s.(pm)) s) in *.
  destruct (do_palloc_spec s root _ _ r1 Epa) as (Hw1 & He1 & Hram1 & [(?&?&?)|(g' & Eg & Hg & Hgf & Hgu & Hgn & _ & Hfp)]);
    [lia|]. assert (g' = g) as -> by lia.
  assert (used_in s0 g = false) as Hg0.
  { destruct (used_in s0 g) eqn:E; [|done]. rewrite (ext_used _ _ _ r2) in Hgf by (done || lia). done. }
  pose proof (map_page_post s1 root (g * 4096) (page_at start i) Hw1) as Hmap.
  unfold map_post in Hmap. unfold mbind at 1, M_bind at 1.
  destruct (map_page _ _ _ s1) as [[[] s2]|w|]; [|lia|done].
  destruct Hmap as (Hw2 & He2 & Hf2 & Hn2 & Hx2). rewrite mask_frame in Hx2 by lia.
  assert (extends root s0 s2) as He02 by (by do 2 (etrans; [done|])).
  assert (data_frame s1 root g) as Hgd1.
  { split_and!; [lia| |done|by rewrite Hram1].
    unfold s1. cbn. rewrite (same_region_max _ _ (mark_used_region g _)). by apply free_lt_max. }
  destruct (data_frame_extends s1 s2 root g He2 Hgd1) as [Hgd2 _].
  destruct (zero_step s0 s2 root (page_at start i) g zero) as
    (s3 & E3 & Hw3 & He3 & Hpm3 & Hx3 & Hz3 & Hwd3 & Hk3); try done; try apply Hgd2.
  { by rewrite (ext_cr3 _ _ _ He02). }
  { destruct Hrg as (_ & Hal & _). unfold page_at, PAGE_SIZE. wsolve. }
  { intros v Hv. by rewrite Hx2, decide_True. }
  rewrite E3. split; [|rewrite Hpm3; lia].
  assert (forall h, data_frame s2 root h -> data_frame s3 root h) as Hk23.
  { intros h (?&?&?). unfold data_frame, used_in. rewrite Hpm3. split_and!; first [lia | done | by apply Hk3]. }
  assert (g ∉ gs) as Hgn'.
  { intros Hin. apply list_elem_of_lookup_1 in Hin as [k Hk].
    destruct (proj2 r3 k g Hk) as [(_ & Hu & _) _]. congruence. }
  apply (run_inv_snoc s0 s); try done; [by apply Hk23| | |].
  - intros h Hh. apply list_elem_of_lookup_1 in Hh as [k Hk].
    destruct (proj2 r3 k h Hk) as [Hd _].
    destruct (data_frame_extends s s2 root h (transitivity He1 He2) Hd) as [Hd2 Hw].
    split; [by apply Hk23|]. intros j Hj. rewrite <-Hw, Hwd3; [done| |done|done].
    intros ->. apply Hgn'. by eapply list_elem_of_lookup_2.
  - intros q Hq Hu Hn. apply Hk3 in Hn. unfold used_in in Hu. rewrite Hpm3 in Hu.
    specialize (Hn2 q Hq Hu Hn). unfold s1, used_in in Hn2. cbn in Hn2.
    rewrite mark_used_page_used in Hn2 by (apply r1 || lia). apply orb_true_iff in Hn2 as [Hn2|Hn2].
    + left. split; [done|]. rewrite <-Hram1. by apply (ext_not_table _ _ s2).
    + right. by apply Z.eqb_eq.
  - intros v. rewrite Hx3, Hx2. unfold xlate. by rewrite Hram1.
Qed.

(** What a [vallocs] that ran out of frames leaves behind: the [k] pages it
    had mapped are unmapped and their frames free again, [next_virt] has not
    moved, and nothing that was translated outside those pages changed. *)
Record rolled_back (s0 s : vmm) (root start : Z) (k : nat) : Prop := {
  rb_wf : vmm_wf s root;
  rb_cr3 : s.(cr3) = s0.(cr3);
  rb_next : s.(next_virt) = s0.(next_virt);
  rb_region : same_region s0.(pm) s.(pm);
  rb_gone : forall v, in_run start 0 (Z.of_nat k) v -> xlate s root v = None;
  rb_kept : forall v, ~ in_run start 0 (Z.of_nat k) v -> xlate s root v = xlate s0 root v;
  rb_used : forall q, 0 <= q -> used_in s0 q = true -> used_in s q = true;
  rb_new : forall q, 0 <= q -> used_in s q = true -> not_table s.(ram) root q -> used_in s0 q = true;
  rb_data : forall h, 0 <= h -> used_in s0 h = true -> not_table s0.(ram) root h ->
    same_data root s0 s h;
}.

Definition vallocs_post (s0 s : vmm) (root start : Z) (zero : bool) (gs : list Z) (n : nat)
    (r : outcome (bool * vmm)) : Prop :=
  match r with
  | Done (true, s') => exists hs, length hs = (length gs + n)%nat /\
      run_inv s0 s' root start zero hs /\
      s.(pm).(free_pages) - 4 * Z.of_nat n <= s'.(pm).(free_pages)
  | Done (false, s') => s.(pm).(free_pages) < 4 * Z.of_nat n /\
      exists k, (k < length gs + n)%nat /\ rolled_back s0 s' root start k
  | Panicked _ => s.(pm).(free_pages) < 4 * Z.of_nat n
  | Fault => False
  end.

Lemma roll_back s0 s s' root start zero gs :
  run_inv s0 s root start zero gs -> frees_post root start 0 gs s s' ->
  rolled_back s0 s' root start (length gs).
Proof.
  intros [r1 r2 r3 r4 rn r5 r6] [f1 f2 f3 f4 f5 f6 f7 f8 f8' f9]. rewrite Z.add_0_l in f6, f7.
  assert (forall q, used_in s0 q = true -> q ∉ gs) as Hng.
  { intros q Hu Hin. by rewrite (r4 q Hin) in Hu. }
  constructor; try done.
  - by rewrite f2, (ext_cr3 _ _ _ r2).
  - by rewrite f3, (ext_next _ _ _ r2).
  - etrans; [apply r2|done].
  - intros v Hv. by rewrite f7, r5.
  - intros q Hq Hu. rewrite f8, (ext_used _ _ _ r2) by done. cbn.
    rewrite bool_decide_eq_false_2; [done|]. by apply Hng.
  - intros q Hq Hu Hn. rewrite f8 in Hu by done. apply andb_true_iff in Hu as [Hu Hng'].
    apply negb_true_iff, bool_decide_eq_false in Hng'. destruct (rn q Hq Hu (f8' q Hn)); done.
  - intros h Hh Hu Hnt. pose proof (ext_data _ _ _ r2 h Hh Hu Hnt) as Hs.
    apply (same_data_trans _ _ s); [done|].
    apply f9; [done|by apply Hng|by apply r2|apply Hs].
Qed.

Lemma range_ok_le start n m : range_ok start n -> m <= n -> range_ok start m.
Proof. unfold range_ok, page_at, PAGE_SIZE. intros (?&?&?&?) ?. split_and!; lia. Qed.

Lemma vallocs_loop_post s0 root start zero n : forall gs s,
  Z.land s0.(cr3) PTE_ADDR_MASK = root ->
  run_inv s0 s root start zero gs -> range_ok start (Z.of_nat (length gs + n)) ->
  vallocs_post s0 s root start zero gs n
    (vallocs_loop n (Z.of_nat (length gs)) zero start root s).
Proof.
  induction n as [|n IH]; intros gs s Hroot Hinv Hrg; cbn [vallocs_loop].
  { cbn. exists gs. split_and!; [lia|done|lia]. }
  pose proof (ri_wf _ _ _ _ _ _ Hinv) as Hwf.
  pose proof (free_pages_range _ (proj1 (proj1 Hwf))).
  destruct (do_palloc s) as [[phys s1]| |] eqn:Epa;
    [|unfold do_palloc in Epa; by destruct (palloc _)..].
  rewrite (bind_eq _ _ _ _ _ Epa).
  destruct (do_palloc_spec s root _ _ Hwf Epa) as (_ & _ & _ & [(-> & -> & Hfp)|(g & -> & Hg & _ & _ & _ & -> & _)]).
  - rewrite Z.eqb_refl.
    destruct (vfrees_post s root start gs) as (s' & E & Hp); try done.
    { by rewrite (ext_cr3 _ _ _ (ri_ext _ _ _ _ _ _ Hinv)). }
    { eapply range_ok_le; [done|lia]. }
    { apply Hinv. }
    rewrite (bind_eq _ _ _ _ _ E). cbn. split; [lia|].
    exists (length gs). split; [lia|]. by eapply roll_back.
  - destruct (Z.eqb_spec (g * 4096) 0); [lia|].
    assert (range_ok start (Z.of_nat (length gs) + 1)) as Hrg1
      by (eapply range_ok_le; [done|lia]).
    rewrite (page_at_u64 start (Z.of_nat (length gs) + 1)) by (done || lia).
    pose proof (map_zero_step s0 s root start zero gs g Hroot Hinv Hrg1 Epa ltac:(lia)) as Hstep.
    cbn zeta in Hstep |- *. rewrite <-(bind_assoc (map_page _ _ _) (fun _ => if zero then _ else _)).
    unfold mbind at 1, M_bind at 1.
    match type of Hstep with match ?x with _ => _ end =>
      destruct x as [[[] s3]|w|]; [|cbn; lia|done] end.
    destruct Hstep as [Hinv3 Hfp3].
    specialize (IH (gs ++ [g]) s3 Hroot Hinv3). rewrite length_app in IH.
    replace (length gs + length [g] + n)%nat with (length gs + S n)%nat in IH by (cbn; lia).
    specialize (IH Hrg).
    replace (Z.of_nat (length gs + length [g])) with (Z.of_nat (length gs) + 1) in IH by (cbn; lia).
    destruct (vallocs_loop _ _ _ _ _ s3) as [[[] s']|w|]; cbn in IH |- *.
    + destruct IH as (hs & Hl & ? & ?). exists hs. split_and!; [|done|lia].
      rewrite Hl, length_app. cbn. lia.
    + destruct IH as (? & k & Hk & ?). rewrite length_app in Hk. cbn in Hk.
      split; [lia|]. exists k. split; [lia|done].
    + lia.
    + done.
Qed.
