(* ===== verification/VmmSpec.v ===== *)
(** * What the virtual memory manager promises

    The contracts of [map_page], [unmap_page], [vallocs] and [vfrees] in terms
    of the hardware page walk from [cr3], and the defect of the passthru
    window on machines with more than 2 GiB. *)

From S2P Require Import Prelude FromBoot Pmm PageTable Vmm VmmFacts.

(** The tables the processor is using are well formed. *)
Definition vmm_ready (s : vmm) : Prop := vmm_wf s (Z.land s.(cr3) PTE_ADDR_MASK).

(** The processor's translation of [v]. *)
Definition translate (s : vmm) (v : Z) : option Z := walk s.(ram) s.(cr3) v.

Lemma translate_xlate s v :
  vmm_ready s -> translate s v = xlate s (Z.land s.(cr3) PTE_ADDR_MASK) v.
Proof. intros. by apply walk_xlate. Qed.

(** A frame that is in use and holds data stays in use and keeps its contents. *)
Definition keeps_data (s s' : vmm) : Prop :=
  forall g, 0 <= g -> used_in s g = true ->
    not_table s.(ram) (Z.land s.(cr3) PTE_ADDR_MASK) g ->
    used_in s' g = true /\ same_data (Z.land s.(cr3) PTE_ADDR_MASK) s s' g.

Lemma extends_keeps s s' : extends (Z.land s.(cr3) PTE_ADDR_MASK) s s' -> keeps_data s s'.
Proof. intros He g Hg Hu Hn. split; by apply He. Qed.

(** [vallocs] succeeded: [count] fresh frames [gs] behind consecutive pages. *)
Record allocated (s s' : vmm) (zero : bool) (count : Z) (gs : list Z) : Prop := {
  al_ready : vmm_ready s';
  al_cr3 : s'.(cr3) = s.(cr3);
  al_len : Z.of_nat (length gs) = count;
  al_next : s'.(next_virt) = s.(next_virt) + count * PAGE_SIZE;
  al_run : mapped_run s' (Z.land s.(cr3) PTE_ADDR_MASK) s.(next_virt) 0 gs;
  al_fresh : forall g, g ∈ gs -> used_in s g = false;
  al_out : forall v, ~ in_run s.(next_virt) 0 count v -> translate s' v = translate s v;
  al_keeps : keeps_data s s';
  al_region : same_region s.(pm) s'.(pm);
  al_new : forall q, 0 <= q -> used_in s' q = true ->
    not_table s'.(ram) (Z.land s.(cr3) PTE_ADDR_MASK) q -> used_in s q = true \/ q ∈ gs;
  al_zero : zero = true -> forall g i, g ∈ gs -> idx_ok i ->
    s'.(ram) !!! (g * 4096 + 8 * i) = 0;
}.

(** [vallocs] returned 0: everything it had mapped is unmapped again, and every
    frame it took is free again, but for those that now hold page tables. *)
Definition gave_up (s s' : vmm) (count : Z) : Prop :=
  vmm_ready s' /\ s'.(cr3) = s.(cr3) /\ s'.(next_virt) = s.(next_virt) /\ keeps_data s s' /\
  same_region s.(pm) s'.(pm) /\
  (forall q, 0 <= q -> used_in s' q = true ->
     not_table s'.(ram) (Z.land s.(cr3) PTE_ADDR_MASK) q -> used_in s q = true) /\
  exists k, 0 <= k < count /\ forall v,
    (in_run s.(next_virt) 0 k v -> translate s' v = None) /\
    (~ in_run s.(next_virt) 0 k v -> translate s' v = translate s v).

Lemma run_inv_start s root start zero : vmm_wf s root -> run_inv s s root start zero [].
Proof.
  intros Hwf. constructor; try done.
  - split; [constructor|]. intros k g Hk. by rewrite lookup_nil in Hk.
  - intros g Hg. set_solver.
  - by left.
  - intros _ g i Hg. set_solver.
Qed.

Lemma set_next_wf v s root : vmm_wf s root -> vmm_wf (set_next_virt v s) root.
Proof. done. Qed.

Lemma run_inv_allocated s s' zero count gs :
  let root := Z.land s.(cr3) PTE_ADDR_MASK in
  vmm_ready s -> 0 <= s.(next_virt) -> s.(next_virt) + count * PAGE_SIZE < 2 ^ 64 ->
  run_inv s s' root s.(next_virt) zero gs -> Z.of_nat (length gs) = count ->
  allocated s (set_next_virt (u64 (s'.(next_virt) + u64 (count * PAGE_SIZE))) s') zero count gs.
Proof.
  intros root Hr Hn0 Hn [r1 r2 r3 r4 rn r5 r6] Hl. pose proof (ext_cr3 _ _ _ r2) as Hc.
  assert (vmm_ready s') as Hr' by (unfold vmm_ready; by rewrite Hc).
  constructor; try done.
  - rewrite (ext_next _ _ _ r2). unfold PAGE_SIZE in *. cbn. wsolve.
  - intros v Hv. transitivity (translate s' v); [done|].
    rewrite !translate_xlate, Hc by done. apply r5. by rewrite Hl.
  - intros g Hg Hu Hnt. by apply (extends_keeps s s').
  - apply r2.
Qed.

Lemma vallocs_result s zero count :
  vmm_ready s -> 0 < count -> range_ok s.(next_virt) count ->
  s.(next_virt) + count * PAGE_SIZE < 2 ^ 64 ->
  match vallocs zero count s with
  | Done (a, s') =>
      (a = s.(next_virt) /\ exists gs, allocated s s' zero count gs) \/
      (a = 0 /\ s.(pm).(free_pages) < 4 * count /\ gave_up s s' count)
  | Panicked _ => s.(pm).(free_pages) < 4 * count
  | Fault => False
  end.
Proof.
  intros Hr Hc Hrg Hlt. unfold vallocs. destruct (Z.eqb_spec count 0); [lia|].
  rewrite (bind_eq _ _ _ _ _ (gets_eq _ s)), (bind_eq _ _ _ _ _ (gets_eq _ s)).
  set (root := Z.land s.(cr3) PTE_ADDR_MASK).
  pose proof (vallocs_loop_post s root s.(next_virt) zero (Z.to_nat count) [] s eq_refl
    (run_inv_start s root _ zero Hr)) as H. cbn [length Nat.add Z.of_nat] in H.
  rewrite Z2Nat.id in H by lia. specialize (H Hrg).
  unfold mbind at 1, M_bind at 1.
  destruct (vallocs_loop _ _ _ _ _ s) as [[[] s']|w|]; cbn in H |- *; rewrite ?Z2Nat.id in H by lia.
  - destruct H as (gs & Hl & Hinv & _). left. split; [done|]. exists gs.
    apply run_inv_allocated; try done; [apply Hrg|]. rewrite Hl. lia.
  - destruct H as (Hfp & k & Hk & [b1 b2 b3 b3' b4 b5 b6 bn b7]). right. split_and!; [done|done|].
    assert (vmm_ready s') as Hr' by (unfold vmm_ready; by rewrite b2).
    split_and!; try done; [by intros g Hg Hu Hn; split; [apply b6|apply b7]|]. exists (Z.of_nat k). split; [lia|]. intros v.
    rewrite !translate_xlate, b2 by done. split; auto.
  - done.
  - done.
Qed.

Lemma allocated_vfrees s s1 zero count gs :
  range_ok s.(next_virt) count -> allocated s s1 zero count gs ->
  exists s2, vfrees s.(next_virt) count s1 = Done (tt, s2) /\ vmm_ready s2 /\
    s2.(pm).(free_pages) = s1.(pm).(free_pages) + count /\
    (forall g, g ∈ gs -> used_in s2 g = false) /\
    (forall v, in_run s.(next_virt) 0 count v -> translate s2 v = None) /\
    (forall v, ~ in_run s.(next_virt) 0 count v -> translate s2 v = translate s v).
Proof.
  intros Hrg [a1 a2 <- a4 a5 a6 a7 a8 a8' an a9].
  destruct (vfrees_post s1 _ s.(next_virt) gs eq_refl a1 Hrg) as (s2 & E & [f1 f2 f3 f4 f5 f6 f7 f8 f8' f9]).
  { by rewrite a2. }
  rewrite Z.add_0_l in f6, f7. exists s2. rewrite E.
  assert (vmm_ready s2) as Hr2 by (unfold vmm_ready; by rewrite f2).
  split_and!; try done.
  - intros g Hg. pose proof a5 as [_ Hrun]. pose proof Hg as Hg'.
    apply list_elem_of_lookup_1 in Hg' as [k Hk].
    destruct (Hrun k g Hk) as [(Hgm & _ & _) _]. rewrite f8 by lia.
    rewrite bool_decide_eq_true_2 by done. by rewrite andb_false_r.
  - intros v Hv. rewrite translate_xlate, f2 by done. by apply f6.
  - intros v Hv. rewrite <-a7 by done. rewrite !translate_xlate, f2 by done. by apply f7.
Qed.
