(* ===== verification/VmmInit.v ===== *)
(** * The kernel's first address space

    [map_range] as a whole, and what [init_vmm] has mapped when it switches
    [cr3]: the first 2 MiB and the passthru window. *)

From S2P Require Import Prelude FromBoot Pmm PageTable Vmm VmmFacts VmmSpec.

#[local] Opaque map_page.

(** ** Ranges of pages *)

(** The page of [v] counted from the page of [virt], around the 48-bit space. *)
Definition page_in (virt v : Z) : Z := (vpn v - vpn virt) mod 2 ^ 36.

Definition range_map (phys virt n : Z) (s s' : vmm) (root : Z) : Prop :=
  forall v, xlate s' root v =
    if page_in virt v <? n
    then Some (phys + page_in virt v * PAGE_SIZE + v mod 2 ^ 12) else xlate s root v.

Lemma mask_page_addr q : 0 <= q < 2 ^ 40 -> Z.land (q * 4096) PTE_ADDR_MASK = q * 4096.
Proof. intros. by apply mask_frame. Qed.

Lemma page_in_step virt v k :
  virt mod 4096 = 0 -> 0 <= k < 2 ^ 36 ->
  (vpn v = vpn (u64 (virt + k * PAGE_SIZE)) <-> page_in virt v = k).
Proof.
  intros Hv Hk. unfold page_in.
  assert (vpn (u64 (virt + k * PAGE_SIZE)) = (vpn virt + k) mod 2 ^ 36) as ->.
  { unfold vpn, u64, PAGE_SIZE. Z.div_mod_to_equations. lia. }
  unfold vpn. generalize (v / 4096) (virt / 4096). intros a b. Z.div_mod_to_equations. lia.
Qed.

Lemma range_map_snoc phys virt j s0 s s' root :
  virt mod 4096 = 0 -> phys mod 4096 = 0 -> 0 <= phys -> 0 <= j < 2 ^ 36 ->
  phys + (j + 1) * PAGE_SIZE <= 2 ^ 52 ->
  range_map phys virt j s0 s root ->
  (forall v, xlate s' root v =
     if decide (vpn v = vpn (u64 (virt + j * PAGE_SIZE)))
     then Some (Z.land (u64 (phys + j * PAGE_SIZE)) PTE_ADDR_MASK + v mod 2 ^ 12)
     else xlate s root v) ->
  range_map phys virt (j + 1) s0 s' root.
Proof.
  unfold PAGE_SIZE. intros Hv Hp Hp0 Hj Hb Hm Hx v. rewrite Hx, Hm.
  pose proof (page_in_step virt v j Hv Hj) as Hs. unfold PAGE_SIZE in *. case_decide as E.
  - apply Hs in E. rewrite E. destruct (Z.ltb_spec j (j + 1)); [|lia].
    replace (u64 (phys + j * 4096)) with ((phys / 4096 + j) * 4096) by wsolve.
    rewrite mask_frame by wsolve. do 2 f_equal. wsolve.
  - destruct (Z.ltb_spec (page_in virt v) (j + 1)), (Z.ltb_spec (page_in virt v) j); done || lia.
Qed.

Definition range_body (phys virt root : Z) : Z -> M vmm unit := fun k =>
  map_page (u64 (phys + k * PAGE_SIZE)) (u64 (virt + k * PAGE_SIZE)) root.

Definition range_post (phys virt n root : Z) (m : nat) (s0 s : vmm)
    (r : outcome (unit * vmm)) : Prop :=
  match r with
  | Done (_, s') => vmm_wf s' root /\ extends root s0 s' /\ range_map phys virt n s0 s' root
  | Panicked _ => s.(pm).(free_pages) < 3 * Z.of_nat m
  | Fault => False
  end.

Lemma map_range_loop phys virt root s0 m : forall j s,
  virt mod 4096 = 0 -> phys mod 4096 = 0 -> 0 <= phys ->
  0 <= j -> j + Z.of_nat m <= 2 ^ 36 -> phys + (j + Z.of_nat m) * PAGE_SIZE <= 2 ^ 52 ->
  vmm_wf s root -> extends root s0 s -> range_map phys virt j s0 s root ->
  range_post phys virt (j + Z.of_nat m) root m s0 s (for_upM m j (range_body phys virt root) s).
Proof.
  unfold PAGE_SIZE. induction m as [|m IH]; intros j s Hv Hp Hp0 Hj Hn Hb Hwf He Hm; cbn [for_upM].
  { cbn. by rewrite Z.add_0_r. }
  pose proof (map_page_post s root (u64 (phys + j * PAGE_SIZE)) (u64 (virt + j * PAGE_SIZE)) Hwf) as Hpg.
  change (map_page _ _ _ s) with (range_body phys virt root j s) in Hpg.
  unfold map_post in Hpg. unfold mbind at 1, M_bind at 1.
  destruct (range_body phys virt root j s) as [[[] s1]|w|]; cbn [range_post]; [|lia|done].
  destruct Hpg as (Hw1 & He1 & Hf1 & _ & Hx1).
  replace (j + Z.of_nat (S m)) with (j + 1 + Z.of_nat m) in * by lia.
  assert (range_map phys virt (j + 1) s0 s1 root) as Hm1
    by (apply (range_map_snoc phys virt j s0 s); unfold PAGE_SIZE; done || lia).
  specialize (IH (j + 1) s1 Hv Hp Hp0 ltac:(lia) Hn Hb Hw1 (transitivity He He1) Hm1).
  destruct (for_upM m (j + 1) _ s1) as [[[] s']|w|]; cbn [range_post] in IH |- *; [done|lia|done].
Qed.

(** [map_range] from page-aligned addresses. *)
Definition pages_of (size : Z) : Z := (size + PAGE_SIZE - 1) / PAGE_SIZE.

Lemma page_mask_aligned x : in_u64 x -> x mod 4096 = 0 -> Z.land x PAGE_MASK = x.
Proof.
  intros Hx Ha. change PAGE_MASK with (Z.shiftl (Z.ones 52) 12).
  rewrite (Z.div_mod x 4096) at 1 2 by lia. rewrite Ha, Z.add_0_r, (Z.mul_comm 4096).
  change 4096 with (2 ^ 12). rewrite <-Z.shiftl_mul_pow2, <-Z.shiftl_land, Z.land_ones by lia.
  f_equal. unfold in_u64 in Hx. wsolve.
Qed.

Lemma map_range_post s phys virt size root :
  vmm_wf s root -> virt mod 4096 = 0 -> phys mod 4096 = 0 -> in_u64 virt -> 0 <= phys ->
  0 <= size <= 2 ^ 48 -> phys + pages_of size * PAGE_SIZE <= 2 ^ 52 ->
  range_post phys virt (pages_of size) root (Z.to_nat (pages_of size)) s s
    (map_range phys virt size root s).
Proof.
  intros Hwf Hv Hp Hvr Hp0 Hs Hb. unfold map_range.
  assert (0 <= pages_of size <= 2 ^ 36) by (unfold pages_of, PAGE_SIZE; wsolve).
  assert (in_u64 phys) by (unfold in_u64, PAGE_SIZE in *; lia).
  rewrite !page_mask_aligned by done. rewrite Z.sub_diag. cbn zeta.
  change (u64 0) with 0. rewrite Z.add_0_r. unfold u64 at 1 2. rewrite Z.mod_small by lia.
  destruct (Z.ltb_spec 0xFFFFFFFFFFFFF000 size); [lia|].
  change ((size + PAGE_SIZE - 1) / PAGE_SIZE) with (pages_of size).
  pose proof (map_range_loop phys virt root s (Z.to_nat (pages_of size)) 0 s Hv Hp Hp0) as Hl.
  rewrite Z2Nat.id, Z.add_0_l in Hl by lia. apply Hl; try done; try lia.
  intros v. destruct (Z.ltb_spec (page_in virt v) 0) as [Hn|]; [|done].
  unfold page_in in Hn. Z.div_mod_to_equations. lia.
Qed.

(** ** The first four tables *)

Lemma zero_page_some c m i : idx_ok i -> zero_page c m !! (c + 8 * i) = Some 0.
Proof.
  intros Hi. unfold zero_page.
  apply (for_up_inv (fun k m' => forall j, 0 <= j < k -> m' !! (c + 8 * j) = Some 0)
    (fun i m => <[c + 8 * i := 0]> m) 512 0 m); [intros; lia| |unfold idx_ok in Hi; lia].
  intros k t Hk IH j Hj. rewrite lookup_insert. case_decide; [done|]. apply IH. lia.
Qed.

Lemma zero_page_id c m :
  (forall i, idx_ok i -> m !! (c + 8 * i) = Some 0) -> zero_page c m = m.
Proof.
  intros H. unfold zero_page.
  apply (for_up_inv (fun k m' => m' = m) (fun i m => <[c + 8 * i := 0]> m) 512 0 m); [done|].
  intros k t Hk ->. apply insert_id, H. unfold idx_ok. lia.
Qed.

Lemma zero_page_other f g m i :
  f <> g -> idx_ok i -> zero_page (f * 4096) m !! (g * 4096 + 8 * i) = m !! (g * 4096 + 8 * i).
Proof.
  intros Hfg Hi. unfold zero_page.
  apply (for_up_inv (fun k m' => m' !! (g * 4096 + 8 * i) = m !! (g * 4096 + 8 * i))
    (fun i m => <[f * 4096 + 8 * i := 0]> m) 512 0 m); [done|].
  intros k t Hk IH. rewrite lookup_insert_ne; [done|]. intros E.
  apply word_inj in E as [? _]; [done|unfold idx_ok in *; lia|done].
Qed.

(** The memory after the four [memset]s and the three links. *)
Definition tables_ram (a b c d : Z) (m : gmap Z Z) : gmap Z Z :=
  let z := zero_page (d * 4096) (zero_page (c * 4096) (zero_page (b * 4096) (zero_page (a * 4096) m))) in
  <[c * 4096 + 8 * 0 := link_entry (d * 4096)]>
    (<[b * 4096 + 8 * 0 := link_entry (c * 4096)]>
      (<[a * 4096 + 8 * 0 := link_entry (b * 4096)]> z)).

Section first.
Context (a b c d : Z) (m : gmap Z Z).
Context (Ha : 0 < a < 2 ^ 40) (Hb : 0 < b < 2 ^ 40) (Hc : 0 < c < 2 ^ 40) (Hd : 0 < d < 2 ^ 40).
Context (Hnd : NoDup [a; b; c; d]).
Let z := zero_page (d * 4096) (zero_page (c * 4096) (zero_page (b * 4096) (zero_page (a * 4096) m))).

Lemma cleared f i : f ∈ [a; b; c; d] -> idx_ok i -> z !! (f * 4096 + 8 * i) = Some 0.
Proof.
  intros Hf Hi. unfold z.
  destruct (decide (f = d)) as [->|]; [by apply zero_page_some|]. rewrite zero_page_other by done.
  destruct (decide (f = c)) as [->|]; [by apply zero_page_some|]. rewrite zero_page_other by done.
  destruct (decide (f = b)) as [->|]; [by apply zero_page_some|]. rewrite zero_page_other by done.
  assert (f = a) as -> by set_solver. by apply zero_page_some.
Qed.

Lemma tables_ram_link :
  tables_ram a b c d m =
  link_table (c * 4096) 0 (d * 4096) (link_table (b * 4096) 0 (c * 4096)
    (link_table (a * 4096) 0 (b * 4096) z)).
Proof.
  pose proof Hnd as Hn. rewrite !NoDup_cons, !not_elem_of_cons in Hn.
  destruct Hn as ((?&?&?&_)&(?&?&_)&(?&_)&_). unfold tables_ram, link_table. fold z.
  pose proof cleared as Hcl.
  assert (forall f g x (w : gmap Z Z), f <> g -> idx_ok 0 ->
    (forall i, idx_ok i -> w !! (f * 4096 + 8 * i) = Some 0) ->
    forall i, idx_ok i -> <[g * 4096 + 8 * 0 := x]> w !! (f * 4096 + 8 * i) = Some 0) as Hins.
  { intros f g x w Hfg HI Hw i Hi. rewrite lookup_insert_ne; [by apply Hw|].
    intros E. by apply word_inj in E as [? _]. }
  assert (idx_ok 0) by (unfold idx_ok; lia).
  rewrite (zero_page_id (b * 4096) z) by (intros; apply Hcl; [set_solver|done]).
  rewrite (zero_page_id (c * 4096)).
  2:{ apply Hins; [done..|]. intros i Hi. apply Hcl; [set_solver|done]. }
  rewrite (zero_page_id (d * 4096)); [done|].
  apply Hins; [done..|]. apply Hins; [done..|]. intros i Hi. apply Hcl; [set_solver|done].
Qed.

#[local] Opaque link_table zero_page.

(** The three links form a tree whose last table is empty. *)
Lemma tables_ram_wf (used : Z -> bool) :
  (forall f, f ∈ [a; b; c; d] -> used f = true) ->
  tables_wf (tables_ram a b c d m) (a * 4096) used /\
  descend (tables_ram a b c d m) (a * 4096) [0; 0; 0] = Some (d * 4096) /\
  forall v, leaf_addr v (leaf (tables_ram a b c d m) (a * 4096) v) = None.
Proof.
  intros Hu. assert (used a = true /\ used b = true /\ used c = true /\ used d = true)
    as (Ua & Ub & Uc & Ud) by (split_and!; apply Hu; set_solver).
  rewrite tables_ram_link. pose proof cleared as Hcl.
  assert (forall f i, f ∈ [a; b; c; d] -> idx_ok i -> z !!! (f * 4096 + 8 * i) = 0) as Hz.
  { intros f i Hf Hi. by apply lookup_total_correct, Hcl. }
  clearbody z. rewrite !NoDup_cons, !not_elem_of_cons in Hnd.
  destruct Hnd as ((?&?&?&_)&(?&?&_)&(?&_)&_).
  assert (idx_ok 0) as HI by (unfold idx_ok; lia).
  set (u1 := fun f => f =? a). set (u2 := fun f => (f =? a) || (f =? b)).
  set (u3 := fun f => (f =? a) || (f =? b) || (f =? c)).
  assert (forall i, idx_ok i -> z !!! (a * 4096 + 8 * i) = 0) as Hza by (intros; apply Hz; [set_solver|done]).
  pose proof (empty_root_wf z u1 a Hza Ha (Z.eqb_refl a)) as W1.
  assert (path_ok []) as P0 by path_tac. assert (path_ok [0]) as P1 by path_tac.
  assert (path_ok [0; 0]) as P2 by path_tac.
  assert (u1 b = false) as F1 by (unfold u1; lia). assert (u2 c = false) as F2 by (unfold u2; lia).
  assert (u3 d = false) as F3 by (unfold u3; lia).
  pose proof (link_wf z _ u1 u2 [] _ 0 b W1 P0 ltac:(cbn; lia) HI eq_refl Hb F1
    ltac:(unfold u1, u2; intros; lia) ltac:(unfold u2; lia)) as W2.
  pose proof (link_descend_new z _ u1 W1 [] _ 0 b P0 ltac:(cbn; lia) HI eq_refl Hb F1 [] P1) as D2.
  pose proof (fun v => link_leaf z _ u1 [] _ 0 b v W1 P0 ltac:(cbn; lia) HI eq_refl
    ltac:(by rewrite Hza) Hb F1) as L2.
  pose proof (link_word_new z _ u1 W1 [] _ 0 b P0 HI eq_refl F1 0 HI) as N2.
  set (m1 := link_table (a * 4096) 0 (b * 4096) z) in *. cbn [app] in D2.
  pose proof (link_wf m1 _ u2 u3 [0] _ 0 c W2 P1 ltac:(cbn; lia) HI D2 Hc F2
    ltac:(unfold u2, u3; intros; lia) ltac:(unfold u3; lia)) as W3.
  pose proof (link_descend_new m1 _ u2 W2 [0] _ 0 c P1 ltac:(cbn; lia) HI D2 Hc F2 [] P2) as D3.
  pose proof (fun v => link_leaf m1 _ u2 [0] _ 0 c v W2 P1 ltac:(cbn; lia) HI D2
    ltac:(by rewrite N2) Hc F2) as L3.
  pose proof (link_word_new m1 _ u2 W2 [0] _ 0 c P1 HI D2 F2 0 HI) as N3.
  set (m2 := link_table (b * 4096) 0 (c * 4096) m1) in *. cbn [app] in D3.
  split_and!.
  - refine (link_wf m2 _ u3 used [0; 0] _ 0 d W3 P2 _ HI D3 Hd F3 _ _); [cbn; lia| |exact Ud].
    intros g _ Hg. unfold u3 in Hg.
    assert (g = a \/ g = b \/ g = c) as Hg' by (clear -Hg; lia).
    destruct Hg' as [-> |[-> | ->]]; done.
  - refine (link_descend_new m2 _ u3 W3 [0; 0] _ 0 d P2 _ HI D3 Hd F3 [] _); [cbn; lia|path_tac].
  - intros v. rewrite (link_leaf m2 _ u3 [0; 0] _ 0 d v W3 P2 ltac:(cbn; lia) HI D3
      ltac:(by rewrite N3) Hd F3), L3, L2. by rewrite empty_leaf.
Qed.
End first.

Lemma ptr_boot s p : s.(virtual_mem_initialized) = false -> page_table_ptr p s = p.
Proof. unfold page_table_ptr. by intros ->. Qed.

Lemma low_vpath i : idx_ok i -> vpath (i * 4096) = [0; 0; 0] /\ pt_index (i * 4096) = i /\ vpn (i * 4096) = i.
Proof.
  unfold idx_ok, vpath, pml4_index, pdpt_index, pd_index, pt_index, vpn. intros Hi.
  change 0x1FF with (Z.ones 9). rewrite !Z.land_ones, !Z.shiftr_div_pow2 by lia.
  split_and!; [do 3 f_equal| |]; Z.div_mod_to_equations; lia.
Qed.

Definition low_map (n : Z) (s : vmm) (root : Z) : Prop :=
  forall v, xlate s root v = if vpn v <? n then Some (vpn v * 4096 + v mod 2 ^ 12) else None.

(** Filling the last table maps page [i] to frame [i]. *)
Lemma fill_pt_loop root d n : forall i s,
  s.(virtual_mem_initialized) = false -> 0 < d < 2 ^ 40 ->
  0 <= i -> i + Z.of_nat n <= 512 ->
  vmm_wf s root -> descend s.(ram) root [0; 0; 0] = Some (d * 4096) -> low_map i s root ->
  exists s', for_upM n i (fun i => store_entry (d * 4096) i (link_entry (i * PAGE_SIZE))) s =
      Done (tt, s') /\ vmm_wf s' root /\ s'.(pm) = s.(pm) /\ s'.(cr3) = s.(cr3) /\
    s'.(next_virt) = s.(next_virt) /\ s'.(virtual_mem_initialized) = false /\
    low_map (i + Z.of_nat n) s' root.
Proof.
  induction n as [|n IH]; intros i s Hm Hd Hi Hn Hwf Ht Hl; cbn [for_upM].
  { exists s. rewrite Z.add_0_r. by split_and!. }
  assert (idx_ok i) as Hix by (unfold idx_ok; lia).
  pose proof (store_entry_eq s s d i (link_entry (i * PAGE_SIZE)) eq_refl ltac:(lia) Hix) as E.
  rewrite (ptr_boot s) in E by done. rewrite (bind_eq _ _ _ _ _ E).
  destruct (low_vpath i Hix) as (Hp & Hq & Hv). rewrite <-Hp in Ht.
  destruct (leaf_store s root (i * 4096) d (link_entry (i * PAGE_SIZE)) Hwf Ht) as (Hw1 & He1 & Hx1).
  rewrite Hq in Hw1, He1, Hx1. cbv zeta in Hw1, He1, Hx1.
  destruct (IH (i + 1) (set_ram (<[d * 4096 + 8 * i := link_entry (i * PAGE_SIZE)]> (ram s)) s))
    as (s' & E' & ? & ? & ? & ? & ? & Hl'); try done; try lia.
  - rewrite <-Hp. apply He1; [apply vpath_ok|done].
  - intros v. rewrite Hx1, Hl, Hv. unfold leaf_addr, PAGE_SIZE.
    rewrite link_entry_present, link_entry_addr by (unfold idx_ok in Hix; lia).
    case_decide as Ev; [rewrite Ev; by destruct (Z.ltb_spec i (i + 1)); [|lia]|].
    destruct (Z.ltb_spec (vpn v) (i + 1)), (Z.ltb_spec (vpn v) i); done || lia.
  - exists s'. split; [exact E'|]. split_and!; try done.
    by replace (i + Z.of_nat (S n)) with (i + 1 + Z.of_nat n) by lia.
Qed.

Section init.
Context (s : vmm) (a b c d : Z).
Context (Hb : s.(virtual_mem_initialized) = false).
Context (Hr : pmm_ready s.(pm)) (Hmax : s.(pm).(max_pages) <= 2 ^ 40).
Context (Hfr : forall f, f ∈ [a; b; c; d] -> 0 < f < 2 ^ 40 /\ used_in s f = true).
Context (Hnd : NoDup [a; b; c; d]).

Lemma first_tables_post :
  exists s', first_tables (a * 4096) (b * 4096) (c * 4096) (d * 4096) s = Done (tt, s') /\
    vmm_wf s' (a * 4096) /\ s'.(pm) = s.(pm) /\ s'.(cr3) = s.(cr3) /\
    s'.(next_virt) = s.(next_virt) /\ s'.(virtual_mem_initialized) = false /\
    low_map 512 s' (a * 4096).
Proof.
  assert (0 < a < 2 ^ 40) as Ha by (apply Hfr; set_solver).
  assert (0 < b < 2 ^ 40) as Hbb by (apply Hfr; set_solver).
  assert (0 < c < 2 ^ 40) as Hc by (apply Hfr; set_solver).
  assert (0 < d < 2 ^ 40) as Hd by (apply Hfr; set_solver).
  destruct (tables_ram_wf a b c d s.(ram) Ha Hbb Hc Hd Hnd (used_in s)) as (Hw & Hde & Hl).
  { intros f Hf. by apply Hfr. }
  assert (forall m f, 0 < f < 2 ^ 40 -> clear_table (f * 4096) (set_ram m s) =
    Done (tt, set_ram (zero_page (f * 4096) m) s)) as Hcl.
  { intros m f Hf. pose proof (clear_table_eq s (set_ram m s) f eq_refl ltac:(lia)) as E.
    by rewrite ptr_boot in E. }
  assert (forall m f x, 0 < f < 2 ^ 40 -> store_entry (f * 4096) 0 x (set_ram m s) =
    Done (tt, set_ram (<[f * 4096 + 8 * 0 := x]> m) s)) as Hst.
  { intros m f x Hf.
    pose proof (store_entry_eq s (set_ram m s) f 0 x eq_refl ltac:(lia) ltac:(unfold idx_ok; lia)) as E.
    by rewrite ptr_boot in E. }
  unfold first_tables. pose proof (Hcl s.(ram) a Ha) as E0. rewrite set_ram_id in E0.
  rewrite (bind_eq _ _ _ _ _ E0), (bind_eq _ _ _ _ _ (Hcl _ b Hbb)).
  rewrite (bind_eq _ _ _ _ _ (Hcl _ c Hc)), (bind_eq _ _ _ _ _ (Hcl _ d Hd)).
  rewrite (bind_eq _ _ _ _ _ (Hst _ a _ Ha)), (bind_eq _ _ _ _ _ (Hst _ b _ Hbb)).
  rewrite (bind_eq _ _ _ _ _ (Hst _ c _ Hc)).
  assert (0 + Z.of_nat 512 = 512) as E512 by reflexivity. rewrite <-E512.
  refine (fill_pt_loop (a * 4096) d 512 0 (set_ram (tables_ram a b c d s.(ram)) s)
    Hb Hd _ _ (conj Hr (conj Hmax Hw)) Hde _); [lia|lia|].
  intros v. unfold xlate. cbn [ram set_ram]. rewrite Hl.
  destruct (Z.ltb_spec (vpn v) 0) as [Hv|]; [|done]. unfold vpn in Hv. Z.div_mod_to_equations. lia.
Qed.
End init.

(** ** [init_vmm] *)

(** A range the page-table code can map: in the 52-bit physical space. *)
Definition range_fits (phys virt size : Z) : Prop :=
  in_u64 virt /\ 0 <= phys /\ 0 <= size <= 2 ^ 47 /\ phys + size <= 2 ^ 51.
(** A range below the upper half. *)
Definition range_low (phys virt size : Z) : Prop :=
  range_fits phys virt size /\ virt + size <= 2 ^ 46.

Lemma mask_page x : in_u64 x -> Z.land x PAGE_MASK = x - x mod 4096.
Proof.
  intros Hx. change PAGE_MASK with (Z.shiftl (Z.ones 52) 12).
  assert (Z.land x (Z.shiftl (Z.ones 52) 12) = Z.shiftl (Z.land (Z.shiftr x 12) (Z.ones 52)) 12) as ->.
  { apply Z.bits_inj'. intros n Hn. rewrite Z.land_spec, !Z.shiftl_spec by lia.
    destruct (decide (n < 12)).
    - rewrite !(Z.testbit_neg_r _ (n - 12)) by lia. by rewrite andb_false_r.
    - by rewrite Z.land_spec, Z.shiftr_spec, Z.sub_add by lia. }
  rewrite Z.land_ones, Z.shiftl_mul_pow2, Z.shiftr_div_pow2 by lia. unfold in_u64 in Hx. wsolve.
Qed.

(** [map_range] rounds both addresses down to their pages. *)
Lemma map_range_any s phys virt size root :
  vmm_wf s root -> range_fits phys virt size ->
  let n := pages_of (size + phys mod 4096) in
  range_post (phys - phys mod 4096) (virt - virt mod 4096) n root (Z.to_nat n) s s
    (map_range phys virt size root s).
Proof.
  intros Hwf (Hv & Hp & Hs & Hb) n. unfold in_u64 in Hv.
  assert (map_range phys virt size root s =
    map_range (phys - phys mod 4096) (virt - virt mod 4096) (size + phys mod 4096) root s) as ->.
  { unfold map_range. rewrite !mask_page by wsolve.
    replace (u64 (phys - (phys - phys mod 4096))) with (phys mod 4096) by wsolve.
    replace (phys - phys mod 4096 - (phys - phys mod 4096) mod 4096) with (phys - phys mod 4096) by wsolve.
    replace (virt - virt mod 4096 - (virt - virt mod 4096) mod 4096) with (virt - virt mod 4096) by wsolve.
    rewrite Z.sub_diag. change (u64 0) with 0. by rewrite Z.add_0_r. }
  apply map_range_post; try done; unfold in_u64, pages_of, PAGE_SIZE; wsolve.
Qed.

(** The window of physical memory at [PASSTHRU_BASE]. *)
Definition window (maxa : Z) (s : vmm) (root : Z) : Prop :=
  forall p, 0 <= p < maxa -> xlate s root (PASSTHRU_BASE + p) = Some p.

(** The state of [init_vmm] between two [map_range]s. *)
Record booting (maxa root : Z) (s : vmm) : Prop := {
  bt_wf : vmm_wf s root;
  bt_mode : s.(virtual_mem_initialized) = false;
  bt_max : s.(pm).(max_physical_address) = maxa;
}.

Lemma booting_extends maxa root s s' :
  booting maxa root s -> vmm_wf s' root -> extends root s s' -> booting maxa root s'.
Proof.
  intros [b1 b2 b3] Hw [c1 c2 c3 c4 _ _ _]. constructor; [done|by rewrite c2|].
  by destruct c4 as (_&_&_&_&_&_&_&_&->).
Qed.

Lemma map_range_safe maxa root phys virt size :
  range_fits phys virt size ->
  safe (booting maxa root) (map_range phys virt size root) (fun _ => booting maxa root).
Proof.
  intros Hf s Hb. pose proof (map_range_any s phys virt size root (bt_wf _ _ _ Hb) Hf) as H.
  cbn zeta in H. destruct (map_range _ _ _ _ s) as [[[] s']|w|]; [|done|done].
  destruct H as (Hw & He & _). by eapply booting_extends.
Qed.

(** Later low ranges leave the window alone. *)
Definition with_window (maxa root : Z) (s : vmm) : Prop := booting maxa root s /\ window maxa s root.

Lemma map_low_safe maxa root phys virt size :
  maxa <= 2 ^ 31 -> range_low phys virt size ->
  safe (with_window maxa root) (map_range phys virt size root) (fun _ => with_window maxa root).
Proof.
  intros Hmax [Hf Hlow] s [Hb Hwin].
  pose proof (map_range_any s phys virt size root (bt_wf _ _ _ Hb) Hf) as H.
  cbn zeta in H. destruct (map_range _ _ _ _ s) as [[[] s']|w|]; [|done|done].
  destruct H as (Hw & He & Hm). split; [by eapply booting_extends|].
  intros p Hp. rewrite Hm, Hwin by done.
  destruct (Z.ltb_spec (page_in (virt - virt mod 4096) (PASSTHRU_BASE + p))
    (pages_of (size + phys mod 4096))) as [Hlt|]; [|done].
  exfalso. destruct Hf as (Hv & Hp0 & Hs & Hbd). unfold in_u64 in Hv.
  unfold page_in, vpn, pages_of, PAGE_SIZE, PASSTHRU_BASE in Hlt. Z.div_mod_to_equations. lia.
Qed.

(** The passthru [map_range] itself. *)
Lemma map_passthru_safe maxa root :
  0 <= maxa <= 2 ^ 31 ->
  safe (booting maxa root) (map_range 0 PASSTHRU_BASE maxa root) (fun _ => with_window maxa root).
Proof.
  intros Hmax s Hb.
  assert (range_fits 0 PASSTHRU_BASE maxa) as Hf
    by (unfold range_fits, in_u64, PASSTHRU_BASE; lia).
  pose proof (map_range_any s 0 PASSTHRU_BASE maxa root (bt_wf _ _ _ Hb) Hf) as H.
  cbn zeta in H. destruct (map_range _ _ _ _ s) as [[[] s']|w|]; [|done|done].
  destruct H as (Hw & He & Hm). split; [by eapply booting_extends|].
  intros p Hp. rewrite Hm. change (0 mod 4096) with 0. rewrite Z.sub_0_r, Z.add_0_r.
  change (PASSTHRU_BASE - PASSTHRU_BASE mod 4096) with PASSTHRU_BASE.
  assert (page_in PASSTHRU_BASE (PASSTHRU_BASE + p) = p / 4096) as ->.
  { unfold page_in, vpn, PASSTHRU_BASE. Z.div_mod_to_equations. lia. }
  unfold pages_of, PAGE_SIZE, PASSTHRU_BASE.
  destruct (Z.ltb_spec (p / 4096) ((maxa + 4096 - 1) / 4096)); [f_equal|]; wsolve.
Qed.

(** The ranges [init_vmm] is asked to map.  The kernel image and the
    framebuffer may lie anywhere; what is mapped after the window is low. *)
Record boot_ranges_ok (rd : Z -> EFI_MEMORY_DESCRIPTOR) (boot : BootInfo) (cpu : cpu_inputs) : Prop := {
  br_kernel : range_fits boot.(kernel_physical_address_start) boot.(kernel_virtual_address)
    boot.(kernel_size);
  br_fb : range_fits boot.(framebuffer_base) boot.(framebuffer_base) boot.(framebuffer_size);
  br_rsp : 0x20000 <= cpu.(rsp_in) < 2 ^ 45;
  br_rip : 0x1000 <= cpu.(rip_in) < 2 ^ 45;
  br_ramdisk : range_low boot.(initramfs_address) boot.(initramfs_address) boot.(initramfs_size);
  br_dsize : 0 < boot.(memory_descriptor_size);
  br_desc : forall i,
    0 <= i < boot.(memory_map_size) / boot.(memory_descriptor_size) ->
    let d := desc_at rd boot.(memory_map) boot.(memory_descriptor_size) i in
    d.(Type_) = EfiConventionalMemory ->
    range_low d.(PhysicalStart) d.(PhysicalStart) (u64 (d.(NumberOfPages) * PAGE_SIZE));
  br_boot : 0 <= cpu.(boot_ptr) < 2 ^ 45;
  br_map : 0 <= boot.(memory_map) < 2 ^ 45;
  br_map_size : 0 <= boot.(memory_map_size) < 2 ^ 40;
}.

Lemma range_low_id a size : 0 <= a -> 0 <= size -> a + size <= 2 ^ 46 -> range_low a a size.
Proof. unfold range_low, range_fits, in_u64. lia. Qed.

Lemma map_apic_safe maxa root rd boot cpu :
  maxa <= 2 ^ 31 -> boot_ranges_ok rd boot cpu ->
  safe (with_window maxa root) (map_apic rd boot cpu root) (fun _ => with_window maxa root).
Proof.
  intros Hmax Hbr. unfold map_apic. pose proof (br_dsize _ _ _ Hbr).
  destruct (Z.eqb_spec (memory_descriptor_size boot) 0); [lia|].
  assert (0 <= memory_map_size boot / memory_descriptor_size boot).
  { apply Z.div_pos; [apply (br_map_size _ _ _ Hbr)|done]. }
  eapply safe_bind.
  - apply (safe_for_upM (fun _ => with_window maxa root)). intros k Hk. cbn zeta.
    destruct (Z.eqb_spec (Type_ (desc_at rd (memory_map boot) (memory_descriptor_size boot) k))
      EfiConventionalMemory) as [E|_]; [|by apply safe_ret].
    apply map_low_safe; [done|]. apply (br_desc _ _ _ Hbr); [lia|done].
  - intros []. cbn zeta. apply map_low_safe; [done|].
    change 0xFFFFF with (Z.ones 20). rewrite Z.land_ones, Z.shiftl_mul_pow2 by lia.
    apply range_low_id; wsolve.
Qed.

(** The four frames [init_vmm] starts from, and the tables it builds there. *)
Lemma do_palloc_boot s :
  pmm_ready s.(pm) ->
  exists a s', do_palloc s = Done (a, s') /\ pmm_ready s'.(pm) /\ same_region s.(pm) s'.(pm) /\
    s' = set_pm s'.(pm) s /\
    (a <> 0 -> exists g, a = g * 4096 /\ 0 < g < s.(pm).(max_pages) /\ used_in s g = false /\
       forall q, 0 <= q -> used_in s' q = used_in s q || (q =? g)).
Proof.
  intros Hr. unfold do_palloc. destruct (palloc s.(pm)) as [a p] eqn:E.
  exists a, (set_pm p s). split; [done|].
  pose proof (palloc_ready _ Hr) as Hr'. rewrite E in Hr'.
  destruct (decide (a = 0)) as [->|Ha].
  - destruct (palloc_none _ _ Hr E) as [-> _]. by split_and!.
  - destruct (palloc_some _ _ _ Hr E Ha) as (g & -> & Hg & Hf & _ & ->).
    split_and!; [done|apply mark_used_region|done|]. intros _. exists g.
    split_and!; try done; try lia. intros q Hq.
    apply mark_used_page_used; [apply Hr|lia|done].
Qed.

Definition boot_state (maxa : Z) (s : vmm) : Prop :=
  pmm_ready s.(pm) /\ s.(pm).(max_pages) <= 2 ^ 40 /\ s.(virtual_mem_initialized) = false /\
  s.(pm).(max_physical_address) = maxa.

Definition boot_root (maxa root : Z) (s : vmm) : Prop :=
  booting maxa root s /\ exists g, root = g * 4096 /\ 0 < g < 2 ^ 40.

Lemma init_tables_safe {A : Type} maxa (k : Z -> M vmm A) (Q : A -> vmm -> Prop) :
  (forall root, safe (boot_root maxa root) (k root) Q) ->
  safe (boot_state maxa)
    (pml4_phys ← do_palloc; pdpt_phys ← do_palloc; pd_phys ← do_palloc; pt_phys ← do_palloc;
     if (pml4_phys =? 0) || (pdpt_phys =? 0) || (pd_phys =? 0) || (pt_phys =? 0)
     then kernel_panic "Out of memory creating VMM" else
     _ ← first_tables pml4_phys pdpt_phys pd_phys pt_phys; k pml4_phys) Q.
Proof.
  intros Hk s (Hr & Hmax & Hb & Hm).
  destruct (do_palloc_boot s Hr) as (a & s1 & E1 & R1 & M1 & S1 & A1).
  rewrite (bind_eq _ _ _ _ _ E1).
  destruct (do_palloc_boot s1 R1) as (b & s2 & E2 & R2 & M2 & S2 & A2).
  rewrite (bind_eq _ _ _ _ _ E2).
  destruct (do_palloc_boot s2 R2) as (c & s3 & E3 & R3 & M3 & S3 & A3).
  rewrite (bind_eq _ _ _ _ _ E3).
  destruct (do_palloc_boot s3 R3) as (d & s4 & E4 & R4 & M4 & S4 & A4).
  rewrite (bind_eq _ _ _ _ _ E4).
  destruct (Z.eqb_spec a 0), (Z.eqb_spec b 0), (Z.eqb_spec c 0), (Z.eqb_spec d 0);
    cbn [orb]; try exact I.
  destruct (A1 ltac:(done)) as (fa & -> & La & Fa & Ua).
  destruct (A2 ltac:(done)) as (fb & -> & Lb & Fb & Ub).
  destruct (A3 ltac:(done)) as (fc & -> & Lc & Fc & Uc).
  destruct (A4 ltac:(done)) as (fd & -> & Ld & Fd & Ud).
  rewrite Uc, Ub, Ua in Fd by lia. rewrite Ub, Ua in Fc by lia. rewrite Ua in Fb by lia.
  pose proof (transitivity M1 (transitivity M2 (transitivity M3 M4))) as M.
  rewrite (same_region_max _ _ M1) in Lb.
  rewrite (same_region_max _ _ M2), (same_region_max _ _ M1) in Lc.
  rewrite (same_region_max _ _ M3), (same_region_max _ _ M2), (same_region_max _ _ M1) in Ld.
  destruct (first_tables_post s4 fa fb fc fd) as (s5 & E5 & Hw5 & Hpm5 & Hc5 & Hn5 & Hb5 & _).
  - by rewrite S4, S3, S2, S1.
  - done.
  - by rewrite (same_region_max _ _ M).
  - assert (used_in s4 fa = true /\ used_in s4 fb = true /\ used_in s4 fc = true /\ used_in s4 fd = true)
      as (?&?&?&?).
    { rewrite !Ud, !Uc, !Ub, !Ua, !Z.eqb_refl by lia. by rewrite !orb_true_r. }
    intros f Hf. rewrite !elem_of_cons, elem_of_nil in Hf.
    destruct Hf as [->|[->|[->|[->|[]]]]]; split; try lia; done.
  - rewrite !NoDup_cons, !not_elem_of_cons. split_and!; try (by intros ?%elem_of_nil); try lia.
    apply NoDup_nil_2.
  - rewrite (bind_eq _ _ _ _ _ E5). apply Hk. split; [|exists fa; split; [done|lia]].
    constructor; [done|done|]. rewrite Hpm5. by destruct M as (_&_&_&_&_&_&_&_&->).
Qed.

Record vmm_running (maxa : Z) (s : vmm) : Prop := {
  vr_ready : vmm_ready s;
  vr_mode : s.(virtual_mem_initialized) = true;
  vr_window : forall p, 0 <= p < maxa -> translate s (PASSTHRU_BASE + p) = Some p;
}.

Lemma bind_booting {A B : Type} (I : vmm -> Prop) (m : M vmm A) (f : A -> M vmm B) Q :
  safe I m (fun _ => I) -> (forall a, safe I (f a) Q) -> safe I (m ≫= f) Q.
Proof. intros Hm Hf. by apply (safe_bind _ _ (fun _ => I)). Qed.

Lemma switch_safe maxa root g :
  root = g * 4096 -> 0 < g < 2 ^ 40 ->
  safe (with_window maxa root) (_ ← modify set_initialized; modify (write_cr3 root))
    (fun _ => vmm_running maxa).
Proof.
  intros -> Hg s [[Hw Hm Hmx] Hwin]. cbn.
  assert (vmm_ready (write_cr3 (g * 4096) (set_initialized s))) as Hr.
  { unfold vmm_ready. cbn [cr3 write_cr3]. rewrite mask_frame by lia. exact Hw. }
  constructor; [done|done|]. intros p Hp. rewrite translate_xlate by done.
  cbn [cr3 write_cr3]. rewrite mask_frame by lia. exact (Hwin p Hp).
Qed.

Lemma init_vmm_safe rd boot cpu maxa :
  0 <= maxa <= 2 ^ 31 -> boot_ranges_ok rd boot cpu ->
  safe (boot_state maxa) (init_vmm rd boot cpu) (fun _ => vmm_running maxa).
Proof.
  intros Hmax Hbr. apply init_tables_safe. intros root s [Hbt (g & Hroot & Hg)]. revert s Hbt.
  change (safe (booting maxa root) (
  _ ← map_range boot.(kernel_physical_address_start) boot.(kernel_virtual_address)
        boot.(kernel_size) root;
  let stack_page := Z.land cpu.(rsp_in) PAGE_MASK in
  let stack_low := u64 (stack_page - 16 * PAGE_SIZE) in
  _ ← map_range stack_low stack_low (32 * PAGE_SIZE) root;
  let rip_page := Z.land cpu.(rip_in) PAGE_MASK in
  let rip_low := u64 (rip_page - PAGE_SIZE) in
  _ ← map_range rip_low rip_low (PAGE_SIZE * 10) root;
  _ ← map_range boot.(framebuffer_base) boot.(framebuffer_base)
        boot.(framebuffer_size) root;
  maxa ← gets (fun s => s.(pm).(max_physical_address));
  _ ← map_range 0 PASSTHRU_BASE maxa root;
  _ ← map_range boot.(initramfs_address) boot.(initramfs_address)
        boot.(initramfs_size) root;
  let support_apic := negb (Z.land cpu.(cpuid1_edx) (Z.shiftl 1 9) =? 0) in
  _ ← (if support_apic then map_apic rd boot cpu root else mret tt);
  let boot_page := Z.land cpu.(boot_ptr) PAGE_MASK in
  _ ← map_range boot_page boot_page PAGE_SIZE root;
  let map_page_ := Z.land boot.(memory_map) PAGE_MASK in
  _ ← map_range map_page_ map_page_
        (u64 (boot.(memory_map_size) + Z.land boot.(memory_map) (PAGE_SIZE - 1)))
        root;
  _ ← modify set_initialized;
  modify (write_cr3 root)) (fun _ => vmm_running maxa)).
  pose proof (br_rsp _ _ _ Hbr). pose proof (br_rip _ _ _ Hbr).
  pose proof (br_boot _ _ _ Hbr). pose proof (br_map _ _ _ Hbr). pose proof (br_map_size _ _ _ Hbr).
  change (PAGE_SIZE - 1) with (Z.ones 12). rewrite Z.land_ones by lia.
  cbn zeta. rewrite !mask_page by (unfold in_u64; lia). unfold PAGE_SIZE.
  apply bind_booting; [apply map_range_safe, Hbr|intros []].
  apply bind_booting; [apply map_range_safe, range_low_id; wsolve|intros []].
  apply bind_booting; [apply map_range_safe, range_low_id; wsolve|intros []].
  apply bind_booting; [apply map_range_safe, Hbr|intros []].
  apply (safe_bind _ _ (fun x s => x = maxa /\ booting maxa root s)).
  { apply safe_gets. intros s Hs. split; [apply Hs|done]. }
  intros x s [-> Hs]. revert s Hs.
  apply (safe_bind (booting maxa root) _ (fun _ => with_window maxa root)); [by apply map_passthru_safe|intros []].
  apply bind_booting; [apply map_low_safe; [lia|apply Hbr]|intros []].
  apply bind_booting; [|intros []].
  { destruct (negb _); [apply map_apic_safe; [lia|done]|by apply safe_ret]. }
  apply bind_booting; [apply map_low_safe, range_low_id; wsolve|intros []].
  apply bind_booting; [apply map_low_safe, range_low_id; wsolve|intros []].
  by apply (switch_safe maxa root g).
Qed.
