(* ===== verification/VmmTheorems.v ===== *)
(** * The properties of the virtual memory manager

    The theorems about [vmm.c], each with an instance on a small machine. *)

From S2P Require Import Prelude FromBoot Pmm PageTable Vmm VmmFacts VmmSpec VmmInit.

(** A machine with an empty address space in frame 3, and one that has just
    been booted with 64 conventional frames. *)
Module VmmDemo.
Definition machine : vmm :=
  mk_vmm (palloc Pmm.Demo.state).2 ∅ 0x3000 true KHEAP_BASE [].

Definition desc (a : Z) : EFI_MEMORY_DESCRIPTOR :=
  if a =? 0x5000 then mk_desc EfiConventionalMemory 0x2000 0 64 0
  else mk_desc EfiLoaderData 0x50000 0 2 0.
Definition boot_pm : pmm :=
  match init_pmm desc 0x5000 96 48 pmm_boot with Done (_, s) => s | _ => pmm_boot end.
Definition booted : vmm := mk_vmm boot_pm ∅ 0 false KHEAP_BASE [].
Definition boot : BootInfo :=
  mk_BootInfo BOOTINFOMAGIC 0x100000 0x3000 64 48 64 1 0x5000 96 48
    0x8000 0x8000 0x9000 0x400000 0x2000 0x110000 0x1000.
Definition cpu : cpu_inputs := Build_cpu_inputs 0x40000 0x8100 0 0xFEE00900 0x6000.

Lemma machine_ready : vmm_ready machine.
Proof.
  assert (Z.land (cr3 machine) PTE_ADDR_MASK = 3 * 4096) as Hroot by reflexivity.
  unfold vmm_ready. rewrite Hroot. split; [|split].
  - apply palloc_ready, Pmm.Demo.state_ready.
  - by vm_compute.
  - apply empty_root_wf; [|lia|by vm_compute]. intros i _.
    change (ram machine) with (∅ : gmap Z Z). by rewrite lookup_total_empty.
Qed.

Lemma boot_desc_ok : forall i, 0 <= i < 96 / 48 -> desc_ok (desc_at desc 0x5000 48 i).
Proof.
  intros i Hi. change (96 / 48) with 2 in Hi.
  assert (i = 0 \/ i = 1) as [-> | ->] by lia; by vm_compute.
Qed.

Lemma booted_state : boot_state 0x42000 booted.
Proof.
  pose proof (init_pmm_result desc 0x5000 96 48 ltac:(lia) ltac:(by vm_compute) boot_desc_ok pmm_boot) as H.
  assert (init_pmm desc 0x5000 96 48 pmm_boot = Done (tt, boot_pm)) as E by (by vm_compute).
  rewrite E in H. destruct H as (Hwf & Hi & _).
  split_and!; [|by vm_compute..]. split_and!; [done|done|by vm_compute].
Qed.

Lemma boot_ok : boot_ranges_ok desc boot cpu.
Proof.
  constructor; unfold range_low, range_fits, in_u64, boot, cpu; cbn -[Z.pow desc_at]; try lia.
  intros i Hi. change (0 <= i < 2) in Hi.
  assert (i = 0 \/ i = 1) as [-> | ->] by lia; cbn; [|done].
  intros _. apply range_low_id; by vm_compute.
Qed.
End VmmDemo.

(** C2. [map_page] makes the processor translate the pages of [virt_addr], and
    no other, to the frame of [phys_addr]; it needs at most three frames for
    new tables, panics only when they are missing, keeps the tables well
    formed and the contents of every data frame. *)
Theorem map_page_spec s phys virt :
  vmm_ready s ->
  match map_page phys virt (Z.land s.(cr3) PTE_ADDR_MASK) s with
  | Done (_, s') => vmm_ready s' /\ keeps_data s s' /\
      s.(pm).(free_pages) - 3 <= s'.(pm).(free_pages) /\
      (forall q, 0 <= q -> used_in s q = true -> used_in s' q = true) /\
      forall v, translate s' v =
        if decide (vpn v = vpn virt)
        then Some (Z.land phys PTE_ADDR_MASK + v mod 2 ^ 12) else translate s v
  | Panicked _ => s.(pm).(free_pages) < 3
  | Fault => False
  end.
Proof.
  intros Hr. pose proof (map_page_post s _ phys virt Hr) as H. unfold map_post in H.
  destruct (map_page _ _ _ s) as [[[] s']|w|]; [|done|done].
  destruct H as (Hw & He & Hf & _ & Hx). pose proof (ext_cr3 _ _ _ He) as Hc.
  assert (vmm_ready s') as Hr' by (unfold vmm_ready; by rewrite Hc).
  split_and!; [done|by apply extends_keeps|done|apply He|].
  intros v. rewrite !translate_xlate, Hc by done. apply Hx.
Qed.

Lemma map_page_spec_witness :
  vmm_ready VmmDemo.machine /\
  match map_page 0x8000 KHEAP_BASE (Z.land VmmDemo.machine.(cr3) PTE_ADDR_MASK) VmmDemo.machine with
  | Done (_, s') => vmm_ready s' /\ keeps_data VmmDemo.machine s' /\
      VmmDemo.machine.(pm).(free_pages) - 3 <= s'.(pm).(free_pages) /\
      (forall q, 0 <= q -> used_in VmmDemo.machine q = true -> used_in s' q = true) /\
      forall v, translate s' v =
        if decide (vpn v = vpn KHEAP_BASE)
        then Some (Z.land 0x8000 PTE_ADDR_MASK + v mod 2 ^ 12)
        else translate VmmDemo.machine v
  | Panicked _ => VmmDemo.machine.(pm).(free_pages) < 3
  | Fault => False
  end.
Proof.
  split; [exact VmmDemo.machine_ready|].
  exact (map_page_spec VmmDemo.machine 0x8000 KHEAP_BASE VmmDemo.machine_ready).
Defined.

(** C7. [unmap_page] always returns; afterwards the processor faults on the
    pages of [virt_addr] and translates every other page as before, and the
    result is the frame the page was mapped to. *)
Theorem unmap_page_spec s virt :
  vmm_ready s ->
  exists phys s', unmap_page virt (Z.land s.(cr3) PTE_ADDR_MASK) s = Done (phys, s') /\
    vmm_ready s' /\ keeps_data s s' /\ s'.(pm) = s.(pm) /\
    (forall v, translate s' v = if decide (vpn v = vpn virt) then None else translate s v) /\
    forall a, translate s virt = Some a -> phys = a - virt mod 2 ^ 12.
Proof.
  intros Hr. destruct (unmap_page_post s _ virt Hr) as (phys & s' & E & Hw & He & Hp & Hx & Hph).
  pose proof (ext_cr3 _ _ _ He) as Hc.
  assert (vmm_ready s') as Hr' by (unfold vmm_ready; by rewrite Hc).
  exists phys, s'. split_and!; [done|done|by apply extends_keeps|done| |].
  - intros v. rewrite !translate_xlate, Hc by done. apply Hx.
  - intros a Ha. apply Hph. by rewrite <-translate_xlate.
Qed.

Lemma unmap_page_spec_witness :
  let s := VmmDemo.machine in
  exists phys s', unmap_page KHEAP_BASE (Z.land s.(cr3) PTE_ADDR_MASK) s = Done (phys, s') /\
    vmm_ready s' /\ keeps_data s s' /\ s'.(pm) = s.(pm) /\
    (forall v, translate s' v = if decide (vpn v = vpn KHEAP_BASE) then None else translate s v) /\
    forall a, translate s KHEAP_BASE = Some a -> phys = a - KHEAP_BASE mod 2 ^ 12.
Proof. exact (unmap_page_spec VmmDemo.machine KHEAP_BASE VmmDemo.machine_ready). Defined.

(** C14. [vallocs] either maps [count] fresh frames, zeroed on request, behind
    the next [count] pages and advances [next_virt], or returns 0 with every page
    it had mapped unmapped and every frame it had taken for one free again: the
    frames in use are those that were, and those of the page tables that
    [map_page] added on the way, which stay.  In both cases frames in use stay in
    use and keep their data.  It fails or panics only with fewer than [4 * count]
    free frames. *)
Theorem vallocs_spec s zero count :
  vmm_ready s -> 0 < count -> range_ok s.(next_virt) count ->
  s.(next_virt) + count * PAGE_SIZE < 2 ^ 64 ->
  match vallocs zero count s with
  | Done (a, s') =>
      (a = s.(next_virt) /\ exists gs, allocated s s' zero count gs) \/
      (a = 0 /\ s.(pm).(free_pages) < 4 * count /\ gave_up s s' count)
  | Panicked _ => s.(pm).(free_pages) < 4 * count
  | Fault => False
  end.
Proof. apply vallocs_result. Qed.

Lemma vallocs_spec_witness :
  match vallocs true 1 VmmDemo.machine with
  | Done (a, s') =>
      (a = KHEAP_BASE /\ exists gs, allocated VmmDemo.machine s' true 1 gs) \/
      (a = 0 /\ VmmDemo.machine.(pm).(free_pages) < 4 * 1 /\ gave_up VmmDemo.machine s' 1)
  | Panicked _ => VmmDemo.machine.(pm).(free_pages) < 4 * 1
  | Fault => False
  end /\
  exists s', vallocs false 70 VmmDemo.machine = Done (0, s') /\ gave_up VmmDemo.machine s' 70.
Proof.
  split.
  - apply (vallocs_spec VmmDemo.machine true 1 VmmDemo.machine_ready); [lia| |];
      [split_and!|]; by vm_compute.
  - assert (match vallocs false 70 VmmDemo.machine with Done (a, _) => a =? 0 | _ => false end = true) as E
      by (by vm_compute).
    pose proof (vallocs_spec VmmDemo.machine false 70 VmmDemo.machine_ready ltac:(lia)) as H.
    specialize (H ltac:(split_and!; by vm_compute) ltac:(by vm_compute)).
    destruct (vallocs false 70 VmmDemo.machine) as [[a s']| |]; [|destruct (Bool.diff_false_true E)..].
    destruct H as [[-> _]|(-> & _ & H)]; [destruct (Bool.diff_false_true E)|]. exists s'. exact (conj eq_refl H).
Defined.

(** C27. Giving a successful [vallocs] back with [vfrees] frees exactly its
    frames and leaves the translation of every page as it was before, with
    the pages of the run unmapped. *)
Theorem vallocs_vfrees_roundtrip s zero count a s1 :
  vmm_ready s -> 0 < count -> range_ok s.(next_virt) count ->
  s.(next_virt) + count * PAGE_SIZE < 2 ^ 64 ->
  vallocs zero count s = Done (a, s1) -> a <> 0 ->
  exists gs s2, allocated s s1 zero count gs /\
    vfrees a count s1 = Done (tt, s2) /\ vmm_ready s2 /\
    s2.(pm).(free_pages) = s1.(pm).(free_pages) + count /\
    (forall g, g ∈ gs -> used_in s2 g = false) /\
    (forall v, in_run a 0 count v -> translate s2 v = None) /\
    (forall v, ~ in_run a 0 count v -> translate s2 v = translate s v).
Proof.
  intros Hr Hc Hrg Hlt E Ha. pose proof (vallocs_result s zero count Hr Hc Hrg Hlt) as H.
  rewrite E in H. destruct H as [[-> (gs & Hal)]|[-> _]]; [|done].
  destruct (allocated_vfrees s s1 zero count gs Hrg Hal) as (s2 & E2 & Hrest).
  by exists gs, s2.
Qed.

Lemma vallocs_vfrees_roundtrip_witness :
  let s := VmmDemo.machine in
  let s1 := match vallocs true 1 s with Done (_, s1) => s1 | _ => s end in
  vallocs true 1 s = Done (KHEAP_BASE, s1) /\
  exists gs s2, allocated s s1 true 1 gs /\
    vfrees KHEAP_BASE 1 s1 = Done (tt, s2) /\ vmm_ready s2 /\
    s2.(pm).(free_pages) = s1.(pm).(free_pages) + 1 /\
    (forall g, g ∈ gs -> used_in s2 g = false) /\
    (forall v, in_run KHEAP_BASE 0 1 v -> translate s2 v = None) /\
    (forall v, ~ in_run KHEAP_BASE 0 1 v -> translate s2 v = translate s v).
Proof.
  intros s s1. assert (vallocs true 1 s = Done (KHEAP_BASE, s1)) as E by (vm_compute; reflexivity).
  split; [exact E|].
  apply (vallocs_vfrees_roundtrip s true 1 KHEAP_BASE s1 VmmDemo.machine_ready); [lia| | |exact E|by vm_compute];
    [split_and!|]; by vm_compute.
Defined.

(** C15. On a machine with at most 2 GiB of memory [init_vmm] either panics for
    lack of frames or ends with [cr3] on a well-formed tree in which every
    physical address [p] is mapped at [PASSTHRU_BASE + p]; it never follows an
    undefined pointer. *)
Theorem init_vmm_passthru rd boot cpu maxa s :
  0 <= maxa <= 2 ^ 31 -> boot_ranges_ok rd boot cpu -> boot_state maxa s ->
  match init_vmm rd boot cpu s with
  | Done (_, s') => vmm_ready s' /\ s'.(virtual_mem_initialized) = true /\
      forall p, 0 <= p < maxa -> translate s' (PASSTHRU_BASE + p) = Some p
  | Panicked _ => True
  | Fault => False
  end.
Proof.
  intros Hm Hbr Hs. pose proof (init_vmm_safe rd boot cpu maxa Hm Hbr s Hs) as H.
  destruct (init_vmm rd boot cpu s) as [[[] s']|w|]; [|done|done]. by destruct H.
Qed.

Lemma init_vmm_passthru_witness :
  boot_state 0x42000 VmmDemo.booted /\
  match init_vmm VmmDemo.desc VmmDemo.boot VmmDemo.cpu VmmDemo.booted with
  | Done (_, s') => vmm_ready s' /\ s'.(virtual_mem_initialized) = true /\
      forall p, 0 <= p < 0x42000 -> translate s' (PASSTHRU_BASE + p) = Some p
  | Panicked _ => True
  | Fault => False
  end.
Proof.
  split; [exact VmmDemo.booted_state|].
  exact (init_vmm_passthru VmmDemo.desc VmmDemo.boot VmmDemo.cpu 0x42000 VmmDemo.booted ltac:(lia)
    VmmDemo.boot_ok VmmDemo.booted_state).
Defined.

(** On that machine [init_vmm] does finish. *)
Example init_vmm_demo_done :
  match init_vmm VmmDemo.desc VmmDemo.boot VmmDemo.cpu VmmDemo.booted with
  | Done (_, s') => translate s' (PASSTHRU_BASE + 0x12345) = Some 0x12345
  | _ => False
  end.
Proof. by vm_compute. Qed.

(** The window is 2 GiB wide: with more memory than that the passthru
    [map_range] of [init_vmm] runs past the top of the address space and maps
    the low pages, identity-mapped just before, to physical memory above
    2 GiB. *)
Theorem passthru_overwrites_low s maxa :
  vmm_ready s -> 2 ^ 31 < maxa <= 2 ^ 47 -> maxa mod 4096 = 0 ->
  match map_range 0 PASSTHRU_BASE maxa (Z.land s.(cr3) PTE_ADDR_MASK) s with
  | Done (_, s') => forall v, 0 <= v < maxa - 2 ^ 31 -> v < 2 ^ 46 ->
      translate s' v = Some (v + 2 ^ 31)
  | Panicked _ => s.(pm).(free_pages) < 3 * (maxa / PAGE_SIZE)
  | Fault => False
  end.
Proof.
  intros Hr Hm Hal.
  assert (range_fits 0 PASSTHRU_BASE maxa) as Hf by (unfold range_fits, in_u64, PASSTHRU_BASE; lia).
  pose proof (map_range_any s 0 PASSTHRU_BASE maxa _ Hr Hf) as H. cbn zeta in H.
  change (0 mod 4096) with 0 in H. rewrite Z.sub_0_r, Z.add_0_r in H.
  change (PASSTHRU_BASE - PASSTHRU_BASE mod 4096) with PASSTHRU_BASE in H.
  assert (pages_of maxa = maxa / PAGE_SIZE) as Hn by (unfold pages_of, PAGE_SIZE; wsolve).
  rewrite Hn in H. destruct (map_range _ _ _ _ s) as [[[] s']|w|]; cbn [range_post] in H; [| |done].
  2:{ rewrite Z2Nat.id in H; [done|]. unfold PAGE_SIZE. wsolve. }
  intros v Hv Hv46. destruct H as (Hw & He & Hx). pose proof (ext_cr3 _ _ _ He) as Hc.
  assert (vmm_ready s') as Hr' by (unfold vmm_ready; by rewrite Hc).
  rewrite translate_xlate, Hc, Hx by done.
  assert (page_in PASSTHRU_BASE v = v / 4096 + 2 ^ 31 / 4096) as ->.
  { unfold page_in, vpn, PASSTHRU_BASE. Z.div_mod_to_equations. lia. }
  unfold PAGE_SIZE.
  destruct (Z.ltb_spec (v / 4096 + 2 ^ 31 / 4096) (maxa / 4096)); [f_equal|]; wsolve.
Qed.

Lemma passthru_overwrites_low_witness :
  match map_range 0 PASSTHRU_BASE 0x100000000 (Z.land VmmDemo.machine.(cr3) PTE_ADDR_MASK)
      VmmDemo.machine with
  | Done (_, s') => forall v, 0 <= v < 0x100000000 - 2 ^ 31 -> v < 2 ^ 46 ->
      translate s' v = Some (v + 2 ^ 31)
  | Panicked _ => VmmDemo.machine.(pm).(free_pages) < 3 * (0x100000000 / PAGE_SIZE)
  | Fault => False
  end.
Proof.
  exact (passthru_overwrites_low VmmDemo.machine 0x100000000 VmmDemo.machine_ready
    ltac:(lia) ltac:(done)).
Defined.
