(* ===== verification/KernelMem.v ===== *)
(** * The kernel's heap memory as an interface

    What [kmalloc.c] needs of the virtual memory manager: 64-bit words at
    virtual addresses, and [vallocs]/[vfrees] to extend the mapped region.
    [VmmMem] shows that the page tables of [Vmm] provide it. *)

From S2P Require Import Prelude Pmm.

(** The word-aligned addresses of [count] pages from [a] on. *)
Definition in_pages (a count b : Z) : bool :=
  (a <=? b) && (b <? a + count * PAGE_SIZE) && (b mod 8 =? 0).

(** [vload s a] is the word at [a], [None] when [a] is not mapped heap memory;
    [brk] is the address the next [vallocs] will return. *)
Class KernelMem (Sg : Type) := {
  kinv : Sg -> Prop;
  brk : Sg -> Z;
  vload : Sg -> Z -> option Z;
  vstore : Z -> Z -> M Sg unit;
  vallocs_op : bool -> Z -> M Sg Z;
  vfrees_op : Z -> Z -> M Sg unit;
}.

Definition heap_limit : Z := 0xFFFFFFFF80000000.

Class KernelMemLaws (Sg : Type) `{KernelMem Sg} := {
  km_brk : forall s, kinv s -> 0 < brk s <= heap_limit /\ brk s mod PAGE_SIZE = 0;
  km_range : forall s a w, kinv s -> vload s a = Some w -> 0 < a < brk s /\ a mod 8 = 0;
  km_store : forall s a w x, kinv s -> vload s a = Some w ->
    exists s', vstore a x s = Done (tt, s') /\ kinv s' /\ brk s' = brk s /\
      forall b, vload s' b = if decide (b = a) then Some x else vload s b;
  km_vallocs : forall s count, kinv s -> 0 < count -> brk s + count * PAGE_SIZE <= heap_limit ->
    match vallocs_op true count s with
    | Done (a, s') => kinv s' /\
        ((a = 0 /\ brk s' = brk s /\ forall b, vload s' b = vload s b) \/
         (a = brk s /\ brk s' = brk s + count * PAGE_SIZE /\
          forall b, vload s' b = if in_pages a count b then Some 0 else vload s b))
    | Panicked _ => True
    | Fault => False
    end;
  km_vfrees : forall s a count, kinv s -> 0 < count -> 0 < a -> a mod PAGE_SIZE = 0 ->
    (forall b, in_pages a count b = true -> is_Some (vload s b)) ->
    exists s', vfrees_op a count s = Done (tt, s') /\ kinv s' /\ brk s' = brk s /\
      forall b, vload s' b = if in_pages a count b then None else vload s b;
}.
