(* ===== verification/VmmMem.v ===== *)
(** * The page tables provide the kernel heap's memory

    The [KernelMem] interface on [Vmm]: a heap address denotes the word of
    physical memory its page is mapped to, and distinct heap pages are mapped
    to distinct data frames. *)

From S2P Require Import Prelude FromBoot Pmm PageTable Vmm VmmFacts VmmSpec KernelMem.

#[local] Opaque walk vallocs vfrees.

Definition in_heap (s : vmm) (v : Z) : Prop := KHEAP_BASE <= v < s.(next_virt).
#[export] Instance in_heap_dec s v : Decision (in_heap s v) := _.

Definition rootof (s : vmm) : Z := Z.land s.(cr3) PTE_ADDR_MASK.

Record heap_mapped (s : vmm) : Prop := {
  hm_ready : vmm_ready s;
  hm_align : s.(next_virt) mod 4096 = 0;
  hm_next : KHEAP_BASE <= s.(next_virt) <= heap_limit;
  hm_data : forall v a, in_heap s v -> translate s v = Some a -> data_frame s (rootof s) (a / 4096);
  hm_inj : forall v w a b, in_heap s v -> in_heap s w ->
    translate s v = Some a -> translate s w = Some b -> a / 4096 = b / 4096 -> vpn v = vpn w;
}.

Definition heap_word (s : vmm) (v : Z) : option Z :=
  if decide (in_heap s v /\ v mod 8 = 0) then
    match translate s v with Some a => Some (s.(ram) !!! a) | None => None end
  else None.

#[export] Instance vmm_mem : KernelMem vmm := {
  kinv := heap_mapped;
  brk := next_virt;
  vload := heap_word;
  vstore := vstore64;
  vallocs_op := vallocs;
  vfrees_op := vfrees;
}.

Lemma translate_offset s v a :
  vmm_ready s -> translate s v = Some a -> a = (a / 4096) * 4096 + v mod 4096.
Proof.
  intros Hr. rewrite translate_xlate by done. unfold xlate, leaf_addr.
  destruct (leaf _ _ v) as [e|]; [|done]. destruct (present e); [|done]. intros [= <-].
  rewrite mask_addr. wsolve.
Qed.

Lemma vpn_page v w : vpn v = vpn w -> 0 <= v -> 0 <= w -> v / 2 ^ 48 = w / 2 ^ 48 -> v / 4096 = w / 4096.
Proof. unfold vpn. intros. Z.div_mod_to_equations. lia. Qed.

Lemma heap_high v : KHEAP_BASE <= v < heap_limit -> v / 2 ^ 48 = 65535.
Proof. unfold KHEAP_BASE, heap_limit. intros. Z.div_mod_to_equations. lia. Qed.

Lemma heap_page v w :
  KHEAP_BASE <= v < heap_limit -> KHEAP_BASE <= w < heap_limit -> vpn v = vpn w -> v / 4096 = w / 4096.
Proof.
  intros Hv Hw E. apply vpn_page; [done| | |by rewrite !heap_high];
    unfold KHEAP_BASE in *; lia.
Qed.

(** Two heap addresses of the same page differ only in the offset. *)
Lemma heap_vpn s v w :
  s.(next_virt) <= heap_limit -> in_heap s v -> in_heap s w -> vpn v = vpn w -> v / 4096 = w / 4096.
Proof.
  unfold in_heap. intros. apply heap_page; [lia|lia|done].
Qed.

Lemma word_of_frame v a : v mod 8 = 0 -> a = a / 4096 * 4096 + v mod 4096 ->
  exists i, idx_ok i /\ a = a / 4096 * 4096 + 8 * i /\ v mod 4096 = 8 * i.
Proof.
  intros Hv Ha. exists (v mod 4096 / 8). unfold idx_ok. split_and!; wsolve.
Qed.

Lemma heap_word_in s v :
  in_heap s v -> v mod 8 = 0 ->
  heap_word s v = match translate s v with Some a => Some (s.(ram) !!! a) | None => None end.
Proof. intros. unfold heap_word. by rewrite decide_True. Qed.

Lemma heap_word_out s v : ~ (in_heap s v /\ v mod 8 = 0) -> heap_word s v = None.
Proof. intros. unfold heap_word. by rewrite decide_False. Qed.

(** The word behind a heap address, by frame and index. *)
Lemma heap_word_some s v w :
  heap_mapped s -> heap_word s v = Some w ->
  in_heap s v /\ v mod 8 = 0 /\ exists g i, translate s v = Some (g * 4096 + 8 * i) /\
    v mod 4096 = 8 * i /\ idx_ok i /\ data_frame s (rootof s) g /\ w = s.(ram) !!! (g * 4096 + 8 * i).
Proof.
  intros Hm. unfold heap_word. case_decide as Hd; [|done]. destruct Hd as [Hh Hal].
  destruct (translate s v) as [a|] eqn:E; [|done]. intros [= <-].
  destruct (word_of_frame v a Hal (translate_offset _ _ _ (hm_ready _ Hm) E)) as (i & Hi & Ha & Hv).
  split_and!; [done|done|]. exists (a / 4096), i. rewrite <-Ha.
  split_and!; try done. by apply (hm_data _ Hm v).
Qed.

Lemma heap_store s v w x :
  heap_mapped s -> heap_word s v = Some w ->
  exists s', vstore64 v x s = Done (tt, s') /\ heap_mapped s' /\ s'.(next_virt) = s.(next_virt) /\
    forall b, heap_word s' b = if decide (b = v) then Some x else heap_word s b.
Proof.
  intros Hm Hw. destruct (heap_word_some s v w Hm Hw) as (Hh & Hal & g & i & Ht & Hv & Hi & Hd & ->).
  destruct (data_write s (rootof s) g i x (hm_ready _ Hm) Hi (proj2 (proj2 Hd))) as (Hwf & Hx & Hword & Hk & _).
  set (s' := set_ram (<[g * 4096 + 8 * i := x]> s.(ram)) s) in *.
  assert (vmm_ready s') as Hr' by done.
  assert (forall b, translate s' b = translate s b) as Htr.
  { intros b. rewrite !translate_xlate by (done || apply Hm). apply Hx. }
  exists s'. unfold vstore64. change (walk s.(ram) s.(cr3) v) with (translate s v). rewrite Ht.
  split; [done|]. split; [|split; [done|]].
  - destruct Hm as [h1 h2 h3 h4 h5]. constructor; try done.
    + intros b a Hb. rewrite Htr. intros Ha. destruct (h4 b a Hb Ha) as (?&?&?).
      split; [done|]. split; [done|by apply Hk].
    + intros b c a a' Hb Hc. rewrite !Htr. by apply h5.
  - intros b. destruct (decide (in_heap s b /\ b mod 8 = 0)) as [[Hbh Hba]|Hb].
    2:{ rewrite !heap_word_out by done. rewrite decide_False; [done|]. intros ->. tauto. }
    rewrite !heap_word_in by done. rewrite Htr.
    destruct (translate s b) as [a|] eqn:Ea; [|rewrite decide_False; [done|congruence]].
    destruct (word_of_frame b a Hba (translate_offset _ _ _ (hm_ready _ Hm) Ea)) as (j & Hj & Haj & Hbj).
    case_decide as Hbv.
    + subst b. rewrite Ht in Ea. injection Ea as <-. cbn. by rewrite lookup_total_insert_eq.
    + rewrite Haj. cbn. rewrite lookup_total_insert_ne; [done|].
      intros E. apply word_inj in E as [Eg Ei]; [|done|done].
      apply Hbv. assert (vpn b = vpn v) as Ep.
      { apply (hm_inj _ Hm b v a _ Hbh Hh Ea Ht). rewrite <-Eg. unfold idx_ok in Hi. wsolve. }
      apply (heap_vpn s) in Ep; [|apply Hm|done|done]. wsolve.
Qed.

(** ** Growing the heap *)

Lemma in_run_page start count v :
  KHEAP_BASE <= start -> start mod 4096 = 0 -> start + count * PAGE_SIZE <= heap_limit ->
  KHEAP_BASE <= v < heap_limit ->
  (in_run start 0 count v <-> start <= v < start + count * PAGE_SIZE).
Proof.
  unfold PAGE_SIZE. intros Hs Ha Hl Hv. unfold in_run, page_at, PAGE_SIZE. split.
  - intros (k & Hk & E). apply heap_page in E; [|done|unfold KHEAP_BASE, heap_limit in *; lia].
    Z.div_mod_to_equations. lia.
  - intros Hr. exists ((v - start) / 4096). split; [Z.div_mod_to_equations; lia|].
    unfold vpn. f_equal. Z.div_mod_to_equations. lia.
Qed.

Section grown.
Context (s s' : vmm) (count : Z) (gs : list Z).
Context (Hm : heap_mapped s) (Hc : 0 < count).
Context (Hl : s.(next_virt) + count * PAGE_SIZE <= heap_limit).
Context (Hal : allocated s s' true count gs).

Lemma rootof_grown : rootof s' = rootof s.
Proof. unfold rootof. by rewrite (al_cr3 _ _ _ _ _ Hal). Qed.

Lemma grown_new v :
  s.(next_virt) <= v < s.(next_virt) + count * PAGE_SIZE ->
  exists g, gs !! Z.to_nat ((v - s.(next_virt)) / 4096) = Some g /\
    data_frame s' (rootof s) g /\ used_in s g = false /\ translate s' v = Some (g * 4096 + v mod 4096).
Proof.
  intros Hv. destruct Hal as [a1 a2 a3 a4 [a5 a5'] a6 a7 a8 a8' a9].
  pose proof (hm_next _ Hm) as Hn. pose proof (hm_align _ Hm) as Ha. unfold PAGE_SIZE in *.
  assert (0 <= (v - s.(next_virt)) / 4096 < count) as Hk by (Z.div_mod_to_equations; lia).
  destruct (lookup_lt_is_Some_2 gs (Z.to_nat ((v - s.(next_virt)) / 4096))) as [g Hg]; [lia|].
  exists g. destruct (a5' _ g Hg) as [Hd Hx]. split_and!; [done|done| |].
  - apply a6. by eapply list_elem_of_lookup_2.
  - rewrite translate_xlate, a2 by done. apply Hx. rewrite Z2Nat.id by lia.
    unfold vpn, page_at, PAGE_SIZE. f_equal. Z.div_mod_to_equations. lia.
Qed.

Lemma grown_old v : in_heap s v -> translate s' v = translate s v.
Proof.
  intros Hv. apply (al_out _ _ _ _ _ Hal). pose proof (hm_next _ Hm) as Hn. unfold in_heap in Hv.
  rewrite in_run_page; try lia. apply Hm.
Qed.

Lemma grown_split v :
  in_heap s' v -> in_heap s v \/ s.(next_virt) <= v < s.(next_virt) + count * PAGE_SIZE.
Proof. unfold in_heap. rewrite (al_next _ _ _ _ _ Hal). lia. Qed.

Lemma grown_data v a :
  in_heap s v -> translate s v = Some a ->
  used_in s (a / 4096) = true /\ data_frame s' (rootof s) (a / 4096) /\
  forall i, idx_ok i -> s'.(ram) !!! (a / 4096 * 4096 + 8 * i) = s.(ram) !!! (a / 4096 * 4096 + 8 * i).
Proof.
  intros Hv Ha. destruct (hm_data _ Hm v a Hv Ha) as (Hg & Hu & Hn).
  destruct (al_keeps _ _ _ _ _ Hal (a / 4096) ltac:(lia) Hu Hn) as [Hu' [Hn' Hw]].
  split_and!; [done| |done]. split_and!; [lia| |done|done].
  rewrite (same_region_max _ _ (al_region _ _ _ _ _ Hal)). lia.
Qed.

Lemma grown_frame v a :
  in_heap s' v -> translate s' v = Some a ->
  data_frame s' (rootof s) (a / 4096) /\
  ((in_heap s v /\ translate s v = Some a /\ used_in s (a / 4096) = true) \/
   (s.(next_virt) <= v < s.(next_virt) + count * PAGE_SIZE /\
    gs !! Z.to_nat ((v - s.(next_virt)) / 4096) = Some (a / 4096) /\ used_in s (a / 4096) = false)).
Proof.
  intros Hv Ha. destruct (grown_split v Hv) as [Ho|Hn].
  - rewrite grown_old in Ha by done. destruct (grown_data v a Ho Ha) as (? & ? & _).
    split; [done|by left].
  - destruct (grown_new v Hn) as (g & Hg & Hd & Hu & E). rewrite E in Ha. injection Ha as <-.
    replace ((g * 4096 + v mod 4096) / 4096) with g by (Z.div_mod_to_equations; lia).
    split; [done|by right].
Qed.

Lemma grown_mapped : heap_mapped s'.
Proof.
  pose proof (al_next _ _ _ _ _ Hal) as Hn. pose proof (hm_next _ Hm) as Hr.
  pose proof (hm_align _ Hm) as Ha. unfold PAGE_SIZE in *. constructor.
  - apply Hal.
  - rewrite Hn. wsolve.
  - lia.
  - intros v a Hv E. rewrite rootof_grown. by apply grown_frame with v.
  - intros v w a b Hv Hw Ea Eb Eab.
    destruct (grown_frame v a Hv Ea) as [_ [(?&?&Hu)|(?&Hga&Hu)]],
      (grown_frame w b Hw Eb) as [_ [(?&?&Hu')|(?&Hgb&Hu')]]; try congruence.
    + by eapply (hm_inj _ Hm).
    + rewrite <-Eab in Hgb. destruct (al_run _ _ _ _ _ Hal) as [Hnd _].
      pose proof (NoDup_lookup _ _ _ _ Hnd Hga Hgb) as E.
      unfold vpn. f_equal. Z.div_mod_to_equations. lia.
Qed.

Lemma grown_words b :
  heap_word s' b = if in_pages s.(next_virt) count b then Some 0 else heap_word s b.
Proof.
  pose proof (al_next _ _ _ _ _ Hal) as Hn. pose proof (hm_next _ Hm) as Hr.
  pose proof (hm_align _ Hm) as Ha.
  destruct (in_pages s.(next_virt) count b) eqn:Ein; unfold in_pages in Ein.
  - assert (s.(next_virt) <= b < s.(next_virt) + count * PAGE_SIZE /\ b mod 8 = 0) as [Hb H8] by lia.
    rewrite heap_word_in; [|unfold in_heap; lia|done].
    destruct (grown_new b Hb) as (g & Hg & _ & _ & ->). f_equal.
    replace (g * 4096 + b mod 4096) with (g * 4096 + 8 * (b mod 4096 / 8)) by wsolve.
    apply (al_zero _ _ _ _ _ Hal eq_refl); [by eapply list_elem_of_lookup_2|unfold idx_ok; wsolve].
  - destruct (decide (in_heap s b /\ b mod 8 = 0)) as [[Hb H8]|Hb].
    + rewrite !heap_word_in; [|done|done|unfold in_heap in *; unfold PAGE_SIZE in *; lia|done].
      rewrite grown_old by done. destruct (translate s b) as [a|] eqn:E; [|done]. f_equal.
      destruct (word_of_frame b a H8 (translate_offset _ _ _ (hm_ready _ Hm) E)) as (i & Hi & -> & _).
      replace ((a / 4096 * 4096 + 8 * i) / 4096) with (a / 4096) in E by (unfold idx_ok in Hi; wsolve).
      destruct (grown_data b _ Hb E) as (_ & _ & Hw).
      replace ((a / 4096 * 4096 + 8 * i) / 4096) with (a / 4096) in Hw by (unfold idx_ok in Hi; wsolve).
      by apply Hw.
    + rewrite !heap_word_out; [done|done|]. unfold in_heap in *. lia.
Qed.
End grown.

(** A failed [vallocs] changes nothing that is mapped. *)
Lemma gave_up_heap s s' count :
  heap_mapped s -> s.(next_virt) + count * PAGE_SIZE <= heap_limit -> gave_up s s' count ->
  heap_mapped s' /\ s'.(next_virt) = s.(next_virt) /\ forall b, heap_word s' b = heap_word s b.
Proof.
  intros Hm Hl (Hr & Hc & Hn & Hk & Hreg & _ & k & Hk0 & Hx).
  assert (rootof s' = rootof s) as Hroot by (unfold rootof; by rewrite Hc).
  pose proof (hm_next _ Hm) as Hnx. pose proof (hm_align _ Hm) as Ha.
  assert (forall v, in_heap s v -> translate s' v = translate s v) as Ht.
  { intros v Hv. apply (Hx v). unfold in_heap, PAGE_SIZE in *.
    rewrite in_run_page; unfold PAGE_SIZE; lia. }
  assert (forall v a, in_heap s v -> translate s v = Some a ->
    data_frame s' (rootof s) (a / 4096) /\ same_data (rootof s) s s' (a / 4096)) as Hd.
  { intros v a Hv E. destruct (hm_data _ Hm v a Hv E) as (Hg & Hu & Hnt).
    destruct (Hk (a / 4096) ltac:(lia) Hu Hnt) as [Hu' Hs]. split; [|done].
    split_and!; [lia| |done|apply Hs]. rewrite (same_region_max _ _ Hreg). lia. }
  split_and!; [|done|].
  - constructor; rewrite ?Hroot, ?Hn; try done.
    + intros v a Hv. unfold in_heap in Hv. rewrite Hn in Hv. rewrite Ht by done. intros E.
      by apply (Hd v).
    + intros v w a b Hv Hw. unfold in_heap in Hv, Hw. rewrite Hn in Hv, Hw. rewrite !Ht by done.
      by apply (hm_inj _ Hm).
  - intros b. destruct (decide (in_heap s b /\ b mod 8 = 0)) as [[Hb H8]|Hb].
    + rewrite !heap_word_in; [|done|done|unfold in_heap; by rewrite Hn|done].
      rewrite Ht by done. destruct (translate s b) as [a|] eqn:E; [|done]. f_equal.
      destruct (Hd b a Hb E) as [_ [_ Hw]].
      destruct (word_of_frame b a H8 (translate_offset _ _ _ (hm_ready _ Hm) E)) as (i & Hi & -> & _).
      replace ((a / 4096 * 4096 + 8 * i) / 4096) with (a / 4096) in Hw by (unfold idx_ok in Hi; wsolve).
      by apply Hw.
    + rewrite !heap_word_out; [done|done|]. unfold in_heap in *. by rewrite Hn.
Qed.

(** ** Giving heap pages back *)

Section shrink.
Context (s : vmm) (a count : Z).
Context (Hm : heap_mapped s) (Hc : 0 < count) (Ha : 0 < a) (Hal : a mod PAGE_SIZE = 0).
Context (Hin : forall b, in_pages a count b = true -> is_Some (heap_word s b)).

Lemma shrink_page k :
  0 <= k < count -> exists g, in_heap s (a + k * 4096) /\ translate s (a + k * 4096) = Some (g * 4096).
Proof.
  intros Hk. destruct (Hin (a + k * 4096)) as [w Hw].
  { unfold in_pages, PAGE_SIZE in *. rewrite !andb_true_iff. split_and!; wsolve. }
  destruct (heap_word_some s _ w Hm Hw) as (Hh & _ & g & i & Ht & Hv & Hi & _).
  exists g. split; [done|]. rewrite Ht. f_equal. unfold PAGE_SIZE in Hal. unfold idx_ok in Hi. wsolve.
Qed.

Lemma shrink_run n : Z.of_nat n <= count ->
  exists gs, length gs = n /\ NoDup gs /\ forall k g, gs !! k = Some g ->
    in_heap s (a + Z.of_nat k * 4096) /\ translate s (a + Z.of_nat k * 4096) = Some (g * 4096).
Proof.
  induction n as [|n IH]; intros Hn.
  - exists []. split_and!; [done|constructor|]. intros k g Hk. by rewrite lookup_nil in Hk.
  - destruct IH as (gs & Hl & Hnd & Hgs); [lia|].
    destruct (shrink_page (Z.of_nat n)) as (g & Hh & Ht); [lia|].
    exists (gs ++ [g]). rewrite length_app. split_and!; [cbn; lia| |].
    + apply NoDup_app. split_and!; [done| |apply NoDup_singleton].
      intros h Hh1 Hh2. apply list_elem_of_singleton in Hh2 as ->.
      apply list_elem_of_lookup_1 in Hh1 as [k Hk]. destruct (Hgs k g Hk) as [Hh3 Ht3].
      pose proof (hm_inj _ Hm _ _ _ _ Hh3 Hh Ht3 Ht eq_refl) as E.
      apply (heap_vpn s) in E; [|apply Hm|done|done]. apply lookup_lt_Some in Hk.
      unfold PAGE_SIZE in Hal. Z.div_mod_to_equations. lia.
    + intros k h Hk. apply lookup_app_Some in Hk as [Hk|[Hlt Hk]]; [by apply Hgs|].
      apply list_lookup_singleton_Some in Hk as [Hk <-].
      replace k with n by lia. done.
Qed.

Lemma shrink_range : KHEAP_BASE <= a /\ a + count * 4096 <= s.(next_virt).
Proof.
  destruct (shrink_page 0) as (_ & H0 & _); [lia|].
  destruct (shrink_page (count - 1)) as (_ & H1 & _); [lia|]. unfold in_heap in *.
  pose proof (hm_align _ Hm). unfold PAGE_SIZE in Hal. Z.div_mod_to_equations. lia.
Qed.

(** The pages of [gs], mapped in order from [a] on. *)
Definition run_pages (gs : list Z) : Prop :=
  Z.of_nat (length gs) = count /\ NoDup gs /\ forall k g, gs !! k = Some g ->
    in_heap s (a + Z.of_nat k * 4096) /\ translate s (a + Z.of_nat k * 4096) = Some (g * 4096).

Lemma run_pages_mapped gs : run_pages gs -> mapped_run s (rootof s) a 0 gs.
Proof.
  intros (_ & Hnd & Hgs). split; [done|]. intros k g Hk. destruct (Hgs k g Hk) as [Hh Ht].
  pose proof (hm_data _ Hm _ _ Hh Ht) as Hd. rewrite Z.div_mul in Hd by lia. split; [done|].
  intros v Hv. rewrite Z.add_0_l in Hv. unfold page_at, PAGE_SIZE in Hv.
  rewrite translate_xlate in Ht by apply Hm. unfold xlate in *.
  assert (leaf (ram s) (rootof s) v = leaf (ram s) (rootof s) (a + Z.of_nat k * 4096)) as El.
  { unfold leaf, vpath. destruct (indexes_of_vpn v (a + Z.of_nat k * 4096)) as (-> & -> & -> & ->); done. }
  fold (rootof s) in Ht. rewrite El. unfold leaf_addr in *.
  destruct (leaf _ _ (a + Z.of_nat k * 4096)) as [e|]; [|done].
  destruct (present e); [|done]. injection Ht as Ht. f_equal. unfold PAGE_SIZE in Hal.
  rewrite mask_addr in *. wsolve.
Qed.

Lemma shrink_call :
  exists gs s', run_pages gs /\ vfrees a count s = Done (tt, s') /\ frees_post (rootof s) a 0 gs s s'.
Proof.
  destruct shrink_range as [Hlo Hhi]. pose proof (hm_next _ Hm) as Hnx. unfold heap_limit in Hnx.
  destruct (shrink_run (Z.to_nat count)) as (gs & Hl & Hnd & Hgs); [lia|].
  assert (Z.of_nat (length gs) = count) as Hcl by lia.
  destruct (vfrees_post s (rootof s) a gs eq_refl (hm_ready _ Hm)) as (s' & E & Hp).
  - unfold range_ok, page_at, PAGE_SIZE in *. rewrite Hcl. unfold KHEAP_BASE in Hlo. split_and!; lia.
  - by apply run_pages_mapped.
  - exists gs, s'. rewrite Hcl in E. by split_and!.
Qed.

Section shrunk.
Context (gs : list Z) (s' : vmm).
Context (Hgs : run_pages gs) (Hp : frees_post (rootof s) a 0 gs s s').

Lemma rootof_shrunk : rootof s' = rootof s.
Proof. unfold rootof. by rewrite (fr_cr3 _ _ _ _ _ _ Hp). Qed.

Lemma shrunk_ready : vmm_ready s'.
Proof. unfold vmm_ready. rewrite (fr_cr3 _ _ _ _ _ _ Hp). apply Hp. Qed.

Lemma shrunk_heap v : in_heap s' v <-> in_heap s v.
Proof. unfold in_heap. by rewrite (fr_next _ _ _ _ _ _ Hp). Qed.

Lemma shrunk_translate v :
  in_heap s v -> translate s' v = if decide (a <= v < a + count * 4096) then None else translate s v.
Proof.
  intros Hv. unfold in_heap in Hv. destruct shrink_range as [Hlo Hhi]. pose proof (hm_next _ Hm) as Hnx.
  pose proof (in_run_page a count v Hlo Hal) as Hrun. unfold PAGE_SIZE, heap_limit in *.
  destruct Hgs as [Hcl _].
  rewrite !translate_xlate by (apply shrunk_ready || apply Hm). rewrite (fr_cr3 _ _ _ _ _ _ Hp).
  case_decide as Hd; [apply (fr_gone _ _ _ _ _ _ Hp)|apply (fr_kept _ _ _ _ _ _ Hp)];
    rewrite Z.add_0_l, Hcl, Hrun; done || lia.
Qed.

Lemma shrunk_data v p :
  in_heap s v -> translate s' v = Some p ->
  translate s v = Some p /\ data_frame s' (rootof s) (p / 4096) /\
  same_data (rootof s) s s' (p / 4096).
Proof.
  intros Hv Ep. rewrite shrunk_translate in Ep by done. case_decide as Hnv; [done|].
  destruct (hm_data _ Hm v p Hv Ep) as (Hg & Hu & Hnt).
  destruct Hgs as (Hcl & _ & Hrun).
  assert (p / 4096 ∉ gs) as Hngs.
  { intros Hi. apply list_elem_of_lookup_1 in Hi as [k Hk]. destruct (Hrun k _ Hk) as [Hh Htk].
    assert (vpn v = vpn (a + Z.of_nat k * 4096)) as Ev.
    { eapply (hm_inj _ Hm); try done. by rewrite Z.div_mul. }
    apply (heap_vpn s) in Ev; [|apply Hm|done|done]. apply lookup_lt_Some in Hk.
    apply Hnv. unfold PAGE_SIZE in Hal. Z.div_mod_to_equations. lia. }
  destruct (fr_data _ _ _ _ _ _ Hp (p / 4096) ltac:(lia) Hngs Hu Hnt) as [Hnt' Hw].
  split; [done|]. split; [|done]. split_and!; [lia| | |done].
  - rewrite (same_region_max _ _ (fr_region _ _ _ _ _ _ Hp)). lia.
  - rewrite (fr_used _ _ _ _ _ _ Hp), Hu by lia. by rewrite bool_decide_eq_false_2.
Qed.

Lemma shrunk_mapped : heap_mapped s'.
Proof.
  constructor; rewrite ?rootof_shrunk, ?(fr_next _ _ _ _ _ _ Hp); try apply Hm; [apply shrunk_ready| |].
  - intros v p Hv Ep. apply shrunk_heap in Hv. by apply (shrunk_data v p).
  - intros v w p q Hv Hw Ep Eq. apply shrunk_heap in Hv, Hw.
    destruct (shrunk_data v p Hv Ep) as [? _], (shrunk_data w q Hw Eq) as [? _].
    by apply (hm_inj _ Hm).
Qed.

Lemma shrunk_words b : heap_word s' b = if in_pages a count b then None else heap_word s b.
Proof.
  destruct shrink_range as [Hlo Hhi].
  destruct (decide (in_heap s b /\ b mod 8 = 0)) as [[Hb H8]|Hb].
  - rewrite !heap_word_in; [|done|done|by apply shrunk_heap|done].
    unfold in_pages, PAGE_SIZE. rewrite shrunk_translate by done. case_decide as Hd'.
    + destruct (Z.leb_spec a b), (Z.ltb_spec b (a + count * 4096)), (Z.eqb_spec (b mod 8) 0); done || lia.
    + replace ((a <=? b) && (b <? a + count * 4096) && (b mod 8 =? 0)) with false by lia.
      destruct (translate s b) as [p|] eqn:Ep; [|done]. f_equal.
      destruct (shrunk_data b p Hb) as (_ & _ & _ & Hw); [by rewrite shrunk_translate, decide_False|].
      destruct (word_of_frame b p H8 (translate_offset _ _ _ (hm_ready _ Hm) Ep)) as (i & Hi & -> & _).
      replace ((p / 4096 * 4096 + 8 * i) / 4096) with (p / 4096) in Hw by (unfold idx_ok in Hi; wsolve).
      by apply Hw.
  - rewrite !heap_word_out; [by destruct (in_pages _ _ _)|done|]. by rewrite shrunk_heap.
Qed.
End shrunk.

Lemma heap_vfrees :
  exists s', vfrees a count s = Done (tt, s') /\ heap_mapped s' /\ s'.(next_virt) = s.(next_virt) /\
    forall b, heap_word s' b = if in_pages a count b then None else heap_word s b.
Proof.
  destruct shrink_call as (gs & s' & Hgs & E & Hp). exists s'.
  split_and!; [done|by eapply shrunk_mapped|apply Hp|by eapply shrunk_words].
Qed.
End shrink.

#[export] Instance vmm_mem_laws : KernelMemLaws vmm.
Proof.
  constructor.
  - intros s Hm. pose proof (hm_next _ Hm). pose proof (hm_align _ Hm).
    unfold KHEAP_BASE in *. cbn. unfold PAGE_SIZE. split; [lia|done].
  - intros s a w Hm Hw. destruct (heap_word_some s a w Hm Hw) as (Hh & H8 & _).
    unfold in_heap, KHEAP_BASE in Hh. cbn. split; [lia|done].
  - intros s a w x Hm Hw. by apply (heap_store s a w x).
  - intros s count Hm Hc Hl. cbn [vallocs_op vmm_mem].
    pose proof (hm_next _ Hm) as Hn. pose proof (hm_align _ Hm) as Ha. cbn in Hl.
    unfold KHEAP_BASE, heap_limit, PAGE_SIZE in *.
    pose proof (vallocs_result s true count (hm_ready _ Hm) Hc) as H.
    unfold range_ok, page_at, PAGE_SIZE in H.
    specialize (H ltac:(split_and!; [lia|done|lia|lia]) ltac:(lia)).
    destruct (vallocs true count s) as [[p s']| |]; [|done|done].
    destruct H as [[-> (gs & Hal)]|(-> & _ & Hg)].
    + split; [by eapply grown_mapped|]. right. split_and!; [done|exact (al_next _ _ _ _ _ Hal)|].
      by eapply grown_words.
    + destruct (gave_up_heap s s' count Hm) as (? & ? & ?); [by unfold heap_limit, PAGE_SIZE|done|].
      split; [done|by left].
  - intros s a count Hm Hc Ha Hal Hin. by apply heap_vfrees.
Qed.
