(* ===== verification/Kmalloc.v ===== *)
(** * The kernel heap ([kernel/lib/kmalloc.c])

    The first-fit allocator over a doubly linked list of chunks, on any memory
    that provides [KernelMem].  A chunk is four words at its address: state,
    length (header included), next and prev; pointers are their addresses and
    [NULL] is 0.  The three globals are the fields of [kheap]. *)

From S2P Require Import Prelude Pmm KernelMem.

Definition KMALLOC_STATE_FREE : Z := 0xA1A1A1A1.
Definition KMALLOC_STATE_USED : Z := 0xBFBFBFBF.
Definition KMALLOC_ALIGNMENT : Z := 16.
Definition KMALLOC_MIN_SPLIT : Z := 32.
(** [sizeof(kmalloc_chunk_t)] and the offsets of its fields. *)
Definition chunk_size : Z := 32.
Definition o_length : Z := 8.
Definition o_next : Z := 16.
Definition o_prev : Z := 24.

Record kheap (Sg : Type) := mk_kheap {
  head : Z;
  heap_start : Z;
  heap_end : Z;
  env : Sg;
}.
Arguments mk_kheap {Sg}.
Arguments head {Sg}.
Arguments heap_start {Sg}.
Arguments heap_end {Sg}.
Arguments env {Sg}.

Definition align_up (value alignment : Z) : Z :=
  Z.land (u64 (value + alignment - 1)) (u64 (Z.lnot (alignment - 1))).

Section kmalloc.
Context {Sg : Type} `{KernelMem Sg}.

Definition set_env (e : Sg) (s : kheap Sg) : kheap Sg :=
  mk_kheap s.(head) s.(heap_start) s.(heap_end) e.
Definition set_heap (h a b : Z) (s : kheap Sg) : kheap Sg := mk_kheap h a b s.(env).

(** Running an operation of the memory manager. *)
Definition lift {A : Type} (m : M Sg A) : M (kheap Sg) A := fun s =>
  match m s.(env) with
  | Done (a, e) => Done (a, set_env e s)
  | Panicked w => Panicked w
  | Fault => Fault
  end.

(** Reading a word; a page fault on memory that is not mapped. *)
Definition ld (a : Z) : M (kheap Sg) Z := fun s =>
  match vload s.(env) a with Some w => Done (w, s) | None => Fault end.
Definition st (a x : Z) : M (kheap Sg) unit := lift (vstore a x).

Definition kmalloc_init : M (kheap Sg) unit := modify (set_heap 0 0 0).

Definition kmerge_next (chunk : Z) : M (kheap Sg) unit :=
  if chunk =? 0 then mret tt else
  state ← ld chunk;
  if negb (state =? KMALLOC_STATE_FREE) then mret tt else
  next ← ld (chunk + o_next);
  if next =? 0 then mret tt else
  nstate ← ld next;
  if negb (nstate =? KMALLOC_STATE_FREE) then mret tt else
  len ← ld (chunk + o_length);
  nlen ← ld (next + o_length);
  _ ← st (chunk + o_length) (u64 (len + nlen));
  nnext ← ld (next + o_next);
  _ ← st (chunk + o_next) nnext;
  cnext ← ld (chunk + o_next);
  if negb (cnext =? 0) then st (cnext + o_prev) chunk else mret tt.

(** [while (last->next) last = last->next;] *)
Fixpoint last_chunk (fuel : nat) (last : Z) : M (kheap Sg) Z :=
  match fuel with
  | O => fault
  | S f =>
      next ← ld (last + o_next);
      if next =? 0 then mret last else last_chunk f next
  end.

(** A chunk takes at least its header, so the list is no longer than this. *)
Definition chain_fuel (s : kheap Sg) : nat :=
  S (Z.to_nat ((s.(heap_end) - s.(heap_start)) / chunk_size)).

(** [kmalloc_grow] on an empty heap. *)
Definition first_chunk (address bytes : Z) : M (kheap Sg) bool :=
  _ ← modify (set_heap address address (u64 (address + bytes)));
  _ ← st address KMALLOC_STATE_FREE;
  _ ← st (address + o_length) bytes;
  _ ← st (address + o_next) 0;
  _ ← st (address + o_prev) 0;
  mret true.

(** [kmalloc_grow] behind the last chunk. *)
Definition append_chunk (h address bytes : Z) : M (kheap Sg) bool :=
  fuel ← gets chain_fuel;
  last ← last_chunk fuel h;
  _ ← st address KMALLOC_STATE_FREE;
  _ ← st (address + o_length) bytes;
  _ ← st (address + o_next) 0;
  _ ← st (address + o_prev) last;
  _ ← st (last + o_next) address;
  _ ← modify (fun s => set_heap s.(head) s.(heap_start) (u64 (s.(heap_end) + bytes)) s);
  lstate ← ld last;
  _ ← (if lstate =? KMALLOC_STATE_FREE then kmerge_next last else mret tt);
  mret true.

Definition kmalloc_grow (size : Z) : M (kheap Sg) bool :=
  let bytes := align_up size PAGE_SIZE in
  let pages := bytes / PAGE_SIZE in
  address ← lift (vallocs_op true pages);
  if address =? 0 then mret false else
  h ← gets head;
  if h =? 0 then first_chunk address bytes else
  e ← gets heap_end;
  if negb (address =? e) then
    _ ← lift (vfrees_op address pages);
    mret false
  else append_chunk h address bytes.

Definition ksplit (chunk length : Z) : M (kheap Sg) unit :=
  let new_chunk := u64 (chunk + length) in
  _ ← st new_chunk KMALLOC_STATE_FREE;
  len ← ld (chunk + o_length);
  _ ← st (new_chunk + o_length) (u64 (len - length));
  _ ← st (new_chunk + o_prev) chunk;
  next ← ld (chunk + o_next);
  _ ← st (new_chunk + o_next) next;
  next' ← ld (chunk + o_next);
  _ ← (if negb (next' =? 0) then st (next' + o_prev) new_chunk else mret tt);
  _ ← st (chunk + o_next) new_chunk;
  st (chunk + o_length) length.

(** The search loop of [kmalloc]: 0 when no free chunk is long enough. *)
Fixpoint find_chunk (fuel : nat) (required chunk : Z) : M (kheap Sg) Z :=
  match fuel with
  | O => fault
  | S f =>
      if chunk =? 0 then mret 0 else
      state ← ld chunk;
      len ← ld (chunk + o_length);
      if (state =? KMALLOC_STATE_FREE) && (required <=? len) then mret chunk
      else next ← ld (chunk + o_next); find_chunk f required next
  end.

Definition search (required : Z) : M (kheap Sg) Z :=
  fuel ← gets (fun s => S (chain_fuel s));
  h ← gets head;
  find_chunk fuel required h.

(** The part of [kmalloc] after a chunk was found. *)
Definition take_chunk (chunk required : Z) : M (kheap Sg) Z :=
  len ← ld (chunk + o_length);
  _ ← (if u64 (u64 (required + chunk_size) + KMALLOC_MIN_SPLIT) <=? len
       then ksplit chunk required else mret tt);
  _ ← st chunk KMALLOC_STATE_USED;
  mret (u64 (chunk + chunk_size)).

Definition kmalloc (size0 : Z) : M (kheap Sg) Z :=
  if size0 =? 0 then mret 0 else
  let size := align_up size0 KMALLOC_ALIGNMENT in
  let required := u64 (size + chunk_size) in
  chunk ← search required;
  if chunk =? 0 then
    let grow_size := if required <? 16 * PAGE_SIZE then 16 * PAGE_SIZE else required in
    ok ← kmalloc_grow grow_size;
    if negb ok then mret 0 else
    chunk ← search required;
    if chunk =? 0 then mret 0 else take_chunk chunk required
  else take_chunk chunk required.

(** [memset(ptr, 0, n)] of an aligned block, a word at a time. *)
Definition memset_zero (ptr n : Z) : M (kheap Sg) unit :=
  _ ← for_upM (Z.to_nat (n / 8)) 0 (fun i => st (ptr + 8 * i) 0);
  let r := 8 * (n mod 8) in
  if r =? 0 then mret tt
  else
    let a := ptr + 8 * (n / 8) in
    w ← ld a; st a (Z.shiftl (Z.shiftr w r) r).

(** [size] is an [int]; both calls convert it back to 64 bits. *)
Definition kcalloc (num_of_items len_of_items : Z) : M (kheap Sg) Z :=
  if (num_of_items =? 0) || (len_of_items =? 0) then mret 0 else
  let size := s32 (u64 (num_of_items * len_of_items)) in
  ptr ← kmalloc (u64 size);
  _ ← memset_zero ptr (u64 size);
  mret ptr.

Definition kfree (ptr : Z) : M (kheap Sg) unit :=
  if ptr =? 0 then mret tt else
  let chunk := u64 (ptr - chunk_size) in
  state ← ld chunk;
  if negb (state =? KMALLOC_STATE_USED) then mret tt else
  _ ← st chunk KMALLOC_STATE_FREE;
  prev ← ld (chunk + o_prev);
  _ ← (if negb (prev =? 0) then kmerge_next prev else mret tt);
  kmerge_next chunk.
End kmalloc.
