(* ===== verification/Chain.v ===== *)
(** * The list of heap chunks

    A heap as a list of blocks laid end to end, and its representation by the
    doubly linked chunk headers of [kmalloc.c] in a word memory. *)

From S2P Require Import Prelude Pmm KernelMem Kmalloc.

Record block := Blk { b_len : Z; b_used : bool }.

Definition block_ok (b : block) : Prop := 32 <= b.(b_len) /\ b.(b_len) mod 16 = 0.

Definition state_of (b : block) : Z :=
  if b.(b_used) then KMALLOC_STATE_USED else KMALLOC_STATE_FREE.

Fixpoint size (bs : list block) : Z :=
  match bs with [] => 0 | b :: bs' => b.(b_len) + size bs' end.

Lemma size_app l r : size (l ++ r) = size l + size r.
Proof. induction l as [|b l IH]; cbn; [done|]. rewrite IH. lia. Qed.

Lemma size_nonneg l : Forall block_ok l -> 0 <= size l.
Proof. induction 1 as [|b l [] _ IH]; cbn; lia. Qed.

Lemma size_count l : Forall block_ok l -> 32 * Z.of_nat (length l) <= size l.
Proof. induction 1 as [|b l [] _ IH]; cbn [size length]; lia. Qed.

Lemma size_mod l : Forall block_ok l -> size l mod 16 = 0.
Proof. induction 1 as [|b l [] _ IH]; cbn; [done|]. Z.div_mod_to_equations. lia. Qed.

(** The header of block [b] at [a]. *)
Definition hdr (m : Z -> option Z) (a : Z) (b : block) (next prev : Z) : Prop :=
  m a = Some (state_of b) /\ m (a + o_length) = Some b.(b_len) /\
  m (a + o_next) = Some next /\ m (a + o_prev) = Some prev.

(** [a] when there is a block at [a], otherwise [nx]. *)
Definition first_or (a : Z) (l : list block) (nx : Z) : Z :=
  match l with [] => nx | _ => a end.

(** The address of the last block, or [p] when there is none. *)
Fixpoint last_addr (a p : Z) (l : list block) : Z :=
  match l with [] => p | b :: l' => last_addr (a + b.(b_len)) a l' end.

(** The blocks [bs] from [a] on, linked with each other, the first with [p]
    and the last with [nx]. *)
Fixpoint chain (m : Z -> option Z) (a p : Z) (bs : list block) (nx : Z) : Prop :=
  match bs with
  | [] => True
  | b :: bs' =>
      block_ok b /\ hdr m a b (first_or (a + b.(b_len)) bs' nx) p /\
      chain m (a + b.(b_len)) a bs' nx
  end.

Lemma first_or_app a l r nx :
  first_or a (l ++ r) nx = first_or a l (first_or (a + size l) r nx).
Proof. destruct l as [|b l]; [|done]. cbn. by rewrite Z.add_0_r. Qed.

Lemma first_or_ne a l nx : l <> [] -> first_or a l nx = a.
Proof. by destruct l. Qed.

Lemma first_or_snoc a l z nx : first_or a (l ++ [z]) nx = a.
Proof. by destruct l. Qed.

Lemma chain_app m l r : forall a p nx,
  chain m a p (l ++ r) nx <->
  chain m a p l (first_or (a + size l) r nx) /\ chain m (a + size l) (last_addr a p l) r nx.
Proof.
  induction l as [|b l IH]; intros a p nx; cbn.
  { rewrite Z.add_0_r. tauto. }
  rewrite IH, first_or_app. replace (a + b_len b + size l) with (a + (b_len b + size l)) by lia.
  tauto.
Qed.

Lemma last_addr_app a p l b : last_addr a p (l ++ [b]) = a + size l.
Proof. revert a p. induction l as [|c l IH]; intros a p; cbn; [lia|]. rewrite IH. lia. Qed.

Lemma last_addr_cons a p q b l : last_addr a p (b :: l) = last_addr a q (b :: l).
Proof. done. Qed.

Lemma chain_blocks m a p l nx : chain m a p l nx -> Forall block_ok l.
Proof. revert a p. induction l as [|b l IH]; intros a p; cbn; [constructor|]. intros (?&?&?). constructor; eauto. Qed.

Lemma chain_frame m m' l : forall a p nx,
  (forall x, a <= x < a + size l -> m' x = m x) -> chain m a p l nx -> chain m' a p l nx.
Proof.
  induction l as [|b l IH]; intros a p nx Hm; cbn [chain]; [done|].
  intros (Hb & (H1 & H2 & H3 & H4) & Hc). cbn [size] in Hm.
  pose proof (size_nonneg l (chain_blocks _ _ _ _ _ Hc)). destruct Hb as [Hb1 Hb2].
  split; [done|]. split.
  - unfold hdr, o_length, o_next, o_prev in *. rewrite !Hm by lia. done.
  - apply IH; [|done]. intros x Hx. apply Hm. lia.
Qed.

(** Replacing the back link of the first block. *)
Lemma chain_set_prev m m' a p p' l nx :
  (forall x, a <= x < a + size l -> x <> a + o_prev -> m' x = m x) ->
  (l <> [] -> m' (a + o_prev) = Some p') -> chain m a p l nx -> chain m' a p' l nx.
Proof.
  destruct l as [|b l]; [done|]. intros Hm Hp (Hb & (H1 & H2 & H3 & H4) & Hc).
  pose proof (size_nonneg l (chain_blocks _ _ _ _ _ Hc)). cbn [size] in Hm. pose proof Hb as [Hb1 Hb2].
  split; [done|]. split.
  - unfold hdr, o_length, o_next, o_prev in *. rewrite !Hm by lia. split_and!; try done. by apply Hp.
  - apply (chain_frame m); [|done]. intros x Hx. apply Hm; unfold o_prev; lia.
Qed.

Lemma chain_snoc m a p l z nx :
  chain m a p (l ++ [z]) nx <->
  chain m a p l (a + size l) /\ block_ok z /\ hdr m (a + size l) z nx (last_addr a p l).
Proof. rewrite chain_app. cbn. tauto. Qed.

(** A block in the middle. *)
Lemma chain_mid m a p l c r nx :
  chain m a p (l ++ c :: r) nx <->
  chain m a p l (a + size l) /\ block_ok c /\
  hdr m (a + size l) c (first_or (a + size l + c.(b_len)) r nx) (last_addr a p l) /\
  chain m (a + size l + c.(b_len)) (a + size l) r nx.
Proof. rewrite chain_app. done. Qed.

(** The words of the payloads in use. *)
Fixpoint live (a : Z) (bs : list block) (x : Z) : bool :=
  match bs with
  | [] => false
  | b :: bs' =>
      (b.(b_used) && (a + 32 <=? x) && (x <? a + b.(b_len))) || live (a + b.(b_len)) bs' x
  end.

Lemma live_app l r : forall a x, live a (l ++ r) x = live a l x || live (a + size l) r x.
Proof.
  induction l as [|b l IH]; intros a x; cbn; [by rewrite Z.add_0_r|].
  rewrite IH, orb_assoc. by replace (a + b_len b + size l) with (a + (b_len b + size l)) by lia.
Qed.

Lemma live_range l : forall a x, Forall block_ok l -> live a l x = true -> a + 32 <= x < a + size l.
Proof.
  induction l as [|b l IH]; intros a x Hl; cbn; [done|].
  apply Forall_cons in Hl as [[Hb _] Hl]. pose proof (size_nonneg l Hl).
  rewrite orb_true_iff, !andb_true_iff. intros [[[_ ?] ?]|Hx]; [lia|].
  specialize (IH _ _ Hl Hx). lia.
Qed.

(** ** First fit on blocks *)

Definition fits (required : Z) (b : block) : bool := negb b.(b_used) && (required <=? b.(b_len)).

(** The blocks before the first free block of at least [required] bytes. *)
Fixpoint first_fit (required : Z) (bs : list block) : option (list block * block * list block) :=
  match bs with
  | [] => None
  | b :: bs' =>
      if fits required b then Some ([], b, bs')
      else match first_fit required bs' with
           | Some (l, c, r) => Some (b :: l, c, r)
           | None => None
           end
  end.

Lemma first_fit_some required bs l c r :
  first_fit required bs = Some (l, c, r) ->
  bs = l ++ c :: r /\ fits required c = true /\ Forall (fun b => fits required b = false) l.
Proof.
  revert l. induction bs as [|b bs IH]; intros l; cbn; [done|].
  destruct (fits required b) eqn:E.
  - intros [= <- <- <-]. done.
  - destruct (first_fit required bs) as [[[l' c'] r']|]; [|done]. intros [= <- <- <-].
    destruct (IH l' eq_refl) as (-> & ? & ?). split_and!; [done|done|by constructor].
Qed.

Lemma first_fit_none required bs :
  first_fit required bs = None -> Forall (fun b => fits required b = false) bs.
Proof.
  induction bs as [|b bs IH]; cbn; [constructor|].
  destruct (fits required b) eqn:E; [done|].
  destruct (first_fit required bs) as [[[l' c'] r']|]; [done|]. intros _. constructor; auto.
Qed.

Lemma first_fit_app_l required l c r :
  Forall (fun b => fits required b = false) l -> fits required c = true ->
  first_fit required (l ++ c :: r) = Some (l, c, r).
Proof.
  induction 1 as [|b l Hb _ IH]; intros Hc; cbn; [by rewrite Hc|]. by rewrite Hb, IH.
Qed.

(** What [take_chunk] makes of the chosen block. *)
Definition carve (required : Z) (c : block) : list block :=
  if required + 64 <=? c.(b_len) then [Blk required true; Blk (c.(b_len) - required) false]
  else [Blk c.(b_len) true].

(** [kmerge_next] on blocks: a free block absorbs a free successor. *)
Definition merge1 (bs : list block) : list block :=
  match bs with
  | c :: d :: r =>
      if negb c.(b_used) && negb d.(b_used) then Blk (c.(b_len) + d.(b_len)) false :: r else bs
  | _ => bs
  end.

Lemma state_free b : state_of b = KMALLOC_STATE_FREE <-> b.(b_used) = false.
Proof. unfold state_of. by destruct (b_used b). Qed.

Lemma state_used b : state_of b = KMALLOC_STATE_USED <-> b.(b_used) = true.
Proof. unfold state_of. by destruct (b_used b). Qed.

(** The heap after [kmalloc_grow] added [n] bytes at its end. *)
Fixpoint grow_blocks (bs : list block) (n : Z) : list block :=
  match bs with
  | [] => [Blk n false]
  | [z] => merge1 [z; Blk n false]
  | z :: bs' => z :: grow_blocks bs' n
  end.

Lemma grow_blocks_snoc l z n : grow_blocks (l ++ [z]) n = l ++ merge1 [z; Blk n false].
Proof. induction l as [|c l IH]; [done|]. cbn. rewrite IH. by destruct l. Qed.

Lemma merge1_size bs : size (merge1 bs) = size bs.
Proof. destruct bs as [|c [|d r]]; [done..|]. cbn. destruct (_ && _); cbn; lia. Qed.

Lemma grow_blocks_size bs n : size (grow_blocks bs n) = size bs + n.
Proof.
  destruct bs as [|b bs _] using rev_ind; [cbn; lia|].
  rewrite grow_blocks_snoc, !size_app, merge1_size. cbn. lia.
Qed.

Lemma grow_blocks_nonempty bs n : grow_blocks bs n <> [].
Proof.
  destruct bs as [|b bs _] using rev_ind; [done|]. rewrite grow_blocks_snoc.
  destruct bs; [|done]. cbn. by destruct (_ && _).
Qed.

(** [align_up] to a power of two rounds up. *)
Lemma align_up_pow k v :
  0 <= k < 64 -> 0 <= v -> v + 2 ^ k - 1 < 2 ^ 64 ->
  align_up v (2 ^ k) = (v + 2 ^ k - 1) / 2 ^ k * 2 ^ k.
Proof.
  intros Hk Hv Hb. pose proof (Z.pow_pos_nonneg 2 k ltac:(lia) ltac:(lia)). unfold align_up.
  assert (u64 (v + 2 ^ k - 1) = v + 2 ^ k - 1) as -> by (unfold u64; rewrite Z.mod_small; lia).
  assert (u64 (Z.lnot (2 ^ k - 1)) = Z.shiftl (Z.ones (64 - k)) k) as ->.
  { unfold u64, Z.lnot. rewrite Z.shiftl_mul_pow2, Z.ones_equiv by lia.
    replace (- (2 ^ k - 1) - 1) with (- 2 ^ k) by lia.
    assert (2 ^ 64 = 2 ^ (64 - k) * 2 ^ k) as E by (rewrite <-Z.pow_add_r by lia; f_equal; lia).
    assert (2 ^ k < 2 ^ 64) by (apply Z.pow_lt_mono_r; lia).
    symmetry. apply (Z.mod_unique_pos _ _ (-1)); lia. }
  set (w := v + 2 ^ k - 1).
  assert (Z.land w (Z.shiftl (Z.ones (64 - k)) k) = Z.shiftl (Z.land (Z.shiftr w k) (Z.ones (64 - k))) k) as ->.
  { apply Z.bits_inj'. intros n Hn. rewrite Z.land_spec, !Z.shiftl_spec by lia.
    destruct (decide (n < k)).
    - rewrite !(Z.testbit_neg_r _ (n - k)) by lia. by rewrite andb_false_r.
    - by rewrite Z.land_spec, Z.shiftr_spec, Z.sub_add by lia. }
  rewrite Z.land_ones, Z.shiftl_mul_pow2, Z.shiftr_div_pow2 by lia. f_equal.
  apply Z.mod_small. split; [apply Z.div_pos; lia|].
  apply Z.div_lt_upper_bound; [lia|]. rewrite <-Z.pow_add_r by lia.
  replace (k + (64 - k)) with 64 by lia. lia.
Qed.

Lemma align_up_page v : 0 <= v -> v + 4095 < 2 ^ 64 -> align_up v PAGE_SIZE = (v + 4095) / 4096 * 4096.
Proof. intros. change PAGE_SIZE with (2 ^ 12). rewrite align_up_pow by lia. by replace (v + 2 ^ 12 - 1) with (v + 4095) by lia. Qed.

Lemma align_up_16 v : 0 <= v -> v + 15 < 2 ^ 64 -> align_up v KMALLOC_ALIGNMENT = (v + 15) / 16 * 16.
Proof. intros. change KMALLOC_ALIGNMENT with (2 ^ 4). rewrite align_up_pow by lia. by replace (v + 2 ^ 4 - 1) with (v + 15) by lia. Qed.

(** A heap grown by enough bytes has a fit. *)
Lemma grown_fits required bs n :
  Forall block_ok bs -> required <= n -> first_fit required (grow_blocks bs n) <> None.
Proof.
  intros Hok Hn Hnone. apply first_fit_none in Hnone. revert Hnone.
  destruct bs as [|z l _] using rev_ind.
  - cbn. rewrite Forall_singleton. unfold fits. cbn. lia.
  - rewrite grow_blocks_snoc, Forall_app. intros [_ Hl]. revert Hl. cbn.
    apply Forall_app in Hok as [_ Hz]. apply Forall_cons in Hz as [[Hz _] _].
    destruct (b_used z); cbn; rewrite ?Forall_cons; unfold fits; cbn; lia.
Qed.

Lemma first_fit_region required bs l c r :
  first_fit required bs = Some (l, c, r) ->
  bs = l ++ [c] ++ r /\ c.(b_used) = false /\ required <= c.(b_len).
Proof.
  intros E. apply first_fit_some in E as (-> & Hf & _). unfold fits in Hf.
  split; [done|]. destruct (b_used c); cbn in Hf; [done|]. split; [done|lia].
Qed.

(** Growing changes no payload in use. *)
Lemma live_grow a bs n x : live a (grow_blocks bs n) x = live a bs x.
Proof.
  destruct bs as [|z l _] using rev_ind; [done|].
  rewrite grow_blocks_snoc, !live_app. f_equal. cbn.
  destruct (b_used z) eqn:Hz; cbn; rewrite ?Hz; cbn; by rewrite ?orb_false_r.
Qed.

(** What the caller of [kmalloc] sees: [n] fresh bytes at [p]. *)
Record fresh_at (a : Z) (bs bs' : list block) (p n : Z) : Prop := {
  fa_align : p mod 16 = 0;
  fa_fresh : forall x, p <= x < p + n -> live a bs x = false /\ live a bs' x = true;
  fa_keeps : forall x, live a bs x = true -> live a bs' x = true;
}.

(** [required] for a request of [n] bytes. *)
Definition required_of (n : Z) : Z := (n + 15) / 16 * 16 + 32.

(** How far the break may move. *)
Definition grow_bytes (required : Z) : Z :=
  ((if required <? 65536 then 65536 else required) + 4095) / 4096 * 4096.

(** The heap after a successful request, with the offset of its payload. *)
Definition alloc_in (required : Z) (bs : list block) : option (list block * Z) :=
  match first_fit required bs with
  | Some (l, c, r) => Some (l ++ carve required c ++ r, size l + 32)
  | None => None
  end.

Definition alloc (required : Z) (bs : list block) : option (list block * Z) :=
  match alloc_in required bs with
  | Some res => Some res
  | None => alloc_in required (grow_blocks bs (grow_bytes required))
  end.
