(* ===== verification/KmallocFacts.v ===== *)
(** * The heap operations on the list of blocks

    Each chunk operation of [Kmalloc] against its effect on the list of blocks
    of [Chain], on any memory with the [KernelMem] laws. *)

From S2P Require Import Prelude Pmm KernelMem Kmalloc Chain.

(** ** Memories as functions *)

Definition upd (f : Z -> option Z) (a x : Z) : Z -> option Z :=
  fun y => if decide (y = a) then Some x else f y.

Lemma upd_eq f a x y : y = a -> upd f a x y = Some x.
Proof. intros. unfold upd. by rewrite decide_True. Qed.
Lemma upd_ne f a x y : y <> a -> upd f a x y = f y.
Proof. intros. unfold upd. by rewrite decide_False. Qed.

(** [if (nx) nx->prev = q;] *)
Definition relink (f : Z -> option Z) (nx q : Z) : Z -> option Z :=
  if nx =? 0 then f else upd f (nx + o_prev) q.

Lemma relink_ne f nx q y : (nx <> 0 -> y <> nx + o_prev) -> relink f nx q y = f y.
Proof. intros. unfold relink. destruct (Z.eqb_spec nx 0); [done|]. by apply upd_ne, H. Qed.
Lemma relink_some f nx q y : is_Some (f y) -> is_Some (relink f nx q y).
Proof. intros Hy. unfold relink, upd. destruct (nx =? 0); [done|]. case_decide; [by eexists|done]. Qed.
Lemma relink_eq f nx q y : nx <> 0 -> y = nx + o_prev -> relink f nx q y = Some q.
Proof. intros ? ->. unfold relink. destruct (Z.eqb_spec nx 0); [done|]. by apply upd_eq. Qed.

(** Read a word of a memory that is a tower of updates. *)
Ltac upd_tac :=
  repeat first [rewrite upd_eq by (unfold o_length, o_next, o_prev in *; lia)
               |rewrite upd_ne by (unfold o_length, o_next, o_prev in *; lia)
               |rewrite relink_ne by (unfold o_length, o_next, o_prev in *; lia)].

(** A heap of blocks [bs] from [a] on in the memory [f]. *)
Record heap_at (f : Z -> option Z) (a : Z) (bs : list block) : Prop := {
  ha_chain : chain f a 0 bs 0;
  ha_addr : 0 < a /\ a mod 16 = 0 /\ a + size bs <= heap_limit;
  ha_mapped : forall x, a <= x < a + size bs -> x mod 8 = 0 -> is_Some (f x);
}.

(** Nothing outside the heap and no payload in use has changed. *)
Definition heap_frame (a : Z) (bs : list block) (f f' : Z -> option Z) : Prop :=
  (forall x, is_Some (f x) -> is_Some (f' x)) /\
  forall x w, f x = Some w -> x < a \/ a + size bs <= x \/ live a bs x = true -> f' x = Some w.

Lemma heap_frame_refl a bs f : heap_frame a bs f f.
Proof. done. Qed.

Lemma heap_frame_trans a bs bs' f g h :
  size bs' = size bs -> (forall x, live a bs x = true -> live a bs' x = true) ->
  heap_frame a bs f g -> heap_frame a bs' g h -> heap_frame a bs f h.
Proof.
  intros Hs Hl [d1 e1] [d2 e2]. split; [auto|]. intros x w Hw Hx. apply e2; [by apply e1|].
  rewrite Hs. naive_solver.
Qed.

Lemma heap_blocks f a bs : heap_at f a bs -> Forall block_ok bs.
Proof. intros Hh. eapply chain_blocks, Hh. Qed.

(** An update inside the heap and outside the payloads in use. *)
Lemma frame_upd a bs f g y x :
  heap_frame a bs f g -> a <= y < a + size bs -> live a bs y = false ->
  heap_frame a bs f (upd g y x).
Proof.
  intros [d e] Hy Hl. split.
  - intros z Hz. unfold upd. case_decide; [by eexists|auto].
  - intros z w Hw Hz. rewrite upd_ne; [by apply e|]. intros ->. destruct Hz as [|[|]]; [lia|lia|congruence].
Qed.

(** No payload in use meets the middle blocks [cs] when they are free. *)
Definition unused (cs : list block) : Prop := Forall (fun c => c.(b_used) = false) cs.

Lemma live_unused cs : forall a x, unused cs -> live a cs x = false.
Proof.
  induction cs as [|c cs IH]; intros a x; cbn; [done|].
  intros [Hc Hcs]%Forall_cons. rewrite Hc. cbn. by apply IH.
Qed.

Lemma live_mid a l cs r x :
  Forall block_ok (l ++ cs ++ r) -> a + size l <= x < a + size l + size cs ->
  live a (l ++ cs ++ r) x = live (a + size l) cs x.
Proof.
  intros Hb Hx. rewrite !Forall_app in Hb. destruct Hb as (Hl & Hc & Hr).
  rewrite !live_app.
  destruct (live a l x) eqn:E1; [apply live_range in E1; [lia|done]|].
  destruct (live (a + size l + size cs) r x) eqn:E2; [apply live_range in E2; [lia|done]|].
  by rewrite orb_false_r.
Qed.

(** The header of a block is in no payload. *)
Lemma live_hdr a l c r x :
  Forall block_ok (l ++ c :: r) -> a + size l <= x < a + size l + 32 -> live a (l ++ c :: r) x = false.
Proof.
  intros Hb Hx. pose proof Hb as Hb'. apply Forall_app in Hb' as [_ Hb']. apply Forall_cons in Hb' as [[] _].
  change (l ++ c :: r) with (l ++ [c] ++ r) in *. rewrite live_mid by (done || cbn; lia). cbn.
  destruct (Z.leb_spec (a + size l + 32) x); [lia|]. by rewrite andb_false_r.
Qed.

Section facts.
Context {Sg : Type} `{KM : KernelMemLaws Sg}.

Definition globals (s : kheap Sg) : Z * Z * Z := (s.(head), s.(heap_start), s.(heap_end)).

(** The state has globals [g], break [b] and memory [f]. *)
Definition at_mem (g : Z * Z * Z) (b : Z) (f : Z -> option Z) (s : kheap Sg) : Prop :=
  globals s = g /\ kinv s.(env) /\ brk s.(env) = b /\ forall x, vload s.(env) x = f x.

Lemma ld_at g b f s a w : at_mem g b f s -> f a = Some w -> ld a s = Done (w, s).
Proof. intros (_ & _ & _ & Hf) Ha. unfold ld. by rewrite Hf, Ha. Qed.

Lemma st_at g b f s a x :
  at_mem g b f s -> is_Some (f a) ->
  exists s', st a x s = Done (tt, s') /\ at_mem g b (upd f a x) s'.
Proof.
  intros (Hg & Hk & Hb & Hf) [w Hw].
  destruct (km_store s.(env) a w x Hk) as (e & E & Hk' & Hb' & Hv); [by rewrite Hf|].
  exists (set_env e s). unfold st, lift. rewrite E. split; [done|]. split_and!; try done.
  - cbn. congruence.
  - intros y. cbn. rewrite Hv. unfold upd. case_decide; [done|]. apply Hf.
Qed.

Lemma bind_ld {A : Type} g b f s a w (k : Z -> M (kheap Sg) A) :
  at_mem g b f s -> f a = Some w -> (ld a ≫= k) s = k w s.
Proof. intros Hm Hw. apply bind_eq. by eapply ld_at. Qed.

(** A store followed by [k]: it is enough to follow [k] on the updated memory. *)
Lemma bind_st {A : Type} g b f s a x (k : unit -> M (kheap Sg) A) (Q : outcome (A * kheap Sg) -> Prop) :
  at_mem g b f s -> is_Some (f a) ->
  (forall s', at_mem g b (upd f a x) s' -> Q (k tt s')) -> Q ((st a x ≫= k) s).
Proof.
  intros Hm Ha Hk. destruct (st_at g b f s a x Hm Ha) as (s' & E & Hm').
  rewrite (bind_eq _ _ _ _ _ E). by apply Hk.
Qed.

Lemma run_st g b f s a x (Q : outcome (unit * kheap Sg) -> Prop) :
  at_mem g b f s -> is_Some (f a) ->
  (forall s', at_mem g b (upd f a x) s' -> Q (Done (tt, s'))) -> Q (st a x s).
Proof.
  intros Hm Ha Hk. destruct (st_at g b f s a x Hm Ha) as (s' & -> & Hm'). by apply Hk.
Qed.

Lemma bind_relink {A : Type} g b f s nx q (k : unit -> M (kheap Sg) A)
    (Q : outcome (A * kheap Sg) -> Prop) :
  at_mem g b f s -> (nx <> 0 -> is_Some (f (nx + o_prev))) ->
  (forall s', at_mem g b (relink f nx q) s' -> Q (k tt s')) ->
  Q (((if negb (nx =? 0) then st (nx + o_prev) q else mret tt) ≫= k) s).
Proof.
  intros Hm Ha Hk. unfold relink in Hk. destruct (Z.eqb_spec nx 0) as [->|Hn]; cbn [negb].
  - rewrite (bind_eq _ _ s tt s eq_refl). by apply Hk.
  - eapply bind_st; [exact Hm|by apply Ha|exact Hk].
Qed.

Lemma bind_ret_r {S A : Type} (m : M S A) s : (m ≫= mret) s = m s.
Proof. unfold mbind, M_bind. by destruct (m s) as [[? ?]| |]. Qed.

Lemma run_relink g b f s nx q (Q : outcome (unit * kheap Sg) -> Prop) :
  at_mem g b f s -> (nx <> 0 -> is_Some (f (nx + o_prev))) ->
  (forall s', at_mem g b (relink f nx q) s' -> Q (Done (tt, s'))) ->
  Q ((if negb (nx =? 0) then st (nx + o_prev) q else mret tt) s).
Proof.
  intros Hm Ha Hk. rewrite <-bind_ret_r. eapply bind_relink; [done|done|].
  intros s' Hm'. by apply Hk.
Qed.

(** The outcome is a state with these globals and break whose heap at [a]
    holds [bs'], reached without touching what [heap_frame] protects. *)
Definition heap_post {A : Type} (g : Z * Z * Z) (b a : Z) (bs bs' : list block) (f : Z -> option Z)
    (R : A -> Prop) (r : outcome (A * kheap Sg)) : Prop :=
  exists v s' f', r = Done (v, s') /\ R v /\ at_mem g b f' s' /\ heap_at f' a bs' /\
    heap_frame a bs f f'.

Lemma upd_some f a x y : is_Some (f y) -> is_Some (upd f a x y).
Proof. intros Hy. unfold upd. case_decide; [by eexists|done]. Qed.

(** ** The middle of a heap *)

Section mid.
Context (f : Z -> option Z) (a : Z) (l cs r : list block).
Context (Hh : heap_at f a (l ++ cs ++ r)).
Let p := a + size l.
Let e := p + size cs.

Lemma mid_ok : Forall block_ok l /\ Forall block_ok cs /\ Forall block_ok r.
Proof. pose proof (heap_blocks _ _ _ Hh) as Hb. rewrite !Forall_app in Hb. tauto. Qed.

Lemma mid_range :
  a <= p /\ p <= e /\ e + size r = a + size (l ++ cs ++ r) /\ 0 <= size r /\
  p mod 16 = 0 /\ 16 <= p /\ a + size (l ++ cs ++ r) <= heap_limit.
Proof.
  pose proof mid_ok as (Hl & Hc & Hr). pose proof (size_mod l Hl).
  pose proof (size_nonneg l Hl). pose proof (size_nonneg cs Hc). pose proof (size_nonneg r Hr).
  pose proof (ha_addr _ _ _ Hh) as (A1 & A2 & A3). unfold e, p. rewrite !size_app in *.
  split_and!; try lia; Z.div_mod_to_equations; lia.
Qed.

Lemma mid_mapped k : 0 <= k < size cs -> k mod 8 = 0 -> is_Some (f (p + k)).
Proof.
  intros Hk H8. pose proof mid_range. apply (ha_mapped _ _ _ Hh); [unfold e in *; lia|].
  Z.div_mod_to_equations. lia.
Qed.

Lemma mid_chain :
  chain f p (last_addr a 0 l) cs (first_or e r 0).
Proof.
  pose proof (ha_chain _ _ _ Hh) as Hc. rewrite !chain_app in Hc. by destruct Hc as (_ & Hc & _).
Qed.

(** Rebuilding a heap whose memory agrees with [f] away from the middle and
    the back link of the block after it. *)
Lemma mid_rebuild f' bs' q :
  cs <> [] ->
  (forall x, a <= x < p -> f' x = f x) ->
  (forall x, e <= x < a + size (l ++ cs ++ r) -> x <> e + o_prev -> f' x = f x) ->
  (r <> [] -> f' (e + o_prev) = Some q) ->
  bs' <> [] -> size bs' = size cs ->
  chain f' p (last_addr a 0 l) bs' (first_or e r 0) ->
  q = last_addr p (last_addr a 0 l) bs' ->
  (forall x, is_Some (f x) -> is_Some (f' x)) ->
  heap_at f' a (l ++ bs' ++ r).
Proof.
  intros Hcs Hl Hr Hq Hne Hs Hmid -> Hd. pose proof (ha_addr _ _ _ Hh) as (A1 & A2 & A3).
  pose proof mid_range as Hrg. pose proof (ha_chain _ _ _ Hh) as Hc. rewrite !chain_app in Hc.
  destruct Hc as (Cl & _ & Cr).
  assert (size (l ++ bs' ++ r) = size (l ++ cs ++ r)) as Hsz by (rewrite !size_app; lia).
  constructor; [|by rewrite Hsz|].
  - apply chain_app. split.
    + destruct bs', cs; try done. apply (chain_frame f); [|exact Cl]. intros x Hx. apply Hl. unfold p. lia.
    + apply chain_app. rewrite Hs. split; [done|].
      apply (chain_set_prev f _ _ (last_addr (a + size l) (last_addr a 0 l) cs)); [|done|done].
      intros x Hx Hn. apply Hr; [unfold e, p in *; lia|done].
  - intros x Hx H8. rewrite Hsz in Hx. by apply Hd, (ha_mapped _ _ _ Hh).
Qed.

(** Changes confined to the unused middle and the header after it are framed. *)
Lemma mid_upd f' y x :
  unused cs -> heap_frame a (l ++ cs ++ r) f f' ->
  p <= y < e \/ (r <> [] /\ y = e + o_prev) ->
  heap_frame a (l ++ cs ++ r) f (upd f' y x).
Proof.
  intros Hu Hf Hy. pose proof mid_range as Hrg. pose proof (heap_blocks _ _ _ Hh) as Hok.
  destruct Hy as [Hy|[Hr ->]].
  - apply frame_upd; [done|lia|]. rewrite live_mid; [by apply live_unused|done|unfold e in *; lia].
  - pose proof mid_ok as (_ & _ & Hr'). destruct r as [|d r']; [done|].
    apply Forall_cons in Hr' as [[Hd _] Hr'']. pose proof (size_nonneg _ Hr'').
    cbn [size] in Hrg. unfold o_prev.
    apply frame_upd; [done|lia|]. revert Hok. rewrite app_assoc. intros Hok.
    apply live_hdr; [done|]. rewrite size_app. unfold e, p. lia.
Qed.

Lemma mid_relink f' q :
  unused cs -> heap_frame a (l ++ cs ++ r) f f' ->
  heap_frame a (l ++ cs ++ r) f (relink f' (first_or e r 0) q).
Proof.
  intros Hu Hf. unfold relink. destruct (Z.eqb_spec (first_or e r 0) 0) as [_|Hn]; [done|].
  apply mid_upd; [done|done|right]. destruct r; cbn in *; [lia|done].
Qed.

Lemma mid_next :
  (first_or e r 0 = 0 <-> r = []) /\ (first_or e r 0 <> 0 -> first_or e r 0 = e) /\
  (first_or e r 0 <> 0 -> is_Some (f (e + o_prev))).
Proof.
  pose proof mid_range. pose proof (ha_chain _ _ _ Hh) as Hc. rewrite !chain_app in Hc.
  destruct Hc as (_ & _ & Hc). destruct r as [|d r']; cbn; split_and!; try done.
  - split; [lia|done].
  - intros _. destruct Hc as (_ & (_ & _ & _ & Hp) & _). by eexists.
Qed.
End mid.

(** ** Splitting *)

Section split.
Context (g : Z * Z * Z) (b : Z) (f : Z -> option Z) (a : Z) (l : list block) (c : block) (r : list block).
Context (Hh : heap_at f a (l ++ [c] ++ r)).
Let p := a + size l.

Lemma ksplit_post L s :
  at_mem g b f s -> c.(b_used) = false -> 32 <= L <= c.(b_len) - 32 -> L mod 16 = 0 ->
  heap_post g b a (l ++ [c] ++ r) (l ++ [Blk L false; Blk (c.(b_len) - L) false] ++ r) f
    (fun _ => True) (ksplit p L s).
Proof.
  intros Hm Hu HL H16. pose proof (mid_range _ _ _ _ _ Hh) as (R1 & R2 & R3 & R4 & R5 & R6 & R7).
  pose proof (mid_ok _ _ _ _ _ Hh) as (_ & Hc & _). apply Forall_cons in Hc as [[Hc1 Hc2] _].
  unfold heap_limit in R7. pose proof (mid_chain _ _ _ _ _ Hh) as (_ & (H1 & H2 & H3 & H4) & _).
  pose proof (mid_mapped _ _ _ _ _ Hh) as Hmp. pose proof (mid_next _ _ _ _ _ Hh) as (Hnz & Hnx & Hnm).
  cbn [size first_or] in *. rewrite Z.add_0_r in *. fold p in R1, R2, R3, R5, R6, H1, H2, H3, H4, Hmp, Hnz, Hnx, Hnm.
  unfold ksplit. replace (u64 (p + L)) with (p + L) by wsolve. cbv zeta.
  assert (forall k, 0 <= k < 32 -> k mod 8 = 0 -> is_Some (f (p + L + k))) as Hnew.
  { intros k Hk Hk8. rewrite <-Z.add_assoc. apply Hmp; [lia|]. Z.div_mod_to_equations. lia. }
  pose proof (Hnew 0 ltac:(lia) eq_refl) as N0. rewrite Z.add_0_r in N0.
  pose proof (Hnew 8 ltac:(lia) eq_refl) as N1. pose proof (Hnew 16 ltac:(lia) eq_refl) as N2.
  pose proof (Hnew 24 ltac:(lia) eq_refl) as N3.
  apply (bind_st g b f); [done|done|]. intros s1 M1.
  rewrite (bind_ld g b _ _ _ (b_len c) _ M1) by (upd_tac; done).
  replace (u64 (b_len c - L)) with (b_len c - L) by wsolve.
  eapply bind_st; [exact M1|by repeat apply upd_some|]. intros s2 M2.
  eapply bind_st; [exact M2|by repeat apply upd_some|]. intros s3 M3.
  rewrite (bind_ld g b _ _ _ _ _ M3) by (upd_tac; exact H3).
  eapply bind_st; [exact M3|by repeat apply upd_some|]. intros s4 M4.
  rewrite (bind_ld g b _ _ _ _ _ M4) by (upd_tac; exact H3).
  set (nx := first_or (p + b_len c) r 0) in *.
  eapply bind_relink; [exact M4| |].
  { intros Hn. repeat apply upd_some. rewrite Hnx by done. by apply Hnm. }
  intros s5 M5.
  eapply bind_st; [exact M5|apply relink_some; repeat apply upd_some; by eexists|]. intros s6 M6.
  eapply run_st; [exact M6|apply upd_some, relink_some; repeat apply upd_some; by eexists|]. intros s7 M7.
  eexists tt, s7, _. split; [done|]. split; [done|]. split; [exact M7|]. split.
  - apply (mid_rebuild f a l [c] r Hh _ [_; _] (p + L)); cbn [size]; rewrite ?Z.add_0_r; fold p; try done.
    + intros x Hx. by upd_tac.
    + intros x Hx Hn. unfold o_prev in Hn. by upd_tac.
    + intros Hr. assert (nx <> 0) by (by rewrite Hnz). upd_tac.
      rewrite relink_eq; [done|done|]. by rewrite Hnx.
    + cbn. lia.
    + cbn. unfold hdr. fold nx. replace (p + L + (b_len c - L)) with (p + b_len c) by lia.
      split_and!; try done; try (cbn; lia); upd_tac; try done; cbn; try done.
      * split; cbn; lia.
      * rewrite H1. unfold state_of. by rewrite Hu.
      * split; cbn; [lia|]. Z.div_mod_to_equations. lia.
    + intros x Hx. repeat first [apply upd_some|apply relink_some]. done.
  - assert (unused [c]) as Hus by (by repeat constructor).
    pose proof (fun f' q => mid_relink f a l [c] r Hh f' q Hus) as Hrl.
    cbn [size] in Hrl. rewrite Z.add_0_r in Hrl. fold p nx in Hrl.
    repeat first [apply Hrl|apply (mid_upd f a l [c] r Hh);
        [done| |left; cbn [size]; fold p; unfold o_length, o_next, o_prev; lia]]. done.
Qed.
End split.

(** ** Merging *)

Lemma heap_same {A : Type} g b f a bs s (v : A) (R : A -> Prop) :
  at_mem g b f s -> heap_at f a bs -> R v -> heap_post g b a bs bs f R (Done (v, s)).
Proof. intros Hm Hh HR. exists v, s, f. split_and!; try done. Qed.

(** The memory after two free chunks were merged. *)
Definition merged_mem (f : Z -> option Z) (p : Z) (c d : block) (nx : Z) : Z -> option Z :=
  relink (upd (upd f (p + o_length) (c.(b_len) + d.(b_len))) (p + o_next) nx) nx p.

Section merge.
Context (g : Z * Z * Z) (b : Z) (f : Z -> option Z) (a : Z) (l : list block) (c d : block) (r : list block).
Context (Hh : heap_at f a (l ++ [c; d] ++ r)).
Context (Hu : c.(b_used) = false) (Hv : d.(b_used) = false).
Let p := a + size l.
Let nx := first_or (p + (c.(b_len) + d.(b_len))) r 0.

Lemma kmerge_free_run s :
  at_mem g b f s ->
  exists s', kmerge_next p s = Done (tt, s') /\ at_mem g b (merged_mem f p c d nx) s'.
Proof.
  intros Hm. pose proof (mid_range _ _ _ _ _ Hh) as (R1 & R2 & R3 & R4 & R5 & R6 & R7).
  pose proof (mid_ok _ _ _ _ _ Hh) as (_ & Hc & _).
  rewrite !Forall_cons in Hc. destruct Hc as ([Hc1 Hc2] & [Hd1 Hd2] & _).
  unfold heap_limit in R7. pose proof (mid_chain _ _ _ _ _ Hh) as (_ & (H1 & H2 & H3 & H4) & (_ & (K1 & K2 & K3 & _) & _)).
  pose proof (mid_next _ _ _ _ _ Hh) as (Hnz & Hnx & Hnm).
  cbn [size first_or] in *. rewrite Z.add_0_r in *.
  replace (a + size l + b_len c + b_len d) with (a + size l + (b_len c + b_len d)) in * by lia.
  fold p in R1, R2, R3, R5, R6, H1, H2, H3, H4, K1, K2, K3, Hnz, Hnx, Hnm. fold nx in Hnz, Hnx, Hnm, K3.
  unfold kmerge_next. destruct (Z.eqb_spec p 0); [lia|].
  rewrite (bind_ld _ _ _ _ _ _ _ Hm H1), (proj2 (state_free c) Hu). cbn [negb Z.eqb].
  change (negb (KMALLOC_STATE_FREE =? KMALLOC_STATE_FREE)) with false. cbv iota.
  rewrite (bind_ld _ _ _ _ _ _ _ Hm H3). destruct (Z.eqb_spec (p + b_len c) 0); [lia|].
  rewrite (bind_ld _ _ _ _ _ _ _ Hm K1), (proj2 (state_free d) Hv).
  change (negb (KMALLOC_STATE_FREE =? KMALLOC_STATE_FREE)) with false. cbv iota.
  rewrite (bind_ld _ _ _ _ _ _ _ Hm H2), (bind_ld _ _ _ _ _ _ _ Hm K2).
  replace (u64 (b_len c + b_len d)) with (b_len c + b_len d) by wsolve.
  eapply bind_st; [exact Hm|by eexists|]. intros s1 M1.
  rewrite (bind_ld _ _ _ _ _ _ _ M1) by (upd_tac; exact K3).
  eapply bind_st; [exact M1|by apply upd_some; eexists|]. intros s2 M2.
  rewrite (bind_ld _ _ _ _ _ _ _ M2) by (by upd_tac).
  eapply run_relink; [exact M2|intros Hn; do 2 apply upd_some; rewrite Hnx by done; by apply Hnm|].
  intros s3 M3. by exists s3.
Qed.

Lemma merged_heap :
  heap_at (merged_mem f p c d nx) a (l ++ [Blk (c.(b_len) + d.(b_len)) false] ++ r) /\
  heap_frame a (l ++ [c; d] ++ r) f (merged_mem f p c d nx).
Proof.
  pose proof (mid_range _ _ _ _ _ Hh) as (R1 & R2 & R3 & R4 & R5 & R6 & R7).
  pose proof (mid_ok _ _ _ _ _ Hh) as (_ & Hc & _).
  rewrite !Forall_cons in Hc. destruct Hc as ([Hc1 Hc2] & [Hd1 Hd2] & _).
  pose proof (mid_chain _ _ _ _ _ Hh) as (_ & (H1 & H2 & H3 & H4) & _).
  pose proof (mid_next _ _ _ _ _ Hh) as (Hnz & Hnx & Hnm).
  pose proof (fun f' q => mid_relink f a l [c; d] r Hh f' q ltac:(by repeat constructor)) as Hrl.
  cbn [size first_or] in *. rewrite Z.add_0_r in *.
  replace (a + size l + b_len c + b_len d) with (a + size l + (b_len c + b_len d)) in * by lia.
  fold p in R1, R2, R3, R5, R6, H1, H2, H3, H4, Hnz, Hnx, Hnm. fold p nx in Hnz, Hnx, Hnm, Hrl.
  split.
  - apply (mid_rebuild f a l [c; d] r Hh _ [_] p); cbn [size b_len]; rewrite ?Z.add_0_r; fold p; unfold merged_mem; try done.
    + intros x Hx. by upd_tac.
    + intros x Hx Hn. unfold o_prev in Hn. by upd_tac.
    + intros Hr. assert (nx <> 0) by (by rewrite Hnz). rewrite relink_eq; [done|done|]. by rewrite Hnx.
    + cbn. fold nx. unfold hdr. split_and!; try done; upd_tac; try done.
      * split; cbn; [lia|]. Z.div_mod_to_equations. lia.
      * by rewrite H1, (proj2 (state_free c) Hu).
    + intros x Hx. by apply relink_some, upd_some, upd_some.
  - assert (unused [c; d]) as Hus by (by repeat constructor).
    apply Hrl. repeat (apply (mid_upd f a l [c; d] r Hh);
        [done| |left; cbn [size]; fold p; unfold o_length, o_next, o_prev; lia]). done.
Qed.

Lemma kmerge_free s :
  at_mem g b f s ->
  heap_post g b a (l ++ [c; d] ++ r) (l ++ [Blk (c.(b_len) + d.(b_len)) false] ++ r) f
    (fun _ => True) (kmerge_next p s).
Proof.
  intros Hm. destruct (kmerge_free_run s Hm) as (s' & E & M'). exists tt, s', (merged_mem f p c d nx).
  split_and!; try done; apply merged_heap.
Qed.
End merge.

Lemma kmerge_post g b f a l c r s :
  heap_at f a (l ++ c :: r) -> at_mem g b f s ->
  heap_post g b a (l ++ c :: r) (l ++ merge1 (c :: r)) f (fun _ => True) (kmerge_next (a + size l) s).
Proof.
  intros Hh Hm. pose proof (heap_same (A:=unit) g b f a _ s tt (fun _ => True) Hm Hh I) as Hsame.
  pose proof (mid_range f a l [c] r Hh) as (_ & _ & _ & _ & _ & R6 & _).
  pose proof (ha_chain _ _ _ Hh) as Hc. apply chain_mid in Hc as (_ & _ & (H1 & _ & H3 & _) & Hc).
  destruct (b_used c) eqn:Hu.
  { unfold kmerge_next. destruct (Z.eqb_spec (a + size l) 0); [lia|].
    rewrite (bind_ld _ _ _ _ _ _ _ Hm H1), (proj2 (state_used c) Hu). cbn.
    destruct r as [|d r]; cbn; [done|]. by rewrite Hu. }
  destruct r as [|d r].
  { unfold kmerge_next. destruct (Z.eqb_spec (a + size l) 0); [lia|].
    rewrite (bind_ld _ _ _ _ _ _ _ Hm H1), (proj2 (state_free c) Hu). cbn.
    by rewrite (bind_ld _ _ _ _ _ _ _ Hm H3). }
  cbn [merge1]. rewrite Hu. destruct (b_used d) eqn:Hv; cbn [negb andb].
  - destruct Hc as (_ & (K1 & _) & _). unfold kmerge_next. destruct (Z.eqb_spec (a + size l) 0); [lia|].
    rewrite (bind_ld _ _ _ _ _ _ _ Hm H1), (proj2 (state_free c) Hu). cbn.
    rewrite (bind_ld _ _ _ _ _ _ _ Hm H3). cbn.
    destruct (Z.eqb_spec (a + size l + b_len c) 0); [done|].
    by rewrite (bind_ld _ _ _ _ _ _ _ Hm K1), (proj2 (state_used d) Hv).
  - by apply (kmerge_free g b f a l c d r Hh Hu Hv).
Qed.

(** ** The heap of a state *)

(** The heap of [s] holds the blocks [bs] from [a] on; an empty heap will
    start where [vallocs] allocates next. *)
Record heap_rep (a : Z) (bs : list block) (s : kheap Sg) : Prop := {
  hr_inv : kinv s.(env);
  hr_heap : heap_at (vload s.(env)) a bs;
  hr_globals : globals s = (first_or a bs 0, first_or a bs 0, first_or (a + size bs) bs 0);
  hr_brk : a + size bs <= brk s.(env);
  hr_empty : bs = [] -> a = brk s.(env);
}.

Lemma rep_at a bs s :
  heap_rep a bs s -> at_mem (globals s) (brk s.(env)) (vload s.(env)) s.
Proof. intros []. by split_and!. Qed.

Lemma heap_at_ext f f' a bs : (forall x, f' x = f x) -> heap_at f a bs -> heap_at f' a bs.
Proof.
  intros He [h1 h2 h3]. constructor; [|done|].
  - eapply chain_frame; [|exact h1]. intros. apply He.
  - intros x Hx H8. rewrite He. by apply h3.
Qed.

(** A state reached within the heap's own range. *)
Lemma at_rep a bs bs' f s s' :
  heap_rep a bs s -> at_mem (globals s) (brk s.(env)) f s' -> heap_at f a bs' ->
  size bs' = size bs -> bs <> [] -> bs' <> [] -> heap_rep a bs' s'.
Proof.
  intros [r1 r2 r3 r4 r5] (Hg & Hk & Hb & Hf) Hh Hs Hn Hn'. constructor.
  - done.
  - by eapply heap_at_ext.
  - rewrite Hg, r3, Hs. by destruct bs, bs'.
  - by rewrite Hb, Hs.
  - done.
Qed.

Lemma rep_fuel a bs s : heap_rep a bs s -> (length bs < chain_fuel s)%nat.
Proof.
  intros [r1 r2 r3 r4 r5]. unfold chain_fuel, chunk_size. unfold globals in r3. injection r3 as _ -> ->.
  pose proof (size_count bs (heap_blocks _ _ _ r2)). destruct bs as [|c bs]; [cbn; lia|].
  cbn [first_or]. replace (a + size (c :: bs) - a) with (size (c :: bs)) by lia.
  assert (Z.of_nat (length (c :: bs)) <= size (c :: bs) / 32) by (Z.div_mod_to_equations; lia). lia.
Qed.

(** ** Searching *)

Lemma find_chunk_eq g b f s required r : forall fuel x p,
  at_mem g b f s -> chain f x p r 0 -> 0 < x -> (length r < fuel)%nat ->
  find_chunk fuel required (first_or x r 0) s =
    Done (match first_fit required r with Some (l, _, _) => x + size l | None => 0 end, s).
Proof.
  induction r as [|c r IH]; intros fuel x p Hm Hc Hx Hl; (destruct fuel as [|fuel]; [cbn in Hl; lia|]).
  - done.
  - destruct Hc as (Hok & (H1 & H2 & H3 & _) & Hc). cbn [find_chunk first_or first_fit].
    destruct (Z.eqb_spec x 0); [lia|].
    rewrite (bind_ld _ _ _ _ _ _ _ Hm H1), (bind_ld _ _ _ _ _ _ _ Hm H2).
    assert ((state_of c =? KMALLOC_STATE_FREE) = negb (b_used c)) as ->.
    { unfold state_of. by destruct (b_used c). }
    fold (fits required c). destruct (fits required c) eqn:E; [by rewrite Z.add_0_r|].
    rewrite (bind_ld _ _ _ _ _ _ _ Hm H3). destruct Hok as [Hok _].
    rewrite (IH fuel (x + b_len c) x) by (done || (cbn in Hl; lia)).
    destruct (first_fit required r) as [[[l d] r']|]; [|done]. do 2 f_equal. cbn. lia.
Qed.

Lemma search_eq a bs s required :
  heap_rep a bs s ->
  search required s =
    Done (match first_fit required bs with Some (l, _, _) => a + size l | None => 0 end, s).
Proof.
  intros Hr. pose proof (rep_fuel _ _ _ Hr) as Hf. pose proof (rep_at _ _ _ Hr) as Hm.
  destruct Hr as [r1 r2 r3 r4 r5]. unfold search.
  rewrite (bind_eq _ _ _ (S (chain_fuel s)) s eq_refl), (bind_eq _ _ _ (head s) s eq_refl).
  assert (head s = first_or a bs 0) as -> by (unfold globals in r3; congruence).
  eapply find_chunk_eq; [exact Hm|apply r2|apply r2|lia].
Qed.

Lemma last_chunk_eq g b f s l z : forall fuel x p,
  at_mem g b f s -> chain f x p (l ++ [z]) 0 -> 0 < x -> (length l < fuel)%nat ->
  last_chunk fuel x s = Done (x + size l, s).
Proof.
  induction l as [|c l IH]; intros fuel x p Hm Hc Hx Hl; (destruct fuel as [|fuel]; [cbn in Hl; lia|]).
  - destruct Hc as (_ & (_ & _ & H3 & _) & _). cbn in H3. cbn [last_chunk].
    rewrite (bind_ld _ _ _ _ _ _ _ Hm H3). cbn. by rewrite Z.add_0_r.
  - destruct Hc as ((Hok & _) & (_ & _ & H3 & _) & Hc). cbn [last_chunk].
    rewrite (bind_ld _ _ _ _ _ _ _ Hm H3).
    assert (first_or (x + b_len c) (l ++ [z]) 0 = x + b_len c) as -> by (by destruct l).
    destruct (Z.eqb_spec (x + b_len c) 0); [lia|].
    rewrite (IH fuel _ x) by (done || (cbn in Hl; lia)). do 2 f_equal. cbn. lia.
Qed.

(** ** Growing *)

Lemma bind_lift {A B : Type} (m : M Sg A) (k : A -> M (kheap Sg) B) s :
  (lift m ≫= k) s = match m s.(env) with
                    | Done (v, e) => k v (set_env e s)
                    | Panicked w => Panicked w
                    | Fault => Fault
                    end.
Proof. unfold mbind, M_bind, lift. by destruct (m (env s)) as [[? ?]| |]. Qed.

(** The memory after [n] pages were added at [p]. *)
Definition with_pages (f : Z -> option Z) (p n : Z) : Z -> option Z :=
  fun x => if in_pages p n x then Some 0 else f x.

Lemma with_pages_in f p n x :
  p <= x < p + n * PAGE_SIZE -> x mod 8 = 0 -> is_Some (with_pages f p n x).
Proof. intros Hx H8. unfold with_pages, in_pages. replace (_ && _) with true by lia. by eexists. Qed.

Lemma with_pages_out f p n x : x < p -> with_pages f p n x = f x.
Proof. intros Hx. unfold with_pages, in_pages. by replace (_ && _) with false by lia. Qed.

Lemma with_pages_some f p n x : is_Some (f x) -> is_Some (with_pages f p n x).
Proof. unfold with_pages. destruct (in_pages _ _ _); [by eexists|done]. Qed.

Lemma set_heap_at g b f s h x y : at_mem g b f s -> at_mem (h, x, y) b f (set_heap h x y s).
Proof. intros (_ & ? & ? & ?). by split_and!. Qed.

Definition grow_result (a : Z) (bs : list block) (bytes : Z) (s : kheap Sg)
    (r : outcome (bool * kheap Sg)) : Prop :=
  match r with
  | Done (true, s') => heap_rep a (grow_blocks bs bytes) s' /\ a + size bs = brk s.(env) /\
      heap_frame a bs (vload s.(env)) (vload s'.(env))
  | Done (false, s') => heap_rep a bs s' /\ forall x, vload s'.(env) x = vload s.(env) x
  | Panicked _ => True
  | Fault => False
  end.

Section grow.
Context (a : Z) (s : kheap Sg) (n : Z).
Context (Hn : 0 < n).
Let bytes := n * PAGE_SIZE.
Let f := vload s.(env).

(** The header words of the new region. *)
Lemma new_words p k : 0 <= k < 32 -> k mod 8 = 0 -> p mod 16 = 0 ->
  is_Some (with_pages f p n (p + k)).
Proof. intros Hk H8 Hp. apply with_pages_in; [unfold PAGE_SIZE; lia|]. Z.div_mod_to_equations. lia. Qed.

(** Words mapped before lie below the break. *)
Lemma mapped_below x w : kinv s.(env) -> f x = Some w -> x < brk s.(env).
Proof. intros Hk Hw. by destruct (km_range _ _ _ Hk Hw) as [[? ?] _]. Qed.

Lemma first_heap s1 p :
  heap_rep a [] s -> p = brk s.(env) -> p + bytes <= heap_limit ->
  at_mem (globals s) (p + bytes) (with_pages f p n) s1 ->
  grow_result a [] bytes s (first_chunk p bytes s1).
Proof.
  intros [r1 r2 r3 r4 r5] Hp Hl M0. pose proof (r5 eq_refl) as Ha.
  assert (a = p) as -> by congruence. clear Ha.
  pose proof (ha_addr _ _ _ r2) as (A1 & A2 & A3). cbn [size] in A3. unfold heap_limit in Hl.
  pose proof (new_words p 0 ltac:(lia) eq_refl A2) as N0. rewrite Z.add_0_r in N0.
  unfold first_chunk. rewrite (bind_eq _ _ s1 tt (set_heap p p (u64 (p + bytes)) s1) eq_refl).
  replace (u64 (p + bytes)) with (p + bytes) by (unfold bytes, PAGE_SIZE in *; wsolve).
  pose proof (set_heap_at _ _ _ _ p p (p + bytes) M0) as M1.
  eapply bind_st; [exact M1|done|]. intros s2 M2.
  eapply bind_st; [exact M2|by apply upd_some, new_words|]. intros s3 M3.
  eapply bind_st; [exact M3|by do 2 apply upd_some; apply new_words|]. intros s4 M4.
  eapply bind_st; [exact M4|by do 3 apply upd_some; apply new_words|]. intros s5 (Hg & Hk & Hb & Hf).
  cbn [grow_result grow_blocks mret M_ret]. split.
  - constructor; cbn [size first_or b_len]; rewrite ?Z.add_0_r.
    + done.
    + eapply heap_at_ext; [exact Hf|]. constructor.
      * cbn. unfold hdr. split_and!; try done; upd_tac; try done.
        split; cbn; unfold bytes, PAGE_SIZE; [lia|Z.div_mod_to_equations; lia].
      * cbn [size b_len]. rewrite Z.add_0_r. done.
      * intros x Hx H8. repeat apply upd_some. apply with_pages_in; [|done].
        cbn [size b_len] in Hx. unfold bytes in *. lia.
    + done.
    + lia.
    + done.
  - cbn [size]. split; [lia|]. split.
    + intros x Hx. rewrite Hf. repeat apply upd_some. by apply with_pages_some.
    + intros x w Hw _. pose proof (mapped_below x w r1 Hw) as Hx. rewrite Hf. upd_tac.
      rewrite with_pages_out by lia. done.
Qed.

(** [if (last->state == FREE) kmerge_next(last);] *)
Lemma merge_last g b f0 p0 l z d t :
  heap_at f0 p0 (l ++ z :: [d]) -> at_mem g b f0 t -> d.(b_used) = false ->
  heap_post g b p0 (l ++ z :: [d]) (l ++ merge1 [z; d]) f0 (fun _ => True)
    ((if state_of z =? KMALLOC_STATE_FREE then kmerge_next (p0 + size l) else mret tt) t).
Proof.
  intros Hh Hm Hd. destruct (Z.eqb_spec (state_of z) KMALLOC_STATE_FREE) as [Hzf|Hzu].
  - by apply kmerge_post.
  - rewrite state_free in Hzu. assert (merge1 [z; d] = [z; d]) as ->.
    { cbn. destruct (b_used z); [done|]. by destruct Hzu. }
    by apply heap_same.
Qed.

(** Appending a chunk to a heap that ends at the break. *)
Section contiguous.
Context (l : list block) (z : block) (p : Z).
Context (Hr : heap_rep a (l ++ [z]) s).
Context (Hpe : p = a + size (l ++ [z])) (Hp : p = brk s.(env)) (Hl : p + bytes <= heap_limit).
Let q := a + size l.
Let new := Blk bytes false.

Definition appended : Z -> option Z :=
  upd (upd (upd (upd (upd (with_pages f p n) p KMALLOC_STATE_FREE)
    (p + o_length) bytes) (p + o_next) 0) (p + o_prev) q) (q + o_next) p.

Lemma contiguous_facts :
  0 < a /\ a <= q /\ q + z.(b_len) = p /\ 32 <= z.(b_len) /\ p mod 16 = 0 /\ p + bytes <= heap_limit /\
  block_ok z /\ bytes = n * PAGE_SIZE.
Proof.
  pose proof (hr_heap _ _ _ Hr) as Hh. pose proof (ha_addr _ _ _ Hh) as (A1 & A2 & A3).
  pose proof (heap_blocks _ _ _ Hh) as Hok. pose proof (size_mod _ Hok) as Hsm.
  apply Forall_app in Hok as [Hlo Hz]. apply Forall_cons in Hz as [Hz _].
  pose proof (size_nonneg l Hlo). pose proof Hz as [Hz1 Hz2].
  assert (q + b_len z = p) by (rewrite Hpe, size_app; unfold q; cbn; lia).
  unfold q in *. split_and!; try done; try lia. rewrite Hpe. Z.div_mod_to_equations. lia.
Qed.

Lemma appended_old x : x < q \/ q + 32 <= x -> x < p -> appended x = f x.
Proof.
  intros Hx Hxp. pose proof contiguous_facts. unfold appended. upd_tac. by apply with_pages_out.
Qed.

Lemma appended_last : hdr appended q z p (last_addr a 0 l).
Proof.
  pose proof contiguous_facts. pose proof (ha_chain _ _ _ (hr_heap _ _ _ Hr)) as Hc.
  apply chain_snoc in Hc as (_ & _ & (H1 & H2 & _ & H4)). fold q f in H1, H2, H4.
  unfold hdr, appended. split_and!; upd_tac; try done;
    by rewrite with_pages_out by (unfold o_length, o_next, o_prev in *; lia).
Qed.

Lemma appended_heap : heap_at appended a (l ++ z :: [new]).
Proof.
  pose proof contiguous_facts as (F1 & F2 & F3 & F4 & F5 & F6 & F7 & F8).
  pose proof (hr_heap _ _ _ Hr) as Hh. pose proof (ha_addr _ _ _ Hh) as (A1 & A2 & A3).
  pose proof (ha_chain _ _ _ Hh) as Hc. apply chain_snoc in Hc as (Cl & _ & _).
  assert (size (l ++ z :: [new]) = p + bytes - a) as Hsz.
  { rewrite size_app. cbn [size b_len new]. unfold q in F3. lia. }
  constructor.
  - apply chain_mid. fold q. rewrite F3. split_and!.
    + eapply chain_frame; [|exact Cl]. intros x Hx. apply appended_old; unfold q; lia.
    + done.
    + apply appended_last.
    + cbn. unfold hdr, appended. split_and!; try done; try (upd_tac; done).
      split; cbn; rewrite F8; unfold PAGE_SIZE; [lia|Z.div_mod_to_equations; lia].
  - rewrite Hsz. split_and!; [done|done|lia].
  - rewrite Hsz. intros x Hx H8. unfold appended. repeat apply upd_some.
    destruct (decide (x < p)); [|apply with_pages_in; [lia|done]].
    rewrite with_pages_out by done. apply (ha_mapped _ _ _ Hh); [|done]. rewrite <-Hpe. lia.
Qed.

Lemma appended_frame f8 :
  heap_frame a (l ++ z :: [new]) appended f8 -> heap_frame a (l ++ [z]) f f8.
Proof.
  pose proof contiguous_facts as (F1 & F2 & F3 & F4 & F5 & F6 & F7 & F8).
  pose proof (heap_blocks _ _ _ (hr_heap _ _ _ Hr)) as Hok.
  intros [Hd8 He8]. split.
  - intros x Hx. apply Hd8. unfold appended. repeat apply upd_some. by apply with_pages_some.
  - intros x w Hw Hx. pose proof (mapped_below x w (hr_inv _ _ _ Hr) Hw) as Hxp.
    rewrite <-Hp in Hxp. rewrite <-Hpe in Hx.
    assert (x < a \/ live a (l ++ [z]) x = true) as Hx' by (destruct Hx as [|[|]]; [by left|lia|by right]).
    assert (x < q \/ q + 32 <= x).
    { destruct Hx' as [|Hx']; [lia|]. destruct (decide (q <= x < q + 32)) as [Hq|]; [|lia].
      by rewrite live_hdr in Hx'. }
    apply He8; [by rewrite appended_old|]. destruct Hx' as [|Hx']; [by left|]. right. right.
    replace (l ++ z :: [new]) with ((l ++ [z]) ++ [new]) by by rewrite <-app_assoc.
    rewrite live_app. by rewrite Hx'.
Qed.

Lemma contiguous_heap s1 :
  at_mem (globals s) (p + bytes) (with_pages f p n) s1 ->
  grow_result a (l ++ [z]) bytes s (append_chunk a p bytes s1).
Proof.
  intros M1. pose proof contiguous_facts as (F1 & F2 & F3 & F4 & F5 & F6 & F7 & F8).
  pose proof (rep_fuel _ _ _ Hr) as Hfuel. unfold heap_limit in F6.
  assert (chain (with_pages f p n) a 0 (l ++ [z]) 0) as Hch.
  { eapply chain_frame; [|apply (hr_heap _ _ _ Hr)]. intros x Hx. apply with_pages_out. lia. }
  unfold append_chunk. rewrite (bind_eq _ _ _ (chain_fuel s1) s1 eq_refl).
  assert (chain_fuel s1 = chain_fuel s) as ->.
  { unfold chain_fuel. destruct M1 as (Hg & _). unfold globals in Hg. by injection Hg as _ -> ->. }
  rewrite length_app in Hfuel. cbn in Hfuel.
  rewrite (bind_eq _ _ _ _ _ (last_chunk_eq _ _ _ s1 l z (chain_fuel s) a 0 M1 Hch F1 ltac:(lia))).
  fold q. pose proof (new_words p 0 ltac:(lia) eq_refl F5) as N0. rewrite Z.add_0_r in N0.
  eapply bind_st; [exact M1|done|]. intros s2 M2.
  eapply bind_st; [exact M2|by apply upd_some, new_words|]. intros s3 M3.
  eapply bind_st; [exact M3|by do 2 apply upd_some; apply new_words|]. intros s4 M4.
  eapply bind_st; [exact M4|by do 3 apply upd_some; apply new_words|]. intros s5 M5.
  eapply bind_st; [exact M5| |].
  { do 4 apply upd_some. apply with_pages_some. pose proof (ha_chain _ _ _ (hr_heap _ _ _ Hr)) as Hc.
    apply chain_snoc in Hc as (_ & _ & (_ & _ & Hn3 & _)). by eexists. }
  intros s6 M6. fold appended in M6.
  rewrite (bind_eq _ _ s6 tt (set_heap (head s6) (heap_start s6) (u64 (heap_end s6 + bytes)) s6) eq_refl).
  pose proof (set_heap_at _ _ _ _ (head s6) (heap_start s6) (u64 (heap_end s6 + bytes)) M6) as M7.
  rewrite (bind_ld _ _ _ _ _ _ _ M7 (proj1 appended_last)).
  destruct (merge_last _ _ _ _ l z new _ appended_heap M7 eq_refl) as ([] & s8 & f8 & E8 & _ & M8 & Hh8 & Hf8).
  rewrite (bind_eq _ _ _ _ _ E8). destruct M8 as (Hg8 & Hk8 & Hb8 & Hm8).
  destruct M6 as (Hg6 & _). rewrite (hr_globals _ _ _ Hr), <-Hpe in Hg6. unfold globals in Hg6.
  injection Hg6 as Hg1 Hg2 Hg3.
  cbn [grow_result mret M_ret]. rewrite grow_blocks_snoc. fold new. split.
  - assert (size (l ++ merge1 [z; new]) = p + bytes - a) as Hsz.
    { rewrite size_app, merge1_size. cbn. unfold q in F3. lia. }
    assert (l ++ merge1 [z; new] <> []) as Hne by (unfold new; rewrite <-grow_blocks_snoc; apply grow_blocks_nonempty).
    constructor; [done|by eapply heap_at_ext| |rewrite Hb8, Hsz; lia|done].
    rewrite Hg8, Hg1, Hg2, Hg3, Hsz.
    rewrite !first_or_snoc. replace (u64 (p + bytes)) with (a + (p + bytes - a)) by (unfold PAGE_SIZE in *; wsolve).
    by rewrite !first_or_ne.
  - split; [by rewrite <-Hpe|]. apply appended_frame. destruct Hf8 as [Hd8 He8]. split; intros x Hx; rewrite Hm8; [by apply Hd8|].
    intros Hw. by apply He8.
Qed.
End contiguous.
End grow.

Lemma set_env_at s e : kinv e -> at_mem (globals s) (brk e) (vload e) (set_env e s).
Proof. intros. by repeat split. Qed.

Lemma rep_env a bs s e :
  heap_rep a bs s -> kinv e -> (forall x, vload e x = vload s.(env) x) -> brk s.(env) <= brk e ->
  (bs = [] -> brk e = brk s.(env)) -> heap_rep a bs (set_env e s).
Proof.
  intros [r1 r2 r3 r4 r5] Hk Hv Hb He. constructor; cbn; [done|by eapply heap_at_ext|done|lia|].
  intros Hn. by rewrite He, r5.
Qed.

Lemma head_zero a bs s : heap_rep a bs s -> head s = 0 <-> bs = [].
Proof.
  intros [r1 r2 r3 r4 r5]. pose proof (ha_addr _ _ _ r2). unfold globals in r3. injection r3 as -> _ _.
  destruct bs; cbn; split; intros; try done. lia.
Qed.

(** [vallocs] returned the pages at the break. *)
Lemma grow_at_break a bs s n e :
  0 < n -> heap_rep a bs s -> brk s.(env) + n * PAGE_SIZE <= heap_limit ->
  kinv e -> brk e = brk s.(env) + n * PAGE_SIZE ->
  (forall x, vload e x = with_pages (vload s.(env)) (brk s.(env)) n x) ->
  grow_result a bs (n * PAGE_SIZE) s
    ((h ← gets head;
      if h =? 0 then first_chunk (brk s.(env)) (n * PAGE_SIZE) else
      e ← gets heap_end;
      if negb (brk s.(env) =? e) then
        _ ← lift (vfrees_op (brk s.(env)) n);
        mret false
      else append_chunk h (brk s.(env)) (n * PAGE_SIZE)) (set_env e s)).
Proof.
  intros Hn Hr Hl Hk Hb Hv. set (p := brk s.(env)) in *.
  assert (at_mem (globals s) (p + n * PAGE_SIZE) (with_pages (vload s.(env)) p n) (set_env e s)) as M1
    by (by repeat split).
  rewrite (bind_eq _ _ _ _ _ (gets_eq head (set_env e s))). cbn [head set_env]. pose proof (head_zero _ _ _ Hr) as Hz.
  destruct (Z.eqb_spec (head s) 0) as [E|E].
  { apply Hz in E as ->. by apply first_heap. }
  rewrite (bind_eq _ _ _ _ _ (gets_eq heap_end (set_env e s))). cbn [heap_end set_env].
  pose proof (hr_globals _ _ _ Hr) as Hg. unfold globals in Hg. injection Hg as Hg1 _ Hg3.
  assert (bs <> []) as Hne by tauto. rewrite first_or_ne in Hg1, Hg3 by done. rewrite Hg1, Hg3.
  destruct (Z.eqb_spec p (a + size bs)) as [Ep|Ep]; cbn [negb].
  - destruct bs as [|z l _] using rev_ind; [done|]. by apply contiguous_heap.
  - pose proof (km_brk _ (hr_inv _ _ _ Hr)) as [Hp1 Hp2]. fold p in Hp1, Hp2.
    destruct (km_vfrees e p n Hk Hn ltac:(lia) Hp2) as (e' & E' & Hk' & Hb' & Hv').
    { intros b Hin. rewrite Hv. unfold with_pages. rewrite Hin. by eexists. }
    rewrite bind_lift. cbn [env set_env]. rewrite E'. cbn.
    assert (forall x, vload e' x = vload s.(env) x) as Hv2.
    { intros x. rewrite Hv', Hv. unfold with_pages. destruct (in_pages p n x) eqn:Ein; [|done].
      destruct (vload s.(env) x) as [w|] eqn:Ew; [|done].
      destruct (km_range _ _ _ (hr_inv _ _ _ Hr) Ew) as [Hx _]. unfold in_pages in Ein. fold p in Hx. lia. }
    split; [|done]. apply (rep_env a bs s e'); try done.
    rewrite Hb', Hb. unfold PAGE_SIZE, p. lia.
Qed.

Lemma kmalloc_grow_post a bs s sz :
  let bytes := (sz + 4095) / 4096 * 4096 in
  heap_rep a bs s -> 0 < sz -> brk s.(env) + bytes <= heap_limit ->
  grow_result a bs bytes s (kmalloc_grow sz s).
Proof.
  intros bytes Hr Hs Hl. set (n := (sz + 4095) / 4096).
  assert (bytes = n * PAGE_SIZE) as Hby by reflexivity.
  pose proof (km_brk _ (hr_inv _ _ _ Hr)) as [Hp1 Hp2]. unfold PAGE_SIZE in *.
  assert (0 < n) as Hn by (unfold n; Z.div_mod_to_equations; lia).
  unfold heap_limit in Hl. unfold kmalloc_grow. rewrite align_up_page by (unfold n in *; wsolve).
  fold n. fold bytes in Hl. unfold PAGE_SIZE. rewrite Z.div_mul by done. cbv zeta.
  pose proof (km_vallocs s.(env) n (hr_inv _ _ _ Hr) Hn) as Hva.
  unfold heap_limit, PAGE_SIZE in Hva. specialize (Hva ltac:(lia)).
  rewrite bind_lift.
  destruct (vallocs_op true n (env s)) as [[p e]| |]; [|exact I|destruct Hva].
  destruct Hva as [Hk [(-> & Hb & Hv)|(-> & Hb & Hv)]].
  - cbn. split; [|done]. apply (rep_env a bs s e Hr Hk Hv); [lia|done].
  - destruct (Z.eqb_spec (brk s.(env)) 0); [lia|]. rewrite Hby.
    apply grow_at_break; try done.
Qed.

(** ** Taking and releasing a chunk *)

Lemma set_state g b f a l c r u s :
  heap_at f a (l ++ [c] ++ r) -> at_mem g b f s ->
  heap_post g b a (l ++ [c] ++ r) (l ++ [Blk c.(b_len) u] ++ r) f (fun _ => True)
    (st (a + size l) (state_of (Blk c.(b_len) u)) s).
Proof.
  intros Hh Hm. pose proof (mid_range _ _ _ _ _ Hh) as (R1 & R2 & R3 & R4 & R5 & R6 & R7).
  pose proof (mid_ok _ _ _ _ _ Hh) as (_ & Hc & _). apply Forall_cons in Hc as [[Hc1 Hc2] _].
  pose proof (mid_chain _ _ _ _ _ Hh) as (_ & (H1 & H2 & H3 & H4) & _).
  pose proof (mid_next _ _ _ _ _ Hh) as (Hnz & Hnx & Hnm).
  cbn [size first_or] in *. rewrite Z.add_0_r in *. set (p := a + size l) in *.
  eapply run_st; [exact Hm|by eexists|]. intros s' M'. eexists tt, s', _.
  split; [done|]. split; [done|]. split; [exact M'|]. split.
  - apply (mid_rebuild f a l [c] r Hh _ [_] p); cbn [size b_len]; rewrite ?Z.add_0_r; fold p; try done.
    + intros x Hx. by upd_tac.
    + intros x Hx Hn. by upd_tac.
    + intros Hr. upd_tac. pose proof (ha_chain _ _ _ Hh) as Hc. rewrite !chain_app in Hc.
      destruct Hc as (_ & _ & Hc). cbn [size last_addr] in Hc. rewrite Z.add_0_r in Hc. fold p in Hc.
      destruct r as [|d r']; [done|]. by destruct Hc as (_ & (_ & _ & _ & ?) & _).
    + cbn. unfold hdr. split_and!; try done; by upd_tac.
    + intros x Hx. by apply upd_some.
  - apply frame_upd; [done|lia|]. apply live_hdr; [by eapply heap_blocks|unfold p; lia].
Qed.

Lemma heap_post_bind {A B : Type} g b a bs bs1 bs2 f (R : A -> Prop) (R' : B -> Prop)
    (m : M (kheap Sg) A) (k : A -> M (kheap Sg) B) s :
  size bs1 = size bs -> (forall x, live a bs x = true -> live a bs1 x = true) ->
  heap_post g b a bs bs1 f R (m s) ->
  (forall v s1 f1, R v -> at_mem g b f1 s1 -> heap_at f1 a bs1 -> heap_post g b a bs1 bs2 f1 R' (k v s1)) ->
  heap_post g b a bs bs2 f R' ((m ≫= k) s).
Proof.
  intros Hs Hl (v & s1 & f1 & E & Hv & M1 & H1 & F1) Hk. rewrite (bind_eq _ _ _ _ _ E).
  destruct (Hk v s1 f1 Hv M1 H1) as (w & s2 & f2 & E2 & Hw & M2 & H2 & F2).
  exists w, s2, f2. split_and!; try done. by eapply heap_frame_trans.
Qed.

Lemma live_carve a l c r required x :
  c.(b_used) = false -> live a (l ++ [c] ++ r) x = true -> live a (l ++ carve required c ++ r) x = true.
Proof.
  intros Hu. unfold carve. rewrite !live_app. cbn. rewrite Hu, Z.add_0_r. cbn.
  destruct (live a l x); [done|]. cbn. intros Hr.
  destruct (_ <=? _); cbn; rewrite ?Z.add_0_r.
  - replace (a + size l + (required + (b_len c - required))) with (a + size l + b_len c) by lia.
    rewrite Hr. by rewrite !orb_true_r.
  - rewrite Hr. by rewrite !orb_true_r.
Qed.

Lemma live_set_used a l c r x :
  live a (l ++ [c] ++ r) x = true -> live a (l ++ [Blk c.(b_len) true] ++ r) x = true.
Proof.
  rewrite !(live_app l). cbn. destruct (live a l x); [done|]. cbn.
  destruct (b_used c), (live (a + size l + b_len c) r x); cbn; rewrite ?orb_true_r; done.
Qed.

Lemma live_split a l c r required x :
  c.(b_used) = false -> live a (l ++ [c] ++ r) x = true ->
  live a (l ++ [Blk required false; Blk (c.(b_len) - required) false] ++ r) x = true.
Proof.
  intros Hu. rewrite !live_app. cbn. rewrite Hu, !Z.add_0_r. cbn.
  by replace (a + size l + (required + (b_len c - required))) with (a + size l + b_len c) by lia.
Qed.

Lemma carve_size required c : size (carve required c) = c.(b_len).
Proof. unfold carve. destruct (_ <=? _); cbn; lia. Qed.

Lemma take_chunk_post g b f a l c r required s :
  heap_at f a (l ++ [c] ++ r) -> at_mem g b f s -> fits required c = true ->
  32 <= required -> required mod 16 = 0 ->
  heap_post g b a (l ++ [c] ++ r) (l ++ carve required c ++ r) f (fun v => v = a + size l + 32)
    (take_chunk (a + size l) required s).
Proof.
  intros Hh Hm Hfit Hreq H16. unfold fits in Hfit. apply andb_true_iff in Hfit as [Hu Hle].
  apply negb_true_iff in Hu. pose proof (mid_range _ _ _ _ _ Hh) as (R1 & R2 & R3 & R4 & R5 & R6 & R7).
  pose proof (mid_chain _ _ _ _ _ Hh) as (_ & (_ & H2 & _) & _).
  cbn [size] in R2, R3. unfold heap_limit in R7. unfold take_chunk, chunk_size, KMALLOC_MIN_SPLIT.
  rewrite (bind_ld _ _ _ _ _ _ _ Hm H2).
  replace (u64 (u64 (required + 32) + 32)) with (required + 64) by wsolve.
  replace (u64 (a + size l + 32)) with (a + size l + 32) by wsolve.
  unfold carve. destruct (Z.leb_spec (required + 64) (b_len c)) as [Hs|Hs].
  - eapply heap_post_bind; [| |apply ksplit_post; [exact Hh|exact Hm|done|lia|done]|].
    + rewrite !size_app. cbn. lia.
    + intros x. by apply live_split.
    + intros _ s1 f1 _ M1 H1. eapply heap_post_bind.
      3: apply (set_state _ _ _ a l (Blk required false) (Blk (b_len c - required) false :: r) true); done.
      * rewrite !size_app. cbn. lia.
      * intros x. apply (live_set_used a l (Blk required false)).
      * intros [] s2 f2 _ M2 H2'. by apply heap_same.
  - rewrite (bind_eq _ _ s tt s eq_refl). eapply heap_post_bind.
    3: apply (set_state _ _ _ a l c r true); done.
    + by rewrite !size_app.
    + intros x. apply live_set_used.
    + intros [] s2 f2 _ M2 H2'. by apply heap_same.
Qed.

(** ** [kmalloc] *)

Lemma carve_fresh f a l c r required n :
  heap_at f a (l ++ [c] ++ r) -> c.(b_used) = false -> required <= c.(b_len) ->
  32 <= required -> n <= required - 32 ->
  fresh_at a (l ++ [c] ++ r) (l ++ carve required c ++ r) (a + size l + 32) n.
Proof.
  intros Hh Hu Hle Hreq Hn. pose proof (heap_blocks _ _ _ Hh) as Hok.
  pose proof (mid_range _ _ _ _ _ Hh) as (R1 & R2 & R3 & R4 & R5 & R6 & R7).
  constructor.
  - Z.div_mod_to_equations. lia.
  - intros x Hx. split.
    + rewrite live_mid by (done || cbn; lia). cbn. by rewrite Hu.
    + rewrite (live_app l). apply orb_true_iff. right. unfold carve.
      destruct (_ <=? _); cbn; apply orb_true_iff; left; lia.
  - intros x. by apply live_carve.
Qed.

Definition kmalloc_result (a : Z) (bs : list block) (required n : Z) (s : kheap Sg)
    (r : outcome (Z * kheap Sg)) : Prop :=
  match r with
  | Done (p, s') =>
      (p = 0 /\ first_fit required bs = None /\ heap_rep a bs s' /\
       forall x, vload s'.(env) x = vload s.(env) x) \/
      (exists bs', alloc required bs = Some (bs', p - a) /\ heap_rep a bs' s' /\
         fresh_at a bs bs' p n /\ 0 < p /\
         heap_frame a bs (vload s.(env)) (vload s'.(env)))
  | Panicked _ => first_fit required bs = None
  | Fault => False
  end.

(** A chunk that fits is taken. *)
Lemma take_found a bs s l c r required n :
  heap_rep a bs s -> first_fit required bs = Some (l, c, r) ->
  32 <= required -> required mod 16 = 0 -> n <= required - 32 ->
  exists s', take_chunk (a + size l) required s = Done (a + size l + 32, s') /\
    heap_rep a (l ++ carve required c ++ r) s' /\ fresh_at a bs (l ++ carve required c ++ r) (a + size l + 32) n /\
    heap_frame a bs (vload s.(env)) (vload s'.(env)).
Proof.
  intros Hr Ef Hreq H16 Hn. apply first_fit_region in Ef as (-> & Hu & Hle).
  pose proof (hr_heap _ _ _ Hr) as Hh. pose proof (rep_at _ _ _ Hr) as Hm.
  assert (fits required c = true) as Hfit by (unfold fits; rewrite Hu; cbn; lia).
  destruct (take_chunk_post _ _ _ a l c r required s Hh Hm Hfit Hreq H16)
    as (v & s' & f' & E & -> & M' & H' & F').
  exists s'. split; [done|]. split; [|split].
  - apply (at_rep a (l ++ [c] ++ r) _ f' s); try done.
    + by rewrite !size_app, carve_size, Z.add_0_r || (rewrite !size_app, carve_size; cbn; lia).
    + by destruct l.
    + unfold carve. destruct (_ <=? _); by destruct l.
  - by apply (carve_fresh _ _ _ _ _ _ _ Hh).
  - destruct M' as (_ & _ & _ & Hv), F' as [d e]. split; intros x; rewrite Hv; [apply d|apply e].
Qed.

Lemma frame_through_grow a bs n f g h :
  heap_frame a bs f g -> heap_frame a (grow_blocks bs n) g h ->
  (forall x w, f x = Some w -> x < a + size bs) -> heap_frame a bs f h.
Proof.
  intros [d1 e1] [d2 e2] Hb. split; [auto|]. intros x w Hw Hx. apply e2; [by apply e1|].
  rewrite live_grow. pose proof (Hb x w Hw). destruct Hx as [?|[?|?]]; [by left|lia|by right; right].
Qed.

Lemma kmalloc_post a bs s n :
  heap_rep a bs s -> 0 < n <= 2 ^ 62 ->
  brk s.(env) + grow_bytes (required_of n) <= heap_limit ->
  kmalloc_result a bs (required_of n) n s (kmalloc n s).
Proof.
  intros Hr Hn Hl. set (req := required_of n) in *.
  assert (32 <= req /\ req mod 16 = 0 /\ n <= req - 32 /\ req < 2 ^ 63) as (Q1 & Q2 & Q3 & Q4).
  { unfold req, required_of. split_and!; Z.div_mod_to_equations; lia. }
  unfold kmalloc. destruct (Z.eqb_spec n 0); [lia|]. rewrite align_up_16 by lia. cbv zeta.
  replace (u64 ((n + 15) / 16 * 16 + chunk_size)) with req
    by (unfold req, required_of, chunk_size; wsolve).
  rewrite (bind_eq _ _ _ _ _ (search_eq a bs s req Hr)).
  pose proof (hr_heap _ _ _ Hr) as Hh. pose proof (ha_addr _ _ _ Hh) as (A1 & _ & _).
  pose proof (size_nonneg) as Hsn.
  destruct (first_fit req bs) as [[[l c] r]|] eqn:Ef.
  - destruct (take_found a bs s l c r req n Hr Ef Q1 Q2 Q3) as (s' & E & Hr' & Hfr & Hf).
    assert (0 <= size l) as Hl0.
    { apply size_nonneg. pose proof (first_fit_region _ _ _ _ _ Ef) as (-> & _).
      pose proof (heap_blocks _ _ _ Hh) as Hok. by apply Forall_app in Hok as [? _]. }
    destruct (Z.eqb_spec (a + size l) 0); [lia|]. rewrite E. right.
    exists (l ++ carve req c ++ r). split_and!; [|done|done|lia|done].
    unfold alloc, alloc_in. rewrite Ef. do 2 f_equal. lia.
  - cbn [Z.eqb]. change (16 * PAGE_SIZE) with 65536.
    set (gs := if req <? 65536 then 65536 else req) in *.
    assert (req <= gs /\ 0 < gs) as [G1 G2] by (unfold gs; destruct (Z.ltb_spec req 65536); lia).
    unfold grow_bytes in Hl. fold gs in Hl.
    pose proof (kmalloc_grow_post a bs s gs Hr G2 Hl) as Hg. cbn zeta in Hg.
    unfold mbind at 1, M_bind at 1.
    destruct (kmalloc_grow gs s) as [[[] s1]|w|]; cbn [grow_result] in Hg; [| |done|done].
    + destruct Hg as (Hr1 & Hb & Hf1). cbn [negb].
      rewrite (bind_eq _ _ _ _ _ (search_eq a _ s1 req Hr1)).
      set (bytes := (gs + 4095) / 4096 * 4096) in *.
      destruct (first_fit req (grow_blocks bs bytes)) as [[[l c] r]|] eqn:Ef1.
      2:{ exfalso. revert Ef1. apply grown_fits; [by eapply heap_blocks|unfold bytes; Z.div_mod_to_equations; lia]. }
      destruct (take_found a _ s1 l c r req n Hr1 Ef1 Q1 Q2 Q3) as (s' & E & Hr' & [f1 f2 f3] & Hf).
      assert (0 <= size l) as Hl0.
      { apply size_nonneg. pose proof (first_fit_region _ _ _ _ _ Ef1) as (Eg & _).
        pose proof (heap_blocks _ _ _ (hr_heap _ _ _ Hr1)) as Hok. rewrite Eg in Hok. by apply Forall_app in Hok as [? _]. }
      destruct (Z.eqb_spec (a + size l) 0); [lia|]. rewrite E. right.
      exists (l ++ carve req c ++ r). split_and!; [|done| |lia|].
      * unfold alloc, alloc_in. rewrite Ef. unfold grow_bytes. fold gs bytes. rewrite Ef1. do 2 f_equal. lia.
      * constructor; [done| |].
        -- intros x Hx. rewrite <-(live_grow a bs bytes). by apply f2.
        -- intros x Hx. apply f3. by rewrite live_grow.
      * eapply frame_through_grow; [exact Hf1|exact Hf|].
        intros x w Hw. rewrite Hb. by destruct (km_range _ _ _ (hr_inv _ _ _ Hr) Hw) as [[? ?] _].
    + destruct Hg as [Hg1 Hg2]. left. split_and!; done.
Qed.

(** A successful call, when the outcome is known. *)
Lemma kmalloc_rep a bs s n p s' bs' o :
  heap_rep a bs s -> 0 < n <= 2 ^ 62 -> brk s.(env) + grow_bytes (required_of n) <= heap_limit ->
  kmalloc n s = Done (p, s') -> p <> 0 -> alloc (required_of n) bs = Some (bs', o) ->
  heap_rep a bs' s'.
Proof.
  intros Hr Hn Hl E Hp Ha. pose proof (kmalloc_post a bs s n Hr Hn Hl) as Hk. rewrite E in Hk.
  destruct Hk as [(? & _)|(bs1 & Ha1 & Hr1 & _)]; [done|]. rewrite Ha in Ha1. by injection Ha1 as <- _.
Qed.
End facts.
