(* ===== verification/KfreeFacts.v ===== *)
(** * Releasing heap chunks

    [kfree] on the list of blocks: what it does when at most one neighbour is
    free, and what it leaves behind when both are. *)

From S2P Require Import Prelude Pmm KernelMem Kmalloc Chain KmallocFacts.

Definition prev_free (l : list block) : bool :=
  match last l with Some b => negb b.(b_used) | None => false end.
Definition next_free (r : list block) : bool :=
  match r with d :: _ => negb d.(b_used) | [] => false end.

(** The blocks after [c] was freed between [l] and [r]: it is absorbed by a
    free predecessor, otherwise it absorbs a free successor. *)
Definition release (l : list block) (c : block) (r : list block) : list block :=
  match last l with
  | Some b =>
      if negb b.(b_used) then removelast l ++ [Blk (b.(b_len) + c.(b_len)) false] ++ r
      else l ++ merge1 (Blk c.(b_len) false :: r)
  | None => merge1 (Blk c.(b_len) false :: r)
  end.

Lemma removelast_snoc {A : Type} (l : list A) (b : A) : removelast (l ++ [b]) = l.
Proof. induction l as [|c l IH]; [done|]. cbn. rewrite IH. by destruct l. Qed.

Lemma release_snoc l b c r :
  release (l ++ [b]) c r =
  if negb b.(b_used) then l ++ [Blk (b.(b_len) + c.(b_len)) false] ++ r
  else (l ++ [b]) ++ merge1 (Blk c.(b_len) false :: r).
Proof. unfold release. by rewrite last_snoc, removelast_snoc. Qed.

Lemma merge1_live a bs x : live a (merge1 bs) x = live a bs x.
Proof.
  destruct bs as [|c [|d r]]; [done..|]. cbn. destruct (b_used c) eqn:Hc, (b_used d) eqn:Hd; cbn;
    rewrite ?Hc, ?Hd; try done. cbn. by rewrite Z.add_assoc.
Qed.

Lemma release_live a l c r x :
  live a (release l c r) x = live a (l ++ [Blk c.(b_len) false] ++ r) x.
Proof.
  destruct l as [|b l _] using rev_ind; [apply (merge1_live a (Blk (b_len c) false :: r))|].
  rewrite release_snoc. destruct (b_used b) eqn:Hb; cbn [negb].
  - rewrite !(live_app (l ++ [b])). f_equal. apply (merge1_live _ (Blk (b_len c) false :: r)).
  - rewrite <-app_assoc, !(live_app l). f_equal. cbn. rewrite Hb. cbn. by rewrite Z.add_assoc.
Qed.

Lemma release_size l c r : size (release l c r) = size (l ++ [c] ++ r).
Proof.
  destruct l as [|b l _] using rev_ind.
  - change (release [] c r) with (merge1 (Blk (b_len c) false :: r)). by rewrite merge1_size.
  - rewrite release_snoc. destruct (negb (b_used b)); rewrite !size_app, ?merge1_size; cbn; lia.
Qed.

Lemma release_nonempty l c r : release l c r <> [].
Proof.
  assert (forall r, merge1 (Blk (b_len c) false :: r) <> []) as Hm.
  { intros [|d r']; [done|]. cbn. by destruct (negb _). }
  destruct l as [|b l _] using rev_ind; [apply Hm|].
  rewrite release_snoc. destruct (negb (b_used b)); [by destruct l|]. intros E.
  apply app_eq_nil in E as [_ E]. by apply Hm in E.
Qed.

Section free.
Context {Sg : Type} `{KM : KernelMemLaws Sg}.

(** [kmerge_next] on a predecessor in use does nothing. *)
Lemma merge_prev_used g b f a l r s :
  heap_at f a (l ++ r) -> at_mem g b f s -> prev_free l = false ->
  (if negb (last_addr a 0 l =? 0) then kmerge_next (last_addr a 0 l) else mret tt) s = Done (tt, s).
Proof.
  intros Hh M1 Hp. destruct l as [|z l0 _] using rev_ind; [done|]. rewrite last_addr_app.
  pose proof (ha_chain _ _ _ Hh) as Hc. rewrite <-app_assoc in Hc. cbn [app] in Hc.
  apply chain_mid in Hc as (_ & _ & (H1 & _) & _). unfold prev_free in Hp. rewrite last_snoc in Hp.
  destruct (negb (a + size l0 =? 0)) eqn:En; [|done]. unfold kmerge_next.
  destruct (a + size l0 =? 0); [done|].
  rewrite (bind_ld _ _ _ _ _ _ _ M1 H1). apply negb_false_iff in Hp.
  by rewrite (proj2 (state_used z) Hp).
Qed.

(** After marking chunk [c] free. *)
Section run.
Context (g : Z * Z * Z) (b : Z) (f : Z -> option Z) (a : Z) (l : list block) (c : block) (r : list block).
Context (Hh : heap_at f a (l ++ [c] ++ r)) (Hu : c.(b_used) = true).
Let p := a + size l.
Let c' := Blk c.(b_len) false.

Definition free_mem : Z -> option Z := upd f p KMALLOC_STATE_FREE.

Lemma free_heap : heap_at free_mem a (l ++ [c'] ++ r).
Proof.
  pose proof (mid_range _ _ _ _ _ Hh) as (R1 & R2 & R3 & R4 & R5 & R6 & R7).
  pose proof (mid_ok _ _ _ _ _ Hh) as (_ & Hc & _). apply Forall_cons in Hc as [[Hc1 Hc2] _].
  pose proof (mid_chain _ _ _ _ _ Hh) as (_ & (H1 & H2 & H3 & H4) & _).
  cbn [size first_or] in *. rewrite Z.add_0_r in *. fold p in H1, H2, H3, H4, R1, R2, R3, R5, R6.
  apply (mid_rebuild f a l [c] r Hh _ [_] p); cbn [size b_len]; rewrite ?Z.add_0_r; fold p;
    unfold free_mem; try done.
  - intros x Hx. by upd_tac.
  - intros x Hx Hn. by upd_tac.
  - intros Hr. upd_tac. pose proof (ha_chain _ _ _ Hh) as Hc. rewrite !chain_app in Hc.
    destruct Hc as (_ & _ & Hc). cbn [size last_addr] in Hc. rewrite Z.add_0_r in Hc. fold p in Hc.
    destruct r as [|d r']; [done|]. by destruct Hc as (_ & (_ & _ & _ & ?) & _).
  - cbn. unfold hdr. split_and!; try done; by upd_tac.
  - intros x Hx. by apply upd_some.
Qed.

Lemma free_frame : heap_frame a (l ++ [c] ++ r) f free_mem.
Proof.
  pose proof (mid_range _ _ _ _ _ Hh) as (R1 & R2 & R3 & R4 & R5 & R6 & R7).
  pose proof (mid_ok _ _ _ _ _ Hh) as (_ & Hc & _). apply Forall_cons in Hc as [[Hc1 Hc2] _].
  cbn [size] in *. apply frame_upd; [done|unfold p; lia|].
  apply live_hdr; [by eapply heap_blocks|unfold p; lia].
Qed.

(** The part of [kfree] before the merges. *)
Lemma kfree_start s (Q : outcome (unit * kheap Sg) -> Prop) :
  at_mem g b f s ->
  (forall s1, at_mem g b free_mem s1 ->
     let prev := last_addr a 0 l in
     Q ((_ ← (if negb (prev =? 0) then kmerge_next prev else mret tt); kmerge_next p) s1)) ->
  Q (kfree (p + 32) s).
Proof.
  intros Hm HQ. pose proof (mid_range _ _ _ _ _ Hh) as (R1 & R2 & R3 & R4 & R5 & R6 & R7).
  pose proof (mid_chain _ _ _ _ _ Hh) as (_ & (H1 & _ & _ & H4) & _).
  fold p in R1, R2, R3, R5, R6, H1, H4. unfold heap_limit in R7. unfold kfree, chunk_size.
  destruct (Z.eqb_spec (p + 32) 0); [lia|].
  pose proof (mid_ok _ _ _ _ _ Hh) as (_ & Hc & _). apply Forall_cons in Hc as [[Hc1 Hc2] _].
  cbn [size] in R2, R3. replace (u64 (p + 32 - 32)) with p by wsolve. cbv zeta.
  rewrite (bind_ld _ _ _ _ _ _ _ Hm H1), (proj2 (state_used c) Hu).
  change (negb (KMALLOC_STATE_USED =? KMALLOC_STATE_USED)) with false. cbv iota.
  eapply bind_st; [exact Hm|by eexists|]. intros s1 M1. fold free_mem in M1.
  rewrite (bind_ld _ _ _ _ _ _ _ M1) by (unfold free_mem; upd_tac; exact H4).
  by apply HQ.
Qed.

(** No free predecessor: the chunk absorbs its successor. *)
Lemma kfree_used_prev s :
  at_mem g b f s -> prev_free l = false ->
  exists s' f', kfree (p + 32) s = Done (tt, s') /\ at_mem g b f' s' /\
    heap_at f' a (l ++ merge1 (c' :: r)) /\ heap_frame a (l ++ [c'] ++ r) free_mem f'.
Proof.
  intros Hm Hp. apply (kfree_start s); [done|]. intros s1 M1. cbv zeta.
  pose proof (merge_prev_used g b _ a l (c' :: r) s1 free_heap M1 Hp) as E1.
  rewrite (bind_eq _ _ _ _ _ E1).
  destruct (kmerge_post _ _ _ _ l c' r _ free_heap M1) as ([] & s' & f' & E & _ & M' & H' & F').
  by exists s', f'.
Qed.
End run.

(** A free predecessor [z]: it absorbs the chunk, whose old header stays behind. *)
Section absorbed.
Context (g : Z * Z * Z) (b : Z) (f : Z -> option Z) (a : Z) (l : list block) (z c : block) (r : list block).
Context (Hh : heap_at f a ((l ++ [z]) ++ [c] ++ r)) (Hu : c.(b_used) = true) (Hz : z.(b_used) = false).
Let p := a + size (l ++ [z]).
Let q := a + size l.
Let c' := Blk c.(b_len) false.
Let nx := first_or (p + c.(b_len)) r 0.

Definition absorbed_mem : Z -> option Z := merged_mem (free_mem f a (l ++ [z])) q z c' nx.

Lemma absorbed_facts :
  q + z.(b_len) = p /\ 32 <= z.(b_len) /\ 32 <= c.(b_len) /\ 16 <= q /\
  first_or (q + (z.(b_len) + c'.(b_len))) r 0 = nx /\
  heap_at (free_mem f a (l ++ [z])) a (l ++ [z; c'] ++ r) /\
  (nx <> 0 -> nx = p + c.(b_len)).
Proof.
  pose proof (free_heap f a (l ++ [z]) c r Hh) as Hf. fold c' in Hf. rewrite <-app_assoc in Hf. cbn [app] in Hf.
  pose proof (mid_range f a (l ++ [z]) [c] r Hh) as (R1 & _).
  pose proof (mid_range _ a l [z; c'] r Hf) as (_ & _ & _ & _ & _ & R6 & _).
  pose proof (mid_ok _ a l [z; c'] r Hf) as (_ & Hc & _).
  rewrite !Forall_cons in Hc. destruct Hc as ([Hz1 _] & [Hc1 _] & _). cbn [b_len c'] in Hc1.
  assert (q + b_len z = p) as E by (unfold q, p; rewrite size_app; cbn; lia).
  split_and!; try done.
  - unfold nx. rewrite <-E. cbn. by replace (q + (b_len z + b_len c)) with (q + b_len z + b_len c) by lia.
  - unfold nx. by destruct r.
Qed.

(** The words of the stale header. *)
Lemma stale_header :
  absorbed_mem p = Some KMALLOC_STATE_FREE /\ absorbed_mem (p + o_next) = Some nx /\
  absorbed_mem (p + o_length) = Some c.(b_len).
Proof.
  pose proof absorbed_facts as (A1 & A2 & A3 & A4 & A5 & A6 & A7).
  pose proof (mid_chain _ _ _ _ _ Hh) as (_ & (_ & H2 & H3 & _) & _).
  cbn [size first_or] in H3. rewrite Z.add_0_r in H3. fold p in H2, H3. fold nx in H3.
  unfold absorbed_mem, merged_mem, free_mem. fold p. split_and!; upd_tac; done.
Qed.

Lemma kfree_absorb s (Q : outcome (unit * kheap Sg) -> Prop) :
  at_mem g b f s ->
  (forall s2, at_mem g b absorbed_mem s2 -> Q (kmerge_next p s2)) ->
  Q (kfree (p + 32) s).
Proof.
  intros Hm HQ. pose proof absorbed_facts as (A1 & A2 & A3 & A4 & A5 & A6 & A7).
  refine (kfree_start g b f a (l ++ [z]) c r Hh Hu s Q Hm _). intros s1 M1. cbv zeta.
  rewrite last_addr_app. fold q. destruct (Z.eqb_spec q 0); [lia|]. cbn [negb].
  destruct (kmerge_free_run g b _ a l z c' r A6 Hz eq_refl s1 M1) as (s2 & E2 & M2).
  fold q in E2, M2. rewrite A5 in M2. rewrite (bind_eq _ _ _ _ _ E2). by apply HQ.
Qed.

Lemma absorbed_heap :
  heap_at absorbed_mem a (l ++ [Blk (z.(b_len) + c.(b_len)) false] ++ r) /\
  heap_frame a (l ++ [z; c'] ++ r) (free_mem f a (l ++ [z])) absorbed_mem.
Proof.
  pose proof absorbed_facts as (A1 & A2 & A3 & A4 & A5 & A6 & A7).
  pose proof (merged_heap _ a l z c' r A6 Hz eq_refl) as H'. fold q in H'. by rewrite A5 in H'.
Qed.

Lemma kfree_free_prev s :
  at_mem g b f s -> next_free r = false ->
  exists s', kfree (p + 32) s = Done (tt, s') /\ at_mem g b absorbed_mem s'.
Proof.
  intros Hm Hn. pose proof absorbed_facts as (A1 & A2 & A3 & A4 & A5 & A6 & A7).
  apply (kfree_absorb s); [done|]. intros s2 M2. exists s2. split; [|done].
  destruct stale_header as (S1 & S2 & _). unfold kmerge_next. destruct (Z.eqb_spec p 0); [lia|].
  rewrite (bind_ld _ _ _ _ _ _ _ M2 S1). cbn. rewrite (bind_ld _ _ _ _ _ _ _ M2 S2).
  pose proof (ha_chain _ _ _ (proj1 absorbed_heap)) as Hc.
  rewrite app_assoc, chain_app in Hc. destruct Hc as [_ Hc].
  replace (a + size (l ++ [Blk (b_len z + b_len c) false])) with (p + b_len c) in Hc
    by (rewrite size_app; cbn; unfold q in *; lia).
  destruct (Z.eqb_spec nx 0) as [_|Hnx]; [done|].
  assert (exists d r', r = d :: r' /\ d.(b_used) = true) as (d & r' & Hr & Hd).
  { clear - Hn Hnx. unfold nx in Hnx. clear nx. destruct r as [|d r']; [done|]. exists d, r'.
    split; [done|]. by apply negb_false_iff. }
  rewrite A7 by done. rewrite Hr in Hc. destruct Hc as (_ & (H1 & _) & _).
  by rewrite (bind_ld _ _ _ _ _ _ _ M2 H1), (proj2 (state_used d) Hd).
Qed.

(** With a free successor [d] as well, the second merge runs on the stale
    header: it makes the block after [d] point back into the absorbing block. *)
Lemma kfree_both_free s d e r' :
  at_mem g b f s -> r = d :: e :: r' -> d.(b_used) = false ->
  exists s' f', kfree (p + 32) s = Done (tt, s') /\ at_mem g b f' s' /\
    f' (q + o_next) = Some (p + c.(b_len)) /\ f' (p + c.(b_len)) = Some KMALLOC_STATE_FREE /\
    f' (p + c.(b_len) + d.(b_len) + o_prev) = Some p /\
    f' (p + o_length) = Some (u64 (c.(b_len) + d.(b_len))).
Proof.
  intros Hm Hr Hd. pose proof absorbed_facts as (A1 & A2 & A3 & A4 & A5 & A6 & A7).
  apply (kfree_absorb s); [done|]. intros s2 M2.
  destruct stale_header as (S1 & S2 & S3).
  pose proof (ha_chain _ _ _ (proj1 absorbed_heap)) as Hc. rewrite chain_app in Hc.
  destruct Hc as (_ & _ & (_ & _ & HQ & _) & Hc). cbn [b_len] in Hc, HQ.
  replace (a + size l + (b_len z + b_len c)) with (p + b_len c) in Hc, HQ by (unfold q in *; lia).
  fold q in HQ. rewrite Hr in Hc, HQ. cbn [first_or app] in HQ.
  destruct Hc as ([Hd1 _] & (D1 & D2 & D3 & _) & ([He1 _] & (E1 & E2 & E3 & E4) & _)).
  cbn [first_or] in D3. assert (nx = p + b_len c) as Hnx by (unfold nx; by rewrite Hr).
  unfold kmerge_next. destruct (Z.eqb_spec p 0); [lia|].
  rewrite (bind_ld _ _ _ _ _ _ _ M2 S1).
  change (negb (KMALLOC_STATE_FREE =? KMALLOC_STATE_FREE)) with false. cbv iota.
  rewrite (bind_ld _ _ _ _ _ _ _ M2 S2), Hnx. destruct (Z.eqb_spec (p + b_len c) 0); [lia|].
  rewrite (bind_ld _ _ _ _ _ _ _ M2 D1), (proj2 (state_free d) Hd).
  change (negb (KMALLOC_STATE_FREE =? KMALLOC_STATE_FREE)) with false. cbv iota.
  rewrite (bind_ld _ _ _ _ _ _ _ M2 S3), (bind_ld _ _ _ _ _ _ _ M2 D2).
  eapply bind_st; [exact M2|by eexists|]. intros s3 M3.
  rewrite (bind_ld _ _ _ _ _ _ _ M3) by (upd_tac; exact D3).
  eapply bind_st; [exact M3|apply upd_some; by eexists|]. intros s4 M4.
  rewrite (bind_ld _ _ _ _ _ _ _ M4) by (by upd_tac).
  destruct (Z.eqb_spec (p + b_len c + b_len d) 0); [lia|]. cbn [negb].
  eapply run_st; [exact M4|do 2 apply upd_some; by eexists|]. intros s5 M5.
  eexists s5, _. split; [done|]. split; [exact M5|].
  split_and!; upd_tac; try done. by rewrite D1, (proj2 (state_free d) Hd).
Qed.
End absorbed.

(** A release with at most one free neighbour. *)
Lemma kfree_post a l c r s :
  heap_rep a (l ++ [c] ++ r) s -> c.(b_used) = true -> prev_free l && next_free r = false ->
  exists s', kfree (a + size l + 32) s = Done (tt, s') /\ heap_rep a (release l c r) s' /\
    forall x w, vload s.(env) x = Some w ->
      x < a \/ a + size (l ++ [c] ++ r) <= x \/ live a (release l c r) x = true ->
      vload s'.(env) x = Some w.
Proof.
  intros Hr Hu Hpn. pose proof (hr_heap _ _ _ Hr) as Hh. pose proof (rep_at _ _ _ Hr) as Hm.
  set (f := vload s.(env)) in *. set (c' := Blk c.(b_len) false).
  assert (exists s' f', kfree (a + size l + 32) s = Done (tt, s') /\
    at_mem (globals s) (brk s.(env)) f' s' /\ heap_at f' a (release l c r) /\
    heap_frame a (l ++ [c'] ++ r) (free_mem f a l) f') as (s' & f' & E & M' & H' & [d e]).
  { destruct (prev_free l) eqn:Hp.
    - destruct l as [|z l0 _] using rev_ind; [done|]. unfold prev_free in Hp. rewrite last_snoc in Hp.
      apply negb_true_iff in Hp. destruct (kfree_free_prev _ _ f a l0 z c r Hh Hu Hp s Hm Hpn) as (s' & E & M').
      destruct (absorbed_heap f a l0 z c r Hh Hp) as [H' F']. rewrite release_snoc, Hp.
      exists s'. eexists. split_and!; [exact E|exact M'|exact H'|]. by rewrite <-app_assoc.
    - destruct (kfree_used_prev _ _ f a l c r Hh Hu s Hm Hp) as (s' & f' & E & M' & H' & F').
      exists s', f'. split_and!; try done. unfold release. unfold prev_free in Hp.
      destruct (last l) as [z|] eqn:El; [by rewrite Hp|].
      by apply last_None in El as ->. }
  exists s'. split; [done|]. split.
  - apply (at_rep a (l ++ [c] ++ r) _ f' s); try done; [apply release_size|by destruct l|apply release_nonempty].
  - intros x w Hw Hx. destruct M' as (_ & _ & _ & Hv). rewrite Hv.
    destruct (free_frame f a l c r Hh) as [_ e1].
    assert (size (l ++ [c'] ++ r) = size (l ++ [c] ++ r)) as Hs by (by rewrite !size_app).
    rewrite release_live in Hx. apply e; [|by rewrite Hs]. unfold free_mem.
    pose proof (mid_range _ _ _ _ _ Hh) as (R1 & R2 & R3 & R4 & R5 & R6 & R7).
    pose proof (mid_ok _ _ _ _ _ Hh) as (Ol & Hc & Or). apply Forall_cons in Hc as [[Hc1 Hc2] _].
    rewrite upd_ne; [done|]. intros ->. cbn [size] in R2, R3. destruct Hx as [?|[?|Hx]]; [lia|lia|].
    change ([Blk (b_len c) false] ++ r) with (c' :: r) in Hx. rewrite live_hdr in Hx; [done| |lia].
    apply Forall_app. split; [done|]. by constructor.
Qed.
End free.
