(* ===== verification/KmallocTheorems.v ===== *)
(** * The properties of the kernel heap

    The theorems about [kmalloc.c], for every memory that provides
    [KernelMem], with instances on the page tables of [Vmm]. *)

From S2P Require Import Prelude FromBoot Pmm PageTable Vmm VmmFacts VmmSpec VmmInit VmmTheorems.
From S2P Require Import KernelMem VmmMem Kmalloc Chain KmallocFacts KfreeFacts.

(** A machine with 61 free frames, an empty address space and an empty heap. *)
Module HeapDemo.
Definition machine : vmm := mk_vmm (palloc VmmDemo.boot_pm).2 ∅ 0x3000 true KHEAP_BASE [].
Definition heap0 : kheap vmm := mk_kheap 0 0 0 machine.

Lemma heap_machine_mapped : heap_mapped machine.
Proof.
  assert (Z.land (cr3 machine) PTE_ADDR_MASK = 3 * 4096) as Hroot by reflexivity.
  constructor.
  - unfold vmm_ready. rewrite Hroot. split; [|split].
    + apply palloc_ready. apply VmmDemo.booted_state.
    + by vm_compute.
    + apply empty_root_wf; [|lia|by vm_compute]. intros i _.
      change (ram machine) with (∅ : gmap Z Z). by rewrite lookup_total_empty.
  - done.
  - cbn. unfold KHEAP_BASE, heap_limit. lia.
  - intros v a [Hv1 Hv2]. cbn in Hv2. unfold KHEAP_BASE in *. lia.
  - intros v w a b [Hv1 Hv2]. cbn in Hv2. unfold KHEAP_BASE in *. lia.
Qed.

Lemma heap0_rep : heap_rep KHEAP_BASE [] heap0.
Proof.
  constructor.
  - exact heap_machine_mapped.
  - constructor; cbn [size]; [exact I|split_and!; by vm_compute|intros; lia].
  - reflexivity.
  - unfold heap0. cbn [size env brk vmm_mem next_virt machine]. lia.
  - reflexivity.
Qed.

(** Four allocations; the first, third and second are freed in this order;
    a fifth takes the space of the first two and writes one word. *)
Definition corrupt : M (kheap vmm) (Z * Z * Z) :=
  a ← kmalloc 64; b ← kmalloc 64; c ← kmalloc 64; d ← kmalloc 64;
  _ ← kfree a; _ ← kfree c; _ ← kfree b;
  x ← kmalloc 160;
  _ ← st (x + 72) 42;
  before ← ld (x + 72);
  _ ← kfree d;
  after ← ld (x + 72);
  mret (x, before, after).
End HeapDemo.

(** C3. [kmalloc] implements first fit with splitting ([alloc]): it returns a
    16-byte aligned block of at least [n] bytes that no live block overlapped,
    keeping every live payload and all other mapped memory, or returns 0 with
    the heap and the memory unchanged, and then no free chunk was long enough.
    It never touches unmapped memory; if the page tables cannot be extended it
    panics, again only when no chunk fits. *)
Theorem kmalloc_spec {Sg : Type} `{KM : KernelMemLaws Sg} (a : Z) (bs : list block) (s : kheap Sg) (n : Z) :
  heap_rep a bs s -> 0 < n <= 2 ^ 62 ->
  brk s.(env) + grow_bytes (required_of n) <= heap_limit ->
  match kmalloc n s with
  | Done (p, s') =>
      (p = 0 /\ first_fit (required_of n) bs = None /\ heap_rep a bs s' /\
       forall x, vload s'.(env) x = vload s.(env) x) \/
      (exists bs', alloc (required_of n) bs = Some (bs', p - a) /\
         heap_rep a bs' s' /\ 0 < p /\ p mod 16 = 0 /\
         (forall x, p <= x < p + n -> live a bs x = false /\ live a bs' x = true) /\
         (forall x, live a bs x = true -> live a bs' x = true) /\
         forall x w, vload s.(env) x = Some w ->
           x < a \/ a + size bs <= x \/ live a bs x = true -> vload s'.(env) x = Some w)
  | Panicked _ => first_fit (required_of n) bs = None
  | Fault => False
  end.
Proof.
  intros Hr Hn Hl. pose proof (kmalloc_post a bs s n Hr Hn Hl) as Hk.
  destruct (kmalloc n s) as [[p s']|w|]; [|done|done].
  destruct Hk as [?|(bs' & Ha & Hr' & [f1 f2 f3] & Hp & [_ e])]; [by left|right].
  exists bs'. by split_and!.
Qed.

Lemma kmalloc_spec_witness :
  heap_rep KHEAP_BASE [] HeapDemo.heap0 /\
  match kmalloc 64 HeapDemo.heap0 with
  | Done (p, s') =>
      (p = 0 /\ first_fit (required_of 64) [] = None /\ heap_rep KHEAP_BASE [] s' /\
       forall x, vload s'.(env) x = vload HeapDemo.heap0.(env) x) \/
      (exists bs', alloc (required_of 64) [] = Some (bs', p - KHEAP_BASE) /\
         heap_rep KHEAP_BASE bs' s' /\ 0 < p /\ p mod 16 = 0 /\
         (forall x, p <= x < p + 64 -> live KHEAP_BASE [] x = false /\ live KHEAP_BASE bs' x = true) /\
         (forall x, live KHEAP_BASE [] x = true -> live KHEAP_BASE bs' x = true) /\
         forall x w, vload HeapDemo.heap0.(env) x = Some w ->
           x < KHEAP_BASE \/ KHEAP_BASE + size [] <= x \/ live KHEAP_BASE [] x = true ->
           vload s'.(env) x = Some w)
  | Panicked _ => first_fit (required_of 64) [] = None
  | Fault => False
  end.
Proof.
  split; [exact HeapDemo.heap0_rep|].
  apply (kmalloc_spec KHEAP_BASE [] HeapDemo.heap0 64 HeapDemo.heap0_rep); [lia|].
  vm_compute. discriminate.
Defined.

(** C25. [kfree] of a live block whose neighbours are not both free returns
    with a well-formed heap in which the block is free and merged with its
    free neighbour; every other live payload is untouched. *)
Theorem kfree_spec {Sg : Type} `{KM : KernelMemLaws Sg} (a : Z) (l : list block) (c : block) (r : list block)
    (s : kheap Sg) :
  heap_rep a (l ++ [c] ++ r) s -> c.(b_used) = true -> prev_free l && next_free r = false ->
  exists s', kfree (a + size l + 32) s = Done (tt, s') /\ heap_rep a (release l c r) s' /\
    (forall x, live a (release l c r) x = live a (l ++ [Blk c.(b_len) false] ++ r) x) /\
    forall x w, vload s.(env) x = Some w ->
      x < a \/ a + size (l ++ [c] ++ r) <= x \/ live a (release l c r) x = true ->
      vload s'.(env) x = Some w.
Proof.
  intros Hr Hu Hp. destruct (kfree_post a l c r s Hr Hu Hp) as (s' & E & Hr' & He).
  exists s'. split_and!; try done. intros x. apply release_live.
Qed.

(** The heap after one and after four allocations of 64 bytes, and after the
    first and the third were freed. *)
Module HeapDemo1.
Definition state_after {A : Type} (m : M (kheap vmm) A) (s : kheap vmm) : kheap vmm :=
  match m s with Done (_, s') => s' | _ => s end.
Definition heap1 := state_after (kmalloc 64) HeapDemo.heap0.
Definition heap2 := state_after (kmalloc 64) heap1.
Definition heap3 := state_after (kmalloc 64) heap2.
Definition heap4 := state_after (kmalloc 64) heap3.
Definition heap5 := state_after (kfree (KHEAP_BASE + 0 + 32)) heap4.
Definition heap6 := state_after (kfree (KHEAP_BASE + 192 + 32)) heap5.

(** The result of a run, without its state. *)
Definition value_of {A : Type} (m : M (kheap vmm) A) (s : kheap vmm) : option A :=
  match m s with Done (v, _) => Some v | _ => None end.

Lemma run_value {A : Type} (m : M (kheap vmm) A) s v :
  value_of m s = Some v -> m s = Done (v, state_after m s).
Proof. unfold value_of, state_after. destruct (m s) as [[w s']| |]; [|done|done]. by intros [= ->]. Qed.

Lemma demo_step s bs bs' o p :
  heap_rep KHEAP_BASE bs s -> (brk s.(env) + grow_bytes (required_of 64) <=? heap_limit) = true ->
  value_of (kmalloc 64) s = Some p -> p <> 0 ->
  alloc (required_of 64) bs = Some (bs', o) -> heap_rep KHEAP_BASE bs' (state_after (kmalloc 64) s).
Proof.
  intros Hr Hl E Hp Ha. apply Z.leb_le in Hl. apply run_value in E.
  by eapply (kmalloc_rep _ _ _ 64); [exact Hr|lia|exact Hl|exact E|..].
Qed.

Lemma heap1_rep : heap_rep KHEAP_BASE ([] ++ [Blk 96 true] ++ [Blk 65440 false]) heap1.
Proof.
  apply (demo_step HeapDemo.heap0 [] [Blk 96 true; Blk 65440 false] 32 (KHEAP_BASE + 32)); [exact HeapDemo.heap0_rep|vm_compute; reflexivity|
    vm_compute; reflexivity|discriminate|reflexivity].
Qed.
Lemma heap2_rep : heap_rep KHEAP_BASE [Blk 96 true; Blk 96 true; Blk 65344 false] heap2.
Proof.
  apply (demo_step _ _ _ 128 (KHEAP_BASE + 128) heap1_rep); [vm_compute; reflexivity|
    vm_compute; reflexivity|discriminate|reflexivity].
Qed.
Lemma heap3_rep : heap_rep KHEAP_BASE [Blk 96 true; Blk 96 true; Blk 96 true; Blk 65248 false] heap3.
Proof.
  apply (demo_step _ _ _ 224 (KHEAP_BASE + 224) heap2_rep); [vm_compute; reflexivity|
    vm_compute; reflexivity|discriminate|reflexivity].
Qed.
Lemma heap4_rep :
  heap_rep KHEAP_BASE [Blk 96 true; Blk 96 true; Blk 96 true; Blk 96 true; Blk 65152 false] heap4.
Proof.
  apply (demo_step _ _ _ 320 (KHEAP_BASE + 320) heap3_rep); [vm_compute; reflexivity|
    vm_compute; reflexivity|discriminate|reflexivity].
Qed.

Lemma demo_free l c r s :
  heap_rep KHEAP_BASE (l ++ [c] ++ r) s -> c.(b_used) = true -> prev_free l && next_free r = false ->
  heap_rep KHEAP_BASE (release l c r) (state_after (kfree (KHEAP_BASE + size l + 32)) s).
Proof.
  intros Hr Hu Hp. destruct (kfree_post _ l c r s Hr Hu Hp) as (s' & E & Hr' & _).
  unfold state_after. by rewrite E.
Qed.

Lemma heap6_rep :
  heap_rep KHEAP_BASE (([] ++ [Blk 96 false]) ++ [Blk 96 true] ++ [Blk 96 false; Blk 96 true; Blk 65152 false]) heap6.
Proof.
  exact (demo_free [Blk 96 false; Blk 96 true] (Blk 96 true) [Blk 96 true; Blk 65152 false] heap5
    (demo_free [] (Blk 96 true) [Blk 96 true; Blk 96 true; Blk 96 true; Blk 65152 false] heap4
      heap4_rep eq_refl eq_refl) eq_refl eq_refl).
Qed.
End HeapDemo1.

Lemma kfree_spec_witness :
  exists s', kfree (KHEAP_BASE + size [] + 32) HeapDemo1.heap1 = Done (tt, s') /\
    heap_rep KHEAP_BASE (release [] (Blk 96 true) [Blk 65440 false]) s' /\
    (forall x, live KHEAP_BASE (release [] (Blk 96 true) [Blk 65440 false]) x =
       live KHEAP_BASE ([] ++ [Blk 96 false] ++ [Blk 65440 false]) x) /\
    forall x w, vload HeapDemo1.heap1.(env) x = Some w ->
      x < KHEAP_BASE \/ KHEAP_BASE + size ([] ++ [Blk 96 true] ++ [Blk 65440 false]) <= x \/
        live KHEAP_BASE (release [] (Blk 96 true) [Blk 65440 false]) x = true ->
      vload s'.(env) x = Some w.
Proof.
  exact (kfree_spec KHEAP_BASE [] (Blk 96 true) [Blk 65440 false] HeapDemo1.heap1
    HeapDemo1.heap1_rep eq_refl eq_refl).
Defined.

(** [kfree] of a block between two free blocks is wrong: it does not merge
    the successor [d], although it stays next in the list, and leaves the block
    after [d] with a back pointer into the middle of the merged block (the
    address of the released chunk, which is no chunk any more). *)
Theorem kfree_stale_back_link {Sg : Type} `{KM : KernelMemLaws Sg} (a : Z) (l : list block)
    (z c d e : block) (r : list block) (s : kheap Sg) :
  let p := a + size (l ++ [z]) in
  heap_rep a ((l ++ [z]) ++ [c] ++ d :: e :: r) s ->
  z.(b_used) = false -> c.(b_used) = true -> d.(b_used) = false ->
  exists s', kfree (p + 32) s = Done (tt, s') /\
    vload s'.(env) (a + size l + o_next) = Some (p + c.(b_len)) /\
    vload s'.(env) (p + c.(b_len)) = Some KMALLOC_STATE_FREE /\
    vload s'.(env) (p + c.(b_len) + d.(b_len) + o_prev) = Some p.
Proof.
  intros p Hr Hz Hc Hd.
  destruct (kfree_both_free _ _ _ a l z c (d :: e :: r) (hr_heap _ _ _ Hr) Hc Hz s d e r (rep_at _ _ _ Hr) eq_refl Hd)
    as (s' & f' & E & (_ & _ & _ & Hv) & H1 & H2 & H3 & _).
  exists s'. rewrite !Hv. by split_and!.
Qed.

Lemma kfree_stale_back_link_witness :
  let p := KHEAP_BASE + size ([] ++ [Blk 96 false]) in
  exists s', kfree (p + 32) HeapDemo1.heap6 = Done (tt, s') /\
    vload s'.(env) (KHEAP_BASE + size [] + o_next) = Some (p + 96) /\
    vload s'.(env) (p + 96) = Some KMALLOC_STATE_FREE /\
    vload s'.(env) (p + 96 + 96 + o_prev) = Some p.
Proof.
  exact (kfree_stale_back_link KHEAP_BASE [] (Blk 96 false) (Blk 96 true) (Blk 96 false) (Blk 96 true)
    [Blk 65152 false] HeapDemo1.heap6 HeapDemo1.heap6_rep eq_refl eq_refl eq_refl).
Defined.

(** The stale back link is harmful: on the page tables of [Vmm], after four
    allocations freed in the order first, third, second, a new block over the
    first two, and the release of the fourth, a word its owner had set to 42
    reads 138. *)
Theorem kfree_corrupts_live_block :
  match HeapDemo.corrupt HeapDemo.heap0 with
  | Done ((x, before, after), _) => x = KHEAP_BASE + 32 /\ before = 42 /\ after = 138
  | _ => False
  end.
Proof. vm_compute. by split_and!. Qed.

(** A request so large that the size arithmetic wraps does not fail: for
    the 15 sizes below 2^64 that round up to 2^64, [kmalloc] answers with the
    first free chunk and a block without payload. *)
Theorem kmalloc_wraps {Sg : Type} `{KM : KernelMemLaws Sg} (a : Z) (bs : list block) (s : kheap Sg)
    (n : Z) (l : list block) (c : block) (r : list block) :
  heap_rep a bs s -> 2 ^ 64 - 15 <= n < 2 ^ 64 -> first_fit 32 bs = Some (l, c, r) ->
  exists s', kmalloc n s = Done (a + size l + 32, s') /\ heap_rep a (l ++ carve 32 c ++ r) s'.
Proof.
  intros Hr Hn Ef. unfold kmalloc. destruct (Z.eqb_spec n 0); [lia|].
  assert (align_up n KMALLOC_ALIGNMENT = 0) as ->.
  { unfold align_up, KMALLOC_ALIGNMENT. change (u64 (Z.lnot (16 - 1))) with (Z.shiftl (Z.ones 60) 4).
    apply Z.bits_inj'. intros k Hk. rewrite Z.land_spec, Z.bits_0, Z.shiftl_spec by lia.
    destruct (decide (k < 4)) as [Hk4|Hk4]; [rewrite (Z.testbit_neg_r _ (k - 4)) by lia; by rewrite andb_false_r|].
    replace (Z.testbit (u64 (n + 16 - 1)) k) with false; [done|]. symmetry. unfold u64.
    assert (0 <= (n + 16 - 1) mod 18446744073709551616 < 16) as Hb by (Z.div_mod_to_equations; lia).
    apply Z.bits_above_log2; [lia|]. destruct (decide ((n + 16 - 1) mod 18446744073709551616 = 0)) as [->|Hne]; [cbn; lia|].
    apply Z.log2_lt_pow2; [lia|]. apply (Z.lt_le_trans _ (2 ^ 4)); [lia|]. apply Z.pow_le_mono_r; lia. }
  cbv zeta. change (u64 (0 + chunk_size)) with 32. rewrite (bind_eq _ _ _ _ _ (search_eq a bs s 32 Hr)), Ef.
  destruct (take_found a bs s l c r 32 0 Hr Ef ltac:(lia) eq_refl ltac:(lia)) as (s' & E & Hr' & _).
  pose proof (ha_addr _ _ _ (hr_heap _ _ _ Hr)) as (A1 & _).
  pose proof (first_fit_region _ _ _ _ _ Ef) as (Hbs & _ & _).
  pose proof (heap_blocks _ _ _ (hr_heap _ _ _ Hr)) as Hok. rewrite Hbs, Forall_app in Hok.
  pose proof (size_nonneg l (proj1 Hok)).
  destruct (Z.eqb_spec (a + size l) 0); [lia|]. by exists s'.
Qed.

Lemma kmalloc_wraps_witness :
  exists s', kmalloc 0xFFFFFFFFFFFFFFF8 HeapDemo1.heap1 = Done (KHEAP_BASE + size [Blk 96 true] + 32, s') /\
    heap_rep KHEAP_BASE ([Blk 96 true] ++ carve 32 (Blk 65440 false) ++ []) s'.
Proof.
  exact (kmalloc_wraps KHEAP_BASE _ HeapDemo1.heap1 0xFFFFFFFFFFFFFFF8 [Blk 96 true] (Blk 65440 false) []
    HeapDemo1.heap1_rep ltac:(lia) eq_refl).
Defined.

(** [kcalloc] computes its size in an [int]: a request for [2^32 + n]
    bytes gets a block of [n] bytes. *)
Theorem kcalloc_truncates {Sg : Type} `{KM : KernelMem Sg} (n : Z) (s : kheap Sg) :
  0 < n < 2 ^ 31 -> kcalloc 1 (2 ^ 32 + n) s = kcalloc 1 n s.
Proof.
  intros Hn. unfold kcalloc.
  assert (s32 (u64 (1 * (2 ^ 32 + n))) = s32 (u64 (1 * n))) as -> by (unfold s32, u64; Z.div_mod_to_equations; lia).
  by destruct (Z.eqb_spec (2 ^ 32 + n) 0), (Z.eqb_spec n 0); try lia.
Qed.

Lemma kcalloc_truncates_witness :
  0 < 64 < 2 ^ 31 /\ kcalloc 1 (2 ^ 32 + 64) HeapDemo.heap0 = kcalloc 1 64 HeapDemo.heap0.
Proof. split; [lia|exact (kcalloc_truncates 64 HeapDemo.heap0 ltac:(lia))]. Defined.

(** [kcalloc] does not check what [kmalloc] returned: on a machine with 7
    free frames it runs [memset] on a null pointer and faults. *)
Theorem kcalloc_null_deref :
  kcalloc 1 64 (mk_kheap 0 0 0 VmmDemo.machine) = Fault /\
  match kmalloc 64 (mk_kheap 0 0 0 VmmDemo.machine) with Done (p, _) => p = 0 | _ => False end.
Proof. by vm_compute. Qed.
