(* ===== verification/StringLib.v ===== *)
(** * The byte and string routines ([kernel/lib/string.c])

    Memory is a map from addresses to bytes.  Pointers are not wrapped: an
    object never crosses the end of the address space in C.  Loops that stop
    at a NUL byte take fuel and return [None] when it runs out.  [memcpy] is
    the C branch the configuration selects ([QEMU_TEST] is 1). *)

From S2P Require Import Prelude.

Notation bytes := (gmap Z Z) (only parsing).

Definition get8 (m : bytes) (a : Z) : Z := m !!! a.
Definition put8 (a v : Z) (m : bytes) : bytes := <[a := u8 v]> m.

(** Little-endian 64-bit access, the [unaligned_u64] of the C code. *)
Fixpoint le_get (n : nat) (m : bytes) (a : Z) : Z :=
  match n with O => 0 | S n' => get8 m a + 256 * le_get n' m (a + 1) end.
Fixpoint le_put (n : nat) (a w : Z) (m : bytes) : bytes :=
  match n with O => m | S n' => le_put n' (a + 1) (w / 256) (put8 a (w mod 256) m) end.
Definition get64 (m : bytes) (a : Z) : Z := le_get 8 m a.
Definition put64 (a w : Z) (m : bytes) : bytes := le_put 8 a w m.

Definition copy64 (d s : Z) (m : bytes) : bytes := put64 d (get64 m s) m.

Record cursor := mk_cursor { c_dst : Z; c_src : Z; c_n : Z; c_mem : bytes }.

Definition advance (k : Z) (c : cursor) (m : bytes) : cursor :=
  mk_cursor (c.(c_dst) + k) (c.(c_src) + k) (c.(c_n) - k) m.

(** [while (n >= 32)] *)
Fixpoint memcpy_32 (fuel : nat) (c : cursor) : cursor :=
  match fuel with
  | O => c
  | S f =>
      if 32 <=? c.(c_n) then
        let d := c.(c_dst) in let s := c.(c_src) in
        memcpy_32 f (advance 32 c
          (copy64 (d + 24) (s + 24) (copy64 (d + 16) (s + 16) (copy64 (d + 8) (s + 8) (copy64 d s c.(c_mem))))))
      else c
  end.

(** [while (n >= 8)] *)
Fixpoint memcpy_8 (fuel : nat) (c : cursor) : cursor :=
  match fuel with
  | O => c
  | S f =>
      if 8 <=? c.(c_n) then memcpy_8 f (advance 8 c (copy64 c.(c_dst) c.(c_src) c.(c_mem))) else c
  end.

(** [while (n--) *d++ = *s++;] *)
Fixpoint copy_up (n : nat) (d s : Z) (m : bytes) : bytes :=
  match n with
  | O => m
  | S n' => copy_up n' (d + 1) (s + 1) (put8 d (get8 m s) m)
  end.

Definition memcpy (dest src n : Z) (m : bytes) : bytes :=
  let c32 := memcpy_32 (Z.to_nat n) (mk_cursor dest src n m) in
  let c8 := memcpy_8 (Z.to_nat n) c32 in
  copy_up (Z.to_nat c8.(c_n)) c8.(c_dst) c8.(c_src) c8.(c_mem).

(** [while (n--) *--d = *--s;] *)
Fixpoint copy_down (n : nat) (d s : Z) (m : bytes) : bytes :=
  match n with
  | O => m
  | S n' => copy_down n' (d - 1) (s - 1) (put8 (d - 1) (get8 m (s - 1)) m)
  end.

Definition memmove (dest src n : Z) (m : bytes) : bytes :=
  if dest <? src then copy_up (Z.to_nat n) dest src m
  else copy_down (Z.to_nat n) (dest + n) (src + n) m.

Fixpoint fill (n : nat) (p value : Z) (m : bytes) : bytes :=
  match n with O => m | S n' => fill n' (p + 1) value (put8 p value m) end.
Definition memset (ptr value n : Z) (m : bytes) : bytes := fill (Z.to_nat n) ptr value m.

Fixpoint memcmp_loop (n : nat) (x y : Z) (m : bytes) : Z :=
  match n with
  | O => 0
  | S n' =>
      if negb (get8 m x =? get8 m y) then get8 m x - get8 m y
      else memcmp_loop n' (x + 1) (y + 1) m
  end.
Definition memcmp (a b n : Z) (m : bytes) : Z := memcmp_loop (Z.to_nat n) a b m.

(** Copies up to and including the NUL. *)
Fixpoint strcpy (fuel : nat) (dest src : Z) (m : bytes) : option bytes :=
  match fuel with
  | O => None
  | S f =>
      let m' := put8 dest (get8 m src) m in
      if get8 m src =? 0 then Some m' else strcpy f (dest + 1) (src + 1) m'
  end.

Fixpoint strcmp (fuel : nat) (a b : Z) (m : bytes) : option Z :=
  match fuel with
  | O => None
  | S f =>
      if negb (get8 m a =? 0) && (get8 m a =? get8 m b) then strcmp f (a + 1) (b + 1) m
      else Some (get8 m a - get8 m b)
  end.

Fixpoint strncmp_loop (n : nat) (a b : Z) (m : bytes) : Z :=
  match n with
  | O => 0
  | S n' =>
      if negb (get8 m a =? 0) && (get8 m a =? get8 m b) then strncmp_loop n' (a + 1) (b + 1) m
      else get8 m a - get8 m b
  end.
Definition strncmp (a b n : Z) (m : bytes) : Z := strncmp_loop (Z.to_nat n) a b m.

(** [NULL] is 0; [c] is an [int]. *)
Fixpoint strchr (fuel : nat) (str c : Z) (m : bytes) : option Z :=
  match fuel with
  | O => None
  | S f =>
      if get8 m str =? 0 then Some (if c =? 0 then str else 0)
      else if get8 m str =? u8 c then Some str
      else strchr f (str + 1) c m
  end.

Fixpoint strlen_loop (fuel : nat) (str len : Z) (m : bytes) : option Z :=
  match fuel with
  | O => None
  | S f => if get8 m str =? 0 then Some len else strlen_loop f (str + 1) (len + 1) m
  end.
Definition strlen (fuel : nat) (str : Z) (m : bytes) : option Z :=
  if str =? 0 then Some 0 else strlen_loop fuel str 0 m.

Fixpoint strrchr_loop (fuel : nat) (str c last : Z) (m : bytes) : option Z :=
  match fuel with
  | O => None
  | S f =>
      let last' := if get8 m str =? u8 c then str else last in
      if get8 m str =? 0 then Some last' else strrchr_loop f (str + 1) c last' m
  end.
Definition strrchr (fuel : nat) (str c : Z) (m : bytes) : option Z :=
  if str =? 0 then Some 0 else strrchr_loop fuel str c 0 m.
