(* ===== verification/StringFacts.v ===== *)
(** * The byte and string routines are correct

    [memcpy] in words and bytes, [memmove] for every overlap, and the string
    functions on NUL-terminated strings. *)

From S2P Require Import Prelude StringLib.

(** Every address holds a byte. *)
Definition bytes_ok (m : bytes) : Prop := forall a, 0 <= get8 m a < 256.

Lemma get8_put8 m a v b : get8 (put8 a v m) b = if decide (b = a) then u8 v else get8 m b.
Proof.
  unfold get8, put8. rewrite lookup_total_insert.
  repeat case_decide; congruence.
Qed.

Lemma get8_put8_eq m a v : get8 (put8 a v m) a = u8 v.
Proof. rewrite get8_put8. by rewrite decide_True. Qed.
Lemma get8_put8_ne m a v b : b <> a -> get8 (put8 a v m) b = get8 m b.
Proof. intros. rewrite get8_put8. by rewrite decide_False. Qed.

Lemma put8_ok m a v : bytes_ok m -> bytes_ok (put8 a v m).
Proof.
  intros Hm b. rewrite get8_put8. case_decide; [unfold u8; Z.div_mod_to_equations; lia|apply Hm].
Qed.

(** [m'] is [m] with [n] bytes from [s] copied to [d]. *)
Definition copied (m m' : bytes) (d s n : Z) : Prop :=
  forall a, get8 m' a = if decide (d <= a < d + n) then get8 m (s + (a - d)) else get8 m a.

Lemma copied_0 m d s : copied m m d s 0.
Proof. intros a. rewrite decide_False by lia. done. Qed.

(** Copying upwards reads only bytes not yet overwritten. *)
Definition up_ok (d s n : Z) : Prop := d <= s \/ s + n <= d.

Lemma copied_src m m' d s n k j :
  copied m m' d s k -> up_ok d s n -> 0 <= k <= j -> j < n -> get8 m' (s + j) = get8 m (s + j).
Proof.
  intros Hc Hu Hk Hj. rewrite Hc. case_decide as Hd; [|done]. destruct Hu; [lia|]. lia.
Qed.

Lemma copy1_step m m' d s n k :
  bytes_ok m -> copied m m' d s k -> up_ok d s n -> 0 <= k < n ->
  copied m (put8 (d + k) (get8 m' (s + k)) m') d s (k + 1).
Proof.
  intros Hok Hc Hu Hk a. rewrite get8_put8. case_decide as Ha.
  - subst a. rewrite decide_True by lia. rewrite (copied_src m m' d s n k k) by (done || lia).
    rewrite u8_id by apply Hok. f_equal. lia.
  - rewrite Hc. repeat case_decide; try lia; done.
Qed.

Lemma copy_up_spec m0 d s n : forall k (j : nat) m,
  bytes_ok m0 -> up_ok d s n -> 0 <= k -> k + Z.of_nat j = n -> copied m0 m d s k ->
  copied m0 (copy_up j (d + k) (s + k) m) d s n.
Proof.
  intros k j. revert k. induction j as [|j IH]; intros k m Hok Hu Hk Hn Hc; cbn [copy_up].
  - replace n with k by lia. done.
  - rewrite <-!Z.add_assoc. apply IH; try done; try lia.
    apply (copy1_step m0 m d s n k); done || lia.
Qed.

(** ** Words *)

Lemma le_get_split n m a w :
  bytes_ok m -> le_get n m a = w -> 0 <= w < 256 ^ Z.of_nat n.
Proof.
  intros Hok <-. revert a. induction n as [|n IH]; intros a; [cbn; lia|].
  rewrite Nat2Z.inj_succ, Z.pow_succ_r by lia. cbn [le_get].
  pose proof (Hok a). specialize (IH (a + 1)). lia.
Qed.

Lemma le_put_below n : forall a w m b, b < a -> get8 (le_put n a w m) b = get8 m b.
Proof.
  induction n as [|n IH]; intros a w m b Hb; [done|]. cbn [le_put]. rewrite IH by lia.
  apply get8_put8_ne. lia.
Qed.

(** Storing the bytes that were loaded at [s] copies them. *)
Lemma le_put_get n : forall d s m m0 b,
  bytes_ok m0 ->
  get8 (le_put n d (le_get n m0 s) m) b =
  if decide (d <= b < d + Z.of_nat n) then get8 m0 (s + (b - d)) else get8 m b.
Proof.
  induction n as [|n IH]; intros d s m m0 b Hok.
  - cbn. by rewrite decide_False by lia.
  - cbn [le_put le_get]. pose proof (Hok s) as Hs.
    replace ((get8 m0 s + 256 * le_get n m0 (s + 1)) / 256) with (le_get n m0 (s + 1))
      by (Z.div_mod_to_equations; lia).
    replace ((get8 m0 s + 256 * le_get n m0 (s + 1)) mod 256) with (get8 m0 s)
      by (Z.div_mod_to_equations; lia).
    rewrite IH by done. rewrite get8_put8.
    destruct (decide (b = d)) as [->|Hne].
    + rewrite decide_False, decide_True by lia. rewrite u8_id by done. f_equal. lia.
    + repeat case_decide; try lia; try done; f_equal; lia.
Qed.

Lemma copy64_get m d s b :
  bytes_ok m ->
  get8 (copy64 d s m) b = if decide (d <= b < d + 8) then get8 m (s + (b - d)) else get8 m b.
Proof. intros. unfold copy64, put64, get64. by apply le_put_get. Qed.

Lemma copied_ok m m' d s n : bytes_ok m -> copied m m' d s n -> bytes_ok m'.
Proof. intros Hok Hc a. rewrite Hc. case_decide; apply Hok. Qed.

Lemma copy64_step m m' d s n k :
  bytes_ok m -> copied m m' d s k -> up_ok d s n -> 0 <= k -> k + 8 <= n ->
  copied m (copy64 (d + k) (s + k) m') d s (k + 8).
Proof.
  intros Hok Hc Hu Hk Hn a. rewrite copy64_get by by eapply copied_ok.
  case_decide as Ha.
  - rewrite decide_True by lia.
    replace (s + k + (a - (d + k))) with (s + (a - d)) by lia.
    apply (copied_src m m' d s n k); done || lia.
  - rewrite Hc. repeat case_decide; try lia; done.
Qed.

(** The cursor after [k] of [n] bytes. *)
Definition at_cursor (m0 : bytes) (d s n k : Z) (c : cursor) : Prop :=
  c.(c_dst) = d + k /\ c.(c_src) = s + k /\ c.(c_n) = n - k /\ 0 <= k <= n /\
  copied m0 c.(c_mem) d s k.

Lemma memcpy_8_spec m0 d s n fuel : forall k c,
  bytes_ok m0 -> up_ok d s n -> at_cursor m0 d s n k c ->
  exists k', at_cursor m0 d s n k' (memcpy_8 fuel c).
Proof.
  induction fuel as [|fuel IH]; intros k c Hok Hu Hc; cbn [memcpy_8]; [by exists k|].
  destruct (Z.leb_spec 8 (c_n c)) as [H8|_]; [|by exists k].
  destruct Hc as (Hd & Hs & Hn & Hk & Hm). apply (IH (k + 8)); [done|done|].
  unfold advance, at_cursor. cbn [c_dst c_src c_n c_mem]. split_and!; try lia. rewrite Hd, Hs.
  apply (copy64_step _ _ _ _ n); [exact Hok|exact Hm|exact Hu|lia|lia].
Qed.

Lemma memcpy_32_spec m0 d s n fuel : forall k c,
  bytes_ok m0 -> up_ok d s n -> at_cursor m0 d s n k c ->
  exists k', at_cursor m0 d s n k' (memcpy_32 fuel c).
Proof.
  induction fuel as [|fuel IH]; intros k c Hok Hu Hc; cbn [memcpy_32]; [by exists k|].
  destruct (Z.leb_spec 32 (c_n c)) as [H32|_]; [|by exists k].
  destruct Hc as (Hd & Hs & Hn & Hk & Hm). apply (IH (k + 32)); [done|done|].
  unfold advance, at_cursor. cbn [c_dst c_src c_n c_mem]. split_and!; try lia. rewrite Hd, Hs, <-!Z.add_assoc.
  replace (k + 32) with (k + 24 + 8) by lia. apply (copy64_step _ _ _ _ n); [exact Hok| |exact Hu|lia|lia].
  replace (k + 24) with (k + 16 + 8) by lia. apply (copy64_step _ _ _ _ n); [exact Hok| |exact Hu|lia|lia].
  replace (k + 16) with (k + 8 + 8) by lia. apply (copy64_step _ _ _ _ n); [exact Hok| |exact Hu|lia|lia].
  apply (copy64_step _ _ _ _ n); [exact Hok|exact Hm|exact Hu|lia|lia].
Qed.

Lemma memcpy_copies m d s n :
  bytes_ok m -> 0 <= n -> up_ok d s n -> copied m (memcpy d s n m) d s n.
Proof.
  intros Hok Hn Hu. unfold memcpy.
  assert (at_cursor m d s n 0 (mk_cursor d s n m)) as H0.
  { unfold at_cursor. cbn. split_and!; try lia. apply copied_0. }
  destruct (memcpy_32_spec m d s n (Z.to_nat n) 0 _ Hok Hu H0) as [k1 H1].
  destruct (memcpy_8_spec m d s n (Z.to_nat n) k1 _ Hok Hu H1) as [k2 (Hd & Hs & Hc & Hk & Hm)].
  rewrite Hd, Hs, Hc. apply (copy_up_spec m d s n k2); try done; lia.
Qed.

(** ** [memmove] *)

(** The bytes from [k] to [n] have been copied. *)
Definition copied_above (m m' : bytes) (d s k n : Z) : Prop :=
  forall a, get8 m' a = if decide (d + k <= a < d + n) then get8 m (s + (a - d)) else get8 m a.

Lemma copy_down_spec m0 d s n (j : nat) : forall m,
  bytes_ok m0 -> s <= d -> Z.of_nat j <= n -> copied_above m0 m d s (Z.of_nat j) n ->
  copied m0 (copy_down j (d + Z.of_nat j) (s + Z.of_nat j) m) d s n.
Proof.
  induction j as [|j IH]; intros m Hok Hsd Hj Hc; cbn [copy_down].
  - intros a. rewrite Hc. by rewrite Z.add_0_r.
  - replace (d + Z.of_nat (S j) - 1) with (d + Z.of_nat j) by lia.
    replace (s + Z.of_nat (S j) - 1) with (s + Z.of_nat j) by lia.
    apply IH; [done|done|lia|]. intros a. rewrite get8_put8. case_decide as Ha.
    + subst a. rewrite decide_True by lia. rewrite Hc, decide_False by lia.
      rewrite u8_id by apply Hok. f_equal. lia.
    + rewrite Hc. repeat case_decide; try lia; done.
Qed.

Lemma memmove_copies m d s n : bytes_ok m -> 0 <= n -> copied m (memmove d s n m) d s n.
Proof.
  intros Hok Hn. unfold memmove. destruct (Z.ltb_spec d s).
  - rewrite <-(Z.add_0_r d) at 1. rewrite <-(Z.add_0_r s) at 1.
    apply copy_up_spec; try done; [by left; lia|lia|apply copied_0].
  - replace (d + n) with (d + Z.of_nat (Z.to_nat n)) by lia.
    replace (s + n) with (s + Z.of_nat (Z.to_nat n)) by lia.
    apply copy_down_spec; [done|lia|lia|]. intros a. rewrite decide_False by lia. done.
Qed.

(** ** NUL-terminated strings *)

(** The string [w] at [a]: its characters, none of them NUL, then a NUL. *)
Fixpoint cstr (m : bytes) (a : Z) (w : list Z) : Prop :=
  match w with
  | [] => get8 m a = 0
  | c :: w' => get8 m a = c /\ 0 < c < 256 /\ cstr m (a + 1) w'
  end.

Lemma strlen_loop_spec m w : forall fuel a len,
  cstr m a w -> (length w < fuel)%nat ->
  strlen_loop fuel a len m = Some (len + Z.of_nat (length w)).
Proof.
  induction w as [|c w IH]; intros fuel a len Hw Hf; (destruct fuel as [|fuel]; [cbn in Hf; lia|]); cbn in *.
  - rewrite Hw. cbn. f_equal. lia.
  - destruct Hw as (-> & Hc & Hw). destruct (Z.eqb_spec c 0); [lia|].
    rewrite IH by (done || lia). f_equal. lia.
Qed.

(** Lexicographic comparison with the sign convention of [strcmp]: the
    difference of the first bytes that differ, a NUL counting as 0. *)
Fixpoint cmp_list (u v : list Z) : Z :=
  match u, v with
  | [], [] => 0
  | [], d :: _ => 0 - d
  | c :: _, [] => c
  | c :: u', d :: v' => if c =? d then cmp_list u' v' else c - d
  end.

Lemma cmp_list_0 u v :
  Forall (fun c => 0 < c) u -> Forall (fun c => 0 < c) v -> cmp_list u v = 0 <-> u = v.
Proof.
  intros Hu. revert v. induction Hu as [|c u Hc _ IH]; intros [|d v] Hv; cbn;
    try apply Forall_cons in Hv as [Hd Hv]; try (split; intros; done || lia).
  destruct (Z.eqb_spec c d) as [->|]; [rewrite IH by done|]; split; intros H; try congruence; try lia.
Qed.

Lemma cstr_pos m a w : cstr m a w -> Forall (fun c => 0 < c) w.
Proof. revert a. induction w as [|c w IH]; intros a; cbn; [constructor|]. intros (_ & ? & ?). constructor; [lia|eauto]. Qed.

Lemma strcmp_spec_loop m u : forall v fuel a b,
  cstr m a u -> cstr m b v -> (length u < fuel)%nat -> strcmp fuel a b m = Some (cmp_list u v).
Proof.
  induction u as [|c u IH]; intros v fuel a b Hu Hv Hf; (destruct fuel as [|fuel]; [cbn in Hf; lia|]); cbn in *.
  - rewrite Hu. destruct v as [|d v]; cbn in *; [by rewrite Hv|]. by destruct Hv as (-> & _).
  - destruct Hu as (-> & Hc & Hu). destruct (Z.eqb_spec c 0); [lia|]. cbn [negb andb].
    destruct v as [|d v]; cbn in *.
    + rewrite Hv. destruct (Z.eqb_spec c 0); [lia|]. f_equal. lia.
    + destruct Hv as (-> & Hd & Hv). destruct (Z.eqb_spec c d); [|done].
      apply IH; done || lia.
Qed.

Lemma strncmp_spec_loop m n : forall u v a b,
  cstr m a u -> cstr m b v -> strncmp_loop n a b m = cmp_list (take n u) (take n v).
Proof.
  induction n as [|n IH]; intros u v a b Hu Hv; [done|]. cbn [strncmp_loop].
  destruct u as [|c u], v as [|d v]; cbn in *.
  - by rewrite Hu, Hv.
  - destruct Hv as (-> & _). by rewrite Hu.
  - destruct Hu as (-> & Hc & _). rewrite Hv. destruct (Z.eqb_spec c 0); [lia|]. cbn. lia.
  - destruct Hu as (-> & Hc & Hu), Hv as (-> & Hd & Hv).
    destruct (Z.eqb_spec c 0); [lia|]. cbn. destruct (Z.eqb_spec c d); [by apply IH|done].
Qed.

(** The first and the last position of a character. *)
Fixpoint index_of (c : Z) (w : list Z) : option Z :=
  match w with
  | [] => None
  | d :: w' => if d =? c then Some 0 else option_map (Z.add 1) (index_of c w')
  end.
Fixpoint last_index (c : Z) (w : list Z) : option Z :=
  match w with
  | [] => None
  | d :: w' =>
      match last_index c w' with
      | Some i => Some (i + 1)
      | None => if d =? c then Some 0 else None
      end
  end.

Definition at_index (a : Z) (i : option Z) (dflt : Z) : Z :=
  match i with Some k => a + k | None => dflt end.

Lemma strchr_spec_loop m c w : forall fuel a,
  cstr m a w -> (length w < fuel)%nat -> 0 < c < 256 ->
  strchr fuel a c m = Some (at_index a (index_of c w) 0).
Proof.
  induction w as [|d w IH]; intros fuel a Hw Hf Hc; (destruct fuel as [|fuel]; [cbn in Hf; lia|]); cbn in *.
  - rewrite Hw. cbn. destruct (Z.eqb_spec c 0); [lia|done].
  - destruct Hw as (-> & Hd & Hw). destruct (Z.eqb_spec d 0); [lia|]. rewrite u8_id by (unfold in_u8; lia).
    destruct (Z.eqb_spec d c); [cbn; f_equal; lia|]. rewrite IH by (done || lia).
    destruct (index_of c w); cbn; f_equal; lia.
Qed.

Lemma strrchr_spec_loop m c w : forall fuel a l,
  cstr m a w -> (length w < fuel)%nat -> 0 < c < 256 ->
  strrchr_loop fuel a c l m = Some (at_index a (last_index c w) l).
Proof.
  induction w as [|d w IH]; intros fuel a l Hw Hf Hc; (destruct fuel as [|fuel]; [cbn in Hf; lia|]); cbn in *;
    rewrite u8_id by (unfold in_u8; lia).
  - rewrite Hw, Z.eqb_refl. destruct (Z.eqb_spec 0 c); [lia|done].
  - destruct Hw as (-> & Hd & Hw). destruct (Z.eqb_spec d 0); [lia|]. rewrite IH by (done || lia).
    destruct (last_index c w); cbn; [f_equal; lia|]. destruct (Z.eqb_spec d c); cbn; f_equal; lia.
Qed.

Lemma cstr_frame m m' w : forall a,
  (forall b, a <= b <= a + Z.of_nat (length w) -> get8 m' b = get8 m b) -> cstr m a w -> cstr m' a w.
Proof.
  induction w as [|c w IH]; intros a Hf; cbn [cstr length] in *.
  - intros H. rewrite Hf; [done|lia].
  - intros (H1 & H2 & H3). rewrite Hf by lia. split_and!; try done; try lia.
    apply IH; [|done]. intros b Hb. apply Hf. lia.
Qed.

Lemma strcpy_spec_loop w : forall fuel d s m,
  cstr m s w -> (length w < fuel)%nat ->
  (d < s \/ s + Z.of_nat (length w) < d) ->
  exists m', strcpy fuel d s m = Some m' /\ cstr m' d w /\
    forall b, b < d \/ d + Z.of_nat (length w) < b -> get8 m' b = get8 m b.
Proof.
  induction w as [|c w IH]; intros fuel d s m Hw Hf Hd; (destruct fuel as [|fuel]; [cbn in Hf; lia|]);
    cbn [strcpy length cstr] in *.
  - rewrite Hw. cbn. eexists. split; [done|]. split; [by rewrite get8_put8_eq|].
    intros b Hb. apply get8_put8_ne. lia.
  - destruct Hw as (Hc & Hr & Hw). rewrite Hc. destruct (Z.eqb_spec c 0); [lia|].
    destruct (IH fuel (d + 1) (s + 1) (put8 d c m)) as (m' & E & Hm' & Hout); [|lia|lia|].
    + apply (cstr_frame m); [|done]. intros b Hb. apply get8_put8_ne. lia.
    + exists m'. split; [done|]. split.
      * rewrite Hout by lia. rewrite get8_put8_eq, u8_id by (unfold in_u8; lia). split_and!; [done|lia..|done].
      * intros b Hb. rewrite Hout by lia. apply get8_put8_ne. lia.
Qed.

Lemma fill_spec n : forall p v m b,
  get8 (fill n p v m) b = if decide (p <= b < p + Z.of_nat n) then u8 v else get8 m b.
Proof.
  induction n as [|n IH]; intros p v m b; cbn [fill].
  - by rewrite decide_False by lia.
  - rewrite IH, get8_put8. repeat case_decide; try lia; done.
Qed.

Lemma memcmp_loop_spec m n : forall x y,
  memcmp_loop n x y m = 0 <-> forall k, 0 <= k < Z.of_nat n -> get8 m (x + k) = get8 m (y + k).
Proof.
  induction n as [|n IH]; intros x y; cbn [memcmp_loop].
  - split; [lia|done].
  - destruct (Z.eqb_spec (get8 m x) (get8 m y)) as [E|E]; cbn [negb].
    + rewrite IH. split; intros H k Hk.
      * destruct (decide (k = 0)) as [->|]; [by rewrite !Z.add_0_r|].
        replace (x + k) with (x + 1 + (k - 1)) by lia. replace (y + k) with (y + 1 + (k - 1)) by lia.
        apply H. lia.
      * rewrite <-!Z.add_assoc. apply H. lia.
    + split; [lia|]. intros H. specialize (H 0 ltac:(lia)). rewrite !Z.add_0_r in H. done.
Qed.
