(* ===== verification/StringTheorems.v ===== *)
(** * The properties of the byte and string routines *)

From S2P Require Import Prelude StringLib StringFacts.

(** Strings "abca" at 100 and "abd" at 200. *)
Module StringDemo.
Definition mem : gmap Z Z :=
  list_to_map [(100, 97); (101, 98); (102, 99); (103, 97); (104, 0);
               (200, 97); (201, 98); (202, 100); (203, 0)].
Lemma mem_ok : bytes_ok mem.
Proof.
  intros a. unfold get8. destruct (mem !! a) as [v|] eqn:E.
  - rewrite (lookup_total_correct _ _ _ E).
    assert (map_Forall (fun _ v => 0 <= v < 256) mem) as Hm by (by apply map_Forall_to_list; vm_compute; repeat constructor).
    by apply (Hm a).
  - rewrite lookup_total_alt, E. cbn. lia.
Qed.
Lemma abca : cstr mem 100 [97; 98; 99; 97].
Proof. cbn [cstr]. split_and!; try lia; by vm_compute. Qed.
Lemma abd : cstr mem 200 [97; 98; 100].
Proof. cbn [cstr]. split_and!; try lia; by vm_compute. Qed.
End StringDemo.

(** C30. [memcpy], which copies 32, then 8, then 1 byte at a time, stores the
    [n] source bytes at the destination and changes no other byte, for
    disjoint objects and for any destination below the source. *)
Theorem memcpy_correct m d s n :
  bytes_ok m -> 0 <= n -> d <= s \/ s + n <= d ->
  forall a, get8 (memcpy d s n m) a =
    if decide (d <= a < d + n) then get8 m (s + (a - d)) else get8 m a.
Proof. intros. by apply memcpy_copies. Qed.

Lemma memcpy_correct_witness :
  (forall a, get8 (memcpy 300 100 37 StringDemo.mem) a =
    if decide (300 <= a < 300 + 37) then get8 StringDemo.mem (100 + (a - 300))
    else get8 StringDemo.mem a) /\
  get8 (memcpy 300 100 37 StringDemo.mem) 302 = 99.
Proof.
  split; [|vm_compute; reflexivity].
  apply (memcpy_correct StringDemo.mem 300 100 37 StringDemo.mem_ok); lia.
Defined.

(** C31. [memmove] copies correctly whatever the overlap of the two objects. *)
Theorem memmove_correct m d s n :
  bytes_ok m -> 0 <= n ->
  forall a, get8 (memmove d s n m) a =
    if decide (d <= a < d + n) then get8 m (s + (a - d)) else get8 m a.
Proof. intros. by apply memmove_copies. Qed.

Lemma memmove_correct_witness :
  (forall a, get8 (memmove 102 100 5 StringDemo.mem) a =
    if decide (102 <= a < 102 + 5) then get8 StringDemo.mem (100 + (a - 102))
    else get8 StringDemo.mem a) /\
  get8 (memmove 102 100 5 StringDemo.mem) 104 = 99.
Proof.
  split; [|vm_compute; reflexivity].
  apply (memmove_correct StringDemo.mem 102 100 5 StringDemo.mem_ok). lia.
Defined.

(** On two strings [strcmp] terminates and returns the difference of their
    first differing bytes, 0 exactly when they are equal; [strncmp] does the
    same for their first [n] bytes. *)
Theorem strcmp_correct m a b u v fuel n :
  cstr m a u -> cstr m b v -> (length u < fuel)%nat ->
  strcmp fuel a b m = Some (cmp_list u v) /\ (cmp_list u v = 0 <-> u = v) /\
  strncmp a b n m = cmp_list (take (Z.to_nat n) u) (take (Z.to_nat n) v).
Proof.
  intros Hu Hv Hf. split_and!.
  - by apply strcmp_spec_loop.
  - apply cmp_list_0; by eapply cstr_pos.
  - by apply strncmp_spec_loop.
Qed.

Lemma strcmp_correct_witness :
  strcmp 5 100 200 StringDemo.mem = Some (cmp_list [97; 98; 99; 97] [97; 98; 100]) /\
  (cmp_list [97; 98; 99; 97] [97; 98; 100] = 0 <-> [97; 98; 99; 97] = [97; 98; 100]) /\
  strncmp 100 200 2 StringDemo.mem = cmp_list (take 2 [97; 98; 99; 97]) (take 2 [97; 98; 100]).
Proof.
  exact (strcmp_correct StringDemo.mem 100 200 [97; 98; 99; 97] [97; 98; 100] 5 2
    StringDemo.abca StringDemo.abd ltac:(cbn; lia)).
Defined.

(** On a string [strlen] returns its length, [strchr] and [strrchr] the
    first and the last position of a character (or NULL), and [strcpy] to a
    place that does not overlap it makes a copy and changes nothing else. *)
Theorem string_scans m a w c d fuel :
  a <> 0 -> cstr m a w -> (length w < fuel)%nat -> 0 < c < 256 ->
  d < a \/ a + Z.of_nat (length w) < d ->
  strlen fuel a m = Some (Z.of_nat (length w)) /\
  strchr fuel a c m = Some (at_index a (index_of c w) 0) /\
  strrchr fuel a c m = Some (at_index a (last_index c w) 0) /\
  exists m', strcpy fuel d a m = Some m' /\ cstr m' d w /\
    forall b, b < d \/ d + Z.of_nat (length w) < b -> get8 m' b = get8 m b.
Proof.
  intros Ha Hw Hf Hc Hd. unfold strlen, strrchr. destruct (Z.eqb_spec a 0); [done|].
  rewrite (strlen_loop_spec m w) by done. split_and!; [done| | |].
  - by apply strchr_spec_loop.
  - by apply strrchr_spec_loop.
  - by apply strcpy_spec_loop.
Qed.

Lemma string_scans_witness :
  strlen 5 100 StringDemo.mem = Some 4 /\
  strchr 5 100 97 StringDemo.mem = Some (at_index 100 (index_of 97 [97; 98; 99; 97]) 0) /\
  strrchr 5 100 97 StringDemo.mem = Some (at_index 100 (last_index 97 [97; 98; 99; 97]) 0) /\
  exists m', strcpy 5 300 100 StringDemo.mem = Some m' /\ cstr m' 300 [97; 98; 99; 97] /\
    forall b, b < 300 \/ 300 + 4 < b -> get8 m' b = get8 StringDemo.mem b.
Proof.
  apply (string_scans StringDemo.mem 100 [97; 98; 99; 97] 97 300 5); try lia;
    [exact StringDemo.abca|cbn; lia|cbn; lia].
Defined.
