(* ===== verification/Fs.v ===== *)
(** * The RAM file system ([kernel/fs/fs.c])

    Nodes ([struct file]) are records in a store indexed by their address;
    [NULL] is 0.  Strings and file contents are lists of bytes kept in the node
    together with the pointer they were allocated at.  Memory comes from an
    [Allocator], what [kmalloc]/[kfree] are for this component. *)

From S2P Require Import Prelude StringLib StringFacts.

(** ** The allocator the file system uses *)

Class Allocator (A : Type) := {
  alloc_op : Z -> M A Z;
  release_op : Z -> M A unit;
  live_ptrs : A -> gset Z;
}.

Class AllocatorLaws (A : Type) `{Allocator A} := {
  alloc_law : forall n s,
    match alloc_op n s with
    | Done (p, s') => (p = 0 /\ live_ptrs s' = live_ptrs s) \/
        (p <> 0 /\ p ∉ live_ptrs s /\ live_ptrs s' = {[p]} ∪ live_ptrs s)
    | Panicked _ => True
    | Fault => False
    end;
  release_law : forall p s, p ∈ live_ptrs s ->
    exists s', release_op p s = Done (tt, s') /\ live_ptrs s' = live_ptrs s ∖ {[p]};
  release_null : forall s, release_op 0 s = Done (tt, s);
}.

(** ** Codes and nodes *)

Definition FS_IS_DIRECTORY : Z := 1.
Definition FS_SUCCESS : Z := 1.
Definition FS_FAIL : Z := 2.
Definition FS_NOT_FOUND : Z := 4.
Definition FS_INVALID_PATH : Z := 8.
Definition FS_NOT_A_DIR : Z := 16.
Definition FS_IS_A_DIR : Z := 32.
Definition FS_BUF_TOO_SMALL : Z := 64.
Definition FS_INVALID_FILE : Z := 128.
Definition FS_FILE_TOO_SMALL : Z := 256.
Definition FS_PERMISSION_DENIED : Z := 512.
Definition FS_DIR_NOT_EMPTY : Z := 1024.
Definition FS_INVALID_FS : Z := 2048.
Definition FS_ALR_EXIST : Z := 4096.
Definition FS_INV_ARG : Z := 8192.
Definition FS_INV_PATH : Z := 16384.

Record file := mk_file {
  f_id : Z;
  f_name : list Z;  f_name_ptr : Z;
  f_parent : Z;
  f_children : Z;
  f_next : Z;
  f_data : list Z;  f_data_ptr : Z;
  f_size : Z;
  f_flags : Z;
}.

Definition set_children (c : Z) (f : file) : file :=
  mk_file f.(f_id) f.(f_name) f.(f_name_ptr) f.(f_parent) c f.(f_next) f.(f_data) f.(f_data_ptr)
    f.(f_size) f.(f_flags).
Definition set_next (n : Z) (f : file) : file :=
  mk_file f.(f_id) f.(f_name) f.(f_name_ptr) f.(f_parent) f.(f_children) n f.(f_data) f.(f_data_ptr)
    f.(f_size) f.(f_flags).
Definition set_parent (p : Z) (f : file) : file :=
  mk_file f.(f_id) f.(f_name) f.(f_name_ptr) p f.(f_children) f.(f_next) f.(f_data) f.(f_data_ptr)
    f.(f_size) f.(f_flags).
Definition set_data (d : list Z) (f : file) : file :=
  mk_file f.(f_id) f.(f_name) f.(f_name_ptr) f.(f_parent) f.(f_children) f.(f_next) d f.(f_data_ptr)
    f.(f_size) f.(f_flags).

Definition is_dir (f : file) : bool := negb (Z.land f.(f_flags) FS_IS_DIRECTORY =? 0).
Definition succeeded (r : Z) : bool := negb (Z.land r FS_SUCCESS =? 0).

Definition slash : Z := 47.
Definition dot : Z := 46.

(** The address of the static variable [root]. *)
Definition root_ptr : Z := 1.

Record fs (A : Type) := mk_fs { nodes : gmap Z file; mem_ : A }.
Arguments mk_fs {A}.
Arguments nodes {A}.
Arguments mem_ {A}.

Section fs.
Context {A : Type} `{Allocator A}.

Definition set_nodes (m : gmap Z file) (s : fs A) : fs A := mk_fs m s.(mem_).

Definition lift_mem {B : Type} (m : M A B) : M (fs A) B := fun s =>
  match m s.(mem_) with
  | Done (b, a) => Done (b, mk_fs s.(nodes) a)
  | Panicked w => Panicked w
  | Fault => Fault
  end.
Definition kmalloc_ (n : Z) : M (fs A) Z := lift_mem (alloc_op n).
Definition kfree_ (p : Z) : M (fs A) unit := lift_mem (release_op p).

Definition get_node (p : Z) : M (fs A) file := fun s =>
  match s.(nodes) !! p with Some f => Done (f, s) | None => Fault end.
Definition put_node (p : Z) (f : file) : M (fs A) unit := modify (fun s => set_nodes (<[p := f]> s.(nodes)) s).
Definition update (p : Z) (g : file -> file) : M (fs A) unit := f ← get_node p; put_node p (g f).

(** More than the number of nodes: no sibling list is longer. *)
Definition node_fuel (s : fs A) : nat := S (base.size s.(nodes)).

(** The first sibling from [f] on that satisfies [t], or NULL. *)
Fixpoint find_sibling (fuel : nat) (t : file -> bool) (f : Z) : M (fs A) Z :=
  match fuel with
  | O => fault
  | S n =>
      if f =? 0 then mret 0 else
      nd ← get_node f;
      if t nd then mret f else find_sibling n t nd.(f_next)
  end.

Definition find_child (dir : Z) (name : list Z) : M (fs A) Z :=
  fuel ← gets node_fuel;
  d ← get_node dir;
  find_sibling fuel (fun nd => cmp_list nd.(f_name) name =? 0) d.(f_children).

Definition link_child (dir child : Z) : M (fs A) unit :=
  _ ← update child (set_parent dir);
  d ← get_node dir;
  _ ← update child (set_next d.(f_children));
  update dir (set_children child).

(** A [struct file **]: where a sibling pointer is stored. *)
Inductive link := LChildren (p : Z) | LNext (p : Z).
Definition read_link (l : link) : M (fs A) Z :=
  match l with
  | LChildren p => f ← get_node p; mret f.(f_children)
  | LNext p => f ← get_node p; mret f.(f_next)
  end.
Definition write_link (l : link) (v : Z) : M (fs A) unit :=
  match l with
  | LChildren p => update p (set_children v)
  | LNext p => update p (set_next v)
  end.

Fixpoint unlink_loop (fuel : nat) (l : link) (target : Z) : M (fs A) bool :=
  match fuel with
  | O => fault
  | S n =>
      v ← read_link l;
      if v =? 0 then mret false
      else if v =? target then
        t ← get_node target;
        _ ← write_link l t.(f_next);
        _ ← update target (set_next 0);
        mret true
      else unlink_loop n (LNext v) target
  end.

Definition unlink_child (parent target : Z) : M (fs A) bool :=
  fuel ← gets node_fuel;
  unlink_loop fuel (LChildren parent) target.

(** ** Paths *)

Fixpoint skip_slashes (p : list Z) : list Z :=
  match p with
  | c :: p' => if c =? slash then skip_slashes p' else p
  | [] => []
  end.

(** The characters up to the next slash, and the rest. *)
Fixpoint component (p : list Z) : list Z * list Z :=
  match p with
  | c :: p' => if c =? slash then ([], p) else let '(w, r) := component p' in (c :: w, r)
  | [] => ([], [])
  end.

Definition matches (comp : list Z) (nd : file) : bool :=
  (length nd.(f_name) =? length comp)%nat && bool_decide (take (length comp) nd.(f_name) = comp).

(** The loop of [parse_path]; the result is a code and the node reached. *)
Fixpoint parse_loop (fuel : nat) (path : list Z) (current : Z) : M (fs A) (Z * Z) :=
  match fuel with
  | O => fault
  | S n =>
      match path with
      | [] => mret (FS_SUCCESS, current)
      | _ =>
          let '(comp, rest) := component path in
          let path' := skip_slashes rest in
          if bool_decide (comp = [dot]) then parse_loop n path' current
          else if bool_decide (comp = [dot; dot]) then
            c ← get_node current; parse_loop n path' c.(f_parent)
          else
            c ← get_node current;
            if negb (is_dir c) then mret (FS_NOT_A_DIR, 0) else
            k ← gets node_fuel;
            child ← find_sibling k (matches comp) c.(f_children);
            if child =? 0 then mret (FS_NOT_FOUND, 0) else parse_loop n path' child
      end
  end.

Definition parse_path (path : option (list Z)) : M (fs A) (Z * Z) :=
  match path with
  | None => mret (FS_INVALID_PATH, 0)
  | Some p => let p' := skip_slashes p in parse_loop (S (length p')) p' root_ptr
  end.

(** ** Reading and writing *)

(** The code and the bytes stored at [buffer]. *)
Definition read_file_content (path : option (list Z)) (buffer_null : bool) (buf_size : Z)
    : M (fs A) (Z * list Z) :=
  '(a, b) ← parse_path path;
  if negb (succeeded a) then mret (a, []) else
  f ← get_node b;
  if is_dir f then mret (FS_IS_A_DIR, [])
  else if buf_size <? f.(f_size) then mret (FS_BUF_TOO_SMALL, [])
  else if negb (f.(f_size) =? 0) && (f.(f_data_ptr) =? 0) then mret (FS_INVALID_FILE, [])
  else if negb (f.(f_size) =? 0) && buffer_null then mret (FS_INV_ARG, [])
  else mret (FS_SUCCESS, take (Z.to_nat f.(f_size)) f.(f_data)).

(** [memcpy(data, buffer, n)] *)
Definition overwrite (data buffer : list Z) (n : Z) : list Z :=
  take (Z.to_nat n) buffer ++ drop (Z.to_nat n) data.

Definition write_file_content (path : option (list Z)) (buffer : option (list Z)) (buf_size : Z)
    : M (fs A) Z :=
  '(a, b) ← parse_path path;
  if negb (succeeded a) then mret a else
  f ← get_node b;
  if is_dir f then mret FS_IS_A_DIR
  else if f.(f_size) <? buf_size then mret FS_FILE_TOO_SMALL
  else if negb (buf_size =? 0) && (f.(f_data_ptr) =? 0) then mret FS_INVALID_FILE
  else match buffer with
       | None => if negb (f.(f_size) =? 0) then mret FS_INV_ARG else mret FS_SUCCESS
       | Some bytes =>
           if Z.of_nat (length bytes) <? buf_size then fault else
           _ ← put_node b (set_data (overwrite f.(f_data) bytes buf_size) f);
           mret FS_SUCCESS
       end.

(** ** Creating and deleting *)

Definition delete_file (path : option (list Z)) : M (fs A) Z :=
  '(status, target) ← parse_path path;
  if negb (status =? FS_SUCCESS) then mret status
  else if target =? root_ptr then mret FS_PERMISSION_DENIED
  else
    t ← get_node target;
    if is_dir t && negb (t.(f_children) =? 0) then mret FS_DIR_NOT_EMPTY
    else
      ok ← (if t.(f_parent) =? 0 then mret false else unlink_child t.(f_parent) target);
      if negb ok then mret FS_INVALID_FS
      else
        _ ← kfree_ t.(f_name_ptr);
        _ ← kfree_ t.(f_data_ptr);
        _ ← kfree_ target;
        _ ← modify (fun s => set_nodes (delete target s.(nodes)) s);
        mret FS_SUCCESS.

(** [sizeof(struct file)] *)
Definition sizeof_file : Z := 64.

(** The end of [create_file]: the node and its data. *)
Definition make_file (parent name_ptr : Z) (name : list Z) (data : option (list Z)) (size flags : Z)
    : M (fs A) Z :=
  (* kcalloc runs memset on what kmalloc returned *)
  fp ← kmalloc_ sizeof_file;
  if fp =? 0 then fault else
  let fin (dp : Z) : M (fs A) Z :=
    _ ← put_node fp (mk_file 0 name name_ptr 0 0 0
          (take (Z.to_nat size) (default [] data)) dp size (u16 flags));
    _ ← link_child parent fp;
    mret FS_SUCCESS in
  if negb (size =? 0) then
    dp ← kmalloc_ size;
    if dp =? 0 then
      _ ← kfree_ name_ptr; _ ← kfree_ fp; mret FS_FAIL
    else if Z.of_nat (length (default [] data)) <? size then fault (* memcpy past the data *)
    else fin dp
  else fin 0.

(** The directory part and the last component of a path. *)
Definition split_path (path : list Z) : list Z * list Z :=
  match last_index slash path with
  | None => ([dot], path)
  | Some i =>
      ((if i =? 0 then [slash] else take (Z.to_nat i) path), drop (S (Z.to_nat i)) path)
  end.

(** [create_file] once the path of the parent has led to a node: the copy of
    the name is at [np]. *)
Definition create_in (parent np : Z) (name : list Z) (data : option (list Z)) (size flags : Z) : M (fs A) Z :=
  par ← get_node parent;
  if negb (is_dir par) then (_ ← kfree_ np; mret FS_NOT_A_DIR) else
  existing ← find_child parent name;
  if negb (existing =? 0) then (_ ← kfree_ np; mret FS_ALR_EXIST)
  else make_file parent np name data size flags.

Definition create_file (path : option (list Z)) (data : option (list Z)) (size flags : Z) : M (fs A) Z :=
  let isdir := negb (Z.land flags FS_IS_DIRECTORY =? 0) in
  match path with
  | None => mret FS_INV_ARG
  | Some p =>
      if match data with None => negb (size =? 0) && negb isdir | Some _ => false end
      then mret FS_INV_ARG
      else if (length p =? 0)%nat || (List.last p 0 =? slash) then mret FS_INV_PATH
      else
        let '(parent_path, name) := split_path p in
        pp ← kmalloc_ (match last_index slash p with None => 2 | Some i => i + 2 end);
        if pp =? 0 then mret FS_FAIL else
        np ← kmalloc_ (Z.of_nat (length name) + 1);
        if np =? 0 then (_ ← kfree_ pp; mret FS_FAIL) else
        if (cmp_list name [dot] =? 0) || (cmp_list name [dot; dot] =? 0) then
          _ ← kfree_ np; _ ← kfree_ pp; mret FS_FAIL
        else
          '(status, parent) ← parse_path (Some parent_path);
          _ ← kfree_ pp;
          if negb (status =? FS_SUCCESS) then (_ ← kfree_ np; mret status) else
          create_in parent np name data size flags
  end.

Definition create_folder (path : option (list Z)) : M (fs A) Z :=
  r ← create_file path None 0 FS_IS_DIRECTORY;
  if negb (succeeded r) then mret r else mret FS_SUCCESS.

Definition delete_folder (path : option (list Z)) : M (fs A) Z :=
  r ← delete_file path;
  if negb (succeeded r) then mret r else mret FS_SUCCESS.

(** The code and the value stored through [list]. *)
Definition list_files (path : option (list Z)) (list_null : bool) : M (fs A) (Z * Z) :=
  if list_null then mret (FS_INV_ARG, 0) else
  '(a, folder) ← parse_path path;
  if negb (succeeded a) then mret (a, 0) else
  f ← get_node folder;
  mret (FS_SUCCESS, f.(f_children)).

(** The loop of [create_file_force]: at every round [p] is what follows the
    current component, and that is the path looked up and created. *)
Fixpoint force_loop (fuel : nat) (p : list Z) (data : option (list Z)) (size flags : Z) : M (fs A) Z :=
  match fuel with
  | O => fault
  | S n =>
      match p with
      | [] => mret FS_SUCCESS
      | _ =>
          let '(_, rest) := component p in
          let p' := skip_slashes rest in
          let is_last := match p' with [] => true | _ => false end in
          '(a, _) ← parse_path (Some p');
          if negb (succeeded a) then
            c ← (if is_last then create_file (Some p') data size flags else create_folder (Some p'));
            if negb (succeeded c) then mret FS_FAIL else force_loop n p' data size flags
          else force_loop n p' data size flags
      end
  end.

Definition create_file_force (path : option (list Z)) (data : option (list Z)) (size flags : Z)
    : M (fs A) Z :=
  match path with
  | None => mret FS_INV_ARG
  | Some p =>
      if match data with None => negb (size =? 0) | Some _ => false end then mret FS_INV_ARG
      else let p' := skip_slashes p in force_loop (S (length p')) p' data size flags
  end.

(** [init_fs] up to the ramdisk: the root directory, its own parent. *)
Definition root_node : file := mk_file 0 [114; 111; 111; 116] 0 root_ptr 0 0 [] 0 0 FS_IS_DIRECTORY.
Definition init_root : M (fs A) unit := modify (fun s => set_nodes {[ root_ptr := root_node ]} s).
End fs.
