(* ===== verification/FsFacts.v ===== *)
(** * Path resolution

    The tree that the node store holds, and [parse_path] against a reference
    that splits the path first and then walks the components. *)

From S2P Require Import Prelude StringLib StringFacts Fs.

(** ** The tree *)

(** [l] is the sibling list that starts at [p]. *)
Fixpoint sib (m : gmap Z file) (p : Z) (l : list Z) : Prop :=
  match l with
  | [] => p = 0
  | c :: l' => p = c /\ c <> 0 /\ exists f, m !! c = Some f /\ sib m f.(f_next) l'
  end.

(** The siblings from [p] on, as far as the store reaches. *)
Fixpoint siblings (fuel : nat) (m : gmap Z file) (p : Z) : list Z :=
  match fuel with
  | O => []
  | S n =>
      if p =? 0 then []
      else match m !! p with Some f => p :: siblings n m f.(f_next) | None => [] end
  end.

Definition kids (m : gmap Z file) (d : file) : list Z := siblings (S (base.size m)) m d.(f_children).

Record tree_wf (m : gmap Z file) : Prop := {
  tw_root : exists r, m !! root_ptr = Some r /\ is_dir r = true /\ r.(f_parent) = root_ptr;
  tw_null : m !! 0 = None;
  tw_kids : forall p f, m !! p = Some f ->
    exists l, sib m f.(f_children) l /\ NoDup l /\
      forall c, c ∈ l -> c <> root_ptr /\ exists g, m !! c = Some g /\ g.(f_parent) = p;
  tw_parent : forall p f, m !! p = Some f ->
    exists g, m !! f.(f_parent) = Some g /\ is_dir g = true;
}.

Lemma sib_det m l : forall l' p, sib m p l -> sib m p l' -> l = l'.
Proof.
  induction l as [|c l IH]; intros [|d l'] p; cbn; try done.
  - intros -> (? & ? & _). congruence.
  - intros (? & ? & _) ->. congruence.
  - intros (-> & _ & f & Hf & Hl) (-> & _ & g & Hg & Hl'). rewrite Hf in Hg. injection Hg as <-.
    f_equal. by eapply IH.
Qed.

Lemma sib_dom m l : forall p, sib m p l -> forall c, c ∈ l -> is_Some (m !! c) /\ c <> 0.
Proof.
  induction l as [|d l IH]; intros p Hs c Hc; [by apply not_elem_of_nil in Hc|].
  destruct Hs as (-> & Hd & f & Hf & Hl). apply elem_of_cons in Hc as [->|Hc]; [by split; [eexists|]|].
  by eapply IH.
Qed.

Lemma sib_length m l p : sib m p l -> NoDup l -> (length l <= base.size m)%nat.
Proof.
  intros Hs Hnd. rewrite <-size_dom. rewrite <-(size_list_to_set (C:=gset Z) l) by done.
  apply subseteq_size. intros c Hc. apply elem_of_list_to_set in Hc.
  apply elem_of_dom. by apply (sib_dom m l p Hs).
Qed.

Lemma siblings_sib m l : forall fuel p, sib m p l -> (length l < fuel)%nat -> siblings fuel m p = l.
Proof.
  induction l as [|c l IH]; intros fuel p Hs Hl; (destruct fuel as [|n]; [cbn in Hl; lia|]); cbn in *.
  - by rewrite Hs.
  - destruct Hs as (-> & Hc & f & Hf & Hs). destruct (Z.eqb_spec c 0); [done|]. rewrite Hf.
    f_equal. apply IH; [done|lia].
Qed.

Lemma kids_sib m p f :
  tree_wf m -> m !! p = Some f ->
  sib m f.(f_children) (kids m f) /\ NoDup (kids m f) /\ (length (kids m f) <= base.size m)%nat /\
  forall c, c ∈ kids m f -> c <> root_ptr /\ exists g, m !! c = Some g /\ g.(f_parent) = p.
Proof.
  intros Hwf Hf. destruct (tw_kids _ Hwf p f Hf) as (l & Hs & Hnd & Hc).
  pose proof (sib_length _ _ _ Hs Hnd) as Hl.
  assert (kids m f = l) as -> by (apply siblings_sib; [done|lia]). done.
Qed.

(** The first child of the list that satisfies [t]. *)
Fixpoint first_match (m : gmap Z file) (t : file -> bool) (l : list Z) : Z :=
  match l with
  | [] => 0
  | c :: l' =>
      match m !! c with Some f => if t f then c else first_match m t l' | None => 0 end
  end.

Definition parent_of (m : gmap Z file) (p : Z) : Z :=
  match m !! p with Some f => f.(f_parent) | None => 0 end.

(** ** The reference *)

(** The non-empty components between slashes. *)
Fixpoint split_go (p acc : list Z) : list (list Z) :=
  match p with
  | [] => match acc with [] => [] | _ => [rev acc] end
  | c :: p' =>
      if c =? slash then match acc with [] => split_go p' [] | _ => rev acc :: split_go p' [] end
      else split_go p' (c :: acc)
  end.
Definition components (p : list Z) : list (list Z) := split_go p [].

(** The node is called [c], byte for byte. *)
Definition named (c : list Z) (nd : file) : bool := bool_decide (nd.(f_name) = c).

Lemma named_name c nd : named c nd = bool_decide (nd.(f_name) = c).
Proof. done. Qed.

(** The test of the code, on a component and a name, is that one. *)
Lemma matches_named c nd : matches c nd = named c nd.
Proof.
  unfold matches, named. destruct (Nat.eqb_spec (length nd.(f_name)) (length c)) as [Hl|Hl]; cbn.
  - rewrite take_ge by lia. done.
  - symmetry. apply bool_decide_eq_false. congruence.
Qed.

Lemma first_match_ext m t t' l : (forall nd, t nd = t' nd) -> first_match m t l = first_match m t' l.
Proof.
  intros Ht. induction l as [|c l IH]; [done|]. cbn. destruct (m !! c) as [f|]; [|done]. by rewrite Ht, IH.
Qed.

(** Walking components from a node. *)
Fixpoint resolve (m : gmap Z file) (cur : Z) (comps : list (list Z)) : Z * Z :=
  match comps with
  | [] => (FS_SUCCESS, cur)
  | c :: cs =>
      if bool_decide (c = [dot]) then resolve m cur cs
      else if bool_decide (c = [dot; dot]) then resolve m (parent_of m cur) cs
      else
        match m !! cur with
        | None => (0, 0)
        | Some f =>
            if negb (is_dir f) then (FS_NOT_A_DIR, 0)
            else
              let child := first_match m (named c) (kids m f) in
              if child =? 0 then (FS_NOT_FOUND, 0) else resolve m child cs
        end
  end.

(** ** Splitting *)

Lemma component_spec p : forall w r acc,
  component p = (w, r) ->
  split_go p acc = match rev w ++ acc with [] => [] | _ => [rev (rev w ++ acc)] end ++ split_go r [] /\
  (r = [] \/ exists r', r = slash :: r') /\ (length r <= length p)%nat /\
  (w = [] -> r = p) /\ (w <> [] -> (length r < length p)%nat).
Proof.
  induction p as [|c p IH]; intros w r acc E; cbn in E.
  - injection E as <- <-. cbn. split_and!; try done; [by destruct acc|by left].
  - cbn [split_go]. destruct (Z.eqb_spec c slash) as [->|Hc].
    + injection E as <- <-. cbn [rev app]. split_and!; try done; [|by right; eexists].
      cbn [split_go]. rewrite Z.eqb_refl. by destruct acc.
    + destruct (component p) as [w' r'] eqn:Ep. injection E as <- <-.
      destruct (IH w' r' (c :: acc) eq_refl) as (-> & Hr & Hl & Hw & Hw').
      cbn [rev]. rewrite <-app_assoc. cbn [app length]. split_and!; try done; lia.
Qed.

Lemma skip_components p acc : acc = [] -> split_go (skip_slashes p) acc = split_go p acc.
Proof.
  intros ->. induction p as [|c p IH]; [done|]. cbn. destruct (Z.eqb_spec c slash) as [->|]; [|cbn].
  - done.
  - by destruct (Z.eqb_spec c slash).
Qed.

Lemma skip_length p : (length (skip_slashes p) <= length p)%nat.
Proof. induction p as [|c p IH]; cbn; [lia|]. destruct (c =? slash); cbn; lia. Qed.

Lemma skip_head p c p' : skip_slashes p = c :: p' -> c <> slash.
Proof.
  induction p as [|d p IH]; cbn; [done|]. destruct (Z.eqb_spec d slash); [done|]. by intros [= -> ->].
Qed.

(** One round of the parser takes the first component off. *)
Lemma components_step p w r c p' :
  p = c :: p' -> c <> slash -> component p = (w, r) ->
  components p = w :: components (skip_slashes r) /\ w <> [] /\
  (length (skip_slashes r) < length p)%nat.
Proof.
  intros Hp Hc E. destruct (component_spec p w r [] E) as (Hs & _ & Hl & Hw & Hw').
  assert (w <> []) as Hne.
  { intros ->. subst p. cbn in E. destruct (Z.eqb_spec c slash); [done|].
    by destruct (component p'). }
  unfold components. rewrite Hs, app_nil_r, rev_involutive, skip_components by done.
  pose proof (skip_length r). specialize (Hw' Hne). split_and!; [|done|lia].
  destruct w as [|d w]; [done|]. cbn [rev]. by destruct (rev w ++ [d]) eqn:Er; [destruct (rev w)|].
Qed.

(** ** The parser computes the reference *)

Section resolve_facts.
Context {A : Type} `{Allocator A}.

Lemma find_sibling_spec (s : fs A) t l : forall fuel p,
  sib s.(nodes) p l -> (length l < fuel)%nat ->
  find_sibling fuel t p s = Done (first_match s.(nodes) t l, s).
Proof.
  induction l as [|c l IH]; intros fuel p Hs Hl; (destruct fuel as [|n]; [cbn in Hl; lia|]); cbn in *.
  - by subst p.
  - destruct Hs as (-> & Hc & f & Hf & Hs). destruct (Z.eqb_spec c 0); [done|].
    unfold mbind, M_bind, get_node. rewrite Hf. destruct (t f); [done|]. apply IH; [done|lia].
Qed.

Lemma find_sibling_kids (s : fs A) t p f :
  tree_wf s.(nodes) -> s.(nodes) !! p = Some f ->
  find_sibling (node_fuel s) t f.(f_children) s = Done (first_match s.(nodes) t (kids s.(nodes) f), s).
Proof.
  intros Hwf Hf. destruct (kids_sib _ _ _ Hwf Hf) as (Hs & _ & Hl & _).
  apply find_sibling_spec; [done|]. unfold node_fuel. lia.
Qed.

Lemma first_match_kid m t l :
  first_match m t l <> 0 ->
  first_match m t l ∈ l /\ exists f, m !! first_match m t l = Some f /\ t f = true.
Proof.
  induction l as [|c l IH]; cbn; [done|]. destruct (m !! c) as [f|] eqn:Hf; [|done].
  destruct (t f) eqn:Ht; [intros _; split; [set_solver|by exists f]|].
  intros Hn. destruct (IH Hn) as [Hi He]. split; [set_solver|done].
Qed.

Lemma parent_some m p : tree_wf m -> is_Some (m !! p) -> is_Some (m !! parent_of m p).
Proof.
  intros Hwf [f Hf]. unfold parent_of. rewrite Hf.
  destruct (tw_parent _ Hwf _ _ Hf) as (g & -> & _). by eexists.
Qed.

Lemma parse_loop_resolve (s : fs A) : tree_wf s.(nodes) -> forall fuel path cur,
  is_Some (s.(nodes) !! cur) -> (length path < fuel)%nat -> skip_slashes path = path ->
  parse_loop fuel path cur s = Done (resolve s.(nodes) cur (components path), s).
Proof.
  intros Hwf fuel. induction fuel as [|n IH]; intros path cur Hcur Hl Hsk; [lia|].
  destruct path as [|c path']; [done|].
  assert (c <> slash) as Hc by (eapply skip_head; exact Hsk).
  cbn [parse_loop]. destruct (component (c :: path')) as [w r] eqn:Ew.
  destruct (components_step _ w r c path' eq_refl Hc Ew) as (-> & Hw & Hlen).
  assert (forall cur', is_Some (s.(nodes) !! cur') ->
    parse_loop n (skip_slashes r) cur' s
      = Done (resolve s.(nodes) cur' (components (skip_slashes r)), s)) as Hrec.
  { intros cur' Hc'. apply IH; [done|lia|]. clear. induction r as [|d r IH]; [done|].
    cbn. destruct (Z.eqb_spec d slash); [done|]. cbn. by destruct (Z.eqb_spec d slash). }
  cbn [resolve]. case_bool_decide; [by apply Hrec|].
  destruct Hcur as [f Hf].
  assert (get_node cur s = Done (f, s)) as Hg by (unfold get_node; by rewrite Hf).
  case_bool_decide.
  - rewrite (bind_eq _ _ _ _ _ Hg). rewrite Hrec.
    + unfold parent_of. by rewrite Hf.
    + replace (f_parent f) with (parent_of s.(nodes) cur) by (unfold parent_of; by rewrite Hf).
      apply parent_some; [done|by eexists].
  - rewrite (bind_eq _ _ _ _ _ Hg), Hf. destruct (is_dir f); cbn [negb]; [|done].
    rewrite (bind_eq _ _ _ _ _ (gets_eq node_fuel s)).
    rewrite (bind_eq _ _ _ _ _ (find_sibling_kids s (matches w) cur f Hwf Hf)).
    rewrite (first_match_ext _ _ (named w)) by apply matches_named.
    destruct (Z.eqb_spec (first_match s.(nodes) (named w) (kids s.(nodes) f)) 0) as [|Hn]; [done|].
    apply Hrec. apply first_match_kid in Hn as (_ & g & -> & _). by eexists.
Qed.

(** A path: NUL-terminated string or NULL. *)
Definition lookup_path (m : gmap Z file) (p : option (list Z)) : Z * Z :=
  match p with
  | None => (FS_INVALID_PATH, 0)
  | Some p => resolve m root_ptr (components p)
  end.

Lemma skip_idem p : skip_slashes (skip_slashes p) = skip_slashes p.
Proof.
  induction p as [|c p IH]; [done|]. cbn. destruct (Z.eqb_spec c slash); [done|].
  cbn. by destruct (Z.eqb_spec c slash).
Qed.

Lemma parse_path_lookup (s : fs A) p :
  tree_wf s.(nodes) -> parse_path p s = Done (lookup_path s.(nodes) p, s).
Proof.
  intros Hwf. destruct p as [p|]; [|done]. cbn [parse_path lookup_path].
  rewrite parse_loop_resolve; [|done| |lia|apply skip_idem].
  - unfold components. by rewrite skip_components.
  - destruct (tw_root _ Hwf) as (r & -> & _). by eexists.
Qed.
End resolve_facts.

Lemma resolve_result m : tree_wf m -> forall comps cur,
  is_Some (m !! cur) ->
  (exists p, resolve m cur comps = (FS_SUCCESS, p) /\ is_Some (m !! p)) \/
  resolve m cur comps = (FS_NOT_FOUND, 0) \/ resolve m cur comps = (FS_NOT_A_DIR, 0).
Proof.
  intros Hwf comps. induction comps as [|c cs IH]; intros cur Hcur; cbn [resolve]; [left; by exists cur|].
  case_bool_decide; [by apply IH|]. case_bool_decide; [apply IH; by apply parent_some|].
  destruct Hcur as [f Hf]. rewrite Hf. destruct (is_dir f); cbn [negb]; [|right; right; done].
  destruct (Z.eqb_spec (first_match m (named c) (kids m f)) 0) as [|Hn]; [right; left; done|].
  apply IH. apply first_match_kid in Hn as (_ & g & -> & _). by eexists.
Qed.
