(* ===== verification/FsTree.v ===== *)
(** * Adding and removing a directory entry

    What [link_child] and [unlink_child] do to the tree, stated on the node
    store alone: sibling lists, path resolution and the file-system
    invariant. *)

From S2P Require Import Prelude StringLib StringFacts Fs FsFacts.

(** ** Sibling lists *)

Lemma kids_eq m f l : sib m f.(f_children) l -> NoDup l -> kids m f = l.
Proof.
  intros Hs Hnd. pose proof (sib_length _ _ _ Hs Hnd). apply siblings_sib; [done|lia].
Qed.

(** [m'] has the nodes [l] with the same links. *)
Lemma sib_same m m' l : forall p,
  (forall c f, c ∈ l -> m !! c = Some f -> exists f', m' !! c = Some f' /\ f'.(f_next) = f.(f_next)) ->
  sib m p l -> sib m' p l.
Proof.
  induction l as [|c l IH]; intros p Hm Hs; [done|].
  destruct Hs as (-> & Hc & f & Hf & Hs). cbn.
  destruct (Hm c f) as (f' & Hf' & Hn); [set_solver|done|].
  split_and!; [done..|]. exists f'. split; [done|]. rewrite Hn. apply IH; [|done].
  intros d g Hd. apply Hm. set_solver.
Qed.

(** The name of the node at [c]. *)
Definition kname (m : gmap Z file) (c : Z) : list Z :=
  match m !! c with Some f => f.(f_name) | None => [] end.

Lemma first_match_same m m' c l :
  (forall x, x ∈ l -> is_Some (m !! x) /\ is_Some (m' !! x) /\ kname m' x = kname m x) ->
  first_match m' (named c) l = first_match m (named c) l.
Proof.
  induction l as [|d l IH]; intros Hm; [done|]. cbn.
  destruct (Hm d) as ([f Hf] & [f' Hf'] & Hn); [set_solver|].
  unfold kname in Hn. rewrite Hf, Hf' in *. rewrite !named_name, Hn, IH; [done|].
  intros x Hx. apply Hm. set_solver.
Qed.

Lemma first_match_none m c l :
  (forall x, x ∈ l -> kname m x <> c) -> first_match m (named c) l = 0.
Proof.
  induction l as [|d l IH]; intros Hm; [done|]. cbn. specialize (Hm d) as Hd.
  unfold kname in Hd. destruct (m !! d) as [f|] eqn:Hf; [|done]. rewrite named_name.
  rewrite bool_decide_eq_false_2 by (apply Hd; set_solver). apply IH. intros x Hx. apply Hm. set_solver.
Qed.

Lemma first_match_some m c l x :
  (forall y, y ∈ l -> is_Some (m !! y)) -> NoDup (kname m <$> l) -> x ∈ l -> kname m x = c ->
  first_match m (named c) l = x.
Proof.
  induction l as [|d l IH]; intros Hm Hnd Hx Hc; [set_solver|]. cbn in *.
  apply NoDup_cons in Hnd as [Hd Hnd]. destruct (Hm d) as [f Hf]; [set_solver|].
  rewrite Hf, named_name. case_bool_decide as Hn.
  - apply elem_of_cons in Hx as [->|Hx]; [done|]. destruct Hd. apply list_elem_of_fmap.
    exists x. split; [|done]. rewrite Hc. unfold kname. by rewrite Hf.
  - apply elem_of_cons in Hx as [->|Hx]; [unfold kname in Hc; rewrite Hf in Hc; congruence|].
    apply IH; try done. intros y Hy. apply Hm. set_solver.
Qed.

Lemma resolve_app m a : forall cur p b,
  resolve m cur a = (FS_SUCCESS, p) -> resolve m cur (a ++ b) = resolve m p b.
Proof.
  induction a as [|c a IH]; intros cur p b; cbn [resolve app]; [by intros [= ->]|].
  repeat (case_bool_decide; [by apply IH|]). destruct (m !! cur) as [f|]; [|done].
  destruct (is_dir f); cbn [negb]; [|done]. destruct (_ =? 0); [done|]. apply IH.
Qed.

(** ** The invariant *)

Definition owned (p : Z) (f : file) : gset Z :=
  {[ p; f.(f_name_ptr) ]} ∪ (if f.(f_data_ptr) =? 0 then ∅ else {[ f.(f_data_ptr) ]}).

(** A node that the file system built: its name is a C string, the data has
    the recorded size and is there when it is not empty, and its allocations
    are distinct. *)
Record file_ok (p : Z) (f : file) : Prop := {
  fo_name : Forall (fun c => 0 < c) f.(f_name);
  fo_size : f.(f_size) = Z.of_nat (length f.(f_data));
  fo_data : f.(f_size) <> 0 -> f.(f_data_ptr) <> 0;
  fo_own : p <> root_ptr ->
    p <> f.(f_name_ptr) /\ (f.(f_data_ptr) <> 0 -> f.(f_data_ptr) <> p /\ f.(f_data_ptr) <> f.(f_name_ptr));
}.

(** The store is a tree of well-formed nodes with distinct names in every
    directory, and no two nodes share an allocation. *)
Record store_ok (m : gmap Z file) : Prop := {
  so_tree : tree_wf m;
  so_linked : forall p f, m !! p = Some f -> p <> root_ptr ->
    exists g, m !! f.(f_parent) = Some g /\ p ∈ kids m g;
  so_names : forall p f, m !! p = Some f -> NoDup (kname m <$> kids m f);
  so_file : forall p f, m !! p = Some f -> file_ok p f;
  so_disjoint : forall p q f g, m !! p = Some f -> m !! q = Some g ->
    p <> root_ptr -> q <> root_ptr -> p <> q -> owned p f ## owned q g;
}.

(** ** A new entry *)

Section insert_child.
Context (m : gmap Z file) (dir : Z) (d : file) (fp : Z) (new : file).
Context (Hm : store_ok m) (Hd : m !! dir = Some d) (Hdir : is_dir d = true).
Context (Hfp : m !! fp = None) (Hfp0 : fp <> 0).
Context (Hnext : new.(f_next) = d.(f_children)) (Hch : new.(f_children) = 0).
Context (Hpar : new.(f_parent) = dir).
Context (Hname : forall c, c ∈ kids m d -> kname m c <> new.(f_name)).

Definition insert_child : gmap Z file := <[dir := set_children fp d]> (<[fp := new]> m).
Local Notation m' := insert_child.

Lemma ins_ne : dir <> fp.
Proof. congruence. Qed.
Lemma ins_dir : m' !! dir = Some (set_children fp d).
Proof. apply lookup_insert_eq. Qed.
Lemma ins_new : m' !! fp = Some new.
Proof. unfold insert_child. rewrite lookup_insert_ne by apply ins_ne. apply lookup_insert_eq. Qed.
Lemma ins_other p : p <> dir -> p <> fp -> m' !! p = m !! p.
Proof. intros. unfold insert_child. by rewrite !lookup_insert_ne. Qed.

Lemma ins_old p f : m !! p = Some f ->
  exists f', m' !! p = Some f' /\ (p <> dir /\ f' = f \/ p = dir /\ f' = set_children fp f).
Proof.
  intros Hf. destruct (decide (p = dir)) as [->|].
  - rewrite ins_dir. replace f with d by congruence. eauto.
  - rewrite ins_other by congruence. eauto.
Qed.

Lemma ins_inv p f' : m' !! p = Some f' ->
  p = fp /\ f' = new \/
  exists f, m !! p = Some f /\ (p <> dir /\ f' = f \/ p = dir /\ f' = set_children fp f).
Proof.
  intros Hf. destruct (decide (p = fp)) as [->|]; [left; rewrite ins_new in Hf; by injection Hf as ->|].
  right. destruct (decide (p = dir)) as [->|].
  - rewrite ins_dir in Hf. injection Hf as <-. eauto.
  - rewrite ins_other in Hf by done. eauto.
Qed.

Lemma ins_kname p : is_Some (m !! p) -> kname m' p = kname m p.
Proof.
  intros [f Hf]. unfold kname. destruct (ins_old p f Hf) as (f' & -> & [[_ ->]|[_ ->]]); by rewrite Hf.
Qed.
Lemma ins_kname_new : kname m' fp = new.(f_name).
Proof. unfold kname. by rewrite ins_new. Qed.
Lemma ins_parent p : is_Some (m !! p) -> parent_of m' p = parent_of m p.
Proof.
  intros [f Hf]. unfold parent_of. destruct (ins_old p f Hf) as (f' & -> & [[_ ->]|[_ ->]]); by rewrite Hf.
Qed.

Lemma ins_sib p l : sib m p l -> sib m' p l.
Proof.
  apply sib_same. intros c f _ Hf. destruct (ins_old c f Hf) as (f' & -> & [[_ ->]|[_ ->]]); eauto.
Qed.

Lemma ins_kids p f : m !! p = Some f -> kids m' f = kids m f.
Proof.
  intros Hf. destruct (kids_sib _ _ _ (so_tree _ Hm) Hf) as (Hs & Hnd & _).
  apply kids_eq; [|done]. by apply ins_sib.
Qed.

Lemma ins_kids_dir : kids m' (set_children fp d) = fp :: kids m d.
Proof.
  destruct (kids_sib _ _ _ (so_tree _ Hm) Hd) as (Hs & Hnd & _ & Hk).
  apply kids_eq; cbn.
  - split_and!; [done..|]. exists new. split; [apply ins_new|]. rewrite Hnext. by apply ins_sib.
  - apply NoDup_cons. split; [|done]. intros Hi. destruct (Hk _ Hi) as (_ & g & ? & _). congruence.
Qed.

Lemma ins_kids_new : kids m' new = [].
Proof. apply kids_eq; [by rewrite Hch|constructor]. Qed.

Lemma ins_tree : tree_wf m'.
Proof.
  pose proof (so_tree _ Hm) as Hwf. split.
  - destruct (tw_root _ Hwf) as (r & Hr & Hrd & Hrp).
    destruct (ins_old _ _ Hr) as (r' & Hr' & [[_ ->]|[_ ->]]); eauto.
  - rewrite ins_other; [apply (tw_null _ Hwf)| |done].
    intros <-. rewrite (tw_null _ Hwf) in Hd. done.
  - intros p f' Hf'. apply ins_inv in Hf' as [[-> ->]|(f & Hf & Hcase)].
    + exists []. rewrite Hch. split_and!; [done|constructor|set_solver].
    + destruct (kids_sib _ _ _ Hwf Hf) as (Hs & Hnd & _ & Hk).
      assert (forall c, c ∈ kids m f -> c <> root_ptr /\ exists g, m' !! c = Some g /\ g.(f_parent) = p) as Hk'.
      { intros c Hc. destruct (Hk c Hc) as (Hr & g & Hg & Hp). split; [done|].
        destruct (ins_old _ _ Hg) as (g' & Hg' & [[_ ->]|[_ ->]]); eauto. }
      destruct Hcase as [[_ ->]|[-> ->]].
      * exists (kids m f). split_and!; [by apply ins_sib|done|done].
      * assert (f = d) as -> by congruence. exists (fp :: kids m d). split_and!.
        -- cbn. split_and!; [done..|]. exists new. split; [apply ins_new|]. rewrite Hnext. by apply ins_sib.
        -- apply NoDup_cons. split; [|done]. intros Hi. destruct (Hk _ Hi) as (_ & g & ? & _). congruence.
        -- intros c Hc. apply elem_of_cons in Hc as [->|Hc]; [|by apply Hk'].
           split; [|exists new; split; [apply ins_new|done]].
           destruct (tw_root _ Hwf) as (r & Hr & _). congruence.
  - intros p f' Hf'.
    assert (exists g, m !! f'.(f_parent) = Some g /\ is_dir g = true) as (g & Hg & Hgd).
    { apply ins_inv in Hf' as [[-> ->]|(f & Hf & [[_ ->]|[_ ->]])].
      - rewrite Hpar. eauto.
      - exact (tw_parent _ Hwf _ _ Hf).
      - exact (tw_parent _ Hwf _ _ Hf). }
    destruct (ins_old _ _ Hg) as (g' & Hg' & [[_ ->]|[_ ->]]); eauto.
Qed.

Lemma ins_resolve comps : forall cur p,
  is_Some (m !! cur) -> resolve m cur comps = (FS_SUCCESS, p) -> resolve m' cur comps = (FS_SUCCESS, p).
Proof.
  pose proof (so_tree _ Hm) as Hwf.
  induction comps as [|c cs IH]; intros cur p Hcur Hr; cbn [resolve] in *; [done|].
  case_bool_decide; [by apply IH|]. case_bool_decide.
  - rewrite ins_parent by done. apply IH; [by apply parent_some|done].
  - destruct Hcur as [f Hf]. rewrite Hf in Hr.
    destruct (kids_sib _ _ _ Hwf Hf) as (_ & _ & _ & Hk).
    assert (forall x, x ∈ kids m f -> is_Some (m !! x)) as Hks.
    { intros x Hx. destruct (Hk x Hx) as (_ & g & -> & _). by eexists. }
    assert (first_match m' (named c) (kids m f) = first_match m (named c) (kids m f)) as Hfm.
    { apply first_match_same. intros x Hx. pose proof (Hks x Hx) as Hs. split_and!; [done| |by apply ins_kname].
      destruct Hs as [g Hg]. destruct (ins_old _ _ Hg) as (g' & -> & _). by eexists. }
    destruct (is_dir f) eqn:Hfd; cbn [negb] in Hr; [|done].
    destruct (Z.eqb_spec (first_match m (named c) (kids m f)) 0) as [|Hn]; [done|].
    pose proof (first_match_kid _ _ _ Hn) as (Hin & g & Hg & Hgm).
    destruct (ins_old _ _ Hf) as (f' & -> & Hcase).
    assert (is_dir f' = true) as -> by (destruct Hcase as [[_ ->]|[_ ->]]; done). cbn [negb].
    assert (first_match m' (named c) (kids m' f') = first_match m (named c) (kids m f)) as ->.
    { destruct Hcase as [[_ ->]|[-> ->]]; [by rewrite (ins_kids _ _ Hf)|].
      assert (f = d) as -> by congruence. rewrite ins_kids_dir. cbn [first_match]. rewrite ins_new.
      rewrite named_name. case_bool_decide as Hc; [|done]. exfalso. apply (Hname _ Hin).
      unfold kname. rewrite Hg. rewrite named_name in Hgm. apply bool_decide_eq_true in Hgm. congruence. }
    destruct (Z.eqb_spec (first_match m (named c) (kids m f)) 0); [done|].
    apply IH; [by eexists|done].
Qed.

(** The new entry is found under its name. *)
Lemma ins_resolve_new comps :
  new.(f_name) <> [dot] -> new.(f_name) <> [dot; dot] ->
  resolve m root_ptr comps = (FS_SUCCESS, dir) ->
  resolve m' root_ptr (comps ++ [new.(f_name)]) = (FS_SUCCESS, fp).
Proof.
  intros Hn1 Hn2 Hr. destruct (tw_root _ (so_tree _ Hm)) as (r & Hrt & _).
  rewrite (resolve_app _ _ _ dir) by (apply ins_resolve; [by eexists|done]).
  cbn [resolve]. rewrite !bool_decide_eq_false_2 by done. rewrite ins_dir.
  change (is_dir (set_children fp d)) with (is_dir d). rewrite Hdir. cbn [negb].
  rewrite ins_kids_dir. cbn [first_match]. rewrite ins_new, named_name, bool_decide_eq_true_2 by done.
  by destruct (Z.eqb_spec fp 0).
Qed.

Lemma ins_store :
  file_ok fp new ->
  (forall p f, m !! p = Some f -> p <> root_ptr -> owned fp new ## owned p f) ->
  store_ok m'.
Proof.
  intros Hok Hdisj. pose proof (so_tree _ Hm) as Hwf. split.
  - apply ins_tree.
  - assert (forall q g, m !! q = Some g -> exists g', m' !! q = Some g' /\ (forall c, c ∈ kids m g -> c ∈ kids m' g')) as Hk.
    { intros q g Hg. destruct (ins_old _ _ Hg) as (g' & -> & Hcase). exists g'. split; [done|].
      intros c Hc. destruct Hcase as [[_ ->]|[-> ->]]; [by rewrite (ins_kids _ _ Hg)|].
      assert (g = d) as -> by congruence. rewrite ins_kids_dir. set_solver. }
    intros p f' Hf' Hp. apply ins_inv in Hf' as [[-> ->]|(f & Hf & Hcase)].
    + rewrite Hpar. exists (set_children fp d). split; [apply ins_dir|]. rewrite ins_kids_dir. set_solver.
    + assert (f_parent f' = f_parent f) as -> by (destruct Hcase as [[_ ->]|[_ ->]]; done).
      destruct (so_linked _ Hm _ _ Hf Hp) as (g & Hg & Hin). destruct (Hk _ _ Hg) as (g' & Hg' & Hsub).
      exists g'. split; [done|by apply Hsub].
  - intros p f' Hf'. apply ins_inv in Hf' as [[-> ->]|(f & Hf & Hcase)]; [rewrite ins_kids_new; constructor|].
    assert (kname m' <$> kids m f = kname m <$> kids m f) as He.
    { destruct (kids_sib _ _ _ Hwf Hf) as (_ & _ & _ & Hk). apply list_fmap_ext. intros i c Hc.
      apply ins_kname. apply list_elem_of_lookup_2 in Hc. destruct (Hk c Hc) as (_ & g & -> & _). by eexists. }
    destruct Hcase as [[_ ->]|[-> ->]].
    + rewrite (ins_kids _ _ Hf), He. by apply (so_names _ Hm p).
    + assert (f = d) as -> by congruence. rewrite ins_kids_dir, fmap_cons, He. apply NoDup_cons.
      split; [|by apply (so_names _ Hm dir)]. rewrite ins_kname_new. intros Hi.
      apply list_elem_of_fmap in Hi as (c & Hc & Hi). by apply (Hname c Hi).
  - intros p f' Hf'. apply ins_inv in Hf' as [[-> ->]|(f & Hf & [[_ ->]|[_ ->]])]; [done|by apply (so_file _ Hm)|].
    destruct (so_file _ Hm _ _ Hf). by split.
  - assert (forall p f', m' !! p = Some f' -> p <> root_ptr -> p <> fp ->
        exists f, m !! p = Some f /\ owned p f' = owned p f) as Ho.
    { intros p f' Hf' Hp Hpf. apply ins_inv in Hf' as [[-> ->]|(f & Hf & [[_ ->]|[_ ->]])]; [done|eauto|eauto]. }
    assert (forall p f', m' !! p = Some f' -> p <> root_ptr -> p <> fp -> owned fp new ## owned p f') as Hn.
    { intros p f' Hf' Hp Hpf. destruct (Ho p f' Hf' Hp Hpf) as (f & Hf & ->). by apply Hdisj. }
    intros p q f g Hf Hg Hp Hq Hpq.
    destruct (decide (p = fp)) as [->|]; [rewrite ins_new in Hf; injection Hf as <-; by apply Hn|].
    destruct (decide (q = fp)) as [->|]; [rewrite ins_new in Hg; injection Hg as <-; symmetry; by apply Hn|].
    destruct (Ho p f) as (f0 & Hf0 & ->); [done..|]. destruct (Ho q g) as (g0 & Hg0 & ->); [done..|].
    by apply (so_disjoint _ Hm).
Qed.
End insert_child.

(** ** A removed entry *)

(** Everything but the sibling and child pointers. *)
Definition same_entry (f f' : file) : Prop :=
  f'.(f_name) = f.(f_name) /\ f'.(f_name_ptr) = f.(f_name_ptr) /\ f'.(f_parent) = f.(f_parent) /\
  f'.(f_data) = f.(f_data) /\ f'.(f_data_ptr) = f.(f_data_ptr) /\ f'.(f_size) = f.(f_size) /\
  f'.(f_flags) = f.(f_flags) /\ f'.(f_id) = f.(f_id).

Definition rewire (l : link) (v : Z) (m : gmap Z file) : gmap Z file :=
  match l with
  | LChildren p => alter (set_children v) p m
  | LNext p => alter (set_next v) p m
  end.

(** The link that [unlink_child] stops at, past the children [l1]. *)
Definition link_after (l : link) (l1 : list Z) : link :=
  match last l1 with None => l | Some c => LNext c end.

Lemma rewire_lookup l v m p f : m !! p = Some f ->
  exists f', rewire l v m !! p = Some f' /\ same_entry f f' /\
    (l <> LNext p -> f'.(f_next) = f.(f_next)) /\ (l <> LChildren p -> f'.(f_children) = f.(f_children)).
Proof.
  intros Hf. destruct l as [q|q]; cbn; (destruct (decide (p = q)) as [->|Hne];
    [rewrite lookup_alter_eq, Hf|rewrite lookup_alter_ne, Hf by done]);
    (eexists; split; [reflexivity|]; unfold same_entry; cbn; split_and!; congruence).
Qed.

Lemma rewire_none l v m p : m !! p = None -> rewire l v m !! p = None.
Proof.
  intros Hf. destruct l as [q|q]; cbn; (destruct (decide (p = q)) as [->|Hne];
    [by rewrite lookup_alter_eq, Hf|by rewrite lookup_alter_ne, Hf by done]).
Qed.

Lemma sib_unlink m m' t ft c fc l2 : forall l1 v,
  sib m v (l1 ++ c :: t :: l2) -> NoDup (l1 ++ c :: t :: l2) -> m !! t = Some ft ->
  m' !! c = Some fc -> fc.(f_next) = ft.(f_next) ->
  (forall x f, x ∈ l1 ++ l2 -> m !! x = Some f -> exists f', m' !! x = Some f' /\ f'.(f_next) = f.(f_next)) ->
  sib m' v (l1 ++ c :: l2).
Proof.
  intros l1. induction l1 as [|x l1 IH]; intros v Hs Hnd Ht Hc Hn Hm; cbn [app sib] in *.
  - destruct Hs as (-> & Hc0 & f & Hf & Hs). destruct Hs as (_ & Ht0 & ft' & Ht' & Hs).
    rewrite Ht in Ht'. injection Ht' as <-. split_and!; [done..|]. exists fc. split; [done|]. rewrite Hn.
    eapply sib_same; [|exact Hs]. intros y g Hy. apply Hm. set_solver.
  - destruct Hs as (-> & Hx0 & f & Hf & Hs). apply NoDup_cons in Hnd as [Hx Hnd].
    destruct (Hm x f) as (f' & Hf' & Hn'); [set_solver|done|].
    split_and!; [done..|]. exists f'. split; [done|]. rewrite Hn'. apply IH; try done.
    intros y g Hy. apply Hm. set_solver.
Qed.

Lemma first_match_0 m c l : (forall x, x ∈ l -> x <> 0 /\ is_Some (m !! x)) ->
  first_match m (named c) l = 0 -> forall x, x ∈ l -> kname m x <> c.
Proof.
  induction l as [|d l IH]; intros Hm Hz x Hx; [set_solver|]. cbn in Hz.
  destruct (Hm d) as [Hd [f Hf]]; [set_solver|]. rewrite Hf, named_name in Hz.
  case_bool_decide as Hn; [done|]. apply elem_of_cons in Hx as [->|Hx].
  - unfold kname. by rewrite Hf.
  - apply IH; [|done|done]. intros y Hy. apply Hm. set_solver.
Qed.

Section remove_child.
Context (m : gmap Z file) (t : Z) (ft : file) (d : file) (l1 l2 : list Z).
Context (Hm : store_ok m) (Ht : m !! t = Some ft) (Hroot : t <> root_ptr).
Context (Hd : m !! ft.(f_parent) = Some d) (Hl : kids m d = l1 ++ t :: l2).
Context (Hempty : ft.(f_children) = 0).

Definition remove_link : link := link_after (LChildren ft.(f_parent)) l1.
Definition remove_child : gmap Z file := delete t (rewire remove_link ft.(f_next) m).
Local Notation m' := remove_child.
Local Notation dir := ft.(f_parent).

Lemma rem_nodup : NoDup (l1 ++ t :: l2).
Proof. rewrite <-Hl. by apply (kids_sib m dir d (so_tree _ Hm)). Qed.

Lemma rem_kids_t : kids m ft = [].
Proof. apply kids_eq; [by rewrite Hempty|constructor]. Qed.

Lemma rem_not_parent p f : m !! p = Some f -> p <> root_ptr -> f.(f_parent) <> t.
Proof.
  intros Hf Hp He. destruct (so_linked _ Hm _ _ Hf Hp) as (g & Hg & Hin).
  rewrite He, Ht in Hg. injection Hg as <-. rewrite rem_kids_t in Hin. set_solver.
Qed.
Lemma rem_dir_ne : dir <> t.
Proof. by apply (rem_not_parent t). Qed.

Lemma rem_link_kid q : remove_link = LNext q -> q ∈ l1.
Proof.
  unfold remove_link, link_after. destruct (last l1) as [c|] eqn:E; [|done]. intros [= ->].
  apply last_Some in E as [l' ->]. set_solver.
Qed.
Lemma rem_link_ne : remove_link <> LNext t.
Proof.
  intros He. apply rem_link_kid in He. pose proof rem_nodup as Hnd.
  apply NoDup_app in Hnd as (_ & Hnd & _). apply (Hnd t He). set_solver.
Qed.

Lemma rem_old p f : m !! p = Some f -> p <> t ->
  exists f', m' !! p = Some f' /\ same_entry f f' /\
    (remove_link <> LNext p -> f'.(f_next) = f.(f_next)) /\
    (remove_link <> LChildren p -> f'.(f_children) = f.(f_children)).
Proof.
  intros Hf Hp. unfold remove_child. rewrite lookup_delete_ne by done. by apply rewire_lookup.
Qed.
Lemma rem_t : m' !! t = None.
Proof. apply lookup_delete_eq. Qed.
Lemma rem_inv p f' : m' !! p = Some f' -> p <> t /\ exists f, m !! p = Some f /\ same_entry f f'.
Proof.
  intros Hf'. destruct (decide (p = t)) as [->|Hp]; [by rewrite rem_t in Hf'|]. split; [done|].
  destruct (m !! p) as [f|] eqn:Hf.
  - destruct (rem_old p f Hf Hp) as (g & Hg & Hs & _). exists f. split; [done|]. congruence.
  - unfold remove_child in Hf'. rewrite lookup_delete_ne in Hf' by done.
    by rewrite (rewire_none _ _ _ _ Hf) in Hf'.
Qed.
Lemma rem_kname p : is_Some (m !! p) -> p <> t -> kname m' p = kname m p.
Proof.
  intros [f Hf] Hp. destruct (rem_old p f Hf Hp) as (f' & Hf' & (Hn & _) & _).
  unfold kname. by rewrite Hf, Hf'.
Qed.

Lemma rem_t_notin : t ∉ l1 /\ t ∉ l2.
Proof.
  pose proof rem_nodup as Hnd. apply NoDup_app in Hnd as (_ & Hn & Hnd).
  apply NoDup_cons in Hnd as [H2 _]. split; [|done]. intros Hi. apply (Hn t Hi). set_solver.
Qed.
Lemma rem_nodup' : NoDup (l1 ++ l2).
Proof.
  pose proof rem_nodup as Hnd. apply NoDup_app in Hnd as (H1 & Hn & Hnd).
  apply NoDup_cons in Hnd as [_ H2]. apply NoDup_app. split_and!; [done| |done].
  intros x Hx Hx'. apply (Hn x Hx). set_solver.
Qed.

Lemma rem_sib_dir d' : m' !! dir = Some d' -> sib m' d'.(f_children) (l1 ++ l2).
Proof.
  intros Hd'. destruct (kids_sib _ _ _ (so_tree _ Hm) Hd) as (Hs & _ & _ & Hk). rewrite Hl in Hs.
  pose proof rem_nodup as Hnd. pose proof rem_nodup' as Hnd'. destruct rem_t_notin as [Ht1 Ht2].
  destruct (rem_old _ _ Hd rem_dir_ne) as (d0 & Hd0 & _ & _ & Hch). rewrite Hd0 in Hd'. injection Hd' as <-.
  destruct (last l1) as [c|] eqn:E.
  - assert (remove_link = LNext c) as Hlink by (unfold remove_link, link_after; by rewrite E).
    apply last_Some in E as [l0 E]. rewrite E in Hs, Hnd, Hnd', Ht1 |- *.
    rewrite <-app_assoc in Hs, Hnd, Hnd' |- *. cbn [app] in *.
    rewrite Hch by (rewrite Hlink; done).
    apply NoDup_app in Hnd' as (_ & Hn & Hnd'). apply NoDup_cons in Hnd' as [Hc2 _].
    assert (c <> t) as Hct by set_solver.
    destruct (sib_dom _ _ _ Hs c) as [[fc Hfc] _]; [set_solver|].
    assert (m' !! c = Some (set_next (f_next ft) fc)) as Hc'.
    { unfold remove_child. rewrite lookup_delete_ne by done. rewrite Hlink. cbn.
      by rewrite lookup_alter_eq, Hfc. }
    eapply sib_unlink; [exact Hs|exact Hnd|done|exact Hc'|done|].
    intros x f Hx Hf. assert (x <> t) by set_solver. assert (x <> c).
    { intros ->. apply elem_of_app in Hx as [Hx|Hx]; [|done]. apply (Hn c Hx). set_solver. }
    destruct (rem_old x f Hf) as (f' & Hf' & _ & Hn' & _); [done|]. exists f'. split; [done|].
    apply Hn'. rewrite Hlink. congruence.
  - assert (remove_link = LChildren dir) as Hlink by (unfold remove_link, link_after; by rewrite E).
    apply last_None in E. rewrite E in Hs |- *. cbn [app sib] in *.
    destruct Hs as (_ & _ & ft' & Ht' & Hs). rewrite Ht in Ht'. injection Ht' as <-.
    assert (f_children d0 = f_next ft) as ->.
    { unfold remove_child in Hd0. rewrite lookup_delete_ne in Hd0 by (apply not_eq_sym, rem_dir_ne).
      rewrite Hlink in Hd0. cbn in Hd0. rewrite lookup_alter_eq, Hd in Hd0. by injection Hd0 as <-. }
    eapply sib_same; [|exact Hs]. intros x f Hx Hf. assert (x <> t) by set_solver.
    destruct (rem_old x f Hf) as (f' & Hf' & _ & Hn' & _); [done|]. exists f'. split; [done|].
    apply Hn'. by rewrite Hlink.
Qed.

Lemma rem_sib_other p f f' :
  m !! p = Some f -> p <> dir -> m' !! p = Some f' -> sib m' f'.(f_children) (kids m f) /\ t ∉ kids m f.
Proof.
  intros Hf Hp Hf'. destruct (kids_sib _ _ _ (so_tree _ Hm) Hf) as (Hs & _ & _ & Hk).
  destruct (kids_sib _ _ _ (so_tree _ Hm) Hd) as (_ & _ & _ & Hkd).
  assert (t ∉ kids m f) as Htf.
  { intros Hi. destruct (Hk _ Hi) as (_ & g & Hg & Hgp). congruence. }
  split; [|done]. destruct (rem_inv _ _ Hf') as [Hpt _].
  destruct (rem_old p f Hf Hpt) as (f0 & Hf0 & _ & _ & Hch). rewrite Hf0 in Hf'. injection Hf' as <-.
  rewrite Hch.
  - eapply sib_same; [|exact Hs]. intros x g Hx Hg. assert (x <> t) by congruence.
    destruct (rem_old x g Hg) as (g' & Hg' & _ & Hn' & _); [done|]. exists g'. split; [done|].
    apply Hn'. intros Hlk. apply rem_link_kid in Hlk.
    destruct (Hk _ Hx) as (_ & g1 & Hg1 & Hp1). destruct (Hkd x) as (_ & g2 & Hg2 & Hp2); [rewrite Hl; set_solver|].
    congruence.
  - unfold remove_link, link_after. destruct (last l1); congruence.
Qed.

(** The children of every directory, without [t]. *)
Lemma rem_kids p f f' : m !! p = Some f -> m' !! p = Some f' ->
  kids m' f' = filter (fun c => c <> t) (kids m f) /\ sib m' f'.(f_children) (kids m' f') /\ NoDup (kids m' f').
Proof.
  intros Hf Hf'. destruct (kids_sib _ _ _ (so_tree _ Hm) Hf) as (_ & Hnd & _).
  assert (forall l : list Z, t ∉ l -> filter (fun c => c <> t) l = l) as Hfl.
  { induction l as [|c l IH]; [done|]. intros Hi. rewrite filter_cons_True by set_solver. rewrite IH; set_solver. }
  assert (exists l, l = filter (fun c => c <> t) (kids m f) /\ sib m' f'.(f_children) l /\ NoDup l) as (l & Hfil & Hs & Hndl).
  { destruct (decide (p = dir)) as [->|Hp].
    - assert (f = d) as -> by congruence. exists (l1 ++ l2).
      split_and!; [|by apply rem_sib_dir|apply rem_nodup'].
      destruct rem_t_notin. rewrite Hl, filter_app, filter_cons_False by (intros Hx; by apply Hx).
      rewrite !Hfl by done. done.
    - destruct (rem_sib_other p f f' Hf Hp Hf') as [Hs Hi]. exists (kids m f). rewrite Hfl; done. }
  rewrite (kids_eq _ _ l Hs Hndl). done.
Qed.

Lemma rem_tree : tree_wf m'.
Proof.
  pose proof (so_tree _ Hm) as Hwf. split.
  - destruct (tw_root _ Hwf) as (r & Hr & Hrd & Hrp).
    destruct (rem_old _ _ Hr (not_eq_sym Hroot)) as (r' & Hr' & (_ & _ & Hp & _ & _ & _ & Hfl & _) & _).
    exists r'. unfold is_dir in *. rewrite Hp, Hfl. done.
  - destruct (m' !! 0) as [f'|] eqn:E; [|done]. apply rem_inv in E as (_ & f & Hf & _).
    by rewrite (tw_null _ Hwf) in Hf.
  - intros p f' Hf'. destruct (rem_inv _ _ Hf') as (Hp & f & Hf & _).
    destruct (rem_kids p f f' Hf Hf') as (He & Hs & Hnd). exists (kids m' f'). split_and!; [done..|].
    rewrite He. intros c Hc. apply list_elem_of_filter in Hc as [Hct Hc].
    destruct (kids_sib _ _ _ Hwf Hf) as (_ & _ & _ & Hk). destruct (Hk c Hc) as (Hr & g & Hg & Hgp).
    split; [done|]. destruct (rem_old c g Hg Hct) as (g' & Hg' & (_ & _ & Hp' & _) & _).
    exists g'. split; [done|congruence].
  - intros p f' Hf'. destruct (rem_inv _ _ Hf') as (Hp & f & Hf & (_ & _ & Hpar & _)).
    destruct (tw_parent _ Hwf _ _ Hf) as (g & Hg & Hgd).
    assert (f_parent f <> t) as Hne.
    { destruct (decide (p = root_ptr)) as [->|]; [|by apply (rem_not_parent p)].
      destruct (tw_root _ Hwf) as (r & Hr & _ & Hrp). congruence. }
    destruct (rem_old _ _ Hg Hne) as (g' & Hg' & (_ & _ & _ & _ & _ & _ & Hfl & _) & _).
    exists g'. rewrite Hpar. split; [done|]. unfold is_dir in *. by rewrite Hfl.
Qed.

Lemma rem_store : store_ok m'.
Proof.
  pose proof (so_tree _ Hm) as Hwf. split.
  - apply rem_tree.
  - intros p f' Hf' Hp. destruct (rem_inv _ _ Hf') as (Hpt & f & Hf & (_ & _ & Hpar & _)).
    destruct (so_linked _ Hm _ _ Hf Hp) as (g & Hg & Hin).
    destruct (rem_old _ _ Hg (rem_not_parent _ _ Hf Hp)) as (g' & Hg' & _).
    exists g'. rewrite Hpar. split; [done|]. destruct (rem_kids _ _ _ Hg Hg') as (-> & _).
    by apply list_elem_of_filter.
  - intros p f' Hf'. destruct (rem_inv _ _ Hf') as (Hpt & f & Hf & _).
    destruct (rem_kids _ _ _ Hf Hf') as (-> & _). destruct (kids_sib _ _ _ Hwf Hf) as (_ & _ & _ & Hk).
    pose proof (so_names _ Hm _ _ Hf) as Hnd.
    assert (kname m' <$> filter (fun c => c <> t) (kids m f) = kname m <$> filter (fun c => c <> t) (kids m f)) as ->.
    { apply list_fmap_ext. intros i c Hc. apply list_elem_of_lookup_2, list_elem_of_filter in Hc as [Hct Hc].
      apply rem_kname; [|done]. destruct (Hk c Hc) as (_ & g & -> & _). by eexists. }
    clear -Hnd. induction (kids m f) as [|c l IH]; [done|]. rewrite fmap_cons in Hnd.
    apply NoDup_cons in Hnd as [Hc Hnd]. destruct (decide (c <> t)) as [Hd|Hd].
    + rewrite filter_cons_True by done. rewrite fmap_cons. apply NoDup_cons. split; [|by apply IH].
      intros Hi. apply Hc. apply list_elem_of_fmap in Hi as (y & -> & Hy).
      apply list_elem_of_filter in Hy as [_ Hy]. apply list_elem_of_fmap. eauto.
    + rewrite filter_cons_False by done. by apply IH.
  - intros p f' Hf'. destruct (rem_inv _ _ Hf') as (_ & f & Hf & (E1 & E2 & E3 & E4 & E5 & E6 & E7 & E8)).
    destruct (so_file _ Hm _ _ Hf) as [F1 F2 F3 F4]. split; rewrite ?E1, ?E2, ?E4, ?E5, ?E6; done.
  - intros p q f' g' Hf' Hg'. destruct (rem_inv _ _ Hf') as (_ & f & Hf & (_ & E2 & _ & _ & E5 & _)).
    destruct (rem_inv _ _ Hg') as (_ & g & Hg & (_ & G2 & _ & _ & G5 & _)).
    unfold owned. rewrite E2, E5, G2, G5. apply (so_disjoint _ Hm _ _ _ _ Hf Hg).
Qed.

(** A path that led to [t], or through it, is no longer found; every other
    path leads where it led. *)
Lemma rem_resolve comps : forall cur, is_Some (m !! cur) -> cur <> t ->
  resolve m cur comps <> (FS_SUCCESS, t) /\ resolve m' cur comps = resolve m cur comps \/
  resolve m' cur comps = (FS_NOT_FOUND, 0).
Proof.
  pose proof (so_tree _ Hm) as Hwf.
  induction comps as [|c cs IH]; intros cur Hcur Hct; cbn [resolve]; [left; split; [congruence|done]|].
  case_bool_decide; [by apply IH|]. destruct Hcur as [f Hf].
  destruct (rem_old cur f Hf Hct) as (f' & Hf' & (_ & _ & Hp & _ & _ & _ & Hfl & _) & _).
  case_bool_decide.
  - assert (parent_of m' cur = parent_of m cur) as -> by (unfold parent_of; by rewrite Hf, Hf').
    apply IH; [apply parent_some; [done|by eexists]|]. unfold parent_of. rewrite Hf.
    destruct (decide (cur = root_ptr)) as [->|]; [|by apply (rem_not_parent cur)].
    destruct (tw_root _ Hwf) as (r & Hr & _ & Hrp). congruence.
  - rewrite Hf, Hf'. unfold is_dir in *. rewrite Hfl.
    destruct (negb (Z.land (f_flags f) FS_IS_DIRECTORY =? 0)); cbn [negb]; [|left; split; [done|done]].
    destruct (kids_sib _ _ _ Hwf Hf) as (Hs & _ & _ & Hk). pose proof (so_names _ Hm _ _ Hf) as Hnn.
    destruct (rem_kids _ _ _ Hf Hf') as (Hk' & _).
    pose proof (so_names _ rem_store _ _ Hf') as Hnn'. rewrite Hk' in *.
    assert (forall x, x ∈ kids m f -> x <> 0 /\ is_Some (m !! x)) as Hks.
    { intros x Hx. destruct (sib_dom _ _ _ Hs x Hx). done. }
    assert (forall x, x ∈ filter (fun c => c <> t) (kids m f) -> is_Some (m' !! x) /\ kname m' x = kname m x) as Hks'.
    { intros x Hx. apply list_elem_of_filter in Hx as [Hxt Hx]. destruct (Hks x Hx) as [_ [g Hg]].
      split; [|apply rem_kname; [by eexists|done]]. destruct (rem_old x g Hg Hxt) as (g' & -> & _). by eexists. }
    set (y := first_match m (named c) (kids m f)) in *.
    destruct (Z.eqb_spec y 0) as [Hy|Hy].
    + rewrite first_match_none; [left; done|]. intros x Hx. destruct (Hks' x Hx) as [_ ->].
      apply list_elem_of_filter in Hx as [_ Hx]. by apply (first_match_0 m c (kids m f)).
    + pose proof (first_match_kid _ _ _ Hy) as (Hin & g & Hg & Hgn). fold y in Hin, Hg.
      rewrite named_name in Hgn. apply bool_decide_eq_true in Hgn.
      assert (kname m y = c) as Hyc by (unfold kname; by rewrite Hg).
      destruct (decide (y = t)) as [Hyt|Hyt].
      * rewrite first_match_none; [by right|]. intros x Hx. destruct (Hks' x Hx) as [_ ->].
        apply list_elem_of_filter in Hx as [Hxt Hx]. intros Hxc. apply Hxt. rewrite <-Hyt.
        rewrite <-(first_match_some m c (kids m f) x); [done| |done..]. intros z Hz. by apply Hks.
      * rewrite (first_match_some m' c _ y).
        -- destruct (Z.eqb_spec y 0); [done|]. apply IH; [by eexists|done].
        -- intros z Hz. by apply Hks'.
        -- done.
        -- by apply list_elem_of_filter.
        -- rewrite rem_kname; [done|by eexists|done].
Qed.
End remove_child.

(** ** New contents *)

Section change_data.
Context (m : gmap Z file) (t : Z) (f : file) (data : list Z).
Context (Hm : store_ok m) (Ht : m !! t = Some f) (Hlen : length data = length f.(f_data)).

Definition change_data : gmap Z file := <[t := set_data data f]> m.
Local Notation m' := change_data.

Definition same_links (g g' : file) : Prop := g' = g \/ g' = set_data data g.

Lemma chg_old p g : m !! p = Some g -> exists g', m' !! p = Some g' /\ same_links g g'.
Proof.
  intros Hg. unfold change_data. destruct (decide (p = t)) as [->|Hp].
  - rewrite lookup_insert_eq. exists (set_data data f). split; [done|]. right. congruence.
  - rewrite lookup_insert_ne by done. exists g. split; [done|by left].
Qed.
Lemma chg_inv p g' : m' !! p = Some g' -> exists g, m !! p = Some g /\ (p <> t /\ g' = g \/ p = t /\ g = f /\ g' = set_data data f).
Proof.
  unfold change_data. destruct (decide (p = t)) as [->|Hp].
  - rewrite lookup_insert_eq. intros [= <-]. exists f. split; [done|by right].
  - rewrite lookup_insert_ne by done. intros Hg. exists g'. split; [done|by left].
Qed.
Lemma chg_links p g' : m' !! p = Some g' -> exists g, m !! p = Some g /\ same_links g g'.
Proof. intros Hg. apply chg_inv in Hg as (g & Hg & [[_ ->]|(_ & -> & ->)]); [exists g|exists f]; (split; [exact Hg|]); [by left|by right]. Qed.

Lemma chg_sib p l : sib m p l -> sib m' p l.
Proof.
  apply sib_same. intros c g _ Hg. destruct (chg_old c g Hg) as (g' & Hg' & [->| ->]); eauto.
Qed.
Lemma chg_kids p g g' : m !! p = Some g -> same_links g g' -> kids m' g' = kids m g.
Proof.
  intros Hg Hs. destruct (kids_sib _ _ _ (so_tree _ Hm) Hg) as (Hl & Hnd & _).
  apply kids_eq; [|done]. destruct Hs as [->| ->]; by apply chg_sib.
Qed.
Lemma chg_kname p : kname m' p = kname m p.
Proof.
  unfold kname. destruct (m' !! p) as [g'|] eqn:E.
  - destruct (chg_links _ _ E) as (g & -> & [->| ->]); done.
  - destruct (m !! p) as [g|] eqn:E'; [|done]. destruct (chg_old _ _ E') as (g' & Hg' & _). congruence.
Qed.

Lemma chg_tree : tree_wf m'.
Proof.
  pose proof (so_tree _ Hm) as Hwf. split.
  - destruct (tw_root _ Hwf) as (r & Hr & Hd & Hp). destruct (chg_old _ _ Hr) as (r' & Hr' & [->| ->]); eauto.
  - destruct (m' !! 0) as [g'|] eqn:E; [|done]. destruct (chg_links _ _ E) as (g & Hg & _).
    by rewrite (tw_null _ Hwf) in Hg.
  - intros p g' Hg'. destruct (chg_links _ _ Hg') as (g & Hg & Hs).
    destruct (tw_kids _ Hwf _ _ Hg) as (l & Hl & Hnd & Hk). exists l. split_and!; [|done|].
    + destruct Hs as [->| ->]; by apply chg_sib.
    + intros c Hc. destruct (Hk c Hc) as (Hr & h & Hh & Hp). split; [done|].
      destruct (chg_old _ _ Hh) as (h' & Hh' & [->| ->]); eauto.
  - intros p g' Hg'. destruct (chg_links _ _ Hg') as (g & Hg & Hs).
    destruct (tw_parent _ Hwf _ _ Hg) as (h & Hh & Hd).
    assert (f_parent g' = f_parent g) as -> by (destruct Hs as [->| ->]; done).
    destruct (chg_old _ _ Hh) as (h' & Hh' & [->| ->]); eauto.
Qed.

Lemma chg_store : store_ok m'.
Proof.
  split; [apply chg_tree|..].
  - intros p g' Hg' Hp. destruct (chg_links _ _ Hg') as (g & Hg & Hs).
    destruct (so_linked _ Hm _ _ Hg Hp) as (h & Hh & Hin).
    assert (f_parent g' = f_parent g) as -> by (destruct Hs as [->| ->]; done).
    destruct (chg_old _ _ Hh) as (h' & Hh' & Hs'). exists h'. split; [done|].
    by rewrite (chg_kids _ _ _ Hh Hs').
  - intros p g' Hg'. destruct (chg_links _ _ Hg') as (g & Hg & Hs). rewrite (chg_kids _ _ _ Hg Hs).
    rewrite (list_fmap_ext _ (kname m) (kids m g)); [by apply (so_names _ Hm p)|].
    intros i c _. apply chg_kname.
  - intros p g' Hg'. destruct (chg_inv _ _ Hg') as (g & Hg & [[_ ->]|(-> & -> & ->)]); [by apply (so_file _ Hm)|].
    destruct (so_file _ Hm _ _ Hg) as [F1 F2 F3 F4]. split; cbn; [done|congruence|done|done].
  - intros p q g' h' Hg' Hh'. destruct (chg_links _ _ Hg') as (g & Hg & Hs).
    destruct (chg_links _ _ Hh') as (h & Hh & Hs').
    assert (owned p g' = owned p g) as -> by (destruct Hs as [->| ->]; done).
    assert (owned q h' = owned q h) as -> by (destruct Hs' as [->| ->]; done).
    by apply (so_disjoint _ Hm).
Qed.

Lemma chg_resolve comps : forall cur, is_Some (m !! cur) -> resolve m' cur comps = resolve m cur comps.
Proof.
  pose proof (so_tree _ Hm) as Hwf.
  induction comps as [|c cs IH]; intros cur Hcur; cbn [resolve]; [done|].
  case_bool_decide; [by apply IH|]. destruct Hcur as [g Hg].
  destruct (chg_old _ _ Hg) as (g' & Hg' & Hs).
  case_bool_decide.
  - assert (parent_of m' cur = parent_of m cur) as ->.
    { unfold parent_of. rewrite Hg, Hg'. by destruct Hs as [->| ->]. }
    apply IH, parent_some; [done|by eexists].
  - rewrite Hg, Hg'. rewrite (chg_kids _ _ _ Hg Hs).
    assert (is_dir g' = is_dir g) as -> by (by destruct Hs as [->| ->]).
    destruct (kids_sib _ _ _ Hwf Hg) as (_ & _ & _ & Hk).
    rewrite (first_match_same m m').
    + destruct (is_dir g); cbn [negb]; [|done].
      destruct (Z.eqb_spec (first_match m (named c) (kids m g)) 0) as [|Hn]; [done|].
      apply IH. apply first_match_kid in Hn as (_ & h & -> & _). by eexists.
    + intros x Hx. destruct (Hk x Hx) as (_ & h & Hh & _). destruct (chg_old _ _ Hh) as (h' & Hh' & _).
      split_and!; [by eexists|by eexists|apply chg_kname].
Qed.
End change_data.
