(* ===== verification/FsOps.v ===== *)
(** * The operations of the file system on a well-formed store

    [create_file], [delete_file] and the accesses, run against the tree facts
    of [FsTree]; memory is tracked through the set of live allocations. *)

From S2P Require Import Prelude StringLib StringFacts Fs FsFacts FsTree.

(** ** Splitting a path *)

Lemma last_index_spec c w :
  match last_index c w with
  | None => c ∉ w
  | Some i => 0 <= i /\ w = take (Z.to_nat i) w ++ c :: drop (S (Z.to_nat i)) w /\
              c ∉ drop (S (Z.to_nat i)) w
  end.
Proof.
  induction w as [|d w IH]; [set_solver|]. cbn [last_index].
  destruct (last_index c w) as [i|].
  - destruct IH as (Hi & Hw & Hn). replace (Z.to_nat (i + 1)) with (S (Z.to_nat i)) by lia.
    cbn [take drop app]. split_and!; [lia| |done]. f_equal. exact Hw.
  - destruct (Z.eqb_spec d c) as [->|]; [|set_solver]. by cbn.
Qed.

Lemma split_go_slash u w : forall acc, split_go (u ++ slash :: w) acc = split_go u acc ++ split_go w [].
Proof.
  induction u as [|c u IH]; intros acc; cbn [app split_go].
  - rewrite Z.eqb_refl. by destruct acc.
  - destruct (c =? slash); [|apply IH]. destruct acc; cbn; by rewrite IH.
Qed.

Lemma split_go_word w : forall acc, slash ∉ w ->
  split_go w acc = match rev acc ++ w with [] => [] | n => [n] end.
Proof.
  induction w as [|c w IH]; intros acc Hs; cbn [split_go].
  - rewrite app_nil_r. destruct acc as [|a acc]; [done|]. cbn. by destruct (rev acc ++ [a]) eqn:E; [destruct (rev acc)|].
  - destruct (Z.eqb_spec c slash) as [->|]; [set_solver|]. rewrite IH by set_solver.
    cbn [rev]. by rewrite <-app_assoc.
Qed.

Lemma split_path_spec m p u name :
  p <> [] -> List.last p 0 <> slash -> split_path p = (u, name) ->
  name <> [] /\ (forall c, c ∈ name -> c ∈ p) /\
  resolve m root_ptr (components p) = resolve m root_ptr (components u ++ [name]).
Proof.
  intros Hp Hlast. unfold split_path. pose proof (last_index_spec slash p) as Hi.
  destruct (last_index slash p) as [i|]; intros [= <- <-].
  - destruct Hi as (Hi & Hw & Hn).
    assert (drop (S (Z.to_nat i)) p <> []) as Hne.
    { intros He. rewrite He in Hw. rewrite Hw in Hlast. apply Hlast. by rewrite List.last_last. }
    split_and!; [done|intros c Hc; rewrite Hw; set_solver|].
    f_equal. rewrite Hw at 1. unfold components. rewrite split_go_slash. f_equal.
    + destruct (Z.eqb_spec i 0) as [->|]; done.
    + rewrite split_go_word by done. by destruct (drop (S (Z.to_nat i)) p).
  - split_and!; [done|done|]. unfold components at 1. rewrite split_go_word by done. cbn. by destruct p.
Qed.

(** ** Running a step *)

Section ops.
Context {A : Type} `{AllocatorLaws A}.

(** The result is in [Q]; a panic stops the kernel; an undefined access is
    possible only in [F]. *)
Definition run {B : Type} (m : M (fs A) B) (s : fs A) (Q : B -> fs A -> Prop) (F : Prop) : Prop :=
  match m s with Done (b, s') => Q b s' | Panicked _ => True | Fault => F end.

Lemma run_bind {B C : Type} (m : M (fs A) B) (f : B -> M (fs A) C) s Q F :
  run m s (fun b s' => run (f b) s' Q F) F -> run (m ≫= f) s Q F.
Proof. unfold run, mbind, M_bind. by destruct (m s) as [[b s']| |]. Qed.

Lemma run_ret {B : Type} (b : B) s (Q : B -> fs A -> Prop) F : Q b s -> run (mret b) s Q F.
Proof. done. Qed.

Lemma run_eq {B : Type} (m : M (fs A) B) s b s' Q F : m s = Done (b, s') -> Q b s' -> run m s Q F.
Proof. unfold run. by intros ->. Qed.

Lemma run_alloc n s Q F :
  (forall p a, alloc_op n s.(mem_) = Done (p, a) ->
    (p = 0 /\ live_ptrs a = live_ptrs s.(mem_)) \/
    (p <> 0 /\ p ∉ live_ptrs s.(mem_) /\ live_ptrs a = {[p]} ∪ live_ptrs s.(mem_)) ->
    Q p (mk_fs s.(nodes) a)) ->
  run (kmalloc_ n) s Q F.
Proof.
  intros Hq. unfold run, kmalloc_, lift_mem. pose proof (alloc_law n (mem_ s)) as Hl.
  destruct (alloc_op n (mem_ s)) as [[p a]| |] eqn:E; [by apply Hq|done|done].
Qed.

Lemma run_free p s Q F :
  p ∈ live_ptrs s.(mem_) ->
  (forall a, live_ptrs a = live_ptrs s.(mem_) ∖ {[p]} -> Q tt (mk_fs s.(nodes) a)) ->
  run (kfree_ p) s Q F.
Proof.
  intros Hp Hq. unfold run, kfree_, lift_mem.
  destruct (release_law p (mem_ s) Hp) as (a & -> & Ha). by apply Hq.
Qed.

Lemma run_get p s f Q F : s.(nodes) !! p = Some f -> Q f s -> run (get_node p) s Q F.
Proof. intros Hf. unfold run, get_node. by rewrite Hf. Qed.

Lemma run_update p g s f Q F :
  s.(nodes) !! p = Some f -> Q tt (mk_fs (<[p := g f]> s.(nodes)) s.(mem_)) -> run (update p g) s Q F.
Proof. intros Hf HQ. unfold update. apply run_bind. by apply (run_get _ _ f). Qed.

(** ** The invariant of the whole component *)

Record fs_inv (s : fs A) : Prop := {
  fi_store : store_ok s.(nodes);
  fi_live : forall p f, s.(nodes) !! p = Some f -> p <> root_ptr -> owned p f ⊆ live_ptrs s.(mem_) ∖ {[root_ptr]};
  fi_root : root_ptr ∈ live_ptrs s.(mem_);
}.

Lemma fi_fresh s p : fs_inv s -> p ∉ live_ptrs s.(mem_) -> s.(nodes) !! p = None.
Proof.
  intros Hi Hp. destruct (s.(nodes) !! p) as [f|] eqn:Hf; [|done]. destruct Hp.
  destruct (decide (p = root_ptr)) as [->|]; [apply (fi_root _ Hi)|].
  pose proof (fi_live _ Hi p f Hf ltac:(done)). unfold owned in *. set_solver.
Qed.

(** The invariant only depends on the nodes and the live set, and live
    allocations may be added. *)
Lemma fs_inv_mono (s : fs A) m a :
  fs_inv s -> m = s.(nodes) -> live_ptrs s.(mem_) ⊆ live_ptrs a -> fs_inv (mk_fs m a).
Proof.
  intros [H1 H2 H3] -> Hl. split; cbn; [done| |by apply Hl].
  intros p f Hf Hp. specialize (H2 p f Hf Hp). set_solver.
Qed.

(** ** Linking *)

Lemma run_link dir fp s d f Q F :
  s.(nodes) !! dir = Some d -> s.(nodes) !! fp = Some f -> dir <> fp ->
  Q tt (mk_fs (<[dir := set_children fp d]> (<[fp := set_next d.(f_children) (set_parent dir f)]> s.(nodes)))
         s.(mem_)) ->
  run (link_child dir fp) s Q F.
Proof.
  intros Hd Hf Hne HQ. unfold link_child.
  apply run_bind. apply (run_update _ _ _ f); [done|].
  apply run_bind. apply (run_get _ _ d); [by cbn; rewrite lookup_insert_ne|].
  apply run_bind. apply (run_update _ _ _ (set_parent dir f)); [by cbn; rewrite lookup_insert_eq|].
  cbn [nodes mem_]. apply (run_update _ _ _ d).
  - cbn. by rewrite !lookup_insert_ne.
  - cbn [nodes mem_]. by rewrite insert_insert_eq.
Qed.

(** ** Creating *)

Lemma find_child_spec s dir d name :
  fs_inv s -> s.(nodes) !! dir = Some d -> Forall (fun c => 0 < c) name ->
  find_child dir name s = Done (first_match s.(nodes) (named name) (kids s.(nodes) d), s).
Proof.
  intros Hi Hd Hn. unfold find_child. rewrite (bind_eq _ _ _ _ _ (gets_eq node_fuel s)).
  assert (get_node dir s = Done (d, s)) as Hg by (unfold get_node; by rewrite Hd).
  pose proof (so_tree _ (fi_store _ Hi)) as Hwf.
  rewrite (bind_eq _ _ _ _ _ Hg), (find_sibling_kids s _ dir d Hwf Hd). do 2 f_equal.
  destruct (kids_sib _ _ _ Hwf Hd) as (_ & _ & _ & Hk).
  induction (kids s.(nodes) d) as [|c l IH]; [done|]. cbn.
  destruct (Hk c) as (_ & f & Hf & _); [set_solver|]. rewrite Hf, named_name, IH by set_solver.
  pose proof (cmp_list_0 f.(f_name) name (fo_name _ _ (so_file _ (fi_store _ Hi) _ _ Hf)) Hn) as Hc.
  destruct (Z.eqb_spec (cmp_list (f_name f) name) 0); case_bool_decide; tauto.
Qed.

(** What a successful creation leaves behind. *)
Record created (s s' : fs A) (p data : list Z) (size flags : Z) : Prop := {
  cr_inv : fs_inv s';
  cr_new : exists fp f, lookup_path s'.(nodes) (Some p) = (FS_SUCCESS, fp) /\
    s.(nodes) !! fp = None /\ s'.(nodes) !! fp = Some f /\
    f.(f_data) = take (Z.to_nat size) data /\ f.(f_size) = size /\ f.(f_flags) = u16 flags /\
    f.(f_children) = 0 /\ live_ptrs s'.(mem_) = owned fp f ∪ live_ptrs s.(mem_);
  cr_old : forall q x, lookup_path s.(nodes) q = (FS_SUCCESS, x) -> lookup_path s'.(nodes) q = (FS_SUCCESS, x);
  cr_same : forall x g, s.(nodes) !! x = Some g -> exists g', s'.(nodes) !! x = Some g' /\ same_entry g g';
}.

(** Linking the finished node. *)
Lemma make_link s dir d fp np dp p u name data size flags :
  fs_inv s -> s.(nodes) !! dir = Some d -> is_dir d = true ->
  resolve s.(nodes) root_ptr (components u) = (FS_SUCCESS, dir) ->
  (forall m, resolve m root_ptr (components p) = resolve m root_ptr (components u ++ [name])) ->
  Forall (fun c => 0 < c) name -> name <> [dot] -> name <> [dot; dot] ->
  (forall c, c ∈ kids s.(nodes) d -> kname s.(nodes) c <> name) ->
  0 <= size <= Z.of_nat (length data) -> (size <> 0 -> dp <> 0) ->
  fp <> 0 -> fp ∉ live_ptrs s.(mem_) -> np ∉ live_ptrs s.(mem_) -> (dp <> 0 -> dp ∉ live_ptrs s.(mem_)) ->
  fp <> np -> (dp <> 0 -> dp <> fp /\ dp <> np) ->
  forall a, live_ptrs a = {[fp; np]} ∪ (if dp =? 0 then ∅ else {[dp]}) ∪ live_ptrs s.(mem_) ->
  run (_ ← put_node fp (mk_file 0 name np 0 0 0 (take (Z.to_nat size) data) dp size (u16 flags));
       _ ← link_child dir fp; mret FS_SUCCESS) (mk_fs s.(nodes) a)
    (fun r s' => r = FS_SUCCESS /\ created s s' p data size flags) False.
Proof.
  intros Hi Hd Hdir Hr Hp Hname Hn1 Hn2 Hnew Hsize Hdp Hfp0 Hfp Hnp Hdpl Hne Hdne a Ha.
  pose proof (fi_fresh _ _ Hi Hfp) as Hfresh.
  apply run_bind. eapply run_eq; [reflexivity|]. cbn [nodes mem_ set_nodes].
  apply run_bind. apply (run_link _ _ _ d (mk_file 0 name np 0 0 0 (take (Z.to_nat size) data) dp size (u16 flags))).
  { cbn. rewrite lookup_insert_ne by congruence. done. }
  { cbn. by rewrite lookup_insert_eq. }
  { congruence. }
  cbn [nodes mem_ set_nodes]. rewrite insert_insert_eq. apply run_ret. split; [done|].
  set (new := set_next _ _).
  fold (insert_child s.(nodes) dir d fp new).
  assert (file_ok fp new) as Hok.
  { split; cbn; [done| |done|].
    - rewrite length_take. lia.
    - intros _. split; [done|]. intros Hd0. by apply Hdne. }
  assert (forall q f, s.(nodes) !! q = Some f -> q <> root_ptr -> owned fp new ## owned q f) as Hdisj.
  { intros q f Hf Hq. pose proof (fi_live _ Hi q f Hf Hq) as Hl. unfold owned at 1. cbn.
    destruct (Z.eqb_spec dp 0) as [|Hd0]; [set_solver|]. specialize (Hdpl Hd0). set_solver. }
  pose proof (fi_store _ Hi) as Hst.
  split; cbn [nodes mem_].
  - split; cbn [nodes mem_].
    + by apply ins_store.
    + intros q f' Hf' Hq. rewrite Ha.
      destruct (ins_inv s.(nodes) dir d fp new Hd Hfresh eq_refl eq_refl eq_refl Hnew q f' Hf') as [[-> ->]|(f & Hf & Hc)].
      * unfold owned. cbn. pose proof (fi_root _ Hi). destruct (Z.eqb_spec dp 0) as [|Hd0]; [set_solver|].
        specialize (Hdpl Hd0). set_solver.
      * assert (owned q f' = owned q f) as -> by (destruct Hc as [[_ ->]|[_ ->]]; done).
        pose proof (fi_live _ Hi q f Hf Hq). set_solver.
    + rewrite Ha. pose proof (fi_root _ Hi). set_solver.
  - exists fp, new. split_and!; try done.
    + cbn. rewrite Hp. change name with new.(f_name). by apply ins_resolve_new.
    + by apply ins_new.
  - intros [q|] x; [|done]. cbn. intros Hq. apply ins_resolve; try done.
    destruct (tw_root _ (so_tree _ Hst)) as (r & -> & _). by eexists.
  - intros x g Hg. destruct (ins_old s.(nodes) dir d fp new Hd Hfresh x g Hg) as (g' & Hg' & Hc).
    exists g'. split; [done|]. destruct Hc as [[_ ->]|[_ ->]]; by unfold same_entry.
Qed.

(** A failed creation: nothing changed, nothing leaked. *)
Definition unchanged (s s' : fs A) : Prop :=
  s'.(nodes) = s.(nodes) /\ live_ptrs s'.(mem_) = live_ptrs s.(mem_).

Definition create_post (s : fs A) (p data : list Z) (size flags r : Z) (s' : fs A) : Prop :=
  if r =? FS_SUCCESS then
    created s s' p data size flags /\ lookup_path s.(nodes) (Some p) = (FS_NOT_FOUND, 0)
  else unchanged s s' /\
    (r = FS_ALR_EXIST -> exists x, lookup_path s.(nodes) (Some p) = (FS_SUCCESS, x)).

(** [kcalloc] can return NULL before it clears the node. *)
Definition node_alloc_fails : Prop := exists a a', alloc_op sizeof_file a = Done (0, a').

Lemma run_impl {B : Type} (m : M (fs A) B) s (Q Q' : B -> fs A -> Prop) (F F' : Prop) :
  run m s Q F -> (forall b s', Q b s' -> Q' b s') -> (F -> F') -> run m s Q' F'.
Proof. unfold run. destruct (m s) as [[b s']| |]; auto. Qed.

Lemma make_file_run s dir d np p u name data size flags a :
  fs_inv s -> s.(nodes) !! dir = Some d -> is_dir d = true ->
  resolve s.(nodes) root_ptr (components u) = (FS_SUCCESS, dir) ->
  (forall m, resolve m root_ptr (components p) = resolve m root_ptr (components u ++ [name])) ->
  Forall (fun c => 0 < c) name -> name <> [dot] -> name <> [dot; dot] ->
  (forall c, c ∈ kids s.(nodes) d -> kname s.(nodes) c <> name) ->
  0 <= size <= Z.of_nat (length (default [] data)) ->
  np ∉ live_ptrs s.(mem_) -> live_ptrs a = {[np]} ∪ live_ptrs s.(mem_) ->
  run (make_file dir np name data size flags) (mk_fs s.(nodes) a)
    (fun r s' => r = FS_SUCCESS /\ created s s' p (default [] data) size flags \/
                 r = FS_FAIL /\ unchanged s s') node_alloc_fails.
Proof.
  intros Hi Hd Hdir Hr Hp Hname Hn1 Hn2 Hnew Hsize Hnp Ha.
  unfold make_file. apply run_bind, run_alloc. cbn [nodes mem_]. intros fp a1 E1 H1.
  destruct (Z.eqb_spec fp 0) as [->|Hfp0]; [unfold run, fault, node_alloc_fails; eauto|].
  destruct H1 as [[? _]|(_ & Hfp & Ha1)]; [done|]. rewrite Ha in Hfp, Ha1.
  cbv zeta.
  apply not_elem_of_union in Hfp as [Hfn Hfp]. rewrite not_elem_of_singleton in Hfn.
  destruct (Z.eqb_spec size 0) as [Hz|Hz]; cbn [negb].
  - eapply run_impl; [apply (make_link s dir d fp np 0 p u name (default [] data) size flags);
      [done..|lia|lia|done|done|done|lia|done|lia|]|by left|done].
    rewrite Ha1. apply set_eq. intros x. clear. set_solver.
  - apply run_bind, run_alloc. cbn [nodes mem_]. intros dp a2 _ H2.
    destruct (Z.eqb_spec dp 0) as [->|Hdp0].
    + destruct H2 as [[_ Ha2]|(? & _)]; [|done]. rewrite Ha1 in Ha2.
      apply run_bind, run_free; cbn [nodes mem_]; [rewrite Ha2; set_solver|]. intros a3 Ha3.
      apply run_bind, run_free; cbn [nodes mem_]; [rewrite Ha3, Ha2; set_solver|]. intros a4 Ha4.
      apply run_ret. right. split; [done|]. split; [done|]. cbn. rewrite Ha4, Ha3, Ha2.
      apply set_eq. intros x. set_solver.
    + destruct H2 as [[? _]|(_ & Hdp & Ha2)]; [done|]. rewrite Ha1 in Hdp, Ha2.
      destruct (Z.ltb_spec (Z.of_nat (length (default [] data))) size); [lia|].
      rewrite !not_elem_of_union, !not_elem_of_singleton in Hdp. destruct Hdp as (Hdf & Hdn & Hdl).
      eapply run_impl; [apply (make_link s dir d fp np dp p u name (default [] data) size flags);
        [done..|lia|done|done|done|done|done|done|done|]|by left|done].
      rewrite Ha2. destruct (Z.eqb_spec dp 0); [done|]. apply set_eq. intros x. clear. set_solver.
Qed.

(** What a refusal with the code [r] leaves: nothing changed. *)
Lemma refused s p data size flags r s' :
  r <> FS_SUCCESS -> r <> FS_ALR_EXIST -> unchanged s s' -> create_post s p data size flags r s'.
Proof. intros Hr1 Hr2 Hu. unfold create_post. destruct (Z.eqb_spec r FS_SUCCESS); [done|]. by split. Qed.

(** Releasing the copy of the name, the only buffer still held. *)
Lemma free_name s a np Q F :
  np ∉ live_ptrs s.(mem_) -> live_ptrs a = {[np]} ∪ live_ptrs s.(mem_) ->
  (forall a', live_ptrs a' = live_ptrs s.(mem_) -> Q tt (mk_fs s.(nodes) a')) ->
  run (kfree_ np) (mk_fs s.(nodes) a) Q F.
Proof.
  intros Hn Ha HQ. apply run_free; cbn [nodes mem_]; [rewrite Ha; set_solver|]. intros a' Ha'. apply HQ.
  rewrite Ha', Ha. apply set_eq. intros x. set_solver.
Qed.

(** The buffers of the name and of the parent's path go back together. *)
Lemma free_name_and_path s a pp np (F : Prop) :
  pp ∉ live_ptrs s.(mem_) -> np ∉ {[pp]} ∪ live_ptrs s.(mem_) ->
  live_ptrs a = {[np]} ∪ ({[pp]} ∪ live_ptrs s.(mem_)) ->
  run (_ ← kfree_ np; _ ← kfree_ pp; mret FS_FAIL) (mk_fs s.(nodes) a)
    (fun r s' => r = FS_FAIL /\ unchanged s s') F.
Proof.
  intros Hpp Hnp Ha.
  apply run_bind, run_free; cbn [nodes mem_]; [rewrite Ha; set_solver|]. intros a3 Ha3.
  apply run_bind, run_free; cbn [nodes mem_]; [rewrite Ha3, Ha; set_solver|]. intros a4 Ha4.
  apply run_ret. split; [done|]. split; [done|]. cbn. rewrite Ha4, Ha3, Ha. apply set_eq. intros x. set_solver.
Qed.

Lemma create_in_run s par d np p u name data size flags a :
  fs_inv s -> s.(nodes) !! par = Some d ->
  resolve s.(nodes) root_ptr (components u) = (FS_SUCCESS, par) ->
  (forall m, resolve m root_ptr (components p) = resolve m root_ptr (components u ++ [name])) ->
  Forall (fun c => 0 < c) name -> name <> [] -> name <> [dot] -> name <> [dot; dot] ->
  0 <= size <= Z.of_nat (length (default [] data)) ->
  np ∉ live_ptrs s.(mem_) -> live_ptrs a = {[np]} ∪ live_ptrs s.(mem_) ->
  run (create_in par np name data size flags) (mk_fs s.(nodes) a)
    (create_post s p (default [] data) size flags) node_alloc_fails.
Proof.
  intros Hi Hd Eu Hres Hpos Hn0 Hn1 Hn2 Hsize Hnp Ha. pose proof (so_tree _ (fi_store _ Hi)) as Hwf.
  unfold create_in. apply run_bind. apply (run_get _ _ d); [done|].
  destruct (is_dir d) eqn:Hdir; cbn [negb].
  2: apply run_bind; apply free_name; [done..|]; intros a4 Ha4; apply run_ret; by apply refused.
  assert (fs_inv (mk_fs s.(nodes) a)) as Hia by (apply (fs_inv_mono s); [done|done|rewrite Ha; set_solver]).
  apply run_bind. eapply run_eq; [by apply (find_child_spec _ par d)|]. cbn [nodes].
  assert ((if first_match s.(nodes) (named name) (kids s.(nodes) d) =? 0 then (FS_NOT_FOUND, 0)
     else (FS_SUCCESS, first_match s.(nodes) (named name) (kids s.(nodes) d)))
     = resolve s.(nodes) root_ptr (components p)) as Hlook.
  { rewrite Hres, (resolve_app _ _ _ par) by (try done; destruct (tw_root _ Hwf) as (r & -> & _); by eexists).
    cbn [resolve]. rewrite !bool_decide_eq_false_2 by done. rewrite Hd, Hdir. by cbn [negb]. }
  destruct (Z.eqb_spec (first_match s.(nodes) (named name) (kids s.(nodes) d)) 0) as [Hz|Hz]; cbn [negb].
  - eapply run_impl; [apply (make_file_run s par d np p u name data size flags)| |done]; try done.
    + intros c Hc. apply (first_match_0 _ _ (kids s.(nodes) d)); [|done|done].
      destruct (kids_sib _ _ _ Hwf Hd) as (Hs & _). intros y Hy. destruct (sib_dom _ _ _ Hs y Hy). done.
    + intros r s' [[-> Hc]|[-> Hu]]; [|by apply refused]. unfold create_post. cbn. split; [done|]. by rewrite <- Hlook.
  - apply run_bind. apply free_name; [done..|]. intros a4 Ha4. apply run_ret. unfold create_post. cbn. split; [done|].
    intros _. eexists. by rewrite <- Hlook.
Qed.

Lemma create_file_run s p data size flags :
  fs_inv s -> Forall (fun c => 0 < c) p -> 0 <= size <= Z.of_nat (length (default [] data)) ->
  run (create_file (Some p) data size flags) s (create_post s p (default [] data) size flags) node_alloc_fails.
Proof.
  intros Hi Hpos Hsize. unfold create_file. cbv zeta.
  destruct (match data with None => _ | Some _ => false end); [apply run_ret; by apply refused|].
  destruct (Nat.eqb_spec (length p) 0) as [Hl|Hl]; cbn [orb]; [apply run_ret; by apply refused|].
  destruct (Z.eqb_spec (List.last p 0) slash) as [Hsl|Hsl]; [apply run_ret; by apply refused|].
  destruct (split_path p) as [u name] eqn:Esp.
  destruct (split_path_spec ∅ p u name ltac:(by destruct p) Hsl Esp) as (Hnn & Hin & _).
  assert (Forall (fun c => 0 < c) name) as Hnpos by (rewrite Forall_forall in Hpos |- *; auto).
  assert (forall m, resolve m root_ptr (components p) = resolve m root_ptr (components u ++ [name])) as Hres.
  { intros m. apply split_path_spec; [by destruct p|done..]. }
  apply run_bind, run_alloc. intros pp a1 _ H1.
  destruct (Z.eqb_spec pp 0) as [->|Hpp0].
  { destruct H1 as [[_ Ha1]|(? & _)]; [|done]. apply run_ret. by apply refused. }
  destruct H1 as [[? _]|(_ & Hpp & Ha1)]; [done|].
  apply run_bind, run_alloc. cbn [nodes mem_]. intros np a2 _ H2.
  destruct (Z.eqb_spec np 0) as [->|Hnp0].
  { destruct H2 as [[_ Ha2]|(? & _)]; [|done]. rewrite Ha1 in Ha2.
    apply run_bind, free_name; [done..|]. intros a3 Ha3. apply run_ret. by apply refused. }
  destruct H2 as [[? _]|(_ & Hnp & Ha2)]; [done|]. rewrite Ha1 in Ha2, Hnp.
  assert (Forall (fun c => 0 < c) [dot] /\ Forall (fun c => 0 < c) [dot; dot]) as [Hdot1 Hdot2].
  { split; repeat constructor. }
  destruct (Z.eqb_spec (cmp_list name [dot]) 0) as [E1|E1]; cbn [orb];
    [|destruct (Z.eqb_spec (cmp_list name [dot; dot]) 0) as [E2|E2]].
  1,2: eapply run_impl; [by apply free_name_and_path| |done]; intros r s' [-> Hu]; by apply refused.
  rewrite cmp_list_0 in E1 by done. rewrite cmp_list_0 in E2 by done.
  pose proof (so_tree _ (fi_store _ Hi)) as Hwf.
  apply run_bind. eapply run_eq; [by apply (parse_path_lookup (mk_fs s.(nodes) a2) (Some u))|].
  cbn [nodes lookup_path].
  destruct (tw_root _ Hwf) as (rt & Hrt & _).
  destruct (resolve s.(nodes) root_ptr (components u)) as [st par] eqn:Eu'.
  apply run_bind, run_free; cbn [nodes mem_]; [rewrite Ha2; set_solver|]. intros a3 Ha3.
  assert (live_ptrs a3 = {[np]} ∪ live_ptrs s.(mem_)) as Ha3'.
  { rewrite Ha3, Ha2. apply set_eq. intros x. set_solver. }
  apply not_elem_of_union in Hnp as [_ Hnp].
  destruct (resolve_result _ Hwf (components u) root_ptr) as [(dir & Eu & [d Hd])|[Eu|Eu]]; [by eexists|..];
    rewrite Eu in Eu'; injection Eu' as <- <-.
  2,3: cbn; apply run_bind, free_name; [done..|]; intros a4 Ha4; apply run_ret; by apply refused.
  by apply (create_in_run s dir d np p u name data size flags).
Qed.

(** ** Deleting *)

Lemma write_link_rewire l v (s : fs A) x :
  read_link l s = Done (x, s) -> write_link l v s = Done (tt, set_nodes (rewire l v s.(nodes)) s).
Proof.
  assert (forall g p f, s.(nodes) !! p = Some f -> <[p := g f]> s.(nodes) = alter g p s.(nodes)) as Ha.
  { intros g p f Hf. apply map_eq. intros i. destruct (decide (i = p)) as [->|].
    - by rewrite lookup_insert_eq, lookup_alter_eq, Hf.
    - by rewrite lookup_insert_ne, lookup_alter_ne by done. }
  unfold read_link, write_link, update. destruct l; unfold mbind, M_bind, get_node, put_node, modify; cbn;
    destruct (s.(nodes) !! p) as [f|] eqn:Hf; try done; intros _; by rewrite (Ha _ _ f).
Qed.

Lemma unlink_loop_spec (s : fs A) t ft l2 : forall l1 fuel l v,
  s.(nodes) !! t = Some ft -> read_link l s = Done (v, s) -> sib s.(nodes) v (l1 ++ t :: l2) ->
  t ∉ l1 -> l <> LNext t -> (length l1 < fuel)%nat ->
  exists ft', rewire (link_after l l1) ft.(f_next) s.(nodes) !! t = Some ft' /\
  unlink_loop fuel l t s =
    Done (true, set_nodes (<[t := set_next 0 ft']> (rewire (link_after l l1) ft.(f_next) s.(nodes))) s).
Proof.
  intros l1. induction l1 as [|c l1 IH]; intros fuel l v Ht Hl Hs Hn Hlt Hf;
    (destruct fuel as [|n]; [cbn in Hf; lia|]); cbn [unlink_loop]; rewrite (bind_eq _ _ _ _ _ Hl).
  - destruct Hs as (-> & Ht0 & _). destruct (Z.eqb_spec t 0); [done|]. rewrite Z.eqb_refl.
    assert (get_node t s = Done (ft, s)) as Hg by (unfold get_node; by rewrite Ht).
    rewrite (bind_eq _ _ _ _ _ Hg), (bind_eq _ _ _ _ _ (write_link_rewire l _ s t Hl)).
    change (link_after l []) with l.
    destruct (rewire_lookup l ft.(f_next) s.(nodes) t ft Ht) as (ft' & Hft' & _).
    exists ft'. split; [done|]. unfold update, mbind, M_bind, get_node, put_node, modify. cbn. by rewrite Hft'.
  - destruct Hs as (-> & Hc0 & f & Hfc & Hs). destruct (Z.eqb_spec c 0); [done|].
    destruct (Z.eqb_spec c t) as [->|]; [set_solver|].
    assert (link_after l (c :: l1) = link_after (LNext c) l1) as ->.
    { unfold link_after. destruct l1 as [|x l1]; [done|]. cbn. by destruct (last (x :: l1)) eqn:E; [|apply last_None in E]. }
    apply (IH n (LNext c) f.(f_next)); [done| |done|set_solver|congruence|cbn in Hf; lia].
    unfold read_link, mbind, M_bind, get_node. by rewrite Hfc.
Qed.

Definition deletable (s : fs A) (p : option (list Z)) (t : Z) (ft : file) : Prop :=
  lookup_path s.(nodes) p = (FS_SUCCESS, t) /\ s.(nodes) !! t = Some ft /\ t <> root_ptr /\
  ft.(f_children) = 0.

Record deleted (s s' : fs A) (t : Z) (ft : file) : Prop := {
  dl_inv : fs_inv s';
  dl_gone : s'.(nodes) !! t = None;
  dl_mem : live_ptrs s'.(mem_) = live_ptrs s.(mem_) ∖ owned t ft;
  dl_rest : forall p f, s.(nodes) !! p = Some f -> p <> t -> exists f', s'.(nodes) !! p = Some f' /\
    same_entry f f' /\ kids s'.(nodes) f' = filter (fun c => c <> t) (kids s.(nodes) f);
  dl_paths : forall q,
    lookup_path s.(nodes) q <> (FS_SUCCESS, t) /\ lookup_path s'.(nodes) q = lookup_path s.(nodes) q \/
    lookup_path s'.(nodes) q = (FS_NOT_FOUND, 0);
}.

Lemma run_free_data dp s Q F :
  (dp <> 0 -> dp ∈ live_ptrs s.(mem_)) ->
  (forall a, live_ptrs a = live_ptrs s.(mem_) ∖ (if dp =? 0 then ∅ else {[dp]}) -> Q tt (mk_fs s.(nodes) a)) ->
  run (kfree_ dp) s Q F.
Proof.
  intros Hd HQ. destruct (Z.eqb_spec dp 0) as [->|Hn]; [|apply run_free; auto].
  unfold run, kfree_, lift_mem. rewrite release_null. apply HQ. apply set_eq. set_solver.
Qed.

Lemma leaf_children m t ft : store_ok m -> m !! t = Some ft -> is_dir ft = false -> ft.(f_children) = 0.
Proof.
  intros Hm Ht Hd. destruct (kids_sib _ _ _ (so_tree _ Hm) Ht) as (Hs & _ & _ & Hk).
  destruct (kids m ft) as [|c l]; [done|]. exfalso.
  destruct (Hk c) as (_ & g & Hg & Hp); [set_solver|].
  destruct (tw_parent _ (so_tree _ Hm) _ _ Hg) as (h & Hh & Hhd). congruence.
Qed.

Lemma deleted_intro (s : fs A) t ft d l1 l2 a :
  fs_inv s -> s.(nodes) !! t = Some ft -> t <> root_ptr -> s.(nodes) !! ft.(f_parent) = Some d ->
  kids s.(nodes) d = l1 ++ t :: l2 -> ft.(f_children) = 0 ->
  live_ptrs a = live_ptrs s.(mem_) ∖ owned t ft ->
  deleted s (mk_fs (remove_child s.(nodes) t ft l1) a) t ft.
Proof.
  intros Hi Ht Hr Hd Hl Hc Ha. pose proof (fi_store _ Hi) as Hm.
  split; cbn [nodes mem_].
  - split; cbn [nodes mem_].
    + by apply (rem_store _ _ _ d l1 l2).
    + intros p f' Hf' Hp. destruct (rem_inv _ _ _ _ _ _ Hf') as (Hpt & f & Hf & (_ & E2 & _ & _ & E5 & _)).
      assert (owned p f' = owned p f) as -> by (unfold owned; by rewrite E2, E5).
      pose proof (fi_live _ Hi p f Hf Hp). pose proof (so_disjoint _ Hm p t f ft Hf Ht Hp Hr Hpt).
      rewrite Ha. set_solver.
    + rewrite Ha. apply elem_of_difference. split; [apply (fi_root _ Hi)|].
      intros Ho. pose proof (fi_live _ Hi t ft Ht Hr). set_solver.
  - apply rem_t.
  - exact Ha.
  - intros p f Hf Hp. destruct (rem_old s.(nodes) t ft l1 _ _ Hf Hp) as (f' & Hf' & Hs & _).
    exists f'. split_and!; [done..|]. by apply (rem_kids s.(nodes) t ft d l1 l2) with (p := p).
  - intros [q|]; [|left; by split]. cbn [lookup_path].
    apply (rem_resolve s.(nodes) t ft d l1 l2); try done.
    destruct (tw_root _ (so_tree _ Hm)) as (r & -> & _). by eexists.
Qed.

Definition delete_post (s : fs A) (p : option (list Z)) (r : Z) (s' : fs A) : Prop :=
  if r =? FS_SUCCESS then exists t ft, deletable s p t ft /\ deleted s s' t ft
  else s' = s /\ ~ exists t ft, deletable s p t ft.

(** What a path names, or the code of the lookup that failed. *)
Lemma lookup_result s p st t : fs_inv s -> lookup_path s.(nodes) p = (st, t) ->
  st = FS_SUCCESS /\ is_Some (s.(nodes) !! t) \/ st <> FS_SUCCESS.
Proof.
  intros Hi Ep. pose proof (so_tree _ (fi_store _ Hi)) as Hwf.
  destruct p as [p|]; cbn in Ep; [|injection Ep as <- <-; by right].
  destruct (tw_root _ Hwf) as (r & Hr & _).
  destruct (resolve_result _ Hwf (components p) root_ptr) as [(x & E & Hx)|[E|E]]; [by eexists|..];
    rewrite E in Ep; injection Ep as <- <-; [by left|by right|by right].
Qed.

(** The three blocks of a node are released, and the node leaves the store. *)
Lemma release_node m a t ft (F : Prop) :
  owned t ft ⊆ live_ptrs a -> ft.(f_name_ptr) <> t ->
  (ft.(f_data_ptr) <> 0 -> ft.(f_data_ptr) <> t /\ ft.(f_data_ptr) <> ft.(f_name_ptr)) ->
  run (_ ← kfree_ ft.(f_name_ptr);
       _ ← kfree_ ft.(f_data_ptr);
       _ ← kfree_ t;
       _ ← modify (fun s => set_nodes (delete t s.(nodes)) s);
       mret FS_SUCCESS) (mk_fs m a)
    (fun r s' => r = FS_SUCCESS /\ exists a', s' = mk_fs (delete t m) a' /\
       live_ptrs a' = live_ptrs a ∖ owned t ft) F.
Proof.
  intros Hlive Hn1 Hn2. unfold owned in Hlive.
  apply run_bind, run_free; cbn [nodes mem_ set_nodes]; [set_solver|]. intros a1 Ha1.
  apply run_bind, run_free_data; cbn [nodes mem_].
  { intros Hdp. destruct (Hn2 Hdp). rewrite Ha1. destruct (Z.eqb_spec (f_data_ptr ft) 0); [done|]. set_solver. }
  intros a2 Ha2. apply run_bind, run_free; cbn [nodes mem_].
  { rewrite Ha2, Ha1. destruct (Z.eqb_spec (f_data_ptr ft) 0) as [|Hdp]; [set_solver|].
    destruct (Hn2 Hdp). set_solver. }
  intros a3 Ha3. apply run_bind. eapply run_eq; [reflexivity|]. cbn [nodes mem_ set_nodes].
  apply run_ret. split; [done|]. exists a3. split; [done|].
  rewrite Ha3, Ha2, Ha1. unfold owned. apply set_eq. intros x. clear. set_solver.
Qed.

Lemma delete_file_run s p : fs_inv s -> run (delete_file p) s (delete_post s p) False.
Proof.
  intros Hi. pose proof (fi_store _ Hi) as Hm. pose proof (so_tree _ Hm) as Hwf.
  unfold delete_file. apply run_bind. eapply run_eq; [by apply parse_path_lookup|].
  destruct (lookup_path s.(nodes) p) as [st t] eqn:Ep.
  destruct (lookup_result s p st t Hi Ep) as [[-> [ft Ht]]|Hst].
  2: { destruct (Z.eqb_spec st FS_SUCCESS); [done|]. apply run_ret. unfold delete_post.
       destruct (Z.eqb_spec st FS_SUCCESS); [done|]. split; [done|]. intros (t' & ft & Hdl & _). congruence. }
  cbn [negb]. rewrite Z.eqb_refl. cbn [negb].
  destruct (Z.eqb_spec t root_ptr) as [Hroot|Hroot].
  { apply run_ret. split; [done|]. intros (t' & ft' & Hdl & _ & Hnr & _). congruence. }
  apply run_bind, (run_get _ _ ft); [done|].
  destruct (is_dir ft && negb (f_children ft =? 0)) eqn:Hde.
  { apply run_ret. split; [done|]. intros (t' & ft' & Hdl & Ht' & _ & Hc).
    rewrite Hdl in Ep. injection Ep as ->. rewrite Ht in Ht'. injection Ht' as <-.
    rewrite Hc in Hde. cbn in Hde. by rewrite andb_false_r in Hde. }
  assert (ft.(f_children) = 0) as Hc0.
  { destruct (is_dir ft) eqn:Hd; [|by apply (leaf_children s.(nodes) t)].
    cbn in Hde. by destruct (Z.eqb_spec (f_children ft) 0). }
  clear Hde. destruct (so_linked _ Hm _ _ Ht Hroot) as (d & Hd & Hin).
  destruct (Z.eqb_spec ft.(f_parent) 0) as [Hp0|_]; [rewrite Hp0, (tw_null _ Hwf) in Hd; done|].
  apply list_elem_of_split in Hin as (l1 & l2 & Hl).
  destruct (kids_sib _ _ _ Hwf Hd) as (Hs & Hnd & Hlen & _). rewrite Hl in Hs, Hnd, Hlen.
  assert (t ∉ l1) as Htl.
  { apply NoDup_app in Hnd as (_ & Hn & _). intros Hi1. apply (Hn t Hi1). set_solver. }
  destruct (unlink_loop_spec s t ft l2 l1 (node_fuel s) (LChildren ft.(f_parent)) d.(f_children))
    as (ft' & Hft' & Hun); try done.
  { unfold read_link, mbind, M_bind, get_node. by rewrite Hd. }
  { unfold node_fuel. rewrite length_app in Hlen. cbn in Hlen. lia. }
  apply run_bind. unfold unlink_child. apply run_bind. eapply run_eq; [apply gets_eq|].
  eapply run_eq; [exact Hun|]. cbn [negb].
  destruct (fo_own _ _ (so_file _ Hm _ _ Ht) Hroot) as [Hn1 Hn2].
  eapply run_impl; [apply (release_node _ s.(mem_) t ft); [pose proof (fi_live _ Hi t ft Ht Hroot); set_solver|done..]| |done].
  intros r s' (-> & a' & -> & Ha'). exists t, ft. split; [done|].
  rewrite delete_insert_eq. by apply (deleted_intro s t ft d l1 l2).
Qed.
End ops.
