(* ===== verification/FsTheorems.v ===== *)
(** * The properties of the RAM file system

    The theorems about [fs.c], for every allocator that keeps its laws, with a
    bump allocator to run them. *)

From S2P Require Import Prelude StringLib StringFacts Fs FsFacts FsTree FsOps.

(** ** An allocator to run the file system with *)

(** Addresses are handed out in order; the set of live ones is recorded. *)
Record bump := mk_bump { b_next : Z; b_live : gset Z }.

#[export] Instance bump_allocator : Allocator bump := {
  alloc_op n s :=
    if (b_next s <=? 1) || bool_decide (b_next s ∈ b_live s) then Done (0, s)
    else Done (b_next s, mk_bump (b_next s + 1) ({[b_next s]} ∪ b_live s));
  release_op p s := Done (tt, if p =? 0 then s else mk_bump (b_next s) (b_live s ∖ {[p]}));
  live_ptrs s := b_live s ∖ {[0]};
}.

#[export] Instance bump_laws : AllocatorLaws bump.
Proof.
  split; cbn.
  - intros n s. destruct (Z.leb_spec (b_next s) 1); cbn [orb]; [by left|].
    case_bool_decide; [by left|]. right. cbn. split_and!; [lia|set_solver|].
    assert (b_next s <> 0) by lia. apply set_eq. intros x. set_solver.
  - intros p s Hp. destruct (Z.eqb_spec p 0) as [->|]; [set_solver|].
    eexists. split; [done|]. cbn. apply set_eq. intros x. set_solver.
  - done.
Qed.

Module FsDemo.
(** The state after [init_fs] has built the root, with an empty heap. *)
Definition fs0 : fs bump := mk_fs {[ root_ptr := root_node ]} (mk_bump 100 {[ root_ptr ]}).

Definition path_a : list Z := [97].
Definition path_ab : list Z := [47; 97; 47; 98].
Definition bytes3 : list Z := [1; 2; 3].

(** A folder [a] and a file [/a/b] of three bytes. *)
Definition fs1 : fs bump :=
  match (_ ← create_folder (Some path_a); create_file (Some path_ab) (Some bytes3) 3 0) fs0 with
  | Done (_, s) => s
  | _ => fs0
  end.
End FsDemo.

(** ** The root *)

Lemma root_store : store_ok {[ root_ptr := root_node ]}.
Proof.
  assert (forall p f, ({[ root_ptr := root_node ]} : gmap Z file) !! p = Some f -> p = root_ptr /\ f = root_node) as Hs.
  { intros p f Hf. apply lookup_singleton_Some in Hf as [<- <-]. done. }
  assert (kids {[ root_ptr := root_node ]} root_node = []) as Hk.
  { apply kids_eq; [done|constructor]. }
  split.
  - split.
    + exists root_node. by rewrite lookup_singleton_eq.
    + done.
    + intros p f Hf. apply Hs in Hf as [-> ->]. exists []. split_and!; [done|constructor|set_solver].
    + intros p f Hf. apply Hs in Hf as [-> ->]. exists root_node. by rewrite lookup_singleton_eq.
  - intros p f Hf Hp. by apply Hs in Hf as [-> _].
  - intros p f Hf. apply Hs in Hf as [-> ->]. rewrite Hk. constructor.
  - intros p f Hf. apply Hs in Hf as [-> ->]. split; [|done|done|done]. repeat constructor.
  - intros p q f g Hf _ Hp. by apply Hs in Hf as [-> _].
Qed.

(** C24. [parse_path] is path resolution: on every tree of nodes it terminates
    without an invalid access, leaves the state alone, and returns what a walk
    over the components between slashes returns ([.] stays, [..] goes to the
    parent, the root's parent being the root, any other component to the first
    child that has exactly that name), an absolute and a relative path meaning
    the same; the result is a node of the tree, or [FS_NOT_FOUND] or
    [FS_NOT_A_DIR]. *)
Theorem parse_path_resolves {A : Type} `{Allocator A} (s : fs A) (p : list Z) :
  tree_wf s.(nodes) ->
  parse_path (Some p) s = Done (resolve s.(nodes) root_ptr (components p), s) /\
  ((exists x, resolve s.(nodes) root_ptr (components p) = (FS_SUCCESS, x) /\ is_Some (s.(nodes) !! x)) \/
   resolve s.(nodes) root_ptr (components p) = (FS_NOT_FOUND, 0) \/
   resolve s.(nodes) root_ptr (components p) = (FS_NOT_A_DIR, 0)).
Proof.
  intros Hwf. split; [by apply (parse_path_lookup s (Some p))|].
  apply resolve_result; [done|]. destruct (tw_root _ Hwf) as (r & -> & _). by eexists.
Qed.

Lemma parse_path_resolves_witness :
  parse_path (Some [47; 47; 46; 46; 47; 97]) FsDemo.fs0 = Done ((FS_NOT_FOUND, 0), FsDemo.fs0).
Proof.
  pose proof (parse_path_resolves FsDemo.fs0 [47; 47; 46; 46; 47; 97] (so_tree _ root_store)) as [H _].
  exact H.
Defined.

(** C5. [create_file] on a well-formed tree, for every allocator: it keeps the
    file-system invariant; on success the path, which named nothing, names a new
    node with the given bytes, size and flags, every other path still leads
    where it led, no other node changed, and exactly the node, its name and its
    data are newly allocated; on failure nothing changed and nothing leaked, and
    [FS_ALR_EXIST] means that the path was taken.  It makes an invalid access
    only when the allocator has no memory for the node. *)
Theorem create_file_spec {A : Type} `{AllocatorLaws A} (s : fs A) (p : list Z) (data : option (list Z))
    (size flags : Z) :
  fs_inv s -> Forall (fun c => 0 < c) p -> 0 <= size <= Z.of_nat (length (default [] data)) ->
  match create_file (Some p) data size flags s with
  | Done (r, s') => create_post s p (default [] data) size flags r s'
  | Panicked _ => True
  | Fault => node_alloc_fails
  end.
Proof. intros Hi Hp Hs. exact (create_file_run s p data size flags Hi Hp Hs). Qed.

Lemma demo_inv : fs_inv FsDemo.fs0.
Proof.
  split; [exact root_store| |by vm_compute].
  intros p f Hf Hp. unfold FsDemo.fs0 in Hf. cbn [nodes] in Hf.
  apply lookup_singleton_Some in Hf as [<- _]. done.
Qed.

Lemma create_file_spec_witness :
  exists r s', create_file (Some FsDemo.path_a) (Some FsDemo.bytes3) 3 0 FsDemo.fs0 = Done (r, s') /\
    create_post FsDemo.fs0 FsDemo.path_a FsDemo.bytes3 3 0 r s'.
Proof.
  pose proof (create_file_spec FsDemo.fs0 FsDemo.path_a (Some FsDemo.bytes3) 3 0 demo_inv) as H.
  specialize (H ltac:(repeat constructor) ltac:(cbn; lia)).
  destruct (create_file _ _ _ _ _) as [[r s']| |] eqn:E; [by exists r, s'|by vm_compute in E|by vm_compute in E].
Defined.

(** C6. [delete_file] on a well-formed tree never makes an invalid access.  It
    succeeds exactly when the path leads to a node other than the root without
    children; then the node is gone from its directory, its allocations and no
    others are released, every other node keeps its entry and its children but
    for the deleted one, a path that led to the node is not found, and the
    invariant holds.  Otherwise the state is unchanged. *)
Theorem delete_file_spec {A : Type} `{AllocatorLaws A} (s : fs A) (p : option (list Z)) :
  fs_inv s ->
  match delete_file p s with
  | Done (r, s') => delete_post s p r s'
  | Panicked _ => True
  | Fault => False
  end.
Proof. intros Hi. exact (delete_file_run s p Hi). Qed.

Lemma delete_file_spec_witness :
  match delete_file (Some FsDemo.path_a) FsDemo.fs0 with
  | Done (r, s') => r = FS_NOT_FOUND /\ delete_post FsDemo.fs0 (Some FsDemo.path_a) r s'
  | _ => False
  end.
Proof.
  pose proof (delete_file_spec FsDemo.fs0 (Some FsDemo.path_a) demo_inv) as H.
  destruct (delete_file (Some FsDemo.path_a) FsDemo.fs0) as [[r s']| |] eqn:E; [|by vm_compute in E|done].
  split; [|done]. vm_compute in E. by injection E as <- _.
Defined.

(** ** Writing *)

Section writing.
Context {A : Type} `{AllocatorLaws A}.

Lemma write_file_run (s s' : fs A) p bytes n r :
  fs_inv s -> 0 <= n -> write_file_content p (Some bytes) n s = Done (r, s') ->
  r <> FS_SUCCESS /\ s' = s \/
  exists t f, lookup_path s.(nodes) p = (FS_SUCCESS, t) /\ s.(nodes) !! t = Some f /\
    is_dir f = false /\ n <= f.(f_size) /\ n <= Z.of_nat (length bytes) /\ r = FS_SUCCESS /\
    s' = set_nodes (change_data s.(nodes) t f (overwrite f.(f_data) bytes n)) s.
Proof.
  intros Hi Hn0 Hw. pose proof (fi_store _ Hi) as Hm. pose proof (so_tree _ Hm) as Hwf.
  unfold write_file_content in Hw. rewrite (bind_eq _ _ _ _ _ (parse_path_lookup s p Hwf)) in Hw.
  destruct (lookup_path s.(nodes) p) as [st t] eqn:Ep.
  destruct (succeeded st) eqn:Hst; cbn [negb] in Hw;
    [|injection Hw as <- <-; left; split; [by intros ->|done]].
  assert (st = FS_SUCCESS /\ is_Some (s.(nodes) !! t)) as [-> [f Ht]].
  { destruct p as [p|]; cbn [lookup_path] in Ep; [|injection Ep as <- <-; done].
    destruct (tw_root _ Hwf) as (r' & Hr & _).
    destruct (resolve_result _ Hwf (components p) root_ptr) as [(x & E & Hx)|[E|E]]; [by eexists|..];
      rewrite E in Ep; injection Ep as <- <-; done. }
  assert (get_node t s = Done (f, s)) as Hg by (unfold get_node; by rewrite Ht).
  rewrite (bind_eq _ _ _ _ _ Hg) in Hw.
  destruct (is_dir f) eqn:Hd; [injection Hw as <- <-; by left|].
  destruct (Z.ltb_spec f.(f_size) n) as [|Hnf]; [injection Hw as <- <-; by left|].
  destruct (negb (n =? 0) && (f_data_ptr f =? 0)); [injection Hw as <- <-; by left|].
  destruct (Z.ltb_spec (Z.of_nat (length bytes)) n) as [|Hnb]; [done|]. injection Hw as <- <-.
  right. exists t, f. done.
Qed.

Lemma overwrite_length (s : fs A) t f bytes n :
  fs_inv s -> s.(nodes) !! t = Some f -> 0 <= n <= f.(f_size) -> n <= Z.of_nat (length bytes) ->
  length (overwrite f.(f_data) bytes n) = length f.(f_data).
Proof.
  intros Hi Ht Hn Hb. destruct (so_file _ (fi_store _ Hi) _ _ Ht) as [_ Hsz _ _].
  unfold overwrite. rewrite length_app, length_take, length_drop. lia.
Qed.

Lemma change_inv (s : fs A) t f data :
  fs_inv s -> s.(nodes) !! t = Some f -> length data = length f.(f_data) ->
  fs_inv (set_nodes (change_data s.(nodes) t f data) s).
Proof.
  intros Hi Ht Hlen. pose proof (fi_store _ Hi) as Hm.
  split; cbn [nodes mem_ set_nodes]; [by apply chg_store| |apply (fi_root _ Hi)].
  intros q g' Hg' Hq. destruct (chg_links _ _ _ _ Ht _ _ Hg') as (g & Hgq & Hs).
  assert (owned q g' = owned q g) as -> by (destruct Hs as [->| ->]; done).
  by apply (fi_live _ Hi).
Qed.

Lemma change_paths (s : fs A) t f data :
  fs_inv s -> s.(nodes) !! t = Some f -> length data = length f.(f_data) ->
  forall q, lookup_path (change_data s.(nodes) t f data) q = lookup_path s.(nodes) q.
Proof.
  intros Hi Ht Hlen [q|]; [|done]. cbn [lookup_path]. apply chg_resolve; [apply (fi_store _ Hi)|done..|].
  destruct (tw_root _ (so_tree _ (fi_store _ Hi))) as (r & -> & _). by eexists.
Qed.

(** Reading a file through a path that leads to it. *)
Lemma read_found (s : fs A) p t f m :
  fs_inv s -> lookup_path s.(nodes) p = (FS_SUCCESS, t) -> s.(nodes) !! t = Some f ->
  is_dir f = false -> f.(f_size) <= m ->
  read_file_content p false m s = Done ((FS_SUCCESS, f.(f_data)), s).
Proof.
  intros Hi Hp Ht Hd Hm. pose proof (so_tree _ (fi_store _ Hi)) as Hwf. unfold read_file_content.
  rewrite (bind_eq _ _ _ _ _ (parse_path_lookup s p Hwf)), Hp.
  assert (get_node t s = Done (f, s)) as Hg by (unfold get_node; by rewrite Ht).
  replace (negb (succeeded FS_SUCCESS)) with false by done. rewrite (bind_eq _ _ _ _ _ Hg), Hd.
  destruct (Z.ltb_spec m f.(f_size)); [lia|].
  destruct (so_file _ (fi_store _ Hi) _ _ Ht) as [_ Hsz Hdp _].
  assert (negb (f_size f =? 0) && (f_data_ptr f =? 0) = false) as ->.
  { destruct (Z.eqb_spec f.(f_size) 0) as [|Hne]; [done|]. specialize (Hdp Hne).
    cbn. by destruct (Z.eqb_spec f.(f_data_ptr) 0). }
  rewrite andb_false_r, take_ge by lia. done.
Qed.
End writing.

(** C28. Writing the first bytes of a file and reading the file back gives these
    bytes followed by the rest of the old contents.  A successful
    [write_file_content] keeps the invariant, leads every path where it led and
    changes no other node. *)
Theorem write_read_roundtrip {A : Type} `{AllocatorLaws A} (s s' : fs A) (p : option (list Z))
    (bytes : list Z) (n : Z) :
  fs_inv s -> 0 <= n -> write_file_content p (Some bytes) n s = Done (FS_SUCCESS, s') ->
  exists t f, lookup_path s.(nodes) p = (FS_SUCCESS, t) /\ s.(nodes) !! t = Some f /\ n <= f.(f_size) /\
    fs_inv s' /\ (forall q, lookup_path s'.(nodes) q = lookup_path s.(nodes) q) /\
    (forall x, x <> t -> s'.(nodes) !! x = s.(nodes) !! x) /\
    forall m, f.(f_size) <= m ->
      read_file_content p false m s' =
        Done ((FS_SUCCESS, take (Z.to_nat n) bytes ++ drop (Z.to_nat n) f.(f_data)), s').
Proof.
  intros Hi Hn0 Hw.
  destruct (write_file_run _ _ _ _ _ _ Hi Hn0 Hw) as [[? _]|(t & f & Hp & Ht & Hd & Hnf & Hnb & _ & ->)]; [done|].
  pose proof (overwrite_length s t f bytes n Hi Ht ltac:(lia) Hnb) as Hlen.
  pose proof (change_inv s t f _ Hi Ht Hlen) as Hi'.
  pose proof (change_paths s t f _ Hi Ht Hlen) as Hq.
  exists t, f. split_and!; [done|done|lia|done|exact Hq|intros x Hx; by apply lookup_insert_ne|].
  intros m Hm. pose proof (lookup_insert_eq s.(nodes) t (set_data (overwrite f.(f_data) bytes n) f)) as Ht'.
  exact (read_found _ p t _ m Hi' (eq_trans (Hq p) Hp) Ht' Hd Hm).
Qed.

Lemma land_u16_1 x : Z.land (u16 x) 1 = Z.land x 1.
Proof.
  change 1 with (Z.ones 1). rewrite !Z.land_ones by lia. unfold u16. change (2 ^ 1) with 2.
  Z.div_mod_to_equations. lia.
Qed.

(** What [create_file] stored is what [read_file_content] returns through
    the same path. *)
Theorem create_read_roundtrip {A : Type} `{AllocatorLaws A} (s s' : fs A) (p bytes : list Z) (flags m : Z) :
  fs_inv s -> Forall (fun c => 0 < c) p -> Z.land flags FS_IS_DIRECTORY = 0 ->
  create_file (Some p) (Some bytes) (Z.of_nat (length bytes)) flags s = Done (FS_SUCCESS, s') ->
  Z.of_nat (length bytes) <= m ->
  read_file_content (Some p) false m s' = Done ((FS_SUCCESS, bytes), s').
Proof.
  intros Hi Hp Hfl Hc Hm.
  pose proof (create_file_run s p (Some bytes) (Z.of_nat (length bytes)) flags Hi Hp ltac:(cbn; lia)) as H1.
  unfold run in H1. rewrite Hc in H1. destruct H1 as [[Hi' Hnew _ _] _].
  destruct Hnew as (fp & f & Hl & _ & Hf & Hd & Hs & Hflg & _).
  change (default [] (Some bytes)) with bytes in Hd. rewrite Nat2Z.id, take_ge in Hd by lia. rewrite <-Hd.
  eapply read_found; [done|exact Hl|exact Hf|unfold is_dir, FS_IS_DIRECTORY in *; by rewrite Hflg, land_u16_1, Hfl|by rewrite Hs].
Qed.

(** ** Every reachable state *)

Inductive fs_step {A : Type} `{Allocator A} : fs A -> fs A -> Prop :=
  | step_create s p data size flags r s' :
      Forall (fun c => 0 < c) p -> 0 <= size <= Z.of_nat (length (default [] data)) ->
      create_file (Some p) data size flags s = Done (r, s') -> fs_step s s'
  | step_folder s p r s' :
      Forall (fun c => 0 < c) p -> create_folder (Some p) s = Done (r, s') -> fs_step s s'
  | step_delete s p r s' : delete_file p s = Done (r, s') -> fs_step s s'
  | step_delete_folder s p r s' : delete_folder p s = Done (r, s') -> fs_step s s'
  | step_write s p bytes n r s' :
      0 <= n -> write_file_content p (Some bytes) n s = Done (r, s') -> fs_step s s'.

(** The states after [init_fs] has built the root. *)
Inductive fs_reach {A : Type} `{Allocator A} : fs A -> Prop :=
  | reach_init s s' : root_ptr ∈ live_ptrs s.(mem_) -> init_root s = Done (tt, s') -> fs_reach s'
  | reach_step s s' : fs_reach s -> fs_step s s' -> fs_reach s'.

Section reachable.
Context {A : Type} `{AllocatorLaws A}.

Lemma create_post_inv (s s' : fs A) p data size flags r :
  fs_inv s -> create_post s p data size flags r s' -> fs_inv s'.
Proof.
  intros Hi. unfold create_post. case_match; [intros [Hc _]; apply Hc|].
  intros [[Hn Hl] _]. destruct s' as [n a]. cbn in *. apply (fs_inv_mono s); [done|done|by rewrite Hl].
Qed.

Lemma delete_post_inv (s s' : fs A) p r : fs_inv s -> delete_post s p r s' -> fs_inv s'.
Proof.
  intros Hi. unfold delete_post. case_match; [|by intros [-> _]].
  intros (t & ft & _ & Hd). apply Hd.
Qed.
End reachable.

(** C12. The file-system invariant holds in every state that [init_fs] and any
    sequence of creations, deletions and writes reach: the nodes form a tree
    under the root with distinct names in every directory, sizes agree with the
    contents, and every allocation belongs to one node. *)
Theorem fs_invariant_reachable {A : Type} `{AllocatorLaws A} (s : fs A) : fs_reach s -> fs_inv s.
Proof.
  induction 1 as [s s' Hr Hs|s s' _ IH Hs].
  - injection Hs as <-. split; [exact root_store| |done].
    intros p f Hf Hp. cbn [nodes set_nodes] in Hf. apply lookup_singleton_Some in Hf as [<- _]. done.
  - destruct Hs as [s p data size flags r s' Hp Hsz Hc|s p r s' Hp Hc|s p r s' Hc|s p r s' Hc|s p bytes n r s' Hn Hc].
    + pose proof (create_file_run s p data size flags IH Hp Hsz) as H1. unfold run in H1. rewrite Hc in H1.
      by eapply create_post_inv.
    + pose proof (create_file_run s p None 0 FS_IS_DIRECTORY IH Hp ltac:(done)) as H1. unfold run in H1.
      unfold create_folder in Hc. apply bind_Done in Hc as (r1 & s1 & Hc & Hk). rewrite Hc in H1.
      assert (s' = s1) as -> by (destruct (negb (succeeded r1)); by injection Hk).
      by eapply create_post_inv.
    + pose proof (delete_file_run s p IH) as H1. unfold run in H1. rewrite Hc in H1. by eapply delete_post_inv.
    + pose proof (delete_file_run s p IH) as H1. unfold run in H1.
      unfold delete_folder in Hc. apply bind_Done in Hc as (r1 & s1 & Hc & Hk). rewrite Hc in H1.
      assert (s' = s1) as -> by (destruct (negb (succeeded r1)); by injection Hk).
      by eapply delete_post_inv.
    + destruct (write_file_run _ _ _ _ _ _ IH Hn Hc) as [[_ ->]|(t & f & _ & Ht & _ & Hnf & Hnb & _ & ->)]; [done|].
      apply change_inv; [done..|]. apply (overwrite_length s t); [done|done|lia|done].
Qed.

(** A run that finished, and where. *)
Lemma demo_reach :
  exists s, fs_reach s /\ fs_inv s /\
    match create_file (Some FsDemo.path_a) (Some FsDemo.bytes3) 3 0 FsDemo.fs0 with
    | Done (r, s') => r = FS_SUCCESS /\ s' = s | _ => False end.
Proof.
  destruct (create_file (Some FsDemo.path_a) (Some FsDemo.bytes3) 3 0 FsDemo.fs0) as [[r s']| |] eqn:E;
    [|by vm_compute in E|by vm_compute in E].
  exists s'. split_and!.
  - eapply reach_step; [|eapply step_create; [| |exact E]; [repeat constructor|cbn; lia]].
    eapply (reach_init FsDemo.fs0); [by vm_compute|reflexivity].
  - pose proof (create_file_run FsDemo.fs0 FsDemo.path_a (Some FsDemo.bytes3) 3 0 demo_inv
      ltac:(repeat constructor) ltac:(cbn; lia)) as Hr. unfold run in Hr. rewrite E in Hr.
    exact (create_post_inv _ _ _ _ _ _ _ demo_inv Hr).
  - assert (match create_file (Some FsDemo.path_a) (Some FsDemo.bytes3) 3 0 FsDemo.fs0 with
      | Done (r, _) => r = FS_SUCCESS | _ => False end) as Hr by by vm_compute.
    rewrite E in Hr. exact Hr.
  - done.
Qed.

Lemma fs_invariant_reachable_witness : exists s, fs_reach s /\ fs_inv s.
Proof.
  destruct demo_reach as (s & Hr & _). exists s. split; [exact Hr|exact (fs_invariant_reachable s Hr)].
Defined.

Lemma create_read_roundtrip_witness :
  match create_file (Some FsDemo.path_a) (Some FsDemo.bytes3) 3 0 FsDemo.fs0 with
  | Done (r, s') => read_file_content (Some FsDemo.path_a) false 8 s' = Done ((FS_SUCCESS, FsDemo.bytes3), s')
  | _ => False
  end.
Proof.
  destruct demo_reach as (s & _ & _ & Hr).
  destruct (create_file _ _ _ _ _) as [[r s']| |] eqn:E; [|done|done]. destruct Hr as [-> _].
  exact (create_read_roundtrip FsDemo.fs0 s' FsDemo.path_a FsDemo.bytes3 0 8 demo_inv
    ltac:(repeat constructor) eq_refl E ltac:(cbn; lia)).
Defined.

Lemma write_read_roundtrip_witness :
  exists s s' : fs bump, write_file_content (Some FsDemo.path_a) (Some [7]) 1 s = Done (FS_SUCCESS, s') /\
    exists m d, read_file_content (Some FsDemo.path_a) false m s' = Done ((FS_SUCCESS, d), s').
Proof.
  destruct demo_reach as (s & _ & Hi & Hc).
  assert (match create_file (Some FsDemo.path_a) (Some FsDemo.bytes3) 3 0 FsDemo.fs0 with
    | Done (_, s) => match write_file_content (Some FsDemo.path_a) (Some [7]) 1 s with
                     | Done (r, _) => r = FS_SUCCESS | _ => False end
    | _ => False end) as Hw by by vm_compute.
  destruct (create_file _ _ _ _ _) as [[r s1]| |]; [|done|done]. destruct Hc as [_ ->].
  destruct (write_file_content _ _ _ s) as [[r' s']| |] eqn:E; [|done|done]. subst r'.
  exists s, s'. split; [done|].
  destruct (write_read_roundtrip s s' (Some FsDemo.path_a) [7] 1 Hi ltac:(lia) E)
    as (t & f & _ & _ & _ & _ & _ & _ & Hrd).
  exists (f_size f), (take 1 [7] ++ drop 1 (f_data f)). exact (Hrd (f_size f) ltac:(lia)).
Defined.

(** [create_file_force] looks up and creates what follows the current
    component instead of what was read so far: a path with a single component
    is reported as created, but nothing is created. *)
Theorem create_file_force_creates_nothing {A : Type} `{AllocatorLaws A} (s : fs A) (p data : list Z)
    (size flags : Z) (c : list Z) :
  fs_inv s -> components p = [c] ->
  create_file_force (Some p) (Some data) size flags s = Done (FS_SUCCESS, s).
Proof.
  intros Hi Hc. pose proof (so_tree _ (fi_store _ Hi)) as Hwf. unfold create_file_force. cbv zeta.
  assert (components (skip_slashes p) = [c]) as Hc' by (unfold components in *; by rewrite skip_components).
  destruct (skip_slashes p) as [|x p'] eqn:E; [done|].
  destruct (component (x :: p')) as [w r] eqn:Ew.
  destruct (components_step _ w r x p' eq_refl (skip_head _ _ _ E) Ew) as (Hs & _ & _).
  rewrite Hs in Hc'. injection Hc' as _ Hr.
  assert (skip_slashes r = []) as Hnil.
  { destruct (skip_slashes r) as [|y r'] eqn:Er; [done|]. exfalso.
    destruct (component (y :: r')) as [w2 r2] eqn:Ew2.
    destruct (components_step _ w2 r2 y r' eq_refl (skip_head _ _ _ Er) Ew2) as (Hs2 & _). congruence. }
  cbn [force_loop length]. rewrite Ew, Hnil. rewrite (bind_eq _ _ _ _ _ (parse_path_lookup s (Some []) Hwf)).
  done.
Qed.

Lemma create_file_force_creates_nothing_witness :
  create_file_force (Some FsDemo.path_a) (Some FsDemo.bytes3) 3 0 FsDemo.fs0 = Done (FS_SUCCESS, FsDemo.fs0) /\
  lookup_path FsDemo.fs0.(nodes) (Some FsDemo.path_a) = (FS_NOT_FOUND, 0).
Proof.
  split; [|by vm_compute].
  exact (create_file_force_creates_nothing FsDemo.fs0 FsDemo.path_a FsDemo.bytes3 3 0 [97] demo_inv eq_refl).
Defined.
