(* ===== verification/Initramfs.v ===== *)
(** * The initial RAM disk ([kernel/fs/drivers/initramfs.c])

    The reader of the new-ASCII CPIO archive that the loader hands over, which
    fills the file system, and [init_fs].  The archive is a list of bytes and
    every read of it is bounds-checked.  Offsets never exceed the size of the
    archive when something is added to them, so no addition wraps. *)

From S2P Require Import Prelude StringLib StringFacts Fs.

Definition MAX_PATH : Z := 1024 * 4.

(** ** Fields *)

Definition hex_digit (c : Z) : option Z :=
  if (48 <=? c) && (c <=? 57) then Some (c - 48)
  else if (97 <=? c) && (c <=? 102) then Some (c - 97 + 10)
  else if (65 <=? c) && (c <=? 70) then Some (c - 65 + 10)
  else None.

(** The loop of [hex8]; [None] is its failure. *)
Fixpoint hex8_loop (n : nat) (s : list Z) (value : Z) : option Z :=
  match n with
  | O => Some value
  | S n' =>
      match hex_digit (s !!! 0%nat) with
      | None => None
      | Some digit => hex8_loop n' (drop 1 s) (Z.lor (u32 (Z.shiftl value 4)) digit)
      end
  end.
Definition hex8 (s : list Z) : option Z := hex8_loop 8 s 0.

Fixpoint read_fields (n : nat) (s : list Z) : option (list Z) :=
  match n with
  | O => Some []
  | S n' =>
      match hex8 s with
      | None => None
      | Some f => match read_fields n' (drop 8 s) with None => None | Some r => Some (f :: r) end
      end
  end.

(** The characters before the first NUL. *)
Fixpoint c_string (l : list Z) : list Z :=
  match l with
  | [] => []
  | c :: l' => if c =? 0 then [] else c :: c_string l'
  end.

Definition cpio_magic : list Z := [48; 55; 48; 55; 48; 49].
Definition trailer : list Z := [84; 82; 65; 73; 76; 69; 82; 33; 33; 33].

(** [while (name[0] == '.' && name[1] == '/')] drop both. *)
Fixpoint strip_dot (name : list Z) : list Z :=
  match name with
  | c :: (d :: r) => if (c =? dot) && (d =? slash) then strip_dot r else name
  | _ => name
  end.

(** [while (name_len > 0 && name[name_len - 1] == '/') name[--name_len] = 0;] *)
Fixpoint strip_slashes (fuel : nat) (name : list Z) : list Z :=
  match fuel with
  | O => name
  | S n => if negb (length name =? 0)%nat && (List.last name 0 =? slash) then strip_slashes n (removelast name) else name
  end.

Definition padding_of (offset : Z) : Z := Z.land (4 - Z.land offset 3) 3.

Section initramfs.
Context {A : Type} `{Allocator A}.

(** [pre] is the part of the path before [p]. *)
Fixpoint ensure_go (pre rest : list Z) : M (fs A) bool :=
  match rest with
  | [] => mret true
  | c :: r =>
      if negb (c =? slash) then ensure_go (pre ++ [c]) r
      else match pre with
           | [] => mret false
           | _ =>
               result ← create_folder (Some pre);
               if negb (result =? FS_SUCCESS) && negb (result =? FS_ALR_EXIST) then mret false
               else ensure_go (pre ++ [c]) r
           end
  end.
Definition ensure_parent_directories (path : list Z) : M (fs A) bool := ensure_go [] path.

(** One entry of the archive; [None] goes on, [Some] is an error code. *)
Definition install (mode : Z) (name data : list Z) (filesize : Z) : M (fs A) (option Z) :=
  let type := Z.land mode 61440 in
  if type =? 16384 then
    let name := strip_slashes (length name) name in
    if (length name =? 0)%nat then mret (Some (-3)) else
    ok ← ensure_parent_directories name;
    if negb ok then mret (Some (-6)) else
    result ← create_folder (Some name);
    if negb (result =? FS_SUCCESS) && negb (result =? FS_ALR_EXIST) then mret (Some (-6)) else mret None
  else if (type =? 32768) || (type =? 40960) || (type =? 0) then
    let name := strip_slashes 1 name in
    if (length name =? 0)%nat then mret (Some (-3)) else
    ok ← ensure_parent_directories name;
    if negb ok then mret (Some (-3)) else
    result ← create_file (Some name) (Some data) filesize 0;
    if negb (result =? FS_SUCCESS) && negb (result =? FS_ALR_EXIST) then mret (Some (-6)) else mret None
  else mret None.

Section archive.
Context (disk : list Z).
Definition disk_size : Z := Z.of_nat (length disk).

Definition bytes_at (off n : Z) : M (fs A) (list Z) :=
  if (0 <=? off) && (0 <=? n) && (off + n <=? disk_size)
  then mret (take (Z.to_nat n) (drop (Z.to_nat off) disk)) else fault.

Fixpoint parse_entries (fuel : nat) (offset : Z) : M (fs A) Z :=
  match fuel with
  | O => fault
  | S n =>
      if (disk_size <? offset) || (disk_size - offset <? 110) then mret (-5) else
      header ← bytes_at offset 110;
      if negb (bool_decide (take 6 header = cpio_magic)) then mret (-2) else
      match read_fields 13 (drop 6 header) with
      | None => mret (-1)
      | Some fields =>
          let offset := offset + 110 in
          let filesize := fields !!! 6%nat in
          let namesize := fields !!! 11%nat in
          let mode := fields !!! 1%nat in
          if (namesize =? 0) || (MAX_PATH + 1 <? namesize) then mret (-3) else
          if (disk_size <? offset) || (disk_size - offset <? namesize) then mret (-3) else
          buf ← bytes_at offset namesize;
          let offset := offset + namesize in
          let name := c_string buf in
          if negb (List.last buf 0 =? 0) || negb (Z.of_nat (length name) =? namesize - 1) then mret (-3) else
          let padding := padding_of offset in
          if disk_size - offset <? padding then mret (-5) else
          let offset := offset + padding in
          if bool_decide (name = trailer) then mret 0 else
          let name := strip_dot name in
          if name !!! 0%nat =? slash then mret (-3) else
          if disk_size - offset <? filesize then mret (-4) else
          data ← bytes_at offset (disk_size - offset);
          err ← (if (length name =? 0)%nat || bool_decide (name = [dot]) then mret None
                 else install mode name data filesize);
          match err with
          | Some code => mret code
          | None =>
              let offset := offset + filesize in
              let padding := padding_of offset in
              if disk_size - offset <? padding then mret (-5) else
              parse_entries n (offset + padding)
          end
      end
  end.
End archive.

(** [None] is a NULL disk. *)
Definition parse_cpio_disk (disk : option (list Z)) : M (fs A) Z :=
  match disk with
  | None => mret (-7)
  | Some d => parse_entries d (S (length d)) 0
  end.

Definition init_fs (disk : option (list Z)) : M (fs A) unit :=
  _ ← init_root;
  ret_code ← parse_cpio_disk disk;
  if ret_code =? 0 then mret tt else kernel_panic "Failed to retrive initial ramdisk.".
End initramfs.
