(* ===== verification/InitramfsFacts.v ===== *)
(** * Reading the archive *)

From S2P Require Import Prelude StringLib StringFacts Fs FsFacts FsTree FsOps FsTheorems Initramfs.

(** ** Fields *)

Lemma hex_digit_range c d : hex_digit c = Some d -> 0 <= d < 16.
Proof.
  unfold hex_digit. destruct (Z.leb_spec 48 c), (Z.leb_spec c 57); cbn; try (intros [= <-]; lia);
    destruct (Z.leb_spec 97 c), (Z.leb_spec c 102); cbn; try (intros [= <-]; lia);
    destruct (Z.leb_spec 65 c), (Z.leb_spec c 70); cbn; try (intros [= <-]; lia); done.
Qed.

Lemma hex8_nonneg n : forall s v f, 0 <= v -> hex8_loop n s v = Some f -> 0 <= f.
Proof.
  induction n as [|n IH]; intros s v f Hv; cbn [hex8_loop]; [by intros [= <-]|].
  destruct (hex_digit (s !!! 0%nat)) as [d|] eqn:E; [|done]. apply IH.
  apply Z.lor_nonneg. pose proof (u32_range (Z.shiftl v 4)) as Hu. unfold in_u32 in Hu.
  apply hex_digit_range in E. lia.
Qed.

Lemma read_fields_nonneg n : forall s l, read_fields n s = Some l -> Forall (fun f => 0 <= f) l.
Proof.
  induction n as [|n IH]; intros s l; cbn [read_fields]; [intros [= <-]; constructor|].
  destruct (hex8 s) as [f|] eqn:E; [|done]. destruct (read_fields n (drop 8 s)) as [r|] eqn:Er; [|done].
  intros [= <-]. constructor; [by eapply hex8_nonneg|by eapply IH].
Qed.

Lemma field_nonneg n s l i : read_fields n s = Some l -> 0 <= l !!! i.
Proof.
  intros Hr. apply read_fields_nonneg in Hr. destruct (l !! i) as [f|] eqn:E.
  - rewrite (list_lookup_total_correct _ _ _ E). by eapply Forall_lookup_1 in E.
  - rewrite list_lookup_total_alt, E. done.
Qed.

Lemma padding_range o : 0 <= padding_of o < 4.
Proof. unfold padding_of. change 3 with (Z.ones 2). rewrite !Z.land_ones by lia. apply Z.mod_pos_bound. done. Qed.

Lemma c_string_pos l : Forall (fun c => 0 <= c < 256) l -> Forall (fun c => 0 < c) (c_string l).
Proof.
  induction 1 as [|c l Hc _ IH]; cbn; [constructor|]. destruct (Z.eqb_spec c 0); [constructor|].
  constructor; [lia|done].
Qed.

Lemma strip_dot_sub (P : Z -> Prop) : forall n name, (length name <= n)%nat -> Forall P name -> Forall P (strip_dot name).
Proof.
  induction n as [|n IH]; intros name Hl Hp; [destruct name; [done|cbn in Hl; lia]|].
  destruct name as [|c [|d r]]; [done|done|]. cbn. destruct ((c =? dot) && (d =? slash)); [|done].
  apply IH; [cbn in Hl; lia|]. by apply Forall_cons in Hp as [_ [_ Hp]%Forall_cons].
Qed.

Lemma strip_slashes_sub (P : Z -> Prop) n : forall name, Forall P name -> Forall P (strip_slashes n name).
Proof.
  induction n as [|n IH]; intros name Hp; cbn; [done|]. case_match; [|done]. apply IH.
  destruct name as [|c name]; [done|]. rewrite (app_removelast_last 0) in Hp by done.
  by apply Forall_app in Hp as [Hp _].
Qed.

(** ** Entries *)

Section parse.
Context {A : Type} `{AllocatorLaws A}.

Lemma create_folder_run (s : fs A) p :
  fs_inv s -> Forall (fun c => 0 < c) p ->
  run (create_folder (Some p)) s (fun _ s' => fs_inv s') node_alloc_fails.
Proof.
  intros Hi Hp. unfold create_folder. apply run_bind.
  eapply run_impl; [apply (create_file_run s p None 0 FS_IS_DIRECTORY Hi Hp); cbn; lia| |done].
  intros r s' Hpost. apply create_post_inv in Hpost; [|done]. by case_match.
Qed.

Lemma ensure_run rest : forall (s : fs A) pre,
  fs_inv s -> Forall (fun c => 0 < c) pre -> Forall (fun c => 0 < c) rest ->
  run (ensure_go pre rest) s (fun _ s' => fs_inv s') node_alloc_fails.
Proof.
  induction rest as [|c rest IH]; intros s pre Hi Hpre Hrest; cbn [ensure_go]; [done|].
  apply Forall_cons in Hrest as [Hc Hrest].
  assert (Forall (fun c => 0 < c) (pre ++ [c])) as Hpre' by (apply Forall_app; split; [done|by constructor]).
  destruct (negb (c =? slash)); [by apply IH|]. destruct pre as [|d pre]; [done|].
  apply run_bind. eapply run_impl; [by apply create_folder_run| |done].
  intros r s' Hi'. case_match; [done|]. by apply IH.
Qed.

Lemma install_run (s : fs A) mode name data filesize :
  fs_inv s -> Forall (fun c => 0 < c) name -> 0 <= filesize <= Z.of_nat (length data) ->
  run (install mode name data filesize) s
    (fun err s' => fs_inv s' /\ (err = None \/ err = Some (-3) \/ err = Some (-6))) node_alloc_fails.
Proof.
  intros Hi Hn Hf. unfold install. cbv zeta.
  destruct (Z.land mode 61440 =? 16384).
  { pose proof (strip_slashes_sub _ (length name) name Hn) as Hn'.
    case_match; [apply run_ret; tauto|].
    apply run_bind. eapply run_impl; [by apply ensure_run| |done]. intros ok s1 Hi1. cbn beta.
    destruct (negb ok); [apply run_ret; tauto|].
    apply run_bind. eapply run_impl; [by apply create_folder_run| |done]. intros r s2 Hi2. cbn beta.
    case_match; apply run_ret; tauto. }
  case_match; [|apply run_ret; tauto].
  pose proof (strip_slashes_sub _ 1 name Hn) as Hn'.
  case_match; [apply run_ret; tauto|].
  apply run_bind. eapply run_impl; [by apply ensure_run| |done]. intros ok s1 Hi1. cbn beta.
  destruct (negb ok); [apply run_ret; tauto|].
  apply run_bind. eapply run_impl; [by apply (create_file_run s1 _ (Some data) filesize 0)| |done].
  intros r s2 Hpost. apply create_post_inv in Hpost; [|done]. case_match; apply run_ret; tauto.
Qed.

Lemma run_bytes disk off n (s : fs A) Q F :
  0 <= off -> 0 <= n -> off + n <= disk_size disk ->
  Q (take (Z.to_nat n) (drop (Z.to_nat off) disk)) s -> run (bytes_at disk off n) s Q F.
Proof.
  intros H1 H2 H3 HQ. unfold bytes_at. destruct (Z.leb_spec 0 off), (Z.leb_spec 0 n), (Z.leb_spec (off + n) (disk_size disk)); try lia.
  done.
Qed.

Definition cpio_code (r : Z) : Prop := - 6 <= r <= 0.

Lemma parse_entries_run disk : Forall (fun c => 0 <= c < 256) disk -> forall fuel offset (s : fs A),
  fs_inv s -> 0 <= offset <= disk_size disk -> disk_size disk - offset < 110 * Z.of_nat fuel ->
  run (parse_entries disk fuel offset) s (fun r s' => fs_inv s' /\ cpio_code r) node_alloc_fails.
Proof.
  intros Hb fuel. induction fuel as [|n IH]; intros offset s Hi Ho Hf; [lia|].
  assert (forall r, cpio_code r -> run (mret r : M (fs A) Z) s (fun r s' => fs_inv s' /\ cpio_code r) node_alloc_fails) as Hret
    by (intros r Hr; by apply run_ret).
  cbn [parse_entries].
  destruct (Z.ltb_spec (disk_size disk) offset); cbn [orb]; [lia|].
  destruct (Z.ltb_spec (disk_size disk - offset) 110); [by apply Hret|].
  apply run_bind, run_bytes; [lia..|].
  destruct (negb (bool_decide _)); [by apply Hret|].
  destruct (read_fields 13 _) as [fields|] eqn:Ef; [|by apply Hret].
  pose proof (field_nonneg _ _ _ 6 Ef) as Hfs. pose proof (field_nonneg _ _ _ 11 Ef) as Hns.
  cbv zeta. set (filesize := fields !!! 6%nat) in *. set (namesize := fields !!! 11%nat) in *.
  destruct ((namesize =? 0) || (MAX_PATH + 1 <? namesize)); [by apply Hret|].
  destruct (Z.ltb_spec (disk_size disk) (offset + 110)); cbn [orb]; [by apply Hret|].
  destruct (Z.ltb_spec (disk_size disk - (offset + 110)) namesize); [by apply Hret|].
  apply run_bind, run_bytes; [lia..|].
  set (buf := take _ _). assert (Forall (fun c => 0 <= c < 256) buf) as Hbuf by (by apply Forall_take, Forall_drop).
  destruct (_ || _); [by apply Hret|].
  pose proof (padding_range (offset + 110 + namesize)) as Hp. set (pad := padding_of _) in *.
  destruct (Z.ltb_spec (disk_size disk - (offset + 110 + namesize)) pad); [by apply Hret|].
  case_bool_decide; [by apply Hret|].
  pose proof (strip_dot_sub _ _ (c_string buf) (le_n _) (c_string_pos _ Hbuf)) as Hname.
  set (name := strip_dot (c_string buf)) in *. set (o := offset + 110 + namesize + pad) in *.
  assert (0 <= o <= disk_size disk /\ offset + 110 <= o) as [Hob Hol] by (unfold o; lia).
  clearbody o filesize namesize name pad buf.
  destruct (name !!! 0%nat =? slash); [by apply Hret|].
  destruct (Z.ltb_spec (disk_size disk - o) filesize); [by apply Hret|].
  apply run_bind, run_bytes; [lia..|]. apply run_bind.
  apply (run_impl _ _ (fun err s' => fs_inv s' /\ (err = None \/ err = Some (-3) \/ err = Some (-6))) _ node_alloc_fails).
  - destruct (_ || _); [apply run_ret; tauto|]. apply install_run; [done|done|].
    split; [lia|]. rewrite length_take, length_drop. unfold disk_size in *. lia.
  - intros err s1 [Hi1 [-> | [-> | ->]]];
      [|apply run_ret; split; [done|unfold cpio_code; lia]..].
    pose proof (padding_range (o + filesize)) as Hp2. set (pad2 := padding_of (o + filesize)) in *.
    destruct (Z.ltb_spec (disk_size disk - (o + filesize)) pad2);
      [apply run_ret; split; [done|unfold cpio_code; lia]|].
    apply IH; [done|lia|lia].
  - done.
Qed.
End parse.
