(* ===== verification/CpioFormat.v ===== *)
(** * Writing a CPIO archive, and reading its fields back

    The new-ASCII CPIO format as a function from entries to bytes: the
    reference against which [parse_cpio_disk] is stated.  It is written from the
    format and uses no definition of the reader; the lemmas relate the two. *)

From S2P Require Import Prelude StringLib StringFacts Fs FsFacts Initramfs InitramfsFacts.

(** ** Hexadecimal fields *)

Definition hex_char_of (d : Z) : Z := if d <? 10 then 48 + d else 97 + (d - 10).

Fixpoint hex_digits (n : nat) (v : Z) : list Z :=
  match n with
  | O => []
  | S k => hex_char_of (Z.land (Z.shiftr v (4 * Z.of_nat k)) 15) :: hex_digits k v
  end.

Lemma length_hex_digits n v : length (hex_digits n v) = n.
Proof. induction n as [|n IH]; cbn; [done|]. by rewrite IH. Qed.

Lemma nibble_range v k : 0 <= Z.land (Z.shiftr v k) 15 < 16.
Proof. change 15 with (Z.ones 4). rewrite Z.land_ones by lia. by apply Z.mod_pos_bound. Qed.

Lemma hex_digit_char d : 0 <= d < 16 -> hex_digit (hex_char_of d) = Some d.
Proof.
  intros Hd. unfold hex_char_of, hex_digit. destruct (Z.ltb_spec d 10).
  - destruct (Z.leb_spec 48 (48 + d)), (Z.leb_spec (48 + d) 57); try lia. cbn. f_equal. lia.
  - destruct (Z.leb_spec 48 (97 + (d - 10))), (Z.leb_spec (97 + (d - 10)) 57); try lia. cbn.
    destruct (Z.leb_spec 97 (97 + (d - 10))), (Z.leb_spec (97 + (d - 10)) 102); try lia. cbn. f_equal. lia.
Qed.

Lemma hex_char_byte d : 0 <= d < 16 -> 0 <= hex_char_of d < 256.
Proof. intros Hd. unfold hex_char_of. case_match; lia. Qed.

Lemma hex_digits_bytes n v : Forall (fun c => 0 <= c < 256) (hex_digits n v).
Proof. induction n; cbn; constructor; [apply hex_char_byte, nibble_range|done]. Qed.

(** One more digit of the value. *)
Lemma shift_in v k :
  0 <= v < 2 ^ 32 -> 0 <= k ->
  Z.lor (u32 (Z.shiftl (Z.shiftr v (k + 4)) 4)) (Z.land (Z.shiftr v k) 15) = Z.shiftr v k.
Proof.
  intros Hv Hk. apply Z.bits_inj'. intros n Hn. unfold u32. change 4294967296 with (2 ^ 32). change 15 with (Z.ones 4).
  rewrite Z.lor_spec, Z.testbit_mod_pow2, Z.land_spec, Z.testbit_ones_nonneg by lia.
  rewrite Z.shiftl_spec, (Z.shiftr_spec v k n) by lia. destruct (Z.ltb_spec n 4).
  - rewrite (Z.testbit_neg_r _ (n - 4)) by lia. by rewrite andb_false_r, andb_true_r.
  - rewrite Z.shiftr_spec by lia. rewrite andb_false_r, orb_false_r. replace (n - 4 + (k + 4)) with (n + k) by lia.
    destruct (Z.ltb_spec n 32); [done|]. cbn. symmetry. destruct (Z.eq_dec v 0) as [->|]; [apply Z.bits_0|].
    apply Z.bits_above_log2; [lia|]. apply Z.lt_le_trans with 32; [apply Z.log2_lt_pow2; lia|lia].
Qed.

Lemma hex8_digits v rest : 0 <= v < 2 ^ 32 -> forall n,
  hex8_loop n (hex_digits n v ++ rest) (Z.shiftr v (4 * Z.of_nat n)) = Some v.
Proof.
  intros Hv n. induction n as [|n IH]; [cbn; by rewrite Z.shiftr_0_r|]. cbn [hex8_loop hex_digits app].
  change ((?x :: ?l) !!! 0%nat) with x. rewrite hex_digit_char by apply nibble_range. cbn [drop].
  replace (4 * Z.of_nat (S n)) with (4 * Z.of_nat n + 4) by lia. rewrite shift_in by lia. exact IH.
Qed.

Lemma hex8_field v rest : 0 <= v < 2 ^ 32 -> hex8 (hex_digits 8 v ++ rest) = Some v.
Proof.
  intros Hv. unfold hex8. rewrite <-(hex8_digits v rest Hv 8). f_equal. symmetry.
  apply Z.shiftr_eq_0; [lia|]. destruct (Z.eq_dec v 0) as [->|]; [done|]. apply Z.log2_lt_pow2; lia.
Qed.

Lemma read_fields_digits fs : Forall (fun v => 0 <= v < 2 ^ 32) fs ->
  read_fields (length fs) (concat (map (hex_digits 8) fs)) = Some fs.
Proof.
  induction 1 as [|v fs Hv _ IH]; [done|]. cbn [length map concat read_fields].
  rewrite hex8_field by done. rewrite drop_app_length'; [|by rewrite length_hex_digits]. by rewrite IH.
Qed.

(** ** Entries *)

Definition newc_magic : list Z := [48; 55; 48; 55; 48; 49]. (* 070701 *)
Definition newc_trailer : list Z := [84; 82; 65; 73; 76; 69; 82; 33; 33; 33]. (* TRAILER!!! *)

(** What an archiver is given: the mode, the path, how many times [./] stands
    before it and how many slashes behind it, and the bytes of the file. *)
Record entry := mk_entry { e_mode : Z; e_dots : nat; e_path : list Z; e_slashes : nat; e_data : list Z }.

(** The path with the slashes behind it, and the name with all of it. *)
Definition e_rel (e : entry) : list Z := e.(e_path) ++ replicate e.(e_slashes) slash.
Definition e_name (e : entry) : list Z := concat (replicate e.(e_dots) [dot; slash]) ++ e_rel e.

(** The zero bytes up to the next multiple of four. *)
Definition pad (n : Z) : list Z := replicate (Z.to_nat ((- n) mod 4)) 0.

Definition cpio_header (mode filesize namesize : Z) : list Z :=
  newc_magic ++ concat (map (hex_digits 8) [0; mode; 0; 0; 1; 0; filesize; 0; 0; 0; 0; namesize; 0]).

Definition name_block (name : list Z) : list Z :=
  name ++ [0] ++ pad (110 + Z.of_nat (length name) + 1).

Definition member (mode : Z) (name data : list Z) : list Z :=
  cpio_header mode (Z.of_nat (length data)) (Z.of_nat (length name) + 1) ++
  name_block name ++ data ++ pad (Z.of_nat (length data)).

Definition encode (e : entry) : list Z := member e.(e_mode) (e_name e) e.(e_data).

(** The archive: its entries, then the trailer. *)
Definition archive (es : list entry) : list Z :=
  concat (map encode es) ++ member 0 newc_trailer [].

(** The widths of the fields, and the split of the name: all [./] at its start
    and all slashes at its end are counted, none is left in the path. *)
Record entry_ok (e : entry) : Prop := {
  eo_mode : 0 <= e.(e_mode) < 2 ^ 32;
  eo_name : Forall (fun c => 0 < c < 256) e.(e_path);
  eo_len : Z.of_nat (length (e_name e)) <= 4096;
  eo_data : Z.of_nat (length e.(e_data)) < 2 ^ 32;
  eo_start : forall r, e_rel e <> dot :: slash :: r;
  eo_end : forall q, e.(e_path) <> q ++ [slash];
}.

(** Every name has such a split, so none is excluded. *)
Lemma split_end (rel : list Z) : exists path k, rel = path ++ replicate k slash /\ forall q, path <> q ++ [slash].
Proof.
  induction rel as [|c rel IH] using rev_ind; [exists [], 0%nat; split; [done|by intros [|? ?]]|].
  destruct (decide (c = slash)) as [->|Hc].
  - destruct IH as (path & k & -> & Hp). exists path, (S k). split; [|done].
    rewrite <-app_assoc. f_equal. by rewrite <-replicate_S_end.
  - exists (rel ++ [c]), 0%nat. split; [by rewrite app_nil_r|]. intros q E. by apply app_inj_tail in E as [_ ->].
Qed.

Lemma split_start n : forall name : list Z, (length name <= n)%nat ->
  exists k rel, name = concat (replicate k [dot; slash]) ++ rel /\ forall r, rel <> dot :: slash :: r.
Proof.
  induction n as [|n IH]; intros name Hn; [destruct name; [|cbn in Hn; lia]; by exists 0%nat, []|].
  assert ((exists r, name = dot :: slash :: r) \/ forall r, name <> dot :: slash :: r) as [[r ->]|Hno].
  { destruct name as [|c [|d r]]; [by right|by right|]. destruct (decide (c = dot)) as [->|]; [|right; congruence].
    destruct (decide (d = slash)) as [->|]; [left; by eexists|right; congruence]. }
  - destruct (IH r) as (k & rel & -> & Hr); [cbn in Hn; lia|]. by exists (S k), rel.
  - by exists 0%nat, name.
Qed.

Lemma every_name_splits (mode : Z) (name data : list Z) : exists e, e.(e_mode) = mode /\ e.(e_data) = data /\
  e_name e = name /\ (forall r, e_rel e <> dot :: slash :: r) /\ forall q, e.(e_path) <> q ++ [slash].
Proof.
  destruct (split_start _ name (le_n _)) as (k & rel & -> & Hs). destruct (split_end rel) as (path & j & -> & He).
  by exists (mk_entry mode k path j data).
Qed.

Lemma length_header m f n : length (cpio_header m f n) = 110%nat.
Proof. unfold cpio_header. rewrite length_app. cbn [map concat]. by rewrite !length_app, !length_hex_digits. Qed.

Lemma header_fields m f n :
  0 <= m < 2 ^ 32 -> 0 <= f < 2 ^ 32 -> 0 <= n < 2 ^ 32 ->
  read_fields 13 (drop 6 (cpio_header m f n)) = Some [0; m; 0; 0; 1; 0; f; 0; 0; 0; 0; n; 0].
Proof.
  intros. unfold cpio_header. rewrite drop_app_length' by done. apply (read_fields_digits [_;_;_;_;_;_;_;_;_;_;_;_;_]).
  repeat constructor; lia.
Qed.

(** ** Alignment *)

Lemma padding_mod a b : a mod 4 = b mod 4 -> padding_of a = padding_of b.
Proof.
  intros Hab. unfold padding_of. change 3 with (Z.ones 2). rewrite !Z.land_ones by lia.
  change (2 ^ 2) with 4. by rewrite Hab.
Qed.

Lemma padding_aligns a : 0 <= a -> (a + padding_of a) mod 4 = 0.
Proof.
  intros Ha. unfold padding_of. change 3 with (Z.ones 2). rewrite !Z.land_ones by lia.
  change (2 ^ 2) with 4. Z.div_mod_to_equations. lia.
Qed.

(** The parser steps over exactly the bytes the format asks for. *)
Lemma length_pad n : Z.of_nat (length (pad n)) = padding_of n.
Proof.
  unfold pad, padding_of. rewrite length_replicate, Z2Nat.id by by apply Z.mod_pos_bound.
  change 3 with (Z.ones 2). rewrite !Z.land_ones by lia. change (2 ^ 2) with 4. Z.div_mod_to_equations. lia.
Qed.

Lemma c_string_name name rest : Forall (fun c => 0 < c < 256) name -> c_string (name ++ 0 :: rest) = name.
Proof.
  induction 1 as [|c name Hc _ IH]; cbn; [done|]. destruct (Z.eqb_spec c 0); [lia|]. by rewrite IH.
Qed.

Lemma length_member mode name data :
  Z.of_nat (length (member mode name data)) =
  110 + Z.of_nat (length name) + 1 + padding_of (110 + Z.of_nat (length name) + 1) +
  Z.of_nat (length data) + padding_of (Z.of_nat (length data)).
Proof.
  unfold member, name_block. rewrite !length_app, !Nat2Z.inj_add, !length_pad, length_header. cbn. lia.
Qed.

Lemma encode_aligned e : Z.of_nat (length (encode e)) mod 4 = 0.
Proof.
  unfold encode. rewrite length_member. pose proof (padding_aligns (110 + Z.of_nat (length (e_name e)) + 1) ltac:(lia)) as H1.
  pose proof (padding_aligns (Z.of_nat (length (e_data e))) ltac:(lia)) as H2.
  set (p1 := padding_of _) in *. set (p2 := padding_of _) in *. clearbody p1 p2.
  Z.div_mod_to_equations. lia.
Qed.

Lemma encode_long e : (110 <= length (encode e))%nat.
Proof. unfold encode, member. rewrite length_app, length_header. lia. Qed.

(** ** Names *)

Lemma strip_dot_split k rel : (forall r, rel <> dot :: slash :: r) ->
  strip_dot (concat (replicate k [dot; slash]) ++ rel) = rel.
Proof.
  intros Hr. induction k as [|k IH]; [|exact IH]. cbn [replicate concat app].
  destruct rel as [|c [|d r]]; [done|done|]. cbn. destruct (Z.eqb_spec c dot) as [->|]; [|done].
  destruct (Z.eqb_spec d slash) as [->|]; [by destruct (Hr r)|done].
Qed.

Lemma strip_slashes_split path k : (forall q, path <> q ++ [slash]) -> forall n,
  strip_slashes n (path ++ replicate k slash) = path ++ replicate (k - n) slash.
Proof.
  intros Hp. induction k as [|k IH]; intros n.
  - rewrite app_nil_r. destruct n as [|n]; [by rewrite app_nil_r|]. cbn [strip_slashes].
    destruct path as [|c path] using rev_ind; [done|]. rewrite List.last_last, app_nil_r.
    destruct (Z.eqb_spec c slash) as [->|]; [by destruct (Hp path)|by rewrite andb_false_r].
  - destruct n as [|n]; [done|]. rewrite replicate_S_end, app_assoc. cbn [strip_slashes Nat.sub].
    rewrite List.last_last, removelast_last, length_app, Z.eqb_refl, andb_true_r. cbn [length].
    destruct (Nat.eqb_spec (length (path ++ replicate k slash) + 1) 0); [lia|]. apply IH.
Qed.

Lemma e_name_bytes e : Forall (fun c => 0 < c < 256) e.(e_path) -> Forall (fun c => 0 < c < 256) (e_name e).
Proof.
  intros Hp. unfold e_name, e_rel. rewrite !Forall_app. split_and!; [|done|].
  - apply Forall_concat, Forall_replicate. repeat constructor; done.
  - apply Forall_replicate. done.
Qed.

(** The file type in a mode. *)
Definition kind_of (mode : Z) : Z := (mode / 4096) mod 16.

Lemma type_bits mode : Z.land mode 61440 = 4096 * kind_of mode.
Proof.
  unfold kind_of. change 61440 with (Z.shiftl (Z.ones 4) 12). change 16 with (2 ^ 4).
  rewrite <-Z.land_ones by lia. change 4096 with (2 ^ 12). rewrite <-Z.shiftr_div_pow2 by lia.
  rewrite Z.mul_comm, <-Z.shiftl_mul_pow2 by lia. apply Z.bits_inj'. intros n Hn.
  rewrite Z.land_spec, !Z.shiftl_spec by lia. destruct (Z.ltb_spec n 12).
  - rewrite !(Z.testbit_neg_r _ (n - 12)) by lia. apply andb_false_r.
  - rewrite Z.land_spec, Z.shiftr_spec by lia. by replace (n - 12 + 12) with n by lia.
Qed.
