(* ===== verification/InitramfsTheorems.v ===== *)
(** * The properties of the archive reader

    What [parse_cpio_disk] does on any bytes, and on the bytes of an archive. *)

From S2P Require Import Prelude StringLib StringFacts Fs FsFacts FsTree FsOps FsTheorems Initramfs InitramfsFacts CpioFormat.

(** ** The contents of a file are its first bytes *)

Section install.
Context {A : Type} `{Allocator A}.

Lemma make_file_prefix par np name d rest flags (s : fs A) :
  make_file par np name (Some (d ++ rest)) (Z.of_nat (length d)) flags s =
  make_file par np name (Some d) (Z.of_nat (length d)) flags s.
Proof.
  unfold make_file. cbn [default id]. rewrite Nat2Z.id, take_app_length, take_ge by done.
  assert (Z.of_nat (length (d ++ rest)) <? Z.of_nat (length d) = false) as -> by (apply Z.ltb_ge; rewrite length_app; lia).
  rewrite Z.ltb_irrefl. done.
Qed.

Lemma create_in_prefix par np name d rest flags (s : fs A) :
  create_in par np name (Some (d ++ rest)) (Z.of_nat (length d)) flags s =
  create_in par np name (Some d) (Z.of_nat (length d)) flags s.
Proof.
  unfold create_in. apply bind_ext. intros f s1. case_match; [done|]. apply bind_ext. intros x s2.
  case_match; [done|]. apply make_file_prefix.
Qed.

Lemma create_file_prefix p d rest flags (s : fs A) :
  create_file (Some p) (Some (d ++ rest)) (Z.of_nat (length d)) flags s =
  create_file (Some p) (Some d) (Z.of_nat (length d)) flags s.
Proof.
  unfold create_file. cbv zeta. destruct (_ || _); [done|]. destruct (split_path p) as [u name].
  apply bind_ext. intros pp s1. case_match; [done|]. apply bind_ext. intros np s2. case_match; [done|].
  case_match; [done|]. apply bind_ext. intros [st par] s3. apply bind_ext. intros [] s4. case_match; [done|].
  apply create_in_prefix.
Qed.

Lemma install_prefix mode name d rest (s : fs A) :
  install mode name (d ++ rest) (Z.of_nat (length d)) s = install mode name d (Z.of_nat (length d)) s.
Proof.
  unfold install. cbv zeta. case_match; [done|]. case_match; [|done]. case_match; [done|].
  apply bind_ext. intros ok s1. case_match; [done|].
  unfold mbind, M_bind. by rewrite create_file_prefix.
Qed.

(** ** What an archive asks for

    The meaning of an entry, from the format and the file operations only. *)

(** The proper prefixes of a path that end before a slash. *)
Definition parents (p : list Z) : list (list Z) :=
  flat_map (fun i => if decide (p !! i = Some slash) then [take i p] else []) (seq 0 (length p)).

(** There is an entry of that name now, made or found. *)
Definition there (r : Z) : bool := bool_decide (r = FS_SUCCESS \/ r = FS_ALR_EXIST).

Fixpoint make_folders (ps : list (list Z)) : M (fs A) bool :=
  match ps with
  | [] => mret true
  | q :: ps => r ← create_folder (Some q); if there r then make_folders ps else mret false
  end.

(** One entry; [Some] is an error code.  Paths are relative; the root itself is
    there already; kind 4 is a directory, and regular files (8), links (10) and
    entries without a kind (0) become files; other kinds are passed over. *)
Definition install_entry (e : entry) : M (fs A) (option Z) :=
  if bool_decide (head (e_rel e) = Some slash) then mret (Some (-3))
  else if bool_decide (e_rel e = [] \/ e_rel e = [dot]) then mret None
  else if kind_of e.(e_mode) =? 4 then
    ok ← make_folders (parents e.(e_path));
    if negb ok then mret (Some (-6)) else
    r ← create_folder (Some e.(e_path));
    mret (if there r then None else Some (-6))
  else if bool_decide (kind_of e.(e_mode) ∈ [8; 10; 0]) then
    (* a file gives up one of the slashes behind it *)
    let path := e.(e_path) ++ replicate (e.(e_slashes) - 1) slash in
    ok ← make_folders (parents path);
    if negb ok then mret (Some (-3)) else
    r ← create_file (Some path) (Some e.(e_data)) (Z.of_nat (length e.(e_data))) 0;
    mret (if there r then None else Some (-6))
  else mret None.

Fixpoint install_all (es : list entry) : M (fs A) Z :=
  match es with
  | [] => mret 0
  | e :: es =>
      err ← install_entry e;
      match err with Some code => mret code | None => install_all es end
  end.

(** ** The code does that *)

Lemma there_spec r : negb (r =? FS_SUCCESS) && negb (r =? FS_ALR_EXIST) = negb (there r).
Proof.
  unfold there. destruct (Z.eqb_spec r FS_SUCCESS), (Z.eqb_spec r FS_ALR_EXIST); cbn;
    case_bool_decide; try done; tauto.
Qed.

Lemma ensure_folders rest : forall pre (s : fs A), (pre <> [] \/ head rest <> Some slash) ->
  ensure_go pre rest s = make_folders (map (app pre) (parents rest)) s.
Proof.
  induction rest as [|c rest IH]; intros pre s Hp; [done|]. cbn [ensure_go].
  assert (map (app pre) (parents (c :: rest)) =
    (if decide (c = slash) then [pre] else []) ++ map (app (pre ++ [c])) (parents rest)) as ->.
  { unfold parents. cbn [length]. rewrite <-cons_seq, <-seq_shift. cbn [flat_map]. rewrite map_app. f_equal.
    - cbn. repeat case_decide; cbn; try done; [by rewrite app_nil_r|congruence|congruence].
    - rewrite flat_map_concat_map, (flat_map_concat_map _ (seq 0 _)), map_map, !concat_map, !map_map. f_equal.
      apply map_ext. intros i. cbn. repeat case_decide; cbn; try done. by rewrite <-app_assoc. }
  destruct (Z.eqb_spec c slash) as [->|Hc]; cbn [negb].
  - destruct pre as [|x pre]; [by destruct Hp|]. rewrite decide_True by done. cbn [app make_folders].
    apply bind_ext. intros r s'. rewrite there_spec. destruct (there r); [|done]. by apply IH; left.
  - rewrite decide_False by done. apply IH. left. by destruct pre.
Qed.

Lemma ensure_parents p (s : fs A) : head p <> Some slash ->
  ensure_parent_directories p s = make_folders (parents p) s.
Proof.
  intros Hp. unfold ensure_parent_directories. rewrite ensure_folders by by right. f_equal.
  rewrite <-(map_id (parents p)) at 2. by apply map_ext.
Qed.

Lemma head_slash (l : list Z) : (l !!! 0%nat =? slash) = bool_decide (head l = Some slash).
Proof.
  destruct l as [|c l]; [by case_bool_decide|]. cbn. change ((c :: l) !!! 0%nat) with c.
  destruct (Z.eqb_spec c slash); case_bool_decide; congruence.
Qed.

Lemma nothing_left (l : list Z) : ((length l =? 0)%nat || bool_decide (l = [dot])) = bool_decide (l = [] \/ l = [dot]).
Proof. destruct l as [|c l]; [done|]. cbn. repeat case_bool_decide; try done; naive_solver. Qed.

(** [install] on the path with its slashes. *)
Lemma install_meaning e (s : fs A) : entry_ok e -> head (e_rel e) <> Some slash -> e_rel e <> [] -> e_rel e <> [dot] ->
  install e.(e_mode) (e_rel e) e.(e_data) (Z.of_nat (length e.(e_data))) s = install_entry e s.
Proof.
  intros He Hh Hn Hd. unfold install, install_entry. cbv zeta. rewrite !bool_decide_eq_false_2 by tauto.
  rewrite type_bits. assert (e.(e_path) <> []) as Hp.
  { intros E. unfold e_rel in *. rewrite E in *. destruct e.(e_slashes); [done|]. by apply Hh. }
  assert (forall k, head (e.(e_path) ++ replicate k slash) <> Some slash) as Hhk.
  { intros k. unfold e_rel in Hh. by destruct e.(e_path). }
  assert (forall k, (length (e.(e_path) ++ replicate k slash) =? 0)%nat = false) as Hl
    by (intros k; by destruct e.(e_path)).
  replace (4096 * kind_of (e_mode e) =? 16384) with (kind_of (e_mode e) =? 4)
    by (destruct (Z.eqb_spec (kind_of (e_mode e)) 4), (Z.eqb_spec (4096 * kind_of (e_mode e)) 16384); lia).
  destruct (kind_of (e_mode e) =? 4).
  - unfold e_rel. rewrite (strip_slashes_split _ _ (eo_end _ He)).
    assert (e.(e_slashes) - length (e.(e_path) ++ replicate e.(e_slashes) slash) = 0)%nat as ->
      by (rewrite length_app, length_replicate; lia).
    rewrite Hl, app_nil_r. unfold mbind, M_bind. rewrite ensure_parents by (specialize (Hhk 0%nat); by rewrite app_nil_r in Hhk).
    destruct (make_folders _ s) as [[[] s1]| |]; [|done..]. cbn [negb].
    destruct (create_folder _ s1) as [[r s2]| |]; [|done..]. rewrite there_spec. by destruct (there r).
  - assert ((4096 * kind_of (e_mode e) =? 32768) || (4096 * kind_of (e_mode e) =? 40960) || (4096 * kind_of (e_mode e) =? 0)
      = bool_decide (kind_of (e_mode e) ∈ [8; 10; 0])) as ->.
    { destruct (Z.eqb_spec (4096 * kind_of (e_mode e)) 32768), (Z.eqb_spec (4096 * kind_of (e_mode e)) 40960),
        (Z.eqb_spec (4096 * kind_of (e_mode e)) 0); cbn; case_bool_decide as Hin; try done;
        rewrite !elem_of_cons in Hin; set_solver by lia. }
    case_bool_decide; [|done]. unfold e_rel. rewrite (strip_slashes_split _ _ (eo_end _ He)), Hl.
    unfold mbind, M_bind. rewrite ensure_parents by apply Hhk.
    destruct (make_folders _ s) as [[[] s1]| |]; [|done..]. cbn [negb].
    destruct (create_file _ _ _ _ s1) as [[r s2]| |]; [|done..]. rewrite there_spec. by destruct (there r).
Qed.

(** ** One entry *)

Lemma bytes_at_eq disk a b c off n (s : fs A) :
  disk = a ++ b ++ c -> off = Z.of_nat (length a) -> n = Z.of_nat (length b) ->
  bytes_at disk off n s = Done (b, s).
Proof.
  intros -> -> ->. unfold bytes_at, disk_size. rewrite !length_app.
  destruct (Z.leb_spec 0 (Z.of_nat (length a))), (Z.leb_spec 0 (Z.of_nat (length b))),
    (Z.leb_spec (Z.of_nat (length a) + Z.of_nat (length b)) (Z.of_nat (length a + (length b + length c)))); try lia.
  cbn. unfold mret, M_ret. by rewrite !Nat2Z.id, drop_app_length, take_app_length.
Qed.

Lemma name_checks (name : list Z) :
  Forall (fun c => 0 < c < 256) name -> c_string (name ++ [0]) = name /\ List.last (name ++ [0]) 0 = 0.
Proof. intros Hn. split; [by apply c_string_name|apply List.last_last]. Qed.

(** Where the parts of an entry lie on a disk that holds it after [pre]. *)
Section cut.
Context (pre rest name data : list Z) (mode : Z).
Local Notation l := (Z.of_nat (length pre)).
Local Notation ln := (Z.of_nat (length name)).
Local Notation ld := (Z.of_nat (length data)).
Local Notation hd := (cpio_header mode ld (ln + 1)).
Local Notation disk := (pre ++ member mode name data ++ rest).
Local Notation o := (l + 110 + (ln + 1) + padding_of (110 + ln + 1)).

Lemma disk_parts : disk = pre ++ hd ++ (name ++ [0]) ++ pad (110 + ln + 1) ++ (data ++ pad ld ++ rest).
Proof. unfold member, name_block. by rewrite <-!app_assoc. Qed.

Lemma entry_end : Z.of_nat (length (pre ++ member mode name data)) = o + ld + padding_of ld.
Proof. rewrite length_app, Nat2Z.inj_add, length_member. lia. Qed.

Lemma disk_end : disk_size disk = o + ld + padding_of ld + Z.of_nat (length rest).
Proof. unfold disk_size. rewrite app_assoc, length_app, Nat2Z.inj_add, entry_end. done. Qed.

Lemma at_header (s : fs A) : bytes_at disk l 110 s = Done (hd, s).
Proof. eapply bytes_at_eq; [apply disk_parts|done|]. by rewrite length_header. Qed.

Lemma at_name (s : fs A) : bytes_at disk (l + 110) (ln + 1) s = Done (name ++ [0], s).
Proof.
  eapply (bytes_at_eq _ (pre ++ hd)); [rewrite disk_parts; apply (app_assoc pre)|..];
    rewrite length_app, Nat2Z.inj_add, ?length_header; cbn; lia.
Qed.

Lemma at_data (s : fs A) : bytes_at disk o (disk_size disk - o) s = Done (data ++ pad ld ++ rest, s).
Proof.
  eapply (bytes_at_eq _ (pre ++ hd ++ (name ++ [0]) ++ pad (110 + ln + 1)) _ []).
  - rewrite disk_parts, app_nil_r. by rewrite <-!app_assoc.
  - rewrite !length_app, !Nat2Z.inj_add, length_pad, length_header. cbn. lia.
  - rewrite disk_end, !length_app, !Nat2Z.inj_add, length_pad. lia.
Qed.

(** The padding does not see [pre], whose length is a multiple of four. *)
Lemma paddings : l mod 4 = 0 ->
  padding_of (l + 110 + (ln + 1)) = padding_of (110 + ln + 1) /\ padding_of (o + ld) = padding_of ld.
Proof.
  intros Hal. pose proof (padding_aligns (110 + ln + 1) ltac:(lia)).
  split; apply padding_mod; Z.div_mod_to_equations; lia.
Qed.
End cut.

Lemma parse_one pre mode name data rest n (s : fs A) :
  0 <= mode < 2 ^ 32 -> Forall (fun c => 0 < c < 256) name -> Z.of_nat (length name) <= 4096 ->
  Z.of_nat (length data) < 2 ^ 32 -> Z.of_nat (length pre) mod 4 = 0 ->
  let disk := pre ++ member mode name data ++ rest in
  parse_entries disk (S n) (Z.of_nat (length pre)) s =
  (if bool_decide (name = newc_trailer) then mret 0 else
   let rel := strip_dot name in
   if rel !!! 0%nat =? slash then mret (-3) else
   err ← (if (length rel =? 0)%nat || bool_decide (rel = [dot]) then mret None
          else install mode rel data (Z.of_nat (length data)));
   match err with
   | Some code => mret code
   | None => parse_entries disk n (Z.of_nat (length (pre ++ member mode name data)))
   end) s.
Proof.
  intros Hm Hn Hl Hd Hal disk.
  pose proof (disk_end pre rest name data mode) as Hds. fold disk in Hds.
  destruct (paddings pre name data Hal) as [Epad1 Epad2].
  rewrite entry_end. set (l := Z.of_nat (length pre)) in *. set (ln := Z.of_nat (length name)) in *.
  set (ld := Z.of_nat (length data)) in *. set (p1 := padding_of (110 + ln + 1)) in *.
  set (o := l + 110 + (ln + 1) + p1) in *.
  pose proof (padding_range (110 + ln + 1) : 0 <= p1 < 4) as Hp1. pose proof (padding_range ld) as Hp2.
  cbn [parse_entries].
  destruct (Z.ltb_spec (disk_size disk) l); cbn [orb]; [lia|].
  destruct (Z.ltb_spec (disk_size disk - l) 110); [lia|].
  rewrite (bind_eq _ _ _ _ _ (at_header pre rest name data mode s)).
  rewrite bool_decide_eq_true_2 by done. cbn [negb].
  unfold MAX_PATH in *. rewrite header_fields by lia. fold ln ld.
  change ([0; mode; 0; 0; 1; 0; ld; 0; 0; 0; 0; ln + 1; 0] !!! 6%nat) with ld.
  change ([0; mode; 0; 0; 1; 0; ld; 0; 0; 0; 0; ln + 1; 0] !!! 11%nat) with (ln + 1).
  change ([0; mode; 0; 0; 1; 0; ld; 0; 0; 0; 0; ln + 1; 0] !!! 1%nat) with mode. cbv zeta.
  destruct (Z.eqb_spec (ln + 1) 0); cbn [orb]; [lia|].
  destruct (Z.ltb_spec (1024 * 4 + 1) (ln + 1)); [lia|].
  destruct (Z.ltb_spec (disk_size disk) (l + 110)); cbn [orb]; [lia|].
  destruct (Z.ltb_spec (disk_size disk - (l + 110)) (ln + 1)); [lia|].
  rewrite (bind_eq _ _ _ _ _ (at_name pre rest name data mode s)).
  destruct (name_checks name Hn) as [-> ->]. cbn [negb orb]. replace (ln + 1 - 1) with ln by lia.
  change (Z.of_nat (length name)) with ln. rewrite !Z.eqb_refl. cbn [negb orb]. rewrite Epad1. fold o.
  destruct (Z.ltb_spec (disk_size disk - (l + 110 + (ln + 1))) p1); [lia|].
  change newc_trailer with trailer. destruct (bool_decide (name = trailer)); [done|].
  set (nm := strip_dot name). destruct (nm !!! 0%nat =? slash); [done|].
  destruct (Z.ltb_spec (disk_size disk - o) ld); [lia|].
  rewrite (bind_eq _ _ _ _ _ (at_data pre rest name data mode s)), Epad2.
  destruct (Z.ltb_spec (disk_size disk - (o + ld)) (padding_of ld)); [lia|].
  destruct (_ || _); [done|].
  unfold mbind, M_bind. rewrite install_prefix. fold ld.
  by destruct (install mode nm data ld s) as [[[c|] s1]| |].
Qed.

Lemma parse_entry pre e rest n (s : fs A) :
  entry_ok e -> e_name e <> newc_trailer -> Z.of_nat (length pre) mod 4 = 0 ->
  let disk := pre ++ encode e ++ rest in
  parse_entries disk (S n) (Z.of_nat (length pre)) s =
  (err ← install_entry e;
   match err with
   | Some code => mret code
   | None => parse_entries disk n (Z.of_nat (length (pre ++ encode e)))
   end) s.
Proof.
  intros He Ht Hal disk. unfold disk, encode. rewrite parse_one; try apply He; [|by apply e_name_bytes, He|done].
  rewrite bool_decide_eq_false_2 by done. unfold e_name at 1 2 3 4. cbv zeta.
  rewrite !(strip_dot_split _ _ (eo_start _ He)), head_slash, nothing_left.
  unfold mbind, M_bind. case_bool_decide as Hh.
  { unfold install_entry. by rewrite bool_decide_eq_true_2. }
  case_bool_decide as Hz.
  { unfold install_entry. by rewrite bool_decide_eq_false_2, bool_decide_eq_true_2. }
  by rewrite install_meaning by tauto.
Qed.

Lemma parse_all es rest : forall pre n (s : fs A),
  Forall entry_ok es -> Forall (fun e => e_name e <> newc_trailer) es ->
  Z.of_nat (length pre) mod 4 = 0 -> (length es < n)%nat ->
  parse_entries (pre ++ archive es ++ rest) n (Z.of_nat (length pre)) s = install_all es s.
Proof.
  induction es as [|e es IH]; intros pre n s Hok Ht Hal Hn; (destruct n as [|n]; [cbn in Hn; lia|]); cbn [install_all].
  - unfold archive. cbn [map concat app]. rewrite parse_one; [by rewrite bool_decide_eq_true_2|lia| |cbn; lia|cbn; lia|done].
    repeat constructor; lia.
  - apply Forall_cons in Hok as [He Hok]. apply Forall_cons in Ht as [Het Ht].
    assert (archive (e :: es) ++ rest = encode e ++ archive es ++ rest) as ->.
    { unfold archive. cbn [map concat]. by rewrite <-!app_assoc. }
    rewrite parse_entry by done.
    apply bind_ext. intros [c|] s'; [done|]. rewrite app_assoc. apply IH; [done|done| |cbn in Hn; lia].
    rewrite length_app, Nat2Z.inj_add. pose proof (encode_aligned e). Z.div_mod_to_equations. lia.
Qed.
End install.

Module CpioDemo.
(** A folder [a/] and a file [./a/b] of three bytes; mode 040755 and 0100644. *)
Definition entries : list entry :=
  [ mk_entry 16877 0 [97] 1 []; mk_entry 33188 1 [97; 47; 98] 0 [1; 2; 3] ].
End CpioDemo.

(** C23. [parse_cpio_disk] is safe on any bytes: on an archive that is cut short,
    malformed or hostile it terminates with one of the codes -6 to 0, never
    reads outside the archive, and leaves a file system that satisfies the
    invariant; the only invalid access is the one of [create_file] when the
    allocator has no memory for a node. *)
Theorem parse_cpio_safe {A : Type} `{AllocatorLaws A} (s : fs A) (disk : list Z) :
  fs_inv s -> Forall (fun c => 0 <= c < 256) disk ->
  match parse_cpio_disk (Some disk) s with
  | Done (code, s') => fs_inv s' /\ - 6 <= code <= 0
  | Panicked _ => True
  | Fault => node_alloc_fails
  end.
Proof.
  intros Hi Hb. unfold parse_cpio_disk.
  apply (parse_entries_run disk Hb (S (length disk)) 0 s Hi); unfold disk_size; lia.
Qed.

Lemma parse_cpio_safe_witness :
  match parse_cpio_disk (Some (archive CpioDemo.entries)) FsDemo.fs0 with
  | Done (code, s') => fs_inv s' /\ - 6 <= code <= 0
  | Panicked _ => True
  | Fault => node_alloc_fails
  end.
Proof.
  refine (parse_cpio_safe FsDemo.fs0 (archive CpioDemo.entries) demo_inv _).
  apply (bool_decide_unpack _). by vm_compute.
Defined.

(** C10. Reading an archive back.  An archive is written from its entries by the
    rules of the new-ASCII CPIO format alone: thirteen fields of eight hexadecimal
    digits, the name and the contents each filled with zero bytes up to a multiple
    of four, and the trailer.  On those bytes, whatever follows them,
    [parse_cpio_disk] makes, entry by entry, the folders above the path, and then
    the folder or the file of that path with exactly the given contents; it
    returns 0, or stops with the code of the first entry that cannot be made.  So
    no entry is skipped, misread or misaligned. *)
Theorem parse_archive {A : Type} `{Allocator A} (s : fs A) (es : list entry) (rest : list Z) :
  Forall entry_ok es -> Forall (fun e => e_name e <> newc_trailer) es ->
  parse_cpio_disk (Some (archive es ++ rest)) s = install_all es s.
Proof.
  intros Hok Ht. unfold parse_cpio_disk. apply (parse_all es rest [] _ s Hok Ht eq_refl).
  unfold archive. rewrite !length_app. assert (length es <= length (concat (map encode es)))%nat; [|lia].
  clear. induction es as [|e es IH]; cbn [map concat length]; [lia|].
  rewrite length_app. pose proof (encode_long e). lia.
Qed.

Lemma demo_entries_ok : Forall entry_ok CpioDemo.entries.
Proof.
  assert (forall (l : list Z) x q, List.last l 0 <> x -> l <> q ++ [x]) as Hlast
    by (intros l x q Hl ->; by rewrite List.last_last in Hl).
  repeat apply Forall_cons_2; [..|by apply Forall_nil]; (constructor; cbn; [lia|repeat constructor; lia|lia|lia| |]);
    try (intros q; by apply Hlast); intros r; discriminate.
Qed.

Lemma parse_archive_witness :
  parse_cpio_disk (Some (archive CpioDemo.entries ++ [7; 7])) FsDemo.fs0 = install_all CpioDemo.entries FsDemo.fs0 /\
  match install_all CpioDemo.entries FsDemo.fs0 with
  | Done (code, s') => code = 0 /\
      match read_file_content (Some FsDemo.path_ab) false 8 s' with
      | Done (r, _) => r = (FS_SUCCESS, [1; 2; 3]) | _ => False end
  | _ => False
  end.
Proof.
  split; [|by vm_compute].
  refine (parse_archive FsDemo.fs0 CpioDemo.entries [7; 7] demo_entries_ok _).
  repeat constructor; done.
Defined.
