(* ===== verification/Graphics.v ===== *)
(** * The frame buffer and the terminal ([kernel/graphics/graphics.c],
    [kernel/graphics/terminal.c])

    A [uint32_t *] points to a pixel array: an object of the store [vram] with
    a length, and an access outside it is a fault.  Cells never written read
    0.  The serial port collects the bytes sent to it. *)

From S2P Require Import Prelude.

Record pixels := mk_pixels { px_len : Z; px_cells : gmap Z Z }.

Record framebuffer_t := mk_framebuffer {
  fb_width : Z;
  fb_height : Z;
  fb_pitch : Z;
  fb_address : Z;
}.

(** [glyphs] is the byte array from the pointer on. *)
Record font_t := mk_font {
  glyphs : list Z;
  glyphsize : Z;
  glyph_count : Z;
  font_width : Z;
  font_height : Z;
}.

Record screen := mk_screen {
  framebuffer_pb : option framebuffer_t;
  graphics_init : bool;
  vram : gmap Z pixels;
  cursor_x : Z;
  cursor_y : Z;
  current_font : font_t;
  serial_out : list Z;
}.

Definition set_vram (v : gmap Z pixels) (s : screen) : screen :=
  mk_screen s.(framebuffer_pb) s.(graphics_init) v s.(cursor_x) s.(cursor_y) s.(current_font) s.(serial_out).
Definition set_cursor (x y : Z) (s : screen) : screen :=
  mk_screen s.(framebuffer_pb) s.(graphics_init) s.(vram) x y s.(current_font) s.(serial_out).
Definition set_font (f : font_t) (s : screen) : screen :=
  mk_screen s.(framebuffer_pb) s.(graphics_init) s.(vram) s.(cursor_x) s.(cursor_y) f s.(serial_out).

Definition init_graphics (fb : option framebuffer_t) : M screen unit := modify (fun s =>
  mk_screen fb true s.(vram) s.(cursor_x) s.(cursor_y) s.(current_font) s.(serial_out)).

Definition serial_putchar (c : Z) : M screen unit := modify (fun s =>
  mk_screen s.(framebuffer_pb) s.(graphics_init) s.(vram) s.(cursor_x) s.(cursor_y) s.(current_font)
    (s.(serial_out) ++ [u8 c])).

(** ** Pixels *)

(** [address[i] = v] *)
Definition store_px (a i v : Z) : M screen unit := fun s =>
  match s.(vram) !! a with
  | Some o =>
      if (0 <=? i) && (i <? o.(px_len))
      then Done (tt, set_vram (<[a := mk_pixels o.(px_len) (<[i := v]> o.(px_cells))]> s.(vram)) s)
      else Fault
  | None => Fault
  end.

Definition plot (fb : framebuffer_t) (x y color : Z) : M screen unit :=
  if (fb.(fb_width) <=? x) || (fb.(fb_height) <=? y) then mret tt
  else store_px fb.(fb_address) (u64 (u64 (y * fb.(fb_pitch)) + x)) color.

Definition put_pixel (x y color : Z) : M screen unit :=
  p ← gets framebuffer_pb;
  match p with None => mret tt | Some fb => plot fb x y color end.

(** [buffer] is NULL ([None]) or points to a frame buffer. *)
Definition put_pixel_q (buffer : option framebuffer_t) (x y color : Z) : M screen unit :=
  p ← gets framebuffer_pb;
  match p with
  | None => mret tt
  | Some fb => plot (default fb buffer) x y color
  end.

(** ** Lines *)

Definition INT_MAX : Z := 2147483647.
(** A signed [int] result; overflow is undefined. *)
Definition int_of {S : Type} (z : Z) : M S Z :=
  if (- INT_MAX - 1 <=? z) && (z <=? INT_MAX) then mret z else fault.
Definition abs (x : Z) : M screen Z := if x <? 0 then int_of (- x) else mret x.

Fixpoint line_loop (fuel : nat) (put : Z -> Z -> M screen unit)
    (x0 y0 x1 y1 deltaX stepX deltaY stepY error : Z) : M screen unit :=
  match fuel with
  | O => fault
  | S n =>
      _ ← put (u32 x0) (u32 y0);
      if (x0 =? x1) && (y0 =? y1) then mret tt else
      error2 ← int_of (2 * error);
      '(error', x0') ← (if deltaY <=? error2 then
                          e ← int_of (error + deltaY); x ← int_of (x0 + stepX); mret (e, x)
                        else mret (error, x0));
      '(error'', y0') ← (if error2 <=? deltaX then
                          e ← int_of (error' + deltaX); y ← int_of (y0 + stepY); mret (e, y)
                        else mret (error', y0));
      line_loop n put x0' y0' x1 y1 deltaX stepX deltaY stepY error''
  end.

(** The body shared by [draw_line] and [draw_line_q]. *)
Definition line (fuel : nat) (put : Z -> Z -> M screen unit) (sx sy dx dy : Z) : M screen unit :=
  let x0 := s32 sx in let y0 := s32 sy in let x1 := s32 dx in let y1 := s32 dy in
  d ← int_of (x1 - x0);
  deltaX ← abs d;
  let stepX := if x0 <? x1 then 1 else -1 in
  d' ← int_of (y1 - y0);
  deltaY ← abs d';
  let stepY := if y0 <? y1 then 1 else -1 in
  error ← int_of (deltaX + - deltaY);
  line_loop fuel put x0 y0 x1 y1 deltaX stepX (- deltaY) stepY error.

Definition draw_line (fuel : nat) (sx sy dx dy color : Z) : M screen unit :=
  line fuel (fun x y => put_pixel x y color) sx sy dx dy.
Definition draw_line_q (fuel : nat) (buffer : option framebuffer_t) (sx sy dx dy color : Z) : M screen unit :=
  line fuel (fun x y => put_pixel_q buffer x y color) sx sy dx dy.

(** ** Rectangles *)

Definition fill_rect (sx sy dx dy color : Z) : M screen unit :=
  for_upM (Z.to_nat (dx - sx)) sx (fun ix =>
    for_upM (Z.to_nat (dy - sy)) sy (fun iy => put_pixel ix iy color)).
Definition fill_rect_q (buffer : option framebuffer_t) (sx sy dx dy color : Z) : M screen unit :=
  for_upM (Z.to_nat (dx - sx)) sx (fun ix =>
    for_upM (Z.to_nat (dy - sy)) sy (fun iy => put_pixel_q buffer ix iy color)).

(** ** The terminal *)

(** [memmove(buffer, buffer + off, 4 * n)] on pixels, upwards. *)
Definition move_down (a off n : Z) : M screen unit := fun s =>
  match s.(vram) !! a with
  | Some o =>
      if (off + n <=? o.(px_len))
      then Done (tt, set_vram (<[a := mk_pixels o.(px_len)
             (for_up (Z.to_nat n) 0 (fun i c => <[i := c !!! (i + off)]> c) o.(px_cells))]> s.(vram)) s)
      else Fault
  | None => if n =? 0 then Done (tt, s) else Fault
  end.

Definition term_scroll (background : Z) (font : font_t) : M screen unit :=
  p ← gets framebuffer_pb;
  match p with
  | None => mret tt
  | Some fb =>
      let pitch := fb.(fb_pitch) in
      let height := fb.(fb_height) in
      let line_height := font.(font_height) in
      if (line_height =? 0) || (height <=? line_height) then mret tt else
      _ ← move_down fb.(fb_address) (u64 (line_height * pitch))
            (u64 (u64 ((height - line_height) * pitch) * 4) / 4);
      let first_clear_row := height - line_height in
      for_upM (Z.to_nat (height - first_clear_row)) first_clear_row (fun y =>
        for_upM (Z.to_nat pitch) 0 (fun x =>
          store_px fb.(fb_address) (u64 (u64 (y * pitch) + x)) background))
  end.

Definition ln (background : Z) (font : font_t) : M screen unit :=
  p ← gets framebuffer_pb;
  match p with
  | None => fault
  | Some fb =>
      _ ← modify (fun s => set_cursor 0 (u64 (s.(cursor_y) + font.(font_height))) s);
      y ← gets cursor_y;
      if fb.(fb_height) <? u64 (y + font.(font_height)) then
        _ ← term_scroll background font;
        modify (fun s => set_cursor s.(cursor_x) (u64 (fb.(fb_height) - font.(font_height))) s)
      else mret tt
  end.

(** [p[i]] of a byte array. *)
Definition load_glyph (g : list Z) (i : Z) : M screen Z :=
  match (if i <? 0 then None else g !! Z.to_nat i) with Some b => mret b | None => fault end.

(** One glyph, row by row. *)
Definition draw_glyph (index foreground background : Z) (font : font_t) : M screen unit :=
  let base := u32 (index * font.(glyphsize)) in
  let bytes := u32 (font.(font_width) + 7) / 8 in
  for_upM (Z.to_nat font.(font_height)) 0 (fun row =>
    for_upM (Z.to_nat font.(font_width)) 0 (fun col =>
      byte ← load_glyph font.(glyphs) (base + u32 (u32 (row * bytes) + col / 8));
      x ← gets (fun s => u32 (u64 (s.(cursor_x) + col)));
      y ← gets (fun s => u32 (u64 (s.(cursor_y) + row)));
      if negb (Z.land byte (Z.shiftr 128 (col mod 8)) =? 0) then put_pixel x y foreground
      else put_pixel x y background)).

(** The erasing loop of backspace. *)
Definition erase_cell (background : Z) (font : font_t) : M screen unit :=
  for_upM (Z.to_nat font.(font_height)) 0 (fun row =>
    for_upM (Z.to_nat font.(font_width)) 0 (fun col =>
      x ← gets (fun s => u32 (u64 (s.(cursor_x) + col)));
      y ← gets (fun s => u32 (u64 (s.(cursor_y) + row)));
      put_pixel x y background)).

Definition Putchar (c foreground background : Z) (font : font_t) : M screen unit :=
  _ ← serial_putchar c;
  p ← gets framebuffer_pb;
  match p with
  | None => mret tt
  | Some fb =>
      if c =? 13 then modify (fun s => set_cursor 0 s.(cursor_y) s)
      else if c =? 10 then ln background font
      else if c =? 8 then
        _ ← modify (fun s => set_cursor
              (if font.(font_width) <=? s.(cursor_x) then s.(cursor_x) - font.(font_width) else 0)
              s.(cursor_y) s);
        erase_cell background font
      else if c =? 9 then
        _ ← modify (fun s => set_cursor (u64 (s.(cursor_x) + u32 (font.(font_width) * 4))) s.(cursor_y) s);
        x ← gets cursor_x;
        if fb.(fb_width) <? u64 (x + font.(font_width))
        then modify (fun s => set_cursor 0 (u64 (s.(cursor_y) + font.(font_height))) s)
        else mret tt
      else
        let index := u8 c in
        if font.(glyph_count) <=? index then mret tt else
        _ ← draw_glyph index foreground background font;
        _ ← modify (fun s => set_cursor (u64 (s.(cursor_x) + font.(font_width))) s.(cursor_y) s);
        x ← gets cursor_x;
        _ ← (if fb.(fb_width) <? u64 (x + font.(font_width)) then term_scroll background font else mret tt);
        y ← gets cursor_y;
        if fb.(fb_height) <? u64 (y + font.(font_height)) then term_scroll background font else mret tt
  end.

(** [panic_screen] of [errs/kernel_panic.c]; it reads the frame buffer without
    a test. *)
Definition panic_screen : M screen unit :=
  p ← gets framebuffer_pb;
  match p with
  | None => fault
  | Some fb =>
      fill_rect (u32 (u64 (fb.(fb_width) / 2 + 100))) (u32 (u64 (fb.(fb_height) / 2 + 50)))
        (u32 (u64 (fb.(fb_width) / 2 - 100))) (u32 (u64 (fb.(fb_height) / 2 - 50))) 0xFFFF8C15
  end.
