(* ===== verification/GraphicsFacts.v ===== *)
(** * Painting and line drawing

    What a sequence of pixel stores does to the frame buffer, and the
    invariant of the line algorithm. *)

From S2P Require Import Prelude Graphics.

(** ** The frame buffer *)

(** The mapped pixel array holds every row. *)
Record fb_fits (fb : framebuffer_t) (o : pixels) : Prop := {
  fit_width : 0 <= fb.(fb_width) <= fb.(fb_pitch);
  fit_height : 0 <= fb.(fb_height);
  fit_len : fb.(fb_height) * fb.(fb_pitch) <= o.(px_len);
  fit_max : o.(px_len) < 2 ^ 61;
}.
Definition fb_ok (s : screen) (fb : framebuffer_t) : Prop :=
  s.(framebuffer_pb) = Some fb /\ exists o, s.(vram) !! fb.(fb_address) = Some o /\ fb_fits fb o.

Definition cell (s : screen) (fb : framebuffer_t) (i : Z) : Z :=
  match s.(vram) !! fb.(fb_address) with Some o => o.(px_cells) !!! i | None => 0 end.

(** Only the cells of the frame buffer differ. *)
Record same_frame (fb : framebuffer_t) (s s' : screen) : Prop := {
  sf_pb : s'.(framebuffer_pb) = s.(framebuffer_pb);
  sf_init : s'.(graphics_init) = s.(graphics_init);
  sf_x : s'.(cursor_x) = s.(cursor_x);
  sf_y : s'.(cursor_y) = s.(cursor_y);
  sf_font : s'.(current_font) = s.(current_font);
  sf_serial : s'.(serial_out) = s.(serial_out);
  sf_other : forall a, a <> fb.(fb_address) -> s'.(vram) !! a = s.(vram) !! a;
  sf_len : (px_len <$> s'.(vram) !! fb.(fb_address)) = (px_len <$> s.(vram) !! fb.(fb_address));
}.

#[export] Instance same_frame_pre fb : PreOrder (same_frame fb).
Proof.
  split; [by split|]. intros s1 s2 s3 [] []. split; try congruence.
  intros a Ha. rewrite sf_other1 by done. by apply sf_other0.
Qed.

Lemma same_frame_ok fb s s' : fb_ok s fb -> same_frame fb s s' -> fb_ok s' fb.
Proof.
  intros (Hpb & o & Ho & Hf) []. split; [congruence|]. rewrite Ho in sf_len0.
  destruct (s'.(vram) !! fb.(fb_address)) as [o'|]; [|done]. injection sf_len0 as Hl.
  exists o'. split; [done|]. destruct Hf. split; [done|done|lia|lia].
Qed.

(** The cells in [P] have colour [c], the others are as before. *)
Definition painted (fb : framebuffer_t) (P : Z -> Prop) (c : Z) (s s' : screen) : Prop :=
  same_frame fb s s' /\
  (forall i, P i -> cell s' fb i = c) /\ (forall i, ~ P i -> cell s' fb i = cell s fb i).

Lemma painted_none fb (P : Z -> Prop) c s : (forall i, ~ P i) -> painted fb P c s s.
Proof. intros HP. split; [reflexivity|]. split; [intros i Hi; by destruct (HP i)|done]. Qed.

Lemma painted_seq fb (P Q : Z -> Prop) c s s' s'' `{forall i, Decision (Q i)} :
  painted fb P c s s' -> painted fb Q c s' s'' -> painted fb (fun i => P i \/ Q i) c s s''.
Proof.
  intros (F1 & A1 & B1) (F2 & A2 & B2). split; [by etrans|]. split.
  - intros i Hi. destruct (decide (Q i)); [by apply A2|]. rewrite B2 by done. apply A1. tauto.
  - intros i Hi. rewrite B2, B1 by tauto. done.
Qed.

Lemma painted_iff fb (P Q : Z -> Prop) c s s' :
  (forall i, P i <-> Q i) -> painted fb P c s s' -> painted fb Q c s s'.
Proof. intros HPQ (F & A & B). split; [done|]. split; intros i Hi; [apply A|apply B]; by rewrite HPQ. Qed.

Lemma store_painted s fb i c :
  fb_ok s fb -> 0 <= i < fb.(fb_height) * fb.(fb_pitch) ->
  exists s', store_px fb.(fb_address) i c s = Done (tt, s') /\ painted fb (fun j => j = i) c s s'.
Proof.
  intros (Hpb & o & Ho & Hf) Hi. destruct Hf. unfold store_px. rewrite Ho.
  destruct (Z.leb_spec 0 i); [|lia]. destruct (Z.ltb_spec i o.(px_len)); [|lia]. cbn [andb].
  eexists. split; [reflexivity|]. split.
  - split; try done; cbn [vram set_vram].
    + intros a Ha. by rewrite lookup_insert_ne.
    + by rewrite lookup_insert_eq, Ho.
  - unfold cell. cbn [vram set_vram]. rewrite lookup_insert_eq, Ho. cbn [px_cells]. split.
    + intros j ->. apply lookup_total_insert_eq.
    + intros j Hj. by rewrite lookup_total_insert_ne.
Qed.

(** The cell of a visible pixel. *)
Definition at_px (fb : framebuffer_t) (x y i : Z) : Prop :=
  x < fb.(fb_width) /\ y < fb.(fb_height) /\ i = y * fb.(fb_pitch) + x.

Lemma px_index fb o x y : fb_fits fb o -> 0 <= x < fb.(fb_width) -> 0 <= y < fb.(fb_height) ->
  u64 (u64 (y * fb.(fb_pitch)) + x) = y * fb.(fb_pitch) + x /\
  0 <= y * fb.(fb_pitch) + x < fb.(fb_height) * fb.(fb_pitch).
Proof.
  intros [] Hx Hy. assert (0 <= y * fb.(fb_pitch) + x < fb.(fb_height) * fb.(fb_pitch)) as Hi by nia.
  split; [|done]. rewrite (u64_id (y * _)), u64_id by (unfold in_u64; nia). done.
Qed.

Lemma plot_painted s fb x y c :
  fb_ok s fb -> 0 <= x -> 0 <= y ->
  exists s', plot fb x y c s = Done (tt, s') /\ painted fb (at_px fb x y) c s s'.
Proof.
  intros Hok Hx Hy. unfold plot.
  destruct (Z.leb_spec fb.(fb_width) x) as [|Hw]; cbn [orb];
    [exists s; split; [done|apply painted_none; unfold at_px; lia]|].
  destruct (Z.leb_spec fb.(fb_height) y) as [|Hh];
    [exists s; split; [done|apply painted_none; unfold at_px; lia]|].
  pose proof Hok as (_ & o & _ & Hf).
  destruct (px_index fb o x y Hf ltac:(lia) ltac:(lia)) as [-> Hi].
  destruct (store_painted s fb _ c Hok Hi) as (s' & E & Hp). exists s'. split; [done|].
  eapply painted_iff; [|exact Hp]. unfold at_px. intros i. lia.
Qed.

Lemma put_pixel_painted s fb x y c :
  fb_ok s fb -> 0 <= x -> 0 <= y ->
  exists s', put_pixel x y c s = Done (tt, s') /\ painted fb (at_px fb x y) c s s'.
Proof.
  intros Hok Hx Hy. unfold put_pixel. rewrite (bind_eq _ _ _ _ _ (gets_eq framebuffer_pb s)).
  rewrite (proj1 Hok). by apply plot_painted.
Qed.

#[export] Instance in_range_dec (P : Z -> Prop) n i `{forall k, Decision (P k)} :
  Decision (exists k, i <= k < i + Z.of_nat n /\ P k).
Proof.
  revert i. induction n as [|n IH]; intros i.
  - right. intros (k & Hk & _). lia.
  - destruct (decide (P i)) as [Hp|Hp]; [left; exists i; split; [lia|done]|].
    destruct (IH (i + 1)) as [Hl|Hr].
    + left. destruct Hl as (k & Hk & Hk'). exists k. split; [lia|done].
    + right. intros (k & Hk & Hk'). destruct (decide (k = i)) as [->|]; [done|].
      apply Hr. exists k. split; [lia|done].
Defined.

#[export] Instance at_px_dec fb x y i : Decision (at_px fb x y i).
Proof. unfold at_px. apply _. Defined.

(** A loop paints what its rounds paint. *)
Lemma for_painted fb (P : Z -> Z -> Prop) c (body : Z -> M screen unit) n i s
    `{forall k j, Decision (P k j)} :
  fb_ok s fb ->
  (forall k s, i <= k < i + Z.of_nat n -> fb_ok s fb ->
     exists s', body k s = Done (tt, s') /\ painted fb (P k) c s s') ->
  exists s', for_upM n i body s = Done (tt, s') /\
    painted fb (fun j => exists k, i <= k < i + Z.of_nat n /\ P k j) c s s'.
Proof.
  revert i s. induction n as [|n IH]; intros i s Hok Hb; cbn [for_upM].
  - exists s. split; [done|]. apply painted_none. intros j (k & Hk & _). lia.
  - destruct (Hb i s ltac:(lia) Hok) as (s1 & E1 & P1). rewrite (bind_eq _ _ _ _ _ E1).
    pose proof (same_frame_ok _ _ _ Hok (proj1 P1)) as Hok1.
    destruct (IH (i + 1) s1 Hok1) as (s2 & E2 & P2); [intros k t Hk; apply Hb; lia|].
    exists s2. split; [done|].
    eapply painted_iff; [|exact (painted_seq _ _ _ _ _ _ _ P1 P2)].
    intros j. split.
    + intros [Hp|(k & Hk & Hp)]; [exists i|exists k]; (split; [lia|done]).
    + intros (k & Hk & Hp). destruct (decide (k = i)) as [->|]; [by left|].
      right. exists k. split; [lia|done].
Qed.

(** ** Lines *)

(** [(i, j)] steps from the start of a line with extents [dx], [dy]: inside
    the box, and no further from the ideal line than half a step of the longer
    axis. *)
Definition on_line (dx dy i j : Z) : Prop :=
  0 <= i <= dx /\ 0 <= j <= dy /\ 2 * Z.abs (j * dx - i * dy) <= Z.max dx dy.

(** One step: along the longer axis, or diagonally. *)
Definition line_move (dx dy i j i' j' : Z) : Prop :=
  i' = i /\ j' = j + 1 /\ dx < dy \/ i' = i + 1 /\ j' = j /\ dy < dx \/ i' = i + 1 /\ j' = j + 1.

Inductive line_path (dx dy : Z) : Z -> Z -> list (Z * Z) -> Prop :=
  | path_end : line_path dx dy dx dy [(dx, dy)]
  | path_step i j i' j' l :
      on_line dx dy i j -> line_move dx dy i j i' j' ->
      line_path dx dy i' j' l -> line_path dx dy i j ((i, j) :: l).

Fixpoint plot_all (put : Z -> Z -> M screen unit) (l : list (Z * Z)) : M screen unit :=
  match l with
  | [] => mret tt
  | (x, y) :: l' => put (u32 x) (u32 y) ≫= fun _ => plot_all put l'
  end.

Lemma int_of_ok {S : Type} z (s : S) : - INT_MAX - 1 <= z <= INT_MAX -> int_of z s = Done (z, s).
Proof.
  intros Hz. unfold int_of. destruct (Z.leb_spec (- INT_MAX - 1) z); [|lia].
  destruct (Z.leb_spec z INT_MAX); [done|lia].
Qed.

Definition LINE_MAX : Z := 2 ^ 28.

(** What a round does to the distance from the ideal line. *)
Lemma line_step dx dy i j e :
  0 <= dx <= LINE_MAX -> 0 <= dy <= LINE_MAX ->
  on_line dx dy i j -> (i <> dx \/ j <> dy) -> e = (j + 1) * dx - (i + 1) * dy ->
  let sx := (- dy <=? 2 * e) in let sy := (2 * e <=? dx) in
  let i' := if sx then i + 1 else i in let j' := if sy then j + 1 else j in
  on_line dx dy i' j' /\
  line_move dx dy i j i' j' /\
  - 3 * LINE_MAX <= 2 * e <= 3 * LINE_MAX.
Proof.
  unfold on_line, line_move, LINE_MAX in *. intros Hdx Hdy (Hi & Hj & Hd) Hne He. cbv zeta.
  destruct (Z.leb_spec (- dy) (2 * e)); destruct (Z.leb_spec (2 * e) dx);
    (assert (i <= dx - 1 \/ i = dx) as [|] by lia); (assert (j <= dy - 1 \/ j = dy) as [|] by lia);
    subst; split_and!; try lia; try nia.
Qed.

Section line_loop.
Context (x0 y0 dx dy stepX stepY : Z) (put : Z -> Z -> M screen unit).
Context (Hdx : 0 <= dx <= LINE_MAX) (Hdy : 0 <= dy <= LINE_MAX).
Context (HsX : stepX = 1 \/ stepX = -1) (HsY : stepY = 1 \/ stepY = -1).
Context (Hx0 : - LINE_MAX <= x0 <= LINE_MAX) (Hy0 : - LINE_MAX <= y0 <= LINE_MAX).

Definition place (p : Z * Z) : Z * Z := (x0 + stepX * p.1, y0 + stepY * p.2).

Lemma line_loop_path : forall (fuel : nat) i j e,
  on_line dx dy i j -> e = (j + 1) * dx - (i + 1) * dy ->
  (if dy <=? dx then dx - i else dy - j) < Z.of_nat fuel ->
  exists l, line_path dx dy i j l /\
    forall s, line_loop fuel put (x0 + stepX * i) (y0 + stepY * j) (x0 + stepX * dx) (y0 + stepY * dy)
      dx stepX (- dy) stepY e s = plot_all put (map place l) s.
Proof.
  intros fuel. induction fuel as [|n IH]; intros i j e Hon He Hf.
  - pose proof Hon as (Hi & Hj & _). destruct (Z.leb_spec dy dx); lia.
  - cbn [line_loop]. pose proof Hon as (Hi & Hj & _).
    assert (((x0 + stepX * i =? x0 + stepX * dx) && (y0 + stepY * j =? y0 + stepY * dy))
            = ((i =? dx) && (j =? dy))) as ->.
    { destruct (Z.eqb_spec i dx), (Z.eqb_spec j dy), (Z.eqb_spec (x0 + stepX * i) (x0 + stepX * dx)),
        (Z.eqb_spec (y0 + stepY * j) (y0 + stepY * dy)); subst; try done; nia. }
    destruct ((i =? dx) && (j =? dy)) eqn:Hend.
    + apply andb_prop in Hend as [->%Z.eqb_eq ->%Z.eqb_eq]. exists [(dx, dy)]. split; [constructor|]. done.
    + assert (i <> dx \/ j <> dy) as Hne.
      { apply andb_false_iff in Hend as [?%Z.eqb_neq|?%Z.eqb_neq]; [by left|by right]. }
      destruct (line_step dx dy i j e Hdx Hdy Hon Hne He) as (Hon' & Hmv & He2).
      set (bx := - dy <=? 2 * e) in *. set (byy := 2 * e <=? dx) in *.
      set (i' := if bx then i + 1 else i) in *. set (j' := if byy then j + 1 else j) in *.
      destruct (IH i' j' (e + (if bx then - dy else 0) + (if byy then dx else 0)) Hon') as (l & Hl & Heq).
      { subst i' j' e. destruct bx, byy; lia. }
      { unfold line_move in Hmv. destruct (Z.leb_spec dy dx); lia. }
      exists ((i, j) :: l). split; [by eapply path_step|].
      intros s. cbn [map plot_all place fst snd].
      apply bind_ext. intros [] s1.
      rewrite (bind_eq _ _ _ _ _ (int_of_ok (2 * e) s1 ltac:(unfold INT_MAX, LINE_MAX in *; lia))).
      fold bx byy.
      destruct Hon' as (Hi' & Hj' & _). unfold LINE_MAX, INT_MAX in *.
      rewrite <-Heq. clear Heq IH. subst i' j'.
      assert (- INT_MAX - 1 <= x0 + stepX * i + stepX <= INT_MAX /\ - INT_MAX - 1 <= y0 + stepY * j + stepY <= INT_MAX) as [Bx By].
      { unfold INT_MAX. destruct HsX as [->| ->], HsY as [->| ->]; lia. }
      destruct bx; destruct byy; unfold mbind, M_bind; rewrite ?int_of_ok by (unfold INT_MAX in *; lia);
        cbn -[line_loop]; rewrite ?int_of_ok by (unfold INT_MAX in *; lia);
        (f_equal; lia) || (unfold mret, M_ret; f_equal; lia).
Qed.
End line_loop.

(** The whole routine, for signed coordinates passed as [uint32_t]. *)
Lemma line_drawn (fuel : nat) (put : Z -> Z -> M screen unit) (sx sy ex ey : Z) :
  - LINE_MAX <= sx <= LINE_MAX -> - LINE_MAX <= sy <= LINE_MAX ->
  - LINE_MAX <= ex <= LINE_MAX -> - LINE_MAX <= ey <= LINE_MAX ->
  Z.abs (ex - sx) <= LINE_MAX -> Z.abs (ey - sy) <= LINE_MAX ->
  Z.max (Z.abs (ex - sx)) (Z.abs (ey - sy)) < Z.of_nat fuel ->
  exists l, line_path (Z.abs (ex - sx)) (Z.abs (ey - sy)) 0 0 l /\
    forall s, line fuel put (u32 sx) (u32 sy) (u32 ex) (u32 ey) s =
      plot_all put (map (place sx sy (if sx <? ex then 1 else -1) (if sy <? ey then 1 else -1)) l) s.
Proof.
  intros Hsx Hsy Hex Hey Hdx Hdy Hf. unfold LINE_MAX in *.
  set (dx := Z.abs (ex - sx)) in *. set (dy := Z.abs (ey - sy)) in *.
  set (stX := if sx <? ex then 1 else -1). set (stY := if sy <? ey then 1 else -1).
  assert (stX = 1 \/ stX = -1) as HsX by (unfold stX; destruct (sx <? ex); tauto).
  assert (stY = 1 \/ stY = -1) as HsY by (unfold stY; destruct (sy <? ey); tauto).
  assert (sx + stX * dx = ex) as EX by (unfold stX, dx; destruct (Z.ltb_spec sx ex); lia).
  assert (sy + stY * dy = ey) as EY by (unfold stY, dy; destruct (Z.ltb_spec sy ey); lia).
  destruct (line_loop_path sx sy dx dy stX stY put ltac:(unfold LINE_MAX; lia) ltac:(unfold LINE_MAX; lia)
    HsX HsY ltac:(unfold LINE_MAX; lia) ltac:(unfold LINE_MAX; lia) fuel 0 0 (dx - dy)) as (l & Hl & Heq).
  { unfold on_line. lia. }
  { lia. }
  { destruct (Z.leb_spec dy dx); lia. }
  exists l. split; [done|].
  intros s. rewrite <-Heq. unfold line.
  assert (forall z, - 2 ^ 28 <= z <= 2 ^ 28 -> s32 (u32 z) = z) as Hs32.
  { intros z Hz. unfold s32, u32. rewrite Zplus_mod_idemp_l, Z.mod_small; lia. }
  rewrite !Hs32 by done. cbv zeta. fold stX stY.
  assert (forall z t, Z.abs z <= 2 ^ 28 -> abs z t = Done (Z.abs z, t)) as Habs.
  { intros z t Hz. unfold abs. destruct (Z.ltb_spec z 0).
    - rewrite int_of_ok by (unfold INT_MAX; lia). do 2 f_equal. lia.
    - unfold mret, M_ret. do 2 f_equal. lia. }
  rewrite (bind_eq _ _ _ _ _ (int_of_ok (ex - sx) s ltac:(unfold INT_MAX; lia))).
  rewrite (bind_eq _ _ _ _ _ (Habs (ex - sx) s ltac:(lia))).
  rewrite (bind_eq _ _ _ _ _ (int_of_ok (ey - sy) s ltac:(unfold INT_MAX; lia))).
  rewrite (bind_eq _ _ _ _ _ (Habs (ey - sy) s ltac:(lia))). fold dx dy.
  rewrite (bind_eq _ _ _ _ _ (int_of_ok (dx + - dy) s ltac:(unfold INT_MAX; lia))).
  rewrite EX, EY. f_equal; lia.
Qed.

Lemma path_inside dx dy i j l : line_path dx dy i j l -> i <= dx /\ j <= dy.
Proof. induction 1 as [|i j i' j' l Hon]; [lia|]. destruct Hon as (? & ? & _). lia. Qed.

Lemma path_length dx dy i j l : line_path dx dy i j l ->
  Z.of_nat (length l) = (if dy <=? dx then dx - i else dy - j) + 1.
Proof.
  induction 1 as [|i j i' j' l Hon Hmv Hl IH].
  - cbn. destruct (Z.leb_spec dy dx); lia.
  - cbn [length]. unfold line_move in Hmv. destruct (Z.leb_spec dy dx); lia.
Qed.

(** ** The terminal *)

(** A font whose glyphs are where the drawing loop looks for them. *)
Record font_ok (f : font_t) : Prop := {
  fk_width : 0 <= f.(font_width) < 2 ^ 31;
  fk_height : 0 <= f.(font_height) < 2 ^ 31;
  fk_size : f.(font_height) * ((f.(font_width) + 7) / 8) <= f.(glyphsize);
  fk_count : 0 <= f.(glyph_count);
  fk_glyphs : Z.min f.(glyph_count) 256 * f.(glyphsize) <= Z.of_nat (length f.(glyphs));
  fk_max : Z.min f.(glyph_count) 256 * f.(glyphsize) < 2 ^ 32;
}.

(** Only the pixels, the cursor and the serial output may change. *)
Record keeps (fb : framebuffer_t) (s s' : screen) : Prop := {
  kp_pb : s'.(framebuffer_pb) = s.(framebuffer_pb);
  kp_font : s'.(current_font) = s.(current_font);
  kp_other : forall a, a <> fb.(fb_address) -> s'.(vram) !! a = s.(vram) !! a;
  kp_ok : fb_ok s fb -> fb_ok s' fb;
}.

#[export] Instance keeps_pre fb : PreOrder (keeps fb).
Proof.
  split; [by split|]. intros s1 s2 s3 [] []. split; [congruence|congruence| |auto].
  intros a Ha. rewrite kp_other1 by done. by apply kp_other0.
Qed.

Lemma same_frame_keeps fb s s' : same_frame fb s s' -> keeps fb s s'.
Proof. intros Hs. pose proof Hs as []. split; try done. intros Hok. by eapply same_frame_ok. Qed.

Lemma set_cursor_keeps fb x y s : keeps fb s (set_cursor x y s).
Proof. by split. Qed.

(** The states that a run from [s0] may reach, with the cursor at [x], [y]. *)
Definition going (fb : framebuffer_t) (s0 : screen) (x y : Z) (out : list Z) (s : screen) : Prop :=
  fb_ok s fb /\ keeps fb s0 s /\ s.(cursor_x) = x /\ s.(cursor_y) = y /\ s.(serial_out) = out.

Section terminal.
Context (fb : framebuffer_t) (s0 : screen).

Lemma going_frame x y out s s' : going fb s0 x y out s -> same_frame fb s s' -> going fb s0 x y out s'.
Proof.
  intros (Hok & Hk & Hx & Hy & Ho) Hs. pose proof Hs as [].
  split_and!; [by eapply same_frame_ok|etrans; [exact Hk|by apply same_frame_keeps]|congruence..].
Qed.

Lemma safe_store x y out i c : 0 <= i < fb.(fb_height) * fb.(fb_pitch) ->
  safe (going fb s0 x y out) (store_px fb.(fb_address) i c) (fun _ => going fb s0 x y out).
Proof.
  intros Hi s Hs. destruct (store_painted s fb i c (proj1 Hs) Hi) as (s' & -> & Hp).
  by eapply going_frame; [|apply Hp].
Qed.

Lemma safe_put_pixel x y out px py c : 0 <= px -> 0 <= py ->
  safe (going fb s0 x y out) (put_pixel px py c) (fun _ => going fb s0 x y out).
Proof.
  intros Hx Hy s Hs. destruct (put_pixel_painted s fb px py c (proj1 Hs) Hx Hy) as (s' & -> & Hp).
  by eapply going_frame; [|apply Hp].
Qed.

Lemma safe_loop x y out n i (body : Z -> M screen unit) :
  (forall k, i <= k < i + Z.of_nat n ->
     safe (going fb s0 x y out) (body k) (fun _ => going fb s0 x y out)) ->
  safe (going fb s0 x y out) (for_upM n i body) (fun _ => going fb s0 x y out).
Proof. intros Hb. by apply (safe_for_upM (fun _ => going fb s0 x y out)). Qed.

Lemma move_same s off n o :
  fb_ok s fb -> s.(vram) !! fb.(fb_address) = Some o -> off + n <= o.(px_len) ->
  exists s', move_down fb.(fb_address) off n s = Done (tt, s') /\ same_frame fb s s'.
Proof.
  intros Hok Ho Hle. unfold move_down. rewrite Ho. destruct (Z.leb_spec (off + n) o.(px_len)); [|lia].
  eexists. split; [reflexivity|]. split; try done; cbn [vram set_vram].
  - intros a Ha. by rewrite lookup_insert_ne.
  - by rewrite lookup_insert_eq, Ho.
Qed.

Lemma safe_scroll x y out bg font : font_ok font ->
  safe (going fb s0 x y out) (term_scroll bg font) (fun _ => going fb s0 x y out).
Proof.
  intros Hf s Hs. pose proof Hs as ((Hpb & o & Ho & Hfit) & _). unfold term_scroll.
  rewrite (bind_eq _ _ _ _ _ (gets_eq framebuffer_pb s)), Hpb. cbv zeta.
  destruct (Z.eqb_spec font.(font_height) 0) as [|Hl0]; cbn [orb]; [done|].
  destruct (Z.leb_spec fb.(fb_height) font.(font_height)) as [|Hlh]; [done|].
  destruct Hfit as [Hw Hh Hlen Hmax]. destruct Hf as [_ [Hh0 _] _ _ _ _].
  set (lh := font.(font_height)) in *. set (h := fb.(fb_height)) in *. set (p := fb.(fb_pitch)) in *.
  assert (0 <= lh * p /\ 0 <= (h - lh) * p /\ lh * p + (h - lh) * p = h * p) as (B1 & B2 & B3) by nia.
  rewrite (u64_id (lh * p)), (u64_id ((h - lh) * p)), (u64_id ((h - lh) * p * 4)) by (unfold in_u64; lia).
  rewrite Z.div_mul by lia.
  destruct (move_same s (lh * p) ((h - lh) * p) o (proj1 Hs) Ho ltac:(lia)) as (s1 & E & Hsame).
  rewrite (bind_eq _ _ _ _ _ E). replace (h - (h - lh)) with lh by lia.
  apply (safe_loop x y out); [|by eapply going_frame].
  intros k Hk. apply safe_loop. intros i Hi. rewrite Z2Nat.id in Hk by lia. rewrite Z2Nat.id in Hi by lia.
  assert (0 <= k * p + i < h * p) as Hb by nia.
  rewrite (u64_id (k * p)), u64_id by (unfold in_u64; nia). by apply safe_store.
Qed.

Lemma safe_set_cursor x y out x' y' :
  safe (going fb s0 x y out) (modify (fun s => set_cursor x' y' s)) (fun _ => going fb s0 x' y' out).
Proof.
  intros s (Hok & Hk & _ & _ & Ho). cbn. split_and!; [done| |done|done|done].
  etrans; [exact Hk|apply set_cursor_keeps].
Qed.

Lemma safe_at x y out {B : Type} (f : screen -> B) (b : B)
    (k : B -> M screen unit) R :
  (forall s, going fb s0 x y out s -> f s = b) ->
  safe (going fb s0 x y out) (k b) R ->
  safe (going fb s0 x y out) (gets f ≫= k) R.
Proof. intros Hf Hk s Hs. rewrite (bind_eq _ _ _ _ _ (gets_eq f s)), (Hf s Hs). by apply Hk. Qed.

Lemma safe_then x y out x' y' out' (m k : M screen unit) R :
  safe (going fb s0 x y out) m (fun _ => going fb s0 x' y' out') ->
  safe (going fb s0 x' y' out') k R ->
  safe (going fb s0 x y out) (m ≫= fun _ => k) R.
Proof. intros Hm Hk. by eapply safe_bind; [exact Hm|]. Qed.

Lemma load_glyph_ok g i : 0 <= i < Z.of_nat (length g) -> exists b, forall s, load_glyph g i s = Done (b, s).
Proof.
  intros Hi. unfold load_glyph. destruct (Z.ltb_spec i 0); [lia|].
  destruct (lookup_lt_is_Some_2 g (Z.to_nat i)) as [b Hb]; [lia|]. exists b. by rewrite Hb.
Qed.

Lemma glyph_index font index row col :
  font_ok font -> 0 <= index < Z.min font.(glyph_count) 256 ->
  0 <= row < font.(font_height) -> 0 <= col < font.(font_width) ->
  0 <= u32 (index * font.(glyphsize)) + u32 (u32 (row * (u32 (font.(font_width) + 7) / 8)) + col / 8)
    < Z.of_nat (length font.(glyphs)).
Proof.
  intros [] Hi Hr Hc. rewrite (u32_id (font.(font_width) + 7)) by (unfold in_u32; lia).
  set (w := font.(font_width)) in *. set (h := font.(font_height)) in *. set (g := font.(glyphsize)) in *.
  set (n := Z.min font.(glyph_count) 256) in *. set (b := (w + 7) / 8) in *.
  assert (0 <= col / 8 < b) as Hcb by (unfold b; Z.div_mod_to_equations; lia).
  assert (row * b + col / 8 < h * b) by nia.
  assert (0 <= row * b) by nia. assert (0 <= index * g) by nia.
  assert (index * g + g <= n * g) by nia. assert (0 <= n) by lia.
  rewrite (u32_id (index * g)), (u32_id (row * b)), u32_id by (unfold in_u32; lia). lia.
Qed.

Lemma safe_glyph x y out index fg bg font :
  font_ok font -> 0 <= index < Z.min font.(glyph_count) 256 ->
  safe (going fb s0 x y out) (draw_glyph index fg bg font) (fun _ => going fb s0 x y out).
Proof.
  intros Hf Hi. unfold draw_glyph. cbv zeta. apply safe_loop. intros row Hrow.
  apply safe_loop. intros col Hcol. pose proof Hf as [[? _] [? _] _ _ _ _].
  rewrite Z2Nat.id in Hrow, Hcol by lia.
  destruct (load_glyph_ok font.(glyphs) _ (glyph_index font index row col Hf Hi ltac:(lia) ltac:(lia))) as (b & Hb).
  intros s Hs. rewrite (bind_eq _ _ _ _ _ (Hb s)). revert s Hs.
  apply (safe_at x y out _ (u32 (u64 (x + col)))); [intros s (_ & _ & -> & _); done|].
  apply (safe_at x y out _ (u32 (u64 (y + row)))); [intros s (_ & _ & _ & -> & _); done|].
  case_match; apply safe_put_pixel; apply u32_range.
Qed.

Lemma safe_erase x y out bg font :
  safe (going fb s0 x y out) (erase_cell bg font) (fun _ => going fb s0 x y out).
Proof.
  unfold erase_cell. apply safe_loop. intros row _. apply safe_loop. intros col _.
  apply (safe_at x y out _ (u32 (u64 (x + col)))); [intros s (_ & _ & -> & _); done|].
  apply (safe_at x y out _ (u32 (u64 (y + row)))); [intros s (_ & _ & _ & -> & _); done|].
  apply safe_put_pixel; apply u32_range.
Qed.

(** The cursor after a character. *)
Definition newline_y (font : font_t) (y : Z) : Z :=
  let y1 := u64 (y + font.(font_height)) in
  if fb.(fb_height) <? u64 (y1 + font.(font_height)) then u64 (fb.(fb_height) - font.(font_height)) else y1.

Definition next_cursor (font : font_t) (c x y : Z) : Z * Z :=
  if c =? 13 then (0, y)
  else if c =? 10 then (0, newline_y font y)
  else if c =? 8 then (if font.(font_width) <=? x then x - font.(font_width) else 0, y)
  else if c =? 9 then
    let x' := u64 (x + u32 (font.(font_width) * 4)) in
    if fb.(fb_width) <? u64 (x' + font.(font_width)) then (0, u64 (y + font.(font_height))) else (x', y)
  else if font.(glyph_count) <=? u8 c then (x, y)
  else (u64 (x + font.(font_width)), y).

Lemma safe_modify_cursor x y out (f : screen -> screen) x' y' :
  (forall s, going fb s0 x y out s -> f s = set_cursor x' y' s) ->
  safe (going fb s0 x y out) (modify f) (fun _ => going fb s0 x' y' out).
Proof.
  intros Hf s Hs. cbn. rewrite (Hf s Hs). exact (safe_set_cursor x y out x' y' s Hs).
Qed.

Lemma safe_ln x y out bg font : font_ok font ->
  safe (going fb s0 x y out) (ln bg font) (fun _ => going fb s0 0 (newline_y font y) out).
Proof.
  intros Hf. unfold ln. apply (safe_at x y out _ (Some fb)); [by intros s ((? & _) & _)|].
  cbn [default]. set (y1 := u64 (y + font.(font_height))).
  apply (safe_then x y out 0 y1 out).
  { apply safe_modify_cursor. intros s (_ & _ & _ & -> & _). done. }
  apply (safe_at 0 y1 out _ y1); [intros s (_ & _ & _ & -> & _); done|].
  unfold newline_y. fold y1. destruct (fb.(fb_height) <? u64 (y1 + font.(font_height))); [|by apply safe_ret].
  apply (safe_then 0 y1 out 0 y1 out); [by apply safe_scroll|].
  apply safe_modify_cursor. intros s (_ & _ & -> & _). done.
Qed.

Lemma safe_Putchar x y out c fg bg font : font_ok font ->
  safe (going fb s0 x y out) (Putchar c fg bg font)
    (fun _ => going fb s0 (next_cursor font c x y).1 (next_cursor font c x y).2 (out ++ [u8 c])).
Proof.
  intros Hf. unfold Putchar, next_cursor.
  apply (safe_then x y out x y (out ++ [u8 c])).
  { intros s (Hok & Hk & Hx & Hy & Ho). cbn. split_and!; [done| |done|done|by rewrite Ho].
    etrans; [exact Hk|]. by split. }
  apply (safe_at x y _ _ (Some fb)); [by intros s ((? & _) & _)|].
  set (o := out ++ [u8 c]). clearbody o.
  destruct (c =? 13); [apply safe_modify_cursor; by intros s (_ & _ & _ & -> & _)|].
  destruct (c =? 10); [by apply safe_ln|].
  destruct (c =? 8).
  { apply (safe_then x y o (if font.(font_width) <=? x then x - font.(font_width) else 0) y o).
    - apply safe_modify_cursor. by intros s (_ & _ & -> & -> & _).
    - apply safe_erase. }
  destruct (c =? 9).
  { set (x' := u64 (x + u32 (font.(font_width) * 4))).
    apply (safe_then x y o x' y o).
    - apply safe_modify_cursor. by intros s (_ & _ & -> & -> & _).
    - apply (safe_at x' y o _ x'); [by intros s (_ & _ & -> & _)|].
      destruct (fb.(fb_width) <? u64 (x' + font.(font_width))); [|by apply safe_ret].
      apply safe_modify_cursor. by intros s (_ & _ & _ & -> & _). }
  destruct (Z.leb_spec font.(glyph_count) (u8 c)) as [|Hc]; [by apply safe_ret|].
  set (x' := u64 (x + font.(font_width))).
  apply (safe_then x y o x y o); [apply safe_glyph; [done|]; pose proof (u8_range c); unfold in_u8 in *; lia|].
  apply (safe_then x y o x' y o); [apply safe_modify_cursor; by intros s (_ & _ & -> & -> & _)|].
  apply (safe_at x' y o _ x'); [by intros s (_ & _ & -> & _)|].
  apply (safe_then x' y o x' y o).
  { case_match; [by apply safe_scroll|by apply safe_ret]. }
  apply (safe_at x' y o _ y); [by intros s (_ & _ & _ & -> & _)|].
  case_match; [by apply safe_scroll|by apply safe_ret].
Qed.

(** A run of characters. *)
Fixpoint put_string (fg bg : Z) (font : font_t) (l : list Z) : M screen unit :=
  match l with
  | [] => mret tt
  | c :: l' => Putchar c fg bg font ≫= fun _ => put_string fg bg font l'
  end.

Fixpoint cursor_after (font : font_t) (l : list Z) (p : Z * Z) : Z * Z :=
  match l with
  | [] => p
  | c :: l' => cursor_after font l' (next_cursor font c p.1 p.2)
  end.

Lemma safe_put_string fg bg font l : font_ok font -> forall x y out,
  safe (going fb s0 x y out) (put_string fg bg font l)
    (fun _ => going fb s0 (cursor_after font l (x, y)).1 (cursor_after font l (x, y)).2 (out ++ map u8 l)).
Proof.
  intros Hf. induction l as [|c l IH]; intros x y out; cbn [put_string cursor_after map].
  - apply safe_ret. intros s. by rewrite app_nil_r.
  - eapply safe_then; [by apply safe_Putchar|].
    replace (out ++ u8 c :: map u8 l) with ((out ++ [u8 c]) ++ map u8 l) by (by rewrite <-app_assoc).
    cbn [fst snd]. destruct (next_cursor font c x y) as [x' y']. apply IH.
Qed.
End terminal.
