(* ===== verification/FontData.v ===== *)
(** * The console font ([kernel/cozette_hlp.c], [common/fonts/cozette.h])

    The PSF2 file that is linked into the kernel, row by row as in the C
    array, and the reader of its header. *)

From S2P Require Import Prelude Graphics GraphicsFacts.

Definition cozette_psf_rows : list (list Z) := [
  [0x72; 0xb5; 0x4a; 0x86; 0x00; 0x00; 0x00; 0x00; 0x20; 0x00; 0x00; 0x00];
  [0x01; 0x00; 0x00; 0x00; 0x00; 0x02; 0x00; 0x00; 0x0d; 0x00; 0x00; 0x00];
  [0x0d; 0x00; 0x00; 0x00; 0x06; 0x00; 0x00; 0x00; 0x00; 0x00; 0x00; 0x00];
  [0x44; 0x38; 0x28; 0x28; 0x38; 0x44; 0x00; 0x00; 0x00; 0x00; 0x10; 0x10];
  [0x10; 0x10; 0x00; 0x00; 0x00; 0x10; 0x10; 0x10; 0x10; 0x00; 0x00; 0x28];
  [0x00; 0x00; 0x00; 0x00; 0x00; 0x00; 0x00; 0x00; 0x00; 0x00; 0x00; 0x00];
  [0x00; 0x00; 0x38; 0x44; 0xba; 0xa2; 0xba; 0x44; 0x38; 0x00; 0x00; 0x00];
  [0x00; 0x00; 0x00; 0x38; 0x44; 0xba; 0xa2; 0xa2; 0x44; 0x38; 0x00; 0x00];
  [0x00; 0xfe; 0x00; 0x00; 0x00; 0x00; 0x00; 0x00; 0x00; 0x00; 0x00; 0x00];
  [0x00; 0x00; 0x00; 0x70; 0x08; 0x30; 0x08; 0x70; 0x00; 0x00; 0x00; 0x00];
  [0x00; 0x00; 0x00; 0x00; 0x00; 0x00; 0x00; 0x38; 0x7c; 0x7c; 0x7c; 0x38];
  [0x00; 0x00; 0x00; 0x00; 0x00; 0x08; 0x10; 0x00; 0x00; 0x00; 0x00; 0x00];
  [0x00; 0x00; 0x00; 0x00; 0x00; 0x00; 0x00; 0x00; 0x38; 0x44; 0x82; 0x82];
  [0x82; 0x44; 0x38; 0x00; 0x00; 0x00; 0x00; 0x00; 0x00; 0x00; 0x00; 0x00];
  [0x00; 0x00; 0x00; 0x10; 0x08; 0x30; 0x00; 0x00; 0x20; 0x60; 0x20; 0x20];
  [0x70; 0x00; 0x00; 0x00; 0x00; 0x00; 0x00; 0x00; 0x00; 0x64; 0x28; 0x48];
  [0x30; 0x70; 0x24; 0x2c; 0x5c; 0x44; 0x00; 0x00; 0x00; 0x20; 0x10; 0x00];
  [0x38; 0x44; 0x44; 0x7c; 0x44; 0x44; 0x44; 0x00; 0x00; 0x00; 0x08; 0x10];
  [0x00; 0x38; 0x44; 0x44; 0x7c; 0x44; 0x44; 0x44; 0x00; 0x00; 0x00; 0x10];
  [0x28; 0x00; 0x38; 0x44; 0x44; 0x7c; 0x44; 0x44; 0x44; 0x00; 0x00; 0x00];
  [0x34; 0x58; 0x00; 0x38; 0x44; 0x44; 0x7c; 0x44; 0x44; 0x44; 0x00; 0x00];
  [0x00; 0x20; 0x10; 0x00; 0x7c; 0x40; 0x40; 0x78; 0x40; 0x40; 0x7c; 0x00];
  [0x00; 0x00; 0x00; 0x00; 0x00; 0x10; 0x38; 0x10; 0x10; 0x38; 0x10; 0x00];
  [0x00; 0x00; 0x00; 0x10; 0x28; 0x00; 0x7c; 0x40; 0x40; 0x78; 0x40; 0x40];
  [0x7c; 0x00; 0x00; 0x00; 0x00; 0x00; 0x3c; 0x74; 0x74; 0x34; 0x14; 0x14];
  [0x14; 0x14; 0x14; 0x00; 0x00; 0x00; 0x38; 0x44; 0x40; 0x30; 0x28; 0x28];
  [0x18; 0x04; 0x44; 0x38; 0x00; 0x00; 0x00; 0x28; 0x00; 0x7c; 0x40; 0x40];
  [0x78; 0x40; 0x40; 0x7c; 0x00; 0x00; 0x00; 0x20; 0x10; 0x00; 0x38; 0x10];
  [0x10; 0x10; 0x10; 0x10; 0x38; 0x00; 0x00; 0x00; 0x00; 0x00; 0x00; 0x10];
  [0x38; 0x54; 0x10; 0x10; 0x10; 0x10; 0x00; 0x00; 0x00; 0x00; 0x00; 0x00];
  [0x10; 0x10; 0x10; 0x10; 0x54; 0x38; 0x10; 0x00; 0x00; 0x00; 0x00; 0x00];
  [0x00; 0x00; 0x10; 0x08; 0x7c; 0x08; 0x10; 0x00; 0x00; 0x00; 0x00; 0x00];
  [0x00; 0x00; 0x00; 0x10; 0x20; 0x7c; 0x20; 0x10; 0x00; 0x00; 0x00; 0x00];
  [0x08; 0x10; 0x00; 0x38; 0x10; 0x10; 0x10; 0x10; 0x10; 0x38; 0x00; 0x00];
  [0x00; 0x00; 0x00; 0x00; 0x00; 0x00; 0x28; 0x7c; 0x28; 0x00; 0x00; 0x00];
  [0x00; 0x00; 0x10; 0x28; 0x00; 0x38; 0x10; 0x10; 0x10; 0x10; 0x10; 0x38];
  [0x00; 0x00; 0x00; 0x00; 0x28; 0x00; 0x38; 0x10; 0x10; 0x10; 0x10; 0x10];
  [0x38; 0x00; 0x00; 0x00; 0x00; 0x00; 0x00; 0x00; 0x00; 0x00; 0x00; 0x00];
  [0x00; 0x00; 0x00; 0x00; 0x00; 0x00; 0x00; 0x10; 0x10; 0x10; 0x10; 0x10];
  [0x10; 0x00; 0x10; 0x00; 0x00; 0x00; 0x00; 0x28; 0x28; 0x28; 0x00; 0x00];
  [0x00; 0x00; 0x00; 0x00; 0x00; 0x00; 0x00; 0x00; 0x00; 0x28; 0x28; 0x7c];
  [0x28; 0x28; 0x7c; 0x28; 0x28; 0x00; 0x00; 0x00; 0x00; 0x10; 0x38; 0x54];
  [0x50; 0x38; 0x14; 0x14; 0x54; 0x38; 0x10; 0x00; 0x00; 0x00; 0x20; 0x50];
  [0x24; 0x08; 0x10; 0x20; 0x48; 0x14; 0x08; 0x00; 0x00; 0x00; 0x00; 0x10];
  [0x28; 0x28; 0x10; 0x34; 0x48; 0x48; 0x48; 0x34; 0x00; 0x00; 0x00; 0x00];
  [0x10; 0x10; 0x10; 0x00; 0x00; 0x00; 0x00; 0x00; 0x00; 0x00; 0x00; 0x00];
  [0x00; 0x08; 0x10; 0x10; 0x20; 0x20; 0x20; 0x20; 0x20; 0x10; 0x10; 0x08];
  [0x00; 0x00; 0x20; 0x10; 0x10; 0x08; 0x08; 0x08; 0x08; 0x08; 0x10; 0x10];
  [0x20; 0x00; 0x00; 0x00; 0x00; 0x00; 0x28; 0x10; 0x7c; 0x10; 0x28; 0x00];
  [0x00; 0x00; 0x00; 0x00; 0x00; 0x00; 0x00; 0x10; 0x10; 0x7c; 0x10; 0x10];
  [0x00; 0x00; 0x00; 0x00; 0x00; 0x00; 0x00; 0x00; 0x00; 0x00; 0x00; 0x00];
  [0x30; 0x30; 0x10; 0x20; 0x00; 0x00; 0x00; 0x00; 0x00; 0x00; 0x00; 0x7c];
  [0x00; 0x00; 0x00; 0x00; 0x00; 0x00; 0x00; 0x00; 0x00; 0x00; 0x00; 0x00];
  [0x00; 0x00; 0x30; 0x30; 0x00; 0x00; 0x00; 0x00; 0x04; 0x04; 0x08; 0x08];
  [0x10; 0x10; 0x20; 0x20; 0x40; 0x40; 0x00; 0x00; 0x00; 0x00; 0x38; 0x44];
  [0x44; 0x54; 0x54; 0x44; 0x44; 0x38; 0x00; 0x00; 0x00; 0x00; 0x00; 0x10];
  [0x30; 0x50; 0x10; 0x10; 0x10; 0x10; 0x7c; 0x00; 0x00; 0x00; 0x00; 0x00];
  [0x38; 0x44; 0x04; 0x08; 0x10; 0x20; 0x40; 0x7c; 0x00; 0x00; 0x00; 0x00];
  [0x00; 0x38; 0x44; 0x04; 0x18; 0x04; 0x04; 0x44; 0x38; 0x00; 0x00; 0x00];
  [0x00; 0x00; 0x04; 0x0c; 0x14; 0x24; 0x44; 0x7e; 0x04; 0x04; 0x00; 0x00];
  [0x00; 0x00; 0x00; 0x7c; 0x40; 0x40; 0x78; 0x04; 0x04; 0x44; 0x38; 0x00];
  [0x00; 0x00; 0x00; 0x00; 0x18; 0x20; 0x40; 0x78; 0x44; 0x44; 0x44; 0x38];
  [0x00; 0x00; 0x00; 0x00; 0x00; 0x7c; 0x04; 0x08; 0x08; 0x10; 0x10; 0x20];
  [0x20; 0x00; 0x00; 0x00; 0x00; 0x00; 0x38; 0x44; 0x44; 0x38; 0x44; 0x44];
  [0x44; 0x38; 0x00; 0x00; 0x00; 0x00; 0x00; 0x38; 0x44; 0x44; 0x44; 0x3c];
  [0x04; 0x08; 0x30; 0x00; 0x00; 0x00; 0x00; 0x00; 0x00; 0x00; 0x30; 0x30];
  [0x00; 0x00; 0x30; 0x30; 0x00; 0x00; 0x00; 0x00; 0x00; 0x00; 0x00; 0x30];
  [0x30; 0x00; 0x00; 0x30; 0x30; 0x10; 0x20; 0x00; 0x00; 0x00; 0x00; 0x04];
  [0x08; 0x10; 0x20; 0x10; 0x08; 0x04; 0x00; 0x00; 0x00; 0x00; 0x00; 0x00];
  [0x00; 0x00; 0x7c; 0x00; 0x7c; 0x00; 0x00; 0x00; 0x00; 0x00; 0x00; 0x00];
  [0x00; 0x40; 0x20; 0x10; 0x08; 0x10; 0x20; 0x40; 0x00; 0x00; 0x00; 0x00];
  [0x00; 0x38; 0x44; 0x04; 0x08; 0x10; 0x10; 0x00; 0x10; 0x00; 0x00; 0x00];
  [0x00; 0x00; 0x38; 0x44; 0x44; 0x5c; 0x54; 0x5c; 0x40; 0x3c; 0x00; 0x00];
  [0x00; 0x00; 0x00; 0x38; 0x44; 0x44; 0x44; 0x7c; 0x44; 0x44; 0x44; 0x00];
  [0x00; 0x00; 0x00; 0x00; 0x78; 0x44; 0x44; 0x78; 0x44; 0x44; 0x44; 0x78];
  [0x00; 0x00; 0x00; 0x00; 0x00; 0x38; 0x44; 0x40; 0x40; 0x40; 0x40; 0x44];
  [0x38; 0x00; 0x00; 0x00; 0x00; 0x00; 0x70; 0x48; 0x44; 0x44; 0x44; 0x44];
  [0x48; 0x70; 0x00; 0x00; 0x00; 0x00; 0x00; 0x7c; 0x40; 0x40; 0x78; 0x40];
  [0x40; 0x40; 0x7c; 0x00; 0x00; 0x00; 0x00; 0x00; 0x7c; 0x40; 0x40; 0x78];
  [0x40; 0x40; 0x40; 0x40; 0x00; 0x00; 0x00; 0x00; 0x00; 0x38; 0x44; 0x40];
  [0x40; 0x4c; 0x44; 0x44; 0x38; 0x00; 0x00; 0x00; 0x00; 0x00; 0x44; 0x44];
  [0x44; 0x7c; 0x44; 0x44; 0x44; 0x44; 0x00; 0x00; 0x00; 0x00; 0x00; 0x38];
  [0x10; 0x10; 0x10; 0x10; 0x10; 0x10; 0x38; 0x00; 0x00; 0x00; 0x00; 0x00];
  [0x1c; 0x04; 0x04; 0x04; 0x04; 0x44; 0x44; 0x38; 0x00; 0x00; 0x00; 0x00];
  [0x00; 0x44; 0x48; 0x50; 0x70; 0x48; 0x48; 0x44; 0x44; 0x00; 0x00; 0x00];
  [0x00; 0x00; 0x40; 0x40; 0x40; 0x40; 0x40; 0x40; 0x40; 0x7c; 0x00; 0x00];
  [0x00; 0x00; 0x00; 0x44; 0x6c; 0x54; 0x54; 0x44; 0x44; 0x44; 0x44; 0x00];
  [0x00; 0x00; 0x00; 0x00; 0x44; 0x64; 0x64; 0x54; 0x54; 0x4c; 0x4c; 0x44];
  [0x00; 0x00; 0x00; 0x00; 0x00; 0x38; 0x44; 0x44; 0x44; 0x44; 0x44; 0x44];
  [0x38; 0x00; 0x00; 0x00; 0x00; 0x00; 0x78; 0x44; 0x44; 0x44; 0x78; 0x40];
  [0x40; 0x40; 0x00; 0x00; 0x00; 0x00; 0x00; 0x38; 0x44; 0x44; 0x44; 0x44];
  [0x44; 0x48; 0x34; 0x04; 0x00; 0x00; 0x00; 0x00; 0x78; 0x44; 0x44; 0x78];
  [0x48; 0x44; 0x44; 0x44; 0x00; 0x00; 0x00; 0x00; 0x00; 0x38; 0x44; 0x40];
  [0x38; 0x04; 0x04; 0x44; 0x38; 0x00; 0x00; 0x00; 0x00; 0x00; 0x7c; 0x10];
  [0x10; 0x10; 0x10; 0x10; 0x10; 0x10; 0x00; 0x00; 0x00; 0x00; 0x00; 0x44];
  [0x44; 0x44; 0x44; 0x44; 0x44; 0x44; 0x38; 0x00; 0x00; 0x00; 0x00; 0x00];
  [0x44; 0x44; 0x44; 0x28; 0x28; 0x28; 0x10; 0x10; 0x00; 0x00; 0x00; 0x00];
  [0x00; 0x44; 0x44; 0x44; 0x54; 0x54; 0x38; 0x28; 0x28; 0x00; 0x00; 0x00];
  [0x00; 0x00; 0x44; 0x44; 0x28; 0x10; 0x10; 0x28; 0x44; 0x44; 0x00; 0x00];
  [0x00; 0x00; 0x00; 0x44; 0x44; 0x44; 0x28; 0x10; 0x10; 0x10; 0x10; 0x00];
  [0x00; 0x00; 0x00; 0x00; 0x7c; 0x08; 0x10; 0x10; 0x20; 0x20; 0x40; 0x7c];
  [0x00; 0x00; 0x00; 0x00; 0x38; 0x20; 0x20; 0x20; 0x20; 0x20; 0x20; 0x20];
  [0x20; 0x20; 0x38; 0x00; 0x00; 0x40; 0x40; 0x20; 0x20; 0x10; 0x10; 0x08];
  [0x08; 0x04; 0x04; 0x00; 0x00; 0x00; 0x38; 0x08; 0x08; 0x08; 0x08; 0x08];
  [0x08; 0x08; 0x08; 0x08; 0x38; 0x00; 0x10; 0x28; 0x44; 0x00; 0x00; 0x00];
  [0x00; 0x00; 0x00; 0x00; 0x00; 0x00; 0x00; 0x00; 0x00; 0x00; 0x00; 0x00];
  [0x00; 0x00; 0x00; 0x00; 0x00; 0x7c; 0x00; 0x00; 0x00; 0x20; 0x10; 0x00];
  [0x00; 0x00; 0x00; 0x00; 0x00; 0x00; 0x00; 0x00; 0x00; 0x00; 0x00; 0x00];
  [0x00; 0x3c; 0x44; 0x44; 0x44; 0x4c; 0x34; 0x00; 0x00; 0x00; 0x00; 0x40];
  [0x40; 0x40; 0x78; 0x44; 0x44; 0x44; 0x44; 0x78; 0x00; 0x00; 0x00; 0x00];
  [0x00; 0x00; 0x00; 0x38; 0x44; 0x40; 0x40; 0x44; 0x38; 0x00; 0x00; 0x00];
  [0x00; 0x04; 0x04; 0x04; 0x3c; 0x44; 0x44; 0x44; 0x44; 0x3c; 0x00; 0x00];
  [0x00; 0x00; 0x00; 0x00; 0x00; 0x38; 0x44; 0x7c; 0x40; 0x44; 0x38; 0x00];
  [0x00; 0x00; 0x00; 0x1c; 0x20; 0x20; 0x78; 0x20; 0x20; 0x20; 0x20; 0x20];
  [0x00; 0x00; 0x00; 0x00; 0x00; 0x00; 0x00; 0x3c; 0x44; 0x44; 0x44; 0x44];
  [0x3c; 0x04; 0x04; 0x38; 0x00; 0x40; 0x40; 0x40; 0x78; 0x44; 0x44; 0x44];
  [0x44; 0x44; 0x00; 0x00; 0x00; 0x00; 0x00; 0x10; 0x00; 0x30; 0x10; 0x10];
  [0x10; 0x10; 0x0c; 0x00; 0x00; 0x00; 0x00; 0x00; 0x08; 0x00; 0x18; 0x08];
  [0x08; 0x08; 0x08; 0x08; 0x28; 0x10; 0x00; 0x00; 0x40; 0x40; 0x40; 0x44];
  [0x48; 0x50; 0x70; 0x48; 0x44; 0x00; 0x00; 0x00; 0x00; 0x30; 0x10; 0x10];
  [0x10; 0x10; 0x10; 0x10; 0x10; 0x18; 0x00; 0x00; 0x00; 0x00; 0x00; 0x00];
  [0x00; 0x68; 0x54; 0x54; 0x54; 0x54; 0x54; 0x00; 0x00; 0x00; 0x00; 0x00];
  [0x00; 0x00; 0x78; 0x44; 0x44; 0x44; 0x44; 0x44; 0x00; 0x00; 0x00; 0x00];
  [0x00; 0x00; 0x00; 0x38; 0x44; 0x44; 0x44; 0x44; 0x38; 0x00; 0x00; 0x00];
  [0x00; 0x00; 0x00; 0x00; 0x78; 0x44; 0x44; 0x44; 0x44; 0x78; 0x40; 0x40];
  [0x40; 0x00; 0x00; 0x00; 0x00; 0x3c; 0x44; 0x44; 0x44; 0x44; 0x3c; 0x04];
  [0x04; 0x06; 0x00; 0x00; 0x00; 0x00; 0x78; 0x44; 0x40; 0x40; 0x40; 0x40];
  [0x00; 0x00; 0x00; 0x00; 0x00; 0x00; 0x00; 0x3c; 0x40; 0x38; 0x04; 0x04];
  [0x78; 0x00; 0x00; 0x00; 0x00; 0x00; 0x20; 0x20; 0x78; 0x20; 0x20; 0x20];
  [0x20; 0x1c; 0x00; 0x00; 0x00; 0x00; 0x00; 0x00; 0x00; 0x44; 0x44; 0x44];
  [0x44; 0x44; 0x3c; 0x00; 0x00; 0x00; 0x00; 0x00; 0x00; 0x00; 0x44; 0x44];
  [0x28; 0x28; 0x10; 0x10; 0x00; 0x00; 0x00; 0x00; 0x00; 0x00; 0x00; 0x44];
  [0x44; 0x54; 0x54; 0x28; 0x28; 0x00; 0x00; 0x00; 0x00; 0x00; 0x00; 0x00];
  [0x44; 0x28; 0x10; 0x10; 0x28; 0x44; 0x00; 0x00; 0x00; 0x00; 0x00; 0x00];
  [0x00; 0x44; 0x44; 0x44; 0x44; 0x44; 0x3c; 0x04; 0x04; 0x38; 0x00; 0x00];
  [0x00; 0x00; 0x7c; 0x08; 0x10; 0x20; 0x40; 0x7c; 0x00; 0x00; 0x00; 0x00];
  [0x0c; 0x10; 0x10; 0x10; 0x10; 0x60; 0x10; 0x10; 0x10; 0x10; 0x0c; 0x00];
  [0x00; 0x10; 0x10; 0x10; 0x10; 0x10; 0x10; 0x10; 0x10; 0x10; 0x10; 0x10];
  [0x00; 0x00; 0x60; 0x10; 0x10; 0x10; 0x10; 0x0c; 0x10; 0x10; 0x10; 0x10];
  [0x60; 0x00; 0x00; 0x00; 0x00; 0x00; 0x00; 0x24; 0x54; 0x48; 0x00; 0x00];
  [0x00; 0x00; 0x00; 0x00; 0x00; 0x00; 0x38; 0x24; 0x24; 0x74; 0x24; 0x24];
  [0x38; 0x00; 0x00; 0x00; 0x00; 0x00; 0x38; 0x44; 0x40; 0x40; 0x40; 0x40];
  [0x44; 0x38; 0x10; 0x10; 0x20; 0x00; 0x28; 0x00; 0x00; 0x44; 0x44; 0x44];
  [0x44; 0x44; 0x3c; 0x00; 0x00; 0x00; 0x00; 0x08; 0x10; 0x00; 0x38; 0x44];
  [0x7c; 0x40; 0x44; 0x38; 0x00; 0x00; 0x00; 0x00; 0x10; 0x28; 0x00; 0x3c];
  [0x44; 0x44; 0x44; 0x4c; 0x34; 0x00; 0x00; 0x00; 0x00; 0x28; 0x00; 0x00];
  [0x3c; 0x44; 0x44; 0x44; 0x4c; 0x34; 0x00; 0x00; 0x00; 0x00; 0x20; 0x10];
  [0x00; 0x3c; 0x44; 0x44; 0x44; 0x4c; 0x34; 0x00; 0x00; 0x00; 0x10; 0x28];
  [0x10; 0x00; 0x3c; 0x44; 0x44; 0x44; 0x4c; 0x34; 0x00; 0x00; 0x00; 0x00];
  [0x00; 0x00; 0x00; 0x38; 0x44; 0x40; 0x40; 0x44; 0x38; 0x10; 0x10; 0x20];
  [0x00; 0x10; 0x28; 0x00; 0x38; 0x44; 0x7c; 0x40; 0x44; 0x38; 0x00; 0x00];
  [0x00; 0x00; 0x28; 0x00; 0x00; 0x38; 0x44; 0x7c; 0x40; 0x44; 0x38; 0x00];
  [0x00; 0x00; 0x00; 0x20; 0x10; 0x00; 0x38; 0x44; 0x7c; 0x40; 0x44; 0x38];
  [0x00; 0x00; 0x00; 0x00; 0x28; 0x00; 0x00; 0x30; 0x10; 0x10; 0x10; 0x10];
  [0x0c; 0x00; 0x00; 0x00; 0x00; 0x10; 0x28; 0x00; 0x30; 0x10; 0x10; 0x10];
  [0x10; 0x0c; 0x00; 0x00; 0x00; 0x00; 0x20; 0x10; 0x00; 0x30; 0x10; 0x10];
  [0x10; 0x10; 0x0c; 0x00; 0x00; 0x00; 0x00; 0x28; 0x00; 0x38; 0x44; 0x44];
  [0x7c; 0x44; 0x44; 0x44; 0x00; 0x00; 0x00; 0x10; 0x28; 0x10; 0x00; 0x38];
  [0x44; 0x44; 0x7c; 0x44; 0x44; 0x00; 0x00; 0x00; 0x08; 0x10; 0x00; 0x7c];
  [0x40; 0x40; 0x78; 0x40; 0x40; 0x7c; 0x00; 0x00; 0x00; 0x00; 0x00; 0x00];
  [0x00; 0x38; 0x54; 0x5c; 0x50; 0x54; 0x28; 0x00; 0x00; 0x00; 0x00; 0x00];
  [0x3c; 0x50; 0x50; 0x5c; 0x70; 0x50; 0x50; 0x5c; 0x00; 0x00; 0x00; 0x00];
  [0x00; 0x10; 0x28; 0x00; 0x38; 0x44; 0x44; 0x44; 0x38; 0x00; 0x00; 0x00];
  [0x00; 0x00; 0x00; 0x28; 0x00; 0x38; 0x44; 0x44; 0x44; 0x38; 0x00; 0x00];
  [0x00; 0x00; 0x00; 0x20; 0x10; 0x00; 0x38; 0x44; 0x44; 0x44; 0x38; 0x00];
  [0x00; 0x00; 0x00; 0x10; 0x28; 0x00; 0x44; 0x44; 0x44; 0x44; 0x44; 0x3c];
  [0x00; 0x00; 0x00; 0x00; 0x20; 0x10; 0x00; 0x44; 0x44; 0x44; 0x44; 0x44];
  [0x3c; 0x00; 0x00; 0x00; 0x00; 0x00; 0x28; 0x00; 0x44; 0x44; 0x44; 0x44];
  [0x44; 0x3c; 0x04; 0x04; 0x38; 0x28; 0x00; 0x38; 0x44; 0x44; 0x44; 0x44];
  [0x44; 0x44; 0x38; 0x00; 0x00; 0x00; 0x00; 0x28; 0x00; 0x44; 0x44; 0x44];
  [0x44; 0x44; 0x44; 0x38; 0x00; 0x00; 0x00; 0x00; 0x00; 0x00; 0x10; 0x38];
  [0x54; 0x50; 0x50; 0x54; 0x38; 0x10; 0x00; 0x00; 0x00; 0x00; 0x18; 0x20];
  [0x20; 0x78; 0x20; 0x20; 0x20; 0x5c; 0x00; 0x00; 0x00; 0x00; 0x44; 0x44];
  [0x44; 0x28; 0x10; 0x7c; 0x10; 0x7c; 0x10; 0x00; 0x00; 0x00; 0x20; 0x10];
  [0x00; 0x38; 0x44; 0x44; 0x44; 0x44; 0x44; 0x38; 0x00; 0x00; 0x00; 0x08];
  [0x10; 0x00; 0x38; 0x44; 0x44; 0x44; 0x44; 0x44; 0x38; 0x00; 0x00; 0x00];
  [0x00; 0x08; 0x10; 0x00; 0x3c; 0x44; 0x44; 0x44; 0x4c; 0x34; 0x00; 0x00];
  [0x00; 0x00; 0x08; 0x10; 0x00; 0x30; 0x10; 0x10; 0x10; 0x10; 0x0c; 0x00];
  [0x00; 0x00; 0x00; 0x00; 0x08; 0x10; 0x00; 0x38; 0x44; 0x44; 0x44; 0x38];
  [0x00; 0x00; 0x00; 0x00; 0x08; 0x10; 0x00; 0x44; 0x44; 0x44; 0x44; 0x44];
  [0x3c; 0x00; 0x00; 0x00; 0x00; 0x34; 0x58; 0x00; 0x78; 0x44; 0x44; 0x44];
  [0x44; 0x44; 0x00; 0x00; 0x00; 0x34; 0x58; 0x00; 0x44; 0x64; 0x64; 0x54];
  [0x4c; 0x4c; 0x44; 0x00; 0x00; 0x00; 0x00; 0x00; 0x18; 0x04; 0x1c; 0x24];
  [0x1c; 0x00; 0x00; 0x00; 0x00; 0x00; 0x00; 0x00; 0x00; 0x08; 0x14; 0x08];
  [0x00; 0x1c; 0x00; 0x00; 0x00; 0x00; 0x00; 0x00; 0x00; 0x00; 0x00; 0x00];
  [0x10; 0x00; 0x10; 0x10; 0x20; 0x40; 0x44; 0x38; 0x00; 0x10; 0x28; 0x00];
  [0x38; 0x44; 0x44; 0x44; 0x44; 0x44; 0x38; 0x00; 0x00; 0x00; 0x00; 0x00];
  [0x00; 0x00; 0x00; 0x00; 0x78; 0x08; 0x08; 0x08; 0x00; 0x00; 0x00; 0x00];
  [0x44; 0x48; 0x48; 0x50; 0x10; 0x28; 0x24; 0x48; 0x4c; 0x00; 0x00; 0x00];
  [0x00; 0x44; 0x48; 0x48; 0x50; 0x10; 0x24; 0x2c; 0x5c; 0x44; 0x00; 0x00];
  [0x00; 0x00; 0x00; 0x00; 0x00; 0x10; 0x00; 0x10; 0x10; 0x10; 0x10; 0x10];
  [0x10; 0x00; 0x00; 0x00; 0x00; 0x00; 0x14; 0x28; 0x50; 0x28; 0x14; 0x00];
  [0x00; 0x00; 0x00; 0x00; 0x00; 0x00; 0x00; 0x50; 0x28; 0x14; 0x28; 0x50];
  [0x00; 0x00; 0x00; 0x00; 0x88; 0x22; 0x88; 0x22; 0x88; 0x22; 0x88; 0x22];
  [0x88; 0x22; 0x88; 0x22; 0x88; 0xaa; 0x54; 0xaa; 0x54; 0xaa; 0x54; 0xaa];
  [0x54; 0xaa; 0x54; 0xaa; 0x54; 0xaa; 0xba; 0xee; 0xba; 0xee; 0xba; 0xee];
  [0xba; 0xee; 0xba; 0xee; 0xba; 0xee; 0xba; 0x10; 0x10; 0x10; 0x10; 0x10];
  [0x10; 0x10; 0x10; 0x10; 0x10; 0x10; 0x10; 0x10; 0x10; 0x10; 0x10; 0x10];
  [0x10; 0x10; 0xf0; 0x10; 0x10; 0x10; 0x10; 0x10; 0x10; 0x34; 0x58; 0x00];
  [0x38; 0x44; 0x44; 0x44; 0x44; 0x44; 0x38; 0x00; 0x00; 0x00; 0x00; 0x00];
  [0x00; 0x00; 0x44; 0x28; 0x10; 0x28; 0x44; 0x00; 0x00; 0x00; 0x00; 0x00];
  [0x04; 0x38; 0x4c; 0x4c; 0x54; 0x54; 0x64; 0x64; 0x38; 0x40; 0x00; 0x00];
  [0x20; 0x10; 0x00; 0x44; 0x44; 0x44; 0x44; 0x44; 0x44; 0x38; 0x00; 0x00];
  [0x00; 0x08; 0x10; 0x00; 0x44; 0x44; 0x44; 0x44; 0x44; 0x44; 0x38; 0x00];
  [0x00; 0x00; 0x10; 0x28; 0x00; 0x44; 0x44; 0x44; 0x44; 0x44; 0x44; 0x38];
  [0x00; 0x00; 0x00; 0x08; 0x10; 0x00; 0x44; 0x44; 0x44; 0x28; 0x10; 0x10];
  [0x10; 0x00; 0x00; 0x00; 0x00; 0x00; 0x40; 0x40; 0x78; 0x44; 0x44; 0x78];
  [0x40; 0x40; 0x00; 0x00; 0x00; 0x00; 0x34; 0x58; 0x00; 0x3c; 0x44; 0x44];
  [0x44; 0x4c; 0x34; 0x00; 0x00; 0x00; 0x00; 0x34; 0x08; 0x14; 0x04; 0x3c];
  [0x44; 0x44; 0x44; 0x38; 0x00; 0x00; 0x00; 0x00; 0x00; 0x00; 0x00; 0x00];
  [0x00; 0xf0; 0x10; 0x10; 0x10; 0x10; 0x10; 0x10; 0x10; 0x10; 0x10; 0x10];
  [0x10; 0x10; 0x1e; 0x00; 0x00; 0x00; 0x00; 0x00; 0x00; 0x10; 0x10; 0x10];
  [0x10; 0x10; 0x10; 0xfe; 0x00; 0x00; 0x00; 0x00; 0x00; 0x00; 0x00; 0x00];
  [0x00; 0x00; 0x00; 0x00; 0xfe; 0x10; 0x10; 0x10; 0x10; 0x10; 0x10; 0x10];
  [0x10; 0x10; 0x10; 0x10; 0x10; 0x1e; 0x10; 0x10; 0x10; 0x10; 0x10; 0x10];
  [0x00; 0x00; 0x00; 0x00; 0x00; 0x00; 0xfe; 0x00; 0x00; 0x00; 0x00; 0x00];
  [0x00; 0x10; 0x10; 0x10; 0x10; 0x10; 0x10; 0xfe; 0x10; 0x10; 0x10; 0x10];
  [0x10; 0x10; 0x00; 0x00; 0x34; 0x58; 0x00; 0x38; 0x44; 0x44; 0x44; 0x38];
  [0x00; 0x00; 0x00; 0x00; 0x00; 0x00; 0x04; 0x38; 0x4c; 0x54; 0x54; 0x64];
  [0x38; 0x40; 0x00; 0x00; 0x00; 0x08; 0x10; 0x00; 0x44; 0x44; 0x44; 0x44];
  [0x44; 0x3c; 0x04; 0x04; 0x38; 0x00; 0x00; 0x40; 0x40; 0x78; 0x44; 0x44];
  [0x44; 0x44; 0x78; 0x40; 0x40; 0x00; 0x00; 0x04; 0x7c; 0x44; 0x48; 0x7c];
  [0x48; 0x50; 0x50; 0x7c; 0x20; 0x20; 0x00; 0x00; 0x00; 0x00; 0x08; 0x38];
  [0x54; 0x7c; 0x50; 0x64; 0x38; 0x20; 0x00; 0x00; 0x00; 0x10; 0x28; 0x44];
  [0x00; 0x00; 0x00; 0x00; 0x00; 0x00; 0x00; 0x00; 0x00; 0x00; 0x00; 0x34];
  [0x58; 0x00; 0x00; 0x00; 0x00; 0x00; 0x00; 0x00; 0x00; 0x00; 0x00; 0x00];
  [0x00; 0x00; 0x10; 0x28; 0x28; 0x44; 0x7c; 0x00; 0x00; 0x00; 0x00; 0x00];
  [0x00; 0x10; 0x10; 0x28; 0x28; 0x28; 0x44; 0x44; 0x44; 0x00; 0x00; 0x00];
  [0x00; 0x00; 0x7c; 0x00; 0x00; 0x38; 0x00; 0x00; 0x00; 0x7c; 0x00; 0x00];
  [0x00; 0x00; 0x00; 0x7c; 0x44; 0x44; 0x44; 0x44; 0x44; 0x44; 0x44; 0x00];
  [0x00; 0x00; 0x00; 0x00; 0x44; 0x44; 0x44; 0x28; 0x10; 0x10; 0x10; 0x10];
  [0x00; 0x00; 0x00; 0x00; 0x00; 0x54; 0x54; 0x54; 0x54; 0x54; 0x38; 0x10];
  [0x10; 0x00; 0x00; 0x00; 0x00; 0x28; 0x00; 0x38; 0x10; 0x10; 0x10; 0x10];
  [0x10; 0x38; 0x00; 0x00; 0x00; 0x00; 0x28; 0x00; 0x44; 0x44; 0x28; 0x10];
  [0x10; 0x10; 0x10; 0x00; 0x00; 0x00; 0x00; 0x08; 0x10; 0x00; 0x34; 0x4c];
  [0x48; 0x48; 0x48; 0x34; 0x00; 0x00; 0x00; 0x00; 0x00; 0x78; 0x44; 0x44];
  [0x58; 0x44; 0x44; 0x44; 0x78; 0x40; 0x40; 0x40; 0x00; 0x00; 0x00; 0x04];
  [0x04; 0x38; 0x58; 0x18; 0x18; 0x28; 0x28; 0x38; 0x10; 0x10; 0x10; 0x10];
  [0x10; 0x10; 0x10; 0xf0; 0x00; 0x00; 0x00; 0x00; 0x00; 0x00; 0x00; 0x00];
  [0x00; 0x00; 0x00; 0x00; 0x1e; 0x10; 0x10; 0x10; 0x10; 0x10; 0x10; 0xfe];
  [0xfe; 0xfe; 0xfe; 0xfe; 0xfe; 0xfe; 0xfe; 0xfe; 0xfe; 0xfe; 0xfe; 0xfe];
  [0x00; 0x00; 0x00; 0x00; 0x00; 0x00; 0xfe; 0xfe; 0xfe; 0xfe; 0xfe; 0xfe];
  [0xfe; 0xf0; 0xf0; 0xf0; 0xf0; 0xf0; 0xf0; 0xf0; 0xf0; 0xf0; 0xf0; 0xf0];
  [0xf0; 0xf0; 0x1e; 0x1e; 0x1e; 0x1e; 0x1e; 0x1e; 0x1e; 0x1e; 0x1e; 0x1e];
  [0x1e; 0x1e; 0x1e; 0xfe; 0xfe; 0xfe; 0xfe; 0xfe; 0xfe; 0xfe; 0x00; 0x00];
  [0x00; 0x00; 0x00; 0x00; 0x00; 0x00; 0x00; 0x00; 0x34; 0x4c; 0x48; 0x48];
  [0x48; 0x34; 0x00; 0x00; 0x00; 0x00; 0x00; 0x30; 0x48; 0x48; 0x50; 0x4c];
  [0x44; 0x44; 0x58; 0x00; 0x00; 0x00; 0x00; 0x00; 0x7c; 0x40; 0x40; 0x40];
  [0x40; 0x40; 0x40; 0x40; 0x00; 0x00; 0x00; 0x00; 0x00; 0x00; 0x00; 0x7c];
  [0x28; 0x28; 0x28; 0x28; 0x24; 0x00; 0x00; 0x00; 0x00; 0x00; 0x7c; 0x44];
  [0x20; 0x10; 0x10; 0x20; 0x44; 0x7c; 0x00; 0x00; 0x00; 0x00; 0x00; 0x00];
  [0x00; 0x3c; 0x48; 0x44; 0x44; 0x44; 0x38; 0x00; 0x00; 0x00; 0x00; 0x00];
  [0x00; 0x00; 0x24; 0x24; 0x24; 0x24; 0x34; 0x28; 0x20; 0x40; 0x00; 0x00];
  [0x00; 0x00; 0x00; 0x7c; 0x10; 0x10; 0x10; 0x10; 0x0c; 0x00; 0x00; 0x00];
  [0x00; 0x00; 0x10; 0x10; 0x38; 0x54; 0x54; 0x54; 0x38; 0x10; 0x10; 0x00];
  [0x00; 0x00; 0x00; 0x38; 0x44; 0x44; 0x44; 0x7c; 0x44; 0x44; 0x38; 0x00];
  [0x00; 0x00; 0x00; 0x00; 0x38; 0x44; 0x44; 0x44; 0x44; 0x6c; 0x28; 0x6c];
  [0x00; 0x00; 0x00; 0x00; 0x00; 0x00; 0x7c; 0x40; 0x38; 0x44; 0x44; 0x44];
  [0x38; 0x00; 0x00; 0x00; 0x00; 0x00; 0x00; 0x00; 0x00; 0x6c; 0x92; 0x92];
  [0x6c; 0x00; 0x00; 0x00; 0x00; 0x00; 0x00; 0x00; 0x00; 0x18; 0x54; 0x54];
  [0x54; 0x54; 0x38; 0x10; 0x10; 0x10; 0x00; 0x00; 0x00; 0x00; 0x38; 0x44];
  [0x30; 0x40; 0x44; 0x38; 0x00; 0x00; 0x00; 0x00; 0x00; 0x00; 0x7c; 0x18];
  [0x20; 0x40; 0x40; 0x40; 0x3c; 0x04; 0x08; 0x00; 0x00; 0x00; 0x00; 0x00];
  [0x7c; 0x00; 0x7c; 0x00; 0x7c; 0x00; 0x00; 0x00; 0x00; 0x00; 0x00; 0x00];
  [0x10; 0x10; 0x7c; 0x10; 0x10; 0x00; 0x7c; 0x00; 0x00; 0x00; 0x00; 0x00];
  [0x00; 0x60; 0x18; 0x04; 0x18; 0x60; 0x00; 0x7c; 0x00; 0x00; 0x00; 0x00];
  [0x00; 0x00; 0x0c; 0x30; 0x40; 0x30; 0x0c; 0x00; 0x7c; 0x00; 0x00; 0x00];
  [0x00; 0x00; 0x00; 0x00; 0x78; 0x44; 0x44; 0x44; 0x44; 0x44; 0x04; 0x04];
  [0x00; 0x00; 0x00; 0x00; 0x00; 0x38; 0x44; 0x44; 0x7c; 0x44; 0x38; 0x00];
  [0x00; 0x00; 0x00; 0x00; 0x00; 0x00; 0x10; 0x00; 0x7c; 0x00; 0x10; 0x00];
  [0x00; 0x00; 0x00; 0x00; 0x00; 0x00; 0x00; 0x30; 0x10; 0x10; 0x10; 0x10];
  [0x08; 0x00; 0x00; 0x00; 0x00; 0x00; 0x30; 0x48; 0x48; 0x30; 0x00; 0x00];
  [0x00; 0x00; 0x00; 0x00; 0x00; 0x00; 0x00; 0x00; 0x00; 0x00; 0x10; 0x38];
  [0x10; 0x00; 0x00; 0x00; 0x00; 0x00; 0x00; 0x00; 0x00; 0x00; 0x00; 0x10];
  [0x38; 0x10; 0x00; 0x00; 0x00; 0x00; 0x00; 0x00; 0x00; 0x00; 0x1c; 0x10];
  [0x50; 0x50; 0x20; 0x20; 0x00; 0x00; 0x00; 0x00; 0x00; 0x00; 0x00; 0x00];
  [0x44; 0x48; 0x50; 0x70; 0x48; 0x44; 0x00; 0x00; 0x00; 0x00; 0x30; 0x48];
  [0x10; 0x20; 0x78; 0x00; 0x00; 0x00; 0x00; 0x00; 0x00; 0x00; 0x00; 0x00];
  [0x00; 0xfe; 0xfe; 0xfe; 0xfe; 0xfe; 0xfe; 0xfe; 0x00; 0x00; 0x00; 0x00];
  [0x00; 0x60; 0x10; 0x10; 0x10; 0x28; 0x28; 0x44; 0x44; 0x00; 0x00; 0x00];
  [0x00; 0x00; 0x00; 0x00; 0x58; 0x44; 0x24; 0x24; 0x18; 0x10; 0x00; 0x00];
  [0x00; 0x00; 0x00; 0x00; 0x7c; 0x20; 0x3c; 0x40; 0x40; 0x40; 0x3c; 0x04];
  [0x08; 0x00; 0x00; 0x00; 0x00; 0x00; 0x38; 0x44; 0x44; 0x44; 0x44; 0x38];
  [0x00; 0x00; 0x00; 0x00; 0x00; 0x00; 0x00; 0x38; 0x44; 0x44; 0x44; 0x64];
  [0x58; 0x40; 0x40; 0x40; 0x00; 0x00; 0x00; 0x00; 0x38; 0x44; 0x40; 0x40];
  [0x40; 0x3c; 0x04; 0x04; 0x08; 0x00; 0x00; 0x00; 0x00; 0x48; 0x44; 0x44];
  [0x44; 0x48; 0x30; 0x00; 0x00; 0x00; 0x00; 0x00; 0x00; 0x00; 0x44; 0x24];
  [0x28; 0x10; 0x10; 0x28; 0x48; 0x44; 0x00; 0x00; 0x00; 0x00; 0x00; 0x54];
  [0x54; 0x54; 0x54; 0x54; 0x38; 0x10; 0x10; 0x10; 0x00; 0x00; 0x00; 0x00];
  [0x28; 0x44; 0x44; 0x54; 0x54; 0x28; 0x00; 0x00; 0x00; 0x00; 0x00; 0x30];
  [0x48; 0x48; 0x50; 0x4c; 0x44; 0x44; 0x58; 0x40; 0x40; 0x40; 0x00; 0x00];
  [0x00; 0x00; 0x00; 0x00; 0xfe; 0x00; 0x00; 0x00; 0x00; 0x00; 0x00; 0x28];
  [0x28; 0x28; 0x28; 0x28; 0x28; 0x28; 0x28; 0x28; 0x28; 0x28; 0x28; 0x28];
  [0x00; 0x00; 0x00; 0x00; 0x00; 0x00; 0x00; 0x00; 0x00; 0xfe; 0x00; 0xfe];
  [0x00; 0x00; 0x08; 0x10; 0x10; 0x18; 0x00; 0x00; 0x00; 0x00; 0x00; 0x00];
  [0x00; 0x00; 0x00; 0x30; 0x10; 0x10; 0x20; 0x00; 0x00; 0x00; 0x00; 0x00];
  [0x00; 0x00; 0x00; 0x00; 0x00; 0x00; 0x00; 0x00; 0x00; 0x00; 0x00; 0x30];
  [0x10; 0x10; 0x20; 0x00; 0x00; 0x30; 0x20; 0x20; 0x10; 0x00; 0x00; 0x00];
  [0x00; 0x00; 0x00; 0x00; 0x00; 0x00; 0x24; 0x48; 0x48; 0x6c; 0x00; 0x00];
  [0x00; 0x00; 0x00; 0x00; 0x00; 0x00; 0x00; 0x6c; 0x24; 0x24; 0x48; 0x00];
  [0x00; 0x00; 0x00; 0x00; 0x00; 0x00; 0x00; 0x00; 0x00; 0x00; 0x00; 0x00];
  [0x00; 0x00; 0x00; 0x6c; 0x24; 0x24; 0x48; 0x00; 0x00; 0x6c; 0x48; 0x48];
  [0x24; 0x00; 0x00; 0x00; 0x00; 0x00; 0x00; 0x00; 0x00; 0x00; 0x00; 0x10];
  [0x10; 0x7c; 0x10; 0x10; 0x10; 0x10; 0x10; 0x10; 0x00; 0x00; 0x00; 0x00];
  [0x10; 0x10; 0x7c; 0x10; 0x10; 0x10; 0x7c; 0x10; 0x10; 0x00; 0x00; 0x00];
  [0x00; 0x00; 0x00; 0x40; 0x60; 0x70; 0x60; 0x40; 0x00; 0x00; 0x00; 0x00];
  [0x00; 0x00; 0x00; 0x00; 0x00; 0x00; 0x00; 0x00; 0x00; 0x10; 0x00; 0x00];
  [0x00; 0x00; 0x00; 0x00; 0x00; 0x00; 0x00; 0x00; 0x00; 0x00; 0x28; 0x00];
  [0x00; 0x00; 0x00; 0x00; 0x00; 0x00; 0x00; 0x00; 0x00; 0x00; 0x00; 0x54];
  [0x00; 0x00; 0x00; 0x00; 0x00; 0x00; 0x00; 0x00; 0x00; 0x10; 0x00; 0x00];
  [0x00; 0x00; 0x00; 0x00; 0x00; 0x20; 0x50; 0x24; 0x08; 0x10; 0x20; 0x54];
  [0x2a; 0x14; 0x00; 0x00; 0x00; 0x00; 0x10; 0x20; 0x00; 0x00; 0x00; 0x00];
  [0x00; 0x00; 0x00; 0x00; 0x00; 0x00; 0x00; 0x14; 0x28; 0x00; 0x00; 0x00];
  [0x00; 0x00; 0x00; 0x00; 0x00; 0x00; 0x00; 0x00; 0x54; 0xa8; 0x00; 0x00];
  [0x00; 0x00; 0x00; 0x00; 0x00; 0x00; 0x00; 0x00; 0x00; 0x20; 0x10; 0x00];
  [0x00; 0x00; 0x00; 0x00; 0x00; 0x00; 0x00; 0x00; 0x00; 0x00; 0x28; 0x14];
  [0x00; 0x00; 0x00; 0x00; 0x00; 0x00; 0x00; 0x00; 0x00; 0x00; 0x00; 0xa8];
  [0x54; 0x00; 0x00; 0x00; 0x00; 0x00; 0x00; 0x00; 0x00; 0x00; 0x00; 0x00];
  [0x00; 0x00; 0x00; 0x00; 0x00; 0x00; 0x10; 0x28; 0x44; 0x00; 0x00; 0x00];
  [0x00; 0x00; 0x00; 0x00; 0x10; 0x20; 0x40; 0x20; 0x10; 0x00; 0x00; 0x00];
  [0x00; 0x00; 0x00; 0x00; 0x00; 0x40; 0x20; 0x10; 0x20; 0x40; 0x00; 0x00];
  [0x00; 0x00; 0x00; 0x00; 0x00; 0x18; 0x24; 0x70; 0x20; 0x70; 0x24; 0x18];
  [0x00; 0x00; 0x00; 0x00; 0x00; 0x00; 0x38; 0x24; 0x24; 0x78; 0x20; 0x78];
  [0x20; 0x00; 0x00; 0x00; 0x00; 0x1c; 0x94; 0x94; 0xdc; 0xc0; 0xbc; 0xb0];
  [0x90; 0x90; 0x00; 0x00; 0x00; 0x00; 0x00; 0xfe; 0x5e; 0x52; 0x00; 0x00];
  [0x00; 0x00; 0x00; 0x00; 0x00; 0x00; 0x00; 0x00; 0x44; 0x44; 0x44; 0x28];
  [0x28; 0x28; 0x10; 0x10; 0x00; 0x00; 0x00; 0x00; 0x00; 0x00; 0x00; 0x70];
  [0x60; 0x50; 0x08; 0x04; 0x00; 0x00; 0x00; 0x00; 0x00; 0x00; 0x00; 0x00];
  [0x1c; 0x0c; 0x14; 0x20; 0x40; 0x00; 0x00; 0x00; 0x00; 0x00; 0x00; 0x00];
  [0x00; 0x40; 0x20; 0x14; 0x0c; 0x1c; 0x00; 0x00; 0x00; 0x00; 0x00; 0x00];
  [0x00; 0x00; 0x04; 0x08; 0x50; 0x60; 0x70; 0x00; 0x00; 0x00; 0x00; 0x00];
  [0x00; 0x00; 0x00; 0x24; 0x64; 0xfe; 0x68; 0x28; 0x00; 0x00; 0x00; 0x00];
  [0x00; 0x00; 0x00; 0x00; 0x28; 0x2c; 0xfe; 0x4c; 0x48; 0x00; 0x00; 0x00];
  [0x00; 0x00; 0x00; 0x20; 0x7c; 0x24; 0x04; 0x04; 0x00; 0x00; 0x00; 0x00];
  [0x00; 0x00; 0x00; 0x00; 0x08; 0x7c; 0x48; 0x40; 0x40; 0x00; 0x00; 0x00];
  [0x00; 0x00; 0x00; 0x00; 0x00; 0x00; 0x04; 0x04; 0x24; 0x7c; 0x20; 0x00];
  [0x00; 0x00; 0x00; 0x00; 0x00; 0x00; 0x00; 0x40; 0x40; 0x48; 0x7c; 0x08];
  [0x00; 0x00; 0x00; 0x00; 0x00; 0x00; 0x00; 0x00; 0x78; 0x08; 0x08; 0x1c];
  [0x08; 0x00; 0x00; 0x00; 0x00; 0x00; 0x00; 0x00; 0x00; 0x04; 0x04; 0x24];
  [0x7c; 0x20; 0x00; 0x00; 0x00; 0x00; 0x00; 0x00; 0x00; 0x00; 0x00; 0x10];
  [0x3c; 0x60; 0x3c; 0x10; 0x00; 0x00; 0x00; 0x00; 0x00; 0x00; 0x00; 0x10];
  [0x38; 0x6c; 0x28; 0x28; 0x28; 0x28; 0x00; 0x00; 0x00; 0x00; 0x00; 0x00];
  [0x00; 0x10; 0x78; 0x0c; 0x78; 0x10; 0x00; 0x00; 0x00; 0x00; 0x00; 0x00];
  [0x00; 0x28; 0x28; 0x28; 0x28; 0x6c; 0x38; 0x10; 0x00; 0x00; 0x00; 0x00];
  [0x00; 0x00; 0x00; 0x28; 0x7c; 0xc6; 0x7c; 0x28; 0x00; 0x00; 0x00; 0x00];
  [0x00; 0x00; 0x00; 0x10; 0x38; 0x6c; 0x28; 0x6c; 0x38; 0x10; 0x00; 0x00];
  [0x00; 0x00; 0x00; 0x00; 0x00; 0x10; 0x20; 0x54; 0x20; 0x10; 0x00; 0x00];
  [0x00; 0x00; 0x00; 0x00; 0x00; 0x10; 0x28; 0x54; 0x00; 0x10; 0x00; 0x10];
  [0x00; 0x00; 0x00; 0x00; 0x00; 0x00; 0x00; 0x10; 0x08; 0x54; 0x08; 0x10];
  [0x00; 0x00; 0x00; 0x00; 0x00; 0x00; 0x00; 0x10; 0x00; 0x10; 0x00; 0x54];
  [0x28; 0x10; 0x00; 0x00; 0x00; 0x00; 0x00; 0x00; 0x44; 0x44; 0x38; 0x28];
  [0x28; 0x10; 0x10; 0x00; 0x00; 0x00; 0x00; 0x00; 0x00; 0x7c; 0x04; 0x04];
  [0x3c; 0x04; 0x04; 0x7c; 0x00; 0x00; 0x00; 0x00; 0x00; 0x04; 0x7c; 0x0c];
  [0x14; 0x3c; 0x14; 0x24; 0x7c; 0x40; 0x00; 0x00; 0x00; 0x00; 0x00; 0x04];
  [0x38; 0x4c; 0x54; 0x64; 0x38; 0x40; 0x00; 0x00; 0x00; 0x00; 0x00; 0x00];
  [0x00; 0x7c; 0x44; 0x28; 0x28; 0x10; 0x00; 0x00; 0x00; 0x00; 0x00; 0x00];
  [0x00; 0x00; 0x3c; 0x40; 0x7c; 0x40; 0x3c; 0x00; 0x00; 0x00; 0x00; 0x00];
  [0x00; 0x00; 0x08; 0x3c; 0x48; 0x7c; 0x50; 0x3c; 0x10; 0x00; 0x00; 0x00];
  [0x00; 0x00; 0x00; 0x00; 0x38; 0x40; 0x78; 0x40; 0x38; 0x00; 0x00; 0x00];
  [0x00; 0x00; 0x00; 0x00; 0x00; 0x78; 0x04; 0x7c; 0x04; 0x78; 0x00; 0x00];
  [0x00; 0x00; 0x00; 0x00; 0x00; 0x10; 0x78; 0x14; 0x7c; 0x24; 0x78; 0x20];
  [0x00; 0x00; 0x00; 0x00; 0x00; 0x00; 0x00; 0x38; 0x04; 0x3c; 0x04; 0x38];
  [0x00; 0x00; 0x00; 0x00; 0x00; 0x00; 0x00; 0x00; 0x00; 0x00; 0x38; 0x38];
  [0x38; 0x38; 0x00; 0x00; 0x00; 0x7c; 0x44; 0x44; 0x44; 0x44; 0x44; 0x44];
  [0x44; 0x44; 0x44; 0x00; 0x00; 0x00; 0x44; 0x44; 0x44; 0x44; 0x44; 0x44];
  [0x44; 0x44; 0x44; 0x7c; 0x00; 0x00; 0x00; 0x00; 0x00; 0x00; 0x00; 0x10];
  [0x54; 0x38; 0x54; 0x10; 0x00; 0x00; 0x00; 0x00; 0x00; 0x00; 0x00; 0x00];
  [0x00; 0x10; 0x28; 0x10; 0x00; 0x00; 0x00; 0x00; 0x00; 0x00; 0x28; 0x28];
  [0x28; 0x28; 0x28; 0x28; 0x28; 0x28; 0x28; 0x28; 0x00; 0x00; 0x00; 0x28];
  [0x28; 0x28; 0x2c; 0x38; 0x68; 0x28; 0x28; 0x28; 0x28; 0x00; 0x00; 0x00];
  [0x00; 0x00; 0x00; 0x08; 0x7c; 0x10; 0x7c; 0x20; 0x00; 0x00; 0x00; 0x00];
  [0x00; 0x00; 0x00; 0x00; 0x00; 0x00; 0x00; 0x00; 0x00; 0x00; 0x00; 0xfe];
  [0xfe; 0x00; 0x00; 0x00; 0x00; 0x00; 0x00; 0x00; 0x00; 0x00; 0xfe; 0xfe];
  [0xfe; 0xfe; 0x00; 0x00; 0x00; 0x00; 0x00; 0x00; 0x00; 0x00; 0xfe; 0xfe];
  [0xfe; 0xfe; 0xfe; 0x00; 0x00; 0x00; 0x00; 0xfe; 0xfe; 0xfe; 0xfe; 0xfe];
  [0xfe; 0xfe; 0xfe; 0xfe; 0x00; 0x00; 0xfe; 0xfe; 0xfe; 0xfe; 0xfe; 0xfe];
  [0xfe; 0xfe; 0xfe; 0xfe; 0xfe; 0x00; 0xfe; 0xfe; 0xfe; 0xfe; 0xfe; 0xfe];
  [0xfe; 0xfe; 0xfe; 0xfe; 0xfe; 0xfe; 0xfc; 0xfc; 0xfc; 0xfc; 0xfc; 0xfc];
  [0xfc; 0xfc; 0xfc; 0xfc; 0xfc; 0xfc; 0xfc; 0xf8; 0xf8; 0xf8; 0xf8; 0xf8];
  [0xf8; 0xf8; 0xf8; 0xf8; 0xf8; 0xf8; 0xf8; 0xf8; 0xf0; 0xf0; 0xf0; 0xf0];
  [0xf0; 0xf0; 0xf0; 0xf0; 0xf0; 0xf0; 0xf0; 0xf0; 0xf0; 0xe0; 0xe0; 0xe0];
  [0xe0; 0xe0; 0xe0; 0xe0; 0xe0; 0xe0; 0xe0; 0xe0; 0xe0; 0xe0; 0xc0; 0xc0];
  [0xc0; 0xc0; 0xc0; 0xc0; 0xc0; 0xc0; 0xc0; 0xc0; 0xc0; 0xc0; 0xc0; 0x80];
  [0x80; 0x80; 0x80; 0x80; 0x80; 0x80; 0x80; 0x80; 0x80; 0x80; 0x80; 0x80];
  [0x00; 0x00; 0x00; 0xfe; 0x82; 0x82; 0x82; 0x82; 0x82; 0xfe; 0x00; 0x00];
  [0x00; 0x00; 0x00; 0x00; 0x20; 0x20; 0x20; 0x38; 0x28; 0x28; 0x30; 0x00];
  [0x00; 0x00; 0x00; 0x00; 0x00; 0x20; 0x20; 0x38; 0x28; 0x28; 0x38; 0x08];
  [0x08; 0x00; 0x00; 0x00; 0x00; 0x00; 0x08; 0x2c; 0x38; 0x68; 0x2c; 0x38];
  [0x68; 0x20; 0x00; 0x00; 0x00; 0x00; 0x0c; 0x0c; 0x18; 0x18; 0x30; 0x18];
  [0x18; 0x0c; 0x0c; 0x00; 0x00; 0x00; 0x00; 0x30; 0x30; 0x18; 0x18; 0x0c];
  [0x18; 0x18; 0x30; 0x30; 0x00; 0x00; 0x00; 0x00; 0x08; 0x08; 0x10; 0x10];
  [0x20; 0x10; 0x10; 0x08; 0x08; 0x00; 0x00; 0x00; 0x00; 0x20; 0x20; 0x10];
  [0x10; 0x08; 0x10; 0x10; 0x20; 0x20; 0x00; 0x00; 0x00; 0x00; 0x14; 0x14];
  [0x28; 0x28; 0x50; 0x28; 0x28; 0x14; 0x14; 0x00; 0x00; 0x00; 0x00; 0x50];
  [0x50; 0x28; 0x28; 0x14; 0x28; 0x28; 0x50; 0x50; 0x00; 0x00; 0x00; 0x00];
  [0x40; 0x48; 0x5c; 0x48; 0x48; 0x50; 0x20; 0x40; 0x40; 0x40; 0x00; 0x00];
  [0x00; 0x00; 0x00; 0x70; 0x7c; 0x7c; 0x7c; 0x7c; 0x00; 0x00; 0x00; 0x00];
  [0x00; 0x00; 0x00; 0x7c; 0x00; 0x78; 0x00; 0x7c; 0x00; 0x70; 0x00; 0x00];
  [0x00; 0x2b; 0xbf; 0x18; 0xde; 0x93; 0xc9; 0xb1; 0x5e; 0xdf; 0xbe; 0x72];
  [0x5a; 0xbb; 0x42; 0x64; 0xc6; 0xd8; 0x93; 0xb7; 0x15; 0x74; 0x1c; 0x8b];
  [0x64; 0x91; 0xf5; 0xde; 0x29; 0x46; 0x42; 0xec; 0x6f; 0xca; 0x20; 0x15];
  [0xf0; 0x06; 0x27; 0x61; 0x27; 0x87; 0xe0; 0x6e; 0x43; 0x50; 0xc5; 0x1b];
  [0xc5; 0xb4; 0x37; 0xc3; 0x69; 0xa6; 0xee; 0x80; 0xaf; 0x6f; 0x9b; 0x93];
  [0xa1; 0x76; 0xa1; 0x23; 0xf5; 0x24; 0x72; 0x53; 0xf3; 0x5b; 0x65; 0x19];
  [0xf4; 0xfc; 0x93; 0xdd; 0x26; 0xe8; 0xa6; 0x10; 0xf4; 0xf7; 0xc9; 0xce];
  [0x92; 0x48; 0xf6; 0x94; 0x6f; 0x60; 0xec; 0x07; 0xc4; 0xb9; 0x97; 0x6d];
  [0xa4; 0xbf; 0x11; 0x0d; 0xc6; 0xb4; 0x1f; 0x4d; 0x13; 0xb0; 0x5d; 0xba];
  [0x31; 0x27; 0x29; 0xd5; 0x8d; 0x51; 0x87; 0x6e; 0x36; 0xba; 0x00; 0x96];
  [0x7a; 0xf0; 0xc3; 0x20; 0x03; 0x7f; 0xd8; 0xda; 0x17; 0xdb; 0xc9; 0x94];
  [0x19; 0xd4; 0xbf; 0xe8; 0x83; 0xe2; 0xf6; 0x91; 0x79; 0x6a; 0xa6; 0xe1];
  [0x95; 0x38; 0xff; 0x28; 0xb2; 0xb3; 0xfc; 0xa6; 0xa7; 0xd8; 0xae; 0xf8];
  [0x54; 0xcc; 0x28; 0xdc; 0x9a; 0x6b; 0xfb; 0xde; 0x76; 0x3f; 0xd8; 0xd7];
  [0xbc; 0x21; 0x7a; 0xc8; 0x7f; 0x91; 0x71; 0x09; 0x54; 0x6d; 0x95; 0x16];
  [0xac; 0x96; 0x3c; 0xbe; 0xf5; 0xdd; 0x13; 0x8a; 0x62; 0x00; 0xb7; 0x0d];
  [0x05; 0xc2; 0xa1; 0xee; 0x8c; 0x69; 0x64; 0x32; 0x4e; 0x35; 0x9c; 0x5f];
  [0x29; 0x75; 0xcd; 0x2e; 0xb7; 0x7a; 0x24; 0xa2; 0x3e; 0x1f; 0xdf; 0x1a];
  [0xc1; 0x61; 0x8e; 0x14; 0x60; 0xa0; 0xca; 0x6b; 0xd3; 0x8d; 0xba; 0x7d];
  [0x43; 0x7f; 0x7d; 0x7d; 0xd9; 0xeb; 0x5c; 0x8b; 0x9a; 0x9c; 0x70; 0xb4];
  [0x37; 0xc4; 0x4e; 0xc9; 0x16; 0xe6; 0xee; 0xf7; 0x9e; 0x11; 0x1c; 0xa1];
  [0x12; 0x8e; 0x3b; 0x9c; 0xef; 0x92; 0x93; 0x76; 0x1e; 0x3c; 0xff; 0x8e];
  [0xdd; 0x49; 0xba; 0xd2; 0x7d; 0x97; 0x1c; 0x28; 0xb2; 0x98; 0xe2; 0x6e];
  [0x35; 0x2e; 0xaf; 0x37; 0x43; 0x39; 0x7e; 0x44; 0x72; 0x3c; 0x4b; 0xa6];
  [0xbf; 0xb1; 0x6c; 0xc2; 0x65; 0x5f; 0xa4; 0x88; 0xe6; 0xa7; 0xee; 0x02];
  [0x2c; 0xa4; 0xc4; 0xad; 0xc5; 0xc1; 0xe5; 0x37; 0xa2; 0x98; 0x9f; 0x5d];
  [0x12; 0x40; 0x5c; 0x7b; 0x80; 0x4a; 0x3d; 0xa9; 0xe5; 0xab; 0x0b; 0xd6];
  [0x92; 0x2f; 0x06; 0x79; 0x90; 0x2a; 0x9c; 0xa4; 0x4e; 0xf4; 0xc4; 0xa2];
  [0x11; 0x21; 0xc1; 0x7a; 0xb6; 0x1d; 0xa4; 0x65; 0xb4; 0xc8; 0xb4; 0x44];
  [0xc7; 0x22; 0x46; 0x14; 0x36; 0x32; 0x9e; 0x9b; 0x8c; 0x91; 0x20; 0x12];
  [0xe2; 0x27; 0x90; 0x51; 0x55; 0x34; 0xad; 0x0a; 0x0a; 0xd0; 0x10; 0xb5];
  [0x68; 0xe3; 0xf0; 0x00; 0x59; 0xf0; 0xfd; 0x5b; 0xfa; 0x06; 0x57; 0xd8];
  [0x70; 0xb4; 0x92; 0x1a; 0x2e; 0x3d; 0xaf; 0xfc; 0x83; 0xe6; 0x77; 0x79];
  [0x68; 0xc2; 0x1d; 0x25; 0xb2; 0x42; 0x87; 0x10; 0x26; 0x68; 0x15; 0xa3];
  [0x04; 0x3d; 0x94; 0x29; 0x43; 0x13; 0x25; 0x16; 0x24; 0x77; 0xb8; 0x7a];
  [0x8e; 0x7f; 0x14; 0x4b; 0x4b; 0x54; 0x15; 0x19; 0x33; 0x1b; 0x2c; 0xd5];
  [0xd3; 0xec; 0x89; 0x78; 0xb3; 0x82; 0xc4; 0xfb; 0x76; 0xab; 0xe4; 0xda];
  [0xc0; 0xb7; 0x16; 0xcc; 0x5f; 0x75; 0x5d; 0xc6; 0x98; 0x0e; 0x1f; 0x8f];
  [0xa7; 0x10; 0x85; 0xd7; 0x28; 0x00; 0xe6; 0x37; 0x2f; 0xf7; 0xd1; 0xb5];
  [0x96; 0xae; 0xc6; 0x3b; 0x37; 0x5f; 0xd2; 0x29; 0x9c; 0x1f; 0x6f; 0x00];
  [0x84; 0x76; 0xb0; 0x08; 0x67; 0x80; 0x47; 0xff; 0x5d; 0x5e; 0xf3; 0x14];
  [0x9d; 0xcb; 0x5b; 0xf8; 0x2e; 0x6e; 0xc9; 0x1e; 0x88; 0x3e; 0x9d; 0xc6];
  [0x2e; 0x7d; 0xef; 0x50; 0x5c; 0x19; 0x5f; 0xe3; 0xe5; 0xfc; 0x1b; 0x26];
  [0xef; 0xc8; 0xe0; 0x43; 0x20; 0x89; 0x58; 0x62; 0x5e; 0x79; 0xba; 0xee];
  [0x7e; 0x79; 0xf4; 0x4c; 0x72; 0xd2; 0x61; 0xba; 0x59; 0xa9; 0xdc; 0xaa];
  [0xce; 0xed; 0x52; 0x7a; 0x91; 0x6c; 0xf2; 0x16; 0x6c; 0x4f; 0xb3; 0x5a];
  [0x88; 0x1d; 0xbc; 0xed; 0x23; 0xf1; 0x06; 0x66; 0x33; 0x1a; 0x09; 0x68];
  [0x71; 0xae; 0x42; 0xcf; 0x19; 0xa5; 0x82; 0x7f; 0x27; 0xa2; 0x1b; 0x36];
  [0xe2; 0xfc; 0x04; 0xdc; 0x1e; 0x22; 0x91; 0x21; 0xdd; 0x8b; 0x71; 0x51];
  [0x6e; 0xf7; 0xce; 0xb8; 0xd8; 0xee; 0x1d; 0x77; 0x64; 0x61; 0x40; 0x22];
  [0x9f; 0x9e; 0x7d; 0x84; 0xc8; 0x47; 0x6c; 0x1b; 0x3b; 0xe6; 0x94; 0xd0];
  [0xc8; 0xb5; 0x57; 0xef; 0x34; 0xb9; 0xd5; 0x57; 0x53; 0x56; 0x87; 0x8d];
  [0x04; 0x74; 0x7f; 0x40; 0x82; 0x3e; 0x9c; 0x4b; 0xea; 0x91; 0x4b; 0x7c];
  [0x24; 0xa4; 0x21; 0xd3; 0x83; 0x67; 0x28; 0xb7; 0x7b; 0xb8; 0xda; 0xd6];
  [0x79; 0xe9; 0x15; 0x2a; 0xad; 0xc4; 0xe9; 0x6d; 0xdb; 0x59; 0xab; 0x37];
  [0x7c; 0x33; 0x69; 0x62; 0xde; 0x63; 0xc4; 0x91; 0x60; 0xe7; 0xd9; 0x48];
  [0xdc; 0xf8; 0xc3; 0x29; 0x2e; 0x84; 0x4f; 0xfb; 0xb7; 0x94; 0x6b; 0x6a];
  [0x34; 0xf4; 0xe1; 0x01; 0x14; 0x4b; 0xde; 0xf9; 0xa4; 0x6b; 0xde; 0x50];
  [0xfe; 0x13; 0x46; 0xd4; 0x08; 0xc3; 0x62; 0x3b; 0x0c; 0x54; 0xf9; 0xbf];
  [0x98; 0x9f; 0x9c; 0x92; 0x55; 0x9d; 0x65; 0xbc; 0x05; 0x63; 0x9d; 0x99];
  [0xf0; 0xc9; 0xd2; 0xd2; 0x9d; 0x4f; 0xd1; 0x0b; 0x31; 0x95; 0x2d; 0x70];
  [0x80; 0x82; 0x77; 0x50; 0x2a; 0xc0; 0x6c; 0x92; 0xd8; 0xca; 0x1f; 0xed];
  [0x94; 0x71; 0xa9; 0x39; 0x0a; 0x54; 0x18; 0x69; 0xad; 0x88; 0x11; 0xd1];
  [0x1b; 0x4f; 0xe5; 0x25; 0x2a; 0xd7; 0x05; 0xfe; 0x8f; 0x96; 0x4e; 0x21];
  [0xf3; 0x19; 0x20; 0x89; 0x63; 0x37; 0x64; 0x32; 0xf5; 0x8a; 0xb5; 0x55];
  [0xd3; 0x8a; 0xc6; 0x09; 0xf0; 0xc7; 0x74; 0xec; 0x20; 0x0f; 0xe5; 0x42];
  [0xe5; 0x60; 0x04; 0x94; 0x9a; 0x10; 0x75; 0xc8; 0x6e; 0x25; 0x34; 0xea];
  [0xbc; 0x40; 0x4a; 0x27; 0xf6; 0xd8; 0x2e; 0xad; 0x52; 0x2a; 0xcb; 0xad];
  [0xae; 0x3f; 0x3a; 0xae; 0x4f; 0x5d; 0xd8; 0xdd; 0xc1; 0x1e; 0x39; 0xfa];
  [0x0a; 0x99; 0x85; 0x67; 0x32; 0xac; 0x84; 0xc8; 0x77; 0x41; 0x1e; 0xa2];
  [0x9d; 0x88; 0x1e; 0x40; 0x07; 0x60; 0x40; 0x9b; 0x05; 0x06; 0x45; 0xf1];
  [0xbe; 0x83; 0x42; 0xf9; 0xaa; 0xd5; 0x0c; 0x89; 0x54; 0x5a; 0x1d; 0x2d];
  [0xf7; 0xd4; 0x9c; 0xac; 0x03; 0xff; 0x22; 0x0a; 0x6e; 0xbf; 0xc5; 0x9e];
  [0x09; 0x2f; 0x11; 0x63; 0x95; 0xff; 0xf5; 0x27; 0xd6; 0x69; 0x0f; 0x26];
  [0xe7; 0xb2; 0x72; 0x41; 0x31; 0x57; 0xbc; 0x59; 0xd9; 0x43; 0x9e; 0x1d];
  [0xba; 0x2c; 0x08; 0x84; 0x2a; 0xa8; 0x5a; 0x79; 0x87; 0xf8; 0xe3; 0x4a];
  [0xd1; 0x52; 0x26; 0xaf; 0xba; 0x12; 0xbf; 0x64; 0xfa; 0x84; 0x67; 0x80];
  [0x7a; 0xc6; 0xdc; 0xba; 0xcf; 0x85; 0x77; 0x63; 0xc3; 0x75; 0xdb; 0x32];
  [0xf0; 0x74; 0x5c; 0x2d; 0x25; 0x3c; 0x91; 0x7e; 0xc3; 0x5e; 0xcf; 0xbc];
  [0xb9; 0xe9; 0x30; 0x64; 0x1a; 0x1e; 0x2a; 0xef; 0x31; 0xd3; 0xeb; 0x2b];
  [0xe6; 0x35; 0x05; 0x2a; 0x32; 0xaf; 0xe1; 0x15; 0x32; 0xbb; 0xd6; 0xab];
  [0xcc; 0x09; 0xbc; 0x7b; 0xd3; 0xc0; 0xc1; 0x3e; 0x47; 0x62; 0xac; 0xaa];
  [0xc8; 0x53; 0xb9; 0x16; 0x2f; 0x60; 0x8d; 0x8d; 0xac; 0x72; 0x93; 0x5d];
  [0xf8; 0x96; 0xde; 0x06; 0x09; 0xbf; 0x34; 0x5b; 0x5a; 0xa6; 0xdf; 0x37];
  [0xfc; 0xcc; 0x09; 0x61; 0xff; 0x78; 0x96; 0x04; 0xfd; 0x26; 0x0c; 0x25];
  [0xfe; 0x35; 0xb5; 0xba; 0x58; 0x13; 0x3c; 0xe2; 0x1c; 0x9b; 0x5e; 0x53];
  [0x5d; 0x1b; 0x09; 0x64; 0xc4; 0xed; 0x89; 0x87; 0x06; 0x1d; 0x6e; 0x19];
  [0x31; 0x76; 0x56; 0xe2; 0x6d; 0x92; 0x93; 0x5f; 0x5c; 0x27; 0x06; 0xfe];
  [0x2a; 0x1e; 0xab; 0x96; 0xba; 0x51; 0x5a; 0x73; 0x66; 0x4e; 0x60; 0xe5];
  [0x18; 0xdb; 0x12; 0x3f; 0x2f; 0x9e; 0x95; 0x36; 0x75; 0x9b; 0xee; 0x0f];
  [0x68; 0x7f; 0x76; 0xbb; 0xe4; 0xb4; 0x11; 0x83; 0x83; 0x0e; 0xc0; 0x1a];
  [0x4a; 0xe9; 0xdd; 0x5f; 0x06; 0xb3; 0x0c; 0x95; 0xf1; 0xda; 0x72; 0x91];
  [0xce; 0x9e; 0x48; 0x88; 0xc7; 0x14; 0xc6; 0x3f; 0xd1; 0x57; 0x14; 0x2e];
  [0x63; 0x96; 0xdc; 0x40; 0x39; 0x50; 0x93; 0xf0; 0xb7; 0x42; 0x15; 0xfa];
  [0x84; 0x59; 0x76; 0x5a; 0xcc; 0x38; 0xa0; 0x29; 0x78; 0x63; 0x55; 0x8f];
  [0xb3; 0xc3; 0x20; 0x02; 0xb0; 0xc3; 0x43; 0x23; 0x54; 0xc5; 0x3a; 0xe5];
  [0xa2; 0x92; 0x58; 0x5d; 0xb5; 0x13; 0x55; 0x26; 0x11; 0x44; 0x6f; 0x44];
  [0xcb; 0x5d; 0x05; 0x89; 0x13; 0xcb; 0x96; 0x3b; 0xff; 0x68; 0xc7; 0x8c];
  [0xdb; 0x0f; 0xd2; 0xa0; 0x0a; 0x74; 0x76; 0x3e; 0xd7; 0x51; 0xa7; 0xa1];
  [0xea; 0xa5; 0x84; 0xed; 0xb6; 0x8c; 0x83; 0x79; 0x60; 0x2b; 0x7c; 0x19];
  [0x67; 0x6c; 0x98; 0x33; 0x69; 0x91; 0x6a; 0xe3; 0x38; 0xab; 0xce; 0x96];
  [0xf8; 0x80; 0xd2; 0x9c; 0xb0; 0x28; 0xa2; 0xf8; 0x58; 0xa6; 0x88; 0x46];
  [0x0c; 0xec; 0x4e; 0x8c; 0x60; 0x1a; 0x6c; 0x80; 0xaa; 0xb6; 0x60; 0x2f];
  [0xe4; 0xe9; 0x27; 0xe0; 0x1b; 0x5c; 0x01; 0xe2; 0xb0; 0xd8; 0x4f; 0xb4];
  [0xff; 0x6f; 0x7a; 0xe5; 0x95; 0x8d; 0x15; 0xfc; 0x5c; 0x2b; 0x4a; 0xc5];
  [0xfd; 0x88; 0x69; 0xaf; 0x82; 0xa2; 0xd8; 0xdb; 0xe4; 0x58; 0xc9; 0x96];
  [0x38; 0x87; 0x3b; 0x79; 0x00; 0x52; 0x4f; 0x7f; 0x79; 0x94; 0xdf; 0x51];
  [0x4a; 0x14; 0x77; 0x30; 0x8a; 0xf0; 0xaa; 0xd0; 0x31; 0xbf; 0xed; 0x33];
  [0xfc; 0x62; 0x52; 0xcb; 0x37; 0x78; 0x38; 0x90; 0xb6; 0x2a; 0xd7; 0x3f];
  [0xbd; 0x7c; 0x84; 0x93; 0xe3; 0xbd; 0xc2; 0xef; 0x79; 0x4f; 0xc8; 0xf5];
  [0x63; 0x7b; 0xaf; 0x61; 0x08; 0x29; 0x9b; 0x39; 0x09; 0x93; 0xb9; 0xf8];
  [0xd9; 0xe1; 0x96; 0x71; 0xce; 0xf2; 0xfe; 0x0c; 0xb5; 0xe1; 0xaa; 0x7e];
  [0xee; 0x32; 0x07; 0x75; 0x11; 0xc8; 0x16; 0x8f; 0xbe; 0xc1; 0xfe; 0x3a];
  [0x59; 0x46; 0x9f; 0xd9; 0xe4; 0x78; 0xd9; 0x48; 0x5f; 0xc6; 0x93; 0x6a];
  [0x93; 0x01; 0x34; 0x64; 0x4f; 0x41; 0x9f; 0x99; 0x59; 0x0b; 0x89; 0x19];
  [0x4a; 0x3f; 0xfe; 0xcb; 0xfc; 0x6c; 0x78; 0x2a; 0x65; 0xc7; 0x8e; 0x19];
  [0xfd; 0xbd; 0x49; 0xaf; 0x68; 0x6e; 0x6b; 0x14; 0x46; 0xcc; 0x9c; 0x50];
  [0x48; 0x3e; 0x41; 0xdd; 0xbb; 0x9b; 0x11; 0xe8; 0x41; 0x78; 0x37; 0xf1];
  [0x59; 0x44; 0x15; 0x70; 0xe4; 0x6d; 0x69; 0x2f; 0xd6; 0x35; 0x80; 0x4b];
  [0x8d; 0xf8; 0x1a; 0x23; 0xc9; 0xa6; 0x87; 0xee; 0x2c; 0x01; 0xa0; 0x30];
  [0x97; 0x2d; 0x9a; 0x58; 0x6d; 0x9d; 0x8c; 0xdc; 0x9e; 0x7a; 0x3b; 0x0e];
  [0xf5; 0x14; 0x21; 0x7b; 0x60; 0x25; 0x7c; 0x1e; 0x6b; 0xfe; 0x43; 0x7a];
  [0xab; 0x70; 0xb9; 0x2e; 0xe1; 0x4e; 0x06; 0xb4; 0x1a; 0x7d; 0x86; 0xbb];
  [0x4f; 0xbb; 0xc6; 0xa5; 0xa5; 0x59; 0x1f; 0x8e; 0x79; 0x74; 0x38; 0xc6];
  [0x45; 0x95; 0x93; 0xca; 0x24; 0x87; 0x3d; 0x13; 0x48; 0xea; 0xf7; 0x30];
  [0xf3; 0x95; 0x48; 0x8d; 0x21; 0x78; 0x2d; 0xeb; 0xef; 0xca; 0x0d; 0x74];
  [0x3d; 0xda; 0x99; 0xa7; 0x59; 0x1b; 0xed; 0x39; 0xbd; 0x20; 0xe8; 0xdd];
  [0xf8; 0xd0; 0xe1; 0x52; 0x8d; 0x2c; 0x56; 0xe4; 0xf3; 0x72; 0xeb; 0xab];
  [0xe8; 0xc1; 0x4d; 0xd8; 0xaa; 0xd8; 0x33; 0xe6; 0xe1; 0xa2; 0x09; 0x61];
  [0x32; 0x15; 0x7c; 0x90; 0x46; 0xca; 0xf7; 0x2d; 0x61; 0x69; 0x78; 0x27];
  [0xc7; 0xc4; 0xc5; 0x3e; 0x8d; 0x23; 0xa0; 0x0a; 0x01; 0x7f; 0xdb; 0x4e];
  [0xba; 0xbb; 0x74; 0x96; 0xcb; 0xdf; 0xb1; 0x14; 0xef; 0xd4; 0xe8; 0x10];
  [0xea; 0x64; 0xca; 0xbd; 0x31; 0x27; 0x6b; 0x94; 0x16; 0xf7; 0x5e; 0xae];
  [0xc6; 0x76; 0x87; 0xf5; 0xf9; 0xe6; 0xb8; 0x97; 0x17; 0xdf; 0x29; 0x3e];
  [0xdf; 0x8d; 0x15; 0xe1; 0xc3; 0xc1; 0xe1; 0xaf; 0x72; 0xe6; 0x4c; 0xaf];
  [0x46; 0x6d; 0x17; 0x14; 0xf1; 0xa9; 0xf5; 0x34; 0xda; 0xa8; 0xca; 0xc4];
  [0x3a; 0x14; 0xc5; 0x67; 0x11; 0xac; 0xe1; 0xfc; 0xf1; 0xa0; 0xdb; 0x12];
  [0x16; 0x08; 0x33; 0x09; 0x10; 0x5a; 0x3e; 0xca; 0x42; 0x49; 0x55; 0x55];
  [0x4c; 0x6a; 0x69; 0xad; 0x4e; 0xbd; 0x05; 0x92; 0xab; 0xa2; 0xd6; 0x8e];
  [0x44; 0xf8; 0x7e; 0x2c; 0xe0; 0x95; 0xac; 0xe6; 0xd4; 0x1a; 0x4a; 0x7f];
  [0x0d; 0xc8; 0x4b; 0x00; 0xc2; 0xe4; 0x39; 0xd4; 0xce; 0x24; 0x34; 0xc3];
  [0xa3; 0xc6; 0x03; 0x7b; 0x7d; 0x88; 0x09; 0xff; 0x45; 0x15; 0xaf; 0x62];
  [0x0d; 0xe1; 0x98; 0x52; 0xaa; 0x63; 0x40; 0x27; 0xe8; 0xa8; 0xc0; 0x8f];
  [0xb2; 0xc8; 0x7a; 0xda; 0xa5; 0xf5; 0xc2; 0x12; 0x38; 0xa7; 0x4a; 0xc9];
  [0xbd; 0xc0; 0xfd; 0xa1; 0xa5; 0xf5; 0x68; 0x07; 0xad; 0xd0; 0x77; 0x25];
  [0xa7; 0xb1; 0x0a; 0xe6; 0x6b; 0x54; 0x62; 0x24; 0x15; 0x80; 0x11; 0x50];
  [0x73; 0xaa; 0xfe; 0xf6; 0xcd; 0xc9; 0xf5; 0xac; 0x19; 0x2a; 0x6b; 0x6c];
  [0xb1; 0xdb; 0xc7; 0x07; 0x6d; 0x3b; 0xce; 0x1b; 0xc9; 0xd7; 0x25; 0x56];
  [0x46; 0x06; 0xe9; 0x92; 0xe7; 0x03; 0x85; 0xf3; 0xd1; 0x5b; 0xae; 0x87];
  [0x39; 0x42; 0x65; 0xe5; 0x60; 0x3f; 0x9d; 0x56; 0x88; 0x2b; 0xea; 0x27];
  [0xf7; 0xb2; 0xb4; 0x66; 0xf4; 0xff; 0x61; 0xdf; 0x92; 0xd8; 0x96; 0x95];
  [0x7c; 0x7d; 0x6a; 0x61; 0xed; 0xb4; 0x03; 0x3f; 0xc3; 0xf9; 0x3c; 0xf1];
  [0x38; 0x02; 0x48; 0x86; 0xef; 0xc5; 0x36; 0x73; 0xcc; 0x80; 0x3a; 0x19];
  [0xce; 0x34; 0x37; 0x95; 0xdb; 0x48; 0x70; 0x1c; 0xef; 0xe8; 0x92; 0x8b];
  [0xc4; 0x61; 0xf3; 0xd6; 0xa2; 0x34; 0x32; 0x33; 0x90; 0xb5; 0x49; 0x62];
  [0x72; 0x7f; 0x8e; 0x49; 0xf4; 0x17; 0xce; 0x04; 0x0a; 0xa0; 0x32; 0x4b];
  [0x1c; 0xc2; 0x9e; 0xa9; 0x19; 0xfd; 0x69; 0xfc; 0x6d; 0x17; 0xd0; 0xbe];
  [0x2c; 0x23; 0x31; 0x9a; 0x4a; 0xd9; 0xbf; 0xd7; 0x51; 0x2d; 0xfd; 0x7f];
  [0x0e; 0x65; 0x29; 0x7d; 0x96; 0x01; 0xe7; 0x67; 0x38; 0xb1; 0x65; 0x34];
  [0x8b; 0xf8; 0x0c; 0x80; 0xc2; 0xa4; 0xff; 0xc2; 0xa6; 0xff; 0xc2; 0xa8];
  [0xff; 0xc2; 0xa9; 0xff; 0xc2; 0xae; 0xff; 0xc2; 0xaf; 0xcb; 0x89; 0xff];
  [0xc2; 0xb3; 0xff; 0xe2; 0x80; 0xa2; 0xe2; 0x97; 0x8f; 0xff; 0xc2; 0xb4];
  [0xff; 0xe2; 0x97; 0x8b; 0xff; 0xc2; 0xb8; 0xff; 0xc2; 0xb9; 0xff; 0xc2];
  [0xbe; 0xff; 0xc3; 0x80; 0xff; 0xc3; 0x81; 0xff; 0xc3; 0x82; 0xff; 0xc3];
  [0x83; 0xff; 0xc3; 0x88; 0xff; 0xe2; 0x86; 0x95; 0xff; 0xc3; 0x8a; 0xff];
  [0xc2; 0xb6; 0xff; 0xc2; 0xa7; 0xff; 0xc3; 0x8b; 0xd0; 0x81; 0xff; 0xc3];
  [0x8c; 0xff; 0xe2; 0x86; 0x91; 0xe2; 0x96; 0xb2; 0xe2; 0x96; 0xb4; 0xff];
  [0xe2; 0x86; 0x93; 0xe2; 0x96; 0xbc; 0xe2; 0x96; 0xbe; 0xff; 0xe2; 0x86];
  [0x92; 0xe2; 0x96; 0xb6; 0xe2; 0x96; 0xb8; 0xff; 0xe2; 0x86; 0x90; 0xe2];
  [0x97; 0x80; 0xe2; 0x97; 0x82; 0xff; 0xc3; 0x8d; 0xff; 0xe2; 0x86; 0x94];
  [0xff; 0xc3; 0x8e; 0xff; 0xc3; 0x8f; 0xd0; 0x87; 0xff; 0x20; 0xc2; 0xa0];
  [0xe2; 0x80; 0x80; 0xe2; 0x80; 0x81; 0xe2; 0x80; 0x82; 0xe2; 0x80; 0x83];
  [0xe2; 0x80; 0x84; 0xe2; 0x80; 0x85; 0xe2; 0x80; 0x86; 0xe2; 0x80; 0x87];
  [0xe2; 0x80; 0x88; 0xe2; 0x80; 0x89; 0xe2; 0x80; 0x8a; 0xe2; 0x80; 0xaf];
  [0xff; 0x21; 0xff; 0x22; 0xff; 0x23; 0xff; 0x24; 0xff; 0x25; 0xff; 0x26];
  [0xff; 0x27; 0xff; 0x28; 0xff; 0x29; 0xff; 0x2a; 0xe2; 0x8a; 0x9b; 0xff];
  [0x2b; 0xe2; 0x8a; 0x95; 0xff; 0x2c; 0xff; 0x2d; 0xe2; 0x80; 0x92; 0xe2];
  [0x80; 0x93; 0xe2; 0x88; 0x92; 0xc2; 0xad; 0xe2; 0x80; 0x90; 0xe2; 0x80];
  [0x91; 0xe2; 0x8a; 0x96; 0xff; 0x2e; 0xe2; 0x8a; 0x99; 0xe2; 0x98; 0x90];
  [0xff; 0x2f; 0xe2; 0x8a; 0x98; 0xe2; 0x95; 0xb1; 0xff; 0x30; 0xe2; 0x93];
  [0xaa; 0xff; 0x31; 0xe2; 0x91; 0xa0; 0xff; 0x32; 0xe2; 0x91; 0xa1; 0xff];
  [0x33; 0xe2; 0x91; 0xa2; 0xff; 0x34; 0xe2; 0x91; 0xa3; 0xff; 0x35; 0xe2];
  [0x91; 0xa4; 0xff; 0x36; 0xe2; 0x91; 0xa5; 0xff; 0x37; 0xe2; 0x91; 0xa6];
  [0xff; 0x38; 0xe2; 0x91; 0xa7; 0xff; 0x39; 0xe2; 0x91; 0xa8; 0xff; 0x3a];
  [0xff; 0x3b; 0xff; 0x3c; 0xff; 0x3d; 0xe2; 0x8a; 0x9c; 0xff; 0x3e; 0xff];
  [0x3f; 0xff; 0x40; 0xff; 0x41; 0xd0; 0x90; 0xce; 0x91; 0xe2; 0x92; 0xb6];
  [0xff; 0x42; 0xd0; 0x92; 0xce; 0x92; 0xe2; 0x92; 0xb7; 0xff; 0x43; 0xd0];
  [0xa1; 0xe2; 0x92; 0xb8; 0xff; 0x44; 0xe2; 0x92; 0xb9; 0xff; 0x45; 0xd0];
  [0x95; 0xce; 0x95; 0xe2; 0x92; 0xba; 0xff; 0x46; 0xe2; 0x92; 0xbb; 0xff];
  [0x47; 0xe2; 0x92; 0xbc; 0xff; 0x48; 0xd0; 0x9d; 0xce; 0x97; 0xe2; 0x92];
  [0xbd; 0xff; 0x49; 0xd0; 0x86; 0xce; 0x99; 0xe2; 0x92; 0xbe; 0xff; 0x4a];
  [0xd0; 0x88; 0xe2; 0x92; 0xbf; 0xff; 0x4b; 0xd0; 0x9a; 0xce; 0x9a; 0xe2];
  [0x84; 0xaa; 0xe2; 0x93; 0x80; 0xff; 0x4c; 0xe2; 0x93; 0x81; 0xff; 0x4d];
  [0xd0; 0x9c; 0xce; 0x9c; 0xe2; 0x93; 0x82; 0xff; 0x4e; 0xce; 0x9d; 0xe2];
  [0x93; 0x83; 0xff; 0x4f; 0xd0; 0x9e; 0xce; 0x9f; 0xe2; 0x93; 0x84; 0xff];
  [0x50; 0xd0; 0xa0; 0xce; 0xa1; 0xe2; 0x93; 0x85; 0xff; 0x51; 0xe2; 0x93];
  [0x86; 0xff; 0x52; 0xe2; 0x93; 0x87; 0xff; 0x53; 0xd0; 0x85; 0xe2; 0x93];
  [0x88; 0xff; 0x54; 0xd0; 0xa2; 0xce; 0xa4; 0xe2; 0x93; 0x89; 0xff; 0x55];
  [0xe2; 0x93; 0x8a; 0xff; 0x56; 0xe2; 0x93; 0x8b; 0xff; 0x57; 0xe2; 0x93];
  [0x8c; 0xff; 0x58; 0xd0; 0xa5; 0xce; 0xa7; 0xe2; 0x93; 0x8d; 0xe2; 0x95];
  [0xb3; 0xff; 0x59; 0xd2; 0xae; 0xe2; 0x93; 0x8e; 0xff; 0x5a; 0xce; 0x96];
  [0xe2; 0x93; 0x8f; 0xff; 0x5b; 0xff; 0x5c; 0xe2; 0x95; 0xb2; 0xff; 0x5d];
  [0xff; 0x5e; 0xff; 0x5f; 0xff; 0x60; 0xff; 0x61; 0xd0; 0xb0; 0xe2; 0x93];
  [0x90; 0xff; 0x62; 0xe2; 0x93; 0x91; 0xff; 0x63; 0xd1; 0x81; 0xe2; 0x93];
  [0x92; 0xff; 0x64; 0xe2; 0x93; 0x93; 0xff; 0x65; 0xd0; 0xb5; 0xe2; 0x93];
  [0x94; 0xff; 0x66; 0xe2; 0x93; 0x95; 0xff; 0x67; 0xe2; 0x93; 0x96; 0xff];
  [0x68; 0xe2; 0x93; 0x97; 0xff; 0x69; 0xd1; 0x96; 0xe2; 0x93; 0x98; 0xff];
  [0x6a; 0xd1; 0x98; 0xe2; 0x93; 0x99; 0xff; 0x6b; 0xe2; 0x93; 0x9a; 0xff];
  [0x6c; 0xe2; 0x93; 0x9b; 0xff; 0x6d; 0xe2; 0x93; 0x9c; 0xff; 0x6e; 0xe2];
  [0x93; 0x9d; 0xff; 0x6f; 0xd0; 0xbe; 0xe2; 0x93; 0x9e; 0xff; 0x70; 0xd1];
  [0x80; 0xe2; 0x93; 0x9f; 0xff; 0x71; 0xe2; 0x93; 0xa0; 0xff; 0x72; 0xe2];
  [0x93; 0xa1; 0xff; 0x73; 0xd1; 0x95; 0x73; 0xe2; 0x93; 0xa2; 0xff; 0x74];
  [0xe2; 0x93; 0xa3; 0xff; 0x75; 0xe2; 0x93; 0xa4; 0xff; 0x76; 0xe2; 0x93];
  [0xa5; 0xe2; 0x98; 0x91; 0xff; 0x77; 0xe2; 0x93; 0xa6; 0xff; 0x78; 0xd1];
  [0x85; 0xe2; 0x93; 0xa7; 0xe2; 0x98; 0x92; 0xe2; 0x9c; 0x97; 0xe2; 0x9c];
  [0x98; 0xe2; 0xae; 0xbd; 0xff; 0x79; 0xd1; 0x83; 0xe2; 0x93; 0xa8; 0xff];
  [0x7a; 0xe2; 0x93; 0xa9; 0xff; 0x7b; 0xff; 0x7c; 0xff; 0x7d; 0xff; 0x7e];
  [0xff; 0xc3; 0x90; 0xc4; 0x90; 0xff; 0xc3; 0x87; 0xff; 0xc3; 0xbc; 0xff];
  [0xc3; 0xa9; 0xff; 0xc3; 0xa2; 0xff; 0xc3; 0xa4; 0xff; 0xc3; 0xa0; 0xff];
  [0xc3; 0xa5; 0xff; 0xc3; 0xa7; 0xff; 0xc3; 0xaa; 0xff; 0xc3; 0xab; 0xd1];
  [0x91; 0xff; 0xc3; 0xa8; 0xff; 0xc3; 0xaf; 0xd1; 0x97; 0xff; 0xc3; 0xae];
  [0xff; 0xc3; 0xac; 0xff; 0xc3; 0x84; 0xff; 0xc3; 0x85; 0xe2; 0x84; 0xab];
  [0xff; 0xc3; 0x89; 0xff; 0xc3; 0xa6; 0xff; 0xc3; 0x86; 0xff; 0xc3; 0xb4];
  [0xff; 0xc3; 0xb6; 0xff; 0xc3; 0xb2; 0xff; 0xc3; 0xbb; 0xff; 0xc3; 0xb9];
  [0xff; 0xc3; 0xbf; 0xff; 0xc3; 0x96; 0xff; 0xc3; 0x9c; 0xff; 0xc2; 0xa2];
  [0xff; 0xc2; 0xa3; 0xff; 0xc2; 0xa5; 0xff; 0xc3; 0x92; 0xff; 0xc3; 0x93];
  [0xff; 0xc3; 0xa1; 0xff; 0xc3; 0xad; 0xff; 0xc3; 0xb3; 0xff; 0xc3; 0xba];
  [0xff; 0xc3; 0xb1; 0xff; 0xc3; 0x91; 0xff; 0xc2; 0xaa; 0xff; 0xc2; 0xba];
  [0xff; 0xc2; 0xbf; 0xff; 0xc3; 0x94; 0xff; 0xc2; 0xac; 0xff; 0xc2; 0xbd];
  [0xff; 0xc2; 0xbc; 0xff; 0xc2; 0xa1; 0xff; 0xc2; 0xab; 0xe2; 0x89; 0xaa];
  [0xff; 0xc2; 0xbb; 0xe2; 0x89; 0xab; 0xff; 0xe2; 0x96; 0x91; 0xff; 0xe2];
  [0x96; 0x92; 0xff; 0xe2; 0x96; 0x93; 0xff; 0xe2; 0x94; 0x82; 0xe2; 0x94];
  [0x83; 0xe2; 0x95; 0xbf; 0xe2; 0x95; 0xbd; 0xe2; 0x95; 0xbb; 0xe2; 0x95];
  [0xb7; 0xe2; 0x95; 0xb9; 0xe2; 0x95; 0xb5; 0xe2; 0x95; 0x8e; 0xe2; 0x95];
  [0x8f; 0xe2; 0x94; 0x86; 0xe2; 0x94; 0x87; 0xe2; 0x94; 0x8a; 0xe2; 0x94];
  [0x8b; 0xe2; 0x95; 0x91; 0xff; 0xe2; 0x94; 0xa4; 0xe2; 0x94; 0xab; 0xe2];
  [0x94; 0xaa; 0xe2; 0x94; 0xa9; 0xe2; 0x94; 0xa8; 0xe2; 0x94; 0xa7; 0xe2];
  [0x94; 0xa6; 0xe2; 0x94; 0xa5; 0xe2; 0x95; 0xa1; 0xe2; 0x95; 0xa2; 0xe2];
  [0x95; 0xa3; 0xff; 0xc3; 0x95; 0xff; 0xc3; 0x97; 0xff; 0xc3; 0x98; 0xff];
  [0xc3; 0x99; 0xff; 0xc3; 0x9a; 0xff; 0xc3; 0x9b; 0xff; 0xc3; 0x9d; 0xff];
  [0xc3; 0x9e; 0xff; 0xc3; 0xa3; 0xff; 0xc3; 0xb0; 0xff; 0xe2; 0x94; 0x90];
  [0xe2; 0x94; 0x93; 0xe2; 0x94; 0x92; 0xe2; 0x94; 0x91; 0xe2; 0x95; 0x95];
  [0xe2; 0x95; 0x96; 0xe2; 0x95; 0x97; 0xe2; 0x95; 0xae; 0xff; 0xe2; 0x94];
  [0x94; 0xe2; 0x94; 0x97; 0xe2; 0x94; 0x96; 0xe2; 0x94; 0x95; 0xe2; 0x95];
  [0x98; 0xe2; 0x95; 0x99; 0xe2; 0x95; 0x9a; 0xe2; 0x95; 0xb0; 0xff; 0xe2];
  [0x94; 0xb4; 0xe2; 0x94; 0xbb; 0xe2; 0x94; 0xba; 0xe2; 0x94; 0xb9; 0xe2];
  [0x94; 0xb8; 0xe2; 0x94; 0xb7; 0xe2; 0x94; 0xb6; 0xe2; 0x94; 0xb5; 0xe2];
  [0x95; 0xa7; 0xe2; 0x95; 0xa8; 0xe2; 0x95; 0xa9; 0xff; 0xe2; 0x94; 0xac];
  [0xe2; 0x94; 0xb3; 0xe2; 0x94; 0xb2; 0xe2; 0x94; 0xb1; 0xe2; 0x94; 0xb0];
  [0xe2; 0x94; 0xaf; 0xe2; 0x94; 0xae; 0xe2; 0x94; 0xad; 0xe2; 0x95; 0xa4];
  [0xe2; 0x95; 0xa5; 0xe2; 0x95; 0xa6; 0xff; 0xe2; 0x94; 0x9c; 0xe2; 0x94];
  [0xa3; 0xe2; 0x94; 0xa2; 0xe2; 0x94; 0xa1; 0xe2; 0x94; 0xa0; 0xe2; 0x94];
  [0x9f; 0xe2; 0x94; 0x9e; 0xe2; 0x94; 0x9d; 0xe2; 0x95; 0x9e; 0xe2; 0x95];
  [0x9f; 0xe2; 0x95; 0xa0; 0xff; 0xe2; 0x94; 0x80; 0xe2; 0x94; 0x81; 0xe2];
  [0x95; 0xbe; 0xe2; 0x95; 0xbc; 0xe2; 0x95; 0xba; 0xe2; 0x95; 0xb6; 0xe2];
  [0x95; 0xb8; 0xe2; 0x95; 0xb4; 0xe2; 0x94; 0x84; 0xe2; 0x94; 0x85; 0xe2];
  [0x94; 0x88; 0xe2; 0x94; 0x89; 0xe2; 0x95; 0x8c; 0xe2; 0x95; 0x8d; 0xe2];
  [0x95; 0x90; 0xff; 0xe2; 0x94; 0xbc; 0xe2; 0x95; 0x8b; 0xe2; 0x95; 0x8a];
  [0xe2; 0x95; 0x89; 0xe2; 0x95; 0x88; 0xe2; 0x95; 0x87; 0xe2; 0x95; 0x86];
  [0xe2; 0x95; 0x85; 0xe2; 0x95; 0x84; 0xe2; 0x95; 0x83; 0xe2; 0x95; 0x82];
  [0xe2; 0x95; 0x81; 0xe2; 0x95; 0x80; 0xe2; 0x94; 0xbf; 0xe2; 0x94; 0xbe];
  [0xe2; 0x94; 0xbd; 0xe2; 0x95; 0xaa; 0xe2; 0x95; 0xab; 0xe2; 0x95; 0xac];
  [0xff; 0xc3; 0xb5; 0xff; 0xc3; 0xb8; 0xff; 0xc3; 0xbd; 0xff; 0xc3; 0xbe];
  [0xff; 0xc9; 0x86; 0xff; 0xc9; 0x87; 0xff; 0xcb; 0x86; 0xff; 0xcb; 0x9c];
  [0xff; 0xe2; 0x88; 0x86; 0xce; 0x94; 0xff; 0xce; 0x9b; 0xff; 0xce; 0x9e];
  [0xff; 0xce; 0xa0; 0xd0; 0x9f; 0xff; 0xce; 0xa5; 0xff; 0xce; 0xa8; 0xff];
  [0xce; 0xaa; 0xff; 0xce; 0xab; 0xff; 0xce; 0xac; 0xff; 0xce; 0xb2; 0xff];
  [0xce; 0xb3; 0xff; 0xe2; 0x94; 0x98; 0xe2; 0x94; 0x9b; 0xe2; 0x94; 0x9a];
  [0xe2; 0x94; 0x99; 0xe2; 0x95; 0x9b; 0xe2; 0x95; 0x9c; 0xe2; 0x95; 0x9d];
  [0xe2; 0x95; 0xaf; 0xff; 0xe2; 0x94; 0x8c; 0xe2; 0x94; 0x8f; 0xe2; 0x94];
  [0x8e; 0xe2; 0x94; 0x8d; 0xe2; 0x95; 0x92; 0xe2; 0x95; 0x93; 0xe2; 0x95];
  [0x94; 0xe2; 0x95; 0xad; 0xff; 0xe2; 0x96; 0x88; 0xff; 0xe2; 0x96; 0x84];
  [0xff; 0xe2; 0x96; 0x8c; 0xff; 0xe2; 0x96; 0x90; 0xff; 0xe2; 0x96; 0x80];
  [0xff; 0xce; 0xb1; 0xff; 0xc3; 0x9f; 0xff; 0xce; 0x93; 0xd0; 0x93; 0xff];
  [0xcf; 0x80; 0xff; 0xce; 0xa3; 0xff; 0xcf; 0x83; 0xff; 0xc2; 0xb5; 0xce];
  [0xbc; 0xff; 0xcf; 0x84; 0xff; 0xce; 0xa6; 0xd0; 0xa4; 0xff; 0xce; 0x98];
  [0xff; 0xce; 0xa9; 0xe2; 0x84; 0xa6; 0xff; 0xce; 0xb4; 0xff; 0xe2; 0x88];
  [0x9e; 0xff; 0xcf; 0x86; 0xff; 0xce; 0xb5; 0xff; 0xce; 0xb6; 0xff; 0xe2];
  [0x89; 0xa1; 0xff; 0xc2; 0xb1; 0xff; 0xe2; 0x89; 0xa5; 0xff; 0xe2; 0x89];
  [0xa4; 0xff; 0xce; 0xb7; 0xff; 0xce; 0xb8; 0xff; 0xc3; 0xb7; 0xff; 0xce];
  [0xb9; 0xff; 0xc2; 0xb0; 0xff; 0xe2; 0x88; 0x99; 0xff; 0xc2; 0xb7; 0xff];
  [0xe2; 0x88; 0x9a; 0xff; 0xce; 0xba; 0xff; 0xc2; 0xb2; 0xff; 0xe2; 0x96];
  [0xa0; 0xe2; 0x96; 0xae; 0xff; 0xce; 0xbb; 0xff; 0xce; 0xbd; 0xff; 0xce];
  [0xbe; 0xff; 0xce; 0xbf; 0xff; 0xcf; 0x81; 0xff; 0xcf; 0x82; 0xff; 0xcf];
  [0x85; 0xff; 0xcf; 0x87; 0xff; 0xcf; 0x88; 0xff; 0xcf; 0x89; 0xff; 0xe1];
  [0xba; 0x9e; 0xff; 0xe2; 0x80; 0x94; 0xe2; 0x80; 0x95; 0xff; 0xe2; 0x80];
  [0x96; 0xff; 0xe2; 0x80; 0x97; 0xff; 0xe2; 0x80; 0x98; 0xff; 0xe2; 0x80];
  [0x99; 0xff; 0xe2; 0x80; 0x9a; 0xff; 0xe2; 0x80; 0x9b; 0xff; 0xe2; 0x80];
  [0x9c; 0xff; 0xe2; 0x80; 0x9d; 0xff; 0xe2; 0x80; 0x9e; 0xff; 0xe2; 0x80];
  [0x9f; 0xff; 0xe2; 0x80; 0xa0; 0xff; 0xe2; 0x80; 0xa1; 0xff; 0xe2; 0x80];
  [0xa3; 0xff; 0xe2; 0x80; 0xa4; 0xff; 0xe2; 0x80; 0xa5; 0xff; 0xe2; 0x80];
  [0xa6; 0xff; 0xe2; 0x80; 0xa7; 0xff; 0xe2; 0x80; 0xb0; 0xff; 0xe2; 0x80];
  [0xb2; 0xff; 0xe2; 0x80; 0xb3; 0xff; 0xe2; 0x80; 0xb4; 0xff; 0xe2; 0x80];
  [0xb5; 0xff; 0xe2; 0x80; 0xb6; 0xff; 0xe2; 0x80; 0xb7; 0xff; 0xe2; 0x80];
  [0xb8; 0xff; 0xe2; 0x80; 0xb9; 0xff; 0xe2; 0x80; 0xba; 0xff; 0xe2; 0x82];
  [0xac; 0xff; 0xe2; 0x82; 0xbd; 0xff; 0xe2; 0x84; 0x96; 0xff; 0xe2; 0x84];
  [0xa2; 0xff; 0xe2; 0x85; 0xa4; 0xff; 0xe2; 0x86; 0x96; 0xff; 0xe2; 0x86];
  [0x97; 0xff; 0xe2; 0x86; 0x98; 0xff; 0xe2; 0x86; 0x99; 0xff; 0xe2; 0x86];
  [0x9a; 0xff; 0xe2; 0x86; 0x9b; 0xff; 0xe2; 0x86; 0xb0; 0xff; 0xe2; 0x86];
  [0xb1; 0xff; 0xe2; 0x86; 0xb2; 0xff; 0xe2; 0x86; 0xb3; 0xff; 0xe2; 0x86];
  [0xb4; 0xff; 0xe2; 0x86; 0xb5; 0xff; 0xe2; 0x87; 0x90; 0xff; 0xe2; 0x87];
  [0x91; 0xff; 0xe2; 0x87; 0x92; 0xff; 0xe2; 0x87; 0x93; 0xff; 0xe2; 0x87];
  [0x94; 0xff; 0xe2; 0x87; 0x95; 0xff; 0xe2; 0x87; 0xa0; 0xff; 0xe2; 0x87];
  [0xa1; 0xff; 0xe2; 0x87; 0xa2; 0xff; 0xe2; 0x87; 0xa3; 0xff; 0xe2; 0x88];
  [0x80; 0xff; 0xe2; 0x88; 0x83; 0xff; 0xe2; 0x88; 0x84; 0xff; 0xe2; 0x88];
  [0x85; 0xff; 0xe2; 0x88; 0x87; 0xff; 0xe2; 0x88; 0x88; 0xff; 0xe2; 0x88];
  [0x89; 0xff; 0xe2; 0x88; 0x8a; 0xff; 0xe2; 0x88; 0x8b; 0xff; 0xe2; 0x88];
  [0x8c; 0xff; 0xe2; 0x88; 0x8d; 0xff; 0xe2; 0x88; 0x8e; 0xff; 0xe2; 0x88];
  [0x8f; 0xff; 0xe2; 0x88; 0x90; 0xff; 0xe2; 0x88; 0x97; 0xff; 0xe2; 0x88];
  [0x98; 0xff; 0xe2; 0x88; 0xa5; 0xff; 0xe2; 0x88; 0xa6; 0xff; 0xe2; 0x89];
  [0xa0; 0xff; 0xe2; 0x96; 0x81; 0xff; 0xe2; 0x96; 0x82; 0xff; 0xe2; 0x96];
  [0x83; 0xff; 0xe2; 0x96; 0x85; 0xff; 0xe2; 0x96; 0x86; 0xff; 0xe2; 0x96];
  [0x87; 0xff; 0xe2; 0x96; 0x89; 0xff; 0xe2; 0x96; 0x8a; 0xff; 0xe2; 0x96];
  [0x8b; 0xff; 0xe2; 0x96; 0x8d; 0xff; 0xe2; 0x96; 0x8e; 0xff; 0xe2; 0x96];
  [0x8f; 0xff; 0xe2; 0x96; 0xa1; 0xff; 0xe2; 0x99; 0xad; 0xff; 0xe2; 0x99];
  [0xae; 0xff; 0xe2; 0x99; 0xaf; 0xff; 0xe2; 0x9d; 0xae; 0xff; 0xe2; 0x9d];
  [0xaf; 0xff; 0xe2; 0x9f; 0xa8; 0xff; 0xe2; 0x9f; 0xa9; 0xff; 0xe2; 0x9f];
  [0xaa; 0xff; 0xe2; 0x9f; 0xab; 0xff; 0xee; 0x82; 0xa0; 0xff; 0xee; 0x97];
  [0xbf; 0xff; 0xee; 0x98; 0x92; 0xff; 0xff; 0xff; 0xff; 0xff; 0xff; 0xff];
  [0xff; 0xff; 0xff; 0xff; 0xff; 0xff; 0xff; 0xff; 0xff; 0xff; 0xff; 0xff];
  [0xff; 0xff; 0xff; 0xff; 0xff; 0xff; 0xff; 0xff; 0xff; 0xff; 0xff; 0xff];
  [0xff; 0xff; 0xff; 0xff; 0xff; 0xff; 0xff; 0xff; 0xff; 0xff; 0xff; 0xff];
  [0xff; 0xff; 0xff; 0xff; 0xff; 0xff; 0xff; 0xff; 0xff; 0xff; 0xff; 0xff];
  [0xff; 0xff; 0xff; 0xff; 0xff; 0xff; 0xff; 0xff; 0xff; 0xff; 0xff; 0xff];
  [0xff; 0xff; 0xff; 0xff; 0xff; 0xff; 0xff; 0xff; 0xff; 0xff; 0xff; 0xff];
  [0xff; 0xff; 0xff; 0xff; 0xff; 0xff; 0xff; 0xff; 0xff; 0xff; 0xff; 0xff];
  [0xff; 0xff; 0xff; 0xff; 0xff; 0xff; 0xff; 0xff; 0xff; 0xff; 0xff; 0xff];
  [0xff; 0xff; 0xff; 0xff; 0xff; 0xff; 0xff; 0xff; 0xff; 0xff; 0xff; 0xff];
  [0xff; 0xff; 0xff; 0xff; 0xff; 0xff; 0xff; 0xff; 0xff; 0xff; 0xff; 0xff];
  [0xff; 0xff; 0xff; 0xff; 0xff; 0xff; 0xff; 0xff; 0xff; 0xff; 0xff; 0xff];
  [0xff; 0xff; 0xff; 0xff; 0xff; 0xff; 0xff; 0xff; 0xff]
].

Definition cozette_psf : list Z := concat cozette_psf_rows.
Definition cozette_psf_len : Z := 8745.

Definition PSF2_MAGIC : Z := 0x864AB572.

Record PSF2_Header := mk_psf2 {
  magic : Z; version : Z; headersize : Z; flags : Z;
  psf_length : Z; psf_glyphsize : Z; height : Z; width : Z;
}.

(** The [i]-th little-endian 32-bit word. *)
Definition psf_word (b : list Z) (i : nat) : Z :=
  let a k := b !!! (4 * i + k)%nat in a 0%nat + 256 * (a 1%nat + 256 * (a 2%nat + 256 * a 3%nat)).
Definition psf_header (b : list Z) : PSF2_Header :=
  mk_psf2 (psf_word b 0) (psf_word b 1) (psf_word b 2) (psf_word b 3)
    (psf_word b 4) (psf_word b 5) (psf_word b 6) (psf_word b 7).

(** [load_glyphs], and the copy of its result that [term_init] makes; the zero
    font when the magic number is wrong. *)
Definition load_glyphs (b : list Z) : font_t :=
  let header := psf_header b in
  if negb (header.(magic) =? PSF2_MAGIC) then mk_font [] 0 0 0 0
  else mk_font (drop (Z.to_nat header.(headersize)) b) header.(psf_glyphsize) header.(psf_length)
         header.(width) header.(height).

Definition term_init : M screen unit :=
  g ← gets graphics_init;
  if negb g then mret tt else modify (set_font (load_glyphs cozette_psf)).

Definition print_init : M screen unit :=
  g ← gets graphics_init;
  if negb g then mret tt else term_init.
