(* ===== verification/GraphicsTheorems.v ===== *)
(** * The properties of the graphics component

    Lines, rectangles, the terminal and its font. *)

From S2P Require Import Prelude Graphics GraphicsFacts FontData.

Module ScreenDemo.
(** A 16 x 32 frame buffer with one column of padding. *)
Definition fb : framebuffer_t := mk_framebuffer 16 32 17 0x80000.
Definition screen0 : screen :=
  mk_screen (Some fb) true {[ 0x80000 := mk_pixels (32 * 17) ∅ ]} 0 0 (load_glyphs cozette_psf) [].

Lemma screen0_ok : fb_ok screen0 fb.
Proof.
  split; [done|]. exists (mk_pixels (32 * 17) ∅). split; [by vm_compute|]. split; cbn; lia.
Qed.
End ScreenDemo.

Lemma cozette_ok : font_ok (load_glyphs cozette_psf).
Proof. split; vm_compute; try done; split; done. Qed.

(** C32. [draw_line] is the nearest-pixel line: for end points below [2^28] it
    terminates, without signed overflow, after as many pixels as the longer
    axis has steps plus one; they lead from the start to the end point, each
    one step along the longer axis (and at most one along the other) after the
    last, inside the bounding box, and none is further than half a pixel from
    the ideal line.  Pixels outside the screen are skipped by the plotting
    routine, whatever it is. *)
Theorem draw_line_spec (fuel : nat) (put : Z -> Z -> M screen unit) (sx sy ex ey : Z) :
  0 <= sx <= LINE_MAX -> 0 <= sy <= LINE_MAX -> 0 <= ex <= LINE_MAX -> 0 <= ey <= LINE_MAX ->
  Z.max (Z.abs (ex - sx)) (Z.abs (ey - sy)) < Z.of_nat fuel ->
  exists l, line_path (Z.abs (ex - sx)) (Z.abs (ey - sy)) 0 0 l /\
    Z.of_nat (length l) = Z.max (Z.abs (ex - sx)) (Z.abs (ey - sy)) + 1 /\
    forall s, line fuel put sx sy ex ey s =
      plot_all put (map (place sx sy (if sx <? ex then 1 else -1) (if sy <? ey then 1 else -1)) l) s.
Proof.
  intros Hsx Hsy Hex Hey Hf.
  destruct (line_drawn fuel put sx sy ex ey ltac:(lia) ltac:(lia) ltac:(lia) ltac:(lia) ltac:(lia) ltac:(lia) Hf)
    as (l & Hl & Heq).
  exists l. split; [done|]. split; [rewrite (path_length _ _ _ _ _ Hl); destruct (Z.leb_spec (Z.abs (ey - sy)) (Z.abs (ex - sx))); lia|].
  intros s. rewrite <-Heq. unfold LINE_MAX in *. unfold u32. by rewrite !Z.mod_small by lia.
Qed.

Lemma draw_line_spec_witness :
  exists l, line_path 5 2 0 0 l /\ Z.of_nat (length l) = 6 /\
    draw_line 10 1 7 6 5 9 ScreenDemo.screen0 =
      plot_all (fun x y => put_pixel x y 9) (map (place 1 7 1 (-1)) l) ScreenDemo.screen0.
Proof.
  destruct (draw_line_spec 10 (fun x y => put_pixel x y 9) 1 7 6 5) as (l & Hl & Hlen & Heq);
    [unfold LINE_MAX; lia..|exact eq_refl|].
  exists l. split; [exact Hl|]. split; [exact Hlen|exact (Heq ScreenDemo.screen0)].
Defined.

(** C40. [fill_rect] stores the colour in exactly the visible pixels of the
    half-open rectangle and changes nothing else; it never stores outside the
    frame buffer. *)
Theorem fill_rect_spec (s : screen) (fb : framebuffer_t) (sx sy dx dy color : Z) :
  fb_ok s fb -> 0 <= sx -> 0 <= sy ->
  exists s', fill_rect sx sy dx dy color s = Done (tt, s') /\
    painted fb (fun i => exists x y, sx <= x < dx /\ sy <= y < dy /\ at_px fb x y i) color s s'.
Proof.
  intros Hok Hx Hy. unfold fill_rect.
  destruct (for_painted fb
    (fun x i => exists y, sy <= y < sy + Z.of_nat (Z.to_nat (dy - sy)) /\ at_px fb x y i) color
    (fun ix => for_upM (Z.to_nat (dy - sy)) sy (fun iy => put_pixel ix iy color))
    (Z.to_nat (dx - sx)) sx s Hok) as (s' & E & Hp).
  { intros x t Hk Hok'.
    apply (for_painted fb (fun y i => at_px fb x y i) color (fun iy => put_pixel x iy color) _ _ t Hok').
    intros y t' Hk' Hok''. apply put_pixel_painted; [done|lia|lia]. }
  exists s'. split; [done|]. eapply painted_iff; [|exact Hp]. intros i. split.
  - intros (x & Hxr & y & Hyr & Ha). exists x, y. split_and!; try lia. done.
  - intros (x & y & Hxr & Hyr & Ha). exists x. split; [lia|]. exists y. split; [lia|done].
Qed.

Lemma fill_rect_spec_witness :
  exists s', fill_rect 14 1 20 3 5 ScreenDemo.screen0 = Done (tt, s') /\
    painted ScreenDemo.fb (fun i => exists x y, 14 <= x < 20 /\ 1 <= y < 3 /\ at_px ScreenDemo.fb x y i) 5
      ScreenDemo.screen0 s'.
Proof. apply (fill_rect_spec ScreenDemo.screen0 ScreenDemo.fb 14 1 20 3 5 ScreenDemo.screen0_ok); lia. Defined.

(** Printing any characters with a well-formed font never stores outside the
    frame buffer nor reads outside the font: it terminates normally, sends the
    characters to the serial port, moves the cursor by [next_cursor] for each,
    and changes nothing but the pixels of the frame buffer. *)
Theorem putchar_safe (s : screen) (fb : framebuffer_t) (font : font_t) (fg bg : Z) (l : list Z) :
  fb_ok s fb -> font_ok font ->
  match put_string fg bg font l s with
  | Done (_, s') =>
      fb_ok s' fb /\ keeps fb s s' /\
      (s'.(cursor_x), s'.(cursor_y)) = cursor_after fb font l (s.(cursor_x), s.(cursor_y)) /\
      s'.(serial_out) = s.(serial_out) ++ map u8 l
  | Panicked _ => True
  | Fault => False
  end.
Proof.
  intros Hok Hf.
  pose proof (safe_put_string fb s fg bg font l Hf s.(cursor_x) s.(cursor_y) s.(serial_out) s) as H.
  specialize (H ltac:(split_and!; try done; reflexivity)).
  destruct (put_string fg bg font l s) as [[[] s']| |]; [|done|done].
  destruct H as (H1 & H2 & H3 & H4 & H5). split_and!; [done|done| |done].
  rewrite H3, H4. by destruct (cursor_after _ _ _ _).
Qed.

Lemma putchar_safe_witness :
  match put_string 1 0 (load_glyphs cozette_psf) [65; 10; 66; 8; 9; 200] ScreenDemo.screen0 with
  | Done (_, s') => (s'.(cursor_x), s'.(cursor_y)) = (6, 26)
  | _ => False
  end.
Proof.
  pose proof (putchar_safe ScreenDemo.screen0 ScreenDemo.fb (load_glyphs cozette_psf) 1 0 [65; 10; 66; 8; 9; 200]
    ScreenDemo.screen0_ok cozette_ok) as H.
  destruct (put_string 1 0 _ _ _) as [[u s']| |] eqn:E; [|vm_compute in E; discriminate|done].
  destruct H as (_ & _ & -> & _). vm_compute. reflexivity.
Defined.

(** ** The right margin *)

Definition printable (font : font_t) (c : Z) : Prop :=
  c <> 13 /\ c <> 10 /\ c <> 8 /\ c <> 9 /\ u8 c < font.(glyph_count).

Lemma cursor_printable fb font l : Forall (printable font) l -> forall x y,
  in_u64 x -> cursor_after fb font l (x, y) = (u64 (x + Z.of_nat (length l) * font.(font_width)), y).
Proof.
  induction 1 as [|c l (H1 & H2 & H3 & H4 & H5) _ IH]; intros x y Hx; cbn [cursor_after length].
  - rewrite Z.add_0_r, u64_id by done. done.
  - unfold next_cursor at 1. cbn [fst snd].
    destruct (Z.eqb_spec c 13), (Z.eqb_spec c 10), (Z.eqb_spec c 8), (Z.eqb_spec c 9); try done.
    destruct (Z.leb_spec font.(glyph_count) (u8 c)); [lia|].
    rewrite IH by apply u64_range. f_equal. unfold u64. rewrite Zplus_mod_idemp_l. f_equal. lia.
Qed.

(** Text never wraps at the right margin: after printing any number of
    printable characters the cursor is still on its line, as many character
    widths further right, also when that lies outside the screen ([Putchar]
    scrolls there instead of starting a new line). *)
Theorem text_never_wraps (s : screen) (fb : framebuffer_t) (font : font_t) (fg bg : Z) (l : list Z) :
  fb_ok s fb -> font_ok font -> in_u64 s.(cursor_x) -> Forall (printable font) l ->
  match put_string fg bg font l s with
  | Done (_, s') =>
      s'.(cursor_x) = u64 (s.(cursor_x) + Z.of_nat (length l) * font.(font_width)) /\
      s'.(cursor_y) = s.(cursor_y)
  | Panicked _ => True
  | Fault => False
  end.
Proof.
  intros Hok Hf Hx Hl.
  pose proof (safe_put_string fb s fg bg font l Hf s.(cursor_x) s.(cursor_y) s.(serial_out) s) as H.
  specialize (H ltac:(split_and!; try done; reflexivity)).
  destruct (put_string fg bg font l s) as [[[] s']| |]; [|done|done].
  destruct H as (_ & _ & H3 & H4 & _). rewrite cursor_printable in H3, H4 by done. done.
Qed.

Lemma text_never_wraps_witness :
  match put_string 1 0 (load_glyphs cozette_psf) [65; 65; 65; 65; 65] ScreenDemo.screen0 with
  | Done (_, s') => s'.(cursor_x) = 30 /\ s'.(cursor_y) = 0 /\ fb_width ScreenDemo.fb = 16
  | _ => False
  end.
Proof.
  pose proof (text_never_wraps ScreenDemo.screen0 ScreenDemo.fb (load_glyphs cozette_psf) 1 0 [65; 65; 65; 65; 65]
    ScreenDemo.screen0_ok cozette_ok) as H.
  specialize (H ltac:(split; vm_compute; [discriminate|reflexivity])
    ltac:(repeat constructor; try discriminate)).
  destruct (put_string 1 0 _ _ _) as [[u s']| |] eqn:E; [|vm_compute in E; discriminate|done].
  destruct H as [-> ->]. split_and!; by vm_compute.
Defined.

(** The panic screen is blank: the rectangle's corners are exchanged, so on a
    frame buffer of any usual size nothing is painted. *)
Lemma panic_screen_blank s fb :
  s.(framebuffer_pb) = Some fb -> 200 <= fb.(fb_width) < 2 ^ 32 -> 100 <= fb.(fb_height) < 2 ^ 32 ->
  panic_screen s = Done (tt, s).
Proof.
  intros Hpb Hw Hh. unfold panic_screen. rewrite (bind_eq _ _ _ _ _ (gets_eq framebuffer_pb s)), Hpb.
  assert (100 <= fb.(fb_width) / 2 < 2 ^ 31) by (Z.div_mod_to_equations; lia).
  assert (50 <= fb.(fb_height) / 2 < 2 ^ 31) by (Z.div_mod_to_equations; lia).
  rewrite !u64_id by (unfold in_u64; lia). rewrite !u32_id by (unfold in_u32; lia).
  unfold fill_rect. by replace (Z.to_nat _) with O by lia.
Qed.

(** The font that [term_init] installs is the PSF2 file linked into the
    kernel, and it is well formed: 512 glyphs of 6 by 13 pixels, each within the
    file.  Before [init_graphics] nothing is installed. *)
Theorem term_init_font (s : screen) :
  match term_init s with
  | Done (_, s') =>
      (s.(graphics_init) = true -> font_ok s'.(current_font) /\ s'.(current_font) = load_glyphs cozette_psf /\
         glyph_count s'.(current_font) = 512 /\ font_width s'.(current_font) = 6 /\
         font_height s'.(current_font) = 13) /\
      (s.(graphics_init) = false -> s' = s) /\ s'.(vram) = s.(vram) /\ s'.(serial_out) = s.(serial_out)
  | _ => False
  end /\ Z.of_nat (length cozette_psf) = cozette_psf_len.
Proof.
  split; [|by vm_compute]. unfold term_init. rewrite (bind_eq _ _ _ _ _ (gets_eq graphics_init s)).
  destruct (graphics_init s); cbn [negb].
  - cbn [modify]. split_and!; [|done|done|done]. intros _. cbn [current_font set_font].
    split_and!; [exact cozette_ok|done|by vm_compute..].
  - split_and!; done.
Qed.
