(* ===== verification/Stdio.v ===== *)
(** * Formatted output ([kernel/lib/stdio.c])

    The serial routines, [print] on the terminal and [format] into a buffer.
    A format string is the list of its bytes without the NUL; a pointer that
    moves past the NUL is a fault.  Variadic arguments are a list of typed
    values; fetching one that is missing or of another width is a fault. *)

From S2P Require Import Prelude StringLib Graphics.

(** ** Variadic arguments *)

(** [int] and [unsigned int] (as 32 bits), [uint64_t], [const char *]. *)
Inductive va := VaInt (x : Z) | VaU64 (x : Z) | VaStr (l : list Z).

Definition va_int {S : Type} (args : list va) : M S (Z * list va) :=
  match args with VaInt x :: r => mret (x, r) | _ => fault end.
Definition va_u64 {S : Type} (args : list va) : M S (Z * list va) :=
  match args with VaU64 x :: r => mret (x, r) | _ => fault end.
Definition va_str {S : Type} (args : list va) : M S (list Z * list va) :=
  match args with VaStr l :: r => mret (l, r) | _ => fault end.

(** [hex_chars[d]] *)
Definition hex_char (d : Z) : Z := if d <? 10 then 48 + d else 55 + d.

(** ** The serial port *)

Fixpoint serial_print (str : list Z) : M screen unit :=
  match str with
  | [] => mret tt
  | c :: r => serial_putchar c ≫= fun _ => serial_print r
  end.

(** The loop of [uint64_to_hex] from [i] down: the characters of
    [buffer[2..i]] are put in front. *)
Fixpoint hex_loop (n : nat) (value : Z) (tail : list Z) : list Z :=
  match n with
  | O => tail
  | S n' => hex_loop n' (Z.shiftr value 4) (hex_char (Z.land value 15) :: tail)
  end.
Definition uint64_to_hex (value : Z) : list Z := 48 :: 120 :: hex_loop 16 value [].

Definition serial_print_hex (value : Z) : M screen unit :=
  _ ← serial_print (uint64_to_hex value);
  serial_putchar 10.

(** [while (N > 0) { buf[i++] = N % 10 + '0'; N /= 10; }] with a buffer of
    [size] bytes; the last digit stored is the first of the list. *)
Fixpoint digits_loop {S : Type} (fuel : nat) (size : nat) (v : Z) (acc : list Z) : M S (list Z) :=
  match fuel with
  | O => fault
  | S n =>
      if v =? 0 then mret acc
      else if (size <=? length acc)%nat then fault
      else digits_loop n size (v / 10) (48 + v mod 10 :: acc)
  end.

(** [N] is unsigned, so only the sign test on the truncated copy has an effect;
    after the digits the string is reversed in place. *)
Definition serial_print_dec (N : Z) : M screen unit :=
  let sign := s32 N in
  ds ← digits_loop 21 22 N [];
  str ← (if sign <? 0 then (if (22 <=? length ds)%nat then fault else mret (45 :: ds)) else mret ds);
  if (22 <=? length str)%nat then fault else serial_print str.

(** ** Printing on the terminal *)

Definition putc (c : Z) : M screen unit :=
  f ← gets current_font; Putchar c 0xffffffff 0x00102030 f.

Fixpoint print_uint_ (fuel : nat) (value : Z) : M screen unit :=
  match fuel with
  | O => fault
  | S n =>
      _ ← (if 10 <=? value then print_uint_ n (value / 10) else mret tt);
      putc (48 + value mod 10)
  end.
(** Ten digits are enough for 32 bits. *)
Definition print_uint (value : Z) : M screen unit := print_uint_ 10 value.

Definition print_int (value : Z) : M screen unit :=
  if value <? 0 then
    _ ← putc 45;
    print_uint (u32 (0 - u32 value))
  else print_uint (u32 value).

(** The nibbles [k], ..., 0. *)
Fixpoint print_nibbles (n : nat) (value : Z) : M screen unit :=
  match n with
  | O => mret tt
  | S k => putc (hex_char (Z.land (Z.shiftr value (Z.of_nat k * 4)) 15)) ≫= fun _ => print_nibbles k value
  end.
Definition print_hex (value : Z) : M screen unit :=
  _ ← putc 48; _ ← putc 120; print_nibbles 8 value.
Definition print_u64_hex (value : Z) : M screen unit :=
  _ ← putc 48; _ ← putc 120; print_nibbles 16 value.
Definition print_hex_ (num : Z) : M screen unit := print_hex num.

Fixpoint print_char (l : list Z) : M screen unit :=
  match l with
  | [] => mret tt
  | c :: r => putc c ≫= fun _ => print_char r
  end.

Definition print_u64 (value : Z) : M screen unit :=
  if value =? 0 then putc 48 else
  ds ← digits_loop 21 20 value [];
  print_char ds.

Fixpoint print_loop (fuel : nat) (format : list Z) (args : list va) : M screen unit :=
  match fuel with
  | O => fault
  | S n =>
      match format with
      | [] => mret tt
      | c :: rest =>
          if negb (c =? 37) then _ ← putc c; print_loop n rest args else
          match rest with
          | [] => mret tt
          | k :: rest' =>
              if k =? 100 then '(v, a) ← va_int args; _ ← print_int (s32 v); print_loop n rest' a
              else if k =? 117 then '(v, a) ← va_int args; _ ← print_uint (u32 v); print_loop n rest' a
              else if k =? 110 then '(v, a) ← va_u64 args; _ ← print_u64 v; print_loop n rest' a
              else if k =? 115 then '(v, a) ← va_str args; _ ← print_char v; print_loop n rest' a
              else if k =? 120 then '(v, a) ← va_int args; _ ← print_hex (u32 v); print_loop n rest' a
              else if k =? 108 then
                match rest' with
                | x :: rest'' =>
                    if x =? 120 then
                      (* format += 2, and the common format++ *)
                      '(v, a) ← va_u64 args; _ ← print_u64_hex v;
                      match rest'' with _ :: r => print_loop n r a | [] => fault end
                    else _ ← putc 37; _ ← putc 108; print_loop n rest'' args
                | [] => _ ← putc 37; _ ← putc 108; fault
                end
              else if k =? 37 then print_loop n rest' args
              else
                _ ← putc 37; _ ← putc k;
                match rest' with _ :: r => print_loop n r args | [] => fault end
          end
      end
  end.

Definition print (format : list Z) (args : list va) : M screen unit :=
  p ← gets framebuffer_pb;
  match p with
  | None => mret tt
  | Some _ => print_loop (S (length format)) format args
  end.

(** ** Formatting into a buffer *)

(** [out] and [remaining], with the memory that [out] points into. *)
Record sink := mk_sink { out : Z; remaining : Z; sink_mem : bytes }.

Definition append_char (c : Z) : M sink unit := modify (fun s =>
  if s.(remaining) <=? 1 then s else mk_sink (s.(out) + 1) (s.(remaining) - 1) (put8 s.(out) c s.(sink_mem))).

Fixpoint append_string (str : list Z) : M sink unit :=
  match str with
  | [] => mret tt
  | c :: r => append_char c ≫= fun _ => append_string r
  end.

Definition append_int (value : Z) : M sink unit :=
  n ← (if value <? 0 then _ ← append_char 45; mret (u32 (0 - u32 value)) else mret (u32 value));
  if n =? 0 then append_char 48 else
  ds ← digits_loop 21 12 n [];
  append_string ds.

Fixpoint format_loop (fuel : nat) (fmt : list Z) (args : list va) : M sink unit :=
  match fuel with
  | O => fault
  | S n =>
      match fmt with
      | [] => mret tt
      | c :: rest =>
          if negb (c =? 37) then _ ← append_char c; format_loop n rest args else
          match rest with
          | [] => (* the default case on the NUL, then fmt++ past it *)
              _ ← append_char 37; _ ← append_char 0; fault
          | k :: rest' =>
              if k =? 100 then '(v, a) ← va_int args; _ ← append_int (s32 v); format_loop n rest' a
              else if k =? 115 then '(v, a) ← va_str args; _ ← append_string v; format_loop n rest' a
              else if k =? 37 then _ ← append_char 37; format_loop n rest' args
              else _ ← append_char 37; _ ← append_char k; format_loop n rest' args
          end
      end
  end.

(** [format(buffer, size, fmt, ...)] on a byte memory. *)
Definition format (buffer size : Z) (fmt : list Z) (args : list va) : M bytes unit := fun m =>
  if size =? 0 then Done (tt, m) else
  match format_loop (S (length fmt)) fmt args (mk_sink buffer size m) with
  | Done (_, s) => Done (tt, put8 s.(out) 0 s.(sink_mem))
  | Panicked w => Panicked w
  | Fault => Fault
  end.
