(* ===== verification/StdioFacts.v ===== *)
(** * What the formatted output functions emit

    A reference rendering of formats and numbers, and the printing routines as
    emission of its result. *)

From S2P Require Import Prelude StringLib StringFacts Graphics GraphicsFacts Stdio.

(** ** Decimal numbers *)

(** The decimal digits of [v], most significant first. *)
Fixpoint dec_digits (fuel : nat) (v : Z) : list Z :=
  match fuel with
  | O => []
  | S n => (if v <? 10 then [] else dec_digits n (v / 10)) ++ [48 + v mod 10]
  end.
Definition dec (v : Z) : list Z := dec_digits 20 v.

(** Reading a digit string back. *)
Definition undec (l : list Z) : Z := fold_left (fun a d => 10 * a + (d - 48)) l 0.

Lemma undec_app l d : undec (l ++ [d]) = 10 * undec l + (d - 48).
Proof. unfold undec. by rewrite fold_left_app. Qed.

(** A digit string without superfluous zeros. *)
Record is_decimal (v : Z) (l : list Z) : Prop := {
  id_value : undec l = v;
  id_digits : Forall (fun d => 48 <= d <= 57) l;
  id_head : forall d r, l = d :: r -> r <> [] -> d <> 48;
  id_some : l <> [];
}.

Lemma dec_digits_ok n : forall v, 0 <= v < 10 ^ Z.of_nat n -> (n <> 0)%nat -> is_decimal v (dec_digits n v).
Proof.
  induction n as [|n IH]; [done|]. intros v Hv _. cbn [dec_digits].
  destruct (Z.ltb_spec v 10) as [Hs|Hs].
  - rewrite Z.mod_small by lia. split; cbn; [unfold undec; cbn; lia|repeat constructor; lia| |done].
    intros d r [= <- <-] Hr. done.
  - rewrite Nat2Z.inj_succ, Z.pow_succ_r in Hv by lia.
    assert (n <> 0)%nat as Hn by (intros ->; cbn in Hv; lia).
    assert (1 <= v / 10 < 10 ^ Z.of_nat n) as Hq by (Z.div_mod_to_equations; lia).
    destruct (IH (v / 10) ltac:(lia) Hn) as [Hu Hd Hh Hne].
    split.
    + rewrite undec_app, Hu. Z.div_mod_to_equations. lia.
    + apply Forall_app. split; [done|]. repeat constructor; Z.div_mod_to_equations; lia.
    + intros d r E Hr. destruct (dec_digits n (v / 10)) as [|d' l] eqn:El; [done|].
      injection E as <- <-. destruct l as [|e l].
      * unfold undec in Hu. cbn in Hu. lia.
      * eapply Hh; [reflexivity|done].
    + by destruct (dec_digits n (v / 10)).
Qed.

Lemma dec_ok v : in_u64 v -> is_decimal v (dec v).
Proof. unfold in_u64. intros Hv. apply dec_digits_ok; lia. Qed.

(** More fuel does not change the digits. *)
Lemma dec_digits_more n : forall m v, (n <= m)%nat -> (n <> 0)%nat -> 0 <= v < 10 ^ Z.of_nat n ->
  dec_digits m v = dec_digits n v.
Proof.
  induction n as [|n IH]; [done|]. intros [|m] v Hm _ Hv; [lia|]. cbn [dec_digits].
  destruct (Z.ltb_spec v 10); [done|]. f_equal.
  rewrite Nat2Z.inj_succ, Z.pow_succ_r in Hv by lia.
  destruct n as [|n]; [cbn in Hv; lia|]. apply IH; [lia|done|]. Z.div_mod_to_equations. lia.
Qed.

Lemma dec_digits_length n v : (length (dec_digits n v) <= n)%nat.
Proof. revert v. induction n as [|n IH]; intros v; [done|]. cbn. rewrite length_app. cbn. specialize (IH (v / 10)). case_match; cbn; lia. Qed.

Lemma digits_loop_dec {St : Type} (s : St) n : forall fuel size v acc,
  (n < fuel)%nat -> (n + length acc <= size)%nat -> 0 < v < 10 ^ Z.of_nat n ->
  digits_loop fuel size v acc s = Done (dec_digits n v ++ acc, s).
Proof.
  induction n as [|n IH]; intros fuel size v acc Hf Hs Hv; [cbn in Hv; lia|].
  destruct fuel as [|fuel]; [lia|]. cbn [digits_loop dec_digits].
  destruct (Z.eqb_spec v 0); [lia|]. destruct (Nat.leb_spec size (length acc)); [lia|].
  rewrite Nat2Z.inj_succ, Z.pow_succ_r in Hv by lia.
  destruct (Z.ltb_spec v 10) as [Hv10|Hv10].
  - rewrite Z.div_small by lia. destruct fuel as [|fuel]; [lia|]. done.
  - rewrite IH; [|lia|cbn; lia|Z.div_mod_to_equations; lia]. by rewrite <-app_assoc.
Qed.

(** ** The reference rendering *)

Definition hex_digits (n : nat) (v : Z) : list Z :=
  map (fun k => hex_char ((v / 16 ^ Z.of_nat k) mod 16)) (rev (seq 0 n)).

Definition signed_dec (v : Z) : list Z := if v <? 0 then 45 :: dec (- v) else dec v.

(** A format, read once. *)
Inductive directive :=
  | Raw (l : list Z)
  | Signed | Unsigned | Long | Text | Hex | LongHex
  | Overrun. (* the code moves past the end of the format *)

(** What follows after skipping one more character. *)
Fixpoint parse (fuel : nat) (fmt : list Z) : list directive :=
  match fuel with
  | O => [Overrun]
  | S n =>
      let skip r := match r with _ :: r' => parse n r' | [] => [Overrun] end in
      match fmt with
      | [] => []
      | c :: rest =>
          if negb (c =? 37) then Raw [c] :: parse n rest else
          match rest with
          | [] => []
          | k :: r =>
              if k =? 100 then Signed :: parse n r
              else if k =? 117 then Unsigned :: parse n r
              else if k =? 110 then Long :: parse n r
              else if k =? 115 then Text :: parse n r
              else if k =? 120 then Hex :: parse n r
              else if k =? 108 then
                match r with
                | x :: r' => if x =? 120 then LongHex :: skip r' else Raw [37; 108] :: parse n r'
                | [] => [Raw [37; 108]; Overrun]
                end
              else if k =? 37 then parse n r
              else Raw [37; k] :: skip r
          end
      end
  end.

(** The characters of the directives, and whether the run is defined. *)
Fixpoint expand (ds : list directive) (args : list va) : list Z * bool :=
  let emit l p := (l ++ p.1, p.2) in
  match ds with
  | [] => ([], true)
  | Raw l :: r => emit l (expand r args)
  | Overrun :: _ => ([], false)
  | d :: r =>
      match d, args with
      | Signed, VaInt v :: a => emit (signed_dec (s32 v)) (expand r a)
      | Unsigned, VaInt v :: a => emit (dec (u32 v)) (expand r a)
      | Long, VaU64 v :: a => emit (dec v) (expand r a)
      | Text, VaStr l :: a => emit l (expand r a)
      | Hex, VaInt v :: a => emit ([48; 120] ++ hex_digits 8 (u32 v)) (expand r a)
      | LongHex, VaU64 v :: a => emit ([48; 120] ++ hex_digits 16 v) (expand r a)
      | _, _ => ([], false)
      end
  end.

Definition va_ok (v : va) : Prop :=
  match v with VaInt x => in_u32 x | VaU64 x => in_u64 x | VaStr _ => True end.

(** ** Emission *)

Lemma print_char_app l1 l2 (k : M screen unit) s :
  (_ ← print_char (l1 ++ l2); k) s = (_ ← print_char l1; _ ← print_char l2; k) s.
Proof.
  revert s. induction l1 as [|c l1 IH]; intros s; [done|]. cbn [app print_char].
  rewrite !bind_assoc. apply bind_ext. intros _ s'. apply IH.
Qed.

Lemma putc_char c (k : M screen unit) s : (_ ← putc c; k) s = (_ ← print_char [c]; k) s.
Proof. cbn [print_char]. rewrite bind_assoc. by apply bind_ext. Qed.

(** [m] prints [l] and does nothing else, whatever follows. *)
Definition emits (m : M screen unit) (l : list Z) : Prop := forall (k : M screen unit) s,
  (_ ← m; k) s = (_ ← print_char l; k) s.

Lemma print_uint_emits fuel : forall v, 0 <= v < 10 ^ Z.of_nat fuel -> (fuel <> 0)%nat ->
  emits (print_uint_ fuel v) (dec_digits fuel v).
Proof.
  induction fuel as [|n IH]; [done|]. intros v Hv _ k s. cbn [print_uint_ dec_digits].
  rewrite Nat2Z.inj_succ, Z.pow_succ_r in Hv by lia. rewrite print_char_app, bind_assoc.
  destruct (Z.ltb_spec v 10) as [Hs|Hs].
  - destruct (Z.leb_spec 10 v); [lia|]. apply putc_char.
  - destruct (Z.leb_spec 10 v); [|lia].
    assert (n <> 0)%nat by (intros ->; cbn in Hv; lia).
    rewrite IH by (done || Z.div_mod_to_equations; lia). apply bind_ext. intros _ s'. apply putc_char.
Qed.

Lemma print_uint_dec v : in_u32 v -> emits (print_uint v) (dec v).
Proof.
  intros Hv k s. unfold print_uint, dec, in_u32 in *.
  rewrite (dec_digits_more 10 20) by lia. apply print_uint_emits; lia.
Qed.

Lemma s32_range v : - 2147483648 <= s32 v < 2147483648.
Proof. unfold s32. Z.div_mod_to_equations. lia. Qed.

Lemma u32_neg v : - 2147483648 <= v < 0 -> u32 (0 - u32 v) = - v.
Proof. unfold u32. intros. Z.div_mod_to_equations. lia. Qed.

Lemma print_int_dec v : emits (print_int (s32 v)) (signed_dec (s32 v)).
Proof.
  intros k s. pose proof (s32_range v) as Hv. unfold print_int, signed_dec.
  destruct (Z.ltb_spec (s32 v) 0).
  - rewrite u32_neg by lia. change (45 :: dec (- s32 v)) with ([45] ++ dec (- s32 v)).
    rewrite print_char_app, bind_assoc, putc_char. apply bind_ext. intros _ s'.
    apply print_uint_dec. unfold in_u32. lia.
  - rewrite u32_id by (unfold in_u32; lia). apply print_uint_dec. unfold in_u32. lia.
Qed.

Lemma nibble v k : 0 <= v -> Z.land (Z.shiftr v (Z.of_nat k * 4)) 15 = (v / 16 ^ Z.of_nat k) mod 16.
Proof.
  intros Hv. change 15 with (Z.ones 4). rewrite Z.land_ones, Z.shiftr_div_pow2 by lia.
  rewrite Z.mul_comm, Z.pow_mul_r by lia. done.
Qed.

Lemma print_nibbles_emits n v : 0 <= v -> emits (print_nibbles n v) (hex_digits n v).
Proof.
  intros Hv. induction n as [|n IH]; intros k s; [done|]. unfold hex_digits in *.
  rewrite seq_S, rev_app_distr. cbn [rev app map print_nibbles print_char]. rewrite !bind_assoc.
  rewrite nibble by done. apply bind_ext. intros _ s'. apply IH.
Qed.

Lemma print_hex_emits n v : 0 <= v ->
  emits (_ ← putc 48; _ ← putc 120; print_nibbles n v) ([48; 120] ++ hex_digits n v).
Proof.
  intros Hv k s. cbn [app print_char]. rewrite !bind_assoc. apply bind_ext. intros _ s1.
  rewrite !bind_assoc. apply bind_ext. intros _ s2. by apply print_nibbles_emits.
Qed.

Lemma print_u64_dec v : in_u64 v -> emits (print_u64 v) (dec v).
Proof.
  unfold in_u64, print_u64. intros Hv k s. destruct (Z.eqb_spec v 0) as [->|].
  - apply putc_char.
  - rewrite bind_assoc. rewrite (bind_eq _ _ _ _ _ (digits_loop_dec s 20 21 20 v [] ltac:(lia) ltac:(cbn; lia) ltac:(lia))).
    by rewrite app_nil_r.
Qed.

(** A run with its emitted characters; [false]: it ends in a fault. *)
Definition finish (p : list Z * bool) : M screen unit :=
  _ ← print_char p.1; if p.2 then mret tt else fault.

Lemma finish_app l p s : finish (l ++ p.1, p.2) s = (_ ← print_char l; finish p) s.
Proof. unfold finish. cbn [fst snd]. apply print_char_app. Qed.

Lemma emits_finish m l (k : M screen unit) p s :
  emits m l -> (forall s', k s' = finish p s') -> (_ ← m; k) s = finish (l ++ p.1, p.2) s.
Proof. intros Hm Hk. rewrite Hm, finish_app. apply bind_ext. intros _ s'. apply Hk. Qed.

Lemma emits_char c : emits (putc c) [c].
Proof. intros k s. apply putc_char. Qed.
Lemma emits_str l : emits (print_char l) l.
Proof. done. Qed.

(** The variadic argument of a directive. *)
Lemma va_int_finish args (k : Z -> list va -> M screen unit) (f : Z -> list va -> list Z * bool) s :
  (forall v a, args = VaInt v :: a -> k v a s = finish (f v a) s) ->
  ('(v, a) ← va_int args; k v a) s =
    finish (match args with VaInt v :: a => f v a | _ => ([], false) end) s.
Proof. intros Hk. destruct args as [|[v|v|l] a]; [done|by apply Hk|done|done]. Qed.
Lemma va_u64_finish args (k : Z -> list va -> M screen unit) (f : Z -> list va -> list Z * bool) s :
  (forall v a, args = VaU64 v :: a -> k v a s = finish (f v a) s) ->
  ('(v, a) ← va_u64 args; k v a) s =
    finish (match args with VaU64 v :: a => f v a | _ => ([], false) end) s.
Proof. intros Hk. destruct args as [|[v|v|l] a]; [done|done|by apply Hk|done]. Qed.
Lemma va_str_finish args (k : list Z -> list va -> M screen unit) (f : list Z -> list va -> list Z * bool) s :
  (forall v a, args = VaStr v :: a -> k v a s = finish (f v a) s) ->
  ('(v, a) ← va_str args; k v a) s =
    finish (match args with VaStr v :: a => f v a | _ => ([], false) end) s.
Proof. intros Hk. destruct args as [|[v|v|l] a]; [done|done|done|by apply Hk]. Qed.

Lemma print_loop_expand fuel : forall fmt args s,
  (length fmt < fuel)%nat -> Forall va_ok args ->
  print_loop fuel fmt args s = finish (expand (parse fuel fmt) args) s.
Proof.
  induction fuel as [|n IH]; intros fmt args s Hf Ha; [lia|]. cbn [print_loop parse].
  destruct fmt as [|c rest]; [done|]. cbn [length] in Hf.
  destruct (negb (c =? 37)).
  { apply (emits_finish _ [c] _ (expand (parse n rest) args)); [apply emits_char|]. intros s'. apply IH; [lia|done]. }
  destruct rest as [|k r]; [done|]. cbn [length] in Hf.
  assert (forall v a, args = v :: a -> va_ok v /\ Forall va_ok a) as Hargs.
  { intros v a ->. by apply Forall_cons in Ha. }
  destruct (k =? 100).
  { apply (va_int_finish args _ (fun v a => _)). intros v a E. destruct (Hargs _ _ E) as [Hv Hr].
    apply emits_finish; [apply print_int_dec|]. intros s'. apply IH; [lia|done]. }
  destruct (k =? 117).
  { apply (va_int_finish args _ (fun v a => _)). intros v a E. destruct (Hargs _ _ E) as [Hv Hr].
    apply emits_finish; [apply print_uint_dec, u32_range|]. intros s'. apply IH; [lia|done]. }
  destruct (k =? 110).
  { apply (va_u64_finish args _ (fun v a => _)). intros v a E. destruct (Hargs _ _ E) as [Hv Hr].
    apply emits_finish; [by apply print_u64_dec|]. intros s'. apply IH; [lia|done]. }
  destruct (k =? 115).
  { apply (va_str_finish args _ (fun v a => _)). intros v a E. destruct (Hargs _ _ E) as [Hv Hr].
    apply emits_finish; [apply emits_str|]. intros s'. apply IH; [lia|done]. }
  destruct (k =? 120).
  { apply (va_int_finish args _ (fun v a => _)). intros v a E. destruct (Hargs _ _ E) as [Hv Hr].
    apply emits_finish; [apply print_hex_emits; apply u32_range|]. intros s'. apply IH; [lia|done]. }
  destruct (k =? 108).
  { destruct r as [|x r]; cbn [length] in Hf.
    - cbn [expand app]. unfold finish. cbn [fst snd print_char]. rewrite !bind_assoc. apply bind_ext. intros _ s'.
      rewrite !bind_assoc. by apply bind_ext.
    - destruct (x =? 120).
      + apply (va_u64_finish args _ (fun v a => _)). intros v a E. destruct (Hargs _ _ E) as [Hv Hr].
        apply emits_finish; [apply print_hex_emits; unfold va_ok, in_u64 in Hv; lia|]. intros s'.
        destruct r as [|y r]; [done|]. cbn [length] in Hf. apply IH; [lia|done].
      + rewrite <-bind_assoc.
        apply (emits_finish _ [37; 108] _ (expand (parse n r) args)).
        * intros k' s'. cbn [print_char]. rewrite !bind_assoc. apply bind_ext. intros _ s2. apply putc_char.
        * intros s'. apply IH; [lia|done]. }
  destruct (k =? 37); [apply IH; [lia|done]|].
  rewrite <-bind_assoc.
  eapply (emits_finish _ [37; k] _ (expand (match r with _ :: r' => parse n r' | [] => [Overrun] end) args)).
  - intros k' s'. cbn [print_char]. rewrite !bind_assoc. apply bind_ext. intros _ s2. apply putc_char.
  - intros s'. destruct r as [|y r]; [done|]. cbn [length] in Hf. apply IH; [lia|done].
Qed.

(** ** The terminal side *)

Lemma safe_print_char fb s0 font l : font_ok font -> s0.(current_font) = font -> forall x y out,
  safe (going fb s0 x y out) (print_char l)
    (fun _ => going fb s0 (cursor_after fb font l (x, y)).1 (cursor_after fb font l (x, y)).2 (out ++ map u8 l)).
Proof.
  intros Hf H0. induction l as [|c l IH]; intros x y out; cbn [print_char cursor_after map].
  - apply safe_ret. intros s. by rewrite app_nil_r.
  - eapply safe_then.
    + unfold putc. apply (safe_at fb s0 x y out _ font).
      * intros s (_ & Hk & _). rewrite (kp_font _ _ _ Hk). done.
      * by apply safe_Putchar.
    + replace (out ++ u8 c :: map u8 l) with ((out ++ [u8 c]) ++ map u8 l) by (by rewrite <-app_assoc).
      cbn [fst snd]. destruct (next_cursor fb font c x y) as [x' y']. apply IH.
Qed.

(** ** Serial output *)

Lemma serial_print_out str : forall s, exists s', serial_print str s = Done (tt, s') /\
  s' = mk_screen s.(framebuffer_pb) s.(graphics_init) s.(vram) s.(cursor_x) s.(cursor_y) s.(current_font)
         (s.(serial_out) ++ map u8 str).
Proof.
  induction str as [|c str IH]; intros s; cbn [serial_print map].
  - exists s. rewrite app_nil_r. by destruct s.
  - unfold serial_putchar, mbind, M_bind, modify. destruct (IH (mk_screen s.(framebuffer_pb) s.(graphics_init)
      s.(vram) s.(cursor_x) s.(cursor_y) s.(current_font) (s.(serial_out) ++ [u8 c]))) as (s' & E & ->).
    rewrite E. eexists. split; [reflexivity|]. cbn. by rewrite <-app_assoc.
Qed.

Lemma hex_loop_digits n : forall v tail, 0 <= v ->
  hex_loop n v tail = hex_digits n v ++ tail.
Proof.
  induction n as [|n IH]; intros v tail Hv; [done|]. cbn [hex_loop].
  assert (0 <= Z.shiftr v 4) as Hs by (by apply Z.shiftr_nonneg). rewrite IH by done.
  change (Z.land v 15) with (Z.land v (Z.ones 4)). rewrite Z.land_ones, Z.shiftr_div_pow2 by lia.
  unfold hex_digits. cbn [seq rev]. rewrite map_app. cbn [map]. rewrite <-app_assoc. cbn [app].
  rewrite <-seq_shift, <-map_rev, map_map. f_equal.
  - apply map_ext_in. intros k Hk. f_equal. f_equal.
    rewrite Nat2Z.inj_succ, Z.pow_succ_r by lia. change (2 ^ 4) with 16. by rewrite Z.div_div by lia.
  - f_equal. f_equal. by rewrite Z.div_1_r.
Qed.

(** ** The buffer side *)

Fixpoint write_bytes (a : Z) (l : list Z) (m : bytes) : bytes :=
  match l with
  | [] => m
  | c :: l' => write_bytes (a + 1) l' (put8 a c m)
  end.

Lemma write_bytes_snoc l c : forall a m,
  write_bytes a (l ++ [c]) m = put8 (a + Z.of_nat (length l)) c (write_bytes a l m).
Proof.
  induction l as [|d l IH]; intros a m; cbn [app write_bytes length].
  - by rewrite Z.add_0_r.
  - rewrite IH. f_equal. lia.
Qed.

Lemma write_bytes_get l : forall a m b,
  get8 (write_bytes a l m) b =
    match (if b <? a then None else l !! Z.to_nat (b - a)) with Some c => u8 c | None => get8 m b end.
Proof.
  induction l as [|d l IH]; intros a m b; cbn [write_bytes].
  - by destruct (b <? a).
  - rewrite IH. destruct (Z.ltb_spec b (a + 1)), (Z.ltb_spec b a); try lia.
    + apply get8_put8_ne. lia.
    + replace b with a by lia. rewrite Z.sub_diag. apply get8_put8_eq.
    + replace (Z.to_nat (b - a)) with (S (Z.to_nat (b - (a + 1)))) by lia. cbn [lookup list_lookup].
      destruct (l !! _); [done|]. apply get8_put8_ne. lia.
Qed.

(** The sink after the characters [l]: at most [n - 1] are stored. *)
Definition sunk (b n : Z) (m : bytes) (l : list Z) : sink :=
  let w := take (Z.to_nat (n - 1)) l in
  mk_sink (b + Z.of_nat (length w)) (n - Z.of_nat (length w)) (write_bytes b w m).

Lemma append_char_sunk b n m l c : 1 <= n ->
  append_char c (sunk b n m l) = Done (tt, sunk b n m (l ++ [c])).
Proof.
  intros Hn. unfold append_char, modify, sunk. cbn [remaining out sink_mem]. do 2 f_equal.
  rewrite length_take. destruct (Z.leb_spec (n - Z.of_nat (Nat.min (Z.to_nat (n - 1)) (length l))) 1) as [Hle|Hgt].
  - rewrite (take_app_le l) by lia. by rewrite !length_take.
  - rewrite !(take_ge l) by lia. rewrite (take_ge (l ++ [c])) by (rewrite length_app; cbn; lia).
    rewrite write_bytes_snoc, length_app. cbn [length].
    rewrite Nat.min_r by lia. f_equal; lia.
Qed.

Definition appends (m : M sink unit) (l : list Z) : Prop := forall b n mem x, 1 <= n ->
  m (sunk b n mem x) = Done (tt, sunk b n mem (x ++ l)).

Lemma appends_char c : appends (append_char c) [c].
Proof. intros b n m x Hn. by apply append_char_sunk. Qed.

Lemma appends_seq m1 m2 l1 l2 : appends m1 l1 -> appends m2 l2 -> appends (_ ← m1; m2) (l1 ++ l2).
Proof. intros H1 H2 b n m x Hn. rewrite (bind_eq _ _ _ _ _ (H1 b n m x Hn)), H2 by done. by rewrite app_assoc. Qed.

Lemma appends_string l : appends (append_string l) l.
Proof.
  induction l as [|c l IH]; [intros b n m x _; by rewrite app_nil_r|].
  cbn [append_string]. apply (appends_seq (append_char c) _ [c] l); [apply appends_char|done].
Qed.

Lemma appends_int v : appends (append_int (s32 v)) (signed_dec (s32 v)).
Proof.
  pose proof (s32_range v) as Hv.
  assert (forall w, 0 <= w < 4294967296 ->
    appends (if w =? 0 then append_char 48 else ds ← digits_loop 21 12 w []; append_string ds) (dec w)) as Hd.
  { intros w Hw. destruct (Z.eqb_spec w 0) as [->|Hw0]; [apply appends_char|].
    intros b n m x Hn.
    rewrite (bind_eq _ _ _ _ _ (digits_loop_dec _ 10 21 12 w [] ltac:(lia) ltac:(cbn; lia) ltac:(lia))).
    rewrite app_nil_r. unfold dec. rewrite (dec_digits_more 10 20) by lia. by apply appends_string. }
  unfold append_int, signed_dec. destruct (Z.ltb_spec (s32 v) 0).
  - intros b n m x Hn. rewrite bind_assoc, (bind_eq _ _ _ _ _ (appends_char 45 b n m x Hn)).
    rewrite u32_neg by lia. unfold mbind at 1, M_bind at 1, mret, M_ret. cbn beta iota.
    rewrite Hd by (done || lia). by rewrite <-app_assoc.
  - rewrite u32_id by (unfold in_u32; lia). intros b n m x Hn.
    unfold mbind at 1, M_bind at 1, mret, M_ret. cbn beta iota. by rewrite Hd by (done || lia).
Qed.

Fixpoint fparse (fuel : nat) (fmt : list Z) : list directive :=
  match fuel with
  | O => [Overrun]
  | S n =>
      match fmt with
      | [] => []
      | c :: rest =>
          if negb (c =? 37) then Raw [c] :: fparse n rest else
          match rest with
          | [] => [Overrun]
          | k :: r =>
              if k =? 100 then Signed :: fparse n r
              else if k =? 115 then Text :: fparse n r
              else if k =? 37 then Raw [37] :: fparse n r
              else Raw [37; k] :: fparse n r
          end
      end
  end.

(** A run into the buffer with its result. *)
Definition sinks (m : M sink unit) (p : list Z * bool) : Prop := forall b n mem x, 1 <= n ->
  m (sunk b n mem x) = if p.2 then Done (tt, sunk b n mem (x ++ p.1)) else Fault.

Lemma sinks_app m k l p : appends m l -> sinks k p -> sinks (_ ← m; k) (l ++ p.1, p.2).
Proof.
  intros Hm Hk b n mem x Hn. rewrite (bind_eq _ _ _ _ _ (Hm b n mem x Hn)), (Hk b n mem _ Hn). cbn [fst snd].
  by rewrite app_assoc.
Qed.

Lemma sinks_fault (p : list Z * bool) : p.2 = false -> sinks fault p.
Proof. intros Hp b n mem x _. by rewrite Hp. Qed.

Lemma format_loop_expand fuel : forall fmt args,
  (length fmt < fuel)%nat -> sinks (format_loop fuel fmt args) (expand (fparse fuel fmt) args).
Proof.
  induction fuel as [|n IH]; intros fmt args Hf; [lia|]. cbn [format_loop fparse].
  destruct fmt as [|c rest]; [intros b k mem x _; cbn; by rewrite app_nil_r|]. cbn [length] in Hf.
  destruct (negb (c =? 37)); [apply (sinks_app _ _ [c]); [apply appends_char|apply IH; lia]|].
  destruct rest as [|k r].
  { intros b n' mem x Hn. rewrite (bind_eq _ _ _ _ _ (appends_char 37 b n' mem x Hn)).
    by rewrite (bind_eq _ _ _ _ _ (appends_char 0 b n' mem _ Hn)). }
  cbn [length] in Hf.
  destruct (k =? 100).
  { cbn [expand]. destruct args as [|[v|v|l] a]; [by apply sinks_fault| |by apply sinks_fault..].
    apply (sinks_app _ _ (signed_dec (s32 v))); [apply appends_int|apply IH; lia]. }
  destruct (k =? 115).
  { cbn [expand]. destruct args as [|[v|v|l] a]; [by apply sinks_fault..|].
    apply (sinks_app _ _ l); [apply appends_string|apply IH; lia]. }
  destruct (k =? 37); [apply (sinks_app _ _ [37]); [apply appends_char|apply IH; lia]|].
  cbn [expand]. intros b n' mem x Hn. rewrite <-bind_assoc. revert b n' mem x Hn.
  apply (sinks_app _ _ [37; k]); [|apply IH; lia].
  apply (appends_seq _ _ [37] [k]); apply appends_char.
Qed.
