(* ===== verification/StdioTheorems.v ===== *)
(** * The properties of formatted output *)

From S2P Require Import Prelude StringLib StringFacts Graphics GraphicsFacts FontData GraphicsTheorems Stdio StdioFacts.

(** C33. [print] emits exactly what the format denotes: the directives with their
    decimal or hexadecimal digits and strings, each character through
    [Putchar], so that the serial port, the cursor and the frame buffer follow;
    no store is outside the frame buffer.  When the format makes the code step
    past its terminator, or an argument is missing, the call does not return
    normally. *)
Theorem print_spec (s : screen) (fb : framebuffer_t) (fmt : list Z) (args : list va) :
  fb_ok s fb -> font_ok s.(current_font) -> Forall va_ok args ->
  let '(text, defined) := expand (parse (S (length fmt)) fmt) args in
  match print fmt args s with
  | Done (_, s') =>
      defined = true /\ s'.(serial_out) = s.(serial_out) ++ map u8 text /\
      (s'.(cursor_x), s'.(cursor_y)) = cursor_after fb s.(current_font) text (s.(cursor_x), s.(cursor_y)) /\
      fb_ok s' fb /\ keeps fb s s'
  | Panicked _ => True
  | Fault => defined = false
  end.
Proof.
  intros Hok Hf Ha. destruct (expand _ args) as [text defined] eqn:E. unfold print.
  rewrite (bind_eq _ _ _ _ _ (gets_eq framebuffer_pb s)), (proj1 Hok).
  rewrite print_loop_expand, E by (lia || done). unfold finish. cbn [fst snd].
  pose proof (safe_print_char fb s _ text Hf eq_refl s.(cursor_x) s.(cursor_y) s.(serial_out) s) as H.
  specialize (H ltac:(split_and!; try done; reflexivity)).
  unfold mbind, M_bind. destruct (print_char text s) as [[[] s']| |]; [|done|done].
  destruct H as (H1 & H2 & H3 & H4 & H5). destruct defined; [|done]. cbn.
  split_and!; [done|done| |done|done]. rewrite H3, H4. by destruct (cursor_after _ _ _ _).
Qed.

(** ["n=%d %s %lx."]: the [%lx] swallows the full stop. *)
Definition demo_fmt : list Z := [110; 61; 37; 100; 32; 37; 115; 32; 37; 108; 120; 46].
Definition demo_args : list va := [VaInt 4294967254; VaStr [111; 107]; VaU64 255].

Lemma print_spec_witness :
  match print demo_fmt demo_args ScreenDemo.screen0 with
  | Done (_, s') => s'.(serial_out) =
      [110; 61; 45; 52; 50; 32; 111; 107; 32; 48; 120] ++ replicate 14 48 ++ [70; 70]
  | _ => False
  end.
Proof.
  pose proof (print_spec ScreenDemo.screen0 ScreenDemo.fb demo_fmt demo_args ScreenDemo.screen0_ok cozette_ok) as H.
  specialize (H ltac:(repeat constructor; discriminate)).
  destruct (expand _ demo_args) as [text d] eqn:E. vm_compute in E. injection E as <- <-.
  destruct (print demo_fmt demo_args ScreenDemo.screen0) as [[u s']| |] eqn:Ep; [|vm_compute in Ep; discriminate|discriminate].
  destruct H as (_ & -> & _). vm_compute. reflexivity.
Defined.

(** The digits that [print] and [format] use are the decimal notation: read
    back they give the number, they are all digits, and there is no superfluous
    leading zero. *)
Theorem decimal_roundtrip (v : Z) :
  in_u64 v -> is_decimal v (dec v) /\ undec (dec v) = v.
Proof. intros Hv. pose proof (dec_ok v Hv) as Hd. split; [done|apply Hd]. Qed.

Lemma decimal_roundtrip_witness :
  dec 18446744073709551615 = [49; 56; 52; 52; 54; 55; 52; 52; 48; 55; 51; 55; 48; 57; 53; 53; 49; 54; 49; 53] /\
  undec (dec 18446744073709551615) = 18446744073709551615.
Proof.
  split; [reflexivity|]. apply (decimal_roundtrip 18446744073709551615). split; vm_compute; done.
Defined.

(** C34. [format] never writes outside its buffer: of the text that the format
    denotes it stores the first [size - 1] characters and a NUL, and changes no
    other byte; a lone [%] at the end of the format makes it read past the
    terminator. *)
Theorem format_bounded (m : bytes) (buffer size : Z) (fmt : list Z) (args : list va) :
  1 <= size ->
  let '(text, defined) := expand (fparse (S (length fmt)) fmt) args in
  let w := take (Z.to_nat (size - 1)) text in
  match format buffer size fmt args m with
  | Done (_, m') =>
      defined = true /\
      (forall i, (i < length w)%nat -> get8 m' (buffer + Z.of_nat i) = u8 (w !!! i)) /\
      get8 m' (buffer + Z.of_nat (length w)) = 0 /\
      (forall a, a < buffer \/ buffer + Z.of_nat (length w) < a -> get8 m' a = get8 m a) /\
      Z.of_nat (length w) < size
  | Panicked _ => False
  | Fault => defined = false
  end.
Proof.
  intros Hs. destruct (expand _ args) as [text defined] eqn:E. cbv zeta. unfold format.
  destruct (Z.eqb_spec size 0); [lia|].
  pose proof (format_loop_expand (S (length fmt)) fmt args ltac:(lia) buffer size m [] Hs) as H.
  assert (sunk buffer size m [] = mk_sink buffer size m) as E0.
  { unfold sunk. rewrite take_nil. cbn. by rewrite Z.add_0_r, Z.sub_0_r. }
  rewrite E0, E in H. cbn [fst snd app] in H. rewrite H.
  destruct defined; [|done]. set (w := take (Z.to_nat (size - 1)) text).
  unfold sunk. fold w. cbn [out sink_mem].
  assert (Z.of_nat (length w) <= size - 1) as Hw by (unfold w; rewrite length_take; lia).
  split_and!; [done| |by rewrite get8_put8_eq| |lia].
  - intros i Hi. rewrite get8_put8_ne by lia. rewrite write_bytes_get.
    destruct (Z.ltb_spec (buffer + Z.of_nat i) buffer); [lia|].
    replace (Z.to_nat (buffer + Z.of_nat i - buffer)) with i by lia.
    destruct (lookup_lt_is_Some_2 w i Hi) as [c Hc]. rewrite Hc. by rewrite (list_lookup_total_correct _ _ _ Hc).
  - intros a Ha. rewrite get8_put8_ne by lia. rewrite write_bytes_get.
    destruct (Z.ltb_spec a buffer); [done|]. rewrite lookup_ge_None_2 by lia. done.
Qed.

Lemma format_bounded_witness :
  match format 100 6 [37; 100; 33; 37; 37; 37; 115] [VaInt 120; VaStr [65; 66]] ∅ with
  | Done (_, m') => get8 m' 100 = 49 /\ get8 m' 104 = 37 /\ get8 m' 105 = 0 /\ get8 m' 106 = get8 ∅ 106
  | _ => False
  end.
Proof.
  pose proof (format_bounded ∅ 100 6 [37; 100; 33; 37; 37; 37; 115] [VaInt 120; VaStr [65; 66]]) as H.
  specialize (H ltac:(lia)).
  destruct (expand _ _) as [text d] eqn:E. vm_compute in E. injection E as <- <-.
  destruct (format 100 6 _ _ ∅) as [[u m']| |] eqn:Ef; [|exact H|discriminate].
  destruct H as (_ & H1 & H2 & H3 & _). cbn [length take] in *. split_and!.
  - exact (H1 O ltac:(vm_compute; lia)).
  - exact (H1 4%nat ltac:(vm_compute; lia)).
  - exact H2.
  - apply H3. right. vm_compute. reflexivity.
Defined.

(** ** The serial routines *)

(** The serial decimal routine prints a minus sign when bit 31 is set, and
    nothing for 0. *)
Lemma serial_print_dec_text N s : in_u64 N ->
  serial_print_dec N s =
    serial_print ((if s32 N <? 0 then [45] else []) ++ (if N =? 0 then [] else dec N)) s.
Proof.
  intros HN. unfold in_u64 in HN. unfold serial_print_dec.
  assert (digits_loop 21 22 N [] s = Done (if N =? 0 then [] else dec N, s)) as E.
  { destruct (Z.eqb_spec N 0) as [->|]; [done|].
    rewrite (digits_loop_dec s 20 21 22 N []) by (cbn; lia). by rewrite app_nil_r. }
  rewrite (bind_eq _ _ _ _ _ E). set (ds := if N =? 0 then [] else dec N).
  assert (length ds <= 20)%nat as Hl.
  { unfold ds. case_match; [cbn; lia|apply dec_digits_length]. }
  destruct (s32 N <? 0).
  - destruct (Nat.leb_spec 22 (length ds)); [lia|]. unfold mbind, M_bind, mret, M_ret. cbn beta iota.
    cbn [length]. destruct (Nat.leb_spec 22 (S (length ds))); [lia|]. done.
  - unfold mbind, M_bind, mret, M_ret. cbn beta iota. destruct (Nat.leb_spec 22 (length ds)); [lia|]. done.
Qed.

(** The serial number routines send the sixteen hexadecimal digits and a
    newline, and the decimal digits with the two deviations of the decimal
    routine: a minus sign in front of every number whose bit 31 is set, and
    nothing at all for 0. *)
Theorem serial_numbers (v : Z) (s : screen) :
  in_u64 v ->
  (exists s', serial_print_hex v s = Done (tt, s') /\
     s'.(serial_out) = s.(serial_out) ++ map u8 ([48; 120] ++ hex_digits 16 v ++ [10])) /\
  (exists s', serial_print_dec v s = Done (tt, s') /\
     s'.(serial_out) = s.(serial_out) ++
       map u8 ((if s32 v <? 0 then [45] else []) ++ (if v =? 0 then [] else dec v))).
Proof.
  intros Hv. split.
  - unfold serial_print_hex, uint64_to_hex. rewrite hex_loop_digits by (unfold in_u64 in Hv; lia).
    rewrite app_nil_r. destruct (serial_print_out (48 :: 120 :: hex_digits 16 v) s) as (s' & E & Hs).
    rewrite (bind_eq _ _ _ _ _ E). eexists. split; [reflexivity|]. rewrite Hs. cbn [serial_out].
    change ([48; 120] ++ hex_digits 16 v ++ [10]) with ((48 :: 120 :: hex_digits 16 v) ++ [10]).
    rewrite (map_app u8 (48 :: _)). by rewrite <-app_assoc.
  - rewrite serial_print_dec_text by done.
    destruct (serial_print_out ((if s32 v <? 0 then [45] else []) ++ (if v =? 0 then [] else dec v)) s) as (s' & E & Hs).
    exists s'. split; [done|]. by rewrite Hs.
Qed.

Lemma serial_numbers_witness :
  (exists s', serial_print_dec 0 ScreenDemo.screen0 = Done (tt, s') /\ s'.(serial_out) = []) /\
  (exists s', serial_print_dec 2147483648 ScreenDemo.screen0 = Done (tt, s') /\
     s'.(serial_out) = map u8 (45 :: dec 2147483648)).
Proof.
  split.
  - exact (proj2 (serial_numbers 0 ScreenDemo.screen0 ltac:(split; vm_compute; done))).
  - exact (proj2 (serial_numbers 2147483648 ScreenDemo.screen0 ltac:(split; vm_compute; done))).
Defined.
