(* ===== verification/Cpu.v ===== *)
(** * Processor tables and devices ([kernel/arch/x86_64])

    The descriptor tables ([cpu/gdt], [cpu/tss], [interrupts/idt.c]), the model
    specific registers ([cpu/msr]), the interrupt controllers
    ([interrupts/pic.c], [interrupts/apic.c]) and the timers ([timer]).  Model
    specific registers and memory-mapped registers hold what was last written;
    what a port returns is a function of the writes so far, a parameter. *)

From S2P Require Import Prelude.

(** ** State *)

Record tss_t := mk_tss {
  rsp0 : Z; rsp1 : Z; rsp2 : Z;
  ist1 : Z; ist2 : Z; ist3 : Z; ist4 : Z; ist5 : Z; ist6 : Z; ist7 : Z;
  iomap_base : Z;
}.

Record idt_entry := mk_gate {
  offset_low : Z;
  selector : Z;
  ist : Z;
  type_attr : Z;
  offset_mid : Z;
  offset_high : Z;
  zero : Z;
}.
#[export] Instance idt_entry_inhabited : Inhabited idt_entry := populate (mk_gate 0 0 0 0 0 0 0).

Record tables := mk_tables {
  gdt : list Z;
  tss : tss_t;
  idt : list idt_entry;
  idt_changed : bool;
  gdtr : option (Z * Z);
  idtr : option (Z * Z);
  task_register : option Z;
}.

(** [ports]: the bytes written, the last first. *)
Record cpu := mk_cpu {
  tabs : tables;
  ports : list (Z * Z);
  msrs : gmap Z Z;
  mmio : gmap Z Z;
  apic_addr : Z;
  total_ticks : Z;
  interrupts_on : bool;
}.

Definition set_tabs (t : tables) (s : cpu) : cpu :=
  mk_cpu t s.(ports) s.(msrs) s.(mmio) s.(apic_addr) s.(total_ticks) s.(interrupts_on).
Definition set_gdt (g : list Z) (t : tables) : tables :=
  mk_tables g t.(tss) t.(idt) t.(idt_changed) t.(gdtr) t.(idtr) t.(task_register).
Definition set_idt (l : list idt_entry) (t : tables) : tables :=
  mk_tables t.(gdt) t.(tss) l t.(idt_changed) t.(gdtr) t.(idtr) t.(task_register).
Definition on_tabs (f : tables -> tables) : M cpu unit := modify (fun s => set_tabs (f s.(tabs)) s).

Definition cli : M cpu unit := modify (fun s =>
  mk_cpu s.(tabs) s.(ports) s.(msrs) s.(mmio) s.(apic_addr) s.(total_ticks) false).
Definition sti : M cpu unit := modify (fun s =>
  mk_cpu s.(tabs) s.(ports) s.(msrs) s.(mmio) s.(apic_addr) s.(total_ticks) true).

(** ** Segment descriptors *)

Definition SEG_DESCTYPE (x : Z) : Z := Z.shiftl x 4.
Definition SEG_PRES (x : Z) : Z := Z.shiftl x 7.
Definition SEG_SAVL (x : Z) : Z := Z.shiftl x 12.
Definition SEG_LONG (x : Z) : Z := Z.shiftl x 13.
Definition SEG_SIZE (x : Z) : Z := Z.shiftl x 14.
Definition SEG_GRAN (x : Z) : Z := Z.shiftl x 15.
Definition SEG_PRIV (x : Z) : Z := Z.shiftl (Z.land x 3) 5.
Definition SEG_DATA_RDWR : Z := 2.
Definition SEG_CODE_EXRD : Z := 10.

Definition or_all (l : list Z) : Z := fold_right Z.lor 0 l.
Definition GDT_CODE_PL0 : Z :=
  or_all [SEG_DESCTYPE 1; SEG_PRES 1; SEG_LONG 1; SEG_SIZE 0; SEG_GRAN 1; SEG_PRIV 0; SEG_CODE_EXRD].
Definition GDT_DATA_PL0 : Z :=
  or_all [SEG_DESCTYPE 1; SEG_PRES 1; SEG_SAVL 0; SEG_LONG 0; SEG_SIZE 1; SEG_GRAN 1; SEG_PRIV 0; SEG_DATA_RDWR].
Definition GDT_CODE_PL3 : Z :=
  or_all [SEG_DESCTYPE 1; SEG_PRES 1; SEG_SAVL 0; SEG_LONG 0; SEG_SIZE 1; SEG_GRAN 1; SEG_PRIV 3; SEG_CODE_EXRD].
Definition GDT_DATA_PL3 : Z :=
  or_all [SEG_DESCTYPE 1; SEG_PRES 1; SEG_SAVL 0; SEG_LONG 0; SEG_SIZE 1; SEG_GRAN 1; SEG_PRIV 3; SEG_DATA_RDWR].

Definition KERNEL_CS : Z := 8.
Definition KERNEL_DS : Z := 16.
Definition USER_CS : Z := 24.
Definition USER_DS : Z := 32.
Definition TSS_GDT_INDEX : Z := 5.
Definition TSS_SELECTOR : Z := u16 (Z.shiftl TSS_GDT_INDEX 3).

Definition create_descriptor (base limit flag : Z) : Z :=
  let d := Z.land limit 0x000F0000 in
  let d := Z.lor d (Z.land (Z.shiftl flag 8) 0x00F0FF00) in
  let d := Z.lor d (Z.land (Z.shiftr base 16) 0x000000FF) in
  let d := Z.lor d (Z.land base 0xFF000000) in
  let d := u64 (Z.shiftl d 32) in
  let d := Z.lor d (u32 (Z.shiftl base 16)) in
  Z.lor d (Z.land limit 0xFFFF).

(** The two words of a 64-bit TSS descriptor. *)
Definition tss_descriptor (base limit : Z) : Z * Z :=
  let low := Z.land limit 0xFFFF in
  let low := Z.lor low (Z.shiftl (Z.land base 0xFFFF) 16) in
  let low := Z.lor low (Z.shiftl (Z.land (Z.shiftr base 16) 0xFF) 32) in
  let low := Z.lor low (Z.shiftl 0x89 40) in
  let low := Z.lor low (Z.shiftl (Z.land (Z.shiftr limit 16) 0x0F) 48) in
  let low := Z.lor low (Z.shiftl (Z.land (Z.shiftr base 24) 0xFF) 56) in
  (low, Z.shiftr base 32).

Definition set_tss_descriptor (base limit : Z) : M cpu unit :=
  let '(low, high) := tss_descriptor base limit in
  on_tabs (fun t => set_gdt (aset (aset t.(gdt) TSS_GDT_INDEX low) (TSS_GDT_INDEX + 1) high) t).

(** [sizeof(struct tss_t)]: the structure is not packed, so [rsp0] is at 8. *)
Definition sizeof_tss : Z := 112.

Definition init_tss : M cpu unit := on_tabs (fun t =>
  mk_tables t.(gdt) (mk_tss 0 t.(tss).(rsp1) t.(tss).(rsp2) 0 0 0 0 0 0 0 sizeof_tss) t.(idt) t.(idt_changed)
    t.(gdtr) t.(idtr) t.(task_register)).

Definition load_gdt (limit base : Z) : M cpu unit := on_tabs (fun t =>
  mk_tables t.(gdt) t.(tss) t.(idt) t.(idt_changed) (Some (u16 limit, base)) t.(idtr) t.(task_register)).
Definition load_tss (segment : Z) : M cpu unit := on_tabs (fun t =>
  mk_tables t.(gdt) t.(tss) t.(idt) t.(idt_changed) t.(gdtr) t.(idtr) (Some (u8 segment))).
Definition load_idt (size base : Z) : M cpu unit := on_tabs (fun t =>
  mk_tables t.(gdt) t.(tss) t.(idt) t.(idt_changed) t.(gdtr) (Some (u16 size, base)) t.(task_register)).

Definition set_gdt_entry (i v : Z) : M cpu unit := on_tabs (fun t => set_gdt (aset t.(gdt) i v) t).

(** [gdt_ptr] is the address of the table. *)
Definition init_gdt (gdt_ptr : Z) : M cpu unit :=
  _ ← set_gdt_entry 0 0;
  _ ← set_gdt_entry 1 (create_descriptor 0 0xFFFFF GDT_CODE_PL0);
  _ ← set_gdt_entry 2 (create_descriptor 0 0xFFFFF GDT_DATA_PL0);
  _ ← set_gdt_entry 3 (create_descriptor 0 0xFFFFF GDT_CODE_PL3);
  _ ← set_gdt_entry 4 (create_descriptor 0 0xFFFFF GDT_DATA_PL3);
  _ ← init_tss;
  _ ← set_tss_descriptor 0 0xFFFFF;
  _ ← load_gdt (7 * 8 - 1) gdt_ptr;
  load_tss TSS_SELECTOR.

(** ** Interrupt gates *)

Definition gate (handler : Z) : idt_entry :=
  mk_gate (Z.land handler 0xFFFF) KERNEL_CS 0 0x8E (Z.land (Z.shiftr handler 16) 0xFFFF)
    (u32 (Z.shiftr handler 32)) 0.

Definition idt_set_gate (vector handler : Z) : M cpu unit :=
  on_tabs (fun t => set_idt (aset t.(idt) (u8 vector) (gate handler)) t).
Definition idt_set_custom_gate (vector handler : Z) : M cpu unit :=
  on_tabs (fun t => set_idt (aset t.(idt) (u8 vector) (gate handler)) t).

Definition set_idt_vector (vector handler : Z) : M cpu unit :=
  e ← gets (fun s : cpu => aget s.(tabs).(idt) (u8 vector));
  if negb (e.(offset_low) =? 0) then mret tt else
  _ ← on_tabs (fun t => mk_tables t.(gdt) t.(tss) t.(idt) true t.(gdtr) t.(idtr) t.(task_register));
  idt_set_gate vector handler.

Definition flush_idt_vector (idt_ptr : Z) : M cpu unit :=
  gets (fun s => s.(tabs).(idt_changed)) ≫= fun c : bool =>
  if c then load_idt (256 * 16 - 1) idt_ptr else mret tt.

(** ** Model specific registers *)

Definition rdmsr (msr : Z) : M cpu Z := gets (fun s => s.(msrs) !!! msr).
Definition wrmsr (msr value : Z) : M cpu unit :=
  let low := u32 value in
  let high := u32 (Z.shiftr value 32) in
  modify (fun s => mk_cpu s.(tabs) s.(ports) (<[msr := Z.lor (Z.shiftl high 32) low]> s.(msrs)) s.(mmio)
    s.(apic_addr) s.(total_ticks) s.(interrupts_on)).

(** [eax] of CPUID leaf 0. *)
Definition has_cpu_msr (eax : Z) : bool := negb (eax <? 1).

(** ** Ports *)

Definition outb (value port : Z) : M cpu unit := modify (fun s =>
  mk_cpu s.(tabs) ((u16 port, u8 value) :: s.(ports)) s.(msrs) s.(mmio) s.(apic_addr) s.(total_ticks)
    s.(interrupts_on)).

Section devices.
(** What reading a port returns after a history of writes. *)
Context (port_value : list (Z * Z) -> Z -> Z).

Definition inb (port : Z) : M cpu Z := gets (fun s => u8 (port_value s.(ports) port)).

Definition PIC_ICW1 : Z := 0x11.
Definition PIC_ICW4_MASTER : Z := 0x01.
Definition PIC_ICW4_SLAVE : Z := 0x05.
Definition PIC_ACK_SPECIFIC : Z := 0x60.
Definition PIC_COMMAND_MASTER : Z := 0x20.
Definition PIC_COMMAND_SLAVE : Z := 0xA0.
Definition PIC_DATA_MASTER : Z := 0x21.
Definition PIC_DATA_SLAVE : Z := 0xA1.
Definition pic_control (i : Z) : Z := if i =? 0 then 0x20 else 0xA0.
Definition pic_data (i : Z) : Z := if i =? 0 then 0x21 else 0xA1.

Definition pic_init (pic0base pic1base : Z) : M cpu unit :=
  _ ← outb PIC_ICW1 (pic_control 0);
  _ ← outb pic0base (pic_data 0);
  _ ← outb (Z.shiftl 1 2) (pic_data 0);
  _ ← outb PIC_ICW4_MASTER (pic_data 0);
  _ ← outb (Z.lnot (Z.shiftl 1 2)) (pic_data 0);
  _ ← outb PIC_ICW1 (pic_control 1);
  _ ← outb pic1base (pic_data 1);
  _ ← outb 2 (pic_data 1);
  _ ← outb PIC_ICW4_SLAVE (pic_data 1);
  outb (Z.lnot 0) (pic_data 1).

(** The branch for the first controller, which the other one ends with. *)
Definition pic_unmask (chip irq : Z) : M cpu unit :=
  mask ← inb (pic_data chip);
  outb (u8 (Z.land mask (Z.lnot (Z.shiftl 1 irq)))) (pic_data chip).

Definition pic_enable (irq : Z) : M cpu unit :=
  if irq <? 8 then pic_unmask 0 irq
  else
    _ ← pic_unmask 1 (irq - 8);
    pic_unmask 0 2.

Definition pic_disable (irq : Z) : M cpu unit :=
  if irq <? 8 then
    mask ← inb (pic_data 0);
    outb (u8 (Z.lor mask (Z.shiftl 1 irq))) (pic_data 0)
  else
    mask ← inb (pic_data 1);
    outb (u8 (Z.lor mask (Z.shiftl 1 (irq - 8)))) (pic_data 1).

Definition pic_acknowledge (irq : Z) : M cpu unit :=
  if 8 <=? irq then
    _ ← outb (PIC_ACK_SPECIFIC + (irq - 8)) (pic_control 1);
    outb (PIC_ACK_SPECIFIC + 2) (pic_control 0)
  else outb (PIC_ACK_SPECIFIC + irq) (pic_control 0).

(** The first argument of [outb] is the value. *)
Definition pic_disable_total : M cpu unit :=
  _ ← outb PIC_COMMAND_MASTER 0x11;
  _ ← outb PIC_COMMAND_SLAVE 0x11;
  _ ← outb PIC_DATA_MASTER 0x20;
  _ ← outb PIC_DATA_SLAVE 0x28;
  _ ← outb PIC_DATA_MASTER 0x2;
  _ ← outb PIC_DATA_SLAVE 0x4;
  _ ← outb PIC_DATA_MASTER 0x01;
  _ ← outb PIC_DATA_SLAVE 0x01;
  _ ← outb PIC_DATA_MASTER 0xFF;
  outb PIC_DATA_SLAVE 0xFF.

Definition PIT_CHANNEL_0 : Z := 0x40.
Definition pit_count (irq count : Z) : M cpu unit :=
  _ ← cli;
  _ ← outb PIT_CHANNEL_0 (Z.land count 0xFF);
  outb PIT_CHANNEL_0 (Z.shiftr (Z.land count 0xFF00) 8).

(** ** The local APIC *)

Definition IA32_APIC_BASE : Z := 0x1B.
Definition APIC_SPURIOUS_INT_VECTOR : Z := 0xF0.
Definition APIC_EOI : Z := 0xB0.
Definition APIC_LVT_TIMER : Z := 0x320.
Definition APIC_TIMER_INITIAL_COUNT : Z := 0x380.
Definition APIC_TIMER_DIVIDE : Z := 0x3E0.
Definition APIC_ID : Z := 0x20.
Definition APIC_DIVIDE : Z := 0x3E0.
Definition APIC_INIT_COUNT : Z := 0x380.

Definition apic_discover : M cpu Z := rdmsr IA32_APIC_BASE.
Definition apic_read_reg (base reg : Z) : M cpu Z := gets (fun s => s.(mmio) !!! (base + reg)).
Definition apic_write_reg (base reg value : Z) : M cpu unit := modify (fun s =>
  mk_cpu s.(tabs) s.(ports) s.(msrs) (<[base + reg := u32 value]> s.(mmio)) s.(apic_addr) s.(total_ticks)
    s.(interrupts_on)).

(** [spurious] and [tick] are the addresses of the interrupt entry points. *)
Definition local_apic_init (spurious tick addr : Z) (enabled : bool) : M cpu unit :=
  _ ← (if negb enabled then
         b ← rdmsr IA32_APIC_BASE;
         wrmsr IA32_APIC_BASE (Z.lor b (Z.shiftl 1 11))
       else mret tt);
  _ ← apic_read_reg addr APIC_ID;
  v ← apic_read_reg addr APIC_SPURIOUS_INT_VECTOR;
  let v := Z.lor v (Z.shiftl 1 8) in
  let v := Z.land v (Z.lnot (Z.shiftl 1 9)) in
  let v := Z.lor (Z.land v 0xFFFFFF00) 0xff in
  _ ← apic_write_reg addr APIC_SPURIOUS_INT_VECTOR v;
  _ ← idt_set_gate 0xff spurious;
  _ ← apic_read_reg addr APIC_LVT_TIMER;
  _ ← apic_write_reg addr APIC_LVT_TIMER (Z.lor (Z.lor 32 (Z.shiftl 1 16)) (Z.shiftl 1 17));
  _ ← apic_write_reg addr APIC_DIVIDE 0xB;
  idt_set_gate 32 tick.

Definition with_apic {A : Type} (f : Z -> M cpu A) : M cpu A := a ← gets apic_addr; f a.

Definition apic_timer_start : M cpu unit := with_apic (fun a =>
  lvt ← apic_read_reg a APIC_LVT_TIMER;
  let lvt := Z.lor lvt (Z.shiftl 1 16) in
  let lvt := Z.lor lvt (Z.shiftl 1 17) in
  let lvt := Z.lor (Z.land lvt (Z.lxor 0xFFFFFFFF 0xFF)) 32 in
  _ ← apic_write_reg a APIC_LVT_TIMER lvt;
  _ ← apic_write_reg a APIC_TIMER_DIVIDE 0xB;
  _ ← apic_write_reg a APIC_TIMER_INITIAL_COUNT 10000000;
  let lvt := Z.land lvt (Z.lxor 0xFFFFFFFF (Z.shiftl 1 16)) in
  apic_write_reg a APIC_LVT_TIMER lvt).

Definition apic_timer_stop : M cpu unit := with_apic (fun a =>
  timer ← apic_read_reg a APIC_LVT_TIMER;
  apic_write_reg a APIC_LVT_TIMER (Z.lor timer (Z.shiftl 1 16))).

Definition apic_eoi : M cpu unit := with_apic (fun a => apic_write_reg a APIC_EOI 0).
Definition apic_start : M cpu unit := with_apic (fun a => apic_write_reg a APIC_INIT_COUNT 10000000).
Definition local_apic_init_msr (addr : Z) (enabled : bool) : M cpu unit := mret tt.

Definition apic_init (spurious tick : Z) : M cpu unit :=
  a ← apic_discover;
  let enabled := negb (Z.land (Z.shiftr a 11) 1 =? 0) in
  let x2apic := negb (Z.land (Z.shiftr a 10) 1 =? 0) in
  let page := Z.land (Z.shiftr a 12) 0xFFFFF in
  let apic_base := Z.shiftl page 12 in
  _ ← modify (fun s => mk_cpu s.(tabs) s.(ports) s.(msrs) s.(mmio) apic_base s.(total_ticks) s.(interrupts_on));
  if negb x2apic then local_apic_init spurious tick apic_base enabled
  else local_apic_init_msr apic_base enabled.

(** ** The clock *)

Definition set_ticks (t : Z) : M cpu unit := modify (fun s =>
  mk_cpu s.(tabs) s.(ports) s.(msrs) s.(mmio) s.(apic_addr) t s.(interrupts_on)).
Definition clock_interrupt : M cpu unit :=
  t ← gets total_ticks;
  _ ← set_ticks (u64 (t + 1));
  apic_eoi.
Definition get_ticks : M cpu Z := gets total_ticks.
Definition get_milliseconds : M cpu Z := gets (fun s => u64 (s.(total_ticks) * 1000) / 100).
Definition timer_reset : M cpu unit := set_ticks 0.
Definition start_clock : M cpu unit := apic_timer_start.
Definition stop_clock : M cpu unit := apic_timer_stop.
End devices.
