(* ===== verification/CpuFacts.v ===== *)
(** * Bits of descriptors, gates and registers *)

From S2P Require Import Prelude Cpu.

Lemma testbit_u64 x k : 0 <= k -> Z.testbit (u64 x) k = (k <? 64) && Z.testbit x k.
Proof. intros. unfold u64. change 18446744073709551616 with (2 ^ 64). by rewrite Z.testbit_mod_pow2. Qed.
Lemma testbit_u32 x k : 0 <= k -> Z.testbit (u32 x) k = (k <? 32) && Z.testbit x k.
Proof. intros. unfold u32. change 4294967296 with (2 ^ 32). by rewrite Z.testbit_mod_pow2. Qed.

Lemma testbit_above x n w : 0 <= x < 2 ^ w -> 0 <= w <= n -> Z.testbit x n = false.
Proof.
  intros Hx Hn. destruct (Z.eq_dec x 0) as [->|]; [apply Z.bits_0|].
  apply Z.bits_above_log2; [lia|]. apply Z.log2_lt_pow2; [lia|].
  eapply Z.lt_le_trans; [apply Hx|]. apply Z.pow_le_mono_r; lia.
Qed.

(** All bits of a [w]-bit equation, one by one. *)
Lemma bits_eq w a b :
  0 <= w -> 0 <= a < 2 ^ w -> 0 <= b < 2 ^ w ->
  (forall k, 0 <= k < w -> Z.testbit a k = Z.testbit b k) -> a = b.
Proof.
  intros Hw Ha Hb H. apply Z.bits_inj'. intros k Hk. destruct (Z.lt_ge_cases k w); [apply H; lia|].
  by rewrite !(testbit_above _ k w) by lia.
Qed.

Lemma land_bound a m w : 0 <= m < 2 ^ w -> 0 <= w -> 0 <= Z.land a m < 2 ^ w.
Proof.
  intros Hm Hw. assert (0 <= Z.land a m) by (apply Z.land_nonneg; lia). split; [done|].
  destruct (Z.eq_dec (Z.land a m) 0) as [->|]; [lia|]. apply Z.log2_lt_pow2; [lia|].
  destruct (Z.eq_dec m 0) as [->|]; [by rewrite Z.land_0_r in *|].
  destruct (Z.lt_ge_cases (Z.log2 (Z.land a m)) w) as [|Hge]; [done|]. exfalso.
  assert (Z.testbit (Z.land a m) (Z.log2 (Z.land a m)) = true) as Ht by (apply Z.bit_log2; lia).
  rewrite Z.land_spec, (testbit_above m _ w), andb_false_r in Ht by lia. done.
Qed.

Lemma lor_bound a b w : 0 <= a < 2 ^ w -> 0 <= b < 2 ^ w -> 0 <= w -> 0 <= Z.lor a b < 2 ^ w.
Proof.
  intros Ha Hb Hw. assert (0 <= Z.lor a b) by (apply Z.lor_nonneg; lia). split; [done|].
  destruct (Z.eq_dec (Z.lor a b) 0) as [->|]; [lia|]. apply Z.log2_lt_pow2; [lia|].
  rewrite Z.log2_lor by lia. assert (1 <= 2 ^ w) by lia.
  assert (forall x, 0 <= x < 2 ^ w -> x <> 0 -> Z.log2 x < w) as Hl.
  { intros x Hx Hn. apply Z.log2_lt_pow2; lia. }
  destruct (Z.eq_dec a 0) as [->|]; [|destruct (Z.eq_dec b 0) as [->|]].
  - rewrite Z.lor_0_l in *. change (Z.log2 0) with 0. rewrite Z.max_r by apply Z.log2_nonneg. auto.
  - rewrite Z.max_l by (apply Z.log2_nonneg). apply Hl; [done|lia].
  - apply Z.max_lub_lt; auto.
Qed.

(** Split an index below 64 into its values. *)
Ltac each_pos k := first [exfalso; lia | destruct k as [k|k|]; [each_pos k|each_pos k|]].
Ltac each_bit k := destruct k as [|k|k]; [|each_pos k|exfalso; lia].

(** Rewrite a bit of an expression to bits of its variables. *)
Ltac bit_index :=
  repeat match goal with
  | |- context [Z.testbit ?c ?n] =>
      let n' := eval vm_compute in n in
      lazymatch n with n' => fail | _ => change (Z.testbit c n) with (Z.testbit c n') end
  end.
Ltac bit_const :=
  repeat match goal with
  | |- context [Z.testbit ?c ?n] =>
      lazymatch c with Z0 => idtac | Zpos _ => idtac | Zneg _ => idtac end;
      let r := eval vm_compute in (Z.testbit c n) in
      lazymatch r with
      | true => change (Z.testbit c n) with true
      | false => change (Z.testbit c n) with false
      end
  end.
Ltac bit_specs :=
  repeat (first [rewrite Z.lor_spec | rewrite Z.land_spec | rewrite Z.lnot_spec by lia
    | rewrite Z.shiftl_spec_low by lia | rewrite Z.shiftl_spec_high by lia
    | rewrite Z.shiftr_spec by lia | rewrite testbit_u64 by lia | rewrite testbit_u32 by lia]; bit_index);
  bit_const.
Ltac bit_simpl :=
  cbn [andb orb negb Z.ltb Z.compare Pos.compare Pos.compare_cont CompOpp];
  rewrite ?andb_true_r, ?andb_false_r, ?orb_false_r, ?orb_true_r.

(** ** Segment descriptors *)

(** Where the processor finds the fields. *)
Definition seg_base (d : Z) : Z :=
  Z.lor (Z.land (Z.shiftr d 16) 0xFFFFFF) (Z.shiftl (Z.land (Z.shiftr d 56) 0xFF) 24).
Definition seg_limit (d : Z) : Z :=
  Z.lor (Z.land d 0xFFFF) (Z.shiftl (Z.land (Z.shiftr d 48) 0xF) 16).
(** Access byte and flag nibble, as the [GDT_*] constants lay them out. *)
Definition seg_flags (d : Z) : Z :=
  Z.lor (Z.land (Z.shiftr d 40) 0xFF) (Z.shiftl (Z.land (Z.shiftr d 52) 0xF) 12).

Definition descriptor_bit (base limit flag k : Z) : bool :=
  if k <? 16 then Z.testbit limit k
  else if k <? 40 then Z.testbit base (k - 16)
  else if k <? 48 then Z.testbit flag (k - 40)
  else if k <? 52 then Z.testbit limit (k - 32)
  else if k <? 56 then Z.testbit flag (k - 40)
  else Z.testbit base (k - 32).

Lemma descriptor_bits base limit flag k : 0 <= k < 64 ->
  Z.testbit (create_descriptor base limit flag) k = descriptor_bit base limit flag k.
Proof.
  intros Hk. unfold create_descriptor, descriptor_bit. cbv zeta.
  each_bit k; bit_specs; bit_index; bit_simpl; reflexivity.
Qed.

Ltac in_bits w k := let Hk := fresh in apply (bits_eq w); [lia| | |intros k Hk].

Lemma descriptor_fields base limit flag :
  in_u32 base -> 0 <= limit < 2 ^ 20 -> 0 <= flag < 2 ^ 16 ->
  let d := create_descriptor base limit flag in
  seg_base d = base /\ seg_limit d = limit /\ seg_flags d = Z.land flag 0xF0FF.
Proof.
  intros Hb Hl Hf d. subst d. unfold in_u32 in Hb. split_and!.
  - apply (bits_eq 32); [lia|..].
    + unfold seg_base. apply lor_bound; [|rewrite Z.shiftl_mul_pow2 by lia|lia].
      * pose proof (land_bound (Z.shiftr (create_descriptor base limit flag) 16) 0xFFFFFF 24 ltac:(lia) ltac:(lia)). lia.
      * pose proof (land_bound (Z.shiftr (create_descriptor base limit flag) 56) 0xFF 8 ltac:(lia) ltac:(lia)). lia.
    + lia.
    + intros k Hk. unfold seg_base. each_bit k; bit_specs; rewrite ?descriptor_bits by lia; unfold descriptor_bit;
        bit_simpl; bit_index; reflexivity.
  - apply (bits_eq 20); [lia|..].
    + unfold seg_limit. apply lor_bound; [|rewrite Z.shiftl_mul_pow2 by lia|lia].
      * pose proof (land_bound (create_descriptor base limit flag) 0xFFFF 16 ltac:(lia) ltac:(lia)). lia.
      * pose proof (land_bound (Z.shiftr (create_descriptor base limit flag) 48) 0xF 4 ltac:(lia) ltac:(lia)). lia.
    + lia.
    + intros k Hk. unfold seg_limit. each_bit k; bit_specs; rewrite ?descriptor_bits by lia; unfold descriptor_bit;
        bit_simpl; bit_index; reflexivity.
  - apply (bits_eq 16); [lia|..].
    + unfold seg_flags. apply lor_bound; [|rewrite Z.shiftl_mul_pow2 by lia|lia].
      * pose proof (land_bound (Z.shiftr (create_descriptor base limit flag) 40) 0xFF 8 ltac:(lia) ltac:(lia)). lia.
      * pose proof (land_bound (Z.shiftr (create_descriptor base limit flag) 52) 0xF 4 ltac:(lia) ltac:(lia)). lia.
    + apply land_bound; lia.
    + intros k Hk. unfold seg_flags. each_bit k; bit_specs; rewrite ?descriptor_bits by lia; unfold descriptor_bit;
        bit_simpl; bit_index; reflexivity.
Qed.

(** ** Interrupt gates *)

(** The entry point that the processor reads from a gate. *)
Definition gate_handler (e : idt_entry) : Z :=
  Z.lor (Z.lor e.(offset_low) (Z.shiftl e.(offset_mid) 16)) (Z.shiftl e.(offset_high) 32).

Lemma gate_roundtrip h : in_u64 h -> gate_handler (gate h) = h.
Proof.
  intros Hh. unfold in_u64 in Hh. unfold gate_handler, gate. cbn [offset_low offset_mid offset_high].
  apply (bits_eq 64); [lia| |lia|].
  - apply lor_bound; [apply lor_bound| |lia].
    + pose proof (land_bound h 0xFFFF 16 ltac:(lia) ltac:(lia)). lia.
    + rewrite Z.shiftl_mul_pow2 by lia. pose proof (land_bound (Z.shiftr h 16) 0xFFFF 16 ltac:(lia) ltac:(lia)). lia.
    + lia.
    + rewrite Z.shiftl_mul_pow2 by lia. pose proof (u32_range (Z.shiftr h 32)) as Hr. unfold in_u32 in Hr. lia.
  - intros k Hk. each_bit k; bit_specs; bit_simpl; bit_index; reflexivity.
Qed.
