(* ===== verification/CpuTheorems.v ===== *)
(** * The properties of the processor tables and devices *)

From S2P Require Import Prelude Cpu CpuFacts.

Module CpuDemo.
Definition tabs0 : tables :=
  mk_tables (replicate 7 0) (mk_tss 0 0 0 0 0 0 0 0 0 0 0) (replicate 256 (mk_gate 0 0 0 0 0 0 0)) false None None None.
Definition cpu0 : cpu := mk_cpu tabs0 [] ∅ ∅ 0xFEE00000 0 false.

(** A port reads the last byte written to it, and 0xFF before. *)
Fixpoint last_written (h : list (Z * Z)) (p : Z) : Z :=
  match h with
  | [] => 0xFF
  | (q, v) :: h' => if p =? q then v else last_written h' p
  end.
End CpuDemo.

(** A segment descriptor holds what it was made from: where the processor
    reads them, the base, the 20-bit limit and the access and flag bits come
    back, for every base, limit and flag word. *)
Theorem descriptor_roundtrip (base limit flag : Z) :
  in_u32 base -> 0 <= limit < 2 ^ 20 -> 0 <= flag < 2 ^ 16 ->
  seg_base (create_descriptor base limit flag) = base /\
  seg_limit (create_descriptor base limit flag) = limit /\
  seg_flags (create_descriptor base limit flag) = Z.land flag 0xF0FF.
Proof. exact (descriptor_fields base limit flag). Qed.

Lemma descriptor_roundtrip_witness :
  seg_base (create_descriptor 0x12345678 0xABCDE GDT_CODE_PL0) = 0x12345678 /\
  seg_limit (create_descriptor 0x12345678 0xABCDE GDT_CODE_PL0) = 0xABCDE /\
  seg_flags (create_descriptor 0x12345678 0xABCDE GDT_CODE_PL0) = 0xA09A.
Proof. apply (descriptor_roundtrip 0x12345678 0xABCDE GDT_CODE_PL0); split; vm_compute; done. Defined.

(** The table that [init_gdt] loads: flat segments, and a TSS descriptor that
    points to address 0, not to [tss]. *)
Lemma init_gdt_table s p : length s.(tabs).(gdt) = 7%nat ->
  exists s', init_gdt p s = Done (tt, s') /\
    s'.(tabs).(gdt) = [0; 0x00AF9A000000FFFF; 0x00CF92000000FFFF; 0x00CFFA000000FFFF; 0x00CFF2000000FFFF;
      0x000F89000000FFFF; 0] /\
    s'.(tabs).(gdtr) = Some (55, p) /\ s'.(tabs).(task_register) = Some 40.
Proof.
  intros Hl. destruct (gdt (tabs s)) as [|g0 [|g1 [|g2 [|g3 [|g4 [|g5 [|g6 [|? ?]]]]]]]] eqn:E; try discriminate.
  eexists. split; [reflexivity|]. cbn [tabs set_tabs gdt set_gdt gdtr task_register].
  rewrite E. split_and!; [|done|done]. by vm_compute.
Qed.

(** After [sysret] to 64-bit code the processor loads CS with the selector in
    bits 48 to 63 of STAR plus 16: with the value [_init_syscalls] writes that is
    the TSS descriptor, not user code. *)
Lemma star_selects_tss : Z.shiftr (USER_CS + 16) 3 = TSS_GDT_INDEX.
Proof. reflexivity. Qed.

(** C35. An interrupt gate leads to its handler: after [idt_set_gate] the gate of
    the vector, read as the processor does, is a present interrupt gate of the
    kernel code segment with exactly the given handler, and the other gates are
    as before.  [set_idt_vector] sets the gate if and only if the low 16 bits of
    the present handler are 0, so a handler aligned to 64 KiB is overwritten. *)
Theorem idt_gates (s : cpu) (v h : Z) :
  length s.(tabs).(idt) = 256%nat -> 0 <= v < 256 -> in_u64 h ->
  (exists s', idt_set_gate v h s = Done (tt, s') /\
     gate_handler (aget s'.(tabs).(idt) v) = h /\ selector (aget s'.(tabs).(idt) v) = KERNEL_CS /\
     type_attr (aget s'.(tabs).(idt) v) = 0x8E /\
     (forall w, w <> v -> aget s'.(tabs).(idt) w = aget s.(tabs).(idt) w) /\
     s'.(tabs).(gdt) = s.(tabs).(gdt) /\ s'.(ports) = s.(ports) /\ s'.(mmio) = s.(mmio)) /\
  (exists s', set_idt_vector v h s = Done (tt, s') /\
     if offset_low (aget s.(tabs).(idt) v) =? 0
     then gate_handler (aget s'.(tabs).(idt) v) = h /\ s'.(tabs).(idt_changed) = true
     else s' = s).
Proof.
  intros Hl Hv Hh.
  assert (u8 v = v) as Hu by (apply u8_id; unfold in_u8; lia). split.
  - eexists. split; [reflexivity|]. cbn [tabs set_tabs idt set_idt gdt ports mmio]. rewrite Hu.
    rewrite aget_aset_eq by lia. split_and!; try done; [by apply gate_roundtrip|].
    intros w Hw. by apply aget_aset_ne.
  - unfold set_idt_vector.
    rewrite (bind_eq _ _ _ _ _ (gets_eq (fun s : cpu => aget s.(tabs).(idt) (u8 v)) s)), Hu.
    destruct (offset_low (aget s.(tabs).(idt) v) =? 0); cbn [negb].
    + eexists. split; [reflexivity|]. cbn [tabs set_tabs idt set_idt idt_changed]. rewrite Hu.
      rewrite aget_aset_eq by lia. split; [by apply gate_roundtrip|done].
    + by exists s.
Qed.

Lemma idt_gates_witness :
  exists s', idt_set_gate 14 0xFFFFFFFF80123456 CpuDemo.cpu0 = Done (tt, s') /\
    gate_handler (aget s'.(tabs).(idt) 14) = 0xFFFFFFFF80123456.
Proof.
  destruct (idt_gates CpuDemo.cpu0 14 0xFFFFFFFF80123456) as [(s' & E & Hg & _) _];
    [reflexivity|split; vm_compute; done|split; vm_compute; done|].
  exists s'. split; [exact E|exact Hg].
Defined.

(** ** Interrupt masks *)

Section masks.
Context (port_value : list (Z * Z) -> Z -> Z).
(** A data port of the controller reads back its mask register. *)
Context (Hsame : forall h v c, port_value ((pic_data c, v) :: h) (pic_data c) = v).
Context (Hother : forall h q v c, q <> pic_data c -> port_value ((q, v) :: h) (pic_data c) = port_value h (pic_data c)).

Definition irq_mask (s : cpu) (chip : Z) : Z := u8 (port_value s.(ports) (pic_data chip)).
Definition masked (s : cpu) (irq : Z) : bool :=
  if irq <? 8 then Z.testbit (irq_mask s 0) irq else Z.testbit (irq_mask s 1) (irq - 8).

Lemma pic_data_u16 c : u16 (pic_data c) = pic_data c.
Proof. unfold pic_data. by destruct (c =? 0). Qed.
Lemma pic_data_ne c c' : (c =? 0) <> (c' =? 0) -> pic_data c <> pic_data c'.
Proof. unfold pic_data. by destruct (c =? 0), (c' =? 0). Qed.

Lemma mask_write s v c c' : irq_mask
  (mk_cpu s.(tabs) ((pic_data c, u8 v) :: s.(ports)) s.(msrs) s.(mmio) s.(apic_addr) s.(total_ticks) s.(interrupts_on)) c'
  = if decide ((c =? 0) = (c' =? 0)) then u8 v else irq_mask s c'.
Proof.
  unfold irq_mask. cbn [ports]. case_decide as Hc.
  - replace (pic_data c') with (pic_data c) by (unfold pic_data; by rewrite Hc).
    rewrite Hsame. unfold u8. rewrite Z.mod_mod; lia.
  - by rewrite Hother by by apply pic_data_ne.
Qed.

(** Clearing one bit of a mask register. *)
Lemma unmask_spec s chip irq : 0 <= irq < 8 ->
  exists s', pic_unmask port_value chip irq s = Done (tt, s') /\
    (forall k, 0 <= k < 8 -> Z.testbit (irq_mask s' chip) k = Z.testbit (irq_mask s chip) k && negb (k =? irq)) /\
    (forall c, (c =? 0) <> (chip =? 0) -> irq_mask s' c = irq_mask s c).
Proof.
  intros Hi. eexists. split; [reflexivity|]. cbn beta. rewrite pic_data_u16. split.
  - intros k Hk. rewrite mask_write, decide_True by done. fold (irq_mask s chip).
    rewrite !testbit_u8 by lia. destruct (Z.ltb_spec k 8); [|lia].
    rewrite Z.land_spec, Z.lnot_spec, testbit_shl1 by lia. cbn [andb]. done.
  - intros c Hc. rewrite mask_write, decide_False; congruence.
Qed.

Lemma masked_of s s' irq :
  (forall k, 0 <= k < 8 -> Z.testbit (irq_mask s' 0) k = Z.testbit (irq_mask s 0) k && negb (k =? irq)) ->
  (forall c, (c =? 0) <> (0 =? 0) -> irq_mask s' c = irq_mask s c) -> irq < 8 ->
  forall k, 0 <= k < 16 -> masked s' k = masked s k && negb (k =? irq).
Proof.
  intros H0 H1 Hi k Hk. unfold masked. destruct (Z.ltb_spec k 8); [apply H0; lia|].
  rewrite H1 by done. destruct (Z.eqb_spec k irq); [lia|]. by rewrite andb_true_r.
Qed.

Lemma pic_enable_masks s irq : 0 <= irq < 16 ->
  exists s', pic_enable port_value irq s = Done (tt, s') /\
    forall k, 0 <= k < 16 -> masked s' k = masked s k && negb ((k =? irq) || (8 <=? irq) && (k =? 2)).
Proof.
  intros Hi. unfold pic_enable. destruct (Z.ltb_spec irq 8).
  - destruct (unmask_spec s 0 irq ltac:(lia)) as (s' & E & H0 & H1). exists s'. split; [done|].
    intros k Hk. rewrite (masked_of s s' irq H0 H1) by lia. destruct (Z.leb_spec 8 irq); [lia|]. by rewrite orb_false_r.
  - destruct (unmask_spec s 1 (irq - 8) ltac:(lia)) as (s1 & E1 & A1 & B1). rewrite (bind_eq _ _ _ _ _ E1).
    destruct (unmask_spec s1 0 2 ltac:(lia)) as (s' & E & H0 & H1). exists s'. split; [done|].
    intros k Hk. rewrite (masked_of s1 s' 2 H0 H1) by lia. destruct (Z.leb_spec 8 irq); [|lia]. cbn [andb].
    unfold masked. destruct (Z.ltb_spec k 8).
    + rewrite B1 by done. destruct (Z.eqb_spec k irq); [lia|]. done.
    + rewrite A1 by lia. destruct (Z.eqb_spec k 2); [lia|]. rewrite orb_false_r, andb_true_r. do 2 f_equal.
      destruct (Z.eqb_spec (k - 8) (irq - 8)), (Z.eqb_spec k irq); lia || done.
Qed.

(** A write to another port changes no mask. *)
Definition keeps_masks (m : M cpu unit) : Prop := forall s,
  exists s', m s = Done (tt, s') /\ forall c, irq_mask s' c = irq_mask s c.

Lemma outb_keeps v p : u16 p <> 0x21 -> u16 p <> 0xA1 -> keeps_masks (outb v p).
Proof.
  intros H1 H2 s. eexists. split; [reflexivity|]. intros c. unfold irq_mask. cbn [ports].
  rewrite Hother; [done|]. unfold pic_data. by destruct (c =? 0).
Qed.

Lemma keeps_seq m1 m2 : keeps_masks m1 -> keeps_masks m2 -> keeps_masks (_ ← m1; m2).
Proof.
  intros H1 H2 s. destruct (H1 s) as (s1 & E1 & K1). destruct (H2 s1) as (s2 & E2 & K2).
  exists s2. split; [by rewrite (bind_eq _ _ _ _ _ E1)|]. intros c. by rewrite K2.
Qed.

Lemma disable_total_masks : keeps_masks pic_disable_total.
Proof. unfold pic_disable_total. repeat apply keeps_seq; apply outb_keeps; vm_compute; discriminate. Qed.
End masks.

(** For controllers whose data port reads back the mask: [pic_enable] unmasks
    exactly the given line, and for a line of the second controller the cascade
    line 2 too; [pic_disable_total] changes no mask at all, since its calls of
    [outb] have the port and the value exchanged. *)
Theorem pic_masks (port_value : list (Z * Z) -> Z -> Z) (s : cpu) (irq : Z) :
  (forall h v c, port_value ((pic_data c, v) :: h) (pic_data c) = v) ->
  (forall h q v c, q <> pic_data c -> port_value ((q, v) :: h) (pic_data c) = port_value h (pic_data c)) ->
  0 <= irq < 16 ->
  (exists s', pic_enable port_value irq s = Done (tt, s') /\
    forall k, 0 <= k < 16 ->
      masked port_value s' k = masked port_value s k && negb ((k =? irq) || (8 <=? irq) && (k =? 2))) /\
  (exists s', pic_disable_total s = Done (tt, s') /\
    forall k, masked port_value s' k = masked port_value s k).
Proof.
  intros H1 H2 Hi. split; [by apply pic_enable_masks|].
  destruct (disable_total_masks port_value H2 s) as (s' & E & Hm).
  exists s'. split; [done|]. intros k. unfold masked. by rewrite !Hm.
Qed.

Lemma pic_masks_witness :
  exists s', pic_enable CpuDemo.last_written 12 CpuDemo.cpu0 = Done (tt, s') /\
    masked CpuDemo.last_written s' 12 = false /\ masked CpuDemo.last_written s' 2 = false /\
    masked CpuDemo.last_written s' 3 = true.
Proof.
  destruct (pic_masks CpuDemo.last_written CpuDemo.cpu0 12) as [(s' & E & Hm) _].
  - intros h v c. cbn. by rewrite Z.eqb_refl.
  - intros h q v c Hq. cbn. by destruct (Z.eqb_spec (pic_data c) q); [congruence|].
  - lia.
  - exists s'. split; [exact E|]. rewrite !Hm by lia. vm_compute. split_and!; reflexivity.
Defined.

(** ** Timer *)

Definition lvt (s : cpu) : Z := s.(mmio) !!! (s.(apic_addr) + APIC_LVT_TIMER).

Lemma mmio_write s a v : exists s', apic_write_reg s.(apic_addr) a v s = Done (tt, s') /\
  s'.(mmio) = <[s.(apic_addr) + a := u32 v]> s.(mmio) /\ s'.(apic_addr) = s.(apic_addr) /\
  s'.(total_ticks) = s.(total_ticks) /\ s'.(tabs) = s.(tabs).
Proof. eexists. split; [reflexivity|]. done. Qed.

(** [start_clock] leaves the local timer unmasked, periodic and on vector 32
    with a non-zero initial count, keeping the register's other bits;
    [stop_clock] sets the mask bit only.  A timer interrupt adds one tick and
    acknowledges, and [get_milliseconds] never goes back as long as the ticks
    stay below [2^64 / 1000]. *)
Theorem timer_control (s : cpu) :
  in_u32 (lvt s) ->
  (exists s', start_clock s = Done (tt, s') /\
    (forall k, 0 <= k < 32 -> Z.testbit (lvt s') k =
       if k <? 8 then k =? 5 else if k =? 16 then false else if k =? 17 then true else Z.testbit (lvt s) k) /\
    s'.(mmio) !!! (s.(apic_addr) + APIC_TIMER_INITIAL_COUNT) = 10000000 /\ s'.(total_ticks) = s.(total_ticks)) /\
  (exists s', stop_clock s = Done (tt, s') /\
    forall k, 0 <= k < 32 -> Z.testbit (lvt s') k = (k =? 16) || Z.testbit (lvt s) k) /\
  (exists s', clock_interrupt s = Done (tt, s') /\
    s'.(mmio) = <[s.(apic_addr) + APIC_EOI := 0]> s.(mmio) /\ s'.(total_ticks) = u64 (s.(total_ticks) + 1) /\
    (0 <= s.(total_ticks) < 18446744073709551 ->
       exists a b, get_milliseconds s = Done (a, s) /\ get_milliseconds s' = Done (b, s') /\ a <= b <= a + 10)).
Proof.
  intros Hl. split_and!.
  - unfold start_clock, apic_timer_start, with_apic, apic_read_reg, apic_write_reg, mbind, M_bind, gets, modify.
    cbv beta iota zeta. eexists. split; [reflexivity|]. unfold lvt, APIC_LVT_TIMER, APIC_TIMER_INITIAL_COUNT, APIC_TIMER_DIVIDE in *.
    cbn [mmio apic_addr total_ticks]. split_and!; [| |done].
    + rewrite lookup_total_insert_eq. set (v := mmio s !!! (apic_addr s + 800)).
      change (mmio s !!! (apic_addr s + 800)) with v in Hl. clearbody v.
      intros k Hk. each_bit k; bit_specs; bit_simpl; bit_index; reflexivity.
    + rewrite lookup_total_insert_ne by lia. rewrite lookup_total_insert_eq. done.
  - unfold stop_clock, apic_timer_stop, with_apic, apic_read_reg, apic_write_reg, mbind, M_bind, gets, modify.
    cbv beta iota zeta. eexists. split; [reflexivity|]. unfold lvt, APIC_LVT_TIMER in *. cbn [mmio apic_addr].
    rewrite lookup_total_insert_eq. set (v := mmio s !!! (apic_addr s + 800)) in *. clearbody v.
    intros k Hk. each_bit k; bit_specs; bit_simpl; bit_index; reflexivity.
  - eexists. split; [reflexivity|]. cbn [mmio total_ticks]. split_and!; [done|done|].
    intros Ht. eexists. eexists. split; [reflexivity|]. split; [reflexivity|]. cbn [total_ticks].
    rewrite !u64_id by (unfold in_u64; rewrite ?u64_id; unfold in_u64; lia). Z.div_mod_to_equations. lia.
Qed.

Lemma timer_control_witness :
  exists s', start_clock CpuDemo.cpu0 = Done (tt, s') /\ Z.testbit (lvt s') 16 = false /\ Z.testbit (lvt s') 17 = true.
Proof.
  destruct (timer_control CpuDemo.cpu0) as [(s' & E & Hk & _) _]; [split; vm_compute; done|].
  exists s'. split; [exact E|]. rewrite !Hk by lia. split; reflexivity.
Defined.
