(* ===== verification/Syscalls.v ===== *)
(** * System calls ([kernel/arch/x86_64/syscalls/syscalls.c])

    The table of handlers, the calls that change it and the dispatcher.  A
    handler function is its address, 0 for none; dispatching either returns a
    code or calls an address with the six arguments.  Reading a handler
    structure through a user pointer is a parameter. *)

From S2P Require Import Prelude Cpu.

Record SYSCALL_HANDLER := mk_handler { ID : Z; FLAGS : Z; function : Z }.
#[export] Instance handler_inhabited : Inhabited SYSCALL_HANDLER := populate (mk_handler 0 0 0).

Definition SYSCALL_COUNT : Z := 2048.

Definition SYSCALL_SUCCESS : Z := 0.
Definition SYSCALL_ERROR : Z := 1.
Definition SYSCALL_VALID : Z := 2.
Definition SYSCALL_INVALID : Z := 3.
Definition SYSCALL_TAKEN : Z := 4.
Definition SYSCALL_NOT_PRIVILAGED : Z := 5.

Definition SYSCALL_FLAG_EXISTS : Z := 1.
Definition SYSCALL_FLAG_KERNEL_ONLY : Z := 2.
Definition SYSCALL_FLAG_USER_ONLY : Z := 4.
Definition SYSCALL_FLAG_WRITE_PROTECTED : Z := 8.

Definition MSR_EFER : Z := 0xC0000080.
Definition MSR_STAR : Z := 0xC0000081.
Definition MSR_LSTAR : Z := 0xC0000082.
Definition MSR_FMASK : Z := 0xC0000084.

Record sys := mk_sys { sys_cpu : cpu; syscalls : list SYSCALL_HANDLER }.

Definition on_cpu {A : Type} (m : M cpu A) : M sys A := fun s =>
  match m s.(sys_cpu) with
  | Done (a, c) => Done (a, mk_sys c s.(syscalls))
  | Panicked w => Panicked w
  | Fault => Fault
  end.

(** [syscalls[i]], with the bound of the array. *)
Definition entry (i : Z) : M sys SYSCALL_HANDLER := fun s =>
  if (0 <=? i) && (i <? SYSCALL_COUNT) then Done (aget s.(syscalls) i, s) else Fault.
Definition set_entry (i : Z) (h : SYSCALL_HANDLER) : M sys unit :=
  modify (fun s => mk_sys s.(sys_cpu) (aset s.(syscalls) i h)).

Definition exists_flag (h : SYSCALL_HANDLER) : bool := negb (Z.land h.(FLAGS) SYSCALL_FLAG_EXISTS =? 0).

Definition assign_syscall_handler (handler : SYSCALL_HANDLER) : M sys Z :=
  if (SYSCALL_COUNT <=? handler.(ID)) || (handler.(function) =? 0) then mret SYSCALL_INVALID else
  e ← entry handler.(ID);
  if exists_flag e then mret SYSCALL_TAKEN else
  _ ← set_entry handler.(ID) handler;
  mret SYSCALL_SUCCESS.

Definition clear_flags (id : Z) : M sys Z :=
  e ← entry id;
  _ ← set_entry id (mk_handler e.(ID) 0 e.(function));
  mret SYSCALL_SUCCESS.

Definition remove_syscall_handler (handler : SYSCALL_HANDLER) : M sys Z :=
  if SYSCALL_COUNT <=? handler.(ID) then mret SYSCALL_INVALID else clear_flags handler.(ID).

Definition assign_syscall (id function flags : Z) : M sys Z :=
  if (SYSCALL_COUNT <=? id) || (function =? 0) then mret SYSCALL_INVALID else
  e ← entry id;
  if exists_flag e then mret SYSCALL_TAKEN else
  _ ← set_entry id (mk_handler id flags function);
  mret SYSCALL_SUCCESS.

Definition remove_syscall (id : Z) : M sys Z :=
  if SYSCALL_COUNT <=? id then mret SYSCALL_INVALID else clear_flags id.

Section syscalls.
(** The structure a user pointer points to, if it can be read. *)
Context (read_handler : Z -> option SYSCALL_HANDLER).

Definition assign_syscall_usermode (arg1 : Z) : M sys Z :=
  match read_handler arg1 with
  | Some h => assign_syscall h.(ID) h.(function) h.(FLAGS)
  | None => fault
  end.
Definition remove_syscall_usermode (arg1 : Z) : M sys Z :=
  match read_handler arg1 with
  | Some h => remove_syscall h.(ID)
  | None => fault
  end.
End syscalls.

Definition return_syscall_usermode (arg1 : Z) : M sys SYSCALL_HANDLER :=
  if SYSCALL_COUNT <? arg1 then entry (2048 - 1) else entry arg1.

(** The addresses of the functions that [syscalls.c] registers. *)
Record sys_fns := mk_fns {
  fn_assign : Z;
  fn_remove : Z;
  fn_return : Z;
  fn_config : Z;
  fn_entry : Z;
}.

Definition syscall_config_mode (fns : sys_fns) : M sys unit :=
  _ ← remove_syscall 2046;
  _ ← remove_syscall 2047;
  _ ← remove_syscall 2048;
  let flags := Z.lor SYSCALL_FLAG_EXISTS SYSCALL_FLAG_KERNEL_ONLY in
  _ ← assign_syscall 2046 fns.(fn_assign) flags;
  _ ← assign_syscall 2047 fns.(fn_remove) flags;
  _ ← assign_syscall 2048 fns.(fn_return) flags;
  mret tt.

Record syscall_frame := mk_frame {
  fID : Z; ARG1 : Z; ARG2 : Z; ARG3 : Z; ARG4 : Z; ARG5 : Z; ARG6 : Z;
}.

(** A dispatch returns a code itself or calls a function. *)
Inductive dispatched :=
  | Returned (code : Z)
  | Called (fn : Z) (args : list Z).

Definition syscall_dispatch (f : syscall_frame) : M sys dispatched :=
  if SYSCALL_COUNT <? f.(fID) then mret (Returned SYSCALL_INVALID) else
  e ← entry f.(fID);
  if (e.(ID) =? 0) || exists_flag e then mret (Returned SYSCALL_INVALID)
  else mret (Called e.(function) [f.(ARG1); f.(ARG2); f.(ARG3); f.(ARG4); f.(ARG5); f.(ARG6)]).

Definition _init_syscalls (fns : sys_fns) : M cpu unit :=
  efer ← rdmsr MSR_EFER;
  _ ← wrmsr MSR_EFER (Z.lor efer 1);
  star ← rdmsr MSR_STAR;
  let star := Z.lor star (Z.shiftl KERNEL_CS 32) in
  let star := Z.lor star (Z.shiftl USER_CS 48) in
  _ ← wrmsr MSR_STAR star;
  _ ← wrmsr MSR_LSTAR fns.(fn_entry);
  wrmsr MSR_FMASK 0.

(** [sizeof(SYSCALL_HANDLER)] is 24; [memset] clears the first [n] bytes of the
    table, the last entry possibly in part. *)
Definition clear_handler (n : Z) (h : SYSCALL_HANDLER) : SYSCALL_HANDLER :=
  mk_handler (if 8 <=? n then 0 else h.(ID)) (if 16 <=? n then 0 else h.(FLAGS))
    (if 24 <=? n then 0 else h.(function)).
Definition memset_table (n : Z) : M sys unit := modify (fun s =>
  mk_sys s.(sys_cpu) (imap (fun i h => clear_handler (n - 24 * Z.of_nat i) h) s.(syscalls))).

Definition init_syscalls (cpuid_eax : Z) (fns : sys_fns) : M sys bool :=
  if negb (has_cpu_msr cpuid_eax) then mret false else
  _ ← on_cpu (_init_syscalls fns);
  _ ← memset_table SYSCALL_COUNT;
  _ ← assign_syscall 2049 fns.(fn_config) (Z.lor SYSCALL_FLAG_EXISTS SYSCALL_FLAG_WRITE_PROTECTED);
  mret true.
