(* ===== verification/SyscallTheorems.v ===== *)
(** * The properties of the system call table *)

From S2P Require Import Prelude Cpu CpuFacts CpuTheorems Syscalls.

Module SysDemo.
Definition fns : sys_fns := mk_fns 0x1000 0x2000 0x3000 0x4000 0x5000.
Definition sys0 : sys := mk_sys CpuDemo.cpu0 (replicate 2048 (mk_handler 0 0 0)).
Definition frame (id : Z) : syscall_frame := mk_frame id 1 2 3 4 5 6.
End SysDemo.

Section table.
Implicit Types (s : sys).

Lemma entry_ok s i : 0 <= i < SYSCALL_COUNT -> entry i s = Done (aget s.(syscalls) i, s).
Proof.
  intros Hi. unfold entry. destruct (Z.leb_spec 0 i); [|lia]. by destruct (Z.ltb_spec i SYSCALL_COUNT); [|lia].
Qed.

(** What [assign_syscall] returns and does. *)
Lemma assign_cases s id f fl : 0 <= id ->
  assign_syscall id f fl s =
    if (SYSCALL_COUNT <=? id) || (f =? 0) then Done (SYSCALL_INVALID, s)
    else if exists_flag (aget s.(syscalls) id) then Done (SYSCALL_TAKEN, s)
    else Done (SYSCALL_SUCCESS, mk_sys s.(sys_cpu) (aset s.(syscalls) id (mk_handler id fl f))).
Proof.
  intros Hi. unfold assign_syscall. destruct (Z.leb_spec SYSCALL_COUNT id); cbn [orb]; [done|].
  destruct (f =? 0); [done|]. rewrite (bind_eq _ _ _ _ _ (entry_ok s id ltac:(lia))).
  by destruct (exists_flag _).
Qed.

Lemma remove_cases s id : 0 <= id ->
  remove_syscall id s =
    if SYSCALL_COUNT <=? id then Done (SYSCALL_INVALID, s)
    else Done (SYSCALL_SUCCESS, mk_sys s.(sys_cpu) (aset s.(syscalls) id
           (mk_handler (aget s.(syscalls) id).(ID) 0 (aget s.(syscalls) id).(function)))).
Proof.
  intros Hi. unfold remove_syscall. destruct (Z.leb_spec SYSCALL_COUNT id); [done|].
  unfold clear_flags. by rewrite (bind_eq _ _ _ _ _ (entry_ok s id ltac:(lia))).
Qed.

Lemma dispatch_cases s f : 0 <= f.(fID) ->
  syscall_dispatch f s =
    if SYSCALL_COUNT <? f.(fID) then Done (Returned SYSCALL_INVALID, s)
    else if SYSCALL_COUNT =? f.(fID) then Fault
    else let e := aget s.(syscalls) f.(fID) in
      Done (if (e.(ID) =? 0) || exists_flag e then Returned SYSCALL_INVALID
            else Called e.(function) [f.(ARG1); f.(ARG2); f.(ARG3); f.(ARG4); f.(ARG5); f.(ARG6)], s).
Proof.
  intros Hi. unfold syscall_dispatch. destruct (Z.ltb_spec SYSCALL_COUNT f.(fID)); [done|].
  destruct (Z.eqb_spec SYSCALL_COUNT f.(fID)) as [He|He].
  - unfold mbind, M_bind, entry. rewrite <-He. done.
  - rewrite (bind_eq _ _ _ _ _ (entry_ok s f.(fID) ltac:(lia))). cbv zeta. by destruct (_ || _).
Qed.
End table.

(** C36. The dispatcher has its existence test the wrong way round.  A call
    registered with [SYSCALL_FLAG_EXISTS] is never dispatched: its number is
    answered with [SYSCALL_INVALID].  Once it has been removed, its number (if
    not 0) calls the removed function. *)
Theorem dispatch_inverted (s : sys) (id f fl : Z) (fr : syscall_frame) :
  length s.(syscalls) = Z.to_nat SYSCALL_COUNT -> 0 <= id < SYSCALL_COUNT -> fr.(fID) = id ->
  Z.land fl SYSCALL_FLAG_EXISTS <> 0 -> f <> 0 -> exists_flag (aget s.(syscalls) id) = false ->
  exists s1 s2,
    assign_syscall id f fl s = Done (SYSCALL_SUCCESS, s1) /\
    syscall_dispatch fr s1 = Done (Returned SYSCALL_INVALID, s1) /\
    remove_syscall id s1 = Done (SYSCALL_SUCCESS, s2) /\
    syscall_dispatch fr s2 = Done (if id =? 0 then Returned SYSCALL_INVALID
      else Called f [fr.(ARG1); fr.(ARG2); fr.(ARG3); fr.(ARG4); fr.(ARG5); fr.(ARG6)], s2).
Proof.
  intros Hl Hi Hfr Hfl Hf He. rewrite assign_cases by lia.
  destruct (Z.leb_spec SYSCALL_COUNT id); [lia|]. destruct (Z.eqb_spec f 0); [done|]. cbn [orb]. rewrite He.
  eexists. eexists. split; [reflexivity|].
  set (l1 := aset s.(syscalls) id (mk_handler id fl f)).
  assert (length l1 = Z.to_nat SYSCALL_COUNT) as Hl1 by (unfold l1; by rewrite length_aset).
  assert (aget l1 id = mk_handler id fl f) as Hg1 by (apply aget_aset_eq; unfold SYSCALL_COUNT in *; lia).
  split; [|split].
  - rewrite dispatch_cases by lia. rewrite Hfr. cbn [syscalls].
    destruct (Z.ltb_spec SYSCALL_COUNT id); [lia|]. destruct (Z.eqb_spec SYSCALL_COUNT id); [lia|].
    cbv zeta. rewrite Hg1. unfold exists_flag. cbn [ID FLAGS].
    destruct (Z.eqb_spec (Z.land fl SYSCALL_FLAG_EXISTS) 0); [done|]. by rewrite orb_true_r.
  - rewrite remove_cases by lia. destruct (Z.leb_spec SYSCALL_COUNT id); [lia|]. reflexivity.
  - cbn [syscalls sys_cpu]. fold l1. rewrite Hg1. cbn [ID function]. rewrite dispatch_cases by lia. rewrite Hfr. cbn [syscalls].
    destruct (Z.ltb_spec SYSCALL_COUNT id); [lia|]. destruct (Z.eqb_spec SYSCALL_COUNT id); [lia|].
    cbv zeta. rewrite aget_aset_eq by (unfold SYSCALL_COUNT in *; lia). cbn [ID FLAGS function].
    unfold exists_flag. cbn [FLAGS]. by rewrite orb_false_r.
Qed.

Lemma dispatch_inverted_witness :
  exists s1 s2,
    assign_syscall 7 0x1234 1 SysDemo.sys0 = Done (SYSCALL_SUCCESS, s1) /\
    syscall_dispatch (SysDemo.frame 7) s1 = Done (Returned SYSCALL_INVALID, s1) /\
    remove_syscall 7 s1 = Done (SYSCALL_SUCCESS, s2) /\
    syscall_dispatch (SysDemo.frame 7) s2 = Done (Called 0x1234 [1; 2; 3; 4; 5; 6], s2).
Proof.
  exact (dispatch_inverted SysDemo.sys0 7 0x1234 1 (SysDemo.frame 7)
    ltac:(by vm_compute) ltac:(split; vm_compute; done) eq_refl ltac:(discriminate) ltac:(discriminate)
    ltac:(by vm_compute)).
Defined.

(** After [init_syscalls] on the table as the kernel image has it, no system
    call is served: the configuration call 2049 does not fit the table and is
    not registered, every other number is answered with [SYSCALL_INVALID], and
    the number 2048, one past the table, passes the bound test and reads outside
    it.  [syscall_config_mode] registers two of its three services. *)
Theorem init_serves_nothing (s : sys) (eax : Z) (fns : sys_fns) (fr : syscall_frame) :
  s.(syscalls) = replicate (Z.to_nat SYSCALL_COUNT) (mk_handler 0 0 0) -> 1 <= eax -> 0 <= fr.(fID) ->
  exists s', init_syscalls eax fns s = Done (true, s') /\
    s'.(syscalls) = s.(syscalls) /\
    syscall_dispatch fr s' = (if fr.(fID) =? SYSCALL_COUNT then Fault else Done (Returned SYSCALL_INVALID, s')) /\
    (fns.(fn_assign) <> 0 -> fns.(fn_remove) <> 0 ->
     exists s2, syscall_config_mode fns s' = Done (tt, s2) /\
       aget s2.(syscalls) 2046 = mk_handler 2046 3 fns.(fn_assign) /\
       aget s2.(syscalls) 2047 = mk_handler 2047 3 fns.(fn_remove) /\
       forall i, i <> 2046 -> i <> 2047 -> aget s2.(syscalls) i = aget s.(syscalls) i).
Proof.
  intros Hs He Hfr. unfold init_syscalls, has_cpu_msr. destruct (Z.ltb_spec eax 1); [lia|]. cbn [negb].
  destruct (on_cpu (_init_syscalls fns) s) as [[[] s1]| |] eqn:E1; [|discriminate..].
  assert (s1.(syscalls) = s.(syscalls)) as Hs1 by (by injection E1 as <-).
  rewrite (bind_eq _ _ _ _ _ E1). unfold memset_table.
  set (s2 := mk_sys s1.(sys_cpu) (imap (fun i h => clear_handler (SYSCALL_COUNT - 24 * Z.of_nat i) h) s1.(syscalls))).
  assert (s2.(syscalls) = s.(syscalls)) as Hs2.
  { cbn [s2 syscalls]. rewrite Hs1, Hs. by vm_compute. }
  unfold mbind at 1, M_bind at 1, modify. fold s2. rewrite (bind_eq _ _ _ SYSCALL_INVALID s2).
  2: { rewrite assign_cases by lia. done. }
  exists s2. split; [done|]. split; [done|].
  assert (forall i, aget s2.(syscalls) i = mk_handler 0 0 0) as Hz.
  { intros i. rewrite Hs2, Hs. unfold aget. destruct (i <? 0); [done|].
    destruct (lookup (Z.to_nat i) (replicate (Z.to_nat SYSCALL_COUNT) (mk_handler 0 0 0))) as [h|] eqn:Eh.
    - rewrite (list_lookup_total_correct _ _ _ Eh). apply lookup_replicate in Eh as [-> _]. done.
    - rewrite list_lookup_total_alt, Eh. done. }
  split.
  - rewrite dispatch_cases by done. rewrite (Z.eqb_sym fr.(fID)). destruct (Z.eqb_spec SYSCALL_COUNT fr.(fID)) as [Heq|].
    + rewrite <-Heq. done.
    + destruct (SYSCALL_COUNT <? fr.(fID)); [done|]. cbv zeta. by rewrite Hz.
  - intros Hfa Hfrm. assert (length s2.(syscalls) = 2048%nat) as Hlen by (rewrite Hs2, Hs; by vm_compute).
    set (h0 := mk_handler 0 0 0) in *.
    assert (forall i, mk_handler (aget s2.(syscalls) i).(ID) 0 (aget s2.(syscalls) i).(function) = h0) as Hcl
      by (intros i; by rewrite Hz).
    assert (forall i, 0 <= i < 2048 -> remove_syscall i s2 = Done (SYSCALL_SUCCESS, s2)) as Hrm.
    { intros i Hi. rewrite remove_cases by lia. unfold SYSCALL_COUNT. destruct (Z.leb_spec 2048 i); [lia|].
      rewrite Hcl. rewrite <-(Hz i). rewrite aset_aget by lia. by destruct s2. }
    assert (remove_syscall 2048 s2 = Done (SYSCALL_INVALID, s2)) as Hrm2 by done.
    unfold syscall_config_mode.
    rewrite (bind_eq _ _ _ _ _ (Hrm 2046 ltac:(lia))), (bind_eq _ _ _ _ _ (Hrm 2047 ltac:(lia))), (bind_eq _ _ _ _ _ Hrm2).
    cbv zeta. change (Z.lor SYSCALL_FLAG_EXISTS SYSCALL_FLAG_KERNEL_ONLY) with 3.
    set (s3 := mk_sys s2.(sys_cpu) (aset s2.(syscalls) 2046 (mk_handler 2046 3 fns.(fn_assign)))).
    set (s4 := mk_sys s2.(sys_cpu) (aset s3.(syscalls) 2047 (mk_handler 2047 3 fns.(fn_remove)))).
    rewrite (bind_eq _ _ _ SYSCALL_SUCCESS s3).
    2: { rewrite assign_cases by lia. unfold SYSCALL_COUNT. cbn [Z.leb Z.compare Pos.compare Pos.compare_cont orb].
         destruct (Z.eqb_spec fns.(fn_assign) 0); [done|]. by rewrite Hz. }
    rewrite (bind_eq _ _ _ SYSCALL_SUCCESS s4).
    2: { rewrite assign_cases by lia. unfold SYSCALL_COUNT. cbn [Z.leb Z.compare Pos.compare Pos.compare_cont orb].
         destruct (Z.eqb_spec fns.(fn_remove) 0); [done|].
         cbn [s3 syscalls]. rewrite aget_aset_ne by lia. by rewrite Hz. }
    rewrite (bind_eq _ _ _ SYSCALL_INVALID s4) by done.
    exists s4. split; [done|]. cbn [s4 s3 syscalls]. split_and!.
    + rewrite aget_aset_ne by lia. apply aget_aset_eq. lia.
    + apply aget_aset_eq. rewrite length_aset. lia.
    + intros i H1 H2. rewrite !aget_aset_ne by lia. by rewrite Hs2.
Qed.

Lemma init_serves_nothing_witness :
  exists s', init_syscalls 13 SysDemo.fns SysDemo.sys0 = Done (true, s') /\
    syscall_dispatch (SysDemo.frame 2048) s' = Fault.
Proof.
  destruct (init_serves_nothing SysDemo.sys0 13 SysDemo.fns (SysDemo.frame 2048) eq_refl ltac:(lia) ltac:(cbn; lia))
    as (s' & E & _ & Hd & _).
  exists s'. split; [exact E|exact Hd].
Defined.
