(* ===== verification/Init.v ===== *)
(** * Start-up of the kernel ([kernel/arch/x86_64/init.c], [kernel/startup.c], [kernel/lib/time.h])

    The order in which the components are brought up: the self-test of the
    frame allocator, memory, processor tables and devices, and the checks and
    waiting loops of [kernel_main].  The addresses of the interrupt entry points
    and the results of CPUID are arguments. *)

From S2P Require Import Prelude FromBoot Pmm PageTable Vmm Cpu Syscalls.

(** ** Memory *)

Definition palloc_M : M pmm Z := fun s => Done (palloc s).
Definition pfree_M (a : Z) : M pmm unit := modify (pfree a).

Section memory.
Context (read_desc : Z -> EFI_MEMORY_DESCRIPTOR).

Definition test_ppm_func (mem_map mem_map_size descriptor_size : Z) : M pmm unit :=
  page ← palloc_M;
  if negb (page =? 0) then kernel_panic "Allocated before PMM init" else
  _ ← for_upM 15 0 (fun i => pfree_M (i * 0x1000));
  _ ← init_pmm read_desc mem_map mem_map_size descriptor_size;
  before ← gets get_free_pages;
  page ← palloc_M;
  if page =? 0 then kernel_panic "Allocation failed" else
  _ ← pfree_M page;
  after ← gets get_free_pages;
  if negb (after =? before) then kernel_panic "Page count mismatch" else mret tt.

Definition on_pmm {A : Type} (m : M pmm A) : M vmm A := fun s =>
  match m s.(pm) with
  | Done (a, p) => Done (a, set_pm p s)
  | Panicked w => Panicked w
  | Fault => Fault
  end.

Definition init_memory (boot : BootInfo) (cpu : cpu_inputs) : M vmm unit :=
  _ ← on_pmm (test_ppm_func boot.(memory_map) boot.(memory_map_size) boot.(memory_descriptor_size));
  init_vmm read_desc boot cpu.
End memory.

(** ** Processor and devices *)

(** The entry points of [interrupts.s] and [clock_s.s]. *)
Record handlers := mk_handlers {
  divide_handler : Z;
  invalid_opcode_handler : Z;
  double_fault_handler : Z;
  general_protection_handler : Z;
  page_fault_handler : Z;
  spurious_int_handler : Z;
  tick_interrupt : Z;
}.

Definition sizeof_idt : Z := 256 * 16.

(** The five [idt_set_gate] calls that both routines make. *)
Definition fault_gates (h : handlers) : M cpu unit :=
  _ ← idt_set_gate 0 h.(divide_handler);
  _ ← idt_set_gate 6 h.(invalid_opcode_handler);
  _ ← idt_set_gate 13 h.(general_protection_handler);
  _ ← idt_set_gate 14 h.(page_fault_handler);
  idt_set_gate 8 h.(double_fault_handler).

Definition init_primitivs (h : handlers) (gdt_ptr idt_ptr : Z) : M cpu unit :=
  _ ← cli;
  _ ← init_gdt gdt_ptr;
  _ ← fault_gates h;
  _ ← load_idt (sizeof_idt - 1) idt_ptr;
  sti.

Section cpu.
Context (port_value : list (Z * Z) -> Z -> Z).

(** [cpuid0_eax] and [cpuid1_edx]: the results of CPUID leaves 0 and 1. *)
Definition init_cpu (h : handlers) (fns : sys_fns) (gdt_ptr idt_ptr cpuid0_eax cpuid1_edx : Z) : M sys unit :=
  _ ← on_cpu (
    _ ← cli;
    _ ← init_gdt gdt_ptr;
    _ ← fault_gates h;
    let support_apic := negb (Z.land cpuid1_edx (Z.shiftl 1 9) =? 0) in
    _ ← pic_init 0x20 0x28;
    _ ← pic_enable port_value 1;
    _ ← pit_count 0 100;
    _ ← (if support_apic then
           _ ← apic_init h.(spurious_int_handler) h.(tick_interrupt);
           _ ← apic_start;
           _ ← load_idt (sizeof_idt - 1) idt_ptr;
           _ ← pic_disable_total;
           timer_reset
         else
           _ ← pic_init 0x20 0x28;
           _ ← pic_enable port_value 0;
           load_idt (sizeof_idt - 1) idt_ptr);
    sti);
  _ ← init_syscalls cpuid0_eax fns;
  mret tt.
End cpu.

(** ** [kernel_main] *)

(** The message of the check that makes [kernel_main] return; the order is
    the code's.  [ptr] is the argument, [boot] the structure it points to. *)
Definition check_boot (ptr : Z) (boot : BootInfo) : option string :=
  if ptr =? 0 then Some "Post-boot information table -- missing magic"%string
  else if negb (boot.(magic) =? BOOTINFOMAGIC) then Some "Post-boot information table -- missing magic"%string
  else if boot.(framebuffer_base) =? 0 then Some "Frame buffer base addr is missing"%string
  else if (boot.(width) =? 0) || (boot.(height) =? 0) then Some "Sizes (of frame buffer) are missing"%string
  else if 1 <? boot.(framebuffer_pixel_format) then Some "Unsupported frame buffer pixel format"%string
  else if (boot.(initramfs_address) =? 0) || (boot.(initramfs_size) =? 0) then Some "Initramfs is not valid"%string
  else None.

Record kernel := mk_kernel { k_vmm : vmm; k_sys : sys }.

Definition on_vmm {A : Type} (m : M vmm A) : M kernel A := fun s =>
  match m s.(k_vmm) with
  | Done (a, v) => Done (a, mk_kernel v s.(k_sys))
  | Panicked w => Panicked w
  | Fault => Fault
  end.
Definition on_sys {A : Type} (m : M sys A) : M kernel A := fun s =>
  match m s.(k_sys) with
  | Done (a, y) => Done (a, mk_kernel s.(k_vmm) y)
  | Panicked w => Panicked w
  | Fault => Fault
  end.

(** What the processor and the linker provide. *)
Record platform := mk_platform {
  pf_handlers : handlers;
  pf_fns : sys_fns;
  pf_gdt : Z;
  pf_idt : Z;
  pf_cpuid0_eax : Z;
  pf_inputs : cpu_inputs;
}.

Section bring_up.
Context (read_desc : Z -> EFI_MEMORY_DESCRIPTOR) (port_value : list (Z * Z) -> Z -> Z).
Context (pf : platform) (boot : BootInfo).

(** From [init_primitivs] to [init_cpu]. *)
Definition bring_up : M kernel unit :=
  _ ← on_sys (on_cpu (init_primitivs pf.(pf_handlers) pf.(pf_gdt) pf.(pf_idt)));
  _ ← on_sys (on_cpu cli);
  _ ← on_vmm (init_memory read_desc boot pf.(pf_inputs));
  _ ← on_sys (on_cpu sti);
  on_sys (init_cpu port_value pf.(pf_handlers) pf.(pf_fns) pf.(pf_gdt) pf.(pf_idt)
            pf.(pf_cpuid0_eax) pf.(pf_inputs).(cpuid1_edx)).
End bring_up.

(** ** Waiting

    [clock i] is what [get_milliseconds] (or [get_ticks]) returns at the [i]-th
    poll; the result is the number of the poll that ended the loop. *)

Definition int_abs (x : Z) : Z := let i := s32 x in if i <? 0 then s32 (- i) else i.

Fixpoint sleep_loop (fuel : nat) (clock : nat -> Z) (start time_ms : Z) (i : nat) : option nat :=
  match fuel with
  | O => None
  | S n =>
      (* the int result is converted to uint64_t for the comparison *)
      if u64 (int_abs (u64 (start - clock i))) <=? time_ms then sleep_loop n clock start time_ms (S i)
      else Some i
  end.

Definition kernel_sleep_ms (fuel : nat) (clock : nat -> Z) (time_ms : Z) : option nat :=
  sleep_loop fuel clock (clock 0%nat) time_ms 1.

(** ** Exceptions ([kernel/errs/exception.c]) *)

Definition divide_error {S : Type} : M S unit := kernel_panic "DIVIDE BY ZERO".
Definition invalid_opcode {S : Type} : M S unit := kernel_panic "INVALID OPCODE".
Definition general_protection {S : Type} : M S unit := kernel_panic "GENERAL PROTECTION".
Definition page_fault {S : Type} : M S unit := kernel_panic "PAGE FAULT".
Definition double_fault {S : Type} : M S unit := kernel_panic "DOUBLE FAULT".
