(* ===== verification/InitTheorems.v ===== *)
(** * The properties of start-up

    The self-test of the frame allocator, the memory set-up that follows it, the
    interrupt lines left open, and the waiting loops. *)

From S2P Require Import Prelude FromBoot Pmm PageTable Vmm VmmFacts VmmSpec VmmInit VmmTheorems.
From S2P Require Import Cpu CpuFacts CpuTheorems Syscalls SyscallTheorems Init.

(** ** Memory *)

Lemma for_up_region (body : Z -> pmm -> pmm) n i s :
  (forall k t, same_region t (body k t)) -> same_region s (for_up n i body s).
Proof.
  intros Hb. apply (for_up_inv (fun _ t => same_region s t)); [done|]. intros k t _ Ht. by etrans.
Qed.

Lemma free_entry_region d s : same_region s (free_entry d s).
Proof. unfold free_entry. case_match; [|done]. apply for_up_region. intros. apply mark_free_region. Qed.

(** The highest address [init_pmm] records. *)
Lemma init_pmm_extent rd mm sz ds s0 s' :
  init_pmm rd mm sz ds s0 = Done (tt, s') ->
  s'.(max_physical_address) =
    (for_up (Z.to_nat (sz / ds)) 0 (fun i => scan_entry (desc_at rd mm ds i)) (0, 0, 0)).1.1 /\
  s'.(max_pages) = s'.(max_physical_address) / PAGE_SIZE.
Proof.
  unfold init_pmm. destruct (ds =? 0); [done|]. cbv zeta.
  destruct (for_up (Z.to_nat (sz / ds)) 0 (fun i => scan_entry (desc_at rd mm ds i)) (0, 0, 0)) as [[maxa total] ram].
  destruct (_ =? 0); [done|]. intros [= <-]. cbn [fst].
  match goal with |- context [for_up ?n 0 ?f (mark_used 0 (for_up ?n2 0 ?g ?s1))] =>
    assert (same_region s1 (for_up n 0 f (mark_used 0 (for_up n2 0 g s1)))) as Hr end.
  { etrans; [apply (for_up_region (fun i => free_entry (desc_at rd mm ds i)))|].
    - intros. apply free_entry_region.
    - etrans; [apply mark_used_region|]. apply for_up_region. intros. apply mark_used_region. }
  destruct Hr as (_ & Hm & _ & _ & _ & _ & _ & _ & Ha). cbn in Hm, Ha |- *. by rewrite Hm, Ha.
Qed.

Lemma scan_upper at_ n B : 0 <= B ->
  (forall i, 0 <= i < Z.of_nat n -> (at_ i).(Type_) = EfiConventionalMemory -> end_of (at_ i) <= B) ->
  0 <= (for_up n 0 (fun i => scan_entry (at_ i)) (0, 0, 0)).1.1 <= B.
Proof.
  intros HB Hb. apply (for_up_inv (fun _ (t : Z * Z * Z) => 0 <= t.1.1 <= B)); [done|].
  intros k [[m t] r] Hk Ht. cbn in Ht |- *. unfold scan_entry.
  destruct (Z.eqb_spec (Type_ (at_ k)) EfiConventionalMemory) as [E|]; [|done]. cbn.
  specialize (Hb k ltac:(lia) E). pose proof (u64_range (PhysicalStart (at_ k) + u64 (NumberOfPages (at_ k) * PAGE_SIZE))) as Hu.
  unfold in_u64 in Hu. change (0 <= end_of (at_ k) < 18446744073709551616) in Hu.
  destruct (Z.ltb_spec m (end_of (at_ k))); lia.
Qed.

Section memory.
Context (rd : Z -> EFI_MEMORY_DESCRIPTOR) (mm sz ds : Z).
Context (Hd : ds <> 0) (Hpos : 0 <= sz / ds).
Context (Hok : forall i, 0 <= i < sz / ds -> desc_ok (desc_at rd mm ds i)).

Lemma init_ready s0 s1 : init_pmm rd mm sz ds s0 = Done (tt, s1) -> pmm_ready s1.
Proof.
  intros E. pose proof (init_pmm_result rd mm sz ds Hd Hpos Hok s0) as H. rewrite E in H.
  destruct H as (Hwf & Hi & _ & Hu & _). split_and!; [done|done|].
  destruct (page_used s1 0) eqn:Hz; [done|]. apply Hu in Hz; [|done]. by destruct Hz as (_ & ? & _).
Qed.

(** Before [init_pmm] the manager gives out nothing and ignores frees. *)
Lemma early_frees n : forall i, 0 <= i -> for_upM n i (fun i => pfree_M (i * 0x1000)) pmm_boot = Done (tt, pmm_boot).
Proof.
  induction n as [|n IH]; intros i Hi; cbn [for_upM]; [done|].
  assert (pfree (i * 0x1000) pmm_boot = pmm_boot) as E.
  { unfold pfree, mark_free, PAGE_SIZE. cbn [max_pages pmm_boot].
    by destruct (Z.leb_spec 0 (i * 4096 / 4096)); [|wsolve]. }
  unfold mbind at 1, M_bind at 1, pfree_M, modify. rewrite E. apply IH. lia.
Qed.

Lemma test_result :
  test_ppm_func rd mm sz ds pmm_boot =
  match init_pmm rd mm sz ds pmm_boot with
  | Done (_, s1) => if (palloc s1).1 =? 0 then Panicked "Allocation failed" else Done (tt, s1)
  | Panicked w => Panicked w
  | Fault => Fault
  end.
Proof.
  unfold test_ppm_func. rewrite (bind_eq _ _ pmm_boot 0 pmm_boot) by done. cbn [negb Z.eqb].
  rewrite (bind_eq _ _ _ _ _ (early_frees 15 0 ltac:(lia))).
  destruct (init_pmm rd mm sz ds pmm_boot) as [[[] s1]|w|] eqn:E;
    [|unfold mbind at 1, M_bind at 1; by rewrite E..].
  rewrite (bind_eq _ _ _ _ _ E), (bind_eq _ _ _ _ _ (gets_eq _ _)).
  pose proof (init_ready _ _ E) as Hr. destruct (palloc s1) as [a s2] eqn:Ea.
  assert (palloc_M s1 = Done (a, s2)) as Em by (unfold palloc_M; by rewrite Ea).
  rewrite (bind_eq _ _ _ _ _ Em). cbn [fst]. destruct (Z.eqb_spec a 0) as [|Ha]; [done|].
  destruct (palloc_some _ _ _ Hr Ea Ha) as (p & -> & Hp & Hf & _ & ->).
  assert (pfree_M (p * PAGE_SIZE) (mark_used p s1) = Done (tt, s1)) as Ef.
  { unfold pfree_M, modify, pfree, PAGE_SIZE. rewrite Z.div_mul by done.
    rewrite mark_free_mark_used; [done|apply Hr|lia|done]. }
  rewrite (bind_eq _ _ _ _ _ Ef), (bind_eq _ _ _ _ _ (gets_eq _ _)). by rewrite Z.eqb_refl.
Qed.
End memory.

(** The self-test that [init_memory] runs is transparent: on a well-formed
    UEFI map it leaves the frame allocator exactly as [init_pmm] does, its test
    frame given back.  The only panics it can add or pass on are the one of
    [init_pmm] and the one for a machine without a free frame; "Allocated before
    PMM init" and "Page count mismatch" cannot happen. *)
Theorem test_ppm_transparent (rd : Z -> EFI_MEMORY_DESCRIPTOR) (mm sz ds : Z) :
  ds <> 0 -> 0 <= sz / ds -> (forall i, 0 <= i < sz / ds -> desc_ok (desc_at rd mm ds i)) ->
  test_ppm_func rd mm sz ds pmm_boot =
  match init_pmm rd mm sz ds pmm_boot with
  | Done (_, s1) => if (palloc s1).1 =? 0 then Panicked "Allocation failed" else Done (tt, s1)
  | Panicked w => Panicked w
  | Fault => Fault
  end.
Proof. exact (test_result rd mm sz ds). Qed.

Lemma test_ppm_transparent_witness :
  test_ppm_func Pmm.Demo.desc 0x5000 144 48 pmm_boot = Done (tt, Pmm.Demo.state).
Proof.
  rewrite (test_ppm_transparent Pmm.Demo.desc 0x5000 144 48 ltac:(lia) ltac:(by vm_compute) Pmm.Demo.desc_all_ok).
  by vm_compute.
Defined.

(** The conventional memory ends below [maxa]. *)
Definition ram_below (rd : Z -> EFI_MEMORY_DESCRIPTOR) (boot : BootInfo) (B : Z) : Prop :=
  forall i, 0 <= i < boot.(memory_map_size) / boot.(memory_descriptor_size) ->
    let d := desc_at rd boot.(memory_map) boot.(memory_descriptor_size) i in
    desc_ok d /\ (d.(Type_) = EfiConventionalMemory -> d.(PhysicalStart) + d.(NumberOfPages) * PAGE_SIZE <= B).

Lemma booted_after_test rd boot s s1 :
  boot.(memory_descriptor_size) <> 0 ->
  0 <= boot.(memory_map_size) / boot.(memory_descriptor_size) -> ram_below rd boot (2 ^ 31) ->
  s.(pm) = pmm_boot -> s.(virtual_mem_initialized) = false ->
  on_pmm (test_ppm_func rd boot.(memory_map) boot.(memory_map_size) boot.(memory_descriptor_size)) s = Done (tt, s1) ->
  0 <= s1.(pm).(max_physical_address) <= 2 ^ 31 /\ boot_state s1.(pm).(max_physical_address) s1.
Proof.
  intros Hd Hpos Hram Hpm Hv E. unfold on_pmm in E. rewrite Hpm in E.
  assert (forall i, 0 <= i < memory_map_size boot / memory_descriptor_size boot ->
    desc_ok (desc_at rd (memory_map boot) (memory_descriptor_size boot) i)) as Hok by (intros; by apply Hram).
  rewrite (test_result rd _ _ _ Hd Hpos Hok) in E.
  destruct (init_pmm rd _ _ _ pmm_boot) as [[[] p]|w|] eqn:Ei; [|done|done].
  destruct ((palloc p).1 =? 0); [done|]. injection E as <-. cbn [pm set_pm virtual_mem_initialized].
  pose proof (init_ready rd _ _ _ Hd Hpos Hok _ _ Ei) as Hr.
  destruct (init_pmm_extent _ _ _ _ _ _ Ei) as [Hm Hx].
  assert (0 <= max_physical_address p <= 2 ^ 31) as Hb.
  { rewrite Hm. apply scan_upper; [lia|]. intros i Hi Ht. rewrite Z2Nat.id in Hi by done.
    rewrite end_of_ok by by apply Hok. by apply Hram. }
  split; [done|]. split_and!; [done| |done|done]. cbn [pm set_pm]. rewrite Hx. unfold PAGE_SIZE. wsolve.
Qed.

(** [init_memory], from the state the loader leaves: on a machine whose
    conventional memory ends at 2 GiB at most, with ranges that [init_vmm] can
    map, it panics (no room for the bitmap, no free frame) or ends with paging on. *)
Lemma init_memory_run (rd : Z -> EFI_MEMORY_DESCRIPTOR) (boot : BootInfo) (ci : cpu_inputs) (s : vmm) :
  0 <= boot.(memory_map_size) / boot.(memory_descriptor_size) -> ram_below rd boot (2 ^ 31) ->
  boot_ranges_ok rd boot ci -> s.(pm) = pmm_boot -> s.(virtual_mem_initialized) = false ->
  match init_memory rd boot ci s with
  | Done (_, s') => exists s1,
      on_pmm (test_ppm_func rd boot.(memory_map) boot.(memory_map_size) boot.(memory_descriptor_size)) s = Done (tt, s1) /\
      vmm_running s1.(pm).(max_physical_address) s'
  | Panicked _ => True
  | Fault => False
  end.
Proof.
  intros Hpos Hram Hbr Hpm Hv. pose proof (br_dsize _ _ _ Hbr) as Hd.
  unfold init_memory, mbind, M_bind.
  destruct (on_pmm _ s) as [[[] s1]|w|] eqn:E; [|done|].
  - destruct (booted_after_test rd boot s s1 ltac:(lia) Hpos Hram Hpm Hv E) as [Hb Hs1].
    pose proof (init_vmm_safe rd boot ci _ Hb Hbr s1 Hs1) as H.
    destruct (init_vmm rd boot ci s1) as [[[] s']|w|]; [|done|done]. by exists s1.
  - unfold on_pmm in E. rewrite Hpm in E.
    assert (forall i, 0 <= i < memory_map_size boot / memory_descriptor_size boot ->
      desc_ok (desc_at rd (memory_map boot) (memory_descriptor_size boot) i)) as Hok by (intros; by apply Hram).
    assert (memory_descriptor_size boot <> 0) as Hd0 by lia.
    rewrite (test_result rd _ _ _ Hd0 Hpos Hok) in E.
    pose proof (init_pmm_result rd _ _ _ Hd0 Hpos Hok pmm_boot) as H.
    destruct (init_pmm rd _ _ _ pmm_boot) as [[[] p]|w|]; [|done|done]. by destruct ((palloc p).1 =? 0).
Qed.

Module InitDemo.
Definition cold : vmm := mk_vmm pmm_boot ∅ 0 false KHEAP_BASE [].
End InitDemo.

Lemma demo_ram_below : ram_below VmmDemo.desc VmmDemo.boot (2 ^ 31).
Proof.
  intros i Hi. split; [exact (VmmDemo.boot_desc_ok i Hi)|]. change (0 <= i < 2) in Hi.
  assert (i = 0 \/ i = 1) as [-> | ->] by lia; intros _; vm_compute; discriminate.
Qed.

(** ** Interrupt lines *)

(** What a step does to the descriptor tables and the registers that load them,
    the history of port writes, and the MSRs. *)
Definition effect (m : M cpu unit) (f : tables -> tables) (w : list (Z * Z)) : Prop :=
  forall s, exists s', m s = Done (tt, s') /\ s'.(tabs) = f s.(tabs) /\
    s'.(ports) = w ++ s.(ports) /\ s'.(msrs) = s.(msrs).

Definition same (t : tables) : tables := t.
Definition put_gate (v h : Z) (t : tables) : tables := set_idt (aset t.(idt) v (gate h)) t.
Definition put_idtr (limit base : Z) (t : tables) : tables :=
  mk_tables t.(gdt) t.(tss) t.(idt) t.(idt_changed) t.(gdtr) (Some (limit, base)) t.(task_register).

Lemma effect_seq m1 m2 f1 f2 w1 w2 :
  effect m1 f1 w1 -> effect m2 f2 w2 -> effect (_ ← m1; m2) (fun l => f2 (f1 l)) (w2 ++ w1).
Proof.
  intros H1 H2 s. destruct (H1 s) as (s1 & E1 & I1 & P1 & M1). destruct (H2 s1) as (s2 & E2 & I2 & P2 & M2).
  exists s2. split; [by rewrite (bind_eq _ _ _ _ _ E1)|]. rewrite I2, I1, P2, P1, M2, M1. by rewrite <-app_assoc.
Qed.

Lemma effect_conv m f f' w w' : effect m f w -> (forall t, f t = f' t) -> w = w' -> effect m f' w'.
Proof. intros H Hf <- s. destruct (H s) as (s' & E & I & P & X). exists s'. by rewrite <-Hf. Qed.

Lemma effect_tabs g : effect (on_tabs g) g [].
Proof. intros s. eexists. split; [reflexivity|]. done. Qed.

Lemma effect_outb v p : effect (outb v p) same [(u16 p, u8 v)].
Proof. intros s. eexists. split; [reflexivity|]. done. Qed.
Lemma effect_gate v h : effect (idt_set_gate v h) (put_gate (u8 v) h) [].
Proof. intros s. eexists. split; [reflexivity|]. done. Qed.
Lemma effect_cli : effect cli same [].
Proof. intros s. eexists. split; [reflexivity|]. done. Qed.
Lemma effect_load_idt n p : effect (load_idt n p) (put_idtr (u16 n) p) [].
Proof. intros s. eexists. split; [reflexivity|]. done. Qed.
Lemma effect_reset : effect timer_reset same [].
Proof. intros s. eexists. split; [reflexivity|]. done. Qed.
Lemma effect_apic_start : effect apic_start same [].
Proof. intros s. eexists. split; [reflexivity|]. done. Qed.
#[local] Hint Resolve effect_outb effect_gate effect_cli effect_load_idt effect_reset effect_apic_start : effects.
Ltac effect_steps := repeat lazymatch goal with |- effect (mbind _ _) _ _ => eapply effect_seq end.
Ltac effects := eapply effect_conv; [effect_steps; auto with effects|reflexivity..].

(** The segments that [init_gdt] sets up, and the registers it loads. *)
Record segments (p : Z) (t : tables) : Prop := {
  sg_gdt : t.(gdt) = [0; 0x00AF9A000000FFFF; 0x00CF92000000FFFF; 0x00CFFA000000FFFF; 0x00CFF2000000FFFF;
    0x000F89000000FFFF; 0];
  sg_gdtr : t.(gdtr) = Some (55, p);
  sg_tr : t.(task_register) = Some 40;
}.

Definition put_slot (i v : Z) (t : tables) : tables := set_gdt (aset t.(gdt) i v) t.
Definition put_system (p : Z) (t : tables) : tables :=
  mk_tables t.(gdt) (mk_tss 0 t.(tss).(rsp1) t.(tss).(rsp2) 0 0 0 0 0 0 0 sizeof_tss) t.(idt) t.(idt_changed)
    (Some (u16 (7 * 8 - 1), p)) t.(idtr) (Some (u8 TSS_SELECTOR)).
Definition gdt_tabs (p : Z) (t : tables) : tables :=
  let '(low, high) := tss_descriptor 0 0xFFFFF in
  put_system p (put_slot (TSS_GDT_INDEX + 1) high (put_slot TSS_GDT_INDEX low
    (put_slot 4 (create_descriptor 0 0xFFFFF GDT_DATA_PL3) (put_slot 3 (create_descriptor 0 0xFFFFF GDT_CODE_PL3)
    (put_slot 2 (create_descriptor 0 0xFFFFF GDT_DATA_PL0) (put_slot 1 (create_descriptor 0 0xFFFFF GDT_CODE_PL0)
    (put_slot 0 0 t))))))).

Lemma effect_gdt p : effect (init_gdt p) (gdt_tabs p) [].
Proof.
  unfold init_gdt, gdt_tabs, set_gdt_entry, init_tss, set_tss_descriptor, load_gdt, load_tss.
  destruct (tss_descriptor 0 0xFFFFF) as [low high].
  eapply effect_conv; [effect_steps; apply effect_tabs|reflexivity|reflexivity].
Qed.
#[local] Hint Resolve effect_gdt : effects.

Lemma gdt_tabs_idt p t : (gdt_tabs p t).(idt) = t.(idt).
Proof. unfold gdt_tabs. by destruct (tss_descriptor 0 0xFFFFF). Qed.

Lemma gdt_tabs_segments p t : length t.(gdt) = 7%nat -> segments p (gdt_tabs p t).
Proof.
  intros Hl. destruct t as [g ts gs ch gr ir tr]. cbn [gdt] in Hl.
  destruct g as [|g0 [|g1 [|g2 [|g3 [|g4 [|g5 [|g6 [|? ?]]]]]]]]; try discriminate. constructor; reflexivity.
Qed.
#[local] Opaque gdt_tabs.

Lemma effect_sti : effect sti same [].
Proof. intros s. eexists. split; [reflexivity|]. done. Qed.
#[local] Hint Resolve effect_sti : effects.

Definition set_faults (h : handlers) (l : list idt_entry) : list idt_entry :=
  aset (aset (aset (aset (aset l 0 (gate h.(divide_handler))) 6 (gate h.(invalid_opcode_handler)))
    13 (gate h.(general_protection_handler))) 14 (gate h.(page_fault_handler))) 8 (gate h.(double_fault_handler)).

Definition put_faults (h : handlers) (t : tables) : tables := set_idt (set_faults h t.(idt)) t.

Lemma effect_faults h : effect (fault_gates h) (put_faults h) [].
Proof. unfold fault_gates. effects. Qed.
#[local] Hint Resolve effect_faults : effects.

(** The writes of [pic_init 0x20 0x28], the last first. *)
Definition pic_writes : list (Z * Z) :=
  [(0xA1, 0xFF); (0xA1, 5); (0xA1, 2); (0xA1, 0x28); (0xA0, 0x11);
   (0x21, 0xFB); (0x21, 1); (0x21, 4); (0x21, 0x20); (0x20, 0x11)].
Lemma effect_pic_init : effect (pic_init 0x20 0x28) same pic_writes.
Proof. unfold pic_init. effects. Qed.

Definition pit_writes (count : Z) : list (Z * Z) :=
  [(u16 (Z.shiftr (Z.land count 0xFF00) 8), 0x40); (u16 (Z.land count 0xFF), 0x40)].
Lemma effect_pit i count : effect (pit_count i count) same (pit_writes count).
Proof. unfold pit_count. effects. Qed.

Definition total_writes : list (Z * Z) :=
  [(0xFF, 0xA1); (0xFF, 0x21); (1, 0xA1); (1, 0x21); (4, 0xA1); (2, 0x21); (0x28, 0xA1); (0x20, 0x21);
   (0x11, 0xA0); (0x11, 0x20)].
Lemma effect_total : effect pic_disable_total same total_writes.
Proof. unfold pic_disable_total. effects. Qed.

(** The processor is in xAPIC mode: bit 10 of IA32_APIC_BASE is clear. *)
Definition xapic (s : cpu) : Prop := Z.land (Z.shiftr (s.(msrs) !!! IA32_APIC_BASE) 10) 1 = 0.

Lemma local_apic_effect sp tk base en s :
  exists s', local_apic_init sp tk base en s = Done (tt, s') /\
    s'.(tabs) = put_gate 32 tk (put_gate 255 sp s.(tabs)) /\ s'.(ports) = s.(ports).
Proof. destruct en; eexists; (split; [lazy beta iota zeta delta -[gate put_gate Z.land Z.lor Z.lnot Z.shiftl Z.shiftr u32 u8 insert lookup_total aset]; reflexivity|done]). Qed.

Lemma apic_init_effect sp tk s : xapic s ->
  exists s', apic_init sp tk s = Done (tt, s') /\
    s'.(tabs) = put_gate 32 tk (put_gate 255 sp s.(tabs)) /\ s'.(ports) = s.(ports).
Proof.
  intros Hx. unfold apic_init, apic_discover.
  assert (rdmsr IA32_APIC_BASE s = Done (s.(msrs) !!! IA32_APIC_BASE, s)) as Hr by done.
  rewrite (bind_eq _ _ _ _ _ Hr). cbv zeta. unfold xapic in Hx. rewrite Hx.
  unfold mbind at 1, M_bind at 1, modify. cbn [Z.eqb negb].
  match goal with |- context [local_apic_init sp tk ?b ?e ?t] =>
    destruct (local_apic_effect sp tk b e t) as (s' & E & Hi & Hp) end.
  exists s'. done.
Qed.

Definition unmasked_line (apic : bool) : Z := if apic then 1 else 0.

(** The tables after [init_cpu]; [t] are those before. *)
Definition final_tables (h : handlers) (apic : bool) (gp ip : Z) (t : tables) : tables :=
  put_idtr (sizeof_idt - 1) ip (
    let t' := put_faults h (gdt_tabs gp t) in
    if apic then put_gate 32 h.(tick_interrupt) (put_gate 255 h.(spurious_int_handler) t') else t').

(** Their gates. *)
Definition final_gates (h : handlers) (apic : bool) (l : list idt_entry) : list idt_entry :=
  if apic then aset (aset (set_faults h l) 255 (gate h.(spurious_int_handler))) 32 (gate h.(tick_interrupt))
  else set_faults h l.

Section irqs.
Context (port_value : list (Z * Z) -> Z -> Z).
Context (Hsame : forall h v c, port_value ((pic_data c, v) :: h) (pic_data c) = v).
Context (Hother : forall h q v c, q <> pic_data c -> port_value ((q, v) :: h) (pic_data c) = port_value h (pic_data c)).

(** A data port reads as the last byte written to it. *)
Lemma data_read w : forall c v h,
  (forall q u, (q, u) ∈ w -> q <> pic_data c) ->
  port_value (w ++ (pic_data c, v) :: h) (pic_data c) = v.
Proof.
  induction w as [|[q u] w IH]; intros c v h Hw; cbn [app]; [apply Hsame|].
  rewrite Hother by (apply (Hw q u); set_solver). apply IH. intros q' u' H'. apply (Hw q' u'). set_solver.
Qed.

(** [pic_unmask] on a chip whose mask register holds [m]. *)
Lemma unmask_effect s chip irq m : irq_mask port_value s chip = m ->
  exists s', pic_unmask port_value chip irq s = Done (tt, s') /\ s'.(tabs) = s.(tabs) /\ s'.(msrs) = s.(msrs) /\
    s'.(ports) = (pic_data chip, u8 (u8 (Z.land m (Z.lnot (Z.shiftl 1 irq))))) :: s.(ports).
Proof.
  intros <-. eexists. split; [reflexivity|]. cbn [tabs msrs ports]. by rewrite pic_data_u16.
Qed.

Lemma masks_after_init s h : s.(ports) = pic_writes ++ h ->
  irq_mask port_value s 0 = 0xFB /\ irq_mask port_value s 1 = 0xFF.
Proof.
  intros Hp. unfold irq_mask. rewrite Hp. split.
  - change (pic_writes ++ h) with
      ([(0xA1, 0xFF); (0xA1, 5); (0xA1, 2); (0xA1, 0x28); (0xA0, 0x11)] ++ (pic_data 0, 0xFB) :: (0x21, 1) :: (0x21, 4) :: (0x21, 0x20) :: (0x20, 0x11) :: h).
    rewrite data_read; [done|]. intros q u. rewrite !elem_of_cons, elem_of_nil. intros Hq.
    destruct_or?; simplify_eq; done.
  - change (pic_writes ++ h) with ([] ++ (pic_data 1, 0xFF) :: drop 1 pic_writes ++ h). rewrite data_read; [done|set_solver].
Qed.

(** One line opened right after [pic_init]: it and the cascade line are unmasked. *)
Lemma open_line s h0 irq : s.(ports) = pic_writes ++ h0 -> irq = 0 \/ irq = 1 ->
  exists s', pic_enable port_value irq s = Done (tt, s') /\ s'.(tabs) = s.(tabs) /\ s'.(msrs) = s.(msrs) /\
    forall k, 0 <= k < 16 -> masked port_value s' k = negb ((k =? irq) || (k =? 2)).
Proof.
  intros Hp Hi. destruct (masks_after_init s h0 Hp) as [H0 H1].
  destruct (pic_enable_masks port_value Hsame Hother s irq ltac:(lia)) as (s' & E & Hm).
  exists s'. split; [done|].
  assert (s'.(tabs) = s.(tabs) /\ s'.(msrs) = s.(msrs)) as [Ht Hs].
  { unfold pic_enable in E. assert (irq <? 8 = true) as Hlt by (destruct Hi as [-> | ->]; done). rewrite Hlt in E.
    destruct (unmask_effect s 0 irq _ eq_refl) as (s2 & E2 & Ht & Hms & _). rewrite E2 in E. by injection E as <-. }
  split_and!; [done|done|]. intros k Hk. rewrite Hm by done.
  assert (masked port_value s k = negb (k =? 2)) as ->.
  { unfold masked. rewrite H0, H1. clear -Hk. each_bit k; reflexivity. }
  destruct Hi as [-> | ->]; clear -Hk; each_bit k; reflexivity.
Qed.

(** Writes to other ports leave the masks alone. *)
Lemma effect_masks m f w s s' : effect m f w -> m s = Done (tt, s') ->
  (forall c, forall q u, (q, u) ∈ w -> q <> pic_data c) ->
  (forall k, masked port_value s' k = masked port_value s k) /\ s'.(tabs) = f s.(tabs) /\ s'.(msrs) = s.(msrs).
Proof.
  intros He E Hw. destruct (He s) as (s2 & E2 & Hi & Hp & Hm). rewrite E in E2. injection E2 as <-.
  split_and!; [|done|done]. intros k. unfold masked.
  assert (forall c, irq_mask port_value s' c = irq_mask port_value s c) as Hc; [|by rewrite !Hc].
  intros c. unfold irq_mask. rewrite Hp. f_equal. clear -Hw Hother. induction w as [|[q u] w IH]; [done|]. cbn [app].
  rewrite Hother by (apply (Hw c q u); set_solver). apply IH. intros c' q' u' Hin. apply (Hw c' q' u'). set_solver.
Qed.

Lemma pic_writes_at : forall s s', pic_init 0x20 0x28 s = Done (tt, s') ->
  s'.(ports) = pic_writes ++ s.(ports) /\ s'.(tabs) = s.(tabs) /\ s'.(msrs) = s.(msrs).
Proof.
  intros s s' E. destruct (effect_pic_init s) as (s2 & E2 & Hi & Hp & Hm). rewrite E in E2. by injection E2 as <-.
Qed.

(** The branch of [init_cpu] for a processor with a local APIC. *)
Lemma apic_branch h idt_ptr s : xapic s ->
  exists s', (_ ← apic_init h.(spurious_int_handler) h.(tick_interrupt); _ ← apic_start;
              _ ← load_idt (sizeof_idt - 1) idt_ptr; _ ← pic_disable_total; timer_reset) s = Done (tt, s') /\
    s'.(tabs) = put_idtr (sizeof_idt - 1) idt_ptr
      (put_gate 32 h.(tick_interrupt) (put_gate 255 h.(spurious_int_handler) s.(tabs))) /\
    forall k, masked port_value s' k = masked port_value s k.
Proof.
  intros Hx. destruct (apic_init_effect h.(spurious_int_handler) h.(tick_interrupt) s Hx) as (s1 & E1 & I1 & P1).
  rewrite (bind_eq _ _ _ _ _ E1).
  assert (effect (_ ← apic_start; _ ← load_idt (sizeof_idt - 1) idt_ptr; _ ← pic_disable_total; timer_reset)
    (put_idtr (sizeof_idt - 1) idt_ptr) total_writes) as He.
  { eapply effect_conv; [effect_steps; auto using effect_total with effects|done|done]. }
  destruct (He s1) as (s' & E' & I' & _). exists s'. split; [done|].
  assert (forall c q u, (q, u) ∈ total_writes -> q <> pic_data c) as Hw.
  { intros c q u. unfold total_writes, pic_data. rewrite !elem_of_cons, elem_of_nil.
    intros Hin. destruct (c =? 0); destruct_or?; simplify_eq; lia. }
  destruct (effect_masks _ _ _ _ _ He E' Hw) as (Hm & Hi & _). split; [by rewrite Hi, I1|].
  intros k. rewrite Hm. unfold masked, irq_mask. by rewrite P1.
Qed.

Lemma pic_branch idt_ptr s :
  exists s', (_ ← pic_init 0x20 0x28; _ ← pic_enable port_value 0; load_idt (sizeof_idt - 1) idt_ptr) s
      = Done (tt, s') /\ s'.(tabs) = put_idtr (sizeof_idt - 1) idt_ptr s.(tabs) /\
    forall k, 0 <= k < 16 -> masked port_value s' k = negb ((k =? 0) || (k =? 2)).
Proof.
  destruct (effect_pic_init s) as (s1 & E1 & I1 & P1 & M1). rewrite (bind_eq _ _ _ _ _ E1).
  destruct (open_line s1 _ 0 P1 ltac:(by left)) as (s2 & E2 & T2 & M2 & K2). rewrite (bind_eq _ _ _ _ _ E2).
  eexists. split; [reflexivity|]. cbn [tabs set_tabs]. split; [|exact K2].
  unfold same in I1. rewrite <-I1, <-T2. done.
Qed.

Lemma cpu_brought_up h gdt_ptr idt_ptr edx s :
  let apic := negb (Z.land edx (Z.shiftl 1 9) =? 0) in
  (apic = true -> xapic s) ->
  exists s', (_ ← cli; _ ← init_gdt gdt_ptr; _ ← fault_gates h;
    let support_apic := negb (Z.land edx (Z.shiftl 1 9) =? 0) in
    _ ← pic_init 0x20 0x28; _ ← pic_enable port_value 1; _ ← pit_count 0 100;
    _ ← (if support_apic then
           _ ← apic_init h.(spurious_int_handler) h.(tick_interrupt); _ ← apic_start;
           _ ← load_idt (sizeof_idt - 1) idt_ptr; _ ← pic_disable_total; timer_reset
         else
           _ ← pic_init 0x20 0x28; _ ← pic_enable port_value 0; load_idt (sizeof_idt - 1) idt_ptr);
    sti) s = Done (tt, s') /\
    s'.(tabs) = final_tables h apic gdt_ptr idt_ptr s.(tabs) /\ s'.(interrupts_on) = true /\
    forall k, 0 <= k < 16 -> masked port_value s' k = negb ((k =? unmasked_line apic) || (k =? 2)).
Proof.
  intros apic Hx. cbv zeta. fold apic.
  destruct (effect_cli s) as (s1 & E1 & I1 & P1 & M1). rewrite (bind_eq _ _ _ _ _ E1).
  destruct (effect_gdt gdt_ptr s1) as (s2 & E2 & I2 & P2 & M2). rewrite (bind_eq _ _ _ _ _ E2).
  destruct (effect_faults h s2) as (s3 & E3 & I3 & P3 & M3). rewrite (bind_eq _ _ _ _ _ E3).
  destruct (effect_pic_init s3) as (s4 & E4 & I4 & P4 & M4). rewrite (bind_eq _ _ _ _ _ E4).
  destruct (open_line s4 _ 1 P4 ltac:(by right)) as (s5 & E5 & T5 & M5 & K5). rewrite (bind_eq _ _ _ _ _ E5).
  destruct (effect_pit 0 100 s5) as (s6 & E6 & _ & _ & _).
  assert (forall c q u, (q, u) ∈ pit_writes 100 -> q <> pic_data c) as Hw.
  { intros c q u. unfold pic_data. change (pit_writes 100) with [(0, 0x40); (100, 0x40)].
    rewrite !elem_of_cons, elem_of_nil. intros Hin. destruct (c =? 0); destruct_or?; simplify_eq; lia. }
  destruct (effect_masks _ _ _ _ _ (effect_pit 0 100) E6 Hw) as (K6 & I6 & M6). rewrite (bind_eq _ _ _ _ _ E6).
  assert (s6.(tabs) = put_faults h (gdt_tabs gdt_ptr s.(tabs))) as Hi by (unfold same in *; by rewrite I6, T5, I4, I3, I2, I1).
  assert (s6.(msrs) = s.(msrs)) as Hm by congruence. unfold final_tables, unmasked_line. cbv zeta.
  destruct apic.
  - destruct (apic_branch h idt_ptr s6) as (s7 & E7 & I7 & K7); [unfold xapic; rewrite Hm; by apply Hx|].
    rewrite (bind_eq _ _ _ _ _ E7). eexists. split; [reflexivity|]. cbn [tabs interrupts_on].
    split_and!; [by rewrite I7, Hi|done|]. intros k Hk. rewrite <-K5, <-K6, <-K7 by done. done.
  - destruct (pic_branch idt_ptr s6) as (s7 & E7 & I7 & K7). rewrite (bind_eq _ _ _ _ _ E7).
    eexists. split; [reflexivity|]. cbn [tabs interrupts_on]. split_and!; [by rewrite I7, Hi|done|exact K7].
Qed.
End irqs.

Lemma on_cpu_eq {A : Type} (m : M cpu A) s a c :
  m s.(sys_cpu) = Done (a, c) -> on_cpu m s = Done (a, mk_sys c s.(syscalls)).
Proof. unfold on_cpu. by intros ->. Qed.

Lemma init_syscalls_keeps eax fns s :
  exists b s', init_syscalls eax fns s = Done (b, s') /\ s'.(sys_cpu).(tabs) = s.(sys_cpu).(tabs) /\
    s'.(sys_cpu).(ports) = s.(sys_cpu).(ports) /\ s'.(sys_cpu).(interrupts_on) = s.(sys_cpu).(interrupts_on).
Proof.
  unfold init_syscalls. destruct (negb (has_cpu_msr eax)); [by exists false, s|].
  eexists true, _. split; [reflexivity|]. done.
Qed.

Lemma init_cpu_run (port_value : list (Z * Z) -> Z -> Z) (h : handlers) (fns : sys_fns)
    (gdt_ptr idt_ptr eax edx : Z) (s : sys) :
  (forall h v c, port_value ((pic_data c, v) :: h) (pic_data c) = v) ->
  (forall h q v c, q <> pic_data c -> port_value ((q, v) :: h) (pic_data c) = port_value h (pic_data c)) ->
  let apic := negb (Z.land edx (Z.shiftl 1 9) =? 0) in
  (apic = true -> xapic s.(sys_cpu)) ->
  exists s', init_cpu port_value h fns gdt_ptr idt_ptr eax edx s = Done (tt, s') /\
    s'.(sys_cpu).(tabs) = final_tables h apic gdt_ptr idt_ptr s.(sys_cpu).(tabs) /\
    s'.(sys_cpu).(interrupts_on) = true /\
    forall k, 0 <= k < 16 -> masked port_value s'.(sys_cpu) k = negb ((k =? unmasked_line apic) || (k =? 2)).
Proof.
  intros H1 H2 apic Hx. unfold init_cpu.
  destruct (cpu_brought_up port_value H1 H2 h gdt_ptr idt_ptr edx s.(sys_cpu) Hx) as (c & E & Hi & Hon & Hk).
  fold apic in Hi, Hk. rewrite (bind_eq _ _ _ _ _ (on_cpu_eq _ _ _ _ E)).
  destruct (init_syscalls_keeps eax fns (mk_sys c s.(syscalls))) as (b & s' & E' & Ht & Hp & Hf). cbn [sys_cpu] in *.
  rewrite (bind_eq _ _ _ _ _ E'). exists s'. split; [done|]. rewrite Ht, Hi, Hf. split_and!; [done|done|].
  intros k Hkr. unfold masked, irq_mask. rewrite Hp. exact (Hk k Hkr).
Qed.

Lemma final_tables_idt h apic gp ip t : (final_tables h apic gp ip t).(idt) = final_gates h apic t.(idt).
Proof.
  unfold final_tables, final_gates. cbv zeta. destruct apic; cbn [put_idtr put_gate put_faults set_idt idt];
    by rewrite gdt_tabs_idt.
Qed.

(** The vectors of the faults that have a handler, and the handlers. *)
Definition fault_vectors (h : handlers) : list (Z * Z) :=
  [(0, h.(divide_handler)); (6, h.(invalid_opcode_handler)); (8, h.(double_fault_handler));
   (13, h.(general_protection_handler)); (14, h.(page_fault_handler))].

Ltac gate_at := rewrite ?aget_aset_ne by lia; apply aget_aset_eq; rewrite ?length_aset; lia.

Lemma final_gates_fault h apic l : length l = 256%nat ->
  Forall (fun '(v, a) => aget (final_gates h apic l) v = gate a) (fault_vectors h) /\
  (apic = true -> aget (final_gates h apic l) 32 = gate h.(tick_interrupt) /\
    aget (final_gates h apic l) 255 = gate h.(spurious_int_handler)).
Proof.
  intros Hl. unfold final_gates, set_faults, fault_vectors. split.
  - repeat (apply Forall_cons; split); [destruct apic; gate_at..|by apply Forall_nil].
  - intros ->. split; gate_at.
Qed.

Lemma final_gates_other h apic l v :
  v ∉ [0; 6; 8; 13; 14] -> (apic = false \/ v ∉ [32; 255]) -> aget (final_gates h apic l) v = aget l v.
Proof.
  intros H5 Ha. rewrite !not_elem_of_cons in H5. destruct H5 as (?&?&?&?&?&_).
  unfold final_gates, set_faults. destruct apic.
  - destruct Ha as [|Ha]; [done|]. rewrite !not_elem_of_cons in Ha. destruct Ha as (?&?&_).
    by rewrite !aget_aset_ne by congruence.
  - by rewrite !aget_aset_ne by congruence.
Qed.

(** [init_cpu] opens an interrupt line that has no handler.  With a local
    APIC it leaves line 1 of the old controller (the keyboard) unmasked, since
    [pic_disable_total] does not mask anything, and no gate is set for its vector
    33; without one it leaves line 0 (the timer) unmasked and no gate for vector
    32.  All other lines but the cascade line are masked, interrupts are enabled,
    and the gates set are exactly those of the five faults and, with the APIC,
    255 and 32: every other vector keeps the gate it had. *)
Theorem init_cpu_open_line (port_value : list (Z * Z) -> Z -> Z) (h : handlers) (fns : sys_fns)
    (gdt_ptr idt_ptr eax edx : Z) (s : sys) :
  (forall h v c, port_value ((pic_data c, v) :: h) (pic_data c) = v) ->
  (forall h q v c, q <> pic_data c -> port_value ((q, v) :: h) (pic_data c) = port_value h (pic_data c)) ->
  let apic := negb (Z.land edx (Z.shiftl 1 9) =? 0) in
  (apic = true -> xapic s.(sys_cpu)) ->
  length s.(sys_cpu).(tabs).(idt) = 256%nat ->
  exists s', init_cpu port_value h fns gdt_ptr idt_ptr eax edx s = Done (tt, s') /\
    s'.(sys_cpu).(interrupts_on) = true /\
    (forall k, 0 <= k < 16 ->
       masked port_value s'.(sys_cpu) k = negb ((k =? unmasked_line apic) || (k =? 2))) /\
    aget s'.(sys_cpu).(tabs).(idt) (0x20 + unmasked_line apic) =
      aget s.(sys_cpu).(tabs).(idt) (0x20 + unmasked_line apic) /\
    (forall v, 0 <= v < 256 -> v ∉ [0; 6; 8; 13; 14] -> (apic = false \/ v ∉ [32; 255]) ->
       aget s'.(sys_cpu).(tabs).(idt) v = aget s.(sys_cpu).(tabs).(idt) v) /\
    Forall (fun '(v, a) => aget s'.(sys_cpu).(tabs).(idt) v = gate a) (fault_vectors h) /\
    (apic = true -> aget s'.(sys_cpu).(tabs).(idt) 32 = gate h.(tick_interrupt) /\
      aget s'.(sys_cpu).(tabs).(idt) 255 = gate h.(spurious_int_handler)).
Proof.
  intros H1 H2 apic Hx Hl.
  destruct (init_cpu_run port_value h fns gdt_ptr idt_ptr eax edx s H1 H2 Hx) as (s' & E & Hi & Hon & Hk).
  exists s'. fold apic in Hi, Hk. rewrite Hi, final_tables_idt. destruct (final_gates_fault h apic _ Hl) as (G1 & G2).
  split_and!; [done|done|exact Hk| |intros; by apply final_gates_other|done..].
  apply final_gates_other; [destruct apic; set_solver|]. destruct apic; [right; set_solver|by left].
Qed.

Lemma last_written_same h v c : CpuDemo.last_written ((pic_data c, v) :: h) (pic_data c) = v.
Proof. cbn. by rewrite Z.eqb_refl. Qed.
Lemma last_written_other h q v c :
  q <> pic_data c -> CpuDemo.last_written ((q, v) :: h) (pic_data c) = CpuDemo.last_written h (pic_data c).
Proof. intros Hq. cbn. by destruct (Z.eqb_spec (pic_data c) q); [congruence|]. Qed.

Lemma init_cpu_open_line_witness :
  exists s', init_cpu CpuDemo.last_written (mk_handlers 1 2 3 4 5 6 7) SysDemo.fns 0x9000 0xA000 13 0x200 SysDemo.sys0
      = Done (tt, s') /\
    masked CpuDemo.last_written s'.(sys_cpu) 1 = false /\
    type_attr (aget s'.(sys_cpu).(tabs).(idt) 33) = 0.
Proof.
  destruct (init_cpu_open_line CpuDemo.last_written (mk_handlers 1 2 3 4 5 6 7) SysDemo.fns 0x9000 0xA000 13 0x200
    SysDemo.sys0) as (s' & E & _ & Hm & Hg & _).
  - exact last_written_same.
  - exact last_written_other.
  - intros _. by vm_compute.
  - reflexivity.
  - exists s'. split; [exact E|]. split; [exact (Hm 1 ltac:(lia))|].
    change (0x20 + unmasked_line (negb (Z.land 0x200 (Z.shiftl 1 9) =? 0))) with 33 in Hg. by rewrite Hg.
Defined.

(** ** Waiting *)

Lemma int_abs_elapsed a b : in_u64 a -> in_u64 b -> 0 <= b - a < 2 ^ 31 -> int_abs (u64 (a - b)) = b - a.
Proof.
  intros Ha Hb He. unfold int_abs. assert (s32 (u64 (a - b)) = a - b) as -> by wsolve.
  destruct (Z.ltb_spec (a - b) 0); wsolve.
Qed.

Lemma first_poll (P : nat -> bool) n : P n = true -> exists i, P i = true /\ forall j, (j < i)%nat -> P j = false.
Proof.
  induction n as [n IH] using lt_wf_ind. intros Hn.
  destruct (decide (Exists (fun j => P j = true) (seq 0 n))) as [He|He].
  - apply Exists_exists in He as (j & Hj & Hp). apply elem_of_seq in Hj. apply (IH j); [lia|done].
  - exists n. split; [done|]. intros j Hj. destruct (P j) eqn:E; [|done]. destruct He.
    apply Exists_exists. exists j. split; [apply elem_of_seq; lia|done].
Qed.

Section sleep.
Context (clock : nat -> Z) (time_ms d : Z).
Context (Hrange : forall i, in_u64 (clock i)).
Context (Hmono : forall i, clock i <= clock (S i) <= clock i + d).
Context (Ht : 0 <= time_ms) (Htd : time_ms + d < 2 ^ 31).

Lemma clock_mono i : clock 0%nat <= clock i.
Proof. induction i as [|i IH]; [lia|]. specialize (Hmono i). lia. Qed.

Lemma sleep_until k : forall i fuel,
  (forall j, (j < k)%nat -> clock (i + j)%nat - clock 0%nat <= time_ms) ->
  time_ms < clock (i + k)%nat - clock 0%nat < 2 ^ 31 -> (k < fuel)%nat ->
  sleep_loop fuel clock (clock 0%nat) time_ms i = Some (i + k)%nat.
Proof.
  induction k as [|k IH]; intros i fuel Hlo Hhi Hf; (destruct fuel as [|fuel]; [lia|]); cbn [sleep_loop].
  - rewrite Nat.add_0_r in *. pose proof (clock_mono i). rewrite int_abs_elapsed by (done || lia).
    rewrite u64_id by (unfold in_u64; lia). destruct (Z.leb_spec (clock i - clock 0%nat) time_ms); [lia|done].
  - pose proof (Hlo 0%nat ltac:(lia)) as H0. rewrite Nat.add_0_r in H0. pose proof (clock_mono i).
    rewrite int_abs_elapsed by (done || lia). rewrite u64_id by (unfold in_u64; lia).
    destruct (Z.leb_spec (clock i - clock 0%nat) time_ms); [|lia].
    rewrite (IH (S i) fuel); [f_equal; lia| |by replace (S i + k)%nat with (i + S k)%nat by lia|lia].
    intros j Hj. replace (S i + j)%nat with (i + S j)%nat by lia. apply Hlo. lia.
Qed.

(** The first poll at which more than [time_ms] have passed. *)
Lemma sleep_ends n : time_ms < clock n - clock 0%nat ->
  exists i, (forall fuel, (i <= fuel)%nat -> kernel_sleep_ms fuel clock time_ms = Some i) /\
    time_ms < clock i - clock 0%nat <= time_ms + d /\ (i <= n)%nat /\
    forall j, (j < i)%nat -> clock j - clock 0%nat <= time_ms.
Proof.
  intros Hn.
  destruct (first_poll (fun i => time_ms <? clock i - clock 0%nat) n (proj2 (Z.ltb_lt _ _) Hn)) as (i & Hi%Z.ltb_lt & Hb).
  assert (forall j, (j < i)%nat -> clock j - clock 0%nat <= time_ms) as Hb' by (intros j Hj; by apply Z.ltb_ge, Hb).
  destruct i as [|i]; [lia|]. pose proof (Hb' i ltac:(lia)). pose proof (Hmono i).
  assert (time_ms < clock (S i) - clock 0%nat <= time_ms + d) as He by lia.
  exists (S i). split_and!; [|lia|lia|destruct (decide (S i <= n)%nat); [done|specialize (Hb' n); lia]|done].
  intros fuel Hf. unfold kernel_sleep_ms.
  rewrite (sleep_until i 1 fuel); [done| |cbn; lia|lia]. intros j Hj. apply Hb'. lia.
Qed.
End sleep.

(** [kernel_sleep_ms] does sleep, and does wake up.  If the clock never goes
    back, advances by at most [d] between two polls and eventually passes the
    requested time, the loop ends, at the first poll at which more than [time_ms]
    have passed, provided that [time_ms + d] is below 2^31 (the difference goes
    through the [int] argument of [abs]). *)
Theorem sleep_wakes_up (clock : nat -> Z) (time_ms d : Z) (n : nat) :
  (forall i, in_u64 (clock i)) -> (forall i, clock i <= clock (S i) <= clock i + d) ->
  0 <= time_ms -> time_ms + d < 2 ^ 31 -> time_ms < clock n - clock 0%nat ->
  exists i, (forall fuel, (i <= fuel)%nat -> kernel_sleep_ms fuel clock time_ms = Some i) /\
    time_ms < clock i - clock 0%nat <= time_ms + d /\
    forall j, (j < i)%nat -> clock j - clock 0%nat <= time_ms.
Proof.
  intros Hr Hm Ht Htd Hn.
  destruct (sleep_ends clock time_ms d Hr Hm Ht Htd n Hn) as (i & Hi & He & _ & Hb). by exists i.
Qed.

Lemma sleep_wakes_up_witness :
  exists i, kernel_sleep_ms 200 (fun i => Z.min (10 * Z.of_nat i) 2000) 1000 = Some i /\ i = 101%nat.
Proof.
  destruct (sleep_wakes_up (fun i => Z.min (10 * Z.of_nat i) 2000) 1000 10 150) as (i & Hi & He & Hb);
    [intros i; unfold in_u64; lia|intros i; lia|lia|lia|lia|].
  cbn beta in He, Hb. exists i. assert (i = 101%nat) as ->.
  { destruct (decide (i = 101%nat)) as [|Hne]; [done|]. specialize (Hb 101%nat). lia. }
  split; [apply Hi; lia|done].
Defined.

(** ** [kernel_main] *)

Lemma check_boot_none p b :
  check_boot p b = None <->
  p <> 0 /\ b.(magic) = BOOTINFOMAGIC /\ b.(framebuffer_base) <> 0 /\ b.(width) <> 0 /\ b.(height) <> 0 /\
  b.(framebuffer_pixel_format) <= 1 /\ b.(initramfs_address) <> 0 /\ b.(initramfs_size) <> 0.
Proof.
  unfold check_boot. destruct (Z.eqb_spec p 0), (Z.eqb_spec b.(magic) BOOTINFOMAGIC),
    (Z.eqb_spec b.(framebuffer_base) 0), (Z.eqb_spec b.(width) 0), (Z.eqb_spec b.(height) 0),
    (Z.ltb_spec 1 b.(framebuffer_pixel_format)), (Z.eqb_spec b.(initramfs_address) 0),
    (Z.eqb_spec b.(initramfs_size) 0); cbn; (split; [try done; intros _|intros (?&?&?&?&?&?&?&?)]); try done; try lia;
    try (split_and!; done || lia).
Qed.

Lemma on_sys_eq {A : Type} (m : M sys A) s a y :
  m s.(k_sys) = Done (a, y) -> on_sys m s = Done (a, mk_kernel s.(k_vmm) y).
Proof. unfold on_sys. by intros ->. Qed.

(** [init_primitivs] loads the segments and the fault gates, and keeps the MSRs. *)
Lemma primitivs_run h gp ip y : exists y', on_cpu (init_primitivs h gp ip) y = Done (tt, y') /\
  y'.(sys_cpu).(tabs) = put_idtr (sizeof_idt - 1) ip (put_faults h (gdt_tabs gp y.(sys_cpu).(tabs))) /\
  y'.(sys_cpu).(msrs) = y.(sys_cpu).(msrs).
Proof.
  assert (effect (init_primitivs h gp ip)
    (fun t => put_idtr (sizeof_idt - 1) ip (put_faults h (gdt_tabs gp t))) []) as He.
  { unfold init_primitivs. effects. }
  destruct (He y.(sys_cpu)) as (c & E & Hi & _ & Hm). exists (mk_sys c y.(syscalls)). split; [by apply on_cpu_eq|done].
Qed.

(** The descriptor tables of a kernel that is up, [t0] being those before: the
    segments and the interrupt table are loaded, each fault leads to its handler,
    with a local APIC so do the tick and the spurious interrupt, and every other
    gate is as it was. *)
Record tables_up (pf : platform) (t0 t : tables) : Prop := {
  tu_segments : segments pf.(pf_gdt) t;
  tu_idtr : t.(idtr) = Some (4095, pf.(pf_idt));
  tu_faults : Forall (fun '(v, a) => aget t.(idt) v = gate a) (fault_vectors pf.(pf_handlers));
  tu_apic : Z.testbit pf.(pf_inputs).(cpuid1_edx) 9 = true ->
    aget t.(idt) 32 = gate pf.(pf_handlers).(tick_interrupt) /\
    aget t.(idt) 255 = gate pf.(pf_handlers).(spurious_int_handler);
  tu_others : forall v, v ∉ [0; 6; 8; 13; 14; 32; 255] -> aget t.(idt) v = aget t0.(idt) v;
}.

Lemma apic_bit edx : negb (Z.land edx (Z.shiftl 1 9) =? 0) = Z.testbit edx 9.
Proof.
  rewrite Z.shiftl_1_l. destruct (Z.testbit edx 9) eqn:E.
  - destruct (Z.eqb_spec (Z.land edx (2 ^ 9)) 0) as [H|]; [|done].
    apply (f_equal (fun x => Z.testbit x 9)) in H. by rewrite Z.land_spec, E in H.
  - replace (Z.land edx (2 ^ 9)) with 0; [done|]. symmetry. apply Z.bits_inj'. intros k Hk.
    rewrite Z.land_spec, Z.bits_0, Z.pow2_bits_eqb by lia.
    destruct (Z.eqb_spec 9 k) as [<-|]; [by rewrite E|apply andb_false_r].
Qed.

Lemma put_segments p v a t : segments p t -> segments p (put_gate v a t).
Proof. by intros [? ? ?]. Qed.

Lemma put_faults_tables h limit base t p : segments p t ->
  segments p (put_idtr limit base (put_faults h t)) /\ segments p (put_faults h t) /\
  (put_idtr limit base (put_faults h t)).(idt) = set_faults h t.(idt).
Proof. by intros [? ? ?]. Qed.

Lemma put_idtr_segments limit base t p : segments p t ->
  segments p (put_idtr limit base t) /\ (put_idtr limit base t).(idtr) = Some (limit, base).
Proof. by intros [? ? ?]. Qed.

(** The tables that [init_primitivs] and then [init_cpu] leave. *)
Lemma final_tables_up pf t0 : length t0.(idt) = 256%nat -> length t0.(gdt) = 7%nat ->
  let h := pf.(pf_handlers) in let gp := pf.(pf_gdt) in let ip := pf.(pf_idt) in
  tables_up pf t0 (final_tables h (negb (Z.land pf.(pf_inputs).(cpuid1_edx) (Z.shiftl 1 9) =? 0)) gp ip
    (put_idtr (sizeof_idt - 1) ip (put_faults h (gdt_tabs gp t0)))).
Proof.
  intros Hl Hg h gp ip. rewrite apic_bit. set (apic := Z.testbit _ 9). cbv zeta.
  pose proof (put_faults_tables h (sizeof_idt - 1) ip _ gp (gdt_tabs_segments gp t0 Hg)) as ([S1 _ _] & _ & Hi).
  rewrite gdt_tabs_idt in Hi. set (t1 := put_idtr _ ip _) in *. clearbody t1.
  assert (length t1.(gdt) = 7%nat) as Hg1 by by rewrite S1.
  assert (length t1.(idt) = 256%nat) as Hl1 by (rewrite Hi; unfold set_faults; by rewrite !length_aset).
  destruct (final_gates_fault h apic t1.(idt) Hl1) as [G1 G2].
  pose proof (proj1 (proj2 (put_faults_tables h 0 0 _ gp (gdt_tabs_segments gp t1 Hg1)))) as S2.
  assert (segments gp (final_tables h apic gp ip t1) /\ (final_tables h apic gp ip t1).(idtr) = Some (4095, ip)) as [S3 S4].
  { unfold final_tables. apply put_idtr_segments. destruct apic; by repeat apply put_segments. }
  constructor; rewrite ?final_tables_idt; [exact S3|exact S4|exact G1|exact G2|].
  intros v Hv. rewrite !not_elem_of_cons in Hv. destruct Hv as (?&?&?&?&?&?&?&_).
  rewrite final_gates_other by (rewrite ?not_elem_of_cons; auto 10 using not_elem_of_nil).
  rewrite Hi. unfold set_faults. by rewrite !aget_aset_ne by congruence.
Qed.

(** What the kernel stands on once it is up. *)
Record came_up (rd : Z -> EFI_MEMORY_DESCRIPTOR) (pf : platform) (boot : BootInfo) (s s' : kernel) : Prop := {
  cu_memory : exists v1, on_pmm (test_ppm_func rd boot.(memory_map) boot.(memory_map_size)
      boot.(memory_descriptor_size)) s.(k_vmm) = Done (tt, v1) /\
    vmm_running v1.(pm).(max_physical_address) s'.(k_vmm);
  cu_interrupts : s'.(k_sys).(sys_cpu).(interrupts_on) = true;
  cu_tables : tables_up pf s.(k_sys).(sys_cpu).(tabs) s'.(k_sys).(sys_cpu).(tabs);
}.

(** From the state the loader leaves, [bring_up] panics while setting up memory,
    or ends with paging on over well-formed tables, every physical address below
    the end of memory in the passthru window, interrupts enabled and the
    descriptor tables as [tables_up] describes them. *)
Lemma bring_up_run (rd : Z -> EFI_MEMORY_DESCRIPTOR) (port_value : list (Z * Z) -> Z -> Z)
    (pf : platform) (boot : BootInfo) (s : kernel) :
  0 <= boot.(memory_map_size) / boot.(memory_descriptor_size) -> ram_below rd boot (2 ^ 31) ->
  boot_ranges_ok rd boot pf.(pf_inputs) ->
  s.(k_vmm).(pm) = pmm_boot -> s.(k_vmm).(virtual_mem_initialized) = false ->
  (forall h v c, port_value ((pic_data c, v) :: h) (pic_data c) = v) ->
  (forall h q v c, q <> pic_data c -> port_value ((q, v) :: h) (pic_data c) = port_value h (pic_data c)) ->
  xapic s.(k_sys).(sys_cpu) -> length s.(k_sys).(sys_cpu).(tabs).(idt) = 256%nat ->
  length s.(k_sys).(sys_cpu).(tabs).(gdt) = 7%nat ->
  match bring_up rd port_value pf boot s with
  | Done (_, s') => came_up rd pf boot s s'
  | Panicked _ => True
  | Fault => False
  end.
Proof.
  intros Hpos Hram Hbr Hpm Hv H1 H2 Hx Hl Hg. unfold bring_up.
  destruct (primitivs_run pf.(pf_handlers) pf.(pf_gdt) pf.(pf_idt) s.(k_sys)) as (y1 & E1 & I1 & M1).
  rewrite (bind_eq _ _ _ _ _ (on_sys_eq _ _ _ _ E1)). unfold mbind at 1, M_bind at 1, on_sys at 1, on_cpu at 1, cli, modify.
  cbn [k_sys k_vmm sys_cpu]. set (y2 := mk_sys _ y1.(syscalls)).
  pose proof (init_memory_run rd boot pf.(pf_inputs) s.(k_vmm) Hpos Hram Hbr Hpm Hv) as Hmem.
  unfold mbind at 1, M_bind at 1, on_vmm. cbn [k_vmm].
  destruct (init_memory rd boot pf.(pf_inputs) s.(k_vmm)) as [[[] v]|w|]; [|done|done].
  unfold mbind at 1, M_bind at 1, on_sys at 1, on_cpu at 1, sti, modify. cbn [k_sys k_vmm sys_cpu].
  set (y3 := mk_sys _ y2.(syscalls)).
  destruct (init_cpu_run port_value pf.(pf_handlers) pf.(pf_fns) pf.(pf_gdt) pf.(pf_idt) pf.(pf_cpuid0_eax)
    pf.(pf_inputs).(cpuid1_edx) y3 H1 H2) as (y4 & E4 & Hi & Hon & _).
  { intros _. unfold xapic, y3, y2. cbn [sys_cpu msrs]. by rewrite M1. }
  rewrite (on_sys_eq _ (mk_kernel v y3) _ _ E4). cbn [k_vmm k_sys].
  constructor; [exact Hmem|exact Hon|]. cbn [k_sys]. rewrite Hi. unfold y3, y2. cbn [sys_cpu tabs].
  rewrite I1. exact (final_tables_up pf _ Hl Hg).
Qed.

Module KernelDemo.
Definition pf : platform :=
  mk_platform (mk_handlers 1 2 3 4 5 6 7) SysDemo.fns 0x9000 0xA000 13 VmmDemo.cpu.
Definition start : kernel := mk_kernel InitDemo.cold SysDemo.sys0.
End KernelDemo.

