(* ===== verification/KernelMain.v ===== *)
(** * [kernel_main] ([kernel/startup.c])

    The whole function, from the serial port to the call of the demo, on the
    machine its components make up.  The RAM file system runs on any
    [Allocator]; what [kmalloc_init] does to it, the bytes of the RAM disk, the
    memory map and what the ticks counter shows at each poll are arguments. *)

From S2P Require Import Prelude Pmm PageTable Vmm StringLib StringFacts Graphics GraphicsFacts FontData Stdio Cpu Syscalls Init Fs Initramfs FromBoot.

Record machine (A : Type) := mk_machine { m_kernel : kernel; m_screen : screen; m_fs : fs A }.
Arguments mk_machine {A}.
Arguments m_kernel {A}.
Arguments m_screen {A}.
Arguments m_fs {A}.

(** The serial port's registers.  (The waiting loop of [serial_putchar] and its
    bytes are not part of the history of port writes.) *)
Definition serial_init : M cpu unit :=
  _ ← outb 0x00 0x3F9;
  _ ← outb 0x80 0x3FB;
  _ ← outb 0x03 0x3F8;
  _ ← outb 0x00 0x3F9;
  _ ← outb 0x03 0x3FB;
  _ ← outb 0xC7 0x3FA;
  outb 0x0B 0x3FC.

Definition kernel_version : list Z := L "CORE 0.1.4".

(** [serial_print] of a line. *)
Definition serial_line (str : list Z) : M screen unit := serial_print (str ++ [10]).

(** The tests of the record, with the message of the one that fails. *)
Definition post_boot_checks (ptr : Z) (boot : BootInfo) : M screen (option string) :=
  _ ← serial_print ([10; 10] ++ L "Kernel booted..." ++ [10; 10]);
  _ ← serial_print (L "Version ");
  _ ← serial_print kernel_version;
  _ ← serial_print [10];
  _ ← serial_line (L "[+] Checking post-boot information");
  _ ← serial_print (L "boot ptr: ");
  _ ← serial_print_hex ptr;
  if ptr =? 0 then
    _ ← serial_line (9 :: L "[!] Post-boot information table -- missing magic...");
    mret (Some "Post-boot information table -- missing magic"%string)
  else
  _ ← serial_print (L "magic: ");
  _ ← serial_print_hex boot.(FromBoot.magic);
  if negb (boot.(FromBoot.magic) =? BOOTINFOMAGIC) then
    _ ← serial_line (9 :: L "[!] Post-boot information table -- missing magic...");
    mret (Some "Post-boot information table -- missing magic"%string)
  else if boot.(framebuffer_base) =? 0 then
    _ ← serial_line (9 :: L "[!] Frame buffer base addr is missing...");
    mret (Some "Frame buffer base addr is missing"%string)
  else if (boot.(FromBoot.width) =? 0) || (boot.(FromBoot.height) =? 0) then
    _ ← serial_line (9 :: L "[!] Sizes (of frame buffer) are missing...");
    mret (Some "Sizes (of frame buffer) are missing"%string)
  else if 1 <? boot.(framebuffer_pixel_format) then
    _ ← serial_line (9 :: L "[!] Unsupported frame buffer pixel format...");
    mret (Some "Unsupported frame buffer pixel format"%string)
  else if (boot.(initramfs_address) =? 0) || (boot.(initramfs_size) =? 0) then
    _ ← serial_line (9 :: L "[!] Initramfs is not valid.");
    mret (Some "Initramfs is not valid"%string)
  else mret None.

(** [framebuffer_fb] *)
Definition boot_framebuffer (boot : BootInfo) : framebuffer_t :=
  mk_framebuffer boot.(FromBoot.width) boot.(FromBoot.height) boot.(pixels_per_scanline) boot.(framebuffer_base).

Definition graphical_output (boot : BootInfo) : M screen unit :=
  let fb := boot_framebuffer boot in
  _ ← serial_line (L "Switching to graphical output..");
  _ ← serial_print (L "Resolution:" ++ [10] ++ L "Width: ");
  _ ← serial_print_dec fb.(fb_width);
  _ ← serial_print (10 :: L "Height: ");
  _ ← serial_print_dec fb.(fb_height);
  _ ← serial_print (10 :: L "Pitch: ");
  _ ← serial_print_dec fb.(fb_pitch);
  _ ← serial_print [10];
  _ ← init_graphics (Some fb);
  _ ← print_init;
  _ ← serial_line (L "Loaded framebuffer");
  _ ← print (L "ArchaOS %s " ++ [10]) [VaStr kernel_version];
  print [10] [].

(** The figures printed after the file system is there. *)
Definition report (boot : BootInfo) (total usable main : Z) (fb : framebuffer_t) : M screen unit :=
  _ ← print [10; 10] [];
  _ ← print (L "Total memory: %n MB" ++ [10]) [VaU64 (total / (1024 * 1024))];
  _ ← print (L "Total usable memory: %n MB" ++ [10; 10]) [VaU64 (usable / (1024 * 1024))];
  _ ← print (L "Kernel physical addr: %lx " ++ [10]) [VaU64 boot.(kernel_physical_address)];
  _ ← print (L "Kernel virtual  addr: %lx " ++ [10]) [VaU64 boot.(kernel_virtual_address)];
  _ ← print (L "Kernel kernel_main  : %lx " ++ [10; 10]) [VaU64 main];
  _ ← print (L "Framebuffer info" ++ [10]) [];
  _ ← print (9 :: L "address: %lx " ++ [10]) [VaU64 fb.(fb_address)];
  _ ← print (9 :: L "width:   %lx " ++ [10]) [VaU64 fb.(fb_width)];
  _ ← print (9 :: L "height:  %lx " ++ [10]) [VaU64 fb.(fb_height)];
  print (9 :: L "pitch:   %lx " ++ [10; 10]) [VaU64 fb.(fb_pitch)].

(** [get_ticks()] is 64 bits wide and printed with [%u]: the callee reads the
    low half of the argument's slot. *)
Definition print_ticks (t : Z) : M screen unit := print (L "Ticks: %u " ++ [13]) [VaInt (u32 t)].

(** [while (get_ticks() != 200)] from poll [i] on; the number of the next poll. *)
Fixpoint tick_loop (fuel : nat) (ticks : nat -> Z) (i : nat) : M screen nat :=
  match fuel with
  | O => fault
  | S n =>
      if ticks i =? 200 then mret (S i)
      else _ ← print_ticks (ticks (S i)); tick_loop n ticks (S (S i))
  end.

(** What [kernel_main] depends on beside the machine. *)
Record inputs (A : Type) := mk_inputs {
  in_read_desc : Z -> EFI_MEMORY_DESCRIPTOR;
  in_port_value : list (Z * Z) -> Z -> Z;
  in_platform : platform;
  in_heap_init : M A unit;
  in_disk : option (list Z);
  in_main : Z;
  in_ticks : nat -> Z;
  in_fuel : nat;
}.
Arguments mk_inputs {A}.
Arguments in_read_desc {A}.
Arguments in_port_value {A}.
Arguments in_platform {A}.
Arguments in_heap_init {A}.
Arguments in_disk {A}.
Arguments in_main {A}.
Arguments in_ticks {A}.
Arguments in_fuel {A}.

Section kernel_main.
Context {A : Type} `{Allocator A}.

Definition on_kernel {B : Type} (m : M kernel B) : M (machine A) B := fun s =>
  match m s.(m_kernel) with
  | Done (b, k) => Done (b, mk_machine k s.(m_screen) s.(m_fs))
  | Panicked w => Panicked w
  | Fault => Fault
  end.
Definition on_screen {B : Type} (m : M screen B) : M (machine A) B := fun s =>
  match m s.(m_screen) with
  | Done (b, c) => Done (b, mk_machine s.(m_kernel) c s.(m_fs))
  | Panicked w => Panicked w
  | Fault => Fault
  end.
Definition on_fs {B : Type} (m : M (fs A) B) : M (machine A) B := fun s =>
  match m s.(m_fs) with
  | Done (b, f) => Done (b, mk_machine s.(m_kernel) s.(m_screen) f)
  | Panicked w => Panicked w
  | Fault => Fault
  end.

(** ** The listing of the root directory *)

Definition print_entry (f : file) : M screen unit :=
  if f.(f_flags) =? FS_IS_DIRECTORY then print (9 :: L "Folder: %s " ++ [10]) [VaStr f.(f_name)]
  else print (9 :: L "File: %s " ++ [10]) [VaStr f.(f_name)].

Fixpoint list_loop (fuel : nat) (tfiles : Z) : M (machine A) unit :=
  match fuel with
  | O => fault
  | S n =>
      if tfiles =? 0 then mret tt else
      f ← on_fs (get_node tfiles);
      _ ← on_screen (print_entry f);
      list_loop n f.(f_next)
  end.

Definition list_root : M (machine A) unit :=
  '(a, list) ← on_fs (list_files (Some [slash]) false);
  if negb (succeeded a) then on_screen (print (L "Failed to list in directory..." ++ [10]) []) else
  _ ← on_screen (print (L "List of files in root (/): " ++ [10]) []);
  fuel ← gets (fun s => node_fuel s.(m_fs));
  list_loop fuel list.

(** ** The function *)

(** From [init_fs] to the call of the demo. *)
Definition show_system (i : inputs A) (boot : BootInfo) : M (machine A) unit :=
  total ← gets (fun s => u64 s.(m_kernel).(k_vmm).(pm).(total_memory));
  usable ← gets (fun s => u64 s.(m_kernel).(k_vmm).(pm).(total_usable_memory));
  _ ← on_screen (report boot total usable i.(in_main) (boot_framebuffer boot));
  _ ← on_kernel (on_sys (on_cpu start_clock));
  _ ← on_screen (print (L "Testing time: " ++ [10]) []);
  _ ← on_screen (print_ticks (i.(in_ticks) 0%nat));
  next ← on_screen (tick_loop i.(in_fuel) i.(in_ticks) 1);
  let clock j := u64 (i.(in_ticks) (next + j)%nat * 1000) / 100 in
  _ ← (match kernel_sleep_ms i.(in_fuel) clock 1000 with Some _ => mret tt | None => fault end);
  _ ← list_root;
  on_screen (print (L "Starting demo..." ++ [10]) []).

(** [Some why]: the early return; [None]: the demo is called. *)
Definition kernel_main (i : inputs A) (boot : BootInfo) : M (machine A) (option string) :=
  _ ← on_kernel (on_sys (on_cpu serial_init));
  why ← on_screen (post_boot_checks i.(in_platform).(pf_inputs).(boot_ptr) boot);
  match why with
  | Some why => mret (Some why)
  | None =>
      _ ← on_screen (graphical_output boot);
      _ ← on_kernel (bring_up i.(in_read_desc) i.(in_port_value) i.(in_platform) boot);
      _ ← on_fs (lift_mem i.(in_heap_init));
      _ ← on_fs (init_fs i.(in_disk));
      _ ← show_system i boot;
      mret None
  end.
End kernel_main.
