(* ===== verification/KernelMainTheorems.v ===== *)
(** * [kernel_main]: theorems *)

From S2P Require Import Prelude FromBoot Pmm PageTable Vmm VmmSpec VmmInit VmmTheorems StringLib StringFacts Graphics GraphicsFacts FontData GraphicsTheorems Stdio StdioFacts StdioTheorems Cpu CpuTheorems Syscalls SyscallTheorems Init InitTheorems Fs FsFacts FsTree FsOps FsTheorems Initramfs InitramfsFacts CpioFormat InitramfsTheorems KernelMain.

(** ** What is printed *)

Section printing.
Context (fb : framebuffer_t).

(** The console works: the frame buffer is there, the font is loaded, and
    [out] went to the serial port so far. *)
Definition showing (out : list Z) (s : screen) : Prop :=
  fb_ok s fb /\ s.(current_font) = load_glyphs cozette_psf /\ s.(serial_out) = out.

(** [m] prints [text]. *)
Definition prints (m : M screen unit) (text : list Z) : Prop :=
  forall out, safe (showing out) m (fun _ => showing (out ++ map u8 text)).

Lemma text_seq m k t1 t2 : prints m t1 -> prints k t2 -> prints (_ ← m; k) (t1 ++ t2).
Proof.
  intros Hm Hk out. eapply safe_bind; [apply Hm|]. intros []. cbn beta. rewrite map_app, app_assoc. apply Hk.
Qed.

Lemma prints_print fmt args text : Forall va_ok args ->
  expand (parse (S (length fmt)) fmt) args = (text, true) -> prints (print fmt args) text.
Proof.
  intros Ha E out s (Hok & Hf & Ho). unfold print.
  rewrite (bind_eq _ _ _ _ _ (gets_eq framebuffer_pb s)), (proj1 Hok).
  rewrite print_loop_expand, E by (lia || done). unfold finish. cbn [fst snd].
  pose proof cozette_ok as Hfont. rewrite <-Hf in Hfont.
  pose proof (safe_print_char fb s _ text Hfont eq_refl s.(cursor_x) s.(cursor_y) s.(serial_out) s) as H.
  specialize (H ltac:(split_and!; try done; reflexivity)).
  unfold mbind, M_bind. destruct (print_char text s) as [[[] s']| |]; [|done|done].
  destruct H as (H1 & H2 & _ & _ & H5). split_and!; [done|by rewrite (kp_font _ _ _ H2)|by rewrite H5, Ho].
Qed.

Lemma prints_serial str : prints (serial_print str) str.
Proof.
  intros out s ((Hpb & Hv) & Hf & Ho). destruct (serial_print_out str s) as (s' & -> & ->).
  split_and!; [split; [exact Hpb|exact Hv]|done|]. cbn. by rewrite Ho.
Qed.

(** Some text or other. *)
Definition printing (m : M screen unit) : Prop := exists text, prints m text.

Lemma printing_seq m k : printing m -> printing k -> printing (_ ← m; k).
Proof. intros [t1 H1] [t2 H2]. eexists. by apply text_seq. Qed.

Lemma printing_print fmt args : Forall va_ok args ->
  (expand (parse (S (length fmt)) fmt) args).2 = true -> printing (print fmt args).
Proof.
  intros Ha E. destruct (expand _ args) as [text d] eqn:Ee. cbn in E. subst d. exists text. by apply prints_print.
Qed.

Lemma printing_safe m : printing m -> safe (fun s => exists out, showing out s) m (fun _ s => exists out, showing out s).
Proof.
  intros [t Ht] s [out Hs]. specialize (Ht out s Hs). destruct (m s) as [[a s']| |]; [by eexists|done..].
Qed.
End printing.

(** *** Before the console works *)

Definition pixels_are (v : gmap Z pixels) (s : screen) : Prop := s.(vram) = v.

Lemma serial_safe v str : safe (pixels_are v) (serial_print str) (fun _ => pixels_are v).
Proof. intros s Hs. destruct (serial_print_out str s) as (s' & -> & ->). exact Hs. Qed.

Lemma serial_hex_safe v x : safe (pixels_are v) (serial_print_hex x) (fun _ => pixels_are v).
Proof.
  unfold serial_print_hex. eapply safe_bind; [apply serial_safe|]. intros ?. by apply safe_modify.
Qed.

Lemma serial_dec_safe v x : in_u64 x -> safe (pixels_are v) (serial_print_dec x) (fun _ => pixels_are v).
Proof. intros Hx s Hs. rewrite serial_print_dec_text by done. by apply serial_safe. Qed.

#[local] Hint Resolve serial_safe serial_hex_safe serial_dec_safe : serial.
Ltac serial_steps := repeat first
  [ eapply safe_bind; [solve [unfold serial_line; eauto with serial]|intros ?; cbn beta]
  | case_match | apply safe_ret; intros ? ?; split; done ].

(** The checks answer what [check_boot] says and leave the pixels alone. *)
Lemma checks_run v ptr boot : safe (pixels_are v) (post_boot_checks ptr boot)
  (fun why s => why = check_boot ptr boot /\ pixels_are v s).
Proof. unfold post_boot_checks, check_boot. serial_steps. Qed.

Section console.
Context (boot : BootInfo) (v : gmap Z pixels) (o : pixels).
Notation fb := (boot_framebuffer boot).
Context (Ho : v !! fb.(fb_address) = Some o) (Hfit : fb_fits fb o).
Context (Hw : in_u32 boot.(FromBoot.width)) (Hh : in_u32 boot.(FromBoot.height)) (Hp : in_u32 boot.(pixels_per_scanline)).

Lemma graphical_run : safe (pixels_are v) (graphical_output boot) (fun _ s => exists out, showing fb out s).
Proof.
  assert (forall x, in_u32 x -> in_u64 x) as H64 by (unfold in_u32, in_u64; lia).
  unfold graphical_output. cbv zeta. cbn [fb_width fb_height fb_pitch boot_framebuffer].
  serial_steps.
  eapply safe_bind with (R := fun _ s => s.(vram) = v /\ s.(framebuffer_pb) = Some fb /\ s.(graphics_init) = true).
  { by apply safe_modify. }
  intros ?. cbn beta. eapply safe_bind with (R := fun _ s => exists out, showing fb out s).
  { unfold print_init, term_init. intros s (Hv & Hpb & Hg). rewrite (bind_eq _ _ _ _ _ (gets_eq _ s)), Hg. cbn [negb].
    rewrite (bind_eq _ _ _ _ _ (gets_eq _ s)), Hg. cbn [negb modify]. exists s.(serial_out).
    split_and!; [|done|done]. split; [done|]. exists o. cbn [vram set_font]. by rewrite Hv. }
  intros ?. cbn beta. apply printing_safe.
  apply printing_seq; [eexists; apply prints_serial|]. apply printing_seq; apply printing_print; try done; by repeat constructor.
Qed.
End console.

(** ** The waiting loops *)

(** Time passes: the counter moves on between polls, the loop is polled while it
    shows 200, and from the polls that can end it a second goes by within [fuel]
    polls. *)
Record time_passes (ticks : nat -> Z) (fuel : nat) : Prop := {
  tp_range : forall i, 0 <= ticks i < 2 ^ 54;
  tp_mono : forall i, ticks i <= ticks (S i) <= ticks i + 2 ^ 24;
  tp_seen : exists k, (k < fuel)%nat /\ ticks (2 * k + 1)%nat = 200;
  tp_goes : forall i, (i <= 2 * fuel)%nat -> exists m, (m <= fuel)%nat /\ 100 < ticks (i + m)%nat - ticks i;
}.

Lemma printing_ticks fb t : printing fb (print_ticks t).
Proof. unfold print_ticks. apply printing_print; [|done]. repeat constructor; apply u32_range. Qed.

Lemma tick_loop_run fb ticks k : forall fuel i, (k < fuel)%nat -> ticks (2 * k + i)%nat = 200 ->
  safe (fun s => exists out, showing fb out s) (tick_loop fuel ticks i)
    (fun next s => (next <= 2 * k + i + 1)%nat /\ exists out, showing fb out s).
Proof.
  induction k as [|k IH]; intros fuel i Hk Ht; (destruct fuel as [|fuel]; [lia|]); cbn [tick_loop].
  - cbn in Ht. rewrite Ht. apply safe_ret. intros s Hs. split; [lia|done].
  - destruct (ticks i =? 200); [apply safe_ret; intros s Hs; split; [lia|done]|].
    eapply safe_bind; [apply printing_safe, printing_ticks|]. intros []. cbn beta.
    eapply safe_conseq; [apply (IH fuel (S (S i)))|done|]; [lia|rewrite <-Ht; f_equal; lia|].
    intros n s [Hn Hs]. split; [lia|done].
Qed.

(** A poll that comes too late misses the tick that is waited for: the loop then
    runs until the counter wraps. *)
Lemma missed_tick ticks n : forall i s, (forall j, (i <= j)%nat -> ticks j <> 200) ->
  match tick_loop n ticks i s with Done _ => False | _ => True end.
Proof.
  induction n as [|n IH]; intros i s Ht; cbn [tick_loop]; [done|].
  destruct (Z.eqb_spec (ticks i) 200) as [E|_]; [by destruct (Ht i (le_n _))|].
  unfold mbind, M_bind. destruct (print_ticks _ s) as [[[] s']| |]; [|done|done]. apply IH. intros j Hj. apply Ht. lia.
Qed.

Lemma second_passes ticks fuel next : time_passes ticks fuel -> (next <= 2 * fuel)%nat ->
  exists i, kernel_sleep_ms fuel (fun j => u64 (ticks (next + j)%nat * 1000) / 100) 1000 = Some i.
Proof.
  intros [Hr Hm _ Hg] Hnext. set (clock := fun j => u64 (ticks (next + j)%nat * 1000) / 100).
  assert (forall j, clock j = 10 * ticks (next + j)%nat) as Hc.
  { intros j. unfold clock. specialize (Hr (next + j)%nat). rewrite u64_id by (unfold in_u64; lia).
    replace (ticks (next + j)%nat * 1000) with (10 * ticks (next + j)%nat * 100) by lia. by rewrite Z.div_mul. }
  destruct (Hg next Hnext) as (m & Hm' & Hd).
  destruct (sleep_ends clock 1000 (10 * 2 ^ 24)) with (n := m) as (i & Hi & _ & Hle & _).
  - intros j. rewrite Hc. specialize (Hr (next + j)%nat). unfold in_u64. lia.
  - intros j. rewrite !Hc, Nat.add_succ_r. specialize (Hm (next + j)%nat). lia.
  - lia.
  - lia.
  - rewrite !Hc, Nat.add_0_r. lia.
  - exists i. apply Hi. lia.
Qed.

(** ** The listing *)

(** The line of a node. *)
Definition entry_line (f : file) : list Z :=
  9 :: L (if f.(f_flags) =? FS_IS_DIRECTORY then "Folder: " else "File: ") ++ f.(f_name) ++ [32; 10].

Definition entry_lines (m : gmap Z file) (l : list Z) : list Z :=
  concat (map (fun c => match m !! c with Some f => entry_line f | None => [] end) l).

(** What [kernel_main] shows of a tree: the children of the root. *)
Definition listing (m : gmap Z file) : list Z :=
  L "List of files in root (/): " ++ [10] ++
  match m !! root_ptr with Some r => entry_lines m (kids m r) | None => [] end.

Lemma entry_lines_cons m c f l : m !! c = Some f -> entry_lines m (c :: l) = entry_line f ++ entry_lines m l.
Proof. intros Hf. unfold entry_lines. cbn [map concat]. by rewrite Hf. Qed.

Lemma prints_entry fb f : prints fb (print_entry f) (entry_line f).
Proof.
  unfold print_entry, entry_line. generalize f.(f_name). intros name.
  destruct (_ =? _); (apply prints_print; [by repeat constructor|vm_compute; reflexivity]).
Qed.

Section machine.
Context {A : Type} `{AllocatorLaws A}.

(** [m] ends in [Q], or panics; [F]: when it may run into an undefined access. *)
Definition ends {B : Type} (m : M (machine A) B) (s : machine A) (Q : B -> machine A -> Prop) (F : Prop) : Prop :=
  match m s with Done (b, s') => Q b s' | Panicked _ => True | Fault => F end.

Lemma ends_bind {B C : Type} (m : M (machine A) B) (f : B -> M (machine A) C) s Q F :
  ends m s (fun b s' => ends (f b) s' Q F) F -> ends (m ≫= f) s Q F.
Proof. unfold ends, mbind, M_bind. by destruct (m s) as [[b s']| |]. Qed.

Lemma ends_gets {B : Type} (f : machine A -> B) s (Q : B -> machine A -> Prop) F : Q (f s) s -> ends (gets f) s Q F.
Proof. done. Qed.

Lemma ends_screen {B : Type} (m : M screen B) P (R : B -> screen -> Prop) s Q F :
  safe P m R -> P s.(m_screen) ->
  (forall b c, R b c -> Q b (mk_machine s.(m_kernel) c s.(m_fs))) -> ends (on_screen m) s Q F.
Proof.
  intros Hm Hs HQ. unfold ends, on_screen. specialize (Hm _ Hs). destruct (m s.(m_screen)) as [[b c]| |]; [by apply HQ|done..].
Qed.

Lemma ends_fs {B : Type} (m : M (fs A) B) s (Q : B -> machine A -> Prop) F :
  run m s.(m_fs) (fun b f => Q b (mk_machine s.(m_kernel) s.(m_screen) f)) F -> ends (on_fs m) s Q F.
Proof. unfold ends, on_fs, run. by destruct (m s.(m_fs)) as [[b f]| |]. Qed.

Lemma ends_kernel {B : Type} (m : M kernel B) s (Q : B -> machine A -> Prop) (F : Prop) :
  match m s.(m_kernel) with
  | Done (b, k) => Q b (mk_machine k s.(m_screen) s.(m_fs)) | Panicked _ => True | Fault => False
  end -> ends (on_kernel m) s Q F.
Proof. unfold ends, on_kernel. by destruct (m s.(m_kernel)) as [[b k]| |]. Qed.

(** Printing changes the screen only. *)
Lemma ends_prints fb m text out s (Q : unit -> machine A -> Prop) F : prints fb m text -> showing fb out s.(m_screen) ->
  (forall c, showing fb (out ++ map u8 text) c -> Q tt (mk_machine s.(m_kernel) c s.(m_fs))) ->
  ends (on_screen m) s Q F.
Proof. intros Hm Hs HQ. eapply ends_screen; [apply Hm|exact Hs|]. intros [] c. apply HQ. Qed.

Lemma list_loop_run fb F l : forall fuel p out s,
  sib s.(m_fs).(nodes) p l -> (length l < fuel)%nat -> showing fb out s.(m_screen) ->
  ends (list_loop fuel p) s (fun _ s' => s'.(m_kernel) = s.(m_kernel) /\ s'.(m_fs) = s.(m_fs) /\
    showing fb (out ++ map u8 (entry_lines s.(m_fs).(nodes) l)) s'.(m_screen)) F.
Proof.
  induction l as [|c l IH]; intros fuel p out s Hs Hl Hsh; (destruct fuel as [|fuel]; [cbn in Hl; lia|]);
    cbn [list_loop].
  - cbn in Hs. subst p. unfold ends, entry_lines. cbn [Z.eqb mret M_ret map concat]. by rewrite app_nil_r.
  - destruct Hs as (-> & Hc & f & Hf & Hs). rewrite (entry_lines_cons _ c f) by done. destruct (Z.eqb_spec c 0); [done|].
    apply ends_bind, ends_fs. apply (run_get _ _ f); [done|].
    apply ends_bind. eapply ends_prints; [apply prints_entry|exact Hsh|]. intros k Hk.
    rewrite map_app, app_assoc.
    apply (IH fuel f.(f_next) _ (mk_machine s.(m_kernel) k s.(m_fs)) Hs); [cbn in Hl; lia|exact Hk].
Qed.

Lemma list_root_run fb F out s : tree_wf s.(m_fs).(nodes) -> showing fb out s.(m_screen) ->
  ends list_root s (fun _ s' => s'.(m_kernel) = s.(m_kernel) /\ s'.(m_fs) = s.(m_fs) /\
    showing fb (out ++ map u8 (listing s.(m_fs).(nodes))) s'.(m_screen)) F.
Proof.
  intros Hwf Hsh. unfold list_root, listing. destruct (tw_root _ Hwf) as (r & Hr & _). rewrite Hr.
  apply ends_bind, ends_fs. unfold list_files.
  apply run_bind. eapply run_eq; [by apply parse_path_lookup|].
  change (lookup_path _ (Some [slash])) with (FS_SUCCESS, root_ptr).
  cbn [succeeded]. apply run_bind. apply (run_get _ _ r); [done|]. apply run_ret.
  apply ends_bind. eapply ends_prints; [apply prints_print; [done|vm_compute; reflexivity]|exact Hsh|].
  intros c Hc. apply ends_bind, ends_gets. cbn [m_fs].
  destruct (kids_sib _ _ _ Hwf Hr) as (Hs & _ & Hl & _).
  assert (length (kids s.(m_fs).(nodes) r) < node_fuel s.(m_fs))%nat as Hfuel by (unfold node_fuel; lia).
  pose proof (list_loop_run fb F _ _ _ _ (mk_machine s.(m_kernel) c s.(m_fs)) Hs Hfuel Hc) as Hrun.
  cbn [m_kernel m_fs] in Hrun. rewrite <-app_assoc, <-map_app in Hrun. exact Hrun.
Qed.

(** ** The whole function *)

(** The widths of the fields that are printed. *)
Record printable (boot : BootInfo) : Prop := {
  pr_width : in_u32 boot.(FromBoot.width);
  pr_height : in_u32 boot.(FromBoot.height);
  pr_pitch : in_u32 boot.(pixels_per_scanline);
  pr_base : in_u64 boot.(framebuffer_base);
  pr_phys : in_u64 boot.(kernel_physical_address);
  pr_virt : in_u64 boot.(kernel_virtual_address);
}.

Lemma report_run fb boot total usable main : printable boot -> in_u64 total -> in_u64 usable -> in_u64 main ->
  printing fb (report boot total usable main (boot_framebuffer boot)).
Proof.
  intros [H1 H2 H3 H4 H5 H6] Ht Hu Hm. unfold in_u32, in_u64 in *.
  assert (forall x, in_u64 x -> in_u64 (x / (1024 * 1024))) as Hdiv
    by (unfold in_u64; intros x Hx; Z.div_mod_to_equations; lia).
  unfold report. repeat apply printing_seq; (apply printing_print; [|reflexivity]);
    (try apply Forall_nil_2); (try (apply Forall_singleton; cbn; first [by apply Hdiv|unfold in_u64; lia])).
Qed.

Lemma clock_starts k : exists k', on_sys (on_cpu start_clock) k = Done (tt, k') /\ k'.(k_vmm) = k.(k_vmm) /\
  k'.(k_sys).(sys_cpu).(tabs) = k.(k_sys).(sys_cpu).(tabs) /\
  k'.(k_sys).(sys_cpu).(interrupts_on) = k.(k_sys).(sys_cpu).(interrupts_on).
Proof. eexists. split; [reflexivity|done]. Qed.

Lemma serial_ready k : exists k', on_sys (on_cpu serial_init) k = Done (tt, k') /\ k'.(k_vmm) = k.(k_vmm) /\
  k'.(k_sys).(sys_cpu).(tabs) = k.(k_sys).(sys_cpu).(tabs) /\
  k'.(k_sys).(sys_cpu).(msrs) = k.(k_sys).(sys_cpu).(msrs).
Proof.
  assert (exists w, effect serial_init same w) as [w He].
  { unfold serial_init. eexists. eapply effect_conv; [effect_steps; apply effect_outb|done|reflexivity]. }
  destruct (He k.(k_sys).(sys_cpu)) as (c & E & Hi & _ & Hm).
  exists (mk_kernel k.(k_vmm) (mk_sys c k.(k_sys).(syscalls))). split; [|done].
  by apply on_sys_eq, on_cpu_eq.
Qed.

(** The state the loader leaves, the devices, and an allocator in which the
    address of the static root is taken. *)
Record start_ok (i : inputs A) (boot : BootInfo) (s : machine A) : Prop := {
  sk_printable : printable boot /\ in_u64 i.(in_main);
  sk_map : 0 <= boot.(memory_map_size) / boot.(memory_descriptor_size) /\
    ram_below i.(in_read_desc) boot (2 ^ 31) /\ boot_ranges_ok i.(in_read_desc) boot i.(in_platform).(pf_inputs);
  sk_cold : s.(m_kernel).(k_vmm).(pm) = pmm_boot /\ s.(m_kernel).(k_vmm).(virtual_mem_initialized) = false;
  sk_cpu : xapic s.(m_kernel).(k_sys).(sys_cpu) /\ length s.(m_kernel).(k_sys).(sys_cpu).(tabs).(idt) = 256%nat /\
    length s.(m_kernel).(k_sys).(sys_cpu).(tabs).(gdt) = 7%nat;
  sk_port : forall h v c, i.(in_port_value) ((pic_data c, v) :: h) (pic_data c) = v;
  sk_ports : forall h q v c, q <> pic_data c ->
    i.(in_port_value) ((q, v) :: h) (pic_data c) = i.(in_port_value) h (pic_data c);
  sk_pixels : exists o, s.(m_screen).(vram) !! boot.(framebuffer_base) = Some o /\ fb_fits (boot_framebuffer boot) o;
  sk_heap : forall a, exists a', i.(in_heap_init) a = Done (tt, a') /\ live_ptrs a' = live_ptrs a;
  sk_root : root_ptr ∈ live_ptrs s.(m_fs).(mem_);
  sk_disk : forall d, i.(in_disk) = Some d -> Forall (fun c => 0 <= c < 256) d;
  sk_time : time_passes i.(in_ticks) i.(in_fuel);
}.

(** A kernel that is up. *)
Record running (i : inputs A) (boot : BootInfo) (s s' : machine A) : Prop := {
  rn_up : came_up i.(in_read_desc) i.(in_platform) boot s.(m_kernel) s'.(m_kernel);
  rn_tree : fs_inv s'.(m_fs);
  rn_archive : exists a, parse_cpio_disk i.(in_disk) (mk_fs {[ root_ptr := root_node ]} a) = Done (0, s'.(m_fs));
  rn_shown : exists before, showing (boot_framebuffer boot)
    (before ++ map u8 (listing s'.(m_fs).(nodes) ++ L "Starting demo..." ++ [10])) s'.(m_screen);
}.

Lemma root_inv (a : A) : root_ptr ∈ live_ptrs a -> fs_inv (mk_fs {[ root_ptr := root_node ]} a).
Proof.
  intros Ha. split; [exact root_store| |done]. intros p f Hf Hp. cbn [nodes] in Hf. by apply lookup_singleton_Some in Hf as [<- _].
Qed.

Lemma init_fs_run disk (s : fs A) : (forall d, disk = Some d -> Forall (fun c => 0 <= c < 256) d) ->
  root_ptr ∈ live_ptrs s.(mem_) ->
  run (init_fs disk) s (fun _ f => fs_inv f /\ exists a,
    parse_cpio_disk disk (mk_fs {[ root_ptr := root_node ]} a) = Done (0, f)) node_alloc_fails.
Proof.
  intros Hd Hr. unfold init_fs, init_root. set (s0 := set_nodes {[ root_ptr := root_node ]} s).
  apply run_bind. apply (run_eq _ _ tt s0); [done|]. pose proof (root_inv s.(mem_) Hr) as Hi.
  change (mk_fs _ _) with s0 in Hi. apply run_bind.
  assert (run (parse_cpio_disk disk) s0 (fun code f => fs_inv f) node_alloc_fails) as Hp.
  { destruct disk as [d|]; [|by apply run_ret]. specialize (Hd d eq_refl). unfold parse_cpio_disk.
    eapply run_impl; [apply (parse_entries_run d Hd (S (length d)) 0 s0 Hi)|by intros r s' [? _]|done];
      unfold disk_size; lia. }
  unfold run in *. destruct (parse_cpio_disk disk s0) as [[code f]| |] eqn:E; [|done|done].
  destruct (Z.eqb_spec code 0) as [->|]; [|done]. split; [done|]. by exists s.(mem_).
Qed.

Lemma show_system_run i boot out s F : printable boot -> in_u64 i.(in_main) -> time_passes i.(in_ticks) i.(in_fuel) -> tree_wf s.(m_fs).(nodes) ->
  showing (boot_framebuffer boot) out s.(m_screen) ->
  ends (show_system i boot) s (fun _ s' =>
    s'.(m_kernel).(k_vmm) = s.(m_kernel).(k_vmm) /\
    s'.(m_kernel).(k_sys).(sys_cpu).(tabs) = s.(m_kernel).(k_sys).(sys_cpu).(tabs) /\
    s'.(m_kernel).(k_sys).(sys_cpu).(interrupts_on) = s.(m_kernel).(k_sys).(sys_cpu).(interrupts_on) /\
    s'.(m_fs) = s.(m_fs) /\ exists before, showing (boot_framebuffer boot)
      (before ++ map u8 (listing s.(m_fs).(nodes) ++ L "Starting demo..." ++ [10])) s'.(m_screen)) F.
Proof.
  intros Hp Hm Ht Hwf Hsh.
  unfold show_system. do 2 apply ends_bind, ends_gets.
  destruct (report_run (boot_framebuffer boot) boot (u64 s.(m_kernel).(k_vmm).(pm).(total_memory))
    (u64 s.(m_kernel).(k_vmm).(pm).(total_usable_memory)) i.(in_main) Hp (u64_range _) (u64_range _) Hm) as [t1 Hr].
  apply ends_bind. eapply ends_prints; [exact Hr|exact Hsh|]. intros c1 Hc1.
  apply ends_bind, ends_kernel. cbn [m_kernel]. destruct (clock_starts s.(m_kernel)) as (k & -> & Hv & Htabs & Hon).
  cbn [m_kernel m_screen m_fs].
  apply ends_bind. eapply ends_prints; [apply prints_print; [done|vm_compute; reflexivity]|exact Hc1|]. intros c2 Hc2.
  destruct (printing_ticks (boot_framebuffer boot) (i.(in_ticks) 0%nat)) as [t2 Hr2].
  apply ends_bind. eapply ends_prints; [exact Hr2|exact Hc2|]. intros c3 Hc3.
  destruct (tp_seen _ _ Ht) as (n & Hn & Hseen).
  apply ends_bind. eapply ends_screen; [by apply (tick_loop_run (boot_framebuffer boot) i.(in_ticks) n)|by eexists|].
  intros next c4 [Hnext [out4 Hc4]]. cbn [m_kernel m_fs].
  destruct (second_passes i.(in_ticks) i.(in_fuel) next Ht ltac:(lia)) as (j & ->).
  apply ends_bind. unfold ends at 1. cbn [mret M_ret].
  apply ends_bind. pose proof (list_root_run (boot_framebuffer boot) F out4 (mk_machine k c4 s.(m_fs)) Hwf Hc4) as Hl.
  unfold ends in *. destruct (list_root _) as [[[] s5]| |]; [|done|done]. destruct Hl as (Hk5 & Hf5 & Hc5). cbn [m_kernel m_fs] in *.
  eapply (ends_prints _ _ _ _ s5 (fun _ s' => _)); [apply prints_print; [done|vm_compute; reflexivity]|exact Hc5|].
  intros c6 Hc6. cbn [m_kernel m_fs m_screen]. rewrite Hk5, Hf5. split_and!; try done. exists out4.
  by rewrite map_app, app_assoc.
Qed.

(** [kernel_main] brings the kernel up. *)
Lemma kernel_main_run i boot s : start_ok i boot s ->
  ends (kernel_main i boot) s (fun why s' =>
    why = check_boot i.(in_platform).(pf_inputs).(boot_ptr) boot /\
    match why with
    | Some _ => s'.(m_screen).(vram) = s.(m_screen).(vram) /\ s'.(m_fs) = s.(m_fs) /\ s'.(m_kernel).(k_vmm) = s.(m_kernel).(k_vmm)
    | None => running i boot s s'
    end) node_alloc_fails.
Proof.
  intros Hok. pose proof Hok as [[Hp Hm] (Hmap & Hram & Hbr) [Hpm Hv] (Hx & Hl & Hg) H1 H2 (o & Ho & Hfit) Hheap Hroot Hd Ht].
  unfold kernel_main. apply ends_bind, ends_kernel. destruct (serial_ready s.(m_kernel)) as (k1 & -> & Hk1 & Hi1 & Hm1).
  cbn [m_kernel m_screen m_fs]. apply ends_bind. eapply ends_screen; [apply (checks_run s.(m_screen).(vram))|done|].
  intros why c1 [Ewhy Hc1]. cbn [m_kernel m_fs]. destruct why as [why|]; [by split|].
  apply ends_bind. eapply ends_screen; [by apply (graphical_run boot s.(m_screen).(vram) o); try apply Hp|exact Hc1|].
  intros _ c2 [out Hc2]. cbn [m_kernel m_fs]. apply ends_bind, ends_kernel. cbn [m_kernel m_screen m_fs].
  pose proof (bring_up_run i.(in_read_desc) i.(in_port_value) i.(in_platform) boot k1) as Hup.
  rewrite Hk1, Hi1 in Hup. specialize (Hup Hmap Hram Hbr Hpm Hv H1 H2 ltac:(unfold xapic; by rewrite Hm1) Hl Hg).
  destruct (bring_up _ _ _ _ k1) as [[[] k2]| |]; [|done|done].
  apply ends_bind, ends_fs. cbn [m_kernel m_screen m_fs]. unfold run, lift_mem.
  destruct (Hheap s.(m_fs).(mem_)) as (a & -> & Ha).
  apply ends_bind, ends_fs. cbn [m_kernel m_screen m_fs].
  eapply run_impl; [apply init_fs_run; [exact Hd|cbn; by rewrite Ha]| |done].
  intros _ f [Hinv Hpar]. cbn beta. set (s3 := mk_machine k2 c2 f).
  apply ends_bind.
  pose proof (show_system_run i boot out s3 node_alloc_fails Hp Hm Ht (so_tree _ (fi_store _ Hinv)) Hc2) as Hs.
  unfold ends in *. destruct (show_system i boot s3) as [[[] s']| |]; [|done|done].
  destruct Hs as (E1 & E2 & E3 & E4 & before & Hshow). cbn [m_kernel m_fs s3] in *.
  split; [done|]. constructor; rewrite ?E4; [|exact Hinv|exact Hpar|by exists before].
  destruct Hup as [U1 U2 U3]. rewrite Hi1 in U3. constructor; rewrite ?E1, ?E2, ?E3; [|done..].
  destruct U1 as (v1 & U1 & U1'). exists v1. by rewrite <-Hk1.
Qed.
End machine.

#[local] Opaque kernel_main.

(** C16. The kernel comes up, or says why not.  From the state the loader leaves
    ([start_ok]), [kernel_main] either returns at its first failed check, having
    touched neither the frame buffer nor memory nor the file system; or panics
    while it sets up memory or reads the archive; or reaches the call of the
    demo, and then paging is on over well-formed tables with the passthru window
    in place, interrupts are enabled, and the descriptor tables are as [tables_up]
    says: the flat segments and the task register are loaded, the IDT register
    covers all 256 gates, each of the five faults with a handler leads to it,
    the tick and the spurious interrupt do when there is a local APIC, and every
    other gate is as it was before;
    the file system satisfies its invariant and is what [parse_cpio_disk] makes
    of the RAM disk; and what was printed last is the list of the root's children
    as they are in that file system.  The waiting loops end.  There is no
    undefined access, but for the one of [create_file] when the allocator has no
    memory for a node. *)
Theorem kernel_main_spec {A : Type} `{AllocatorLaws A} (i : inputs A) (boot : BootInfo) (s : machine A) :
  start_ok i boot s ->
  match kernel_main i boot s with
  | Done (Some why, s') => check_boot i.(in_platform).(pf_inputs).(boot_ptr) boot = Some why /\
      s'.(m_screen).(vram) = s.(m_screen).(vram) /\ s'.(m_fs) = s.(m_fs) /\
      s'.(m_kernel).(k_vmm) = s.(m_kernel).(k_vmm)
  | Done (None, s') => check_boot i.(in_platform).(pf_inputs).(boot_ptr) boot = None /\ running i boot s s'
  | Panicked _ => True
  | Fault => node_alloc_fails
  end.
Proof.
  intros Hok. pose proof (kernel_main_run i boot s Hok) as H'. unfold ends in H'.
  destruct (kernel_main i boot s) as [[[why|] s']| |]; [|by destruct H'|done|done].
  by destruct H' as (-> & ? & ? & ?).
Qed.

(** A machine with a frame buffer of 64 x 48 pixels, the archive of the examples
    and a clock that shows 200 at the first two polls. *)
Module StartDemo.
Definition ticks (i : nat) : Z := if (i <=? 1)%nat then 200 else 200 + Z.min (Z.of_nat i) 1000000.
Definition demo : inputs bump :=
  mk_inputs VmmDemo.desc CpuDemo.last_written KernelDemo.pf (mret tt) (Some (archive CpioDemo.entries)) 0x400000 ticks 200.
Definition start : machine bump :=
  mk_machine KernelDemo.start (mk_screen None false {[ 0x100000 := mk_pixels 0xC00 ∅ ]} 0 0 (mk_font [] 0 0 0 0) [])
    (mk_fs ∅ (mk_bump 100 {[ root_ptr ]})).
End StartDemo.

Lemma start_demo_time : time_passes StartDemo.ticks 200.
Proof.
  unfold StartDemo.ticks. constructor.
  - intros i. destruct (Nat.leb_spec i 1); lia.
  - intros i. destruct (Nat.leb_spec i 1), (Nat.leb_spec (S i) 1); lia.
  - exists 0%nat. split; [lia|done].
  - intros i Hi. exists 150%nat. split; [lia|]. destruct (Nat.leb_spec (i + 150) 1), (Nat.leb_spec i 1); lia.
Qed.

Lemma start_demo_ok : start_ok StartDemo.demo VmmDemo.boot StartDemo.start.
Proof.
  constructor.
  - split; [constructor|]; vm_compute; done.
  - split_and!; [by vm_compute|exact demo_ram_below|exact VmmDemo.boot_ok].
  - done.
  - split_and!; reflexivity.
  - exact last_written_same.
  - exact last_written_other.
  - exists (mk_pixels 0xC00 ∅). split; [by vm_compute|]. split; vm_compute; done.
  - intros a. by exists a.
  - by vm_compute.
  - intros d [= <-]. apply (bool_decide_unpack _). by vm_compute.
  - exact start_demo_time.
Qed.

Lemma kernel_main_spec_witness :
  match kernel_main StartDemo.demo VmmDemo.boot StartDemo.start with
  | Done (Some why, _) => False
  | Done (None, s') => running StartDemo.demo VmmDemo.boot StartDemo.start s'
  | Panicked _ => True
  | Fault => node_alloc_fails (A := bump)
  end.
Proof.
  pose proof (kernel_main_spec StartDemo.demo VmmDemo.boot StartDemo.start start_demo_ok) as H.
  change (check_boot _ _) with (@None string) in H.
  destruct (kernel_main StartDemo.demo VmmDemo.boot StartDemo.start) as [[[why|] s']| |];
    [destruct H as [H _]; discriminate|exact (proj2 H)|exact I|exact H].
Defined.
