(* ===== verification/Grs.v ===== *)
(** * The global register store ([kernel/grs/grs.c])

    Named slots for pointers.  A name is the pointer and the string it points
    to; [None] is NULL.  What an uninitialised variable holds is a parameter. *)

From S2P Require Import Prelude StringLib StringFacts.

Definition MAX_REGISTERS : Z := 500.

Definition GRS_SUCCESS : Z := 0.
Definition GRS_FAILED : Z := 1.
Definition GRS_REG_FILLED : Z := 2.
Definition GRS_NOT_EXISTS : Z := 3.
Definition GRS_INVALID : Z := 4.

Record register_t := mk_register { r_name : Z * list Z; r_id : Z; r_value : Z }.
#[export] Instance register_inhabited : Inhabited register_t := populate (mk_register (0, []) 0 0).

Record registry := mk_registry {
  registry_mem_base : list register_t;
  registry_mem_size : Z;
  registry_mem_ptr : Z;
}.

(** The string literal and its address. *)
Definition not_exists : Z * list Z := (1, [71; 82; 83; 95; 78; 79; 84; 95; 69; 88; 73; 83; 84; 83]).

(** [strcmp(a, b) == 0] *)
Definition same_string (a b : list Z) : bool := cmp_list a b =? 0.

(** [remove_at] counts in bytes: [buffer] is a [void *]. *)
Definition remove_at (buffer : list Z) (count index : Z) : list Z * Z * Z :=
  if count <=? index then (buffer, count, 0)
  else
    let n := Z.to_nat (count - index - 1) in
    let i := Z.to_nat index in
    (take i buffer ++ take n (drop (S i) buffer) ++ drop (i + n) buffer, count - 1, 1).

Section grs.
(** The uninitialised [register_t a] of [ret_register_handler]. *)
Context (uninit : register_t).

(** [for (int i = 0; i > MAX_REGISTERS; i++)]; the body compares pointers.  The
    condition fails at once, so one round of fuel decides the loop. *)
Fixpoint find_loop (fuel : nat) (i : Z) (a : register_t) (name : Z) : option register_t :=
  match fuel with
  | O => None
  | S n =>
      if MAX_REGISTERS <? i then
        if a.(r_name).1 =? name then Some a else find_loop n (i + 1) a name
      else None
  end.

Definition ret_register_handler (name : Z) : register_t :=
  match find_loop 1 0 uninit name with
  | Some a => a
  | None => mk_register not_exists uninit.(r_id) uninit.(r_value)
  end.

Definition wrt_register_handler (handler : register_t) : M registry unit := fun s =>
  if (0 <=? handler.(r_id)) && (handler.(r_id) <? Z.of_nat (length s.(registry_mem_base)))
  then Done (tt, mk_registry (aset s.(registry_mem_base) handler.(r_id) handler) s.(registry_mem_size) s.(registry_mem_ptr))
  else Fault.

(** [sizeof(register_t)] is 24. *)
Definition init_registry : M registry unit := fun _ =>
  Done (tt, mk_registry (replicate (Z.to_nat MAX_REGISTERS) inhabitant) (MAX_REGISTERS * 24) 0).

Definition create_register (name : option (Z * list Z)) (value : Z) : M registry Z := fun s =>
  match name with
  | None => Fault (* strcmp comes before the NULL test *)
  | Some nm =>
      if same_string nm.2 not_exists.2 then Done (GRS_INVALID, s)
      else if value =? 0 then Done (GRS_INVALID, s)
      else
        let id := u64 (s.(registry_mem_ptr) + 1) in
        let s := mk_registry s.(registry_mem_base) s.(registry_mem_size) id in
        if MAX_REGISTERS <=? id then Done (GRS_REG_FILLED, s)
        else Done (GRS_SUCCESS, mk_registry (aset s.(registry_mem_base) id (mk_register nm id value)) s.(registry_mem_size) id)
  end.

(** [read_buf] is a local copy: nothing is stored. *)
Definition read_register (name : option (Z * list Z)) (read_buf : Z) : M registry Z :=
  match name with
  | None => mret GRS_INVALID
  | Some nm =>
      if read_buf =? 0 then mret GRS_INVALID else
      let b := ret_register_handler nm.1 in
      if same_string b.(r_name).2 not_exists.2 then mret GRS_NOT_EXISTS else mret GRS_SUCCESS
  end.

Definition write_register (name : option (Z * list Z)) (write_buf : Z) : M registry Z :=
  match name with
  | None => mret GRS_INVALID
  | Some nm =>
      if write_buf =? 0 then mret GRS_INVALID else
      let b := ret_register_handler nm.1 in
      if same_string b.(r_name).2 not_exists.2 then mret GRS_NOT_EXISTS
      else _ ← wrt_register_handler b; fault (* no return value *)
  end.

(** [remove_at] on a byte buffer whose count is read through [count]. *)
Definition destroy_register (name : option (Z * list Z)) : M registry Z :=
  match name with
  | None => mret GRS_INVALID
  | Some nm =>
      let c := ret_register_handler nm.1 in
      if same_string c.(r_name).2 not_exists.2 then mret GRS_NOT_EXISTS
      else fault (* remove_at reads its count through an id *)
  end.
End grs.

(** ** What the store does *)

Lemma remove_at_deletes buffer count index :
  0 <= index < count -> count <= Z.of_nat (length buffer) ->
  let '(b, c, r) := remove_at buffer count index in
  c = count - 1 /\ r = 1 /\ length b = length buffer /\
  take (Z.to_nat c) b = delete (Z.to_nat index) (take (Z.to_nat count) buffer).
Proof.
  intros Hi Hc. unfold remove_at. destruct (Z.leb_spec count index); [lia|]. split_and!; [done|done|..].
  - rewrite !length_app, length_take, length_take, !length_drop. lia.
  - rewrite delete_take_drop, take_take, Nat.min_l by lia.
    rewrite take_app, take_take, length_take. f_equal; [f_equal; lia|].
    rewrite Nat.min_l by lia. rewrite take_app, take_take, length_take, length_drop.
    replace (Z.to_nat (count - 1) - Z.to_nat index - Nat.min _ _)%nat with 0%nat by lia. rewrite app_nil_r.
    rewrite take_drop_commute. f_equal. f_equal. lia.
Qed.

Section store.
Definition creation : Type := ((Z * list Z) * Z)%type.

Fixpoint create_all (l : list creation) : M registry (list Z) :=
  match l with
  | [] => mret []
  | (nm, v) :: l => r ← create_register (Some nm) v; rs ← create_all l; mret (r :: rs)
  end.

Definition creation_ok (c : creation) : Prop := c.2 <> 0 /\ same_string c.1.2 not_exists.2 = false.

Lemma create_all_run l : forall k s,
  Forall creation_ok l -> s.(registry_mem_ptr) = k -> 0 <= k -> k + Z.of_nat (length l) < 2 ^ 64 ->
  length s.(registry_mem_base) = 500%nat ->
  exists rs s', create_all l s = Done (rs, s') /\
    rs = imap (fun i _ => if k + 1 + Z.of_nat i <? MAX_REGISTERS then GRS_SUCCESS else GRS_REG_FILLED) l /\
    length s'.(registry_mem_base) = 500%nat /\
    (forall j, j <= k -> aget s'.(registry_mem_base) j = aget s.(registry_mem_base) j) /\
    forall i nm v, l !! i = Some (nm, v) -> k + 1 + Z.of_nat i < MAX_REGISTERS ->
      aget s'.(registry_mem_base) (k + 1 + Z.of_nat i) = mk_register nm (k + 1 + Z.of_nat i) v.
Proof.
  induction l as [|[nm v] l IH]; intros k s Hl Hp Hk Hb Hlen; cbn [create_all].
  { exists [], s. done. }
  apply Forall_cons in Hl as [[Hv Hn] Hl]. change ((nm, v).1.2) with nm.2 in Hn. cbn [fst snd length] in Hv, Hn, Hb.
  assert (exists s1, create_register (Some nm) v s =
      Done (if k + 1 <? MAX_REGISTERS then GRS_SUCCESS else GRS_REG_FILLED, s1) /\ s1.(registry_mem_ptr) = k + 1 /\
      s1.(registry_mem_base) = if k + 1 <? MAX_REGISTERS then aset s.(registry_mem_base) (k + 1) (mk_register nm (k + 1) v)
        else s.(registry_mem_base)) as (s1 & E1 & P1 & B1).
  { unfold create_register. rewrite Hn. destruct (Z.eqb_spec v 0); [done|]. rewrite Hp, u64_id by (unfold in_u64; lia).
    destruct (Z.leb_spec MAX_REGISTERS (k + 1)), (Z.ltb_spec (k + 1) MAX_REGISTERS); try lia; eexists; done. }
  assert (length s1.(registry_mem_base) = 500%nat) as L1 by (rewrite B1; case_match; rewrite ?length_aset; done).
  destruct (IH (k + 1) s1 Hl P1 ltac:(lia) ltac:(lia) L1) as (rs & s' & E & Hrs & L' & Hold & Hnew).
  rewrite (bind_eq _ _ _ _ _ E1), (bind_eq _ _ _ _ _ E). eexists _, s'. split; [reflexivity|]. split_and!.
  - cbn [imap]. rewrite Z.add_0_r. f_equal. rewrite Hrs. apply imap_ext. intros i x _. cbn. by replace (k + 1 + Z.of_nat (S i)) with (k + 1 + 1 + Z.of_nat i) by lia.
  - done.
  - intros j Hj. rewrite Hold by lia. rewrite B1. case_match; [|done]. apply aget_aset_ne. lia.
  - intros [|i] nm' v' Hi Hm; cbn in Hi.
    + injection Hi as <- <-. rewrite Z.add_0_r in *. rewrite Hold by lia. rewrite B1.
      destruct (Z.ltb_spec (k + 1) MAX_REGISTERS); [|lia]. apply aget_aset_eq. rewrite Hlen. unfold MAX_REGISTERS in *. lia.
    + replace (k + 1 + Z.of_nat (S i)) with (k + 1 + 1 + Z.of_nat i) in * by lia. by apply Hnew.
Qed.
End store.

(** The register store only ever takes things in.  Of any sequence of valid
    creations after [init_registry], the first 499 succeed and are stored in slots
    1 to 499, inside the table, the others are refused as full; and whatever was
    created, reading, writing or destroying any register afterwards returns
    [GRS_NOT_EXISTS] and changes nothing, because the search loop has its
    condition inverted. *)
Theorem registry_finds_nothing (uninit : register_t) (l : list creation) (s0 : registry) :
  Forall creation_ok l -> Z.of_nat (length l) < 2 ^ 64 ->
  exists rs s', (_ ← init_registry; create_all l) s0 = Done (rs, s') /\
    rs = imap (fun i _ => if Z.of_nat i <? 499 then GRS_SUCCESS else GRS_REG_FILLED) l /\
    (forall i nm v, l !! i = Some (nm, v) -> Z.of_nat i < 499 ->
       aget s'.(registry_mem_base) (1 + Z.of_nat i) = mk_register nm (1 + Z.of_nat i) v) /\
    forall nm p, p <> 0 ->
      read_register uninit (Some nm) p s' = Done (GRS_NOT_EXISTS, s') /\
      write_register uninit (Some nm) p s' = Done (GRS_NOT_EXISTS, s') /\
      destroy_register uninit (Some nm) s' = Done (GRS_NOT_EXISTS, s').
Proof.
  intros Hl Hb. set (s1 := mk_registry (replicate (Z.to_nat MAX_REGISTERS) inhabitant) (MAX_REGISTERS * 24) 0).
  destruct (create_all_run l 0 s1 Hl eq_refl ltac:(lia) ltac:(lia) eq_refl) as (rs & s' & E & Hrs & _ & _ & Hnew).
  exists rs, s'. split_and!.
  - by rewrite (bind_eq init_registry _ s0 tt s1).
  - rewrite Hrs. apply imap_ext. intros i x _. unfold MAX_REGISTERS.
    destruct (Z.ltb_spec (0 + 1 + Z.of_nat i) 500), (Z.ltb_spec (Z.of_nat i) 499); done || lia.
  - intros i nm v Hi Hm. apply (Hnew i nm v Hi). unfold MAX_REGISTERS. lia.
  - intros nm p Hp. unfold read_register, write_register, destroy_register.
    destruct (Z.eqb_spec p 0); [done|]. by split_and!.
Qed.

Lemma registry_finds_nothing_witness :
  exists rs s', (_ ← init_registry; create_all [((10, [97]), 5)]) (mk_registry [] 0 0) = Done (rs, s') /\
    rs = [GRS_SUCCESS] /\ read_register inhabitant (Some (10, [97])) 1 s' = Done (GRS_NOT_EXISTS, s').
Proof.
  destruct (registry_finds_nothing inhabitant [((10, [97]), 5)] (mk_registry [] 0 0)) as (rs & s' & E & Hr & _ & Hf);
    [repeat constructor; done|done|].
  exists rs, s'. split; [exact E|]. split; [exact Hr|]. exact (proj1 (Hf (10, [97]) 1 ltac:(done))).
Defined.
