(* ===== verification/Thread.v ===== *)
(** * Threads ([kernel/arch/x86_64/thread/thread.c])

    The first context of a thread, built at the top of its stack, in a memory of
    64-bit words.  [kmalloc] and the assembly routines that save and restore
    registers are parameters; what [iretq] pops is the processor's. *)

From S2P Require Import Prelude.

(** The registers in the order of [context_t], lowest address first. *)
Record context_t := mk_context {
  r15 : Z; r14 : Z; r13 : Z; r12 : Z; r11 : Z; r10 : Z; r9 : Z; r8 : Z;
  rbp : Z; rdi : Z; rsi : Z; rdx : Z; rcx : Z; rbx : Z; rax : Z;
  rip : Z; cs : Z; rflags : Z;
}.
Definition zero_context : context_t := mk_context 0 0 0 0 0 0 0 0 0 0 0 0 0 0 0 0 0 0.
Definition words_of (c : context_t) : list Z :=
  [c.(r15); c.(r14); c.(r13); c.(r12); c.(r11); c.(r10); c.(r9); c.(r8); c.(rbp); c.(rdi); c.(rsi); c.(rdx);
   c.(rcx); c.(rbx); c.(rax); c.(rip); c.(cs); c.(rflags)].
Definition sizeof_context : Z := 144.

Inductive status_t := READY | RUNNING | DEAD | ASLEEP.

Record thread_t := mk_thread {
  thread_status : status_t;
  kernel_stack : Z;
  cpu_state : Z;
  next : Z;
}.

Definition STACK_SIZE : Z := 4 * 0x1000.

(** Store words from an address upwards. *)
Fixpoint store_words (p : Z) (l : list Z) (m : gmap Z Z) : gmap Z Z :=
  match l with
  | [] => m
  | w :: l => store_words (p + 8) l (<[p := w]> m)
  end.

(** [current_cs] is what [get_cs] returns. *)
Definition context_at (kernel_stack stack_size : Z) : Z :=
  u64 (Z.land (u64 (kernel_stack + stack_size)) 0xFFFFFFFFFFFFFFF0 - sizeof_context).

Definition initial_context (current_cs kernel_stack stack_size entry_point : Z) (m : gmap Z Z) : Z * gmap Z Z :=
  let ctx := context_at kernel_stack stack_size in
  let m := store_words ctx (words_of zero_context) m in
  let m := <[ctx + 8 * 15 := entry_point]> m in
  let m := <[ctx + 8 * 16 := current_cs]> m in
  (ctx, <[ctx + 8 * 17 := 0x202]> m).

Definition catch_current_context (context : Z) : Z := context.

Section threads.
Context {A : Type} (kmalloc : Z -> M A Z).
Record machine := mk_machine { heap_ : A; words : gmap Z Z }.

Definition alloc_stack (n : Z) : M machine Z := fun s =>
  match kmalloc n s.(heap_) with
  | Done (p, h) => Done (p, mk_machine h s.(words))
  | Panicked w => Panicked w
  | Fault => Fault
  end.

Definition put_context (current_cs stack entry_point : Z) : M machine Z := fun s =>
  let '(c, m) := initial_context current_cs stack STACK_SIZE entry_point s.(words) in
  Done (c, mk_machine s.(heap_) m).

Definition thread_create (current_cs entry_point : Z) : M machine thread_t :=
  stack ← alloc_stack STACK_SIZE;
  ctx ← put_context current_cs stack entry_point;
  mret (mk_thread READY stack ctx 0).

Definition thread_kill (t : thread_t) : thread_t := mk_thread DEAD t.(kernel_stack) t.(cpu_state) t.(next).

(** [grab_context] returns the saved context, [restore_context] loads one. *)
Context (grab_context : M machine Z) (restore_context : Z -> M machine unit).
Definition thread_switch (current_thread next_ : thread_t) : M machine thread_t :=
  current_context ← grab_context;
  let current_thread := mk_thread current_thread.(thread_status) current_thread.(kernel_stack) current_context
                          current_thread.(next) in
  _ ← restore_context next_.(cpu_state);
  mret current_thread.
End threads.
Arguments mk_machine {A}.
Arguments heap_ {A}.
Arguments words {A}.

(** ** What the processor loads

    [restore_context] pops the fifteen registers and ends with [iretq], which in
    64-bit mode pops five words: the instruction pointer, the code segment, the
    flags, the stack pointer and the stack segment. *)
Definition load_context (m : gmap Z Z) (p : Z) : context_t * Z * Z :=
  let w i := m !!! (p + 8 * i) in
  (mk_context (w 0) (w 1) (w 2) (w 3) (w 4) (w 5) (w 6) (w 7) (w 8) (w 9) (w 10) (w 11) (w 12) (w 13) (w 14)
     (w 15) (w 16) (w 17), w 18, w 19).

Lemma mask16 x : in_u64 x -> Z.land x 0xFFFFFFFFFFFFFFF0 = x / 16 * 16.
Proof.
  intros Hx. change 0xFFFFFFFFFFFFFFF0 with (Z.shiftl (Z.ones 60) 4). change 16 with (2 ^ 4).
  rewrite <-Z.shiftr_div_pow2, <-Z.shiftl_mul_pow2 by lia. apply Z.bits_inj'. intros n Hn.
  rewrite Z.land_spec, !Z.shiftl_spec by lia. destruct (Z.lt_ge_cases n 4).
  - rewrite !(Z.testbit_neg_r _ (n - 4)) by lia. apply andb_false_r.
  - rewrite Z.shiftr_spec by lia. replace (n - 4 + 4) with n by lia.
    destruct (Z.lt_ge_cases n 64); [rewrite Z.ones_spec_low by lia; apply andb_true_r|].
    assert (Z.testbit x n = false) as ->; [|done].
    rewrite <-(Z.mod_small x (2 ^ 64)) by exact Hx. apply Z.mod_pow2_bits_high. lia.
Qed.

Lemma context_place p : 0 < p -> p + STACK_SIZE < 2 ^ 64 ->
  let c := context_at p STACK_SIZE in
  p <= c /\ p + STACK_SIZE - 16 < c + sizeof_context <= p + STACK_SIZE /\ c mod 16 = 0.
Proof.
  intros Hp Hb. unfold context_at, STACK_SIZE, sizeof_context in *.
  rewrite (u64_id (p + 4 * 4096)) by (unfold in_u64; lia). rewrite mask16 by (unfold in_u64; lia). wsolve.
Qed.

Lemma store_words_out p l m a : (a < p \/ p + 8 * Z.of_nat (length l) <= a) -> store_words p l m !!! a = m !!! a.
Proof.
  revert p m. induction l as [|w l IH]; intros p m Ha; [done|]. cbn [store_words length] in *.
  rewrite IH by lia. apply lookup_total_insert_ne. lia.
Qed.

Lemma store_words_in p l m i : (i < length l)%nat -> store_words p l m !!! (p + 8 * Z.of_nat i) = l !!! i.
Proof.
  revert p m i. induction l as [|w l IH]; intros p m i Hi; cbn [length] in Hi; [lia|]. cbn [store_words].
  destruct i as [|i].
  - rewrite Z.add_0_r, store_words_out by lia. apply lookup_total_insert_eq.
  - replace (p + 8 * Z.of_nat (S i)) with (p + 8 + 8 * Z.of_nat i) by lia. rewrite IH by lia. done.
Qed.

(** C37. [thread_create] builds a thread that can only be entered with a wrong
    stack.  When [kmalloc] returns a block, the context is 16-byte aligned, lies
    inside the stack, ends less than 16 bytes below its top, and nothing else in
    memory changes; restored, it starts at the entry point with cleared registers
    and interrupts enabled, but the stack pointer and stack segment are the two
    words above the context, which thread_create never wrote; the second reaches
    past the end of the stack, and both lie past it when the block is aligned to
    16 bytes.  When [kmalloc] fails, the context is
    written at address 16240. *)
Theorem thread_create_spec {A : Type} (kmalloc : Z -> M A Z) (current_cs entry : Z) (s : machine) (p : Z) (h : A) :
  kmalloc STACK_SIZE s.(heap_) = Done (p, h) -> 0 <= p -> p + STACK_SIZE < 2 ^ 64 ->
  exists t m, thread_create kmalloc current_cs entry s = Done (t, mk_machine h m) /\
    t = mk_thread READY p (context_at p STACK_SIZE) 0 /\
    load_context m t.(cpu_state) =
      (mk_context 0 0 0 0 0 0 0 0 0 0 0 0 0 0 0 entry current_cs 0x202,
       s.(words) !!! (t.(cpu_state) + 144), s.(words) !!! (t.(cpu_state) + 152)) /\
    (forall a, a < t.(cpu_state) \/ t.(cpu_state) + 144 <= a -> m !!! a = s.(words) !!! a) /\
    if p =? 0 then t.(cpu_state) = 16240
    else p <= t.(cpu_state) /\ t.(cpu_state) mod 16 = 0 /\
      p + STACK_SIZE - 16 < t.(cpu_state) + 144 <= p + STACK_SIZE /\ p + STACK_SIZE < t.(cpu_state) + 160 /\
      (p mod 16 = 0 -> t.(cpu_state) + 144 = p + STACK_SIZE).
Proof.
  intros Hk Hp Hb. unfold thread_create.
  rewrite (bind_eq _ _ s p (mk_machine h s.(words))) by (unfold alloc_stack; by rewrite Hk).
  set (c := context_at p STACK_SIZE).
  set (m := <[c + 8 * 17 := 0x202]> (<[c + 8 * 16 := current_cs]> (<[c + 8 * 15 := entry]>
    (store_words c (words_of zero_context) s.(words))))).
  exists (mk_thread READY p c 0), m. split; [done|]. split; [done|]. cbn [cpu_state].
  assert (forall i, 0 <= i < 15 -> m !!! (c + 8 * i) = 0) as Hz.
  { intros i Hi. unfold m. rewrite !lookup_total_insert_ne by lia. replace i with (Z.of_nat (Z.to_nat i)) by lia.
    rewrite store_words_in by (cbn; lia). assert (Z.to_nat i < 15)%nat as Hn by lia.
    generalize dependent (Z.to_nat i). clear. intros n Hn. do 15 (destruct n as [|n]; [done|]). lia. }
  assert (forall a, a < c \/ c + 144 <= a -> m !!! a = s.(words) !!! a) as Hout.
  { intros a Ha. unfold m. rewrite !lookup_total_insert_ne by lia. apply store_words_out. cbn. lia. }
  split_and!; [|exact Hout|].
  - unfold load_context.
    rewrite !Hz by lia.
    change (8 * 18) with 144. change (8 * 19) with 152. rewrite (Hout (c + 144)), (Hout (c + 152)) by lia. unfold m.
    assert (c + 8 * 15 <> c + 8 * 16 /\ c + 8 * 15 <> c + 8 * 17 /\ c + 8 * 16 <> c + 8 * 17) as (?&?&?) by lia.
    rewrite lookup_total_insert_eq, (lookup_total_insert_ne _ _ (c + 8 * 16)), lookup_total_insert_eq by done.
    rewrite !(lookup_total_insert_ne _ _ (c + 8 * 15)), lookup_total_insert_eq by done. done.
  - destruct (Z.eqb_spec p 0) as [->|Hne]; [done|].
    destruct (context_place p ltac:(lia) Hb) as (H1 & H2 & H3). fold c in H1, H2, H3. unfold sizeof_context in H2.
    unfold STACK_SIZE in *. split_and!; [done|done|lia|lia|lia|]. intros Ha. wsolve.
Qed.

(** An allocator that always returns the same block. *)
Lemma thread_create_spec_witness :
  exists t m, thread_create (fun _ => mret 0x10000) 8 0x400000 (mk_machine tt ∅) = Done (t, mk_machine tt m) /\
    t.(cpu_state) = 0x10000 + 16384 - 144.
Proof.
  destruct (thread_create_spec (fun _ => mret 0x10000) 8 0x400000 (mk_machine tt ∅) 0x10000 tt eq_refl ltac:(lia)
    ltac:(done)) as (t & m & E & -> & _).
  eexists _, m. split; [exact E|reflexivity].
Defined.
