(* ===== verification/Asm.v ===== *)
(** * The assembly routines ([kernel/entry.s], [kernel/arch/x86_64])

    The part of the processor the routines use, as an interpreter of
    instructions over registers and a memory of bytes, and the routines
    themselves, instruction by instruction.  Where a routine lies, and how many
    bytes its instructions take, is a parameter ([text]), as are the C functions
    it calls: a [Native] address runs a function from the state at its entry to
    the state at its return.  Loading a selector fails where [selector_ok]
    says so; privilege checks are left out, and so is the MXCSR. *)

From stdpp Require Import functions.
From S2P Require Import Prelude.

(** ** The processor *)

Inductive reg :=
  RAX | RBX | RCX | RDX | RSI | RDI | RBP | RSP | R8 | R9 | R10 | R11 | R12 | R13 | R14 | R15.
#[export] Instance reg_eq_dec : EqDecision reg.
Proof. solve_decision. Defined.

Inductive sreg := CS | DS | ES | FS | GS | SS.
#[export] Instance sreg_eq_dec : EqDecision sreg.
Proof. solve_decision. Defined.

Record core := mk_core {
  gpr : reg -> Z;
  pc : Z;
  flags : Z;
  seg : sreg -> Z;
  gs_base : Z;
  kernel_gs_base : Z;
  star_msr : Z;
  gdtr_ : Z * Z;
  idtr_ : Z * Z;
  bytes : gmap Z Z;
}.

Definition with_gpr (r : reg) (v : Z) (s : core) : core :=
  mk_core (<[r := v]> s.(gpr)) s.(pc) s.(flags) s.(seg) s.(gs_base) s.(kernel_gs_base) s.(star_msr)
    s.(gdtr_) s.(idtr_) s.(bytes).
Definition with_pc (a : Z) (s : core) : core :=
  mk_core s.(gpr) a s.(flags) s.(seg) s.(gs_base) s.(kernel_gs_base) s.(star_msr) s.(gdtr_) s.(idtr_) s.(bytes).
Definition with_flags (f : Z) (s : core) : core :=
  mk_core s.(gpr) s.(pc) f s.(seg) s.(gs_base) s.(kernel_gs_base) s.(star_msr) s.(gdtr_) s.(idtr_) s.(bytes).
Definition with_seg (g : sreg) (v : Z) (s : core) : core :=
  mk_core s.(gpr) s.(pc) s.(flags) (<[g := v]> s.(seg)) s.(gs_base) s.(kernel_gs_base) s.(star_msr)
    s.(gdtr_) s.(idtr_) s.(bytes).
Definition with_gs (base kernel : Z) (s : core) : core :=
  mk_core s.(gpr) s.(pc) s.(flags) s.(seg) base kernel s.(star_msr) s.(gdtr_) s.(idtr_) s.(bytes).
Definition with_gdtr (v : Z * Z) (s : core) : core :=
  mk_core s.(gpr) s.(pc) s.(flags) s.(seg) s.(gs_base) s.(kernel_gs_base) s.(star_msr) v s.(idtr_) s.(bytes).
Definition with_idtr (v : Z * Z) (s : core) : core :=
  mk_core s.(gpr) s.(pc) s.(flags) s.(seg) s.(gs_base) s.(kernel_gs_base) s.(star_msr) s.(gdtr_) v s.(bytes).
Definition with_bytes (m : gmap Z Z) (s : core) : core :=
  mk_core s.(gpr) s.(pc) s.(flags) s.(seg) s.(gs_base) s.(kernel_gs_base) s.(star_msr) s.(gdtr_) s.(idtr_) m.

(** [n] bytes at [a], little endian. *)
Fixpoint rd (n : nat) (m : gmap Z Z) (a : Z) : Z :=
  match n with O => 0 | S n => m !!! a + 256 * rd n m (a + 1) end.
Fixpoint wr (n : nat) (m : gmap Z Z) (a v : Z) : gmap Z Z :=
  match n with O => m | S n => <[a := v mod 256]> (wr n m (a + 1) (v / 256)) end.

(** ** Flags *)

Definition IF : Z := 9.
Definition DF : Z := 10.

(** The status flags after a result: CF, PF, AF, ZF, SF, OF. *)
Definition STATUS : Z := 0x8D5.
Definition parity (r : Z) : bool :=
  negb (foldr xorb false (map (Z.testbit r) [0; 1; 2; 3; 4; 5; 6; 7])).
Definition status (cf af ovf : bool) (r : Z) : Z :=
  Z.b2z cf + 4 * Z.b2z (parity r) + 16 * Z.b2z af + 64 * Z.b2z (r =? 0) + 128 * Z.b2z (Z.testbit r 63)
  + 2048 * Z.b2z ovf.
Definition set_status (st fl : Z) : Z := Z.lor (Z.land fl (Z.lnot STATUS)) (Z.land st STATUS).

(** What [iretq] in ring 0 and [sysretq] load. *)
Definition iret_flags (v : Z) : Z := Z.lor (Z.land v 0x3D7FD5) 2.
Definition sysret_flags (v : Z) : Z := Z.lor (Z.land v 0x3C7FD7) 2.

(** ** Instructions *)

Inductive instr :=
  | PUSH (r : reg) | PUSHI (v : Z) | POP (r : reg)
  | MOV (dst src : reg)                  (* 64 bits *)
  | MOV16 (dst : reg) (v : Z)            (* a 16-bit immediate *)
  | ZERO32 (r : reg)                     (* xor r32, r32 *)
  | LEA (r : reg) (a : Z)
  | ANDI (r : reg) (v : Z) | ADDI (r : reg) (v : Z) | SUBI (r : reg) (v : Z)
  | STORE (n : nat) (a : Z) (r : reg)    (* the low [n] bytes to a fixed address *)
  | TOGS (off : Z) (r : reg) | FROMGS (r : reg) (off : Z)
  | TOSEG (g : sreg) (r : reg) | FROMSEG (r : reg) (g : sreg)
  | SWAPGS | LGDT (a : Z) | LIDT (a : Z) | CLI | CLD | HLT
  | JMP (a : Z) | CALL (a : Z) | RET | LRETQ | IRETQ | SYSRETQ.

(** What an address holds: an instruction with the address behind it, or a C
    function. *)
Inductive cell :=
  | Asm (i : instr) (next : Z)
  | Native (f : core -> option core).

Section processor.
Context (text : Z -> option cell) (selector_ok : sreg -> Z -> bool).

Definition push (v : Z) (s : core) : core :=
  let p := u64 (s.(gpr) RSP - 8) in
  with_bytes (wr 8 s.(bytes) p v) (with_gpr RSP p s).
Definition top (i : Z) (s : core) : Z := rd 8 s.(bytes) (u64 (s.(gpr) RSP + 8 * i)).
Definition drop_words (i : Z) (s : core) : core := with_gpr RSP (u64 (s.(gpr) RSP + 8 * i)) s.

Definition load_seg (g : sreg) (v : Z) (s : core) : option core :=
  if selector_ok g (u16 v) then Some (with_seg g (u16 v) s) else None.

Definition exec (i : instr) (next : Z) (s : core) : option core :=
  let x := s.(gpr) in
  let s := with_pc next s in
  match i with
  | PUSH r => Some (push (x r) s)
  | PUSHI v => Some (push (u64 v) s)
  | POP r => Some (with_gpr r (top 0 s) (drop_words 1 s))
  | MOV d r => Some (with_gpr d (x r) s)
  | MOV16 r v => Some (with_gpr r (x r - x r mod 65536 + u16 v) s)
  | ZERO32 r => Some (with_flags (set_status (status false false false 0) s.(flags)) (with_gpr r 0 s))
  | LEA r a => Some (with_gpr r (u64 a) s)
  | ANDI r v =>
      let z := Z.land (x r) (u64 v) in
      Some (with_flags (set_status (status false false false z) s.(flags)) (with_gpr r z s))
  | ADDI r v =>
      let z := u64 (x r + v) in
      let st := status (2 ^ 64 <=? x r + u64 v) (16 <=? x r mod 16 + v mod 16)
                  (eqb (Z.testbit (x r) 63) (Z.testbit (u64 v) 63) && negb (eqb (Z.testbit (x r) 63) (Z.testbit z 63))) z in
      Some (with_flags (set_status st s.(flags)) (with_gpr r z s))
  | SUBI r v =>
      let z := u64 (x r - v) in
      let st := status (x r <? u64 v) (x r mod 16 <? v mod 16)
                  (negb (eqb (Z.testbit (x r) 63) (Z.testbit (u64 v) 63)) && negb (eqb (Z.testbit (x r) 63) (Z.testbit z 63))) z in
      Some (with_flags (set_status st s.(flags)) (with_gpr r z s))
  | STORE n a r => Some (with_bytes (wr n s.(bytes) a (x r)) s)
  | TOGS off r => Some (with_bytes (wr 8 s.(bytes) (u64 (s.(gs_base) + off)) (x r)) s)
  | FROMGS r off => Some (with_gpr r (rd 8 s.(bytes) (u64 (s.(gs_base) + off))) s)
  | TOSEG g r => load_seg g (x r) s
  | FROMSEG r g => Some (with_gpr r (x r - x r mod 65536 + s.(seg) g) s)
  | SWAPGS => Some (with_gs s.(kernel_gs_base) s.(gs_base) s)
  | LGDT a => Some (with_gdtr (rd 2 s.(bytes) a, rd 8 s.(bytes) (a + 2)) s)
  | LIDT a => Some (with_idtr (rd 2 s.(bytes) a, rd 8 s.(bytes) (a + 2)) s)
  | CLI => Some (with_flags (Z.clearbit s.(flags) IF) s)
  | CLD => Some (with_flags (Z.clearbit s.(flags) DF) s)
  | HLT => Some s
  | JMP a => Some (with_pc a s)
  | CALL a => Some (with_pc a (push next s))
  | RET => Some (with_pc (top 0 s) (drop_words 1 s))
  | LRETQ => load_seg CS (top 1 s) (with_pc (top 0 s) (drop_words 2 s))
  | IRETQ =>
      s' ← load_seg CS (top 1 s) s;
      load_seg SS (top 4 s) (with_flags (iret_flags (top 2 s)) (with_pc (top 0 s) (with_gpr RSP (top 3 s) s')))
  | SYSRETQ =>
      let user := Z.shiftr s.(star_msr) 48 in
      Some (with_seg CS (Z.lor (u16 (user + 16)) 3) (with_seg SS (Z.lor (u16 (user + 8)) 3)
        (with_flags (sysret_flags (x R11)) (with_pc (x RCX) s))))
  end.

Definition step (s : core) : option core :=
  match text s.(pc) with
  | Some (Asm i next) => exec i next s
  | Some (Native f) => f s
  | None => None
  end.

Fixpoint run_steps (n : nat) (s : core) : option core :=
  match n with O => Some s | S n => s' ← step s; run_steps n s' end.

Definition reaches (s s' : core) : Prop := exists n, run_steps n s = Some s'.
End processor.

(** The processor enters the handler at [handler] of an interrupt gate whose
    selector is [cs]: it aligns the stack of the interrupted kernel code, saves
    where it was, and masks interrupts; exceptions may add an error code. *)
Definition deliver (handler cs : Z) (code : option Z) (s : core) : core :=
  let old := s.(gpr) RSP in
  let s' := with_gpr RSP (Z.land old 0xFFFFFFFFFFFFFFF0) s in
  let s' := push s.(pc) (push (s.(seg) CS) (push s.(flags) (push old (push (s.(seg) SS) s')))) in
  let s' := match code with Some e => push e s' | None => s' end in
  with_pc handler (with_seg CS cs (with_flags (Z.land s.(flags) (Z.lnot 0x34300)) s')).

(** ** The routines *)

(** The macros [SAVE_REGISTERS] and [RESTORE_REGISTERS] of three of the files. *)
Definition saved_regs : list reg :=
  [RAX; RBX; RCX; RDX; RSI; RDI; RBP; R8; R9; R10; R11; R12; R13; R14; R15].
Definition SAVE_REGISTERS : list instr := map PUSH saved_regs.
Definition RESTORE_REGISTERS : list instr :=
  [POP R15; POP R14; POP R13; POP R12; POP R11; POP R10; POP R9; POP R8; POP RBP; POP RDI; POP RSI; POP RDX;
   POP RCX; POP RBX; POP RAX].

(** A handler of [interrupts/interrupts.s] that calls the C function at [f];
    [divide_handler] and [invalid_opcode_handler] are of this form. *)
Definition fault_handler (f : Z) : list instr := SAVE_REGISTERS ++ [CALL f] ++ RESTORE_REGISTERS ++ [IRETQ].
(** The handlers of exceptions with an error code: #DF, #GP and #PF. *)
Definition fault_handler_code (f : Z) : list instr :=
  SAVE_REGISTERS ++ [CALL f] ++ RESTORE_REGISTERS ++ [ADDI RSP 8; IRETQ].
Definition spurious_int_handler : list instr := SAVE_REGISTERS ++ RESTORE_REGISTERS ++ [IRETQ].

(** [timer/clock_s.s] *)
Definition tick_interrupt (clock_interrupt : Z) : list instr :=
  [CLD] ++ SAVE_REGISTERS ++ [MOV RBX RSP; ANDI RSP (-16); CALL clock_interrupt; MOV RSP RBX] ++
  RESTORE_REGISTERS ++ [IRETQ].

(** [syscalls/syscalls_s.s] *)
Definition syscall_entry (syscall_dispatch : Z) : list instr :=
  [SWAPGS; TOGS 8 RSP; FROMGS RSP 0] ++ SAVE_REGISTERS ++ [CALL syscall_dispatch] ++ RESTORE_REGISTERS ++
  [FROMGS RSP 8; SWAPGS; SYSRETQ].

(** [thread/thread_s.s] *)
Definition grab_context (catch_current_context : Z) : list instr :=
  SAVE_REGISTERS ++ [MOV RDI RSP; CALL catch_current_context] ++ RESTORE_REGISTERS ++ [IRETQ].
Definition restore_context : list instr := [MOV RSP RDI] ++ RESTORE_REGISTERS ++ [IRETQ].

(** [interrupts/idtLoad.s] *)
Definition load_idt (idtr : Z) : list instr :=
  [STORE 2 idtr RDI; STORE 8 (idtr + 2) RSI; LIDT idtr; RET].

(** [cpu/gdt/gdtLLong.s] *)
Definition load_gdt (gdtr reload_segments : Z) : list instr :=
  [STORE 2 gdtr RDI; STORE 8 (gdtr + 2) RSI; LGDT gdtr; CALL reload_segments; RET].
Definition reload_segments (reload_cs : Z) : list instr := [PUSHI 0x08; LEA RAX reload_cs; PUSH RAX; LRETQ].
Definition reload_cs : list instr :=
  [MOV16 RAX 0x10; TOSEG DS RAX; TOSEG ES RAX; TOSEG FS RAX; TOSEG GS RAX; TOSEG SS RAX; RET].
Definition get_cs : list instr := [ZERO32 RAX; FROMSEG RAX CS; RET].
Definition get_ds : list instr := [ZERO32 RAX; FROMSEG RAX DS; RET].

(** [entry.s]; [kernel_stack_top] is a symbol of the linker script. *)
Definition _start (kernel_stack_top kernel_main : Z) : list instr :=
  [CLI; MOV RDI RCX; LEA RSP kernel_stack_top; ANDI RSP (-16); SUBI RSP 8; CALL kernel_main].
Definition hang (hang : Z) : list instr := [HLT; JMP hang].
