(* ===== verification/AsmFacts.v ===== *)
(** * Running the assembly routines

    Memory, the registers a block of pushes saves and a block of pops loads,
    and the composition of runs. *)

From stdpp Require Import functions.
From S2P Require Import Prelude Asm.

(** ** Bytes *)

Record bytes_ok (m : gmap Z Z) : Prop := { byte_at : forall a, in_u8 (m !!! a) }.
Arguments byte_at {m}.

Lemma rd_range n m a : bytes_ok m -> 0 <= rd n m a < 256 ^ Z.of_nat n.
Proof.
  intros Hm. revert a. induction n as [|n IH]; intros a; [done|]. cbn [rd].
  specialize (IH (a + 1)). pose proof (byte_at Hm a) as Ha. unfold in_u8 in Ha.
  rewrite Nat2Z.inj_succ, Z.pow_succ_r by lia. lia.
Qed.

Lemma rd_ext n m m' a : (forall b, a <= b < a + Z.of_nat n -> m !!! b = m' !!! b) -> rd n m a = rd n m' a.
Proof.
  revert a. induction n as [|n IH]; intros a He; [done|]. cbn [rd].
  rewrite (He a) by lia. f_equal. f_equal. apply IH. intros b Hb. apply He. lia.
Qed.

Lemma wr_out n m a v b : b < a \/ a + Z.of_nat n <= b -> wr n m a v !!! b = m !!! b.
Proof.
  revert a v. induction n as [|n IH]; intros a v Hb; [done|]. cbn [wr].
  rewrite lookup_total_insert_ne by lia. apply IH. lia.
Qed.

Lemma wr_ok n m a v : bytes_ok m -> bytes_ok (wr n m a v).
Proof.
  revert a v. induction n as [|n IH]; intros a v Hm; [done|]. cbn [wr]. split. intros b.
  destruct (decide (b = a)) as [->|]; [rewrite lookup_total_insert_eq; wsolve|].
  rewrite lookup_total_insert_ne by done. by apply IH.
Qed.

Lemma rd_wr n m a v : 0 <= v -> rd n (wr n m a v) a = v mod 256 ^ Z.of_nat n.
Proof.
  revert a v. induction n as [|n IH]; intros a v Hv.
  - cbn. by rewrite Z.mod_1_r.
  - cbn [rd wr]. rewrite lookup_total_insert_eq.
    rewrite (rd_ext n _ (wr n m (a + 1) (v / 256))).
    + rewrite IH by (apply Z.div_pos; lia). rewrite Nat2Z.inj_succ, Z.pow_succ_r by lia.
      rewrite Z.rem_mul_r; [done|lia|]. apply Z.pow_pos_nonneg; lia.
    + intros b Hb. apply lookup_total_insert_ne. lia.
Qed.

Lemma rd_wr_u64 m a v : in_u64 v -> rd 8 (wr 8 m a v) a = v.
Proof. intros Hv. rewrite rd_wr by apply Hv. apply Z.mod_small, Hv. Qed.

Lemma rd_wr_out n k m a v b : b + Z.of_nat n <= a \/ a + Z.of_nat k <= b -> rd n (wr k m a v) b = rd n m b.
Proof. intros Hb. apply rd_ext. intros c Hc. apply wr_out. lia. Qed.

(** ** Machine words *)

Lemma bits_below n z : 0 <= n -> (forall j, n <= j -> Z.testbit z j = false) -> 0 <= z < 2 ^ n.
Proof.
  intros Hn Hz. assert (z = z mod 2 ^ n) as ->; [|apply Z.mod_pos_bound; lia].
  apply Z.bits_inj'. intros j Hj. rewrite Z.testbit_mod_pow2 by lia.
  destruct (Z.ltb_spec j n); [done|]. by rewrite Hz.
Qed.

Lemma high_bits n z j : 0 <= z < 2 ^ n -> 0 <= n <= j -> Z.testbit z j = false.
Proof. intros Hz Hj. rewrite <-(Z.mod_small z (2 ^ n)) by done. apply Z.mod_pow2_bits_high. lia. Qed.

Lemma below_lor n a b : 0 <= n -> 0 <= a < 2 ^ n -> 0 <= b < 2 ^ n -> 0 <= Z.lor a b < 2 ^ n.
Proof.
  intros Hn Ha Hb. apply bits_below; [done|]. intros j Hj.
  by rewrite Z.lor_spec, (high_bits n a), (high_bits n b) by done.
Qed.

Lemma u64_land a b : in_u64 b -> in_u64 (Z.land a b).
Proof.
  intros Hb. apply (bits_below 64); [done|]. intros j Hj.
  by rewrite Z.land_spec, (high_bits 64 b), andb_false_r by done.
Qed.

Lemma u64_lor a b : in_u64 a -> in_u64 b -> in_u64 (Z.lor a b).
Proof. apply (below_lor 64). done. Qed.

Lemma u64_clearbit a n : in_u64 a -> in_u64 (Z.clearbit a n).
Proof.
  intros Ha. apply (bits_below 64); [done|]. intros j Hj.
  by rewrite Z.clearbit_eqb, (high_bits 64 a) by done.
Qed.

Lemma align_mask x : in_u64 x -> Z.land x (u64 (-16)) = x / 16 * 16.
Proof.
  intros Hx. change (u64 (-16)) with (Z.shiftl (Z.ones 60) 4). change 16 with (2 ^ 4).
  rewrite <-Z.shiftr_div_pow2, <-Z.shiftl_mul_pow2 by lia. apply Z.bits_inj'. intros n Hn.
  rewrite Z.land_spec, !Z.shiftl_spec by lia. destruct (Z.lt_ge_cases n 4).
  - rewrite !(Z.testbit_neg_r _ (n - 4)) by lia. apply andb_false_r.
  - rewrite Z.shiftr_spec by lia. replace (n - 4 + 4) with n by lia.
    destruct (Z.lt_ge_cases n 64); [rewrite Z.ones_spec_low by lia; apply andb_true_r|].
    by rewrite (high_bits 64 x).
Qed.

(** The flags that arithmetic leaves alone. *)
Lemma set_status_bit st fl n : 0 <= n -> Z.testbit STATUS n = false ->
  Z.testbit (set_status st fl) n = Z.testbit fl n.
Proof.
  intros Hn Hs. unfold set_status. rewrite Z.lor_spec, !Z.land_spec, Z.lnot_spec, Hs by done.
  by rewrite andb_true_r, andb_false_r, orb_false_r.
Qed.

Section processor.
Context (text : Z -> option cell) (selector_ok : sreg -> Z -> bool).
Local Notation exec := (exec selector_ok).
Local Notation step := (step text selector_ok).
Local Notation reaches := (reaches text selector_ok).

(** ** Runs *)

Lemma run_steps_add n k s s1 : run_steps text selector_ok n s = Some s1 ->
  run_steps text selector_ok (n + k) s = run_steps text selector_ok k s1.
Proof.
  revert s. induction n as [|n IH]; intros s; cbn [run_steps Nat.add]; [by intros [= ->]|].
  destruct (step s) as [s2|]; [|done]. cbn. apply IH.
Qed.

#[export] Instance reaches_preorder : PreOrder reaches.
Proof.
  split; [intros s; by exists 0%nat|]. intros s1 s2 s3 [n Hn] [k Hk]. exists (n + k)%nat.
  by rewrite (run_steps_add n k _ _ Hn).
Qed.

Lemma reaches_step s s' : step s = Some s' -> reaches s s'.
Proof. intros Hs. exists 1%nat. cbn. by rewrite Hs. Qed.

Lemma reaches_exec s i next s' : text s.(pc) = Some (Asm i next) -> exec i next s = Some s' -> reaches s s'.
Proof. intros Ht He. apply reaches_step. unfold Asm.step. by rewrite Ht. Qed.

Lemma reaches_native s f s' : text s.(pc) = Some (Native f) -> f s = Some s' -> reaches s s'.
Proof. intros Ht He. apply reaches_step. unfold Asm.step. by rewrite Ht. Qed.

(** The instructions [l] lie from [a] on, and [b] is the address behind them. *)
Fixpoint placed (a : Z) (l : list instr) (b : Z) : Prop :=
  match l with
  | [] => a = b
  | i :: l => exists next, text a = Some (Asm i next) /\ in_u64 next /\ placed next l b
  end.

Lemma placed_app l1 l2 a b : placed a (l1 ++ l2) b <-> exists c, placed a l1 c /\ placed c l2 b.
Proof.
  revert a. induction l1 as [|i l1 IH]; intros a; cbn [placed app].
  - split; [by exists a|]. by intros (c & <- & ?).
  - split.
    + intros (x & Hx & Hu & (c & H1 & H2)%IH). exists c. split; [by exists x|done].
    + intros (c & (x & Hx & Hu & H1) & H2). exists x. split_and!; [done..|]. apply IH. by exists c.
Qed.

(** ** Saving and loading registers *)

(** Everything but the general registers, the memory and the program counter. *)
Record same_system (s s' : core) : Prop := {
  ss_flags : s'.(flags) = s.(flags);
  ss_seg : forall g, s'.(seg) g = s.(seg) g;
  ss_gs : s'.(gs_base) = s.(gs_base);
  ss_kgs : s'.(kernel_gs_base) = s.(kernel_gs_base);
  ss_star : s'.(star_msr) = s.(star_msr);
  ss_gdtr : s'.(gdtr_) = s.(gdtr_);
  ss_idtr : s'.(idtr_) = s.(idtr_);
}.
#[export] Instance same_system_pre : PreOrder same_system.
Proof. split; [by split|]. intros s1 s2 s3 [] []. split; intros; congruence. Qed.

(** The registers [rs] have been pushed, the first one highest. *)
Record saved (rs : list reg) (s s' : core) : Prop := {
  sv_system : same_system s s';
  sv_gpr : forall r, r <> RSP -> s'.(gpr) r = s.(gpr) r;
  sv_rsp : s'.(gpr) RSP = s.(gpr) RSP - 8 * Z.of_nat (length rs);
  sv_out : forall a, a < s'.(gpr) RSP \/ s.(gpr) RSP <= a -> s'.(bytes) !!! a = s.(bytes) !!! a;
  sv_words : forall i r, rs !! i = Some r ->
    rd 8 s'.(bytes) (s.(gpr) RSP - 8 * Z.of_nat (S i)) = s.(gpr) r;
}.

Lemma push_eq v s : in_u64 (s.(gpr) RSP) -> 8 <= s.(gpr) RSP ->
  push v s = with_bytes (wr 8 s.(bytes) (s.(gpr) RSP - 8) v) (with_gpr RSP (s.(gpr) RSP - 8) s).
Proof. intros Hr H8. unfold push. by rewrite u64_id by (unfold in_u64 in *; lia). Qed.

Lemma with_gpr_eq r v s : (with_gpr r v s).(gpr) r = v.
Proof. apply fn_lookup_insert. Qed.
Lemma with_gpr_ne r r' v s : r <> r' -> (with_gpr r v s).(gpr) r' = s.(gpr) r'.
Proof. apply fn_lookup_insert_ne. Qed.

Lemma pushes rs : forall s b, placed s.(pc) (map PUSH rs) b -> RSP ∉ rs -> (forall r, in_u64 (s.(gpr) r)) ->
  8 * Z.of_nat (length rs) <= s.(gpr) RSP ->
  exists s', reaches s s' /\ s'.(pc) = b /\ saved rs s s'.
Proof.
  induction rs as [|r rs IH]; intros s b Hp Hn Hu Hs.
  - exists s. split; [done|]. split; [exact Hp|]. split; [done|done|cbn; lia|done|done].
  - destruct Hp as (next & Ht & _ & Hp). apply not_elem_of_cons in Hn as [Hnr Hn]. cbn [length] in Hs.
    set (s1 := push (s.(gpr) r) (with_pc next s)).
    assert (s1 = with_bytes (wr 8 s.(bytes) (s.(gpr) RSP - 8) (s.(gpr) r))
      (with_gpr RSP (s.(gpr) RSP - 8) (with_pc next s))) as E1 by (apply (push_eq _ (with_pc next s)); [apply Hu|cbn; lia]).
    assert (s1.(gpr) RSP = s.(gpr) RSP - 8) as Hr1 by (rewrite E1; apply with_gpr_eq).
    assert (forall x, x <> RSP -> s1.(gpr) x = s.(gpr) x) as Hg1.
    { intros x Hx. rewrite E1. by apply (with_gpr_ne RSP x _ (with_pc next s)). }
    destruct (IH s1 b) as (s' & R & Hpc & [V1 V2 V3 V4 V5]).
    + by rewrite E1.
    + done.
    + intros x. destruct (decide (x = RSP)) as [->|]; [rewrite Hr1; specialize (Hu RSP); unfold in_u64 in *; lia|].
      by rewrite Hg1.
    + lia.
    + exists s'. split; [transitivity s1; [by eapply reaches_exec|done]|]. split; [done|].
      assert (s1.(bytes) = wr 8 s.(bytes) (s.(gpr) RSP - 8) (s.(gpr) r)) as Hb by (by rewrite E1).
      split.
      * transitivity s1; [by rewrite E1|done].
      * intros x Hx. by rewrite V2, Hg1.
      * cbn [length]. lia.
      * intros a Ha. rewrite V4 by lia. rewrite Hb. apply wr_out. lia.
      * intros [|i] x Hi; cbn in Hi.
        -- injection Hi as ->. rewrite (rd_ext 8 _ s1.(bytes)); [|intros c Hc; apply V4; lia].
           rewrite Hb. apply rd_wr_u64, Hu.
        -- assert (x <> RSP) as Hx. { intros ->. apply Hn. by eapply list_elem_of_lookup_2. }
           rewrite <-(Hg1 x) by done. rewrite <-(V5 i x Hi). f_equal. lia.
Qed.

(** The registers [rs] have been popped, the first one lowest. *)
Record loaded (rs : list reg) (s s' : core) : Prop := {
  ld_system : same_system s s';
  ld_bytes : s'.(bytes) = s.(bytes);
  ld_rsp : s'.(gpr) RSP = s.(gpr) RSP + 8 * Z.of_nat (length rs);
  ld_out : forall r, r <> RSP -> r ∉ rs -> s'.(gpr) r = s.(gpr) r;
  ld_words : forall i r, rs !! i = Some r -> s'.(gpr) r = rd 8 s.(bytes) (s.(gpr) RSP + 8 * Z.of_nat i);
}.

Lemma pops rs : forall s b, placed s.(pc) (map POP rs) b -> NoDup rs -> RSP ∉ rs ->
  0 <= s.(gpr) RSP -> s.(gpr) RSP + 8 * Z.of_nat (length rs) < 2 ^ 64 ->
  exists s', reaches s s' /\ s'.(pc) = b /\ loaded rs s s'.
Proof.
  induction rs as [|r rs IH]; intros s b Hp Hnd Hn Hs Hs'.
  - exists s. split; [done|]. split; [exact Hp|]. split; [done|done|cbn; lia|done|done].
  - destruct Hp as (next & Ht & _ & Hp). apply not_elem_of_cons in Hn as [Hnr Hn].
    apply NoDup_cons in Hnd as [Hr Hnd]. cbn [length] in Hs'.
    set (v := rd 8 s.(bytes) (s.(gpr) RSP)).
    set (s1 := with_gpr r v (with_gpr RSP (s.(gpr) RSP + 8) (with_pc next s))).
    assert (exec (POP r) next s = Some s1) as E1.
    { unfold Asm.exec, top, drop_words. cbn [gpr bytes with_pc]. rewrite Z.mul_0_r, Z.add_0_r, !u64_id by (unfold in_u64; lia).
      done. }
    assert (s1.(gpr) RSP = s.(gpr) RSP + 8) as Hr1.
    { unfold s1. rewrite with_gpr_ne by congruence. apply with_gpr_eq. }
    destruct (IH s1 b) as (s' & R & Hpc & [V1 V2 V3 V4 V5]); [done..|lia|lia|].
    exists s'. split; [transitivity s1; [by eapply reaches_exec|done]|]. split; [done|]. split.
    + transitivity s1; [done|done].
    + done.
    + cbn [length]. lia.
    + intros x Hx [Hxr Hxs]%not_elem_of_cons. rewrite V4 by done. unfold s1. rewrite !with_gpr_ne by congruence. done.
    + intros [|i] x Hi; cbn in Hi.
      * injection Hi as ->. rewrite V4 by congruence. unfold s1. rewrite with_gpr_eq. unfold v. f_equal. lia.
      * rewrite (V5 i x Hi). change (bytes s1) with (bytes s). f_equal. lia.
Qed.
End processor.

(** ** Well-formed states *)

Create HintDb core_ok discriminated.

Definition in_u16 (x : Z) : Prop := 0 <= x < 65536.

Record core_ok (s : core) : Prop := {
  co_gpr : forall r, in_u64 (s.(gpr) r);
  co_pc : in_u64 s.(pc);
  co_flags : in_u64 s.(flags);
  co_seg : forall g, in_u16 (s.(seg) g);
  co_gs : in_u64 s.(gs_base) /\ in_u64 s.(kernel_gs_base);
  co_star : in_u64 s.(star_msr);
  co_gdtr : in_u16 s.(gdtr_).1 /\ in_u64 s.(gdtr_).2;
  co_idtr : in_u16 s.(idtr_).1 /\ in_u64 s.(idtr_).2;
  co_bytes : bytes_ok s.(bytes);
}.

Lemma with_gpr_ok r v s : core_ok s -> in_u64 v -> core_ok (with_gpr r v s).
Proof.
  intros [] Hv. split; try done. intros x. destruct (decide (r = x)) as [->|Hne].
  - by rewrite with_gpr_eq.
  - by rewrite with_gpr_ne.
Qed.
Lemma with_pc_ok a s : core_ok s -> in_u64 a -> core_ok (with_pc a s).
Proof. intros [] ?. by split. Qed.
Lemma with_flags_ok f s : core_ok s -> in_u64 f -> core_ok (with_flags f s).
Proof. intros [] ?. by split. Qed.
Lemma with_seg_ok g v s : core_ok s -> in_u16 v -> core_ok (with_seg g v s).
Proof.
  intros [] Hv. split; try done. intros x. cbn [seg with_seg].
  destruct (decide (g = x)) as [->|Hne]; [by rewrite fn_lookup_insert|by rewrite fn_lookup_insert_ne].
Qed.
Lemma with_bytes_ok m s : core_ok s -> bytes_ok m -> core_ok (with_bytes m s).
Proof. intros [] ?. by split. Qed.

Lemma rd_u64 m a : bytes_ok m -> in_u64 (rd 8 m a).
Proof. intros Hm. exact (rd_range 8 m a Hm). Qed.
Lemma rd_u16 m a : bytes_ok m -> in_u16 (rd 2 m a).
Proof. intros Hm. exact (rd_range 2 m a Hm). Qed.
Lemma u16_range x : in_u16 (u16 x).
Proof. unfold in_u16. wsolve. Qed.
Lemma low16_u64 x v : in_u64 x -> in_u16 v -> in_u64 (x - x mod 65536 + v).
Proof. unfold in_u64, in_u16. intros. Z.div_mod_to_equations. lia. Qed.

Lemma set_status_u64 st fl : in_u64 fl -> in_u64 (set_status st fl).
Proof.
  intros Hf. unfold set_status. apply u64_lor.
  - rewrite Z.land_comm. by apply u64_land.
  - by apply u64_land.
Qed.

#[export] Hint Resolve with_gpr_ok with_pc_ok with_flags_ok with_seg_ok with_bytes_ok wr_ok rd_u64 rd_u16 u16_range
  low16_u64 set_status_u64 u64_land u64_lor u64_clearbit : core_ok.
#[export] Hint Resolve co_gpr co_pc co_flags co_seg co_star co_bytes u64_range : core_ok.

Lemma push_ok v s : core_ok s -> core_ok (push v s).
Proof. intros Hs. unfold push. auto 6 with core_ok. Qed.
Lemma top_u64 i s : core_ok s -> in_u64 (top i s).
Proof. intros Hs. unfold top. auto with core_ok. Qed.
Lemma drop_ok i s : core_ok s -> core_ok (drop_words i s).
Proof. intros Hs. unfold drop_words. auto with core_ok. Qed.
#[export] Hint Resolve push_ok top_u64 drop_ok : core_ok.

Definition target_ok (i : instr) : Prop :=
  match i with JMP a | CALL a => in_u64 a | _ => True end.

Lemma load_seg_ok selector_ok g v s s' : load_seg selector_ok g v s = Some s' -> core_ok s -> core_ok s'.
Proof. unfold load_seg. destruct (selector_ok g (u16 v)); [intros [= <-]; auto with core_ok|done]. Qed.

Lemma exec_ok selector_ok i next s s' :
  core_ok s -> in_u64 next -> target_ok i -> exec selector_ok i next s = Some s' -> core_ok s'.
Proof.
  intros Hs Hn Ht. pose proof (with_pc_ok next s Hs Hn) as Hs1. pose proof (fun r => co_gpr s Hs r) as Hg.
  pose proof Hs1 as [C1 C2 C3 C4 [C5 C6] C7 C8 C9 C10].
  assert (in_u64 0) as H0 by done.
  destruct i; cbn [exec target_ok] in *; intros E; try (apply (inj Some) in E as <-; auto 8 with core_ok; fail).
  - eapply load_seg_ok; eauto.
  - apply (inj Some) in E as <-. by split.
  - apply (inj Some) in E as <-. split; try done. cbn [gdtr_ with_gdtr fst snd]. auto with core_ok.
  - apply (inj Some) in E as <-. split; try done. cbn [idtr_ with_idtr fst snd]. auto with core_ok.
  - eapply load_seg_ok; [exact E|]. auto with core_ok.
  - destruct (load_seg selector_ok CS _ _) as [s1|] eqn:E1; [|done]. cbn [mbind option_bind] in E.
    eapply load_seg_ok; [exact E|]. apply load_seg_ok in E1; [|done].
    assert (in_u64 2 /\ in_u64 0x3D7FD5) as [? ?] by (by split). unfold iret_flags. auto 8 with core_ok.
  - apply (inj Some) in E as <-. assert (in_u64 2 /\ in_u64 0x3C7FD7) as [? ?] by (by split).
    assert (forall x, in_u16 (Z.lor (u16 x) 3)) as Hsel by (intros; apply (below_lor 16); [done|apply u16_range|done]).
    unfold sysret_flags. auto 8 with core_ok.
Qed.

(** ** The blocks that save and restore everything *)

Lemma saved_regs_perm r : r <> RSP -> r ∈ saved_regs.
Proof. intros Hr. destruct r; try done; apply (bool_decide_unpack _); vm_compute; exact I. Qed.

Lemma restore_reverses : RESTORE_REGISTERS = map POP (rev saved_regs).
Proof. reflexivity. Qed.

(** Where the saved copy of a register lies, above the stack pointer. *)
Lemma restored_slot r : r <> RSP -> exists i j, saved_regs !! i = Some r /\ rev saved_regs !! j = Some r /\
  Z.of_nat (S i) + Z.of_nat j = 15.
Proof.
  intros Hr. destruct r; try done.
  all: match goal with |- exists i j, saved_regs !! i = Some ?r /\ _ =>
    let i := eval vm_compute in (fst (default (O, RAX) (list_find (eq r) saved_regs))) in
    exists i, (14 - i)%nat end.
  all: split_and!; [reflexivity..|lia].
Qed.

(** What neither interrupts nor calls change. *)
Record kept (s u : core) : Prop := {
  kt_seg : forall g, g <> CS -> u.(seg) g = s.(seg) g;
  kt_gs : u.(gs_base) = s.(gs_base);
  kt_kgs : u.(kernel_gs_base) = s.(kernel_gs_base);
  kt_star : u.(star_msr) = s.(star_msr);
}.
#[export] Instance kept_pre : PreOrder kept.
Proof. split; [by split|]. intros s1 s2 s3 [] []. split; intros; try congruence. rewrite kt_seg1 by done. auto. Qed.
Lemma system_kept s u : same_system s u -> kept s u.
Proof. intros []. by split. Qed.

Section blocks.
Context (text : Z -> option cell) (selector_ok : sreg -> Z -> bool).
Local Notation reaches := (reaches text selector_ok).
Local Notation placed := (placed text).

Lemma save_all s b : placed s.(pc) SAVE_REGISTERS b -> (forall r, in_u64 (s.(gpr) r)) -> 120 <= s.(gpr) RSP ->
  exists t, reaches s t /\ t.(pc) = b /\ saved saved_regs s t.
Proof.
  intros Hp Hu H120. apply pushes; [exact Hp| |exact Hu|cbn; lia].
  apply (bool_decide_unpack _). vm_compute. exact I.
Qed.

(** The registers [regs] as [SAVE_REGISTERS] leaves them in memory, below [high]. *)
Definition stored (regs : reg -> Z) (high : Z) (m : gmap Z Z) : Prop :=
  forall i r, saved_regs !! i = Some r -> rd 8 m (high - 8 * Z.of_nat (S i)) = regs r.

Lemma stored_ext regs high m m' : (forall a, high - 120 <= a < high -> m' !!! a = m !!! a) ->
  stored regs high m -> stored regs high m'.
Proof.
  intros He Hs i r Hi. rewrite <-(Hs i r Hi). apply rd_ext. intros b Hb. apply He.
  apply lookup_lt_Some in Hi. change (length saved_regs) with 15%nat in Hi. lia.
Qed.

Lemma saved_stored s t : saved saved_regs s t -> stored s.(gpr) (s.(gpr) RSP) t.(bytes).
Proof. intros [_ _ _ _ Hw]. exact Hw. Qed.

Lemma restore_all regs high u b : placed u.(pc) RESTORE_REGISTERS b -> stored regs high u.(bytes) ->
  u.(gpr) RSP = high - 120 -> 120 <= high < 2 ^ 64 ->
  exists v, reaches u v /\ v.(pc) = b /\ (forall r, r <> RSP -> v.(gpr) r = regs r) /\ v.(gpr) RSP = high /\
    same_system u v /\ v.(bytes) = u.(bytes).
Proof.
  intros Hp Hw Hr Hh. rewrite restore_reverses in Hp.
  destruct (pops text selector_ok (rev saved_regs) u b) as (v & R & Hpc & [V1 V2 V3 V4 V5]).
  - exact Hp.
  - apply (bool_decide_unpack _). vm_compute. exact I.
  - apply (bool_decide_unpack _). vm_compute. exact I.
  - lia.
  - change (Z.of_nat (length (rev saved_regs))) with 15. lia.
  - change (Z.of_nat (length (rev saved_regs))) with 15 in V3.
    exists v. split_and!; [done|done| |lia|done|done]. intros r Hne.
    destruct (restored_slot r Hne) as (i & j & Hi & Hj & Hij). rewrite (V5 j r Hj), <-(Hw i r Hi). f_equal. lia.
Qed.

(** ** Calls *)

(** How a C function returns: to the return address, with the registers and the
    stack of its callers below [limit] as they were. *)
Record c_returns (limit : Z) (t t' : core) : Prop := {
  cr_pc : t'.(pc) = rd 8 t.(bytes) (t.(gpr) RSP);
  cr_rsp : t'.(gpr) RSP = t.(gpr) RSP + 8;
  cr_saved : forall r, r ∈ [RBX; RBP; R12; R13; R14; R15] -> t'.(gpr) r = t.(gpr) r;
  cr_kept : kept t t';
  cr_frame : forall a, t.(gpr) RSP + 8 <= a < limit -> t'.(bytes) !!! a = t.(bytes) !!! a;
}.

(** The state in which a function is entered from [s]: the return address has
    been pushed. *)
Record entered (next : Z) (s t : core) : Prop := {
  en_system : same_system s t;
  en_gpr : forall r, r <> RSP -> t.(gpr) r = s.(gpr) r;
  en_rsp : t.(gpr) RSP = s.(gpr) RSP - 8;
  en_return : rd 8 t.(bytes) (t.(gpr) RSP) = next;
  en_bytes : forall a, a < t.(gpr) RSP \/ s.(gpr) RSP <= a -> t.(bytes) !!! a = s.(bytes) !!! a;
}.

Lemma call_step s f next : text s.(pc) = Some (Asm (CALL f) next) -> in_u64 next ->
  in_u64 (s.(gpr) RSP) -> 8 <= s.(gpr) RSP ->
  exists t, reaches s t /\ t.(pc) = f /\ entered next s t.
Proof.
  intros Ht Hn Hu H8. exists (with_pc f (push next (with_pc next s))).
  split; [by eapply reaches_exec|]. split; [done|].
  rewrite (push_eq next (with_pc next s)) by done.
  set (u := with_gpr RSP (s.(gpr) RSP - 8) (with_pc next s)). assert (u.(gpr) RSP = s.(gpr) RSP - 8) as Hr by apply with_gpr_eq.
  constructor.
  - by split.
  - intros r Hne. by apply (with_gpr_ne RSP r _ (with_pc next s)).
  - exact Hr.
  - change (rd 8 (wr 8 s.(bytes) (s.(gpr) RSP - 8) next) (u.(gpr) RSP) = next). rewrite Hr. by apply rd_wr_u64.
  - intros a Ha. change (wr 8 s.(bytes) (s.(gpr) RSP - 8) next !!! a = s.(bytes) !!! a).
    apply wr_out. change (a < u.(gpr) RSP \/ s.(gpr) RSP <= a) in Ha. lia.
Qed.
(** Saving the registers and calling. *)
Record saved_and_called (next : Z) (d t : core) : Prop := {
  sc_gpr : forall r, r <> RSP -> t.(gpr) r = d.(gpr) r;
  sc_rsp : t.(gpr) RSP = d.(gpr) RSP - 128;
  sc_flags : t.(flags) = d.(flags);
  sc_kept : kept d t;
  sc_return : rd 8 t.(bytes) (t.(gpr) RSP) = next;
  sc_stored : stored d.(gpr) (d.(gpr) RSP) t.(bytes);
  sc_out : forall a, d.(gpr) RSP <= a -> t.(bytes) !!! a = d.(bytes) !!! a;
}.

Lemma save_and_call d f rest b : placed d.(pc) (SAVE_REGISTERS ++ [CALL f] ++ rest) b ->
  (forall r, in_u64 (d.(gpr) r)) -> 128 <= d.(gpr) RSP ->
  exists next t, reaches d t /\ t.(pc) = f /\ saved_and_called next d t /\ placed next rest b.
Proof.
  intros Hp Hu H128. apply placed_app in Hp as (b1 & Hsave & (next & Ht & Hn & Hrest)).
  destruct (save_all d b1 Hsave Hu ltac:(lia)) as (s1 & R1 & Hpc & Sv). rewrite <-Hpc in Ht.
  pose proof (sv_rsp _ _ _ Sv) as Hr. change (Z.of_nat (length saved_regs)) with 15 in Hr.
  pose proof (Hu RSP) as Hur. unfold in_u64 in Hur.
  destruct (call_step s1 f next Ht Hn) as (t & R2 & Hpc2 & [E1 E2 E3 E4 E5]); [unfold in_u64; lia|lia|].
  exists next, t. split; [by transitivity s1|]. split; [done|]. split; [|done]. pose proof Sv as [V1 V2 _ V4 _].
  constructor.
  - intros r Hne. by rewrite E2, V2.
  - lia.
  - rewrite (ss_flags _ _ E1). apply V1.
  - transitivity s1; by apply system_kept.
  - done.
  - apply (stored_ext _ _ s1.(bytes)); [|by apply saved_stored]. intros a Ha. apply E5. lia.
  - intros a Ha. rewrite E5, V4 by lia. done.
Qed.

(** What is there when the function has returned. *)
Lemma after_call limit next d t t' : saved_and_called next d t -> c_returns limit t t' -> d.(gpr) RSP <= limit ->
  t'.(pc) = next /\ t'.(gpr) RSP = d.(gpr) RSP - 120 /\ kept d t' /\ stored d.(gpr) (d.(gpr) RSP) t'.(bytes) /\
  (forall a, d.(gpr) RSP <= a < limit -> t'.(bytes) !!! a = d.(bytes) !!! a).
Proof.
  intros [S1 S2 S3 S4 S5 S6 S7] [C1 C2 C3 C4 C5] Hl. split_and!.
  - congruence.
  - lia.
  - by transitivity t.
  - apply (stored_ext _ _ t.(bytes)); [|done]. intros a Ha. apply C5. lia.
  - intros a Ha. rewrite C5 by lia. apply S7. lia.
Qed.
End blocks.

(** ** Interrupts *)

Definition push_words (l : list Z) (s : core) : core := foldl (fun s v => push v s) s l.

Record pushed (l : list Z) (s s' : core) : Prop := {
  pw_system : same_system s s';
  pw_pc : s'.(pc) = s.(pc);
  pw_gpr : forall r, r <> RSP -> s'.(gpr) r = s.(gpr) r;
  pw_rsp : s'.(gpr) RSP = s.(gpr) RSP - 8 * Z.of_nat (length l);
  pw_out : forall a, a < s'.(gpr) RSP \/ s.(gpr) RSP <= a -> s'.(bytes) !!! a = s.(bytes) !!! a;
  pw_words : forall i v, l !! i = Some v -> rd 8 s'.(bytes) (s.(gpr) RSP - 8 * Z.of_nat (S i)) = v;
}.

Lemma push_words_spec l : forall s, Forall in_u64 l -> in_u64 (s.(gpr) RSP) ->
  8 * Z.of_nat (length l) <= s.(gpr) RSP -> pushed l s (push_words l s).
Proof.
  induction l as [|v l IH]; intros s Hl Hu Hs; cbn [push_words foldl].
  - by constructor; [| |done|cbn; lia|done|done].
  - apply Forall_cons in Hl as [Hv Hl]. cbn [length] in Hs. change (foldl _ ?x l) with (push_words l x).
    rewrite (push_eq v s) by (done || lia). set (s1 := with_bytes _ _).
    assert (s1.(gpr) RSP = s.(gpr) RSP - 8) as Hr1 by (apply (with_gpr_eq RSP)).
    assert (s1.(bytes) = wr 8 s.(bytes) (s.(gpr) RSP - 8) v) as Hb by done.
    assert (forall r, r <> RSP -> s1.(gpr) r = s.(gpr) r) as Hg by (intros r Hr; by apply (with_gpr_ne RSP r)).
    assert (same_system s s1) as Hsys by done. assert (s1.(pc) = s.(pc)) as Hpc by done. clearbody s1.
    destruct (IH s1 Hl) as [P1 P2 P3 P4 P5 P6]; [unfold in_u64 in *; lia|lia|]. constructor.
    + by transitivity s1.
    + congruence.
    + intros r Hr. by rewrite P3, Hg.
    + cbn [length]. lia.
    + intros a Ha. rewrite P5 by lia. rewrite Hb. apply wr_out. lia.
    + intros [|i] w Hi; cbn in Hi.
      * injection Hi as ->. rewrite (rd_ext 8 _ s1.(bytes)); [|intros c Hc; apply P5; lia].
        rewrite Hb. by apply rd_wr_u64.
      * rewrite <-(P6 i w Hi). f_equal. lia.
Qed.

(** The bottom of the frame that an interrupt leaves on the stack. *)
Definition frame_of (s : core) : Z := s.(gpr) RSP / 16 * 16 - 40.

(** The frame of [s] in memory, and what lay above the stack pointer of [s]. *)
Record framed (s : core) (limit : Z) (m : gmap Z Z) : Prop := {
  fr_pc : rd 8 m (frame_of s) = s.(pc);
  fr_cs : rd 8 m (frame_of s + 8) = s.(seg) CS;
  fr_flags : rd 8 m (frame_of s + 16) = s.(flags);
  fr_old : rd 8 m (frame_of s + 24) = s.(gpr) RSP;
  fr_ss : rd 8 m (frame_of s + 32) = s.(seg) SS;
  fr_out : forall a, frame_of s + 40 <= a < limit -> m !!! a = s.(bytes) !!! a;
}.

Lemma framed_ext s limit m m' : frame_of s + 40 <= limit ->
  (forall a, frame_of s <= a < limit -> m' !!! a = m !!! a) -> framed s limit m -> framed s limit m'.
Proof.
  intros Hl He [F1 F2 F3 F4 F5 F6].
  constructor; [rewrite <-F1|rewrite <-F2|rewrite <-F3|rewrite <-F4|rewrite <-F5|];
    [apply rd_ext; intros b Hb; apply He; lia..|].
  intros a Ha. rewrite He by lia. by apply F6.
Qed.

Record interrupted (code : option Z) (s d : core) : Prop := {
  it_gpr : forall r, r <> RSP -> d.(gpr) r = s.(gpr) r;
  it_rsp : d.(gpr) RSP = frame_of s - match code with Some _ => 8 | None => 0 end;
  it_kept : kept s d;
  it_masked : Z.testbit d.(flags) IF = false;
  it_frame : forall limit, framed s limit d.(bytes);
}.

Lemma deliver_pc h cs code s : (deliver h cs code s).(pc) = h.
Proof. by destruct code. Qed.

Lemma deliver_interrupted h cs code s : core_ok s -> 64 <= s.(gpr) RSP -> (forall e, code = Some e -> in_u64 e) ->
  interrupted code s (deliver h cs code s).
Proof.
  intros Hs H64 He. pose proof (co_gpr s Hs RSP) as Hr.
  set (p := s.(gpr) RSP / 16 * 16).
  assert (in_u64 p /\ 48 <= p) as [Hp Hp48] by (unfold in_u64, p in *; Z.div_mod_to_equations; lia).
  set (s0 := with_gpr RSP p s).
  assert (s0.(gpr) RSP = p) as Hr0 by apply with_gpr_eq.
  set (l := [s.(seg) SS; s.(gpr) RSP; s.(flags); s.(seg) CS; s.(pc)]).
  set (cl := match code with Some e => [e] | None => [] end).
  pose proof (co_seg s Hs) as Hseg. unfold in_u16 in Hseg.
  assert (Forall in_u64 (l ++ cl)) as Hl.
  { unfold l, cl. rewrite Forall_app. split.
    - repeat apply Forall_cons_2; auto with core_ok; unfold in_u64; [specialize (Hseg SS)|specialize (Hseg CS)]; lia.
    - destruct code; [|done]. repeat constructor. all: apply (He _ eq_refl). }
  assert (length cl = match code with Some _ => 1 | None => 0 end)%nat as Hcl by (unfold cl; by destruct code).
  destruct (push_words_spec (l ++ cl) s0 Hl) as [P1 _ P3 P4 P5 P6].
  { by rewrite Hr0. }
  { rewrite Hr0, length_app, Hcl. cbn. destruct code; lia. }
  assert (deliver h cs code s = with_pc h (with_seg CS cs (with_flags (Z.land s.(flags) (Z.lnot 0x34300))
    (push_words (l ++ cl) s0)))) as ->.
  { unfold deliver. rewrite (align_mask (s.(gpr) RSP) Hr : Z.land _ 0xFFFFFFFFFFFFFFF0 = _). by destruct code. }
  set (d := push_words (l ++ cl) s0) in *. clearbody d. rewrite Hr0, length_app, Hcl in P4. rewrite Hr0 in P5, P6.
  pose proof P1 as [S1 S2 S3 S4 S5 S6 S7].
  constructor; cbn [gpr with_pc with_seg with_flags seg gs_base kernel_gs_base star_msr flags bytes]; unfold frame_of; fold p.
  - intros r Hne. rewrite P3 by done. by apply with_gpr_ne.
  - rewrite P4. cbn [length l]. destruct code; cbn; lia.
  - split; cbn [seg gs_base kernel_gs_base star_msr with_pc with_seg with_flags]; [|by rewrite S3|by rewrite S4|by rewrite S5].
    intros g Hg. rewrite fn_lookup_insert_ne by done. by rewrite S2.
  - rewrite Z.land_spec, Z.lnot_spec by (unfold IF; lia). by rewrite andb_false_r.
  - intros limit. constructor; unfold frame_of; fold p.
    + rewrite <-(P6 4%nat (s.(pc))) by done. f_equal; lia.
    + rewrite <-(P6 3%nat (s.(seg) CS)) by done. f_equal; lia.
    + rewrite <-(P6 2%nat (s.(flags))) by done. f_equal; lia.
    + rewrite <-(P6 1%nat (s.(gpr) RSP)) by done. f_equal; lia.
    + rewrite <-(P6 0%nat (s.(seg) SS)) by done. f_equal; lia.
    + intros a Ha. rewrite P5 by lia. done.
Qed.

(** Execution goes on where [s] was interrupted. *)
Record resumed (s v : core) : Prop := {
  rs_pc : v.(pc) = s.(pc);
  rs_gpr : forall r, v.(gpr) r = s.(gpr) r;
  rs_flags : v.(flags) = s.(flags);
  rs_seg : forall g, v.(seg) g = s.(seg) g;
  rs_gs : v.(gs_base) = s.(gs_base) /\ v.(kernel_gs_base) = s.(kernel_gs_base);
  rs_star : v.(star_msr) = s.(star_msr);
}.

(** Code that [iretq] can go back to. *)
Definition returnable (selector_ok : sreg -> Z -> bool) (s : core) : Prop :=
  iret_flags s.(flags) = s.(flags) /\ selector_ok CS (s.(seg) CS) = true /\ selector_ok SS (s.(seg) SS) = true.

Section iret.
Context (text : Z -> option cell) (selector_ok : sreg -> Z -> bool).

Lemma iret_resumes s u next limit : core_ok s -> returnable selector_ok s ->
  40 <= s.(gpr) RSP / 16 * 16 ->
  text u.(pc) = Some (Asm IRETQ next) ->
  (forall r, r <> RSP -> u.(gpr) r = s.(gpr) r) -> u.(gpr) RSP = frame_of s -> kept s u ->
  framed s limit u.(bytes) ->
  exists v, reaches text selector_ok u v /\ resumed s v /\ v.(bytes) = u.(bytes).
Proof.
  intros Hs (Hf & Hcs & Hss) Hp Ht Hg Hr [K1 K2 K3 K4] [I9 I10 I11 I12 I13 _].
  pose proof (co_gpr s Hs RSP) as Hu. unfold in_u64 in Hu.
  assert (forall i, 0 <= i < 5 -> top i (with_pc next u) = rd 8 u.(bytes) (frame_of s + 8 * i)) as Htop.
  { intros i Hi. unfold top. cbn [gpr bytes with_pc]. rewrite Hr, u64_id; [done|].
    unfold in_u64, frame_of. Z.div_mod_to_equations. lia. }
  assert (forall g, u16 (s.(seg) g) = s.(seg) g) as H16.
  { intros g. pose proof (co_seg s Hs g) as Hx. unfold u16, in_u16 in *. by apply Z.mod_small. }
  eexists. split; [eapply reaches_exec; [exact Ht|]|].
  - unfold exec. rewrite !Htop by lia. rewrite Z.mul_0_r, Z.add_0_r.
    change (8 * 1) with 8. change (8 * 2) with 16. change (8 * 3) with 24. change (8 * 4) with 32.
    rewrite I9, I10, I11, I12, I13. unfold load_seg. rewrite !H16, Hcs. cbn [mbind option_bind]. rewrite Hss, Hf. reflexivity.
  - split; [|done]. constructor; cbn [pc gpr flags seg gs_base kernel_gs_base star_msr with_seg with_flags with_pc with_gpr].
    + done.
    + intros r. destruct (decide (r = RSP)) as [->|Hne]; [apply fn_lookup_insert|].
      rewrite fn_lookup_insert_ne by done. by apply Hg.
    + done.
    + intros g. destruct (decide (g = SS)) as [->|Hne]; [apply fn_lookup_insert|].
      rewrite fn_lookup_insert_ne by done. destruct (decide (g = CS)) as [->|Hne2]; [apply fn_lookup_insert|].
      rewrite fn_lookup_insert_ne by done. by apply K1.
    + done.
    + done.
Qed.
End iret.

(** ** A machine to try the routines on

    A routine at 0x1000, its instructions one byte long, and a C function at
    0x500 that returns 77. *)
Module AsmDemo.
Definition code_at : Z := 0x1000.
Definition text (l : list instr) (f : core -> option core) (a : Z) : option cell :=
  if a =? 0x500 then Some (Native f)
  else if (code_at <=? a) && (a <? code_at + Z.of_nat (length l))
  then (fun i => Asm i (a + 1)) <$> l !! Z.to_nat (a - code_at) else None.
Definition returns (t : core) : option core :=
  Some (with_pc (rd 8 t.(bytes) (t.(gpr) RSP)) (with_gpr RAX 77 (with_gpr RSP (t.(gpr) RSP + 8) t))).
Definition regs (r : reg) : Z := match r with RSP => 0x8008 | RDI => 0x9000 | RSI => 0x7000 | RCX => 0x2000 | R11 => 0x202 | _ => 7 end.
Definition segs (g : sreg) : Z := match g with CS => 8 | _ => 16 end.
(** The per-CPU block at 0x9000 holds the address of the kernel's stack. *)
Definition memory : gmap Z Z := wr 8 ∅ 0x9000 0x8800.
Definition kernel : core := mk_core regs 0x2000 0x202 segs 0 0x9000 (Z.shiftl 24 48) (0, 0) (0, 0) memory.
Definition called : core := with_pc code_at kernel.
Definition selector_ok (g : sreg) (v : Z) : bool := match g with CS => v =? 8 | _ => v =? 16 end.
End AsmDemo.

Lemma demo_placed l f : Z.of_nat (length l) <= 0x1000 ->
  placed (AsmDemo.text l f) AsmDemo.code_at l (AsmDemo.code_at + Z.of_nat (length l)).
Proof.
  intros Hl. assert (forall k rest, l = take k l ++ rest -> (k <= length l)%nat ->
    placed (AsmDemo.text l f) (AsmDemo.code_at + Z.of_nat k) rest (AsmDemo.code_at + Z.of_nat (length l))) as H.
  { intros k rest. revert k. induction rest as [|i rest IH]; intros k E Hk.
    - cbn. rewrite app_nil_r in E. rewrite E, length_take. lia.
    - assert (k < length l)%nat as Hlt.
      { rewrite E, length_app, length_take. cbn. lia. }
      assert (l !! k = Some i) as Hi.
      { rewrite E, lookup_app_r by (rewrite length_take; lia). rewrite length_take.
        by replace (k - k `min` length l)%nat with 0%nat by lia. }
      exists (AsmDemo.code_at + Z.of_nat (S k)). split_and!.
      + unfold AsmDemo.text, AsmDemo.code_at in *. destruct (Z.eqb_spec (0x1000 + Z.of_nat k) 0x500); [lia|].
        destruct (Z.leb_spec 0x1000 (0x1000 + Z.of_nat k)); [|lia].
        destruct (Z.ltb_spec (0x1000 + Z.of_nat k) (0x1000 + Z.of_nat (length l))); [|lia]. cbn [andb].
        replace (Z.to_nat (0x1000 + Z.of_nat k - 0x1000)) with k by lia. rewrite Hi. cbn. do 2 f_equal. lia.
      + unfold in_u64, AsmDemo.code_at. lia.
      + apply IH; [|lia]. by rewrite (take_S_r l k i Hi), <-app_assoc. }
  rewrite <-(Z.add_0_r AsmDemo.code_at) at 1. apply (H 0%nat l); [done|lia].
Qed.

Lemma demo_bytes_ok : bytes_ok AsmDemo.memory.
Proof. apply wr_ok. split. intros a. by rewrite lookup_total_empty. Qed.

Lemma demo_kernel_ok : core_ok AsmDemo.kernel.
Proof. constructor; try (by split); [by intros []|by intros []|exact demo_bytes_ok]. Qed.

Lemma demo_called_ok : core_ok AsmDemo.called.
Proof. by apply with_pc_ok; [exact demo_kernel_ok|]. Qed.

Lemma demo_returns limit t : exists t', AsmDemo.returns t = Some t' /\ c_returns limit t t'.
Proof.
  eexists. split; [reflexivity|]. set (x := with_gpr RSP _ t).
  assert (forall r, r <> RAX -> (with_gpr RAX 77 x).(gpr) r = x.(gpr) r) as Hg by (intros r Hr; by apply with_gpr_ne).
  constructor; try done.
  intros r Hr. cbn [gpr with_pc]. rewrite Hg.
  - apply with_gpr_ne. intros <-. revert Hr. apply (bool_decide_unpack _). vm_compute. exact I.
  - intros ->. revert Hr. apply (bool_decide_unpack _). vm_compute. exact I.
Qed.

(** Code at known addresses is placed by computation. *)
Ltac place := repeat first [reflexivity | eexists; split; [reflexivity | split; [done|]]].
