(* ===== verification/AsmTheorems.v ===== *)
(** * The properties of the assembly routines

    Interrupts are transparent, calls go by the calling convention or break it,
    contexts and descriptor tables are loaded as the C code expects. *)

From stdpp Require Import functions.
From S2P Require Import Prelude Thread Asm AsmFacts.

(** The next instruction of a placed block: its cell, and the rest of the block. *)
Ltac next_instr Hp Ht Hn := let n := fresh "n" in destruct Hp as (n & Ht & Hn & Hp).

(** ** The frame on the way in and out *)

Lemma frame_place s : core_ok s -> 256 <= s.(gpr) RSP ->
  frame_of s mod 16 = 8 /\ 200 <= frame_of s /\ frame_of s + 40 <= s.(gpr) RSP < 2 ^ 64 /\ 40 <= s.(gpr) RSP / 16 * 16.
Proof.
  intros Hs H256. pose proof (co_gpr s Hs RSP) as Hu. unfold in_u64, frame_of in *. Z.div_mod_to_equations. lia.
Qed.

Lemma interrupted_gpr code s d : core_ok s -> 256 <= s.(gpr) RSP -> interrupted code s d -> forall r, in_u64 (d.(gpr) r).
Proof.
  intros Hs H256 Hd r. destruct (frame_place s Hs H256) as (_ & H1 & H2 & _). destruct (decide (r = RSP)) as [->|Hne].
  - rewrite (it_rsp _ _ _ Hd). unfold in_u64. destruct code; lia.
  - rewrite (it_gpr _ _ _ Hd) by done. apply (co_gpr s Hs).
Qed.

Section routines.
Context (text : Z -> option cell) (selector_ok : sreg -> Z -> bool).
Local Notation reaches := (reaches text selector_ok).
Local Notation placed := (placed text).

(** ** Types *)

(** Every cell leads to addresses of 64 bits, and C functions keep states well formed. *)
Definition text_ok : Prop := forall a c, text a = Some c ->
  match c with
  | Asm i next => in_u64 next /\ target_ok i
  | Native f => forall s s', core_ok s -> f s = Some s' -> core_ok s'
  end.

Lemma step_ok s s' : text_ok -> core_ok s -> step text selector_ok s = Some s' -> core_ok s'.
Proof.
  intros Ht Hs. unfold step. destruct (text s.(pc)) as [[i next|f]|] eqn:E; [| |done].
  - destruct (Ht _ _ E). intros He. by eapply exec_ok.
  - intros He. by eapply (Ht _ _ E).
Qed.

(** The state in which the calling convention wants a function to be entered. *)
Definition conforming (t : core) : Prop := t.(gpr) RSP mod 16 = 8 /\ Z.testbit t.(flags) DF = false.

(** A C function that returns whenever it is called by the rules. *)
Definition keeps_abi (limit : Z) (f : core -> option core) : Prop :=
  forall t, conforming t -> exists t', f t = Some t' /\ c_returns limit t t'.

(** The end of every handler: the registers come back and [iretq] returns. *)
Lemma restore_and_return code s d u rest b limit : core_ok s -> 256 <= s.(gpr) RSP -> s.(gpr) RSP <= limit ->
  returnable selector_ok s -> interrupted code s d ->
  (rest = match code with Some _ => [ADDI RSP 8; IRETQ] | None => [IRETQ] end) ->
  placed u.(pc) (RESTORE_REGISTERS ++ rest) b -> u.(gpr) RSP = d.(gpr) RSP - 120 -> kept d u ->
  stored d.(gpr) (d.(gpr) RSP) u.(bytes) ->
  (forall a, d.(gpr) RSP <= a < limit -> u.(bytes) !!! a = d.(bytes) !!! a) ->
  exists v, reaches u v /\ resumed s v /\ v.(bytes) = u.(bytes).
Proof.
  intros Hs H256 Hl Hret Hd Erest Hp Hr Hk Hst Hb. destruct (frame_place s Hs H256) as (_ & H1 & H2 & H3).
  pose proof Hd as [I1 I2 I3 _ I5]. apply placed_app in Hp as (b1 & Hp & Hrest).
  destruct (restore_all text selector_ok d.(gpr) (d.(gpr) RSP) u b1 Hp Hst Hr) as (v & R & Hpc & V1 & V2 & V3 & V4).
  { destruct code; lia. }
  assert (framed s limit v.(bytes)) as Hfr.
  { apply (framed_ext s limit d.(bytes)); [lia| |done]. intros a Ha. rewrite V4. apply Hb. destruct code; lia. }
  assert (kept s v) as Hkv by (transitivity d; [done|transitivity u; [done|by apply system_kept]]).
  rewrite <-Hpc in Hrest. destruct code as [e|]; subst rest.
  - next_instr Hrest Ht Hn. next_instr Hrest Ht2 Hn2. eassert (reaches v _) as R2 by (by eapply reaches_exec).
    cbn [exec] in R2. match type of R2 with Asm.reaches _ _ v ?w => set (x := w) in R2 end.
    destruct (iret_resumes text selector_ok s x n0 limit Hs Hret H3 Ht2) as (w & R3 & Hw & Eb).
    + intros r Hne. unfold x. cbn [gpr with_flags]. rewrite with_gpr_ne by done. cbn [gpr with_pc]. by rewrite V1, I1.
    + unfold x. cbn [gpr with_flags]. rewrite with_gpr_eq. cbn [gpr with_pc]. rewrite V2, I2, u64_id by (unfold in_u64; lia). lia.
    + by destruct Hkv.
    + exact Hfr.
    + exists w. split_and!; [by transitivity v; [|transitivity x]|done|by rewrite Eb].
  - next_instr Hrest Ht Hn.
    destruct (iret_resumes text selector_ok s v n limit Hs Hret H3 Ht) as (w & R3 & Hw & Eb); [|lia|done|done|].
    + intros r Hne. by rewrite V1, I1.
    + exists w. split_and!; [by transitivity v|done|congruence].
Qed.

(** ** Exceptions *)

(** The handler of an exception with or without an error code. *)
Definition fault_handler_of (code : option Z) (f : Z) : list instr :=
  match code with Some _ => fault_handler_code f | None => fault_handler f end.

Lemma fault_enters b f code s d : core_ok s -> 256 <= s.(gpr) RSP -> interrupted code s d ->
  placed d.(pc) (fault_handler_of code f) b ->
  exists next t, reaches d t /\ t.(pc) = f /\ saved_and_called next d t /\
    placed next (RESTORE_REGISTERS ++ match code with Some _ => [ADDI RSP 8; IRETQ] | None => [IRETQ] end) b.
Proof.
  intros Hs H256 Hd Hp. destruct (frame_place s Hs H256) as (_ & H1 & H2 & _).
  destruct (save_and_call text selector_ok d f (RESTORE_REGISTERS ++ match code with Some _ => [ADDI RSP 8; IRETQ] | None => [IRETQ] end) b)
    as (next & t & R & Hpc & Sc & Hrest).
  - by destruct code.
  - by eapply interrupted_gpr.
  - rewrite (it_rsp _ _ _ Hd). destruct code; lia.
  - by exists next, t.
Qed.

(** The spurious interrupt is transparent too. *)
Lemma spurious_resumes b s d limit : core_ok s -> returnable selector_ok s -> 256 <= s.(gpr) RSP -> s.(gpr) RSP <= limit ->
  interrupted None s d -> placed d.(pc) spurious_int_handler b ->
  exists v, reaches d v /\ resumed s v /\ forall x, s.(gpr) RSP <= x < limit -> v.(bytes) !!! x = s.(bytes) !!! x.
Proof.
  intros Hs Hret H256 Hl Hd Hp. destruct (frame_place s Hs H256) as (_ & H1 & H2 & _).
  pose proof (it_rsp _ _ _ Hd) as Hdr. rewrite Z.sub_0_r in Hdr.
  apply placed_app in Hp as (b1 & Hsave & Hp).
  destruct (save_all text selector_ok d b1 Hsave (interrupted_gpr None s d Hs H256 Hd) ltac:(lia)) as (u & R1 & Hpc & Sv).
  pose proof (sv_rsp _ _ _ Sv) as Hr. change (Z.of_nat (length saved_regs)) with 15 in Hr. rewrite <-Hpc in Hp.
  destruct (restore_and_return None s d u [IRETQ] b limit Hs H256 Hl Hret Hd eq_refl Hp) as (v & R2 & Hv & Eb).
  - lia.
  - apply system_kept, (sv_system _ _ _ Sv).
  - exact (saved_stored _ _ Sv).
  - intros a Ha. apply (sv_out _ _ _ Sv). lia.
  - exists v. split_and!; [by transitivity u|done|]. intros x Hx. rewrite Eb, (sv_out _ _ _ Sv) by lia.
    apply (fr_out _ limit _ (it_frame _ _ _ Hd limit)). lia.
Qed.

(** ** The clock *)

(** The stack is aligned around the call; here it is aligned already. *)
Lemma aligned_call s1 c rest b : placed s1.(pc) ([MOV RBX RSP; ANDI RSP (-16); CALL c] ++ rest) b ->
  in_u64 (s1.(gpr) RSP) -> 8 <= s1.(gpr) RSP -> s1.(gpr) RSP mod 16 = 0 ->
  exists next t, reaches s1 t /\ t.(pc) = c /\ placed next rest b /\ kept s1 t /\
    (forall k, 0 <= k -> Z.testbit STATUS k = false -> Z.testbit t.(flags) k = Z.testbit s1.(flags) k) /\
    t.(gpr) RBX = s1.(gpr) RSP /\ t.(gpr) RSP = s1.(gpr) RSP - 8 /\ rd 8 t.(bytes) (t.(gpr) RSP) = next /\
    forall y, s1.(gpr) RSP <= y -> t.(bytes) !!! y = s1.(bytes) !!! y.
Proof.
  intros Hp Hu H8 Hal. cbn [app] in Hp. next_instr Hp I1 U1. next_instr Hp I2 U2. next_instr Hp I3 U3.
  set (x := with_gpr RBX (s1.(gpr) RSP) (with_pc n s1)).
  assert (reaches s1 x) as R3 by (by eapply reaches_exec).
  assert (x.(gpr) RSP = s1.(gpr) RSP) as Hx by (by apply (with_gpr_ne RBX RSP (gpr s1 RSP) (with_pc n s1))).
  assert (x.(gpr) RBX = s1.(gpr) RSP) as Hxb by apply (with_gpr_eq RBX).
  assert (x.(bytes) = s1.(bytes) /\ x.(flags) = s1.(flags) /\ x.(pc) = n /\ kept s1 x) as (Hxm & Hxf & Hxp & Hxk) by done.
  clearbody x. rewrite <-Hxp in I2.
  set (s2 := with_flags (set_status (status false false false (s1.(gpr) RSP)) x.(flags))
    (with_gpr RSP (s1.(gpr) RSP) (with_pc n0 x))).
  assert (reaches x s2) as R4.
  { eapply reaches_exec; [exact I2|]. unfold exec. rewrite Hx, (align_mask (s1.(gpr) RSP)) by done.
    replace (s1.(gpr) RSP / 16 * 16) with (s1.(gpr) RSP) by (Z.div_mod_to_equations; lia). done. }
  assert (s2.(gpr) RSP = s1.(gpr) RSP) as Hs2 by apply (with_gpr_eq RSP).
  assert (s2.(gpr) RBX = s1.(gpr) RSP) as Hb2 by (rewrite <-Hxb; by apply (with_gpr_ne RSP RBX (gpr s1 RSP) (with_pc n0 x))).
  assert (s2.(bytes) = x.(bytes) /\ s2.(pc) = n0 /\ kept x s2) as (Hm2 & Hp2 & Hk2) by done.
  assert (forall k, 0 <= k -> Z.testbit STATUS k = false -> Z.testbit s2.(flags) k = Z.testbit x.(flags) k) as Hfl.
  { intros k Hk0 Hk. by apply set_status_bit. }
  clearbody s2. rewrite <-Hp2 in I3.
  destruct (call_step text selector_ok s2 c n1 I3 U3) as (t & R5 & Hpc & [E1 E2 E3 E4 E5]); [by rewrite Hs2|lia|].
  exists n1, t. split_and!; [|done|done| | | |lia|done|].
  - by transitivity x; [|transitivity s2].
  - transitivity x; [done|]. transitivity s2; [done|]. by apply system_kept.
  - intros k Hk0 Hk. by rewrite (ss_flags _ _ E1), Hfl, Hxf.
  - by rewrite E2, Hb2.
  - intros y Hy. rewrite E5 by lia. congruence.
Qed.

Lemma tick_enters b c s d : core_ok s -> 256 <= s.(gpr) RSP -> interrupted None s d ->
  placed d.(pc) (tick_interrupt c) b ->
  exists next t, reaches d t /\ t.(pc) = c /\ conforming t /\
    Z.testbit t.(flags) IF = false /\ t.(gpr) RBX = d.(gpr) RSP - 120 /\ t.(gpr) RSP = d.(gpr) RSP - 128 /\
    kept d t /\ rd 8 t.(bytes) (t.(gpr) RSP) = next /\ stored d.(gpr) (d.(gpr) RSP) t.(bytes) /\
    (forall x, d.(gpr) RSP <= x -> t.(bytes) !!! x = d.(bytes) !!! x) /\
    placed next ([MOV RSP RBX] ++ RESTORE_REGISTERS ++ [IRETQ]) b.
Proof.
  intros Hs H256 Hd Hp.
  destruct (frame_place s Hs H256) as (Hal & H1 & H2 & _).
  pose proof (it_rsp _ _ _ Hd) as Hdr. rewrite Z.sub_0_r in Hdr. pose proof (interrupted_gpr None s d Hs H256 Hd) as Hug.
  unfold tick_interrupt in Hp. next_instr Hp I0 U0. cbn [app] in Hp.
  set (d1 := with_flags (Z.clearbit d.(flags) DF) (with_pc n d)).
  assert (reaches d d1) as R1 by (by eapply reaches_exec).
  assert (d1.(gpr) = d.(gpr) /\ d1.(bytes) = d.(bytes) /\ d1.(pc) = n /\ kept d d1 /\ d1.(flags) = Z.clearbit d.(flags) DF)
    as (Eg & Em & Ep & Ek & Ef) by done.
  clearbody d1. apply (placed_app text SAVE_REGISTERS) in Hp as (b1 & Hsave & Hp). rewrite <-Ep in Hsave.
  destruct (save_all text selector_ok d1 b1 Hsave) as (s1 & R2 & Hpc1 & Sv); [by rewrite Eg|rewrite Eg; lia|].
  pose proof (sv_rsp _ _ _ Sv) as Hr1. rewrite Eg in Hr1. change (Z.of_nat (length saved_regs)) with 15 in Hr1.
  rewrite <-Hpc1 in Hp.
  destruct (aligned_call s1 c ([MOV RSP RBX] ++ RESTORE_REGISTERS ++ [IRETQ]) b Hp)
    as (next & t & R3 & Hpc & Hrest & Hk & Hfl & Hbx & Hsp & Hret & Hout); [unfold in_u64; lia|lia|Z.div_mod_to_equations; lia|].
  rewrite (ss_flags _ _ (sv_system _ _ _ Sv)), Ef in Hfl.
  exists next, t. split_and!; [|done|split| |lia|lia| |done| | |exact Hrest].
  - by transitivity d1; [|transitivity s1].
  - rewrite Hsp, Hr1, Hdr. Z.div_mod_to_equations. lia.
  - rewrite Hfl by done. apply Z.clearbit_eq.
  - rewrite Hfl by done. rewrite Z.clearbit_neq by done. apply (it_masked _ _ _ Hd).
  - transitivity d1; [done|]. transitivity s1; [|done]. apply system_kept, (sv_system _ _ _ Sv).
  - rewrite <-Eg. apply (stored_ext _ _ s1.(bytes)); [|exact (saved_stored _ _ Sv)]. intros y Hy.
    rewrite Eg in Hy. apply Hout. lia.
  - intros y Hy. rewrite Hout by lia. rewrite <-Em. apply (sv_out _ _ _ Sv). right. by rewrite Eg.
Qed.
End routines.

(** ** The theorems *)

(** Types.  Whatever code is placed in memory, if it leads to 64-bit
    addresses and its C functions keep states well formed, then every state a
    run reaches from a well-formed one is well formed: registers, program
    counter and bases are 64-bit words, selectors have 16 bits, memory holds
    bytes. *)
Theorem run_well_formed text selector_ok s s' :
  text_ok text -> core_ok s -> reaches text selector_ok s s' -> core_ok s'.
Proof.
  intros Ht Hs [n Hn]. revert s Hs Hn. induction n as [|n IH]; intros s Hs Hn; cbn [run_steps] in Hn.
  - by injection Hn as <-.
  - destruct (step text selector_ok s) as [s1|] eqn:E; [|done]. cbn [mbind option_bind] in Hn.
    apply (IH s1); [|done]. by eapply step_ok.
Qed.

(** C17. The clock interrupt is transparent.  When it arrives anywhere in kernel
    code, with 256 bytes of stack below, [tick_interrupt] calls
    [clock_interrupt] by the calling convention (stack aligned, direction flag
    clear) with interrupts masked; and when that function keeps to the
    convention, the interrupted code goes on with every register, flag and
    selector as it was, and memory at and above its stack pointer up to [limit]
    unchanged.  ([limit] bounds the memory the convention protects.) *)
Theorem tick_interrupt_transparent text selector_ok a b c f cs limit s :
  core_ok s -> returnable selector_ok s -> 256 <= s.(gpr) RSP -> s.(gpr) RSP <= limit ->
  placed text a (tick_interrupt c) b -> text c = Some (Native f) -> keeps_abi limit f ->
  exists t t' v, reaches text selector_ok (deliver a cs None s) t /\ t.(pc) = c /\ conforming t /\
    Z.testbit t.(flags) IF = false /\ f t = Some t' /\ reaches text selector_ok (deliver a cs None s) v /\
    resumed s v /\ v.(bytes) = t'.(bytes) /\
    forall x, s.(gpr) RSP <= x < limit -> v.(bytes) !!! x = s.(bytes) !!! x.
Proof.
  intros Hs Hret H256 Hl Hp Hc Habi. destruct (frame_place s Hs H256) as (_ & H1 & H2 & _).
  pose proof (deliver_interrupted a cs None s Hs ltac:(lia) ltac:(done)) as Hd.
  rewrite <-(deliver_pc a cs None s) in Hp. generalize dependent (deliver a cs None s). intros d Hp Hd.
  destruct (tick_enters text selector_ok b c s d Hs H256 Hd Hp) as (next & t & R & Hpc & Hconf & Hif & Hbx & Hsp & Hk & Hrt & Hst & Hout & Hrest).
  pose proof (it_rsp _ _ _ Hd) as Hdr. rewrite Z.sub_0_r in Hdr.
  destruct (Habi t Hconf) as (t' & Ef & [C1 C2 C3 C4 C5]).
  next_instr Hrest I1 U1. assert (t'.(pc) = next) as Hpc' by congruence. rewrite <-Hpc' in I1.
  set (u := with_gpr RSP (t'.(gpr) RBX) (with_pc n t')).
  assert (u.(gpr) RSP = d.(gpr) RSP - 120) as Hur.
  { unfold u. rewrite with_gpr_eq, C3 by (apply elem_of_cons; by left). lia. }
  assert (forall x, d.(gpr) RSP - 120 <= x < limit -> u.(bytes) !!! x = t.(bytes) !!! x) as Hub by (intros x Hx; apply C5; lia).
  destruct (restore_and_return text selector_ok None s d u [IRETQ] b limit) as (v & R2 & Hv & Eb); try done.
  - transitivity t; [done|]. by destruct C4.
  - apply (stored_ext _ _ t.(bytes)); [|done]. intros x Hx. apply Hub. lia.
  - intros x Hx. rewrite Hub by lia. apply Hout. lia.
  - exists t, t', v. split_and!; try done.
    + transitivity t; [done|]. transitivity t'; [eapply reaches_native; [by rewrite Hpc|done]|].
      transitivity u; [by eapply reaches_exec|done].
    + intros x Hx. rewrite Eb, Hub, Hout by lia. apply (fr_out _ limit _ (it_frame _ _ _ Hd limit)). lia.
Qed.

(** C29. The exception handlers.  Each saves the registers and calls its C
    function; should that return, the faulting instruction is executed again
    with every register as it was.  But the stack is aligned for the call only
    when the exception has no error code: #DF, #GP and #PF enter their C
    functions with a stack pointer that the calling convention rules out. *)
Theorem fault_handlers text selector_ok a b c f cs code limit s :
  core_ok s -> returnable selector_ok s -> 256 <= s.(gpr) RSP -> s.(gpr) RSP <= limit ->
  (forall e, code = Some e -> in_u64 e) ->
  placed text a (fault_handler_of code c) b -> text c = Some (Native f) ->
  exists t, reaches text selector_ok (deliver a cs code s) t /\ t.(pc) = c /\
    (forall r, r <> RSP -> t.(gpr) r = s.(gpr) r) /\
    t.(gpr) RSP mod 16 = match code with Some _ => 0 | None => 8 end /\
    forall t', f t = Some t' -> c_returns limit t t' ->
      exists v, reaches text selector_ok t v /\ resumed s v /\
        forall x, s.(gpr) RSP <= x < limit -> v.(bytes) !!! x = s.(bytes) !!! x.
Proof.
  intros Hs Hret H256 Hl He Hp Hc. destruct (frame_place s Hs H256) as (Hal & H1 & H2 & _).
  pose proof (deliver_interrupted a cs code s Hs ltac:(lia) He) as Hd.
  rewrite <-(deliver_pc a cs code s) in Hp. generalize dependent (deliver a cs code s). intros d Hp Hd.
  destruct (fault_enters text selector_ok b c code s d Hs H256 Hd Hp) as (next & t & R & Hpc & Sc & Hrest).
  pose proof (it_rsp _ _ _ Hd) as Hdr. pose proof Sc as [S1 S2 S3 S4 S5 S6 S7].
  exists t. split_and!; [done|done| | |].
  - intros r Hne. by rewrite S1, (it_gpr _ _ _ Hd).
  - rewrite S2, Hdr. destruct code; Z.div_mod_to_equations; lia.
  - intros t' Ef Hret'. destruct (after_call limit next d t t' Sc Hret') as (P1 & P2 & P3 & P4 & P5); [destruct code; lia|].
    rewrite <-P1 in Hrest.
    destruct (restore_and_return text selector_ok code s d t' _ b limit Hs H256 Hl Hret Hd eq_refl Hrest P2 P3 P4 P5)
      as (v & R2 & Hv & Eb).
    exists v. split_and!; [|done|].
    + transitivity t'; [eapply reaches_native; [by rewrite Hpc|done]|done].
    + intros x Hx. rewrite Eb, P5 by (destruct code; lia). apply (fr_out _ limit _ (it_frame _ _ _ Hd limit)). lia.
Qed.

(** ** The theorems on a concrete machine *)

Lemma demo_text_ok l : Forall target_ok l -> Z.of_nat (length l) <= 0x1000 -> text_ok (AsmDemo.text l (fun _ => None)).
Proof.
  intros Hl Hn a c. unfold AsmDemo.text, AsmDemo.code_at. destruct (a =? 0x500); [by intros [= <-]|].
  destruct (Z.leb_spec 0x1000 a); [|done]. destruct (Z.ltb_spec a (0x1000 + Z.of_nat (length l))); [|done]. cbn [andb].
  destruct (l !! _) as [i|] eqn:Hi; [|done]. intros [= <-]. split; [unfold in_u64; lia|].
  by eapply Forall_lookup_1.
Qed.

Lemma run_well_formed_witness :
  exists s', reaches (AsmDemo.text get_ds (fun _ => None)) (fun _ _ => true) AsmDemo.called s' /\ core_ok s'.
Proof.
  assert (reaches (AsmDemo.text get_ds (fun _ => None)) (fun _ _ => true) AsmDemo.called
    (match run_steps (AsmDemo.text get_ds (fun _ => None)) (fun _ _ => true) 2 AsmDemo.called with
     | Some s => s | None => AsmDemo.called end)) as Hr by (exists 2%nat; reflexivity).
  eexists. split; [exact Hr|]. apply (run_well_formed _ _ AsmDemo.called _ (demo_text_ok get_ds ltac:(by repeat constructor) ltac:(done))
    demo_called_ok Hr).
Defined.

Lemma tick_interrupt_transparent_witness :
  exists v, reaches (AsmDemo.text (tick_interrupt 0x500) AsmDemo.returns) AsmDemo.selector_ok
      (deliver AsmDemo.code_at 8 None AsmDemo.kernel) v /\ resumed AsmDemo.kernel v.
Proof.
  destruct (tick_interrupt_transparent (AsmDemo.text (tick_interrupt 0x500) AsmDemo.returns) AsmDemo.selector_ok
    AsmDemo.code_at (AsmDemo.code_at + Z.of_nat (length (tick_interrupt 0x500))) 0x500 AsmDemo.returns 8 0x9000 AsmDemo.kernel
    demo_kernel_ok (conj eq_refl (conj eq_refl eq_refl)) ltac:(cbn; lia) ltac:(cbn; lia)
    (demo_placed (tick_interrupt 0x500) AsmDemo.returns ltac:(cbn; lia)) eq_refl (fun t _ => demo_returns 0x9000 t))
    as (t & t' & v & _ & _ & _ & _ & _ & R & Hv & _).
  exists v. split; [exact R|exact Hv].
Defined.

(** A page fault with error code 2, and a C function that returns. *)
Lemma fault_handlers_witness :
  exists t, reaches (AsmDemo.text (fault_handler_code 0x500) AsmDemo.returns) AsmDemo.selector_ok
      (deliver AsmDemo.code_at 8 (Some 2) AsmDemo.kernel) t /\ t.(pc) = 0x500 /\ t.(gpr) RSP mod 16 = 0.
Proof.
  destruct (fault_handlers (AsmDemo.text (fault_handler_code 0x500) AsmDemo.returns) AsmDemo.selector_ok
    AsmDemo.code_at (AsmDemo.code_at + Z.of_nat (length (fault_handler_code 0x500))) 0x500 AsmDemo.returns 8 (Some 2) 0x9000 AsmDemo.kernel
    demo_kernel_ok (conj eq_refl (conj eq_refl eq_refl)) ltac:(cbn; lia) ltac:(cbn; lia) ltac:(by intros e [= <-])
    (demo_placed (fault_handler_code 0x500) AsmDemo.returns ltac:(cbn; lia)) eq_refl)
    as (t & R & Hpc & _ & Hal & _).
  exists t. split; [exact R|split; [exact Hpc|exact Hal]].
Defined.
