(* ===== verification/AsmRoutines.v ===== *)
(** * System calls, contexts, descriptor tables and the entry of the kernel

    The assembly routines that are not interrupt handlers. *)

From stdpp Require Import functions.
From S2P Require Import Prelude Thread Asm AsmFacts AsmTheorems.

Section routines.
Context (text : Z -> option cell) (selector_ok : sreg -> Z -> bool).
Local Notation reaches := (reaches text selector_ok).
Local Notation placed := (placed text).

(** ** System calls *)

(** [swapgs], and the change to the kernel's stack: the per-CPU block at the
    kernel's GS base holds its address, and gets the user's stack pointer. *)
Record on_kernel_stack (s d : core) : Prop := {
  ok_gpr : forall r, r <> RSP -> d.(gpr) r = s.(gpr) r;
  ok_rsp : d.(gpr) RSP = rd 8 s.(bytes) s.(kernel_gs_base);
  ok_gs : d.(gs_base) = s.(kernel_gs_base) /\ d.(kernel_gs_base) = s.(gs_base);
  ok_seg : d.(seg) = s.(seg);
  ok_star : d.(star_msr) = s.(star_msr);
  ok_user : rd 8 d.(bytes) (s.(kernel_gs_base) + 8) = s.(gpr) RSP;
}.

Lemma switch_stacks s rest b : core_ok s -> placed s.(pc) ([SWAPGS; TOGS 8 RSP; FROMGS RSP 0] ++ rest) b ->
  s.(kernel_gs_base) + 16 <= 2 ^ 64 ->
  exists d, reaches s d /\ on_kernel_stack s d /\ placed d.(pc) rest b.
Proof.
  intros Hs Hp Hg. destruct (co_gs s Hs) as [_ Hk]. unfold in_u64 in Hk. cbn [app] in Hp.
  next_instr Hp I1 U1. next_instr Hp I2 U2. next_instr Hp I3 U3.
  set (x := with_gs s.(kernel_gs_base) s.(gs_base) (with_pc n s)).
  assert (reaches s x) as R1 by (by eapply reaches_exec).
  set (m := wr 8 s.(bytes) (s.(kernel_gs_base) + 8) (s.(gpr) RSP)).
  assert (reaches x (with_bytes m (with_pc n0 x))) as R2.
  { eapply reaches_exec; [exact I2|]. cbn [exec gs_base with_pc x with_gs bytes gpr].
    by rewrite u64_id by (unfold in_u64; lia). }
  set (y := with_bytes m (with_pc n0 x)) in *.
  assert (reaches y (with_gpr RSP (rd 8 s.(bytes) s.(kernel_gs_base)) (with_pc n1 y))) as R3.
  { eapply reaches_exec; [exact I3|]. unfold exec. cbn [gs_base with_pc y x with_gs with_bytes bytes gpr].
    rewrite Z.add_0_r, u64_id by (unfold in_u64; lia). unfold m. by rewrite rd_wr_out by lia. }
  eexists. split; [by transitivity x; [|transitivity y]|]. split; [|exact Hp]. constructor.
  - intros r Hr. by apply (with_gpr_ne RSP r _ (with_pc n1 y)).
  - apply (with_gpr_eq RSP).
  - done.
  - done.
  - done.
  - apply rd_wr_u64, (co_gpr s Hs).
Qed.

(** ** Contexts *)

(** The registers of a context, and the stack pointer above it. *)
Definition context_regs (c : context_t) (sp : Z) (r : reg) : Z :=
  match r with
  | RAX => c.(rax) | RBX => c.(rbx) | RCX => c.(rcx) | RDX => c.(rdx) | RSI => c.(rsi) | RDI => c.(rdi)
  | RBP => c.(rbp) | RSP => sp | R8 => c.(r8) | R9 => c.(r9) | R10 => c.(r10) | R11 => c.(r11)
  | R12 => c.(r12) | R13 => c.(r13) | R14 => c.(r14) | R15 => c.(r15)
  end.

(** Bytes and words of the same memory, for the 20 words from [p] on. *)
Definition same_context (m : gmap Z Z) (words : gmap Z Z) (p : Z) : Prop :=
  forall i, 0 <= i < 20 -> rd 8 m (p + 8 * i) = words !!! (p + 8 * i).

Lemma context_stored m words p c sp ss : same_context m words p -> load_context words p = (c, sp, ss) ->
  stored (context_regs c sp) (p + 120) m.
Proof.
  intros Hm [= <- <- <-] i r Hi.
  assert (i < 15)%nat as Hlt by (apply lookup_lt_Some in Hi; exact Hi).
  replace (p + 120 - 8 * Z.of_nat (S i)) with (p + 8 * (14 - Z.of_nat i)) by lia. rewrite Hm by lia.
  do 15 (destruct i as [|i]; [injection Hi as <-; cbn [context_regs rax rbx rcx rdx rsi rdi rbp r8 r9 r10 r11 r12 r13 r14 r15]; f_equal; lia|]).
  lia.
Qed.

(** What [iretq] does with the five words on the stack. *)
Lemma iret_step u next : text u.(pc) = Some (Asm IRETQ next) -> 0 <= u.(gpr) RSP -> u.(gpr) RSP + 40 <= 2 ^ 64 ->
  let w i := rd 8 u.(bytes) (u.(gpr) RSP + 8 * i) in
  if selector_ok CS (u16 (w 1)) && selector_ok SS (u16 (w 4)) then
    exists v, reaches u v /\ v.(pc) = w 0 /\ v.(seg) CS = u16 (w 1) /\ v.(flags) = iret_flags (w 2) /\
      v.(gpr) RSP = w 3 /\ v.(seg) SS = u16 (w 4) /\ (forall r, r <> RSP -> v.(gpr) r = u.(gpr) r) /\
      (forall g, g <> CS -> g <> SS -> v.(seg) g = u.(seg) g) /\ v.(bytes) = u.(bytes)
  else step text selector_ok u = None.
Proof.
  intros Ht H0 H40 w.
  assert (forall i, 0 <= i < 5 -> top i (with_pc next u) = w i) as Htop.
  { intros i Hi. unfold top. cbn [gpr bytes with_pc]. rewrite u64_id by (unfold in_u64; lia). done. }
  assert (step text selector_ok u = (s' ← load_seg selector_ok CS (w 1) (with_pc next u);
    load_seg selector_ok SS (w 4) (with_flags (iret_flags (w 2)) (with_pc (w 0) (with_gpr RSP (w 3) s'))))) as E.
  { unfold step. rewrite Ht. unfold exec. by rewrite !Htop by lia. }
  clearbody w. unfold load_seg in E. destruct (selector_ok CS (u16 (w 1))); cbn [andb mbind option_bind] in *; [|done].
  destruct (selector_ok SS (u16 (w 4))); [|done].
  eexists. split; [by apply reaches_step|].
  cbn [pc gpr flags seg bytes with_seg with_flags with_pc with_gpr]. split_and!; intros; try done;
    by rewrite ?fn_lookup_insert, ?fn_lookup_insert_ne, ?fn_lookup_insert by congruence.
Qed.

(** Back to the user: the stack pointer saved in the per-CPU block, [swapgs], [sysretq]. *)
Lemma return_to_user u b sp : placed u.(pc) [FROMGS RSP 8; SWAPGS; SYSRETQ] b ->
  0 <= u.(gs_base) -> u.(gs_base) + 16 <= 2 ^ 64 -> rd 8 u.(bytes) (u.(gs_base) + 8) = sp ->
  exists v, reaches u v /\ v.(pc) = u.(gpr) RCX /\ v.(flags) = sysret_flags (u.(gpr) R11) /\
    v.(gpr) RSP = sp /\ (forall r, r <> RSP -> v.(gpr) r = u.(gpr) r) /\
    v.(gs_base) = u.(kernel_gs_base) /\ v.(kernel_gs_base) = u.(gs_base) /\
    v.(seg) CS = Z.lor (u16 (Z.shiftr u.(star_msr) 48 + 16)) 3 /\
    v.(seg) SS = Z.lor (u16 (Z.shiftr u.(star_msr) 48 + 8)) 3 /\ v.(bytes) = u.(bytes).
Proof.
  intros Hp H0 Hg Hsp. next_instr Hp I1 U1. next_instr Hp I2 U2. next_instr Hp I3 U3.
  set (x := with_gpr RSP sp (with_pc n u)).
  assert (reaches u x) as R1.
  { eapply reaches_exec; [exact I1|]. unfold exec. cbn [gs_base with_pc bytes].
    by rewrite u64_id, Hsp by (unfold in_u64; lia). }
  assert (x.(gpr) RSP = sp) as Hx1 by apply (with_gpr_eq RSP).
  assert (forall r, r <> RSP -> x.(gpr) r = u.(gpr) r) as Hx2 by (intros r Hr; by apply (with_gpr_ne RSP r sp (with_pc n u))).
  assert (x.(pc) = n /\ x.(gs_base) = u.(gs_base) /\ x.(kernel_gs_base) = u.(kernel_gs_base) /\
    x.(star_msr) = u.(star_msr) /\ x.(bytes) = u.(bytes)) as (X1 & X2 & X3 & X4 & X5) by done.
  clearbody x. rewrite <-X1 in I2.
  set (y := with_gs x.(kernel_gs_base) x.(gs_base) (with_pc n0 x)).
  assert (reaches x y) as R2 by (by eapply reaches_exec).
  eassert (reaches y _) as R3 by (eapply reaches_exec; [exact I3|reflexivity]).
  eexists. split; [by transitivity x; [|transitivity y]|].
  cbn [pc gpr flags seg bytes gs_base kernel_gs_base star_msr with_seg with_flags with_pc with_gs y].
  rewrite !Hx2 by done. rewrite X2, X3, X4, X5, Hx1. split_and!; intros; try done;
    by rewrite ?fn_lookup_insert, ?fn_lookup_insert_ne, ?fn_lookup_insert, ?Hx2 by congruence.
Qed.

(** ** Descriptor tables *)

Lemma ret_step u next : text u.(pc) = Some (Asm RET next) -> 0 <= u.(gpr) RSP -> u.(gpr) RSP + 8 < 2 ^ 64 ->
  exists v, reaches u v /\ v.(pc) = rd 8 u.(bytes) (u.(gpr) RSP) /\ v.(gpr) RSP = u.(gpr) RSP + 8 /\
    (forall r, r <> RSP -> v.(gpr) r = u.(gpr) r) /\ same_system u v /\ v.(bytes) = u.(bytes).
Proof.
  intros Ht H0 H8. eexists. split; [by eapply reaches_exec|].
  unfold top, drop_words. cbn [gpr with_pc bytes].
  rewrite Z.mul_0_r, Z.add_0_r, Z.mul_1_r, !u64_id by (unfold in_u64; lia).
  split_and!; [done|apply (with_gpr_eq RSP)| |done|done].
  intros r Hr. by apply (with_gpr_ne RSP r _ (with_pc next u)).
Qed.

(** The data segments are the kernel's. *)
Definition kernel_segments (v : core) : Prop := forall g, g <> CS -> v.(seg) g = 16.

Lemma reload_cs_run u b : placed u.(pc) reload_cs b -> core_ok u ->
  (forall g, selector_ok g 16 = true) -> u.(gpr) RSP + 8 < 2 ^ 64 ->
  exists v, reaches u v /\ v.(pc) = rd 8 u.(bytes) (u.(gpr) RSP) /\ v.(gpr) RSP = u.(gpr) RSP + 8 /\
    (forall r, r <> RSP -> r <> RAX -> v.(gpr) r = u.(gpr) r) /\ kernel_segments v /\ v.(seg) CS = u.(seg) CS /\
    v.(gdtr_) = u.(gdtr_) /\ v.(bytes) = u.(bytes) /\ v.(flags) = u.(flags).
Proof.
  intros Hp Hu Hsel H8. pose proof (co_gpr u Hu RAX) as Ha. pose proof (co_gpr u Hu RSP) as Hr. unfold in_u64 in Ha, Hr.
  next_instr Hp I0 U0. next_instr Hp I1 U1. next_instr Hp I2 U2. next_instr Hp I3 U3. next_instr Hp I4 U4.
  next_instr Hp I5 U5. next_instr Hp I6 U6.
  set (ax := u.(gpr) RAX - u.(gpr) RAX mod 65536 + 16).
  assert (u16 ax = 16) as Hax by (unfold ax, u16; Z.div_mod_to_equations; lia).
  set (x := with_gpr RAX ax (with_pc n u)).
  assert (reaches u x) as R0 by (by eapply reaches_exec).
  assert (x.(gpr) RAX = ax) as Hx by apply (with_gpr_eq RAX).
  assert (forall r, r <> RAX -> x.(gpr) r = u.(gpr) r) as Hxr by (intros r Hne; by apply (with_gpr_ne RAX r ax (with_pc n u))).
  assert (x.(pc) = n /\ x.(seg) = u.(seg) /\ x.(gdtr_) = u.(gdtr_) /\ x.(bytes) = u.(bytes) /\ x.(flags) = u.(flags)) as (X1 & X2 & X3 & X4 & X5) by done.
  clearbody x.
  assert (forall (y : core) g next, text y.(pc) = Some (Asm (TOSEG g RAX) next) -> y.(gpr) RAX = ax ->
    reaches y (with_seg g 16 (with_pc next y))) as Hseg.
  { intros y g next Ht Hy. eapply reaches_exec; [exact Ht|]. unfold exec, load_seg. by rewrite Hy, Hax, Hsel. }
  rewrite <-X1 in I1.
  pose proof (Hseg x DS n0 I1 Hx) as R1. set (x1 := with_seg _ _ _) in R1.
  pose proof (Hseg x1 ES n1 I2 Hx) as R2. set (x2 := with_seg _ _ _) in R2.
  pose proof (Hseg x2 FS n2 I3 Hx) as R3. set (x3 := with_seg _ _ _) in R3.
  pose proof (Hseg x3 GS n3 I4 Hx) as R4. set (x4 := with_seg _ _ _) in R4.
  pose proof (Hseg x4 SS n4 I5 Hx) as R5. set (x5 := with_seg _ _ _) in R5.
  assert (forall g, x5.(seg) g = if decide (g = CS) then u.(seg) CS else 16) as Hsegs.
  { intros g. rewrite <-X2. destruct g; reflexivity. }
  assert (x5.(gpr) = x.(gpr) /\ x5.(gdtr_) = x.(gdtr_) /\ x5.(bytes) = x.(bytes) /\ x5.(pc) = n4 /\ x5.(flags) = x.(flags)) as (Y1 & Y2 & Y3 & Y4 & Y5) by done.
  assert (reaches x x5) as Rx by (by transitivity x1; [|transitivity x2; [|transitivity x3; [|transitivity x4]]]).
  clearbody x5. rewrite <-Y4 in I6. pose proof (Hxr RSP ltac:(done)) as Hxs.
  destruct (ret_step x5 n5 I6) as (v & R6 & V1 & V2 & V3 & V4 & V5); [rewrite Y1, Hxs; lia..|].
  exists v. split_and!.
  - by transitivity x; [|transitivity x5].
  - by rewrite V1, Y1, Y3, X4, Hxs.
  - by rewrite V2, Y1, Hxs.
  - intros r H1 H2. by rewrite V3, Y1, Hxr.
  - intros g Hg. rewrite (ss_seg _ _ V4), Hsegs. by rewrite decide_False.
  - by rewrite (ss_seg _ _ V4), Hsegs.
  - by rewrite (ss_gdtr _ _ V4), Y2.
  - congruence.
  - rewrite (ss_flags _ _ V4). congruence.
Qed.

(** [lretq] to the label behind it loads the code segment. *)
Lemma reload_segments_run u rc b : placed u.(pc) (reload_segments rc) b -> core_ok u -> in_u64 rc ->
  selector_ok CS 8 = true -> 16 <= u.(gpr) RSP ->
  exists v, reaches u v /\ v.(pc) = rc /\ v.(seg) CS = 8 /\ v.(gpr) RSP = u.(gpr) RSP /\
    (forall r, r <> RSP -> r <> RAX -> v.(gpr) r = u.(gpr) r) /\ v.(gdtr_) = u.(gdtr_) /\ v.(flags) = u.(flags) /\
    forall x, u.(gpr) RSP <= x -> v.(bytes) !!! x = u.(bytes) !!! x.
Proof.
  intros Hp Hu Hrc Hsel H16. pose proof (co_gpr u Hu RSP) as Hr. unfold in_u64 in Hr.
  next_instr Hp I0 U0. next_instr Hp I1 U1. next_instr Hp I2 U2. next_instr Hp I3 U3.
  set (x := push 8 (with_pc n u)).
  assert (reaches u x) as R0 by (by eapply reaches_exec).
  assert (pushed [8] (with_pc n u) x) as [P1 P2 P3 P4 P5 P6].
  { apply (push_words_spec [8]); [by repeat constructor|exact Hr|cbn; lia]. }
  cbn [gpr with_pc pc bytes length] in *. clearbody x. rewrite <-P2 in I1.
  set (y := with_gpr RAX rc (with_pc n0 x)).
  assert (reaches x y) as R1.
  { eapply reaches_exec; [exact I1|]. unfold exec. by rewrite (u64_id rc). }
  assert (y.(gpr) RAX = rc) as Hya by apply (with_gpr_eq RAX).
  assert (forall r, r <> RAX -> y.(gpr) r = x.(gpr) r) as Hyr by (intros r Hne; by apply (with_gpr_ne RAX r rc (with_pc n0 x))).
  assert (y.(pc) = n0 /\ y.(bytes) = x.(bytes) /\ same_system x y) as (Y1 & Y2 & Y3) by done.
  clearbody y. rewrite <-Y1 in I2.
  set (z := push rc (with_pc n1 y)).
  assert (reaches y z) as R2 by (eapply reaches_exec; [exact I2|]; unfold exec; by rewrite Hya).
  assert (pushed [rc] (with_pc n1 y) z) as [Q1 Q2 Q3 Q4 Q5 Q6].
  { apply (push_words_spec [rc]); [by apply Forall_singleton| |]; cbn [gpr with_pc length]; rewrite Hyr by done; unfold in_u64; lia. }
  cbn [gpr with_pc pc bytes length] in *. rewrite (Hyr RSP) in * by done. clearbody z. rewrite <-Q2 in I3.
  pose proof (P6 0%nat 8 eq_refl) as W8. pose proof (Q6 0%nat rc eq_refl) as Wrc.
  assert (forall i, 0 <= i < 3 -> u64 (z.(gpr) RSP + 8 * i) = z.(gpr) RSP + 8 * i) as Hi
    by (intros i Hi; apply u64_id; unfold in_u64; lia).
  assert (top 0 (with_pc n2 z) = rc) as T0.
  { unfold top. cbn [gpr bytes with_pc]. rewrite Hi by lia. rewrite <-Wrc. f_equal. lia. }
  assert (top 1 (with_pc n2 z) = 8) as T1.
  { unfold top. cbn [gpr bytes with_pc]. rewrite Hi by lia. etransitivity; [|exact W8]. rewrite <-Y2.
    replace (z.(gpr) RSP + 8 * 1) with (u.(gpr) RSP - 8 * Z.of_nat 1) by lia. apply rd_ext. intros c Hc. apply Q5. lia. }
  set (v := with_seg CS 8 (with_pc rc (with_gpr RSP (z.(gpr) RSP + 16) (with_pc n2 z)))).
  exists v. assert (reaches z v) as R3.
  { eapply reaches_exec; [exact I3|]. unfold exec. rewrite T0, T1. unfold drop_words. cbn [gpr with_pc].
    rewrite (Hi 2) by lia. unfold load_seg. change (u16 8) with 8. by rewrite Hsel. }
  split_and!.
  - by transitivity x; [|transitivity y; [|transitivity z]].
  - done.
  - apply fn_lookup_insert.
  - cbn [v gpr with_seg with_pc]. rewrite with_gpr_eq. lia.
  - intros r H1 H2. cbn [v gpr with_seg with_pc]. rewrite with_gpr_ne by done. cbn [gpr with_pc].
    by rewrite Q3, Hyr, P3.
  - transitivity z.(gdtr_); [done|]. rewrite (ss_gdtr _ _ Q1). transitivity x.(gdtr_); [apply Y3|apply P1].
  - transitivity z.(flags); [done|]. rewrite (ss_flags _ _ Q1). transitivity x.(flags); [apply Y3|apply P1].
  - intros a Ha. change (v.(bytes)) with (z.(bytes)). rewrite Q5 by lia. rewrite Y2. apply P5. lia.
Qed.

(** The table register is loaded from a variable in memory. *)
Lemma store_and_load s g n1 n2 n3 : core_ok s ->
  text s.(pc) = Some (Asm (STORE 2 g RDI) n1) -> text n1 = Some (Asm (STORE 8 (g + 2) RSI) n2) ->
  text n2 = Some (Asm (LGDT g) n3) ->
  exists x, reaches s x /\ x.(pc) = n3 /\ x.(gdtr_) = (u16 (s.(gpr) RDI), s.(gpr) RSI) /\ x.(gpr) = s.(gpr) /\
    x.(flags) = s.(flags) /\ forall a, a < g \/ g + 10 <= a -> x.(bytes) !!! a = s.(bytes) !!! a.
Proof.
  intros Hs I0 I1 I2. pose proof (co_gpr s Hs RDI) as Hd. pose proof (co_gpr s Hs RSI) as Hi.
  set (m := wr 2 s.(bytes) g (s.(gpr) RDI)). set (m' := wr 8 m (g + 2) (s.(gpr) RSI)).
  set (x := with_bytes m (with_pc n1 s)). set (y := with_bytes m' (with_pc n2 x)).
  assert (rd 2 m' g = u16 (s.(gpr) RDI)) as E1.
  { unfold m'. rewrite rd_wr_out by lia. apply rd_wr. apply Hd. }
  assert (rd 8 m' (g + 2) = s.(gpr) RSI) as E2 by by apply rd_wr_u64.
  assert (reaches s x) as R0 by (by eapply reaches_exec).
  assert (reaches x y) as R1 by (by eapply reaches_exec).
  exists (with_gdtr (u16 (s.(gpr) RDI), s.(gpr) RSI) (with_pc n3 y)).
  split_and!; try done.
  - transitivity x; [done|]. transitivity y; [done|]. eapply reaches_exec; [exact I2|]. unfold exec.
    change (bytes (with_pc n3 y)) with m'. by rewrite E1, E2.
  - intros a Ha. change (m' !!! a = s.(bytes) !!! a). unfold m', m. by rewrite !wr_out by lia.
Qed.

(** [get_cs] and [get_ds] return the selectors. *)
Lemma get_segment_run s g b : core_ok s -> placed s.(pc) [ZERO32 RAX; FROMSEG RAX g; RET] b ->
  s.(gpr) RSP + 8 < 2 ^ 64 ->
  exists v, reaches s v /\ v.(pc) = rd 8 s.(bytes) (s.(gpr) RSP) /\ v.(gpr) RSP = s.(gpr) RSP + 8 /\
    v.(gpr) RAX = s.(seg) g /\ forall r, r <> RSP -> r <> RAX -> v.(gpr) r = s.(gpr) r.
Proof.
  intros Hs Hp H8. pose proof (co_gpr s Hs RSP) as Hr. unfold in_u64 in Hr.
  next_instr Hp I0 U0. next_instr Hp I1 U1. next_instr Hp I2 U2.
  eassert (reaches s _) as R0 by (eapply reaches_exec; [exact I0|reflexivity]).
  match type of R0 with Asm.reaches _ _ s ?y => set (x := y) in R0 end.
  assert (x.(gpr) RAX = 0) as Hx by apply (with_gpr_eq RAX).
  assert (forall r, r <> RAX -> x.(gpr) r = s.(gpr) r) as Hxr by (intros r Hne; by apply (with_gpr_ne RAX r 0 (with_pc n s))).
  assert (x.(pc) = n /\ x.(seg) = s.(seg) /\ x.(bytes) = s.(bytes)) as (X1 & X2 & X3) by done.
  clearbody x. rewrite <-X1 in I1.
  set (y := with_gpr RAX (s.(seg) g) (with_pc n0 x)).
  assert (reaches x y) as R1.
  { eapply reaches_exec; [exact I1|]. unfold exec. rewrite Hx. cbn [seg with_pc]. by rewrite X2. }
  assert (y.(gpr) RAX = s.(seg) g) as Hy by apply (with_gpr_eq RAX).
  assert (forall r, r <> RAX -> y.(gpr) r = x.(gpr) r) as Hyr
    by (intros r Hne; by apply (with_gpr_ne RAX r (s.(seg) g) (with_pc n0 x))).
  assert (y.(pc) = n0 /\ y.(bytes) = x.(bytes)) as (Y1 & Y2) by done.
  clearbody y. rewrite <-Y1 in I2. pose proof (Hyr RSP ltac:(done)) as Hys. rewrite (Hxr RSP) in Hys by done.
  destruct (ret_step y n1 I2) as (v & R2 & V1 & V2 & V3 & _ & _); [lia|lia|].
  exists v. split_and!.
  - by transitivity x; [|transitivity y].
  - by rewrite V1, Y2, X3, Hys.
  - lia.
  - by rewrite V3.
  - intros r H1 H2. by rewrite V3, Hyr, Hxr.
Qed.

(** [load_idt] makes the table at its arguments the current one. *)
Lemma load_idt_run s g b : core_ok s -> placed s.(pc) (load_idt g) b -> s.(gpr) RSP + 8 < 2 ^ 64 ->
  g + 10 <= s.(gpr) RSP \/ s.(gpr) RSP + 8 <= g ->
  exists v, reaches s v /\ v.(pc) = rd 8 s.(bytes) (s.(gpr) RSP) /\ v.(gpr) RSP = s.(gpr) RSP + 8 /\
    v.(idtr_) = (u16 (s.(gpr) RDI), s.(gpr) RSI) /\ forall r, r <> RSP -> v.(gpr) r = s.(gpr) r.
Proof.
  intros Hs Hp H8 Hdis. pose proof (co_gpr s Hs RSP) as Hr. pose proof (co_gpr s Hs RDI) as Hd. unfold in_u64 in Hr.
  next_instr Hp I0 U0. next_instr Hp I1 U1. next_instr Hp I2 U2. next_instr Hp I3 U3.
  set (m := wr 2 s.(bytes) g (s.(gpr) RDI)). set (m' := wr 8 m (g + 2) (s.(gpr) RSI)).
  set (x := with_bytes m (with_pc n s)). set (y := with_bytes m' (with_pc n0 x)).
  assert (rd 2 m' g = u16 (s.(gpr) RDI)) as E1 by (unfold m'; rewrite rd_wr_out by lia; apply rd_wr, Hd).
  assert (rd 8 m' (g + 2) = s.(gpr) RSI) as E2 by (apply rd_wr_u64, (co_gpr s Hs)).
  assert (reaches s x) as R0 by (by eapply reaches_exec).
  assert (reaches x y) as R1 by (by eapply reaches_exec).
  set (z := with_idtr (u16 (s.(gpr) RDI), s.(gpr) RSI) (with_pc n1 y)).
  assert (reaches y z) as R2.
  { eapply reaches_exec; [exact I2|]. unfold exec. change (bytes (with_pc n1 y)) with m'. by rewrite E1, E2. }
  destruct (ret_step z n2 I3) as (v & R3 & V1 & V2 & V3 & V4 & V5); [change (0 <= s.(gpr) RSP); lia|exact H8|].
  exists v. split_and!.
  - by transitivity x; [|transitivity y; [|transitivity z]].
  - rewrite V1. change (rd 8 m' (s.(gpr) RSP) = rd 8 s.(bytes) (s.(gpr) RSP)). unfold m', m. by rewrite !rd_wr_out by lia.
  - exact V2.
  - by rewrite (ss_idtr _ _ V4).
  - exact V3.
Qed.

(** ** The entry of the kernel *)

Lemma start_run s top_ main b : core_ok s -> placed s.(pc) (_start top_ main) b -> in_u64 top_ -> 32 <= top_ ->
  exists t, reaches s t /\ t.(pc) = main /\ t.(gpr) RDI = s.(gpr) RCX /\ Z.testbit t.(flags) IF = false /\
    t.(gpr) RSP = top_ / 16 * 16 - 16.
Proof.
  intros Hs Hp Hu Ht. unfold in_u64 in Hu.
  next_instr Hp I0 U0. next_instr Hp I1 U1. next_instr Hp I2 U2. next_instr Hp I3 U3. next_instr Hp I4 U4. next_instr Hp I5 U5.
  set (p := top_ / 16 * 16). assert (16 <= p < 2 ^ 64) as Hpr by (unfold p; Z.div_mod_to_equations; lia).
  set (x := with_gpr RSP top_ (with_pc n1 (with_gpr RDI (s.(gpr) RCX) (with_pc n0 (with_flags (Z.clearbit s.(flags) IF) (with_pc n s)))))).
  assert (reaches s x) as R0.
  { transitivity (with_flags (Z.clearbit s.(flags) IF) (with_pc n s)); [by eapply reaches_exec|].
    transitivity (with_gpr RDI (s.(gpr) RCX) (with_pc n0 (with_flags (Z.clearbit s.(flags) IF) (with_pc n s))));
      [by eapply reaches_exec|]. eapply reaches_exec; [exact I2|]. unfold exec. by rewrite (u64_id top_). }
  assert (x.(gpr) RSP = top_) as Hx by apply (with_gpr_eq RSP).
  assert (x.(gpr) RDI = s.(gpr) RCX) as Hxd by reflexivity.
  assert (x.(pc) = n1 /\ x.(flags) = Z.clearbit s.(flags) IF) as [Hxp Hxf] by done.
  clearbody x. rewrite <-Hxp in I3.
  set (y := with_flags (set_status (status false false false p) x.(flags)) (with_gpr RSP p (with_pc n2 x))).
  assert (reaches x y) as R1.
  { eapply reaches_exec; [exact I3|]. unfold exec. by rewrite Hx, (align_mask top_). }
  assert (y.(gpr) RSP = p) as Hy by apply (with_gpr_eq RSP).
  assert (y.(gpr) RDI = x.(gpr) RDI) as Hyd by (by apply (with_gpr_ne RSP RDI p (with_pc n2 x))).
  assert (Z.testbit y.(flags) IF = false) as Hyf.
  { cbn [y flags with_flags]. rewrite set_status_bit, Hxf by done. apply Z.clearbit_eq. }
  assert (y.(pc) = n2) as Hyp by done.
  clearbody y. rewrite <-Hyp in I4. eassert (reaches y _) as R2 by (eapply reaches_exec; [exact I4|reflexivity]).
  cbn [exec] in R2. rewrite Hy in R2. rewrite (u64_id (p - 8)) in R2 by (unfold in_u64; lia).
  match type of R2 with Asm.reaches _ _ y (with_flags (set_status ?st _) _) => set (st' := st) in R2 end.
  set (z := with_flags _ _) in R2.
  assert (z.(gpr) RSP = p - 8) as Hz by apply (with_gpr_eq RSP).
  assert (z.(gpr) RDI = y.(gpr) RDI) as Hzd by (by apply (with_gpr_ne RSP RDI (p - 8) (with_pc n3 y))).
  assert (Z.testbit z.(flags) IF = false) as Hzf.
  { unfold z. cbn [flags with_flags with_pc]. by rewrite set_status_bit. }
  assert (z.(pc) = n3) as Hzp by done.
  clearbody z. rewrite <-Hzp in I5.
  destruct (call_step text selector_ok z main n4 I5 U5) as (t & R3 & Hpc & [E1 E2 E3 E4 E5]); [rewrite Hz; unfold in_u64; lia|lia|].
  exists t. split_and!; [by transitivity x; [|transitivity y; [|transitivity z]]|done| | |lia].
  - by rewrite E2, Hzd, Hyd.
  - by rewrite (ss_flags _ _ E1).
Qed.

(** [.hang]: the processor never leaves the loop, and no register changes. *)
Lemma hang_stays n s b : placed s.(pc) (hang s.(pc)) b ->
  exists s', run_steps text selector_ok (n + n) s = Some s' /\ s'.(pc) = s.(pc) /\ s'.(gpr) = s.(gpr).
Proof.
  intros Hp. next_instr Hp I0 U0. next_instr Hp I1 U1.
  assert (G : forall h k x, text h = Some (Asm HLT n0) -> text n0 = Some (Asm (JMP h) n1) -> pc x = h ->
    exists x', run_steps text selector_ok (k + k) x = Some x' /\ x'.(pc) = h /\ x'.(gpr) = x.(gpr)).
  { intros h k. induction k as [|k IH]; intros x J0 J1 Hh; [by exists x|].
    destruct (IH (with_pc h (with_pc n1 (with_pc n0 x))) J0 J1 eq_refl) as (x' & R & Hpc & Hg).
    exists x'. split; [|done]. rewrite Nat.add_succ_r. cbn [Nat.add run_steps].
    assert (E0 : step text selector_ok x = Some (with_pc n0 x)) by (unfold step; by rewrite Hh, J0).
    assert (E1 : step text selector_ok (with_pc n0 x) = Some (with_pc h (with_pc n1 (with_pc n0 x))))
      by (unfold step; cbn [pc with_pc]; by rewrite J1).
    rewrite E0. cbn [mbind option_bind]. rewrite E1. exact R. }
  by apply (G s.(pc) n s).
Qed.
End routines.

(** ** The theorems *)

(** C18. A system call loses its arguments and its result.  [syscall_entry]
    switches to the kernel's stack and saves the user's registers, but calls
    [syscall_dispatch] with the user's RDI, not with a pointer to what it saved;
    and whatever that function returns in RAX, the user gets all sixteen
    registers back as they were at the [syscall] instruction, RAX included, at
    the address in RCX and with the flags in R11. *)
Theorem syscall_entry_spec text selector_ok s b c f limit :
  core_ok s -> placed text s.(pc) (syscall_entry c) b -> text c = Some (Native f) ->
  let stack := rd 8 s.(bytes) s.(kernel_gs_base) in
  256 <= stack <= s.(kernel_gs_base) -> s.(kernel_gs_base) + 16 <= limit -> limit <= 2 ^ 64 ->
  exists t, reaches text selector_ok s t /\ t.(pc) = c /\ (forall r, r <> RSP -> t.(gpr) r = s.(gpr) r) /\
    stored s.(gpr) stack t.(bytes) /\
    forall t', f t = Some t' -> c_returns limit t t' ->
      exists v, reaches text selector_ok t v /\ (forall r, v.(gpr) r = s.(gpr) r) /\ v.(pc) = s.(gpr) RCX /\
        v.(flags) = sysret_flags (s.(gpr) R11) /\ v.(gs_base) = s.(gs_base) /\
        v.(kernel_gs_base) = s.(kernel_gs_base) /\
        v.(seg) CS = Z.lor (u16 (Z.shiftr s.(star_msr) 48 + 16)) 3 /\
        v.(seg) SS = Z.lor (u16 (Z.shiftr s.(star_msr) 48 + 8)) 3.
Proof.
  intros Hs Hp Hc stack Hst Hg Hl. destruct (co_gs s Hs) as [_ Hk]. unfold in_u64 in Hk.
  destruct (switch_stacks text selector_ok s _ b Hs Hp ltac:(lia)) as (d & R1 & [D1 D2 [D3 D4] D5 D6 D7] & Hp1).
  fold stack in D2.
  destruct (save_and_call text selector_ok d c _ b Hp1) as (next & t & R2 & Hpc & Sc & Hp2).
  { intros r. destruct (decide (r = RSP)) as [->|Hne]; [rewrite D2; unfold in_u64; lia|].
    rewrite D1 by done. apply (co_gpr s Hs). }
  { lia. }
  assert (forall m, stored d.(gpr) stack m -> stored s.(gpr) stack m) as Hsame.
  { intros m Hm i r Hi. rewrite (Hm i r Hi). apply D1. intros ->.
    apply list_elem_of_lookup_2 in Hi. revert Hi. apply (bool_decide_unpack _). vm_compute. exact I. }
  pose proof (sc_stored _ _ _ Sc) as Hsaved. rewrite D2 in Hsaved.
  exists t. split_and!; [by transitivity d|done| |by apply Hsame|].
  { intros r Hr. rewrite (sc_gpr _ _ _ Sc) by done. by apply D1. }
  intros t' Ef Hret.
  destruct (after_call limit next d t t' Sc Hret) as (P1 & P2 & P3 & P4 & P5); [lia|].
  rewrite <-P1 in Hp2. apply placed_app in Hp2 as (b2 & Hrest & Huser). rewrite D2 in P2, P4, P5.
  destruct (restore_all text selector_ok d.(gpr) stack t' b2 Hrest P4 P2) as (u & R3 & Hpc3 & V1 & V2 & V3 & V4); [lia|].
  rewrite <-Hpc3 in Huser.
  assert (u.(gs_base) = s.(kernel_gs_base)) as Hug by (rewrite (ss_gs _ _ V3), (kt_gs _ _ P3); exact D3).
  destruct (return_to_user text selector_ok u b (s.(gpr) RSP) Huser) as (v & R4 & W1 & W2 & W3 & W4 & W5 & W6 & W7 & W8 & W9).
  { rewrite Hug. lia. }
  { rewrite Hug. lia. }
  { rewrite Hug, V4, <-D7. apply rd_ext. intros x Hx. apply P5. lia. }
  exists v. split_and!.
  - transitivity t'; [eapply reaches_native; [by rewrite Hpc|done]|]. by transitivity u.
  - intros r. destruct (decide (r = RSP)) as [->|Hne]; [done|]. by rewrite W4, V1, D1.
  - by rewrite W1, V1, D1.
  - by rewrite W2, V1, D1.
  - rewrite W5, (ss_kgs _ _ V3), (kt_kgs _ _ P3). exact D4.
  - by rewrite W6.
  - by rewrite W7, (ss_star _ _ V3), (kt_star _ _ P3), D6.
  - by rewrite W8, (ss_star _ _ V3), (kt_star _ _ P3), D6.
Qed.

(** C19. [restore_context] implements what the model of the threads takes the
    processor to load.  Where the bytes at a context are those words, it leaves
    every register, the program counter, the code segment, the flags, the stack
    pointer and the stack segment as [load_context] says. *)
Theorem restore_context_loads text selector_ok s b words c sp ss :
  placed text s.(pc) restore_context b -> 0 <= s.(gpr) RDI -> s.(gpr) RDI + 160 <= 2 ^ 64 ->
  same_context s.(bytes) words (s.(gpr) RDI) -> load_context words (s.(gpr) RDI) = (c, sp, ss) ->
  selector_ok CS (u16 c.(cs)) = true -> selector_ok SS (u16 ss) = true ->
  exists v, reaches text selector_ok s v /\ (forall r, v.(gpr) r = context_regs c sp r) /\ v.(pc) = c.(rip) /\
    v.(seg) CS = u16 c.(cs) /\ v.(seg) SS = u16 ss /\ v.(flags) = iret_flags c.(rflags) /\ v.(bytes) = s.(bytes).
Proof.
  intros Hp H0 Hmax Hsame Hload Hcs Hss. set (p := s.(gpr) RDI) in *. next_instr Hp I0 U0.
  set (x := with_gpr RSP p (with_pc n s)).
  assert (reaches text selector_ok s x) as R0 by (by eapply reaches_exec).
  assert (x.(gpr) RSP = p) as Hx by apply (with_gpr_eq RSP).
  assert (x.(pc) = n /\ x.(bytes) = s.(bytes)) as [Hxp Hxb] by done. clearbody x. cbn [app] in Hp.
  apply placed_app in Hp as (b1 & Hp & Hi). rewrite <-Hxp in Hp.
  pose proof (context_stored s.(bytes) words p c sp ss Hsame Hload) as Hst. rewrite <-Hxb in Hst.
  destruct (restore_all text selector_ok (context_regs c sp) (p + 120) x b1 Hp Hst) as (u & R1 & Hpc & V1 & V2 & V3 & V4); [lia|lia|].
  rewrite <-Hpc in Hi. next_instr Hi I1 U1.
  pose proof (iret_step text selector_ok u n0 I1 ltac:(lia) ltac:(lia)) as Hiret. cbv beta zeta in Hiret.
  assert (forall i, 0 <= i < 5 -> rd 8 u.(bytes) (u.(gpr) RSP + 8 * i) = words !!! (p + 8 * (15 + i))) as Hw.
  { intros i Hii. rewrite V4, Hxb, V2, <-(Hsame (15 + i)) by lia. f_equal. lia. }
  rewrite !Hw in Hiret by lia. injection Hload as Ec Esp Ess. subst sp ss. rewrite <-Ec in *. cbn [cs rip rflags] in *.
  change (15 + 0) with 15 in Hiret. change (15 + 1) with 16 in Hiret. change (15 + 2) with 17 in Hiret.
  change (15 + 3) with 18 in Hiret. change (15 + 4) with 19 in Hiret.
  rewrite Hcs, Hss in Hiret. destruct Hiret as (v & R2 & W1 & W2 & W3 & W4 & W5 & W6 & W7 & W8).
  exists v. split_and!; try done.
  - by transitivity x; [|transitivity u].
  - intros r. destruct (decide (r = RSP)) as [->|Hne]; [done|]. by rewrite W6, V1.
  - by rewrite W8, V4.
Qed.

(** C20. [grab_context] does not return to its caller.  Called with [call], it
    ends with [iretq] on a stack that holds a return address only: the code
    segment, the flags, the stack pointer and the stack segment come from the
    four words above it, which are the caller's own; when those are not
    loadable selectors the processor faults.  And RAX is what it was before the
    call, not the address of the context. *)
Theorem grab_context_spec text selector_ok s b c f limit :
  core_ok s -> placed text s.(pc) (grab_context c) b -> text c = Some (Native f) -> keeps_abi limit f ->
  conforming s -> 256 <= s.(gpr) RSP -> s.(gpr) RSP + 40 <= limit -> limit <= 2 ^ 64 ->
  let w i := rd 8 s.(bytes) (s.(gpr) RSP + 8 * i) in
  if selector_ok CS (u16 (w 1)) && selector_ok SS (u16 (w 4)) then
    exists v, reaches text selector_ok s v /\ v.(pc) = w 0 /\ v.(seg) CS = u16 (w 1) /\
      v.(flags) = iret_flags (w 2) /\ v.(gpr) RSP = w 3 /\ v.(seg) SS = u16 (w 4) /\
      forall r, r <> RSP -> v.(gpr) r = s.(gpr) r
  else exists u, reaches text selector_ok s u /\ step text selector_ok u = None.
Proof.
  intros Hs Hp Hc Habi [Hal Hdf] H256 Hl Hmax w. pose proof (co_gpr s Hs RSP) as Hur. unfold in_u64 in Hur.
  unfold grab_context in Hp. apply placed_app in Hp as (b1 & Hsave & Hp). cbn [app] in Hp.
  next_instr Hp I0 U0. next_instr Hp I1 U1.
  destruct (save_all text selector_ok s b1 Hsave (co_gpr s Hs) ltac:(lia)) as (s1 & R1 & Hpc1 & Sv).
  pose proof (sv_rsp _ _ _ Sv) as Hr1. change (Z.of_nat (length saved_regs)) with 15 in Hr1. rewrite <-Hpc1 in I0.
  set (x := with_gpr RDI (s1.(gpr) RSP) (with_pc n s1)).
  assert (reaches text selector_ok s1 x) as R2 by (by eapply reaches_exec).
  assert (x.(gpr) RSP = s1.(gpr) RSP) as Hx by (by apply (with_gpr_ne RDI RSP (s1.(gpr) RSP) (with_pc n s1))).
  assert (x.(pc) = n /\ x.(bytes) = s1.(bytes) /\ x.(flags) = s1.(flags)) as (Hxp & Hxb & Hxf) by done.
  clearbody x. rewrite <-Hxp in I1.
  destruct (call_step text selector_ok x c n0 I1 U1) as (t & R3 & Hpc & [E1 E2 E3 E4 E5]); [rewrite Hx; unfold in_u64; lia|lia|].
  destruct (Habi t) as (t' & Ef & [C1 C2 C3 C4 C5]).
  { split; [rewrite E3, Hx, Hr1; Z.div_mod_to_equations; lia|].
    by rewrite (ss_flags _ _ E1), Hxf, (ss_flags _ _ (sv_system _ _ _ Sv)). }
  assert (forall a, s.(gpr) RSP - 120 <= a < limit -> t'.(bytes) !!! a = s1.(bytes) !!! a) as Hb.
  { intros a Ha. rewrite C5, E5 by lia. congruence. }
  apply placed_app in Hp as (b2 & Hp & Hi). replace n0 with (t'.(pc)) in Hp by congruence.
  destruct (restore_all text selector_ok s.(gpr) (s.(gpr) RSP) t' b2 Hp) as (u & R4 & Hpc4 & V1 & V2 & V3 & V4); [|lia|lia|].
  { apply (stored_ext _ _ s1.(bytes)); [|by apply saved_stored]. intros a Ha. apply Hb. lia. }
  rewrite <-Hpc4 in Hi. next_instr Hi I2 U2.
  pose proof (iret_step text selector_ok u n1 I2 ltac:(lia) ltac:(lia)) as Hiret. cbv beta zeta in Hiret.
  assert (forall i, 0 <= i < 5 -> rd 8 u.(bytes) (u.(gpr) RSP + 8 * i) = w i) as Hw.
  { intros i Hii. rewrite V4, V2. apply rd_ext. intros a Ha. rewrite Hb by lia. apply (sv_out _ _ _ Sv). lia. }
  rewrite !Hw in Hiret by lia. clearbody w.
  assert (reaches text selector_ok s u) as R.
  { transitivity s1; [done|]. transitivity x; [done|]. transitivity t; [done|].
    transitivity t'; [eapply reaches_native; [by rewrite Hpc|done]|done]. }
  destruct (_ && _); [|by exists u].
  destruct Hiret as (v & R5 & W1 & W2 & W3 & W4 & W5 & W6 & _).
  exists v. split_and!; try done; [by transitivity u|]. intros r Hne. by rewrite W6, V1.
Qed.

(** [load_gdt] makes the table at its arguments the current one and returns
    to its caller in the kernel's segments: the code segment is 8, which
    [get_cs] then reads, all others are 16, the stack is balanced and no
    register but RAX has changed. *)
Theorem load_gdt_spec text selector_ok s b b1 b2 g rs rc :
  core_ok s -> placed text s.(pc) (load_gdt g rs) b -> placed text rs (reload_segments rc) b1 ->
  placed text rc reload_cs b2 -> in_u64 rc -> in_u64 rs ->
  selector_ok CS 8 = true -> (forall x, selector_ok x 16 = true) ->
  32 <= s.(gpr) RSP -> s.(gpr) RSP + 8 < 2 ^ 64 -> g + 10 <= s.(gpr) RSP \/ s.(gpr) RSP + 8 <= g ->
  text_ok text ->
  exists v, reaches text selector_ok s v /\ v.(pc) = rd 8 s.(bytes) (s.(gpr) RSP) /\
    v.(gpr) RSP = s.(gpr) RSP + 8 /\ (forall r, r <> RSP -> r <> RAX -> v.(gpr) r = s.(gpr) r) /\
    v.(gdtr_) = (u16 (s.(gpr) RDI), s.(gpr) RSI) /\ v.(seg) CS = 8 /\ kernel_segments v /\ v.(flags) = s.(flags).
Proof.
  intros Hs Hp Hrs Hrc Urc Urs Hs8 Hs16 H32 Hmax Hdis Htext.
  assert (forall x y, reaches text selector_ok x y -> core_ok x -> core_ok y) as Hok.
  { intros x y [k Hk]. revert x Hk. induction k as [|k IH]; intros x Hk Hx; cbn [run_steps] in Hk; [by injection Hk as <-|].
    destruct (step text selector_ok x) as [x1|] eqn:E; [|done]. cbn [mbind option_bind] in Hk.
    apply (IH x1); [done|]. by eapply step_ok. }
  next_instr Hp I0 U0. next_instr Hp I1 U1. next_instr Hp I2 U2. next_instr Hp I3 U3. next_instr Hp I4 U4.
  destruct (store_and_load text selector_ok s g n n0 n1 Hs I0 I1 I2) as (x & R0 & X1 & X2 & X3 & X4 & X5).
  rewrite <-X1 in I3. pose proof (co_gpr s Hs RSP) as Hur. unfold in_u64 in Hur.
  destruct (call_step text selector_ok x rs n2 I3 U3) as (t & R1 & Hpc & [E1 E2 E3 E4 E5]); [rewrite X3; unfold in_u64; lia|rewrite X3; lia|].
  rewrite X3 in E3, E5. rewrite <-Hpc in Hrs.
  assert (core_ok t) as Ht by (eapply Hok; [by transitivity x|done]).
  destruct (reload_segments_run text selector_ok t rc b1 Hrs Ht Urc Hs8 ltac:(lia)) as (u & R2 & W1 & W2 & W3 & W4 & W5 & W6 & W7).
  rewrite <-W1 in Hrc. assert (core_ok u) as Hu by (eapply Hok; [exact R2|done]).
  destruct (reload_cs_run text selector_ok u b2 Hrc Hu Hs16 ltac:(lia)) as (v & R3 & V1 & V2 & V3 & V4 & V5 & V6 & V7 & V8).
  assert (v.(pc) = n2) as Hvp.
  { rewrite V1, <-E4, W3. apply rd_ext. intros a Ha. apply W7. lia. }
  rewrite <-Hvp in I4.
  destruct (ret_step text selector_ok v n3 I4) as (z & R4 & Z1 & Z2 & Z3 & Z4 & Z5); [lia|lia|].
  exists z. split_and!.
  - by transitivity x; [|transitivity t; [|transitivity u; [|transitivity v]]].
  - rewrite Z1, V2, W3, E3. replace (s.(gpr) RSP - 8 + 8) with (s.(gpr) RSP) by lia. apply rd_ext. intros a Ha.
    rewrite V7, W7, E5, X5 by lia. done.
  - lia.
  - intros r Hr Ha. by rewrite Z3, V3, W4, E2, X3.
  - by rewrite (ss_gdtr _ _ Z4), V6, W5, (ss_gdtr _ _ E1).
  - by rewrite (ss_seg _ _ Z4), V5.
  - intros y Hy. rewrite (ss_seg _ _ Z4). by apply V4.
  - rewrite (ss_flags _ _ Z4), V8, W6, (ss_flags _ _ E1). exact X4.
Qed.

(** [_start] hands the record over and masks interrupts: [kernel_main] is
    entered with the loader's argument, which comes in RCX, in RDI, with
    interrupts off, on the kernel's stack.  But the stack pointer there is a
    multiple of 16, where the calling convention wants 8 more. *)
Theorem start_spec text selector_ok s b kernel_stack_top main :
  core_ok s -> placed text s.(pc) (_start kernel_stack_top main) b ->
  in_u64 kernel_stack_top -> 32 <= kernel_stack_top ->
  exists t, reaches text selector_ok s t /\ t.(pc) = main /\ t.(gpr) RDI = s.(gpr) RCX /\
    Z.testbit t.(flags) IF = false /\ t.(gpr) RSP = kernel_stack_top / 16 * 16 - 16 /\ ~ conforming t.
Proof.
  intros Hs Hp Hu Ht. destruct (start_run text selector_ok s kernel_stack_top main b Hs Hp Hu Ht) as (t & R & H1 & H2 & H3 & H4).
  exists t. split_and!; try done. intros [Hal _]. rewrite H4 in Hal. Z.div_mod_to_equations. lia.
Qed.

(** ** The theorems on a concrete machine *)

Lemma syscall_entry_spec_witness :
  exists t v, AsmDemo.returns t = Some (default t (AsmDemo.returns t)) /\
    reaches (AsmDemo.text (syscall_entry 0x500) AsmDemo.returns) AsmDemo.selector_ok t v /\ v.(gpr) RAX = 7.
Proof.
  destruct (syscall_entry_spec (AsmDemo.text (syscall_entry 0x500) AsmDemo.returns) AsmDemo.selector_ok AsmDemo.called
    (AsmDemo.code_at + Z.of_nat (length (syscall_entry 0x500))) 0x500 AsmDemo.returns 0xA000 demo_called_ok
    (demo_placed (syscall_entry 0x500) AsmDemo.returns ltac:(cbn; lia)) eq_refl ltac:(vm_compute; split; discriminate)
    ltac:(vm_compute; discriminate) ltac:(lia)) as (t & R & _ & _ & _ & H).
  destruct (demo_returns 0xA000 t) as (t' & E & Hc).
  destruct (H t' E Hc) as (v & Rv & Hg & _). exists t, v. split; [reflexivity|]. split; [exact Rv|exact (Hg RAX)].
Defined.

(** A context at 0x9000 whose only word that is not 0 is R15's. *)
Lemma restore_context_loads_witness :
  exists v, reaches (AsmDemo.text restore_context AsmDemo.returns) (fun _ _ => true) AsmDemo.called v /\
    v.(gpr) R15 = 0x8800 /\ v.(pc) = 0.
Proof.
  assert (same_context AsmDemo.called.(bytes) {[ 0x9000 := 0x8800 ]} 0x9000) as Hm.
  { intros i Hi. assert (i ∈ seqZ 0 20) as Hin by (apply elem_of_seqZ; lia).
    clear Hi. revert i Hin. apply Forall_forall. repeat (apply Forall_cons; split; [vm_compute; reflexivity|]). apply Forall_nil. exact I. }
  destruct (restore_context_loads (AsmDemo.text restore_context AsmDemo.returns) (fun _ _ => true) AsmDemo.called
    (AsmDemo.code_at + Z.of_nat (length restore_context)) {[ 0x9000 := 0x8800 ]} _ _ _
    (demo_placed restore_context AsmDemo.returns ltac:(cbn; lia)) ltac:(cbn; lia) ltac:(cbn; lia) Hm eq_refl eq_refl eq_refl)
    as (v & R & Hg & Hp & _).
  exists v. split; [exact R|]. split; [exact (Hg R15)|exact Hp].
Defined.

(** The caller's stack holds zeros, and 0 is no code selector: a fault. *)
Lemma grab_context_spec_witness :
  exists u, reaches (AsmDemo.text (grab_context 0x500) AsmDemo.returns) AsmDemo.selector_ok AsmDemo.called u /\
    step (AsmDemo.text (grab_context 0x500) AsmDemo.returns) AsmDemo.selector_ok u = None.
Proof.
  apply (grab_context_spec (AsmDemo.text (grab_context 0x500) AsmDemo.returns) AsmDemo.selector_ok AsmDemo.called
    (AsmDemo.code_at + Z.of_nat (length (grab_context 0x500))) 0x500 AsmDemo.returns 0x9000 demo_called_ok
    (demo_placed (grab_context 0x500) AsmDemo.returns ltac:(cbn; lia)) eq_refl (fun t _ => demo_returns 0x9000 t)
    ltac:(split; reflexivity) ltac:(cbn; lia) ltac:(cbn; lia) ltac:(lia)).
Defined.

Lemma load_gdt_spec_witness :
  exists v, reaches (AsmDemo.text (load_gdt 0x400 0x1005 ++ reload_segments 0x1009 ++ reload_cs) (fun _ => None))
      (fun _ _ => true) AsmDemo.called v /\ v.(gdtr_) = (0x9000, 0x7000) /\ v.(seg) CS = 8.
Proof.
  destruct (load_gdt_spec (AsmDemo.text (load_gdt 0x400 0x1005 ++ reload_segments 0x1009 ++ reload_cs) (fun _ => None))
    (fun _ _ => true) AsmDemo.called 0x1005 0x1009 0x1010 0x400 0x1005 0x1009 demo_called_ok
    ltac:(place) ltac:(place) ltac:(place) ltac:(done) ltac:(done) eq_refl ltac:(done) ltac:(cbn; lia) ltac:(cbn; lia)
    ltac:(left; cbn; lia) (demo_text_ok (load_gdt 0x400 0x1005 ++ reload_segments 0x1009 ++ reload_cs) ltac:(by repeat constructor) ltac:(cbn; lia))) as (v & R & _ & _ & _ & Hg & Hc & _).
  exists v. split; [exact R|]. split; [exact Hg|exact Hc].
Defined.

Lemma start_spec_witness :
  exists t, reaches (AsmDemo.text (_start 0x20000 0x500) AsmDemo.returns) AsmDemo.selector_ok AsmDemo.called t /\
    t.(pc) = 0x500 /\ t.(gpr) RDI = 0x2000 /\ t.(gpr) RSP = 0x1FFF0.
Proof.
  destruct (start_spec (AsmDemo.text (_start 0x20000 0x500) AsmDemo.returns) AsmDemo.selector_ok AsmDemo.called
    (AsmDemo.code_at + Z.of_nat (length (_start 0x20000 0x500))) 0x20000 0x500 demo_called_ok
    (demo_placed (_start 0x20000 0x500) AsmDemo.returns ltac:(cbn; lia)) ltac:(done) ltac:(lia))
    as (t & R & Hpc & Hd & _ & Hr & _).
  exists t. split; [exact R|]. split; [exact Hpc|]. split; [exact Hd|exact Hr].
Defined.
