(* ===== verification/Demo.v ===== *)
(** * The demo ([kernel/kernel_apps/demo.c], [kernel/lib/math.h])

    The rotating letter drawn over the screen as it was.  The floating-point
    unit is a parameter: the kernel is built without SSE2, so [double] is
    computed by the x87, whose [fsin] and [fcos] differ between processors and
    whose intermediate results may be wider than 64 bits.  [kmalloc] and
    [kfree] give and take pixel arrays of the store; [clock i] is what the
    [i]-th call of [get_milliseconds] returns.  The loop runs forever: the
    model runs a given number of frames of it. *)

From Stdlib Require Export QArith Qround.
From S2P Require Import Prelude Graphics Stdio.

#[global] Open Scope Z_scope.

(** The number a register holds ([None]: a NaN or an infinity), the nearest
    number to a literal, and the operations. *)
Class Fpu (D : Type) := {
  value : D -> option Q;
  lit : Q -> D;
  fadd : D -> D -> D;
  fsub : D -> D -> D;
  fmul : D -> D -> D;
  fdiv : D -> D -> D;
  fneg : D -> D;
  fsin : D -> D;
  fcos : D -> D;
  fle : D -> D -> bool;
}.

(** Truncation towards zero. *)
Definition Qtrunc (q : Q) : Z := if Qle_bool 0 q then Qfloor q else Qceiling q.

(** [(int)d]: undefined outside the range of [int]. *)
Definition to_int {D S : Type} `{Fpu D} (d : D) : M S Z :=
  match value d with Some q => int_of (Qtrunc q) | None => fault end.

(** ** The figure *)

Definition vertices : list (Q * Q * Q) :=
  [(0, -1, -1); (1#2, 0, -1); (-1#2, 0, -1); (-2, 2, -1); (0, -3, -1);
   (2, 2, -1); (1#2, 1, -1); (-1#2, 1, -1); (-1, 2, -1); (1, 2, -1);
   (0, -1, 1); (1#2, 0, 1); (-1#2, 0, 1); (-2, 2, 1); (0, -3, 1);
   (2, 2, 1); (1#2, 1, 1); (-1#2, 1, 1); (-1, 2, 1); (1, 2, 1)]%Q.

Definition edges : list (nat * nat) :=
  [(2, 1); (2, 0); (1, 0); (4, 3); (4, 5); (8, 3); (9, 5); (9, 6); (7, 6); (7, 8);
   (12, 11); (12, 10); (11, 10); (14, 13); (14, 15); (18, 13); (19, 15); (19, 16); (17, 16); (17, 18);
   (0, 10); (1, 11); (2, 12); (3, 13); (4, 14); (5, 15); (6, 16); (7, 17); (8, 18); (9, 19)]%nat.

(** ** Copying pixels *)

(** [memcpy(dst, src, n)] between the arrays at [dst] and [src]; [n] counts
    bytes, so that the last cell may be copied in part. *)
Definition copied (n : Z) (src dst : gmap Z Z) : gmap Z Z :=
  let whole := for_up (Z.to_nat (n / 4)) 0 (fun i c => <[i := src !!! i]> c) dst in
  let part := 256 ^ (n mod 4) in
  if n mod 4 =? 0 then whole
  else <[n / 4 := whole !!! (n / 4) / part * part + src !!! (n / 4) mod part]> whole.

Definition memcpy_px (dst src n : Z) : M screen unit := fun s =>
  match s.(vram) !! dst, s.(vram) !! src with
  | Some d, Some o =>
      if (n <=? 4 * d.(px_len)) && (n <=? 4 * o.(px_len))
      then Done (tt, set_vram (<[dst := mk_pixels d.(px_len) (copied n o.(px_cells) d.(px_cells))]> s.(vram)) s)
      else Fault
  | _, _ => Fault
  end.

Section demo.
Context {D : Type} `{Fpu D}.

Definition vec : Type := D * D * D.

(** ** Geometry *)

(** [sin] and [cos] of [lib/math.h] are one instruction each. *)
Definition sin (x : D) : D := fsin x.
Definition cos (x : D) : D := fcos x.

Definition make_rotation (ax ay az : D) : vec * vec * vec :=
  let sx := sin ax in let cx := cos ax in
  let sy := sin ay in let cy := cos ay in
  let sz := sin az in let cz := cos az in
  ((fmul cz cy, fsub (fmul (fmul cz sy) sx) (fmul sz cx), fadd (fmul (fmul cz sy) cx) (fmul sz sx)),
   (fmul sz cy, fadd (fmul (fmul sz sy) sx) (fmul cz cx), fsub (fmul (fmul sz sy) cx) (fmul cz sx)),
   (fneg sy, fmul cy sx, fmul cy cx)).

Definition row_times (row : vec) (vertex : Q * Q * Q) : D :=
  let '(m0, m1, m2) := row in let '(v0, v1, v2) := vertex in
  fadd (fadd (fmul m0 (lit v0)) (fmul m1 (lit v1))) (fmul m2 (lit v2)).

Definition transform_vertex (vertex : Q * Q * Q) (matrix : vec * vec * vec) : vec :=
  let '(r0, r1, r2) := matrix in (row_times r0 vertex, row_times r1 vertex, row_times r2 vertex).

(** [None] where the C function returns 0. *)
Definition project_vertex (WIDTH HEIGHT : Z) (vertex : vec) (distance : D) : M screen (option (Z * Z)) :=
  let '(v0, v1, v2) := vertex in
  let z := fadd v2 distance in
  if fle z (lit 0) then mret None else
  let scale := fdiv (lit 300) z in
  x ← to_int (fadd (fmul v0 scale) (fmul (lit (inject_Z WIDTH)) (lit (1#2))));
  y ← to_int (fadd (fmul v1 scale) (fmul (lit (inject_Z HEIGHT)) (lit (1#2))));
  mret (Some (x, y)).

(** The loop over the vertices. *)
Fixpoint project_all (WIDTH HEIGHT : Z) (rotation : vec * vec * vec) (l : list (Q * Q * Q))
    : M screen (list (option (Z * Z))) :=
  match l with
  | [] => mret []
  | v :: r =>
      p ← project_vertex WIDTH HEIGHT (transform_vertex v rotation) (lit 5);
      ps ← project_all WIDTH HEIGHT rotation r;
      mret (p :: ps)
  end.

(** ** A frame *)

(** As many pixels as the longer axis has steps. *)
Definition line_fuel (p q : Z * Z) : nat := S (Z.to_nat (Z.max (Z.abs (q.1 - p.1)) (Z.abs (q.2 - p.2)))).

(** The loop over the edges. *)
Fixpoint draw_edges (backbuffer : framebuffer_t) (points : list (option (Z * Z))) (l : list (nat * nat))
    : M screen unit :=
  match l with
  | [] => mret tt
  | (v1, v2) :: r =>
      match points !! v1, points !! v2 with
      | Some (Some p), Some (Some q) =>
          _ ← draw_line_q (line_fuel p q) (Some backbuffer) (u32 p.1) (u32 p.2) (u32 q.1) (u32 q.2) 0x00DDDDDD;
          draw_edges backbuffer points r
      | Some _, Some _ => draw_edges backbuffer points r
      | _, _ => fault
      end
  end.

Record angles := mk_angles { angle_x : D; angle_y : D; angle_z : D }.

Definition two_pi : D := lit (628318530717958647692 # 100000000000000000000).
Definition turn (angle : D) (by_ : Q) : D :=
  let a := fadd angle (lit by_) in if fle two_pi a then fsub a two_pi else a.
Definition turn_all (a : angles) : angles :=
  mk_angles (turn a.(angle_x) (1#100)) (turn a.(angle_y) (15#1000)) (turn a.(angle_z) (1#100)).

(** From the restored background to the finished frame on the screen. *)
Definition render (WIDTH HEIGHT : Z) (backbuffer : framebuffer_t) (background_addr fb_size : Z) (a : angles)
    : M screen unit :=
  _ ← memcpy_px backbuffer.(fb_address) background_addr fb_size;
  points ← project_all WIDTH HEIGHT (make_rotation a.(angle_x) a.(angle_y) a.(angle_z)) vertices;
  _ ← draw_edges backbuffer points edges;
  p ← gets framebuffer_pb;
  match p with
  | None => fault
  | Some fb => memcpy_px fb.(fb_address) backbuffer.(fb_address) fb_size
  end.

(** ["FT: %u\r"] *)
Definition frame_time (elapsed : Z) : M screen unit := print (L "FT: %u" ++ [13]) [VaInt (u32 elapsed)].

(** The loop from the [i]-th reading of the clock on. *)
Fixpoint demo_loop (frames : nat) (clock : nat -> Z) (WIDTH HEIGHT : Z) (backbuffer : framebuffer_t)
    (background_addr fb_size : Z) (i : nat) (a : angles) : M screen angles :=
  match frames with
  | O => mret a
  | S n =>
      let a' := turn_all a in
      _ ← render WIDTH HEIGHT backbuffer background_addr fb_size a';
      _ ← frame_time (u64 (clock (S i) - clock i));
      demo_loop n clock WIDTH HEIGHT backbuffer background_addr fb_size (S i) a'
  end.

Context (kmalloc : Z -> M screen Z) (kfree : Z -> M screen unit).

(** [None]: the function returned; otherwise the angles after [frames] rounds. *)
Definition start_demo_show (frames : nat) (clock : nat -> Z) (fb_size : Z) : M screen (option angles) :=
  p ← gets framebuffer_pb;
  match p with
  | None => fault
  | Some fb =>
      let WIDTH := u32 fb.(fb_width) in let HEIGHT := u32 fb.(fb_height) in
      if fb_size =? 0 then mret None else
      backbuffer_addr ← kmalloc fb_size;
      if backbuffer_addr =? 0 then mret None else
      background_addr ← kmalloc fb_size;
      if background_addr =? 0 then (_ ← kfree backbuffer_addr; mret None) else
      let backbuffer := mk_framebuffer fb.(fb_width) fb.(fb_height) fb.(fb_pitch) backbuffer_addr in
      _ ← memcpy_px background_addr fb.(fb_address) fb_size;
      _ ← memcpy_px backbuffer_addr background_addr fb_size;
      a ← demo_loop frames clock WIDTH HEIGHT backbuffer background_addr fb_size 0 (mk_angles (lit 0) (lit 0) (lit 0));
      mret (Some a)
  end.
End demo.
Arguments angles : clear implicits.
