(* ===== verification/DemoFpu.v ===== *)
(** * The accuracy of the demo's geometry

    What is assumed of the floating-point unit, and how far the computed
    points are from the exact ones: [acc e q d] says that [d] holds a number
    within [e] of [q].  [Fixed] is a unit with these laws. *)

From Stdlib Require Import QArith Qround Qabs Lqa.
From S2P Require Import Prelude Graphics GraphicsFacts Demo.

Open Scope Q_scope.

(** ** The laws *)

(** Magnitudes far from overflow. *)
Definition moderate (q : Q) : Prop := - (1099511627776 # 1) <= q <= 1099511627776 # 1.

Definition acc {D : Type} `{Fpu D} (e q : Q) (d : D) : Prop :=
  exists v, value d = Some v /\ - e <= v - q <= e.

(** The error of one operation with result [q]: a double has 53 bits, and
    underflow is far below the absolute part. *)
Definition rounding (q : Q) : Q := (Qabs q + 1) * (1 # 1125899906842624).

(** Sine and cosine lie close to the unit circle. *)
Class FpuLaws (D : Type) `{Fpu D} := {
  lit_near q : moderate q -> acc (rounding q) q (lit q);
  add_near a b x y : value a = Some x -> value b = Some y -> moderate (x + y) ->
    acc (rounding (x + y)) (x + y) (fadd a b);
  sub_near a b x y : value a = Some x -> value b = Some y -> moderate (x - y) ->
    acc (rounding (x - y)) (x - y) (fsub a b);
  mul_near a b x y : value a = Some x -> value b = Some y -> moderate (x * y) ->
    acc (rounding (x * y)) (x * y) (fmul a b);
  div_near a b x y : value a = Some x -> value b = Some y -> ~ y == 0 -> moderate (x / y) ->
    acc (rounding (x / y)) (x / y) (fdiv a b);
  neg_near a x : value a = Some x -> acc 0 (- x) (fneg a);
  fle_exact a b x y : value a = Some x -> value b = Some y -> fle a b = Qle_bool x y;
  unit_circle a t : value a = Some t -> moderate t ->
    exists s c, value (fsin a) = Some s /\ value (fcos a) = Some c /\
      - (1 # 1000000) <= s * s + c * c - 1 <= 1 # 1000000;
}.

(** ** Error bounds *)

(** The error of one operation below [2^33]. *)
Definition eps : Q := 1 # 100000.

Section accuracy.
Context {D : Type} `{FpuLaws D}.

Definition small (q : Q) : Prop := - (8589934592 # 1) <= q <= 8589934592 # 1.

Lemma small_moderate q : small q -> moderate q.
Proof. unfold small, moderate. lra. Qed.

Lemma rounding_small q : small q -> 0 <= rounding q <= eps.
Proof.
  unfold small, rounding, eps. intros Hq.
  assert (0 <= Qabs q <= 8589934592 # 1) by (apply Qabs_case; lra). lra.
Qed.

Lemma acc_weaken e e' q q' (d : D) : acc e q d -> e + (q' - q) <= e' -> e + (q - q') <= e' -> acc e' q' d.
Proof. intros (v & Ev & Hv) H1 H2. exists v. split; [done|]. lra. Qed.

Lemma acc_rounded q (d : D) : small q -> acc (rounding q) q d -> acc eps q d.
Proof. intros Hq Hd. pose proof (rounding_small q Hq). apply (acc_weaken _ _ _ _ _ Hd); lra. Qed.

Lemma lit_acc q : small q -> acc eps q (lit q).
Proof. intros Hq. by apply acc_rounded, lit_near, small_moderate. Qed.

Lemma add_acc e1 e2 x y (a b : D) : acc e1 x a -> acc e2 y b -> 0 <= e1 <= 1 -> 0 <= e2 <= 1 ->
  - (8589934590 # 1) <= x + y <= 8589934590 # 1 -> acc (e1 + e2 + eps) (x + y) (fadd a b).
Proof.
  intros (v & Ev & Hv) (w & Ew & Hw) H1 H2 Hxy.
  assert (small (v + w)) as Hs by (unfold small; lra).
  destruct (acc_rounded _ _ Hs (add_near _ _ _ _ Ev Ew (small_moderate _ Hs))) as (u & Eu & Hu).
  exists u. split; [done|]. lra.
Qed.

Lemma sub_acc e1 e2 x y (a b : D) : acc e1 x a -> acc e2 y b -> 0 <= e1 <= 1 -> 0 <= e2 <= 1 ->
  - (8589934590 # 1) <= x - y <= 8589934590 # 1 -> acc (e1 + e2 + eps) (x - y) (fsub a b).
Proof.
  intros (v & Ev & Hv) (w & Ew & Hw) H1 H2 Hxy.
  assert (small (v - w)) as Hs by (unfold small; lra).
  destruct (acc_rounded _ _ Hs (sub_near _ _ _ _ Ev Ew (small_moderate _ Hs))) as (u & Eu & Hu).
  exists u. split; [done|]. lra.
Qed.

Lemma product_bound (x X y Y : Q) : - X <= x <= X -> - Y <= y <= Y -> - (X * Y) <= x * y <= X * Y.
Proof. intros Hx Hy. nra. Qed.

Lemma mul_acc e1 e2 X Y x y (a b : D) : acc e1 x a -> acc e2 y b -> 0 <= e1 <= 1 -> 0 <= e2 <= 1 ->
  - X <= x <= X -> - Y <= y <= Y -> (X + 1) * (Y + 1) <= 8589934592 # 1 ->
  acc (X * e2 + Y * e1 + e1 * e2 + eps) (x * y) (fmul a b).
Proof.
  intros (v & Ev & Hv) (w & Ew & Hw) H1 H2 Hx Hy HXY.
  pose proof (product_bound v (X + 1) w (Y + 1) ltac:(lra) ltac:(lra)) as Hvw.
  assert (small (v * w)) as Hs by (unfold small; lra).
  destruct (acc_rounded _ _ Hs (mul_near _ _ _ _ Ev Ew (small_moderate _ Hs))) as (u & Eu & Hu).
  exists u. split; [done|].
  pose proof (product_bound x X (w - y) e2 Hx ltac:(lra)).
  pose proof (product_bound (v - x) e1 y Y ltac:(lra) Hy).
  pose proof (product_bound (v - x) e1 (w - y) e2 ltac:(lra) ltac:(lra)).
  assert (v * w - x * y == x * (w - y) + (v - x) * y + (v - x) * (w - y)) as Hd by ring.
  lra.
Qed.
End accuracy.

(** ** Rotations of the plane and of space *)

Definition circle (s c : Q) : Prop := - (1 # 1000000) <= s * s + c * c - 1 <= 1 # 1000000.

Lemma circle_bounds s c : circle s c -> - (1001 # 1000) <= s <= 1001 # 1000 /\ - (1001 # 1000) <= c <= 1001 # 1000.
Proof. unfold circle. intros Hc. split; split; nra. Qed.

Lemma circle_scales s c a b n : circle s c -> a * a + b * b <= n ->
  (c * a - s * b) * (c * a - s * b) + (s * a + c * b) * (s * a + c * b) <= n + n * (1 # 1000000).
Proof.
  unfold circle. intros Hc Hn.
  assert ((c * a - s * b) * (c * a - s * b) + (s * a + c * b) * (s * a + c * b)
          == (s * s + c * c) * (a * a + b * b)) as -> by ring.
  assert (0 <= a * a + b * b) by nra. nra.
Qed.

(** [Rz * Ry * Rx] applied to a point. *)
Section rotation.
Context (sx cx sy cy sz cz : Q).

Definition turned (v : Q * Q * Q) : Q * Q * Q :=
  let '(v0, v1, v2) := v in
  (cz * cy * v0 + (cz * sy * sx - sz * cx) * v1 + (cz * sy * cx + sz * sx) * v2,
   sz * cy * v0 + (sz * sy * sx + cz * cx) * v1 + (sz * sy * cx - cz * sx) * v2,
   - sy * v0 + cy * sx * v1 + cy * cx * v2).

(** A turned point stays in its ball. *)
Lemma turned_ball v0 v1 v2 : circle sx cx -> circle sy cy -> circle sz cz -> v0 * v0 + v1 * v1 + v2 * v2 <= 10 ->
  let '(x, y, z) := turned (v0, v1, v2) in
  x * x + z * z <= 10001 # 1000 /\ y * y + z * z <= 10001 # 1000.
Proof.
  intros Hx Hy Hz Hv. cbn [turned].
  pose (y1 := cx * v1 - sx * v2). pose (z1 := sx * v1 + cx * v2).
  pose (x2 := cy * v0 + sy * z1). pose (z2 := cy * z1 - sy * v0).
  assert (y1 * y1 + z1 * z1 <= (10 - v0 * v0) + (10 - v0 * v0) * (1 # 1000000)) as N1
    by (apply circle_scales; [done|lra]).
  assert (z2 * z2 + x2 * x2 <= (10 + (1 # 100000) - y1 * y1) + (10 + (1 # 100000) - y1 * y1) * (1 # 1000000)) as N2.
  { pose proof (circle_scales sy cy z1 v0 (10 + (1 # 100000) - y1 * y1) Hy) as N.
    assert (0 <= v0 * v0) by nra. specialize (N ltac:(nra)). unfold x2, z2. lra. }
  pose proof (circle_scales sz cz x2 y1 (10 + (3 # 100000) - z2 * z2) Hz) as N3.
  assert (0 <= y1 * y1) by nra. specialize (N3 ltac:(lra)).
  assert (0 <= z2 * z2) by nra.
  set (x3 := cz * x2 - sz * y1) in *. set (y3 := sz * x2 + cz * y1) in *.
  assert (0 <= x3 * x3) by nra. assert (0 <= y3 * y3) by nra.
  assert (cz * cy * v0 + (cz * sy * sx - sz * cx) * v1 + (cz * sy * cx + sz * sx) * v2 == x3) as ->
    by (unfold x3, x2, y1, z1; ring).
  assert (sz * cy * v0 + (sz * sy * sx + cz * cx) * v1 + (sz * sy * cx - cz * sx) * v2 == y3) as ->
    by (unfold y3, x2, y1, z1; ring).
  assert (- sy * v0 + cy * sx * v1 + cy * cx * v2 == z2) as -> by (unfold z2, z1; ring).
  split; lra.
Qed.
End rotation.

(** ** The transformed vertices *)

Section transformed.
Context {D : Type} `{FpuLaws D}.

Lemma mul_2 e1 e2 x y (a b : D) : acc e1 x a -> acc e2 y b ->
  0 <= e1 <= 1 # 1000 -> 0 <= e2 <= 1 # 1000 -> - (2) <= x <= 2 -> - (2) <= y <= 2 ->
  acc ((21 # 10) * (e1 + e2) + eps) (x * y) (fmul a b).
Proof.
  intros Ha Hb H1 H2 Hx Hy.
  pose proof (mul_acc e1 e2 2 2 x y a b Ha Hb ltac:(lra) ltac:(lra) Hx Hy ltac:(lra)) as Hm.
  assert (e1 * e2 <= (1 # 1000) * e1) by nra. apply (acc_weaken _ _ _ _ _ Hm); lra.
Qed.

Lemma exact x (a : D) : value a = Some x -> acc 0 x a.
Proof. intros E. exists x. split; [done|]. lra. Qed.

(** An entry of the matrix and what it stands for. *)
Definition entry (q : Q) (d : D) : Prop := acc (6 # 100000) q d /\ - (21 # 10) <= q <= 21 # 10.

Lemma entry_mul x y (a b : D) : value a = Some x -> value b = Some y ->
  - (1001 # 1000) <= x <= 1001 # 1000 -> - (1001 # 1000) <= y <= 1001 # 1000 ->
  acc eps (x * y) (fmul a b) /\ - (1003 # 1000) <= x * y <= 1003 # 1000.
Proof.
  intros Ea Eb Hx Hy. split; [|pose proof (product_bound _ _ _ _ Hx Hy); lra].
  apply (acc_weaken _ _ _ _ _ (mul_2 _ _ _ _ _ _ (exact _ _ Ea) (exact _ _ Eb) ltac:(lra) ltac:(lra) ltac:(lra) ltac:(lra)));
    unfold eps; lra.
Qed.

Lemma entry_product x y (a b : D) : value a = Some x -> value b = Some y ->
  - (1001 # 1000) <= x <= 1001 # 1000 -> - (1001 # 1000) <= y <= 1001 # 1000 -> entry (x * y) (fmul a b).
Proof.
  intros Ea Eb Hx Hy. destruct (entry_mul _ _ _ _ Ea Eb Hx Hy) as [Hp Hb].
  split; [apply (acc_weaken _ _ _ _ _ Hp); unfold eps; lra|lra].
Qed.

Lemma entry_triple x y z (a b c : D) : value a = Some x -> value b = Some y -> value c = Some z ->
  - (1001 # 1000) <= x <= 1001 # 1000 -> - (1001 # 1000) <= y <= 1001 # 1000 -> - (1001 # 1000) <= z <= 1001 # 1000 ->
  acc (4 # 100000) (x * y * z) (fmul (fmul a b) c) /\ - (105 # 100) <= x * y * z <= 105 # 100.
Proof.
  intros Ea Eb Ec Hx Hy Hz. destruct (entry_mul _ _ _ _ Ea Eb Hx Hy) as [Hp Hb].
  split; [|pose proof (product_bound _ _ _ _ Hb Hz); lra].
  apply (acc_weaken _ _ _ _ _ (mul_2 _ _ _ _ _ _ Hp (exact _ _ Ec) ltac:(unfold eps; lra) ltac:(lra) ltac:(lra) ltac:(lra)));
    unfold eps; lra.
Qed.

(** Rows of entries, and their products with the vertices of the figure. *)
Lemma row_times_acc q0 q1 q2 m0 m1 m2 v0 v1 v2 : entry q0 m0 -> entry q1 m1 -> entry q2 m2 ->
  - (3) <= v0 <= 3 -> - (3) <= v1 <= 3 -> - (3) <= v2 <= 3 ->
  acc (8 # 10000) (q0 * v0 + q1 * v1 + q2 * v2) (row_times (m0, m1, m2) (v0, v1, v2)).
Proof.
  assert (forall q m v, entry q m -> - (3) <= v <= 3 ->
    acc (22 # 100000) (q * v) (fmul m (lit v)) /\ - (63 # 10) <= q * v <= 63 # 10) as Hm.
  { intros q m v [Hq Hb] Hv. split; [|pose proof (product_bound _ _ _ _ Hb Hv); lra].
    pose proof (lit_acc v ltac:(unfold small; lra)) as Hl.
    apply (acc_weaken _ _ _ _ _ (mul_acc _ _ (21 # 10) 3 _ _ _ _ Hq Hl ltac:(lra) ltac:(unfold eps; lra) Hb Hv ltac:(lra)));
      unfold eps; lra. }
  intros E0 E1 E2 B0 B1 B2. cbn [row_times].
  destruct (Hm _ _ _ E0 B0) as [A0 C0], (Hm _ _ _ E1 B1) as [A1 C1], (Hm _ _ _ E2 B2) as [A2 C2].
  pose proof (add_acc _ _ _ _ _ _ A0 A1 ltac:(lra) ltac:(lra) ltac:(lra)) as S1.
  pose proof (add_acc _ _ _ _ _ _ S1 A2 ltac:(unfold eps; lra) ltac:(lra) ltac:(lra)) as S2.
  apply (acc_weaken _ _ _ _ _ S2); unfold eps; lra.
Qed.

(** The angles at which the laws speak of sine and cosine. *)
Definition angle (d : D) : Prop := exists t, value d = Some t /\ - (1) <= t <= 7.

Lemma angle_circle d : angle d ->
  exists s c, value (sin d) = Some s /\ value (cos d) = Some c /\ circle s c.
Proof. intros (t & Et & Ht). apply (unit_circle _ _ Et). unfold moderate. lra. Qed.

Definition point_near (e : Q) (q : Q * Q * Q) (d : vec) : Prop :=
  acc e q.1.1 d.1.1 /\ acc e q.1.2 d.1.2 /\ acc e q.2 d.2.

Lemma neg_entry x (a : D) : value a = Some x -> - (1001 # 1000) <= x <= 1001 # 1000 -> entry (- x) (fneg a).
Proof. intros Ea Hx. split; [apply (acc_weaken _ _ _ _ _ (neg_near _ _ Ea)); lra|lra]. Qed.

Lemma sub_entry x y e (a b : D) : acc (4 # 100000) x a /\ - (105 # 100) <= x <= 105 # 100 ->
  acc eps y b /\ - (1003 # 1000) <= y <= 1003 # 1000 -> e == x - y -> entry e (fsub a b).
Proof.
  intros [Ha Bx] [Hb By] He. split; [|lra].
  apply (acc_weaken _ _ _ _ _ (sub_acc _ _ _ _ _ _ Ha Hb ltac:(lra) ltac:(unfold eps; lra) ltac:(lra))); unfold eps; lra.
Qed.

Lemma add_entry x y e (a b : D) : acc (4 # 100000) x a /\ - (105 # 100) <= x <= 105 # 100 ->
  acc eps y b /\ - (1003 # 1000) <= y <= 1003 # 1000 -> e == x + y -> entry e (fadd a b).
Proof.
  intros [Ha Bx] [Hb By] He. split; [|lra].
  apply (acc_weaken _ _ _ _ _ (add_acc _ _ _ _ _ _ Ha Hb ltac:(lra) ltac:(unfold eps; lra) ltac:(lra))); unfold eps; lra.
Qed.

Definition in_figure (v : Q * Q * Q) : Prop :=
  let '(v0, v1, v2) := v in
  v0 * v0 + v1 * v1 + v2 * v2 <= 10 /\ - (3) <= v0 <= 3 /\ - (3) <= v1 <= 3 /\ - (3) <= v2 <= 3.

(** A computed vertex is near a point that does not leave the ball. *)
Lemma transformed_near ax ay az v : angle ax -> angle ay -> angle az -> in_figure v ->
  exists x y z, x * x + z * z <= 10001 # 1000 /\ y * y + z * z <= 10001 # 1000 /\
    point_near (8 # 10000) (x, y, z) (transform_vertex v (make_rotation ax ay az)).
Proof.
  intros Hax Hay Haz. destruct v as [[v0 v1] v2]. intros (Hv & B0 & B1 & B2).
  destruct (angle_circle _ Hax) as (sx & cx & Esx & Ecx & Cx), (angle_circle _ Hay) as (sy & cy & Esy & Ecy & Cy),
    (angle_circle _ Haz) as (sz & cz & Esz & Ecz & Cz).
  destruct (circle_bounds _ _ Cx) as [Sx Kx], (circle_bounds _ _ Cy) as [Sy Ky], (circle_bounds _ _ Cz) as [Sz Kz].
  pose proof (turned_ball sx cx sy cy sz cz v0 v1 v2 Cx Cy Cz Hv) as Hb. cbn [turned] in Hb.
  eexists _, _, _. split; [exact (proj1 Hb)|]. split; [exact (proj2 Hb)|].
  unfold transform_vertex, make_rotation, point_near. cbn [fst snd].
  split; [|split]; (apply row_times_acc; [..|done|done|done]).
  - by apply entry_product.
  - eapply sub_entry; [by apply entry_triple|by apply entry_mul|reflexivity].
  - eapply add_entry; [by apply entry_triple|by apply entry_mul|reflexivity].
  - by apply entry_product.
  - eapply add_entry; [by apply entry_triple|by apply entry_mul|reflexivity].
  - eapply sub_entry; [by apply entry_triple|by apply entry_mul|reflexivity].
  - by apply neg_entry.
  - by apply entry_product.
  - by apply entry_product.
Qed.
End transformed.
