(* ===== verification/DemoPoints.v ===== *)
(** * Where the demo's vertices appear, and its angles

    The bounds of the projected points and of the angles, and [Fixed], a
    floating-point unit with the assumed laws: numbers with 64 bits behind the
    point. *)

From Stdlib Require Import QArith Qround Qabs Lqa.
From S2P Require Import Prelude Graphics GraphicsFacts Demo DemoFpu.

Open Scope Q_scope.

(** ** Projection *)

Lemma Qsquare_nonneg (a : Q) : 0 <= a * a.
Proof. nra. Qed.

(** The radius of the figure on the screen: [300 x / (5 + z)] for a point of
    the ball. *)
Lemma ball_slope x z : x * x + z * z <= 10001 # 1000 -> - ((82 # 100) * (z + 5)) <= x <= (82 # 100) * (z + 5).
Proof.
  intros Hb.
  pose proof (Qsquare_nonneg x). pose proof (Qsquare_nonneg (z + 4)). assert (0 < z + 5) by lra.
  pose proof (Qsquare_nonneg (z + (201 # 100))).
  assert (x * x <= (82 # 100) * (z + 5) * ((82 # 100) * (z + 5))) by lra.
  split; nra.
Qed.

Section projection.
Context {D : Type} `{FpuLaws D}.

Lemma Qtrunc_near q : - (1) < inject_Z (Qtrunc q) - q < 1.
Proof.
  unfold Qtrunc. destruct (Qle_bool 0 q) eqn:E.
  - pose proof (Qfloor_le q). pose proof (Qlt_floor q) as Hf. rewrite inject_Z_plus in Hf. change (inject_Z 1) with 1 in Hf. lra.
  - pose proof (Qle_ceiling q). pose proof (Qceiling_lt q) as Hf. unfold Z.sub in Hf. rewrite inject_Z_plus in Hf. change (inject_Z (- (1))) with (- (1)) in Hf. change (inject_Z 1) with 1 in Hf. lra.
Qed.

(** One coordinate. *)
Lemma coordinate x z z' (dx dz : D) (w : Z) :
  - ((82 # 100) * (z + 5)) <= x <= (82 # 100) * (z + 5) -> (18 # 10) <= z + 5 <= 9 ->
  acc (8 # 10000) x dx -> value dz = Some z' -> - (9 # 10000) <= z' - (z + 5) <= 9 # 10000 ->
  (0 <= w <= 2 ^ 28)%Z ->
  exists X, (forall s : screen, to_int (fadd (fmul dx (fdiv (lit 300) dz)) (fmul (lit (inject_Z w)) (lit (1#2)))) s = Done (X, s)) /\
    (- 494 <= 2 * X - w <= 494)%Z.
Proof.
  intros Hx Hz Hdx Edz Hz' Hw.
  destruct (lit_acc 300 ltac:(unfold small; lra)) as (t & Et & Ht). unfold eps in Ht.
  assert (~ z' == 0) as Hz0 by lra.
  set (r := t / z').
  assert (r * z' == t) as Hr by (unfold r; field; done).
  assert (0 <= r <= 168) as Hr' by (split; nra).
  assert (small r) as Hsr by (unfold small; lra).
  pose proof (acc_rounded _ _ Hsr (div_near _ _ _ _ Et Edz Hz0 (small_moderate _ Hsr))) as Hd.
  pose proof (mul_acc _ _ 8 168 _ _ _ _ Hdx Hd ltac:(lra) ltac:(unfold eps; lra) ltac:(lra) ltac:(lra) ltac:(lra)) as Hm.
  assert (- (2463 # 10) <= x * r <= 2463 # 10) as Hxr by (split; nra).
  assert (0 <= inject_Z w <= 268435456 # 1) as HW.
  { split; [change 0 with (inject_Z 0)|change (268435456 # 1) with (inject_Z (2 ^ 28))]; rewrite <-Zle_Qle; lia. }
  assert (acc (1 # 1000) (inject_Z w * (1 # 2)) (fmul (lit (inject_Z w)) (lit (1#2)))) as Hh.
  { assert (acc (2 # 1125899906842624) (1 # 2) (lit (1 # 2))) as Hl.
    { apply (acc_weaken _ _ _ _ _ (lit_near (1 # 2) ltac:(unfold moderate; lra))); vm_compute; discriminate. }
    pose proof (lit_acc (inject_Z w) ltac:(unfold small; lra)) as Hl'.
    apply (acc_weaken _ _ _ _ _ (mul_acc _ _ (268435456 # 1) 1 _ _ _ _ Hl' Hl ltac:(unfold eps; lra) ltac:(lra) ltac:(lra)
      ltac:(lra) ltac:(lra))); unfold eps; lra. }
  pose proof (add_acc _ _ _ _ _ _ Hm Hh ltac:(unfold eps; lra) ltac:(lra) ltac:(lra)) as (q & Eq & Hq).
  unfold to_int. rewrite Eq. pose proof (Qtrunc_near q) as Ht'. unfold eps in Hq.
  assert (- (495 # 1) < inject_Z (2 * Qtrunc q - w) < 495 # 1) as Hb.
  { unfold Z.sub. rewrite inject_Z_plus, inject_Z_mult, inject_Z_opp. change (inject_Z 2) with 2. lra. }
  change (495 # 1) with (inject_Z 495) in Hb. rewrite <-inject_Z_opp, <-!Zlt_Qlt in Hb.
  exists (Qtrunc q). split; [|lia]. intros s. apply int_of_ok. unfold INT_MAX. lia.
Qed.

(** Every vertex is in front of the eye. *)
Lemma projected ax ay az v w h : angle ax -> angle ay -> angle az -> in_figure v ->
  (0 <= w <= 2 ^ 28)%Z -> (0 <= h <= 2 ^ 28)%Z ->
  exists X Y, (forall s, project_vertex w h (transform_vertex v (make_rotation ax ay az)) (lit 5) s = Done (Some (X, Y), s)) /\
    (- 494 <= 2 * X - w <= 494)%Z /\ (- 494 <= 2 * Y - h <= 494)%Z.
Proof.
  intros Hax Hay Haz Hv Hw Hh.
  destruct (transformed_near _ _ _ _ Hax Hay Haz Hv) as (x & y & z & Hxz & Hyz & Nx & Ny & Nz).
  destruct (transform_vertex v (make_rotation ax ay az)) as [[v0 v1] v2]. cbn [fst snd] in *.
  pose proof (Qsquare_nonneg x). pose proof (Qsquare_nonneg (z + (32 # 10))). pose proof (Qsquare_nonneg (z - (32 # 10))).
  assert (- (32 # 10) <= z <= 32 # 10) as Bz by lra.
  destruct (add_acc _ _ _ _ _ _ Nz (lit_acc 5 ltac:(unfold small; lra)) ltac:(lra) ltac:(unfold eps; lra) ltac:(lra))
    as (z' & Ez & Hz). unfold eps in Hz.
  destruct (lit_acc 0 ltac:(unfold small; lra)) as (o & Eo & Ho). unfold eps in Ho.
  destruct (coordinate x z z' v0 _ w (ball_slope _ _ Hxz) ltac:(lra) Nx Ez ltac:(lra) Hw) as (X & EX & BX).
  destruct (coordinate y z z' v1 _ h (ball_slope _ _ Hyz) ltac:(lra) Ny Ez ltac:(lra) Hh) as (Y & EY & BY).
  exists X, Y. split; [|done]. intros s. unfold project_vertex.
  rewrite (fle_exact _ _ _ _ Ez Eo). destruct (Qle_bool z' o) eqn:Ele; [apply Qle_bool_iff in Ele; lra|].
  rewrite (bind_eq _ _ _ _ _ (EX s)), (bind_eq _ _ _ _ _ (EY s)). done.
Qed.

(** ** Angles *)

Definition bounded (d : D) : Prop := exists t, value d = Some t /\ - (1 # 10) <= t <= 63 # 10.

Lemma bounded_angle d : bounded d -> angle d.
Proof. intros (t & Et & Ht). exists t. split; [done|]. lra. Qed.

Lemma turn_bounded d by_ : bounded d -> 1 # 100 <= by_ <= 15 # 1000 -> bounded (turn d by_).
Proof.
  intros (t & Et & Ht) Hb. unfold turn, two_pi.
  destruct (lit_acc by_ ltac:(unfold small; lra)) as (b & Eb & Hb').
  destruct (lit_acc (628318530717958647692 # 100000000000000000000) ltac:(unfold small; lra)) as (p & Ep & Hp).
  assert (small (t + b)) as Hs by (unfold small, eps in *; lra).
  destruct (acc_rounded _ _ Hs (add_near _ _ _ _ Et Eb (small_moderate _ Hs))) as (u & Eu & Hu).
  rewrite (fle_exact _ _ _ _ Ep Eu). destruct (Qle_bool p u) eqn:E.
  - apply Qle_bool_iff in E.
    assert (small (u - p)) as Hs' by (unfold small, eps in *; lra).
    destruct (acc_rounded _ _ Hs' (sub_near _ _ _ _ Eu Ep (small_moderate _ Hs'))) as (r & Er & Hr).
    exists r. split; [done|]. unfold eps in *. lra.
  - exists u. split; [done|]. assert (u < p) as Hlt; [|unfold eps in *; lra].
    apply Qnot_le_lt. intros Hle. apply Qle_bool_iff in Hle. congruence.
Qed.

Definition all_bounded (a : angles D) : Prop :=
  bounded a.(angle_x) /\ bounded a.(angle_y) /\ bounded a.(angle_z).

Lemma turn_all_bounded a : all_bounded a -> all_bounded (turn_all a).
Proof. intros (Hx & Hy & Hz). split; [|split]; apply turn_bounded; (done || lra). Qed.

Lemma start_bounded : all_bounded (mk_angles (lit 0) (lit 0) (lit 0)).
Proof.
  assert (bounded (lit 0)); [|done]. destruct (lit_acc 0 ltac:(unfold small; lra)) as (o & Eo & Ho).
  exists o. split; [done|]. unfold eps in Ho. lra.
Qed.

Lemma vertices_in_figure : Forall in_figure vertices.
Proof. repeat constructor; vm_compute; discriminate. Qed.
End projection.

(** ** A unit with the laws *)

Module Fixed.
(** The multiple of [2^-64] below. *)
Definition grid (q : Q) : Q := Qfloor (q * (18446744073709551616 # 1)) # 18446744073709551616.

Lemma grid_near q : 0 <= q - grid q <= 1 # 18446744073709551616.
Proof.
  assert (grid q == inject_Z (Qfloor (q * (18446744073709551616 # 1))) * (1 # 18446744073709551616)) as ->
    by (unfold grid, Qeq; cbn; lia).
  pose proof (Qfloor_le (q * (18446744073709551616 # 1))) as Hl.
  pose proof (Qlt_floor (q * (18446744073709551616 # 1))) as Hu.
  rewrite inject_Z_plus in Hu. change (inject_Z 1) with 1 in Hu. lra.
Qed.

(** The point of the unit circle with parameter [t]. *)
#[export] Instance fixed : Fpu Q := {
  value := Some;
  lit := grid;
  fadd a b := grid (a + b);
  fsub a b := grid (a - b);
  fmul a b := grid (a * b);
  fdiv a b := grid (a / b);
  fneg a := - a;
  fsin t := grid (2 * t / (1 + t * t));
  fcos t := grid ((1 - t * t) / (1 + t * t));
  fle a b := Qle_bool a b;
}.

Lemma grid_acc q : acc (rounding q) q (grid q).
Proof.
  exists (grid q). split; [done|]. pose proof (grid_near q). unfold rounding.
  assert (0 <= Qabs q) by apply Qabs_nonneg. lra.
Qed.

Lemma grid_circle s c : s * s + c * c == 1 -> circle (grid s) (grid c).
Proof.
  intros Hc. unfold circle. pose proof (grid_near s). pose proof (grid_near c).
  assert (forall a b, a * a + b * b == 1 -> - (1) <= a <= 1) as Hone.
  { intros a b Hab. pose proof (Qsquare_nonneg b). split; nra. }
  assert (forall a, - (1) <= a <= 1 -> - (1 # 10000000) <= grid a * grid a - a * a <= 1 # 10000000) as Hd.
  { intros a Ha. pose proof (grid_near a).
    pose proof (product_bound (grid a - a) (1 # 18446744073709551616) (grid a + a) 3 ltac:(lra) ltac:(lra)).
    assert (grid a * grid a - a * a == (grid a - a) * (grid a + a)) as -> by ring. lra. }
  pose proof (Hd s (Hone s c Hc)). pose proof (Hd c (Hone c s ltac:(rewrite <-Hc; ring))). lra.
Qed.

#[export] Instance fixed_laws : FpuLaws Q.
Proof.
  split.
  - intros q _. apply grid_acc.
  - intros a b x y [= ->] [= ->] _. apply grid_acc.
  - intros a b x y [= ->] [= ->] _. apply grid_acc.
  - intros a b x y [= ->] [= ->] _. apply grid_acc.
  - intros a b x y [= ->] [= ->] _ _. apply grid_acc.
  - intros a x [= ->]. exists (- x). split; [done|]. lra.
  - by intros a b x y [= ->] [= ->].
  - intros a t [= ->] _. eexists _, _. split; [reflexivity|]. split; [reflexivity|].
    apply grid_circle. pose proof (Qsquare_nonneg t). field. intros E. lra.
Qed.
End Fixed.
