(* ===== verification/DemoFacts.v ===== *)
(** * Frames of the demo

    Drawing a list of pixels as a function on the cells of a pixel array
    ([stroke]), the edges of the figure as strokes, the copies between the
    arrays, and the printing of the frame time. *)

From S2P Require Import Prelude Graphics GraphicsFacts Stdio StdioFacts Demo.

(** ** Code that does not panic and keeps the length of every array *)

Definition same_lengths (s s' : screen) : Prop :=
  forall a, px_len <$> s'.(vram) !! a = px_len <$> s.(vram) !! a.

Definition steady {A : Type} (m : M screen A) : Prop := forall s,
  match m s with Done (_, s') => same_lengths s s' | Panicked _ => False | Fault => True end.

Lemma steady_bind {A B : Type} (m : M screen A) (f : A -> M screen B) :
  steady m -> (forall a, steady (f a)) -> steady (m ≫= f).
Proof.
  intros Hm Hf s. unfold mbind, M_bind. specialize (Hm s). destruct (m s) as [[a t]| |]; [|done..].
  specialize (Hf a t). destruct (f a t) as [[b u]| |]; [|done..]. intros x. by rewrite Hf.
Qed.
Lemma steady_ret {A : Type} (a : A) : steady (mret a).
Proof. by intros s. Qed.
Lemma steady_gets {A : Type} (f : screen -> A) : steady (gets f).
Proof. by intros s. Qed.
Lemma steady_modify (f : screen -> screen) : (forall s, (f s).(vram) = s.(vram)) -> steady (modify f).
Proof. intros Hf s x. by rewrite Hf. Qed.
Lemma steady_fault {A : Type} : steady (fault : M screen A).
Proof. by intros s. Qed.
Lemma steady_for_upM (body : Z -> M screen unit) n : (forall k, steady (body k)) -> forall i, steady (for_upM n i body).
Proof. intros Hb. induction n as [|n IH]; intros i; [apply steady_ret|]. by apply steady_bind. Qed.

Lemma lengths_insert a o c s : s.(vram) !! a = Some o ->
  same_lengths s (set_vram (<[a := mk_pixels o.(px_len) c]> s.(vram)) s).
Proof.
  intros Ho x. cbn. destruct (decide (x = a)) as [->|]; [by rewrite lookup_insert_eq, Ho|by rewrite lookup_insert_ne].
Qed.
Lemma steady_store_px a i v : steady (store_px a i v).
Proof.
  intros s. unfold store_px. destruct (vram s !! a) as [o|] eqn:Ho; [|done].
  destruct (_ && _); [by apply lengths_insert|done].
Qed.
Lemma steady_move_down a off n : steady (move_down a off n).
Proof.
  intros s. unfold move_down. destruct (vram s !! a) as [o|] eqn:Ho; [|by destruct (_ =? _)].
  destruct (_ <=? _); [by apply lengths_insert|done].
Qed.

Create HintDb steady.
#[export] Hint Resolve steady_ret steady_gets steady_fault steady_store_px steady_move_down : steady.
#[export] Hint Extern 1 (steady (modify _)) => (by apply steady_modify) : steady.

Ltac steady := repeat first
  [ progress intros | progress cbv zeta | progress auto with steady nocore
  | match goal with |- context [match ?x with _ => _ end] => destruct x end | apply steady_bind | apply steady_for_upM ].

Lemma steady_put_pixel x y c : steady (put_pixel x y c).
Proof. unfold put_pixel, plot. steady. Qed.
#[export] Hint Resolve steady_put_pixel : steady.

Lemma steady_term_scroll bg font : steady (term_scroll bg font).
Proof. unfold term_scroll. steady. Qed.
#[export] Hint Resolve steady_term_scroll : steady.

Lemma steady_Putchar c fg bg font : steady (Putchar c fg bg font).
Proof. unfold Putchar, serial_putchar, ln, draw_glyph, erase_cell, load_glyph. steady. Qed.
#[export] Hint Resolve steady_Putchar : steady.

Lemma steady_print_char l : steady (print_char l).
Proof. induction l as [|c l IH]; cbn [print_char]; unfold putc; steady. Qed.

(** ** The frame time *)

Lemma frame_time_prints v fb s : s.(framebuffer_pb) = Some fb ->
  frame_time v s = print_char (L "FT: " ++ dec (u32 v) ++ [13]) s.
Proof.
  intros Hpb. unfold frame_time, print. rewrite (bind_eq _ _ _ _ _ (gets_eq framebuffer_pb s)), Hpb.
  rewrite print_loop_expand; [|cbn; lia|constructor; [apply Z.mod_pos_bound; lia|constructor]].
  assert (u32 (u32 v) = u32 v) as Hu by (apply Z.mod_mod; lia).
  replace (parse _ _) with [Raw [70]; Raw [84]; Raw [58]; Raw [32]; Unsigned; Raw [13]] by reflexivity.
  unfold finish. cbn [expand fst snd]. rewrite Hu. change (L "FT: ") with [70; 84; 58; 32]. cbn [app]. unfold mbind, M_bind. by destruct (print_char _ s) as [[[] t]| |].
Qed.

(** Printing changes the frame buffer, the cursor and the serial output. *)
Lemma frame_time_runs v fb s : fb_ok s fb -> font_ok s.(current_font) ->
  exists s', frame_time v s = Done (tt, s') /\ fb_ok s' fb /\ keeps fb s s' /\ same_lengths s s' /\
    s'.(serial_out) = s.(serial_out) ++ map u8 (L "FT: " ++ dec (u32 v) ++ [13]).
Proof.
  intros Hok Hf. rewrite (frame_time_prints v fb s (proj1 Hok)). set (text := L "FT: " ++ _).
  pose proof (safe_print_char fb s _ text Hf eq_refl s.(cursor_x) s.(cursor_y) s.(serial_out) s) as Hs.
  specialize (Hs ltac:(split_and!; try done; reflexivity)).
  pose proof (steady_print_char text s) as Hc.
  destruct (print_char text s) as [[[] s']|w|]; [|done..].
  exists s'. destruct Hs as (H1 & H2 & _ & _ & H5). done.
Qed.

(** ** Strokes *)

(** The array at [a] becomes [o]. *)
Definition set_obj (a : Z) (o : pixels) (s : screen) : screen := set_vram (<[a := o]> s.(vram)) s.

Lemma set_obj_same a o s : s.(vram) !! a = Some o -> set_obj a o s = s.
Proof. intros Ho. unfold set_obj, set_vram. rewrite insert_id by done. by destruct s. Qed.

Lemma set_obj_twice a o o' s : set_obj a o' (set_obj a o s) = set_obj a o' s.
Proof. unfold set_obj, set_vram. cbn. by rewrite insert_insert_eq. Qed.

Lemma set_obj_get a o s : (set_obj a o s).(vram) !! a = Some o.
Proof. cbn. apply lookup_insert_eq. Qed.

(** The pixel [p] is on the screen, in the cell [i]. *)
Definition inked (fb : framebuffer_t) (i : Z) (p : Z * Z) : Prop :=
  0 <= p.1 < fb.(fb_width) /\ 0 <= p.2 < fb.(fb_height) /\ i = p.2 * fb.(fb_pitch) + p.1.
#[export] Instance inked_dec fb i p : Decision (inked fb i p).
Proof. unfold inked. apply _. Defined.

Definition ink (fb : framebuffer_t) (c : Z) (cells : gmap Z Z) (p : Z * Z) : gmap Z Z :=
  if decide (inked fb (p.2 * fb.(fb_pitch) + p.1) p) then <[p.2 * fb.(fb_pitch) + p.1 := c]> cells else cells.
Definition stroke (fb : framebuffer_t) (c : Z) (l : list (Z * Z)) (cells : gmap Z Z) : gmap Z Z :=
  fold_left (ink fb c) l cells.

Lemma stroke_app fb c l l' cells : stroke fb c (l ++ l') cells = stroke fb c l' (stroke fb c l cells).
Proof. apply fold_left_app. Qed.

Lemma stroke_lookup fb c l i : forall cells,
  stroke fb c l cells !!! i = if decide (Exists (inked fb i) l) then c else cells !!! i.
Proof.
  induction l as [|p l IH]; intros cells; [by rewrite decide_False by (by inversion 1)|].
  cbn [stroke fold_left]. fold (stroke fb c l (ink fb c cells p)). rewrite IH.
  destruct (decide (Exists (inked fb i) l)) as [Hl|Hl]; [by rewrite decide_True by (by right)|].
  unfold ink. destruct (decide (inked fb i p)) as [Hp|Hp].
  - rewrite (decide_True _ (P := Exists (inked fb i) (p :: l))) by (by left).
    pose proof Hp as (_ & _ & <-). rewrite decide_True by done. apply lookup_total_insert_eq.
  - rewrite (decide_False _ (P := Exists (inked fb i) (p :: l))) by (by inversion 1).
    destruct (decide _) as [(Hx & Hy & _)|]; [|done]. apply lookup_total_insert_ne.
    intros E. apply Hp. done.
Qed.

Section strokes.
Context (fb : framebuffer_t) (c : Z) (len : Z).
Context (Hfit : forall cells, fb_fits fb (mk_pixels len cells)).
Context (Hw : fb.(fb_width) <= 2 ^ 28) (Hh : fb.(fb_height) <= 2 ^ 28).

Definition near_screen (p : Z * Z) : Prop := - 2 ^ 30 <= p.1 <= 2 ^ 30 /\ - 2 ^ 30 <= p.2 <= 2 ^ 30.

Lemma u32_near z : - 2 ^ 30 <= z <= 2 ^ 30 -> u32 z = (if 0 <=? z then z else z + 2 ^ 32).
Proof.
  intros Hz. unfold u32. destruct (Z.leb_spec 0 z); [apply Z.mod_small; lia|].
  symmetry. apply (Z.mod_unique _ _ (-1)); lia.
Qed.

Lemma plot_ink p cells s : near_screen p -> s.(vram) !! fb.(fb_address) = Some (mk_pixels len cells) ->
  plot fb (u32 p.1) (u32 p.2) c s = Done (tt, set_obj fb.(fb_address) (mk_pixels len (ink fb c cells p)) s).
Proof.
  intros [Hx Hy] Ho. pose proof (Hfit cells) as Hf. unfold plot, ink. rewrite !u32_near by done.
  destruct (decide (inked fb (p.2 * fb.(fb_pitch) + p.1) p)) as [(Ix & Iy & _)|Hn].
  - destruct (Z.leb_spec 0 p.1); [|lia]. destruct (Z.leb_spec 0 p.2); [|lia].
    destruct (Z.leb_spec fb.(fb_width) p.1); [lia|]. destruct (Z.leb_spec fb.(fb_height) p.2); [lia|]. cbn [orb].
    destruct (px_index fb _ p.1 p.2 Hf Ix Iy) as [-> Hi]. unfold store_px. rewrite Ho.
    pose proof (fit_len _ _ Hf) as Hlen. cbn [px_len] in Hlen |- *.
    destruct (Z.leb_spec 0 (p.2 * fb.(fb_pitch) + p.1)); [|lia].
    destruct (Z.ltb_spec (p.2 * fb.(fb_pitch) + p.1) len); [done|lia].
  - rewrite set_obj_same by done.
    assert ((fb.(fb_width) <=? (if 0 <=? p.1 then p.1 else p.1 + 2 ^ 32))
      || (fb.(fb_height) <=? (if 0 <=? p.2 then p.2 else p.2 + 2 ^ 32)) = true) as ->; [|done].
    unfold inked in Hn. apply orb_true_iff. rewrite !Z.leb_le.
    destruct (Z.leb_spec 0 p.1), (Z.leb_spec 0 p.2); lia.
Qed.

Lemma plot_all_stroke l : Forall near_screen l -> forall cells s g,
  s.(framebuffer_pb) = Some g -> s.(vram) !! fb.(fb_address) = Some (mk_pixels len cells) ->
  plot_all (fun x y => put_pixel_q (Some fb) x y c) l s =
    Done (tt, set_obj fb.(fb_address) (mk_pixels len (stroke fb c l cells)) s).
Proof.
  induction 1 as [|[x y] l Hp _ IH]; intros cells s g Hg Ho; cbn [plot_all].
  - by rewrite set_obj_same.
  - assert (put_pixel_q (Some fb) (u32 x) (u32 y) c s
      = Done (tt, set_obj fb.(fb_address) (mk_pixels len (ink fb c cells (x, y))) s)) as E.
    { unfold put_pixel_q. rewrite (bind_eq _ _ _ _ _ (gets_eq framebuffer_pb s)), Hg. by apply (plot_ink (x, y)). }
    rewrite (bind_eq _ _ _ _ _ E), (IH (ink fb c cells (x, y)) _ g); [|done|apply set_obj_get].
    by rewrite set_obj_twice.
Qed.
End strokes.

(** ** The edges *)

Lemma path_within dx dy i j l : line_path dx dy i j l -> 0 <= dx -> 0 <= dy ->
  Forall (fun p => 0 <= p.1 <= dx /\ 0 <= p.2 <= dy) l.
Proof.
  intros Hl Hx Hy. induction Hl as [|i j i' j' l Hon Hmv Hl IH].
  - constructor; [cbn; lia|constructor].
  - constructor; [|done]. destruct Hon as (? & ? & _). done.
Qed.

(** [l] is the line between two points: the nearest-pixel path from the first
    to the second. *)
Definition line_of (p q : Z * Z) (l : list (Z * Z)) : Prop :=
  exists path, line_path (Z.abs (q.1 - p.1)) (Z.abs (q.2 - p.2)) 0 0 path /\
    l = map (place p.1 p.2 (if p.1 <? q.1 then 1 else -1) (if p.2 <? q.2 then 1 else -1)) path.

(** Points around the middle of the screen. *)
Definition central (w h : Z) (p : Z * Z) : Prop := - 494 <= 2 * p.1 - w <= 494 /\ - 494 <= 2 * p.2 - h <= 494.

Lemma line_central w h p q l : central w h p -> central w h q -> line_of p q l -> Forall (central w h) l.
Proof.
  intros [Px Py] [Qx Qy] (path & Hp & ->). apply path_within in Hp; [|lia..].
  apply Forall_fmap. eapply Forall_impl; [exact Hp|]. intros [i j] [Hi Hj]. cbn [fst snd] in *.
  unfold compose, central, place. cbn [fst snd].
  destruct (Z.ltb_spec p.1 q.1), (Z.ltb_spec p.2 q.2); lia.
Qed.

Section edges.
Context (fb : framebuffer_t) (len : Z).
Context (Hfit : forall cells, fb_fits fb (mk_pixels len cells)).
Context (w h : Z) (Hw : 0 <= w <= 2 ^ 28) (Hh : 0 <= h <= 2 ^ 28).
Context (Hfw : fb.(fb_width) <= 2 ^ 28) (Hfh : fb.(fb_height) <= 2 ^ 28).
Context (points : list (Z * Z)) (Hpts : Forall (central w h) points).

(** The strokes of the edges. *)
Inductive strokes_of : list (nat * nat) -> list (Z * Z) -> Prop :=
  | strokes_nil : strokes_of [] []
  | strokes_cons a b p q es l ls :
      points !! a = Some p -> points !! b = Some q -> line_of p q l ->
      strokes_of es ls -> strokes_of ((a, b) :: es) (l ++ ls).

Lemma strokes_central es ls : strokes_of es ls -> Forall (central w h) ls.
Proof.
  induction 1 as [|a b p q es l ls Ha Hb Hl _ IH]; [constructor|]. apply Forall_app. split; [|done].
  rewrite Forall_lookup in Hpts. exact (line_central w h p q l (Hpts _ _ Ha) (Hpts _ _ Hb) Hl).
Qed.

Lemma central_near p : central w h p -> near_screen p.
Proof. unfold central, near_screen. lia. Qed.

Lemma edge_drawn p q : central w h p -> central w h q -> exists l, line_of p q l /\
  forall cells s g, s.(framebuffer_pb) = Some g -> s.(vram) !! fb.(fb_address) = Some (mk_pixels len cells) ->
    draw_line_q (line_fuel p q) (Some fb) (u32 p.1) (u32 p.2) (u32 q.1) (u32 q.2) 0xDDDDDD s =
      Done (tt, set_obj fb.(fb_address) (mk_pixels len (stroke fb 0xDDDDDD l cells)) s).
Proof.
  intros Hp Hq. pose proof Hp as [Px Py]. pose proof Hq as [Qx Qy].
  destruct (line_drawn (line_fuel p q) (fun x y => put_pixel_q (Some fb) x y 0xDDDDDD) p.1 p.2 q.1 q.2)
    as (path & Hl & E); [unfold LINE_MAX; lia..|unfold line_fuel; lia|].
  eexists. split; [by eexists|]. intros cells s g Hg Ho. unfold draw_line_q. rewrite E.
  eapply plot_all_stroke; [done|done|done| |done|done].
  eapply Forall_impl; [|exact central_near]. eapply line_central; [exact Hp|exact Hq|by eexists].
Qed.

Lemma edges_drawn es : Forall (fun e => (e.1 < length points)%nat /\ (e.2 < length points)%nat) es ->
  exists ls, strokes_of es ls /\
    forall cells s g, s.(framebuffer_pb) = Some g -> s.(vram) !! fb.(fb_address) = Some (mk_pixels len cells) ->
      draw_edges fb (map Some points) es s =
        Done (tt, set_obj fb.(fb_address) (mk_pixels len (stroke fb 0xDDDDDD ls cells)) s).
Proof.
  induction 1 as [|[a b] es [Ha Hb] _ (ls & Hls & E)].
  - exists []. split; [constructor|]. intros cells s g Hg Ho. cbn [draw_edges]. by rewrite set_obj_same.
  - apply lookup_lt_is_Some in Ha as [p Hp]. apply lookup_lt_is_Some in Hb as [q Hq].
    rewrite Forall_lookup in Hpts.
    destruct (edge_drawn p q (Hpts _ _ Hp) (Hpts _ _ Hq)) as (l & Hl & El).
    exists (l ++ ls). split; [by econstructor|]. intros cells s g Hg Ho.
    cbn [draw_edges fst snd] in Hp, Hq |- *. rewrite !list_lookup_fmap, Hp, Hq. cbn [fmap option_fmap option_map].
    rewrite (bind_eq _ _ _ _ _ (El cells s g Hg Ho)), (E (stroke fb 0xDDDDDD l cells) _ g); [|done|apply set_obj_get].
    by rewrite set_obj_twice, stroke_app.
Qed.
End edges.

(** ** The copies *)

Lemma copied_whole n src dst i : 0 <= i -> 4 * i + 3 < n -> copied n src dst !!! i = src !!! i.
Proof.
  intros Hi Hn. unfold copied.
  assert (forall k, 0 <= k -> for_up (Z.to_nat k) 0 (fun i c => <[i := src !!! i]> c) dst !!! i
    = if decide (i < k) then src !!! i else dst !!! i) as Hw.
  { intros k Hk. pattern k. apply natlike_ind; [|clear k Hk; intros k Hk IH|done].
    - by rewrite decide_False by lia.
    - rewrite Z2Nat.inj_succ, for_up_S_r, Z2Nat.id, Z.add_0_l by lia.
      destruct (decide (i = k)) as [->|].
      + rewrite decide_True by lia. apply lookup_total_insert_eq.
      + rewrite lookup_total_insert_ne, IH by done. by destruct (decide (i < k)), (decide (i < Z.succ k)); try lia. }
  assert (i < n / 4) as Hq by (pose proof (Z.div_mod n 4); pose proof (Z.mod_pos_bound n 4); lia).
  cbv zeta. destruct (n mod 4 =? 0); [|rewrite lookup_total_insert_ne by lia];
    rewrite Hw by lia; by rewrite decide_True by lia.
Qed.

Lemma memcpy_px_runs dst src n d o s : s.(vram) !! dst = Some d -> s.(vram) !! src = Some o ->
  n <= 4 * d.(px_len) -> n <= 4 * o.(px_len) ->
  memcpy_px dst src n s = Done (tt, set_obj dst (mk_pixels d.(px_len) (copied n o.(px_cells) d.(px_cells))) s).
Proof.
  intros Hd Ho Ln Lo. unfold memcpy_px. rewrite Hd, Ho.
  destruct (Z.leb_spec n (4 * d.(px_len))); [|lia]. destruct (Z.leb_spec n (4 * o.(px_len))); [done|lia].
Qed.
