(* ===== verification/DemoTheorems.v ===== *)
(** * The properties of the demo

    A frame shows the figure over the saved screen; the loop goes on for any
    number of frames. *)

From Stdlib Require Import QArith Qabs Lqa.
From S2P Require Import Prelude Graphics GraphicsFacts FontData GraphicsTheorems Stdio StdioFacts Demo DemoFpu DemoPoints DemoFacts.

Open Scope Z_scope.

(** Cell [i] of the array at [a]. *)
Definition px (s : screen) (a i : Z) : Z :=
  match s.(vram) !! a with Some o => o.(px_cells) !!! i | None => 0 end.

(** An array that [n] bytes fit in. *)
Definition holds (s : screen) (a n : Z) : Prop :=
  exists o, s.(vram) !! a = Some o /\ n <= 4 * o.(px_len) /\ o.(px_len) < 2 ^ 61.

(** The frame buffer and the demo's two copies of it. *)
Record arena (s : screen) (fb : framebuffer_t) (back bg n : Z) : Prop := {
  ar_pb : s.(framebuffer_pb) = Some fb;
  ar_front : holds s fb.(fb_address) n;
  ar_back : holds s back n;
  ar_bg : holds s bg n;
  ar_apart : back <> fb.(fb_address) /\ bg <> fb.(fb_address) /\ back <> bg;
  ar_width : 0 <= fb.(fb_width) <= fb.(fb_pitch) /\ fb.(fb_width) <= 2 ^ 28;
  ar_height : 0 <= fb.(fb_height) <= 2 ^ 28;
  ar_size : 4 * (fb.(fb_height) * fb.(fb_pitch)) <= n;
}.

Lemma px_set_obj s a o i : px (set_obj a o s) a i = o.(px_cells) !!! i.
Proof. unfold px. by rewrite set_obj_get. Qed.
Lemma set_obj_other s a o x : x <> a -> (set_obj a o s).(vram) !! x = s.(vram) !! x.
Proof. intros Hx. cbn. by apply lookup_insert_ne. Qed.
Lemma px_set_other s a o x i : x <> a -> px (set_obj a o s) x i = px s x i.
Proof. intros Hx. unfold px. by rewrite set_obj_other. Qed.

(** Changes of cells keep the arena. *)
Lemma arena_lengths s s' fb back bg n : arena s fb back bg n -> s'.(framebuffer_pb) = s.(framebuffer_pb) ->
  same_lengths s s' -> arena s' fb back bg n.
Proof.
  intros [] Hpb Hl.
  assert (forall a, holds s a n -> holds s' a n) as Hh.
  { intros a (o & Ho & Hn). specialize (Hl a). rewrite Ho in Hl.
    destruct (s'.(vram) !! a) as [o'|] eqn:Ho'; [|done]. injection Hl as Hl.
    exists o'. split; [done|]. by rewrite Hl. }
  split; auto. congruence.
Qed.

Lemma arena_fb_ok s fb back bg n : arena s fb back bg n -> fb_ok s fb.
Proof. intros [Hpb (o & Ho & Hn) _ _ _ [Hw _] Hh Hs]. split; [done|]. exists o. split; [done|]. split; lia. Qed.

Lemma same_lengths_trans s s1 s2 : same_lengths s s1 -> same_lengths s1 s2 -> same_lengths s s2.
Proof. intros H1 H2 a. by rewrite H2. Qed.

(** ** A frame *)

Section frame.
Context {D : Type} `{FpuLaws D}.

Definition rotation_of (a : angles D) : vec * vec * vec := make_rotation a.(angle_x) a.(angle_y) a.(angle_z).

Lemma all_projected a w h l : all_bounded a -> 0 <= w <= 2 ^ 28 -> 0 <= h <= 2 ^ 28 -> Forall in_figure l ->
  exists pts, length pts = length l /\ Forall (central w h) pts /\
    forall s, project_all w h (rotation_of a) l s = Done (map Some pts, s).
Proof.
  intros Ha Hw Hh. pose proof Ha as (Ax & Ay & Az).
  induction 1 as [|v l Hv _ (pts & Hlen & Hc & E)]; [by exists []|].
  destruct (projected _ _ _ v w h (bounded_angle _ Ax) (bounded_angle _ Ay) (bounded_angle _ Az) Hv Hw Hh)
    as (X & Y & EX & BX & BY).
  exists ((X, Y) :: pts). split; [by cbn; rewrite Hlen|]. split; [by constructor|]. intros s. cbn [project_all].
  unfold rotation_of in *. rewrite (bind_eq _ _ _ _ _ (EX s)), (bind_eq _ _ _ _ _ (E s)). done.
Qed.

(** The pixels of the figure at the angles [a] on a screen of [w] x [h]: the
    lines of the edges between the projected vertices. *)
Definition figure (w h : Z) (a : angles D) (ls : list (Z * Z)) : Prop :=
  exists points, length points = length vertices /\
    (forall s, project_all w h (rotation_of a) vertices s = Done (map Some points, s)) /\
    strokes_of points edges ls.

(** What a frame does to the store. *)
Lemma render_eq a fb back bg n s : arena s fb back bg n -> all_bounded a ->
  exists ls f b, figure fb.(fb_width) fb.(fb_height) a ls /\ Forall (central fb.(fb_width) fb.(fb_height)) ls /\
    render fb.(fb_width) fb.(fb_height) (mk_framebuffer fb.(fb_width) fb.(fb_height) fb.(fb_pitch) back) bg n a s =
      Done (tt, set_obj fb.(fb_address) f (set_obj back b s)) /\
    same_lengths s (set_obj fb.(fb_address) f (set_obj back b s)) /\
    forall i, 0 <= i -> 4 * i + 3 < n ->
      f.(px_cells) !!! i = if decide (Exists (inked fb i) ls) then 0xDDDDDD else px s bg i.
Proof.
  intros [Hpb (o1 & Of & Lf) (o2 & Ob & Lb) (o3 & Og & Lg) (Hbf & Hgf & Hbg) [Hw Hw'] Hh Hs] Ha.
  set (bfb := mk_framebuffer fb.(fb_width) fb.(fb_height) fb.(fb_pitch) back).
  set (w := fb.(fb_width)) in *. set (h := fb.(fb_height)) in *.
  destruct (all_projected a w h vertices Ha ltac:(lia) ltac:(lia) vertices_in_figure) as (points & Hlen & Hc & Ep).
  assert (forall cells, fb_fits bfb (mk_pixels o2.(px_len) cells)) as Hfit by (intros cells; split; cbn; fold h; lia).
  destruct (edges_drawn bfb o2.(px_len) Hfit w h ltac:(lia) ltac:(lia) ltac:(cbn; fold w; lia) ltac:(cbn; fold h; lia)
    points Hc edges) as (ls & Hls & Ee).
  { rewrite Hlen. cbn. repeat constructor; cbn; lia. }
  set (c0 := copied n o3.(px_cells) o2.(px_cells)). set (c1 := stroke bfb 0xDDDDDD ls c0).
  exists ls, (mk_pixels o1.(px_len) (copied n c1 o1.(px_cells))), (mk_pixels o2.(px_len) c1).
  split; [by exists points|]. split; [by eapply strokes_central|]. split; [|split].
  - unfold render. cbn [fb_address bfb].
    rewrite (bind_eq _ _ _ _ _ (memcpy_px_runs back bg n o2 o3 s Ob Og ltac:(lia) ltac:(lia))). fold c0.
    rewrite (bind_eq _ _ _ _ _ (Ep _)).
    rewrite (bind_eq _ _ _ _ _ (Ee c0 (set_obj back (mk_pixels o2.(px_len) c0) s) fb Hpb (set_obj_get _ _ _))). cbn [fb_address bfb]. rewrite set_obj_twice. fold c1.
    rewrite (bind_eq _ _ _ _ _ (gets_eq framebuffer_pb _)). cbn [framebuffer_pb set_obj set_vram]. rewrite Hpb.
    eapply (memcpy_px_runs _ back n o1 (mk_pixels o2.(px_len) c1)); [|apply set_obj_get|lia|cbn; lia].
    by rewrite set_obj_other.
  - intros x. destruct (decide (x = fb.(fb_address))) as [->|]; [by rewrite set_obj_get, Of|]. rewrite set_obj_other by done.
    destruct (decide (x = back)) as [->|]; [by rewrite set_obj_get, Ob|by rewrite set_obj_other].
  - intros i Hi Hn. cbn [px_cells]. rewrite copied_whole by done. unfold c1. rewrite stroke_lookup.
    unfold inked. cbn [fb_width fb_height fb_pitch bfb].
    destruct (decide _) as [Hd|Hd]; [done|].
    unfold c0. rewrite copied_whole by done. unfold px. by rewrite Og.
Qed.

(** ** The loop *)

(** What the frames from the [i]-th on send to the serial port. *)
Fixpoint frame_log (frames : nat) (clock : nat -> Z) (i : nat) : list Z :=
  match frames with
  | O => []
  | S k => map u8 (L "FT: " ++ dec (u32 (u64 (clock (S i) - clock i))) ++ [13]) ++ frame_log k clock (S i)
  end.

(** Between frames: the angles and the arrays are as they should be. *)
Record drawing (s0 : screen) (fb : framebuffer_t) (back bg n : Z) (log : list Z) (s : screen) : Prop := {
  dr_arena : arena s fb back bg n;
  dr_font : s.(current_font) = s0.(current_font);
  dr_other : forall x, x <> fb.(fb_address) -> x <> back -> s.(vram) !! x = s0.(vram) !! x;
  dr_serial : s.(serial_out) = s0.(serial_out) ++ log;
}.

Definition copy_of (fb : framebuffer_t) (back : Z) : framebuffer_t :=
  mk_framebuffer fb.(fb_width) fb.(fb_height) fb.(fb_pitch) back.

Lemma frame_drawn s0 fb back bg n log s a v : drawing s0 fb back bg n log s -> font_ok s0.(current_font) ->
  all_bounded a -> exists s',
    (_ ← render fb.(fb_width) fb.(fb_height) (copy_of fb back) bg n a; frame_time v) s = Done (tt, s') /\
    drawing s0 fb back bg n (log ++ map u8 (L "FT: " ++ dec (u32 v) ++ [13])) s'.
Proof.
  intros [Ha Hfont Hother Hser] Hf Hb.
  destruct (render_eq a fb back bg n s Ha Hb) as (ls & f & b & _ & _ & E & Hlen & _).
  set (s1 := set_obj fb.(fb_address) f (set_obj back b s)) in *.
  assert (arena s1 fb back bg n) as A1 by (eapply arena_lengths; [exact Ha|done|exact Hlen]).
  destruct (frame_time_runs v fb s1 (arena_fb_ok _ _ _ _ _ A1) ltac:(cbn; by rewrite Hfont)) as (s2 & E2 & _ & K2 & L2 & S2).
  exists s2. split; [by rewrite (bind_eq _ _ _ _ _ E)|]. split.
  - eapply arena_lengths; [exact A1|by destruct K2|exact L2].
  - rewrite (kp_font _ _ _ K2). exact Hfont.
  - intros x Hx Hxb. rewrite (kp_other _ _ _ K2) by done. unfold s1. rewrite !set_obj_other by done. by apply Hother.
  - rewrite S2. change (serial_out s1) with (serial_out s). by rewrite Hser, <-app_assoc.
Qed.

Lemma demo_loop_runs fb back bg n clock s0 : font_ok s0.(current_font) -> forall frames i a s log,
  drawing s0 fb back bg n log s -> all_bounded a ->
  exists a' s', demo_loop frames clock fb.(fb_width) fb.(fb_height) (copy_of fb back) bg n i a s = Done (a', s') /\
    all_bounded a' /\ drawing s0 fb back bg n (log ++ frame_log frames clock i) s'.
Proof.
  intros Hf frames. induction frames as [|k IH]; intros i a s log Hd Ha; cbn [demo_loop frame_log].
  - exists a, s. by rewrite app_nil_r.
  - pose proof (turn_all_bounded a Ha) as Ha'.
    destruct (frame_drawn _ _ _ _ _ _ _ _ (u64 (clock (S i) - clock i)) Hd Hf Ha') as (s1 & E1 & D1).
    destruct (IH (S i) _ _ _ D1 Ha') as (a2 & s2 & E2 & A2 & D2).
    exists a2, s2. rewrite <-app_assoc in D2. split; [|done].
    rewrite <-E2. cbv zeta. rewrite <-bind_assoc. by rewrite (bind_eq _ _ _ _ _ E1).
Qed.

(** What the demo relies on of [kmalloc] and [kfree]: NULL, or a fresh array of
    the size asked for; and a block that is freed is gone. *)
Record pixel_heap (kmalloc : Z -> M screen Z) (kfree : Z -> M screen unit) : Prop := {
  ph_kmalloc n s : 0 < n -> kmalloc n s = Done (0, s) \/
    exists a o, kmalloc n s = Done (a, set_obj a o s) /\ a <> 0 /\ s.(vram) !! a = None /\ n <= 4 * o.(px_len) /\ o.(px_len) < 2 ^ 61;
  ph_kfree a s : kfree a s = Done (tt, set_vram (delete a s.(vram)) s);
}.

Lemma set_obj_freed a o s : s.(vram) !! a = None -> set_vram (delete a (set_obj a o s).(vram)) (set_obj a o s) = s.
Proof. intros Ha. unfold set_obj, set_vram. cbn. rewrite delete_insert_id by done. by destruct s. Qed.

(** A screen the demo may run on, with [n] bytes. *)
Record showable (s : screen) (fb : framebuffer_t) (n : Z) : Prop := {
  sh_pb : s.(framebuffer_pb) = Some fb;
  sh_front : holds s fb.(fb_address) n;
  sh_width : 0 <= fb.(fb_width) <= fb.(fb_pitch) /\ fb.(fb_width) <= 2 ^ 28;
  sh_height : 0 <= fb.(fb_height) <= 2 ^ 28;
  sh_size : 4 * (fb.(fb_height) * fb.(fb_pitch)) <= n;
}.

(** The two buffers with the screen in them. *)
Lemma buffers_ready s fb n back bg ob og : showable s fb n -> 0 < n ->
  s.(vram) !! back = None -> n <= 4 * ob.(px_len) /\ ob.(px_len) < 2 ^ 61 ->
  (set_obj back ob s).(vram) !! bg = None -> n <= 4 * og.(px_len) /\ og.(px_len) < 2 ^ 61 ->
  exists s', (_ ← memcpy_px bg fb.(fb_address) n; memcpy_px back bg n) (set_obj bg og (set_obj back ob s)) = Done (tt, s') /\
    drawing s' fb back bg n [] s' /\ s'.(current_font) = s.(current_font) /\ s'.(serial_out) = s.(serial_out) /\
    (forall i, 0 <= i -> 4 * i + 3 < n -> px s' bg i = px s fb.(fb_address) i) /\
    forall x, x <> back -> x <> bg -> s'.(vram) !! x = s.(vram) !! x.
Proof.
  intros [Hpb (o & Ho & Lo) Hw Hh Hs] Hn Fb Lb Fg Lg.
  assert (back <> fb.(fb_address)) as N1 by congruence.
  assert (bg <> back) as N2 by (intros ->; by rewrite set_obj_get in Fg).
  rewrite set_obj_other in Fg by done. assert (bg <> fb.(fb_address)) as N3 by congruence.
  set (s2 := set_obj bg og (set_obj back ob s)).
  assert (s2.(vram) !! fb.(fb_address) = Some o) as Ho2 by (unfold s2; by rewrite !set_obj_other).
  pose proof (memcpy_px_runs bg fb.(fb_address) n og o s2 (set_obj_get _ _ _) Ho2 ltac:(lia) ltac:(lia)) as E1.
  set (og' := mk_pixels _ _) in E1.
  assert ((set_obj bg og' s2).(vram) !! back = Some ob) as Hb2
    by (unfold s2; rewrite !set_obj_other by done; apply set_obj_get).
  pose proof (memcpy_px_runs back bg n ob og' _ Hb2 (set_obj_get _ _ _) ltac:(lia) ltac:(cbn; lia)) as E2.
  set (ob' := mk_pixels _ (copied n og'.(px_cells) _)) in E2.
  set (s' := set_obj back ob' _) in E2.
  exists s'. split; [by rewrite (bind_eq _ _ _ _ _ E1)|].
  assert (forall x, x <> back -> x <> bg -> s'.(vram) !! x = s.(vram) !! x) as Hother
    by (intros x Hx Hxg; unfold s', s2; by rewrite !set_obj_other).
  assert (s'.(vram) !! bg = Some og') as Hbg by (unfold s'; rewrite set_obj_other by done; apply set_obj_get).
  split; [split; [|done|done|by rewrite app_nil_r]|].
  - split; [done| | | |done|done|done|done].
    + exists o. split; [by rewrite Hother|done].
    + exists ob'. split; [apply set_obj_get|done].
    + by exists og'.
  - split; [done|]. split; [done|]. split; [|done]. intros i Hi Hin. unfold px. rewrite Hbg, Ho. unfold og'. cbn [px_cells].
    by apply copied_whole.
Qed.
(** The whole function. *)
Lemma demo_runs kmalloc kfree clock n s fb :
  pixel_heap kmalloc kfree -> showable s fb n -> font_ok s.(current_font) -> 0 <= n ->
  if n =? 0 then forall frames, start_demo_show (D := D) kmalloc kfree frames clock n s = Done (None, s)
  else (forall frames, start_demo_show (D := D) kmalloc kfree frames clock n s = Done (None, s)) \/
  exists back bg, s.(vram) !! back = None /\ s.(vram) !! bg = None /\ forall frames, exists (a : angles D) s',
    start_demo_show kmalloc kfree frames clock n s = Done (Some a, s') /\ all_bounded a /\ arena s' fb back bg n /\
    (forall i, 0 <= i -> 4 * i + 3 < n -> px s' bg i = px s fb.(fb_address) i) /\
    (forall x, x <> fb.(fb_address) -> x <> back -> x <> bg -> s'.(vram) !! x = s.(vram) !! x) /\
    s'.(serial_out) = s.(serial_out) ++ frame_log frames clock 0.
Proof.
  intros Hheap [Hpb Hfront [Hw Hw'] Hh Hs] Hf Hn.
  assert (u32 fb.(fb_width) = fb.(fb_width) /\ u32 fb.(fb_height) = fb.(fb_height)) as [Uw Uh]
    by (unfold u32; split; apply Z.mod_small; lia).
  destruct (Z.eqb_spec n 0) as [->|Hn0].
  { intros frames. unfold start_demo_show. by rewrite (bind_eq _ _ _ _ _ (gets_eq framebuffer_pb s)), Hpb. }
  assert (forall frames, start_demo_show (D := D) kmalloc kfree frames clock n s = (
      backbuffer_addr ← kmalloc n;
      if backbuffer_addr =? 0 then mret None else
      background_addr ← kmalloc n;
      if background_addr =? 0 then (_ ← kfree backbuffer_addr; mret None) else
      _ ← memcpy_px background_addr fb.(fb_address) n;
      _ ← memcpy_px backbuffer_addr background_addr n;
      a ← demo_loop frames clock fb.(fb_width) fb.(fb_height) (copy_of fb backbuffer_addr) background_addr n 0
        (mk_angles (lit 0) (lit 0) (lit 0));
      mret (Some a)) s) as Hstart.
  { intros frames. unfold start_demo_show. rewrite (bind_eq _ _ _ _ _ (gets_eq framebuffer_pb s)), Hpb.
    destruct (Z.eqb_spec n 0); [done|]. by rewrite Uw, Uh. }
  destruct (ph_kmalloc _ _ Hheap n s ltac:(lia)) as [E1|(back & ob & E1 & Nb & Fb & Lb)].
  { left. intros frames. rewrite Hstart. by rewrite (bind_eq _ _ _ _ _ E1). }
  pose proof (fun frames => eq_trans (Hstart frames) (bind_eq _ _ _ _ _ E1)) as Hs1. cbv beta in Hs1.
  destruct (Z.eqb_spec back 0) as [|_]; [done|].
  destruct (ph_kmalloc _ _ Hheap n (set_obj back ob s) ltac:(lia)) as [E2|(bg & og & E2 & Ng & Fg & Lg)].
  { left. intros frames. rewrite Hs1, (bind_eq _ _ _ _ _ E2). cbn [Z.eqb].
    by rewrite (bind_eq _ _ _ _ _ (ph_kfree _ _ Hheap back _)), set_obj_freed. }
  right. exists back, bg. split; [done|]. split.
  { rewrite set_obj_other in Fg; [done|]. intros ->. by rewrite set_obj_get in Fg. }
  destruct (buffers_ready s fb n back bg ob og (Build_showable _ _ _ Hpb Hfront (conj Hw Hw') Hh Hs) ltac:(lia) Fb Lb Fg Lg)
    as (s3 & E3 & D3 & F3 & S3 & P3 & O3).
  intros frames.
  destruct (demo_loop_runs fb back bg n clock s3 ltac:(by rewrite F3) frames 0%nat _ s3 [] D3 start_bounded)
    as (a & s4 & E4 & A4 & [R4 _ O4 S4]).
  exists a, s4. split.
  { rewrite Hs1, (bind_eq _ _ _ _ _ E2). destruct (Z.eqb_spec bg 0) as [|_]; [done|].
    rewrite <-bind_assoc, (bind_eq _ _ _ _ _ E3), (bind_eq _ _ _ _ _ E4). done. }
  pose proof (ar_apart _ _ _ _ _ R4) as (N1 & N2 & N3).
  split; [done|]. split; [done|]. split; [|split; [|by rewrite S4, S3]].
  - intros i Hi Hin. rewrite <-P3 by done. unfold px. by rewrite O4.
  - intros x Hx Hxb Hxg. by rewrite O4, O3.
Qed.
End frame.

(** ** A small screen *)

Import Fixed.

Module DemoRun.
(** 64 x 64 pixels with two columns of padding; the background is grey in the
    first cell only. *)
Definition fb : framebuffer_t := mk_framebuffer 64 64 66 0x80000.
Definition bytes : Z := 4 * (64 * 66).
Definition screen0 : screen :=
  mk_screen (Some fb) true {[ 0x80000 := mk_pixels (64 * 66) {[ 0 := 0x808080 ]} ]} 0 0 (load_glyphs cozette_psf) [].
(** With the two buffers. *)
Definition drawn0 : screen :=
  set_obj 2 (mk_pixels (64 * 66) {[ 0 := 0x808080 ]}) (set_obj 1 (mk_pixels (64 * 66) ∅) screen0).
Definition angles0 : angles Q := mk_angles (lit 0) (lit 0) (lit 0).

(** An address above all arrays. *)
Definition top (v : gmap Z pixels) : Z := foldr Z.max 0 (map fst (map_to_list v)) + 1.
Definition kmalloc (n : Z) : M screen Z := fun s =>
  if 2 ^ 60 <=? n then Done (0, s) else
  Done (top s.(vram), set_obj (top s.(vram)) (mk_pixels ((n + 3) / 4) ∅) s).
Definition kfree (a : Z) : M screen unit := fun s => Done (tt, set_vram (delete a s.(vram)) s).

Lemma top_fresh v : 0 < top v /\ v !! top v = None.
Proof.
  unfold top. set (l := map fst (map_to_list v)).
  assert (0 <= foldr Z.max 0 l /\ forall x, x ∈ l -> x <= foldr Z.max 0 l) as [H0 Hmax].
  { clearbody l. induction l as [|y l [IH0 IH]]; cbn [foldr]; [split; [lia|by inversion 1]|].
    split; [lia|]. intros x [->|Hx]%elem_of_cons; [lia|]. specialize (IH x Hx). lia. }
  split; [lia|]. destruct (v !! _) as [o|] eqn:E; [|done].
  apply elem_of_map_to_list in E. apply (list_elem_of_fmap_2 fst) in E. apply Hmax in E. cbn in E. lia.
Qed.

Lemma heap : pixel_heap kmalloc kfree.
Proof.
  split; [|done]. intros n s Hn. unfold kmalloc. destruct (Z.leb_spec (2 ^ 60) n); [by left|right].
  destruct (top_fresh s.(vram)) as [Hp Hfresh]. eexists _, _. split; [reflexivity|].
  split; [lia|]. split; [done|]. cbn [px_len].
  pose proof (Z.div_mod (n + 3) 4). pose proof (Z.mod_pos_bound (n + 3) 4). lia.
Qed.

Lemma drawn0_arena : arena drawn0 fb 1 2 bytes.
Proof. split; try done; try (eexists; split; [by vm_compute|]); unfold bytes; cbn; lia. Qed.

Lemma screen0_showable : showable screen0 fb bytes.
Proof. split; try done; try (eexists; split; [by vm_compute|]); unfold bytes; cbn; lia. Qed.

(** The cross bar of the letter passes through the middle of the screen; the
    first cell shows the background. *)
Example first_frame :
  match render 64 64 (copy_of fb 1) 2 bytes angles0 drawn0 with
  | Done (_, s') => px s' 0x80000 0 = 0x808080 /\ px s' 0x80000 (32 * 66 + 32) = 0xDDDDDD
  | _ => False
  end.
Proof. vm_compute. done. Qed.
End DemoRun.

(** C22. A frame of the demo.  Whatever was drawn before, [render] ends without a
    fault and leaves in every cell of the frame buffer either the colour of the
    figure, where the line of an edge between two projected vertices passes, or
    what the saved background holds: no line of an earlier frame stays.  Every
    vertex is projected, and the whole figure lies within 247 pixels of the
    middle of the screen, for any angles of the loop and any arithmetic with
    the accuracy of a double; pixels that are not on the screen are skipped.
    Nothing else changes but the back buffer. *)
Theorem frame_shows {D : Type} `{FpuLaws D} (a : angles D) fb back bg n s :
  arena s fb back bg n -> all_bounded a ->
  exists ls s', render fb.(fb_width) fb.(fb_height) (copy_of fb back) bg n a s = Done (tt, s') /\
    figure fb.(fb_width) fb.(fb_height) a ls /\
    Forall (fun p => Z.abs (2 * p.1 - fb.(fb_width)) <= 494 /\ Z.abs (2 * p.2 - fb.(fb_height)) <= 494) ls /\
    (forall i, 0 <= i -> 4 * i + 3 < n ->
      px s' fb.(fb_address) i = if decide (Exists (inked fb i) ls) then 0xDDDDDD else px s bg i) /\
    arena s' fb back bg n /\ s'.(serial_out) = s.(serial_out) /\
    forall x, x <> fb.(fb_address) -> x <> back -> s'.(vram) !! x = s.(vram) !! x.
Proof.
  intros Ha Hb. destruct (render_eq a fb back bg n s Ha Hb) as (ls & f & b & Hfig & Hc & E & Hlen & Hpx).
  eexists ls, _. split; [exact E|]. split; [done|]. split; [|split; [|split; [|split; [done|]]]].
  - eapply Forall_impl; [exact Hc|]. unfold central. intros p. lia.
  - intros i Hi Hn. rewrite px_set_obj. by apply Hpx.
  - eapply arena_lengths; [exact Ha|done|exact Hlen].
  - intros x Hx Hxb. by rewrite !set_obj_other.
Qed.

Lemma frame_shows_witness :
  exists ls s', render 64 64 (copy_of DemoRun.fb 1) 2 DemoRun.bytes DemoRun.angles0 DemoRun.drawn0 = Done (tt, s') /\
    figure 64 64 DemoRun.angles0 ls /\
    px s' 0x80000 0 = if decide (Exists (inked DemoRun.fb 0) ls) then 0xDDDDDD else 0x808080.
Proof.
  destruct (frame_shows DemoRun.angles0 DemoRun.fb 1 2 DemoRun.bytes DemoRun.drawn0 DemoRun.drawn0_arena start_bounded)
    as (ls & s' & E & Hf & _ & Hpx & _).
  exists ls, s'. split; [exact E|]. split; [exact Hf|].
  exact (Hpx 0 ltac:(lia) ltac:(unfold DemoRun.bytes; lia)).
Defined.

(** C39. The demo either returns at once and leaves everything as it was, when the
    size is 0 or one of the two buffers cannot be had (the first one is then
    given back), or it goes on for any number of frames: it never returns and
    never faults.  After each frame its angles are bounded, the screen as it was
    at the start is still saved, nothing but the frame buffer and the two
    buffers has changed, and the serial port has received one line per frame. *)
Theorem start_demo_show_runs {D : Type} `{FpuLaws D} kmalloc kfree clock n s fb :
  pixel_heap kmalloc kfree -> showable s fb n -> font_ok s.(current_font) -> 0 <= n ->
  if n =? 0 then forall frames, start_demo_show (D := D) kmalloc kfree frames clock n s = Done (None, s)
  else (forall frames, start_demo_show (D := D) kmalloc kfree frames clock n s = Done (None, s)) \/
  exists back bg, s.(vram) !! back = None /\ s.(vram) !! bg = None /\ forall frames, exists (a : angles D) s',
    start_demo_show kmalloc kfree frames clock n s = Done (Some a, s') /\ all_bounded a /\ arena s' fb back bg n /\
    (forall i, 0 <= i -> 4 * i + 3 < n -> px s' bg i = px s fb.(fb_address) i) /\
    (forall x, x <> fb.(fb_address) -> x <> back -> x <> bg -> s'.(vram) !! x = s.(vram) !! x) /\
    s'.(serial_out) = s.(serial_out) ++ frame_log frames clock 0.
Proof. apply demo_runs. Qed.

(** On the small screen three frames are drawn. *)
Lemma start_demo_show_runs_witness :
  exists (a : angles Q) s',
    start_demo_show DemoRun.kmalloc DemoRun.kfree 3 (fun i => 40 * Z.of_nat i) DemoRun.bytes DemoRun.screen0
      = Done (Some a, s') /\
    s'.(serial_out) = frame_log 3 (fun i => 40 * Z.of_nat i) 0.
Proof.
  pose proof (start_demo_show_runs DemoRun.kmalloc DemoRun.kfree (fun i => 40 * Z.of_nat i) DemoRun.bytes DemoRun.screen0
    DemoRun.fb DemoRun.heap DemoRun.screen0_showable cozette_ok ltac:(unfold DemoRun.bytes; lia)) as Hr.
  change (DemoRun.bytes =? 0) with false in Hr. cbv iota in Hr.
  destruct Hr as [Hr|(back & bg & _ & _ & Hr)].
  - specialize (Hr 0%nat).
    apply (f_equal (fun r => match r with Done (Some _, _) => true | _ => false end)) in Hr.
    vm_compute in Hr. discriminate Hr.
  - destruct (Hr 3%nat) as (a & s' & E & _ & _ & _ & _ & Hs). exists a, s'. split; [exact E|exact Hs].
Defined.
