(* ===== verification/WholeKernel.v ===== *)
(** * The kernel from its entry into the demo ([kernel/startup.c])

    [kernel_main] and the call that ends it: the demo on the screen that the
    start-up leaves. *)

From S2P Require Import Prelude FromBoot Pmm PageTable Vmm VmmSpec VmmInit VmmTheorems StringLib StringFacts Graphics GraphicsFacts FontData GraphicsTheorems Stdio StdioFacts StdioTheorems Cpu CpuTheorems Syscalls SyscallTheorems Init InitTheorems Fs FsFacts FsTree FsOps FsTheorems Initramfs InitramfsFacts CpioFormat InitramfsTheorems KernelMain KernelMainTheorems Demo DemoFpu DemoPoints DemoFacts DemoTheorems.

(** Where the kernel is: halted at a check that failed, or in (or after) the
    demo. *)
Inductive kernel_end (D : Type) :=
  | Refused (why : string)
  | Shown (a : option (angles D)).
Arguments Refused {D}.
Arguments Shown {D}.

Section whole.
Context {A D : Type} `{AllocatorLaws A} `{FpuLaws D}.
Context (kmalloc : Z -> M screen Z) (kfree : Z -> M screen unit) (clock : nat -> Z).

Definition kernel_then_demo (frames : nat) (i : inputs A) (boot : BootInfo) : M (machine A) (kernel_end D) :=
  why ← kernel_main i boot;
  match why with
  | Some w => mret (Refused w)
  | None => a ← on_screen (start_demo_show kmalloc kfree frames clock boot.(framebuffer_size)); mret (Shown a)
  end.

(** The size in the record is that of the rows. *)
Record demo_fits (boot : BootInfo) : Prop := {
  df_width : boot.(FromBoot.width) <= 2 ^ 28;
  df_height : boot.(FromBoot.height) <= 2 ^ 28;
  df_size : boot.(framebuffer_size) = 4 * (boot.(FromBoot.height) * boot.(pixels_per_scanline));
}.

(** The screen of a kernel that is up is one the demo can run on. *)
Lemma up_showable boot out s : demo_fits boot -> showing (boot_framebuffer boot) out s ->
  showable s (boot_framebuffer boot) boot.(framebuffer_size) /\ font_ok s.(current_font).
Proof.
  intros [Hw Hh Hs] ((Hpb & o & Ho & [Fw Fh Fl Fm]) & Hf & _). cbn in *. split; [|rewrite Hf; exact cozette_ok].
  split; [done| |done|done|rewrite Hs; cbn; lia]. exists o. split; [done|]. rewrite Hs. lia.
Qed.

(** What the demo adds to the machine [s1] it starts on. *)
Definition shown (fb : framebuffer_t) (n : Z) (s1 s' : machine A) (r : option (angles D)) : Prop :=
  s'.(m_kernel) = s1.(m_kernel) /\ s'.(m_fs) = s1.(m_fs) /\
  match r with
  | None => s'.(m_screen) = s1.(m_screen)
  | Some a => all_bounded a /\ exists back bg, arena s'.(m_screen) fb back bg n /\
      forall k, 0 <= k -> 4 * k + 3 < n -> px s'.(m_screen) bg k = px s1.(m_screen) fb.(fb_address) k
  end.

Lemma demo_shown frames fb n s1 : pixel_heap kmalloc kfree -> showable s1.(m_screen) fb n ->
  font_ok s1.(m_screen).(current_font) -> 0 <= n ->
  exists r s', on_screen (start_demo_show kmalloc kfree frames clock n) s1 = Done (r, s') /\ shown fb n s1 s' r.
Proof.
  intros Hheap Hsh Hf Hn. pose proof (demo_runs kmalloc kfree clock n s1.(m_screen) fb Hheap Hsh Hf Hn) as Hd.
  assert (start_demo_show (D := D) kmalloc kfree frames clock n s1.(m_screen) = Done (None, s1.(m_screen)) \/
    exists a c', start_demo_show kmalloc kfree frames clock n s1.(m_screen) = Done (Some a, c') /\
      shown fb n s1 (mk_machine s1.(m_kernel) c' s1.(m_fs)) (Some a)) as [E|(a & c' & E & Hs)].
  { destruct (n =? 0); [by left|]. destruct Hd as [Hd|(back & bg & _ & _ & Hd)]; [by left|right].
    destruct (Hd frames) as (a & c' & E & Ha & Har & Hp & _). exists a, c'. split; [done|].
    split; [done|]. split; [done|]. split; [done|]. by exists back, bg. }
  - exists None, s1. unfold on_screen. rewrite E. by destruct s1.
  - eexists (Some a), _. unfold on_screen. by rewrite E.
Qed.
End whole.

Import Fixed.
#[local] Opaque kernel_main start_demo_show.


