(* ===== verification/Efi.v ===== *)
(** * The boot services the loader uses ([bootloader/efi.h])

    The status codes, structures and macros of [efi.h]; the memory of the
    machine as the loader sees it; and the firmware as an interface: its state
    and its services are a parameter, [Firmware], and what the loader relies
    on is [FirmwareLaws]. *)

From S2P Require Import Prelude Pmm PageTable.

(** ** Status codes and macros *)

Definition EFI_SUCCESS : Z := 0.
Definition EFI_ERROR_BIT : Z := 0x8000000000000000.
Definition EFI_ERROR (Status : Z) : bool := negb (Z.land Status EFI_ERROR_BIT =? 0).
Definition EFI_STATUS_CODE (s : Z) : Z := Z.land s (Z.lnot EFI_ERROR_BIT).
(** [(EFI_ERROR_BIT | n)] *)
Definition efi_err (n : Z) : Z := Z.lor EFI_ERROR_BIT n.
Definition EFI_LOAD_ERROR : Z := efi_err 1.
Definition EFI_INVALID_PARAMETER : Z := efi_err 2.
Definition EFI_BUFFER_TOO_SMALL : Z := efi_err 5.
Definition EFI_NOT_READY : Z := efi_err 6.
Definition EFI_OUT_OF_RESOURCES : Z := efi_err 9.
Definition EFI_NOT_FOUND : Z := efi_err 14.

(** [EFI_SIZE_TO_PAGES] *)
Definition EFI_SIZE_TO_PAGES (Size : Z) : Z :=
  Z.shiftr Size 12 + (if Z.land Size 0xFFF =? 0 then 0 else 1).

Inductive EFI_ALLOCATE_TYPE := AllocateAnyPages | AllocateMaxAddress | AllocateAddress | MaxAllocateType.

(** The GUIDs of the protocols the loader asks for. *)
Inductive protocol := LoadedImageProtocol | SimpleFileSystem | PciIoProtocol | GraphicsOutput | EdidDiscovered.

(** [EFI_GRAPHICS_PIXEL_FORMAT] *)
Definition PixelRedGreenBlueReserved8BitPerColor : Z := 0.
Definition PixelBlueGreenRedReserved8BitPerColor : Z := 1.
Definition PixelBitMask : Z := 2.
Definition PixelBltOnly : Z := 3.
Definition PixelFormatMax : Z := 4.

(** [EFI_GRAPHICS_OUTPUT_MODE_INFORMATION] *)
Record mode_info := mk_info {
  Version : Z;
  HorizontalResolution : Z;
  VerticalResolution : Z;
  PixelFormat : Z;
  PixelInformation : Z * Z * Z * Z;
  PixelsPerScanLine : Z;
}.

(** [EFI_GRAPHICS_OUTPUT_PROTOCOL_MODE] *)
Record gop_mode := mk_gop_mode {
  MaxMode : Z;
  Mode : Z;
  Info : mode_info;
  SizeOfInfo : Z;
  FrameBufferBase : Z;
  FrameBufferSize : Z;
}.

(** The fields of [EFI_LOADED_IMAGE_PROTOCOL] the loader reads. *)
Record loaded_image := mk_image { DeviceHandle : Z; ImageBase : Z; ImageSize : Z }.

(** What [GetMemoryMap] hands back. *)
Record map_reply := mk_map_reply {
  mr_status : Z;
  mr_size : Z;
  mr_key : Z;
  mr_descriptor_size : Z;
  mr_bytes : list Z;
}.

(** ** Memory

    A map from addresses to 64-bit words at multiples of 8; bytes are the
    little-endian parts of the words. *)

Notation ram := (gmap Z Z) (only parsing).

Definition load8 (m : ram) (a : Z) : Z :=
  Z.land (Z.shiftr (m !!! (8 * (a / 8))) (8 * (a mod 8))) 0xFF.
Definition store8 (a b : Z) (m : ram) : ram :=
  let w := 8 * (a / 8) in
  let k := 8 * (a mod 8) in
  <[w := Z.lor (Z.ldiff (m !!! w) (Z.shiftl 0xFF k)) (Z.shiftl (u8 b) k)]> m.

(** Little-endian fields of [n] bytes. *)
Fixpoint load_le (n : nat) (m : ram) (a : Z) : Z :=
  match n with O => 0 | S n' => load8 m a + 256 * load_le n' m (a + 1) end.
Fixpoint store_le (n : nat) (a v : Z) (m : ram) : ram :=
  match n with O => m | S n' => store_le n' (a + 1) (v / 256) (store8 a (v mod 256) m) end.
Fixpoint store_bytes (a : Z) (l : list Z) (m : ram) : ram :=
  match l with [] => m | b :: r => store_bytes (a + 1) r (store8 a b m) end.

(** Every word has 64 bits. *)
Definition ram_ok (m : ram) : Prop := forall a, in_u64 (m !!! a).

(** [a] lies in the [n] bytes from [b] on. *)
Definition in_bytes (b n a : Z) : bool := (b <=? a) && (a <? b + n).

(** ** The firmware *)

Class Firmware (F : Type) := {
  AllocatePages : EFI_ALLOCATE_TYPE -> Z -> Z -> Z -> F -> Z * Z * F;
  AllocatePool : Z -> Z -> F -> Z * Z * F;
  FreePool : Z -> F -> F;
  CopyMem : Z -> Z -> Z -> ram -> ram;
  SetMem : Z -> Z -> Z -> ram -> ram;
  GetMemoryMap : Z -> bool -> F -> map_reply * F;
  ExitBootServices : Z -> F -> Z * F;
  HandleProtocol : Z -> protocol -> F -> Z * Z * F;
  LocateProtocol : protocol -> F -> Z * Z * F;
  LocateHandleBuffer : protocol -> F -> Z * list Z * Z * F;
  OutputString : list Z -> F -> F;
  ClearScreen : F -> F;
  ReadKeyStroke : F -> Z * F;
  ResetSystem : F -> F;
  ImageData : Z -> F -> loaded_image;
  OpenVolume : Z -> F -> Z * Z * F;
  FileOpen : Z -> list Z -> F -> Z * Z * F;
  FileGetInfo : Z -> Z -> bool -> F -> Z * Z * Z * F;
  FileRead : Z -> Z -> F -> Z * Z * list Z * F;
  FileClose : Z -> F -> F;
  PciRead : Z -> Z -> Z -> F -> Z * Z * F;
  GopMode : Z -> F -> gop_mode;
  QueryMode : Z -> Z -> F -> Z * Z * mode_info * F;
  SetMode : Z -> Z -> F -> Z * F;
  EdidData : Z -> F -> Z * Z * list Z;
}.

(** The loader's state: the firmware, memory, what was printed on the console
    and on the serial port, the pool buffers and file handles in use (in the
    order they were obtained) and CR3. *)
Record loader (F : Type) := mk_loader {
  fw : F;
  mem : ram;
  con : list (list Z);
  ser : list Z;
  pools : list Z;
  handles : list Z;
  cr3 : Z;
}.
Arguments mk_loader {F}.
Arguments fw {F}.
Arguments mem {F}.
Arguments con {F}.
Arguments ser {F}.
Arguments pools {F}.
Arguments handles {F}.
Arguments cr3 {F}.

Section calls.
Context {F : Type} `{Firmware F}.

Definition set_fw (f : F) (s : loader F) : loader F :=
  mk_loader f s.(mem) s.(con) s.(ser) s.(pools) s.(handles) s.(cr3).
Definition set_mem (m : ram) (s : loader F) : loader F :=
  mk_loader s.(fw) m s.(con) s.(ser) s.(pools) s.(handles) s.(cr3).

(** A service that answers. *)
Definition call {A : Type} (service : F -> A * F) : M (loader F) A := fun s =>
  let '(a, f) := service s.(fw) in Done (a, set_fw f s).
(** A service that only has an effect. *)
Definition tell (service : F -> F) : M (loader F) unit := fun s =>
  Done (tt, set_fw (service s.(fw)) s).
(** A write to memory. *)
Definition on_mem (f : ram -> ram) : M (loader F) unit := fun s =>
  Done (tt, set_mem (f s.(mem)) s).

(** [st->ConOut->OutputString(st->ConOut, str)] *)
Definition output_string (str : list Z) : M (loader F) unit := fun s =>
  Done (tt, mk_loader (OutputString str s.(fw)) s.(mem) (s.(con) ++ [str]) s.(ser)
              s.(pools) s.(handles) s.(cr3)).

Definition set_pools (l : list Z) (s : loader F) : loader F :=
  mk_loader s.(fw) s.(mem) s.(con) s.(ser) l s.(handles) s.(cr3).
Definition set_handles (l : list Z) (s : loader F) : loader F :=
  mk_loader s.(fw) s.(mem) s.(con) s.(ser) s.(pools) l s.(cr3).

(** [gBS->AllocatePool]: a buffer the caller has to free when it succeeds. *)
Definition alloc_pool (type size : Z) : M (loader F) (Z * Z) :=
  '(Status, buffer) ← call (AllocatePool type size);
  _ ← modify (fun s => if EFI_ERROR Status then s else set_pools (s.(pools) ++ [buffer]) s);
  mret (Status, buffer).

Definition remove_one (x : Z) (l : list Z) : list Z :=
  match list_find (eq x) l with Some (i, _) => delete i l | None => l end.

(** [gBS->FreePool] *)
Definition free_pool (buffer : Z) : M (loader F) unit :=
  _ ← tell (FreePool buffer);
  modify (fun s => set_pools (remove_one buffer s.(pools)) s).

(** A service that opens a file; the handle has to be closed. *)
Definition open_handle (service : F -> Z * Z * F) : M (loader F) (Z * Z) :=
  '(Status, h) ← call service;
  _ ← modify (fun s => if EFI_ERROR Status then s else set_handles (s.(handles) ++ [h]) s);
  mret (Status, h).
(** [file->Close(file)] *)
Definition close_handle (h : Z) : M (loader F) unit :=
  _ ← tell (FileClose h);
  modify (fun s => set_handles (remove_one h s.(handles)) s).
End calls.
