(* ===== verification/EfiFacts.v ===== *)
(** * Memory and firmware: the facts the loader's proofs share

    Byte and word access to memory, what the loader relies on of the firmware
    ([FirmwareLaws]), and [keeps]: the relation between two states of the
    loader in which the pages it owns have kept their contents. *)

From S2P Require Import Prelude Pmm PageTable Efi.

(** ** Bytes and words *)

Lemma load8_bit m a j : 0 <= j < 8 ->
  Z.testbit (load8 m a) j = Z.testbit (m !!! (8 * (a / 8))) (8 * (a mod 8) + j).
Proof.
  intros. unfold load8. change 0xFF with (Z.ones 8). rewrite Z.land_spec, Z.shiftr_spec by lia.
  rewrite Z.ones_spec_low by lia. rewrite andb_true_r. f_equal. lia.
Qed.

Lemma load8_range m a : in_u8 (load8 m a).
Proof.
  unfold load8. change 0xFF with (Z.ones 8). rewrite Z.land_ones by lia.
  apply Z.mod_pos_bound. lia.
Qed.

Lemma land_ff_shift k j : 0 <= k -> 0 <= j ->
  Z.testbit (Z.shiftl 0xFF k) j = (k <=? j) && (j <? k + 8).
Proof.
  intros. rewrite Z.shiftl_spec by lia. destruct (Z.leb_spec k j); cbn [andb].
  - change 0xFF with (Z.ones 8). rewrite Z.testbit_ones by lia.
    destruct (Z.ltb_spec j (k + 8)); lia.
  - by apply Z.testbit_neg_r; lia.
Qed.

Lemma load8_store8 m a b c :
  load8 (store8 a b m) c = if decide (c = a) then u8 b else load8 m c.
Proof.
  apply u8_ext; [apply load8_range|case_decide; [apply u8_range|apply load8_range]|].
  intros j Hj. rewrite load8_bit by done. unfold store8. cbv zeta.
  assert (0 <= a mod 8 < 8 /\ 0 <= c mod 8 < 8) as [Ha Hc] by (split; apply Z.mod_pos_bound; lia).
  destruct (decide (8 * (c / 8) = 8 * (a / 8))) as [E|E].
  - rewrite E, lookup_total_insert_eq, Z.lor_spec, Z.ldiff_spec, land_ff_shift, Z.shiftl_spec by lia.
    case_decide as Hca.
    + subst c. destruct (Z.leb_spec (8 * (a mod 8)) (8 * (a mod 8) + j)); [|lia].
      destruct (Z.ltb_spec (8 * (a mod 8) + j) (8 * (a mod 8) + 8)); [|lia].
      cbn [andb negb]. rewrite andb_false_r. cbn [orb]. f_equal. lia.
    + rewrite load8_bit, E by done.
      assert (a mod 8 <> c mod 8).
      { intros Em. apply Hca. rewrite (Z.div_mod a 8), (Z.div_mod c 8) by lia. lia. }
      assert (Z.testbit (u8 b) (8 * (c mod 8) + j - 8 * (a mod 8)) = false) as ->.
      { destruct (decide (8 * (c mod 8) + j - 8 * (a mod 8) < 0)).
        - apply Z.testbit_neg_r. lia.
        - apply testbit_high_u8; [apply u8_range|]. lia. }
      rewrite orb_false_r.
      destruct (Z.leb_spec (8 * (a mod 8)) (8 * (c mod 8) + j)); cbn [andb negb];
        [|by rewrite andb_true_r].
      destruct (Z.ltb_spec (8 * (c mod 8) + j) (8 * (a mod 8) + 8)); [lia|].
      cbn. by rewrite andb_true_r.
  - rewrite lookup_total_insert_ne by done. case_decide as Hca; [by subst c|].
    by rewrite load8_bit.
Qed.

(** A word lies within 64 bits when it has no bit above. *)
Lemma in_u64_bits x : in_u64 x <-> 0 <= x /\ forall j, 64 <= j -> Z.testbit x j = false.
Proof.
  unfold in_u64. change 18446744073709551616 with (2 ^ 64). split.
  - intros Hx. split; [lia|]. intros j Hj.
    rewrite <-(Z.mod_small x (2 ^ 64)) by lia. rewrite Z.testbit_mod_pow2 by lia.
    destruct (Z.ltb_spec j 64); [lia|done].
  - intros [Hx Hb]. split; [done|].
    enough (x = x mod 2 ^ 64) as -> by (by apply Z.mod_pos_bound).
    apply Z.bits_inj'. intros j Hj. rewrite Z.testbit_mod_pow2 by lia.
    destruct (Z.ltb_spec j 64); cbn; [done|]. apply Hb. lia.
Qed.

Lemma store8_ok a b m : ram_ok m -> ram_ok (store8 a b m).
Proof.
  intros Hm c. unfold store8. cbv zeta. rewrite lookup_total_insert. case_decide; [|apply Hm].
  pose proof (u8_range b) as Hb. pose proof (Hm (8 * (a / 8))) as Hw.
  assert (0 <= a mod 8 < 8) as Ha by (apply Z.mod_pos_bound; lia).
  apply in_u64_bits in Hw as [Hw0 Hw]. unfold in_u8 in Hb. apply in_u64_bits. split.
  - apply Z.lor_nonneg. split; [apply Z.ldiff_nonneg; by left|apply Z.shiftl_nonneg; lia].
  - intros j Hj. rewrite Z.lor_spec, Z.ldiff_spec, Hw, !Z.shiftl_spec by lia. cbn.
    apply testbit_high_u8; [exact Hb|lia].
Qed.

Lemma insert_ok a v m : ram_ok m -> in_u64 v -> ram_ok (<[a := v]> m).
Proof. intros Hm Hv c. rewrite lookup_total_insert. case_decide; [done|apply Hm]. Qed.

(** Words are determined by their bytes. *)
Lemma word_ext (m m' : ram) k : ram_ok m -> ram_ok m' ->
  (forall j, 0 <= j < 8 -> load8 m (8 * k + j) = load8 m' (8 * k + j)) ->
  m !!! (8 * k) = m' !!! (8 * k).
Proof.
  intros Hm Hm' Hb. pose proof (Hm (8 * k)) as Hw. pose proof (Hm' (8 * k)) as Hw'.
  apply in_u64_bits in Hw as [_ Hw], Hw' as [_ Hw'].
  apply Z.bits_inj'. intros j Hj. destruct (decide (64 <= j)); [by rewrite Hw, Hw' by lia|].
  assert (0 <= j / 8 < 8 /\ 0 <= j mod 8 < 8) as [Hq Hr].
  { split; [|apply Z.mod_pos_bound; lia].
    split; [apply Z.div_pos; lia|apply Z.div_lt_upper_bound; lia]. }
  pose proof (Hb (j / 8) Hq) as E. apply (f_equal (fun x => Z.testbit x (j mod 8))) in E.
  rewrite !load8_bit in E by done.
  assert ((8 * k + j / 8) / 8 = k /\ (8 * k + j / 8) mod 8 = j / 8) as [E1 E2].
  { split; [symmetry; apply (Z.div_unique _ _ _ (j / 8)); lia
           |symmetry; apply (Z.mod_unique _ _ k); lia]. }
  rewrite E1, E2 in E. replace (8 * (j / 8) + j mod 8) with j in E; [done|].
  rewrite (Z.div_mod j 8) at 1 by lia. lia.
Qed.

Lemma load8_insert_word (m : ram) w v a : a / 8 <> w -> load8 (<[8 * w := v]> m) a = load8 m a.
Proof.
  intros Ha. unfold load8. rewrite lookup_total_insert_ne; [done|]. intros E. apply Ha. lia.
Qed.

Lemma store_bytes_ok l : forall a m, ram_ok m -> ram_ok (store_bytes a l m).
Proof. induction l as [|b l IH]; intros a m Hm; cbn; [done|]. by apply IH, store8_ok. Qed.

Lemma load8_store_bytes l : forall a m c,
  load8 (store_bytes a l m) c =
  if in_bytes a (Z.of_nat (length l)) c then u8 (aget l (c - a)) else load8 m c.
Proof.
  induction l as [|b l IH]; intros a m c; unfold in_bytes in *.
  - cbn [store_bytes length].
    destruct (Z.leb_spec a c), (Z.ltb_spec c (a + Z.of_nat 0)); cbn [andb]; try done; lia.
  - cbn [store_bytes]. rewrite IH, load8_store8. cbn [length].
    destruct (Z.leb_spec (a + 1) c), (Z.ltb_spec c (a + 1 + Z.of_nat (length l))),
      (Z.leb_spec a c), (Z.ltb_spec c (a + Z.of_nat (S (length l)))); cbn [andb];
      try lia; repeat case_decide; try lia; try done.
    + unfold aget. replace (Z.to_nat (c - a)) with (S (Z.to_nat (c - (a + 1)))) by lia.
      by rewrite !(proj2 (Z.ltb_ge _ _)) by lia.
    + subst. by rewrite Z.sub_diag.
Qed.

Lemma load_le_ext n : forall m m' a,
  (forall j, 0 <= j < Z.of_nat n -> load8 m (a + j) = load8 m' (a + j)) ->
  load_le n m a = load_le n m' a.
Proof.
  induction n as [|n IH]; intros m m' a E; [done|]. cbn [load_le].
  rewrite <-(Z.add_0_r a) at 1. rewrite E by lia. rewrite Z.add_0_r. do 2 f_equal.
  apply IH. intros j Hj. replace (a + 1 + j) with (a + (1 + j)) by lia. apply E. lia.
Qed.

Lemma load_le_range n m a : 0 <= load_le n m a < 256 ^ Z.of_nat n.
Proof.
  revert a. induction n as [|n IH]; intros a; [done|]. cbn [load_le].
  pose proof (load8_range m a) as Hb. unfold in_u8 in Hb. specialize (IH (a + 1)).
  rewrite Nat2Z.inj_succ, Z.pow_succ_r by lia. lia.
Qed.

Lemma store_le_ok n : forall a v m, ram_ok m -> ram_ok (store_le n a v m).
Proof. induction n as [|n IH]; intros a v m Hm; cbn; [done|]. by apply IH, store8_ok. Qed.

Lemma load8_store_le n : forall a v m c,
  load8 (store_le n a v m) c =
  if in_bytes a (Z.of_nat n) c then (v / 256 ^ (c - a)) mod 256 else load8 m c.
Proof.
  induction n as [|n IH]; intros a v m c; unfold in_bytes in *; cbn [store_le].
  - destruct (Z.leb_spec a c), (Z.ltb_spec c (a + Z.of_nat 0)); cbn [andb]; try lia; done.
  - rewrite IH, load8_store8.
    destruct (Z.leb_spec (a + 1) c), (Z.ltb_spec c (a + 1 + Z.of_nat n)),
      (Z.leb_spec a c), (Z.ltb_spec c (a + Z.of_nat (S n))); cbn [andb];
      try lia; repeat case_decide; try lia; try done.
    + rewrite Z.div_div by (try apply Z.pow_pos_nonneg; lia).
      replace (256 ^ (c - a)) with (256 * 256 ^ (c - (a + 1))); [done|].
      rewrite <-Z.pow_succ_r by lia. f_equal. lia.
    + subst. rewrite Z.sub_diag, Z.pow_0_r, Z.div_1_r. unfold u8. by rewrite Z.mod_mod.
Qed.

(** ** Addresses and pages *)

Lemma in_bytes_spec b n a : in_bytes b n a = true <-> b <= a < b + n.
Proof. unfold in_bytes. lia. Qed.

Lemma in_bytes_false b n a : in_bytes b n a = false <-> ~ (b <= a < b + n).
Proof. unfold in_bytes. lia. Qed.

(** A byte of a page range lies in one of its pages. *)
Lemma page_of_byte base n a : base mod PAGE_SIZE = 0 -> base <= a < base + n * PAGE_SIZE ->
  in_range (base / PAGE_SIZE) n (a / PAGE_SIZE) = true.
Proof.
  unfold PAGE_SIZE. intros Hb Ha. apply in_range_spec.
  rewrite (Z.div_mod base 0x1000), Hb in Ha by lia. Z.div_mod_to_equations. lia.
Qed.

Lemma size_to_pages n : 0 <= n -> n <= EFI_SIZE_TO_PAGES n * PAGE_SIZE < n + PAGE_SIZE.
Proof.
  intros Hn. unfold EFI_SIZE_TO_PAGES, PAGE_SIZE. rewrite Z.shiftr_div_pow2 by lia.
  change 0xFFF with (Z.ones 12). rewrite Z.land_ones by lia. change (2 ^ 12) with 4096.
  destruct (Z.eqb_spec (n mod 4096) 0); Z.div_mod_to_equations; lia.
Qed.

(** Reading back what was stored. *)
Lemma load_le_store_le n : forall a v m, load_le n (store_le n a v m) a = v mod 256 ^ Z.of_nat n.
Proof.
  induction n as [|n IH]; intros a v m; [by rewrite Z.mod_1_r|]. cbn [load_le store_le].
  rewrite IH, load8_store_le, (proj2 (in_bytes_false _ _ _)), load8_store8 by lia.
  rewrite decide_True by done. unfold u8. rewrite Z.mod_mod by lia.
  rewrite Nat2Z.inj_succ, Z.pow_succ_r, Z.rem_mul_r by (try apply Z.pow_pos_nonneg; lia). done.
Qed.

Lemma load_le_store_out n k a b v m : b + Z.of_nat k <= a \/ a + Z.of_nat n <= b ->
  load_le n (store_le k b v m) a = load_le n m a.
Proof.
  intros Hd. apply load_le_ext. intros j Hj. rewrite load8_store_le.
  by rewrite (proj2 (in_bytes_false _ _ _)) by lia.
Qed.

(** ** What the loader relies on *)

(** The rows, at four bytes a pixel, lie in the frame buffer, and it lies below
    2^48. *)
Definition rows_fit (m : gop_mode) : Prop :=
  m.(FrameBufferBase) + m.(FrameBufferSize) <= 2 ^ 48 /\
  m.(Info).(HorizontalResolution) <= m.(Info).(PixelsPerScanLine) /\
  4 * m.(Info).(VerticalResolution) * m.(Info).(PixelsPerScanLine) <= m.(FrameBufferSize).

(** [owned f p]: the loader has obtained page [p] with [AllocatePages] (it
    never frees pages). *)
Class FirmwareLaws (F : Type) `{Firmware F} := {
  owned : F -> Z -> bool;
  fl_alloc : forall type mt n a f st r f', 0 <= n -> AllocatePages type mt n a f = (st, r, f') ->
    (EFI_ERROR st = true /\ forall q, owned f' q = owned f q) \/
    (EFI_ERROR st = false /\ r mod PAGE_SIZE = 0 /\ 0 < r /\ r + n * PAGE_SIZE <= 2 ^ 52 /\
     (type = AllocateAddress -> r = a) /\
     (type = AllocateMaxAddress -> r + n * PAGE_SIZE <= a + 1) /\
     (forall q, in_range (r / PAGE_SIZE) n q = true -> owned f q = false) /\
     forall q, owned f' q = owned f q || in_range (r / PAGE_SIZE) n q);
  fl_pool : forall type size f st r f', AllocatePool type size f = (st, r, f') ->
    (forall q, owned f' q = owned f q) /\
    (EFI_ERROR st = false -> r <> 0 /\ forall a, in_bytes r size a = true -> owned f (a / PAGE_SIZE) = false);
  fl_copy : forall d s n m a, 0 <= n ->
    load8 (CopyMem d s n m) a = if in_bytes d n a then load8 m (s + (a - d)) else load8 m a;
  fl_copy_ok : forall d s n m, ram_ok m -> ram_ok (CopyMem d s n m);
  fl_set : forall d n v m a, 0 <= n ->
    load8 (SetMem d n v m) a = if in_bytes d n a then u8 v else load8 m a;
  fl_set_ok : forall d n v m, ram_ok m -> ram_ok (SetMem d n v m);
  fl_free : forall b f q, owned (FreePool b f) q = owned f q;
  fl_map : forall n b f q, owned (GetMemoryMap n b f).2 q = owned f q;
  fl_exit : forall k f q, owned (ExitBootServices k f).2 q = owned f q;
  fl_handle : forall h p f q, owned (HandleProtocol h p f).2 q = owned f q;
  fl_locate : forall p f q, owned (LocateProtocol p f).2 q = owned f q;
  fl_handles : forall p f q, owned (LocateHandleBuffer p f).2 q = owned f q;
  fl_output : forall l f q, owned (OutputString l f) q = owned f q;
  fl_clear : forall f q, owned (ClearScreen f) q = owned f q;
  fl_key : forall f q, owned (ReadKeyStroke f).2 q = owned f q;
  fl_reset : forall f q, owned (ResetSystem f) q = owned f q;
  fl_volume : forall h f q, owned (OpenVolume h f).2 q = owned f q;
  fl_open : forall h l f q, owned (FileOpen h l f).2 q = owned f q;
  fl_info : forall h n b f q, owned (FileGetInfo h n b f).2 q = owned f q;
  fl_info_small : forall h f, EFI_ERROR (FileGetInfo h 0 false f).1.1.1 = true;
  fl_info_size : forall h n b f, 0 <= (FileGetInfo h n b f).1.2;
  fl_read : forall h n f q, owned (FileRead h n f).2 q = owned f q;
  fl_read_data : forall h n f st k data f', 0 <= n -> FileRead h n f = (st, k, data, f') ->
    Z.of_nat (length data) <= n /\ (EFI_ERROR st = false -> Z.of_nat (length data) = k);
  fl_close : forall h f q, owned (FileClose h f) q = owned f q;
  fl_pci : forall h w o f q, owned (PciRead h w o f).2 q = owned f q;
  fl_query : forall h i f q, owned (QueryMode h i f).2 q = owned f q;
  fl_setmode : forall h i f q, owned (SetMode h i f).2 q = owned f q;
  fl_image : forall h f, let i := ImageData h f in
    0 <= i.(ImageBase) /\ 0 <= i.(ImageSize) /\ i.(ImageBase) + i.(ImageSize) <= 2 ^ 48;
  (* what [GopMode] shows changes with [SetMode] only *)
  fl_gop_output : forall g l f, GopMode g (OutputString l f) = GopMode g f;
  fl_gop_free : forall g b f, GopMode g (FreePool b f) = GopMode g f;
  fl_gop_query : forall g h i f, GopMode g (QueryMode h i f).2 = GopMode g f;
  fl_gop_alloc : forall g t mt n a f, GopMode g (AllocatePages t mt n a f).2 = GopMode g f;
  fl_gop_map : forall g n b f, GopMode g (GetMemoryMap n b f).2 = GopMode g f;
  (* the fields have the widths of their types *)
  fl_gop_types : forall g f, let m := GopMode g f in
    0 <= m.(MaxMode) < 2 ^ 32 /\ in_u64 m.(FrameBufferBase) /\ in_u64 m.(FrameBufferSize) /\
    0 <= m.(Info).(HorizontalResolution) < 2 ^ 32 /\ 0 <= m.(Info).(VerticalResolution) < 2 ^ 32 /\
    0 <= m.(Info).(PixelsPerScanLine) < 2 ^ 32 /\ 0 <= m.(Info).(PixelFormat) < 2 ^ 32;
  (* the frame buffer of a mode with eight bits per colour and four bytes a pixel
     holds every row and is no memory that is handed out *)
  fl_frame : forall g f, let m := GopMode g f in m.(Info).(PixelFormat) <= 1 ->
    rows_fit m /\ forall a, in_bytes m.(FrameBufferBase) m.(FrameBufferSize) a = true -> owned f (a / PAGE_SIZE) = false;
  fl_reply : forall n b f, let r := (GetMemoryMap n b f).1 in
    0 <= r.(mr_size) < 2 ^ 32 /\ 0 <= r.(mr_descriptor_size) < 2 ^ 16 /\
    (EFI_ERROR r.(mr_status) = false -> Z.of_nat (length r.(mr_bytes)) = r.(mr_size) /\ r.(mr_size) <= n);
}.
#[export] Hint Rewrite @fl_free @fl_map @fl_exit @fl_handle @fl_locate @fl_handles @fl_output
  @fl_clear @fl_key @fl_reset @fl_volume @fl_open @fl_info @fl_read @fl_close @fl_pci @fl_query
  @fl_setmode : firmware.

(** What the code takes for granted of the screen: whichever mode is active, its
    frame buffer holds the rows at four bytes a pixel, outside the memory that is
    handed out.  UEFI promises it for the two formats with eight bits per colour
    only ([formats_linear]); the loader looks at the format of the modes it could
    set, not at that of the mode it then draws in. *)
Definition screens_linear {F : Type} `{FirmwareLaws F} : Prop := forall g f, let m := GopMode g f in
  rows_fit m /\ forall a, in_bytes m.(FrameBufferBase) m.(FrameBufferSize) a = true -> owned f (a / PAGE_SIZE) = false.

Lemma formats_linear {F : Type} `{FirmwareLaws F} :
  (forall g f, (GopMode g f).(Info).(PixelFormat) <= 1) -> screens_linear (F := F).
Proof. intros Hp g f. by apply fl_frame. Qed.

(** ** States in which owned pages keep their contents *)

Section keeps.
Context {F : Type} `{HL : FirmwareLaws F}.

(** Pages stay owned, and those outside [X] keep their bytes. *)
Record keeps (X : Z -> Prop) (s s' : loader F) : Prop := {
  kp_owned : forall q, owned s.(fw) q = true -> owned s'.(fw) q = true;
  kp_bytes : forall a, owned s.(fw) (a / PAGE_SIZE) = true -> ~ X (a / PAGE_SIZE) ->
    load8 s'.(mem) a = load8 s.(mem) a;
  kp_ok : ram_ok s.(mem) -> ram_ok s'.(mem);
}.

#[export] Instance keeps_preorder X : PreOrder (keeps X).
Proof.
  split.
  - intros s. by constructor.
  - intros s t u [O1 B1 R1] [O2 B2 R2]. constructor; [auto| |auto].
    intros a Ha HX. rewrite B2 by auto. by apply B1.
Qed.

Lemma keeps_mono (X Y : Z -> Prop) s s' : (forall q, X q -> Y q) -> keeps X s s' -> keeps Y s s'.
Proof. intros HXY [O B R]. constructor; [done| |done]. intros a Ha HY. apply B; auto. Qed.

(** A word of an owned page outside [X]. *)
Lemma keeps_word X s s' f i : keeps X s s' -> ram_ok s.(mem) ->
  owned s.(fw) f = true -> ~ X f -> idx_ok i ->
  s'.(mem) !!! (f * 4096 + 8 * i) = s.(mem) !!! (f * 4096 + 8 * i).
Proof.
  intros [O B R] Hok Hf HX Hi. unfold idx_ok in Hi.
  replace (f * 4096 + 8 * i) with (8 * (f * 512 + i)) by lia.
  apply word_ext; [by apply R|done|]. intros j Hj. 
  assert ((8 * (f * 512 + i) + j) / PAGE_SIZE = f) as E.
  { unfold PAGE_SIZE. symmetry. apply (Z.div_unique _ _ _ (8 * i + j)); lia. }
  apply B; by rewrite E.
Qed.

(** Only the firmware's own state has changed. *)
Lemma keeps_fw X s s' : (forall q, owned s'.(fw) q = owned s.(fw) q) -> s'.(mem) = s.(mem) -> keeps X s s'.
Proof. intros O M. constructor; [intros q; by rewrite O|by rewrite M|by rewrite M]. Qed.

(** ** Steps that leave memory and ownership alone *)

Record quiet (s s' : loader F) : Prop := {
  qt_owned : forall q, owned s'.(fw) q = owned s.(fw) q;
  qt_mem : s'.(mem) = s.(mem);
  qt_pools : s'.(pools) = s.(pools);
  qt_handles : s'.(handles) = s.(handles);
  qt_cr3 : s'.(cr3) = s.(cr3);
}.

#[export] Instance quiet_preorder : PreOrder quiet.
Proof.
  split; [by constructor|]. intros s t u [O1 M1 P1 H1 C1] [O2 M2 P2 H2 C2].
  constructor; [intros; by rewrite O2, O1|congruence..].
Qed.

Lemma quiet_keeps X s s' : quiet s s' -> keeps X s s'.
Proof. intros [O M _ _ _]. by apply keeps_fw. Qed.

(** A service that does not hand out pages. *)
Lemma call_quiet {A : Type} (service : F -> A * F) s :
  (forall f q, owned (service f).2 q = owned f q) ->
  exists s', call service s = Done ((service s.(fw)).1, s') /\ quiet s s'.
Proof.
  intros Ho. unfold call. specialize (Ho s.(fw)). destruct (service s.(fw)) as [a f].
  eexists. split; [done|]. by constructor.
Qed.

Lemma tell_quiet (service : F -> F) s : (forall f q, owned (service f) q = owned f q) ->
  exists s', tell service s = Done (tt, s') /\ quiet s s'.
Proof. intros Ho. eexists. split; [done|]. constructor; [intros; apply Ho|done..]. Qed.

Lemma output_quiet str s : exists s', output_string str s = Done (tt, s') /\ quiet s s'.
Proof. eexists. split; [done|]. constructor; try done. intros q. apply fl_output. Qed.
End keeps.
#[export] Existing Instance keeps_preorder.
#[export] Existing Instance quiet_preorder.

(** Runs a step that is [quiet]. *)
Ltac quietly E := let s' := fresh "t" in let Q := fresh "Q" in let R := fresh "R" in
  destruct E as (s' & R & Q); rewrite (bind_eq _ _ _ _ _ R).
