(* ===== verification/BootLib.v ===== *)
(** * The loader's strings, messages and CPU identification

    The helper routines of [bootloader/uefi.c].  A CHAR16 string is the list
    of its characters without the terminating 0; a fixed array of [n]
    characters is a list of length [n]. *)

From S2P Require Import Prelude Stdio Efi.

(** [L"\r\n"] *)
Definition crlf : list Z := [13; 10].

(** ** Tables *)

Definition pci_vendors : list (Z * list Z) :=
  [ (0x8086, L "Intel"); (0x10DE, L "NVIDIA"); (0x1002, L "AMD"); (0x1022, L "AMD");
    (0x1234, L "QEMU VGA"); (0x1AF4, L "VirtIO"); (0x1B36, L "Red Hat") ].

Definition isCPUVMArray : list (list Z * Z) :=
  [ (L "AuthenticAMD", 0);
    (L "AMDisbetter!", 0);
    (L "GenuineIntel", 0);
    (L "VIAVIAVIA", 0);
    (L "GenuineTMx86", 0);
    (L "TransmetaCPU", 0);
    (L "CyrixInstead", 0);
    (L "CentaurHauls", 0);
    (L "NexGenDriven", 0);
    (L "UMCUMCUMC", 0);
    (L "SiSSiSSiS", 0);
    (L "GeodebyNSC", 0);
    (L "RiseRiseRise", 0);
    (L "Vortex86SoC", 0);
    (L "MiSTerAO486", 0);
    (L "GenuineAO486", 0);
    (L "Shanghai", 0);
    (L "HygonGenuine", 0);
    (L "E2K MACHINE ", 0);
    (L "TCGTCGTCGTCG", 1);
    (L "KVMKVMKVM", 1);
    (L "VMwareVMware", 1);
    (L "VBoxVBoxVBox", 1);
    (L "XenVMMXenVMM", 1);
    (L "MicrosoftHv", 1);
    (L "prlhyperv", 1);
    (L "lrpepyhvr", 1);
    (L "bhyvebhyve", 1);
    (L "QNXQVMBSQG", 1) ].

(** The names of the status codes, with the number below the error bit. *)
Definition efi_status_char16 : list (list Z * Z) :=
  [ (L "EFI_LOAD_ERROR", efi_err 1);
    (L "EFI_INVALID_PARAMETER", efi_err 2);
    (L "EFI_UNSUPPORTED", efi_err 3);
    (L "EFI_BAD_BUFFER_SIZE", efi_err 4);
    (L "EFI_BUFFER_TOO_SMALL", efi_err 5);
    (L "EFI_NOT_READY", efi_err 6);
    (L "EFI_DEVICE_ERROR", efi_err 7);
    (L "EFI_WRITE_PROTECTED", efi_err 8);
    (L "EFI_OUT_OF_RESOURCES", efi_err 9);
    (L "EFI_VOLUME_CORRUPTED", efi_err 10);
    (L "EFI_VOLUME_FULL", efi_err 11);
    (L "EFI_NO_MEDIA", efi_err 12);
    (L "EFI_MEDIA_CHANGED", efi_err 13);
    (L "EFI_NOT_FOUND", efi_err 14);
    (L "EFI_ACCESS_DENIED", efi_err 15);
    (L "EFI_NO_RESPONSE", efi_err 16);
    (L "EFI_NO_MAPPING", efi_err 17);
    (L "EFI_TIMEOUT", efi_err 18);
    (L "EFI_NOT_STARTED", efi_err 19);
    (L "EFI_ALREADY_STARTED", efi_err 20);
    (L "EFI_ABORTED", efi_err 21);
    (L "EFI_ICMP_ERROR", efi_err 22);
    (L "EFI_TFTP_ERROR", efi_err 23);
    (L "EFI_PROTOCOL_ERROR", efi_err 24);
    (L "EFI_INCOMPATIBLE_VERSION", efi_err 25);
    (L "EFI_SECURITY_VIOLATION", efi_err 26);
    (L "EFI_CRC_ERROR", efi_err 27);
    (L "EFI_END_OF_MEDIA", efi_err 28);
    (L "EFI_END_OF_FILE", efi_err 31);
    (L "EFI_INVALID_LANGUAGE", efi_err 32);
    (L "EFI_COMPROMISED_DATA", efi_err 33);
    (L "EFI_IP_ADDRESS_CONFLICT", efi_err 34);
    (L "EFI_HTTP_ERROR", efi_err 35) ].

Definition efi_pixel_map_array : list (list Z * Z) :=
  [ (L "PixelRedGreenBlueReserved8BitPerColor", PixelRedGreenBlueReserved8BitPerColor);
    (L "PixelBlueGreenRedReserved8BitPerColor", PixelBlueGreenRedReserved8BitPerColor);
    (L "PixelBitMask", PixelBitMask);
    (L "PixelBltOnly", PixelBltOnly);
    (L "PixelFormatMax", PixelFormatMax) ].

(** ** Strings *)

(** The characters up to the 0; two strings are walked together. *)
Fixpoint strcmp16 (x y : list Z) : Z :=
  match x with
  | [] => 0 - hd 0 y
  | c :: x' => if c =? hd 0 y then strcmp16 x' (tl y) else c - hd 0 y
  end.

Fixpoint find_cpu (string : list Z) (l : list (list Z * Z)) : Z :=
  match l with
  | [] => 2
  | (name, vm) :: r => if strcmp16 string name =? 0 then vm else find_cpu string r
  end.
Definition isCPUVM (string : list Z) : Z := find_cpu string isCPUVMArray.

(** A [char] is signed: its conversion to CHAR16 sign-extends. *)
Definition char_to_char16 (c : Z) : Z := if c <? 128 then c else u16 (c - 256).

(** The characters of a char array up to its 0. *)
Fixpoint until_nul (l : list Z) : list Z :=
  match l with [] => [] | c :: r => if c =? 0 then [] else c :: until_nul r end.

(** A destination of [max_len] characters. *)
Definition ascii_to_char16 (src : list Z) (max_len : nat) : list Z :=
  map char_to_char16 (take (max_len - 1) (until_nul src)).

(** The digits of [n] as [decimalConvert] stores them, lowest first, in at
    most [room] characters. *)
Fixpoint decimal_loop (fuel : nat) (room : nat) (n : Z) : list Z :=
  match fuel with
  | O => []
  | S k =>
      match room with
      | O => []
      | S room' =>
          (48 + n mod 10) :: (if n / 10 =? 0 then [] else decimal_loop k room' (n / 10))
      end
  end.

(** [for (i = 0; i < pos / 2; i++)] swap [buf[i]] and [buf[pos - 1 - i]] *)
Definition reverse_in_place (buf : list Z) : list Z :=
  let pos := Z.of_nat (length buf) in
  for_up (Z.to_nat (pos / 2)) 0 (fun i b =>
    let t := aget b i in
    aset (aset b i (aget b (pos - 1 - i))) (pos - 1 - i) t) buf.

(** [None] when nothing is stored. *)
Definition decimalConvert (n : Z) (buf_size : nat) : option (list Z) :=
  match buf_size with
  | O => None
  | S room => Some (reverse_in_place (decimal_loop 20 room n))
  end.
Definition decimal (n : Z) (buf_size : nat) : list Z := default [] (decimalConvert n buf_size).

(** ** The console *)

Section console.
Context {F : Type} `{Firmware F}.

Definition uefi_print (str : list Z) : M (loader F) unit := output_string str.
Definition uefi_println (str : list Z) : M (loader F) unit :=
  _ ← output_string str; output_string crlf.

Fixpoint status_name (l : list (list Z * Z)) (code : Z) : option (list Z) :=
  match l with
  | [] => None
  | (name, value) :: r => if value =? code then Some name else status_name r code
  end.

Definition uefi_status_println (stat : Z) : M (loader F) unit :=
  match status_name efi_status_char16 stat with
  | Some name => _ ← output_string name; output_string crlf
  | None =>
      _ ← output_string (L "EFI_STATUS_UNKNOWN: ");
      _ ← output_string (decimal stat 32);
      output_string crlf
  end.
Definition uefi_status_print (stat : Z) : M (loader F) unit :=
  match status_name efi_status_char16 stat with
  | Some name => output_string name
  | None =>
      _ ← output_string (L "EFI_STATUS_UNKNOWN: ");
      output_string (decimal stat 32)
  end.

Definition uefi_print_hex (value : Z) : M (loader F) unit := uefi_println (uint64_to_hex value).

(** The last entry of the value wins. *)
Definition pixel_format_name (pixelFormat : Z) : list Z :=
  fold_left (fun name a => if a.2 =? pixelFormat then a.1 else name) efi_pixel_map_array
    (L "NoneFound").

Definition printGOPStats (info : mode_info) : M (loader F) unit :=
  _ ← uefi_println (L "M--------------------");
  _ ← uefi_print (9 :: L "Version             :");
  _ ← uefi_println (decimal info.(Version) 32);
  _ ← uefi_print (9 :: L "Resolution          :");
  _ ← uefi_print (decimal info.(HorizontalResolution) 32);
  _ ← uefi_print (L "x");
  _ ← uefi_println (decimal info.(VerticalResolution) 32);
  _ ← uefi_print (9 :: L "Pixel per scanline  :");
  _ ← uefi_println (decimal info.(PixelsPerScanLine) 32);
  _ ← uefi_print (9 :: L "Pixel formation     :");
  uefi_println (pixel_format_name info.(PixelFormat)).

(** The serial port: one [outb] per character. *)
Definition serial_write (str : list Z) : M (loader F) unit := modify (fun s =>
  mk_loader s.(fw) s.(mem) s.(con) (s.(ser) ++ str) s.(pools) s.(handles) s.(cr3)).
Definition serial_write_hex (value : Z) : M (loader F) unit :=
  _ ← serial_write (uint64_to_hex value); serial_write [10].
End console.

(** ** The processor and the devices *)

(** The name and [*status]. *)
Fixpoint find_vendor (l : list (Z * list Z)) (id : Z) : option (list Z) :=
  match l with
  | [] => None
  | (i, name) :: r => if i =? id then Some name else find_vendor r id
  end.
Definition pci_vendor_name (id : Z) (status : Z) : list Z * Z :=
  match find_vendor pci_vendors id with
  | Some name => (name, status)
  | None => (L "Unknown", 1)
  end.

(** The four bytes of a register, as a store puts them in a char array. *)
Definition reg_bytes (r : Z) : list Z :=
  [u8 r; u8 (r / 256); u8 (r / 65536); u8 (r / 16777216)].

(** [__get_cpuid] of the compiler: EAX, EBX, ECX and EDX of a leaf, which it
    stores through its four pointers; [None] when the processor does not have
    the leaf, and then it stores nothing. *)
Definition cpuid_fn : Type := Z -> option (Z * Z * Z * Z).

(** [regs0]: the values of the uninitialised [eax], [ebx], [ecx] and [edx]. *)
Definition get_cpu_vendor (cpuid : cpuid_fn) (regs0 : Z * Z * Z * Z) : list Z :=
  let '(_, ebx, ecx, edx) := default regs0 (cpuid 0) in
  reg_bytes ebx ++ reg_bytes edx ++ reg_bytes ecx ++ [0].

(** [regs0]: the uninitialised array [regs], which the rounds share. *)
Definition get_cpu_brand (cpuid : cpuid_fn) (regs0 : Z * Z * Z * Z) : list Z :=
  let regs2 := default regs0 (cpuid 0x80000002) in
  let regs3 := default regs2 (cpuid 0x80000003) in
  let regs4 := default regs3 (cpuid 0x80000004) in
  let bytes r := let '(a, b, c, d) := r : Z * Z * Z * Z in
    reg_bytes a ++ reg_bytes b ++ reg_bytes c ++ reg_bytes d in
  bytes regs2 ++ bytes regs3 ++ bytes regs4 ++ [0].

(** The twelve characters before the terminating 0. *)
Definition vendor_to_char16 (vendor : list Z) : list Z :=
  map (fun c => if c =? 0 then 32 else char_to_char16 c) (take 12 vendor).
