(* ===== verification/BootPaging.v ===== *)
(** * The address space of the hand-off

    The page tables [bootloader/uefi.c] builds before it enters the kernel:
    2 MiB pages for the first 512 GiB, and 4 KiB pages for what lies above. *)

From S2P Require Import Prelude Pmm PageTable Efi.

Definition HANDOFF_IDENTITY_SIZE : Z := 512 * 1024 * 1024 * 1024.

(** A run that ends with [goto panic] has the result [None]. *)
Definition attempt {S A B : Type} (m : M S (option A)) (k : A -> M S (option B)) : M S (option B) :=
  x ← m; match x with Some a => k a | None => mret None end.
Notation "x ←? m ; k" := (attempt m (fun x => k)) (at level 20, m at level 100, k at level 200, right associativity).
Notation "' x ←? m ; k" := (attempt m (fun y => let 'x := y in k))
  (at level 20, x pattern, m at level 100, k at level 200, right associativity).

(** [if (EFI_ERROR(Status)) goto panic;] *)
Definition or_panic {S A : Type} (m : M S (Z * A)) : M S (option A) :=
  '(Status, a) ← m; mret (if EFI_ERROR Status then None else Some a).

Section paging.
Context {F : Type} `{Firmware F}.

Definition load_word (a : Z) : M (loader F) Z := gets (fun s => s.(mem) !!! a).
Definition store_word (a v : Z) : M (loader F) unit := on_mem (fun m => <[a := v]> m).

Definition allocate_pages (type : EFI_ALLOCATE_TYPE) (pages addr : Z) : M (loader F) (Z * Z) :=
  call (AllocatePages type EfiLoaderData pages addr).

Definition allocate_table : M (loader F) (Z * Z) :=
  '(status, addr) ← allocate_pages AllocateAnyPages 1 0;
  if EFI_ERROR status then mret (status, addr) else
  _ ← on_mem (SetMem addr PAGE_SIZE 0);
  mret (EFI_SUCCESS, addr).

(** One level of [map_handoff_page]: the table an entry points to, allocated
    when the entry is not present. *)
Definition handoff_level (table i : Z) : M (loader F) (Z * Z) :=
  e ← load_word (table + 8 * i);
  if present e then mret (EFI_SUCCESS, Z.land e PTE_ADDR_MASK) else
  '(status, table_addr) ← allocate_table;
  if EFI_ERROR status then mret (status, 0) else
  _ ← store_word (table + 8 * i) (link_entry table_addr);
  e' ← load_word (table + 8 * i);
  mret (EFI_SUCCESS, Z.land e' PTE_ADDR_MASK).

Definition map_handoff_page (pml4 physical : Z) : M (loader F) Z :=
  '(s1, pdpt) ← handoff_level pml4 (pml4_index physical);
  if EFI_ERROR s1 then mret s1 else
  '(s2, pd) ← handoff_level pdpt (pdpt_index physical);
  if EFI_ERROR s2 then mret s2 else
  '(s3, pt) ← handoff_level pd (pd_index physical);
  if EFI_ERROR s3 then mret s3 else
  _ ← store_word (pt + 8 * pt_index physical) (link_entry (Z.land physical PTE_ADDR_MASK));
  mret EFI_SUCCESS.

Fixpoint handoff_loop (fuel : nat) (pml4 page end_ : Z) : M (loader F) Z :=
  if negb (page <? end_) then mret EFI_SUCCESS else
  match fuel with
  | O => fault
  | S n =>
      if page <? HANDOFF_IDENTITY_SIZE then handoff_loop n pml4 (u64 (page + PAGE_SIZE)) end_ else
      status ← map_handoff_page pml4 page;
      if EFI_ERROR status then mret status
      else handoff_loop n pml4 (u64 (page + PAGE_SIZE)) end_
  end.

(** [size / PAGE_SIZE + 2] steps are enough for every range that does not
    reach the last page of the address space. *)
Definition map_handoff_range (pml4 physical size : Z) : M (loader F) Z :=
  let start := physical - physical mod PAGE_SIZE in
  let end_ := u64 (physical + size) in
  if end_ <? physical then mret EFI_INVALID_PARAMETER
  else handoff_loop (Z.to_nat (size / PAGE_SIZE + 2)) pml4 start end_.

(** ** The first 512 GiB *)

Definition huge_entry (physical : Z) : Z :=
  Z.lor (Z.lor (Z.lor physical PTE_PRESENT) PTE_RW) PTE_PS.

(** [pd_addr[i]] for [i < n]. *)
Fixpoint allocate_pds (n : nat) : M (loader F) (option (list Z)) :=
  match n with
  | O => mret (Some [])
  | S n' =>
      a ←? or_panic (allocate_pages AllocateAnyPages 1 0);
      r ←? allocate_pds n';
      mret (Some (a :: r))
  end.

Definition clear_pages (l : list Z) (m : ram) : ram :=
  fold_left (fun m a => SetMem a PAGE_SIZE 0 m) l m.

Definition fill_pd (pd j : Z) (m : ram) : ram :=
  for_up 512 0 (fun i m => <[pd + 8 * i := huge_entry (j * 0x40000000 + i * 0x200000)]> m) m.

Definition fill_tables (pml4 pdpt : Z) (pds : list Z) (m : ram) : ram :=
  for_up 512 0 (fun j m =>
    let pd := aget pds j in
    fill_pd pd j (<[pdpt + 8 * j := link_entry pd]> m))
    (<[pml4 + 8 * 0 := link_entry pdpt]> m).

(** The tables, with the address of the PML4. *)
Definition build_tables : M (loader F) (option Z) :=
  pml4 ←? or_panic (allocate_pages AllocateAnyPages 1 0);
  pdpt ←? or_panic (allocate_pages AllocateAnyPages 1 0);
  pds ←? allocate_pds 512;
  _ ← on_mem (fun m => fill_tables pml4 pdpt pds (clear_pages (pml4 :: pdpt :: pds) m));
  mret (Some pml4).
End paging.
