(* ===== verification/BootPagingFacts.v ===== *)
(** * The hand-off address space: lemmas

    [space]: the first 512 GiB are mapped by 2 MiB pages behind entry 0 of the
    PML4, and the other entries lead to a tree of tables as in [PageTable],
    each in a page of its own.  [upper] hides entry 0, so that the theory of
    [PageTable] applies to the rest. *)

From S2P Require Import Prelude Pmm PageTable Efi EfiFacts BootPaging.

(** ** Memories with the same table words *)

Definition same_words (m m' : gmap Z Z) : Prop :=
  forall f i, idx_ok i -> m !!! (f * 4096 + 8 * i) = m' !!! (f * 4096 + 8 * i).

#[export] Instance same_words_equiv : Equivalence same_words.
Proof.
  split; [done|intros m m' E f i Hi; by rewrite E|].
  intros m1 m2 m3 E1 E2 f i Hi. by rewrite E1, E2.
Qed.

#[export] Instance same_words_insert : Proper (eq ==> eq ==> same_words ==> same_words) insert.
Proof.
  intros a ? <- v ? <- m m' E f i Hi. rewrite !lookup_total_insert. case_decide; [done|by apply E].
Qed.

#[export] Instance same_words_zero_page : Proper (eq ==> same_words ==> same_words) zero_page.
Proof.
  intros c ? <- m m' E f i Hi.
  set (d := f * 4096 + 8 * i - c).
  destruct (decide (d mod 8 = 0 /\ 0 <= d < 4096)) as [[Hd Hr]|Hn].
  - replace (f * 4096 + 8 * i) with (c + 8 * (d / 8)) by (subst d; Z.div_mod_to_equations; lia).
    rewrite !zero_page_in; [done|unfold idx_ok; Z.div_mod_to_equations; lia..].
  - assert (forall k, idx_ok k -> f * 4096 + 8 * i <> c + 8 * k) as Hk.
    { intros k Hk E'. apply Hn. unfold idx_ok in Hk. replace d with (k * 8) by lia.
      rewrite Z.mod_mul by lia. lia. }
    rewrite !zero_page_out by done. by apply E.
Qed.

#[export] Instance same_words_link t i c : Proper (same_words ==> same_words) (link_table t i c).
Proof. intros m m' E. apply same_words_insert; [done..|]. by apply same_words_zero_page. Qed.

Lemma descend_ext m m' q : same_words m m' -> Forall idx_ok q -> forall f,
  descend m (f * 4096) q = descend m' (f * 4096) q.
Proof.
  intros E Hq. induction Hq as [|i q Hi Hq IH]; intros f; [done|]. cbn [descend]. unfold step. cbv zeta.
  rewrite (E f i Hi). destruct (present _); [|done].
  destruct (mask_is_frame (m' !!! (f * 4096 + 8 * i))) as (g & -> & _). apply IH.
Qed.

Lemma tables_ext m m' f used : same_words m m' -> tables_wf m (f * 4096) used ->
  tables_wf m' (f * 4096) used.
Proof.
  intros E Hwf. pose proof (fun q Hq => descend_ext m m' q E Hq f) as D. constructor.
  - intros q a Hq. rewrite <-D by apply Hq. by apply (tw_frame _ _ _ Hwf).
  - intros p q a Hp Hq. rewrite <-!D by (apply Hp || apply Hq). by apply (tw_inj _ _ _ Hwf).
  - intros q a i Hq Hl Hi Ha. rewrite <-D in Ha by apply Hq.
    destruct (tw_frame _ _ _ Hwf q a Hq Ha) as (g & -> & _). rewrite <-E by done.
    by apply (tw_nops _ _ _ Hwf q).
Qed.

Lemma leaf_ext m m' f used v : same_words m m' -> tables_wf m (f * 4096) used ->
  leaf m (f * 4096) v = leaf m' (f * 4096) v.
Proof.
  intros E Hwf. unfold leaf. pose proof (vpath_ok v) as Hv.
  rewrite <-(descend_ext m m' (vpath v) E) by apply Hv.
  destruct (descend m (f * 4096) (vpath v)) as [a|] eqn:Ha; [|done].
  destruct (tw_frame _ _ _ Hwf _ _ Hv Ha) as (g & -> & _). rewrite E; [done|auto with archa].
Qed.

(** ** Clearing a page *)

Lemma load8_frame_word m f i j : 0 <= j < 8 ->
  load8 m (f * 4096 + 8 * i + j) = Z.land (Z.shiftr (m !!! (f * 4096 + 8 * i)) (8 * j)) 0xFF.
Proof.
  intros Hj. unfold load8.
  assert ((f * 4096 + 8 * i + j) / 8 = f * 512 + i /\ (f * 4096 + 8 * i + j) mod 8 = j) as [-> ->].
  { split; [symmetry; apply (Z.div_unique _ _ _ j); lia
           |symmetry; apply (Z.mod_unique _ _ (f * 512 + i)); lia]. }
  by replace (8 * (f * 512 + i)) with (f * 4096 + 8 * i) by lia.
Qed.

(** Words of a page, from its bytes. *)
Lemma frame_word_ext (m m' : gmap Z Z) f i : ram_ok m -> ram_ok m' ->
  (forall j, 0 <= j < 8 -> load8 m (f * 4096 + 8 * i + j) = load8 m' (f * 4096 + 8 * i + j)) ->
  m !!! (f * 4096 + 8 * i) = m' !!! (f * 4096 + 8 * i).
Proof.
  intros Hm Hm' E. replace (f * 4096 + 8 * i) with (8 * (f * 512 + i)) in * by lia.
  by apply word_ext.
Qed.

Lemma zero_page_ok c m : ram_ok m -> ram_ok (zero_page c m).
Proof.
  intros Hm. unfold zero_page.
  apply (for_up_inv (fun _ m => ram_ok m) (fun i m => <[c + 8 * i := 0]> m) 512 0 m); [done|].
  intros k t _ Ht. apply insert_ok; [done|]. unfold in_u64. lia.
Qed.

Section firmware.
Context {F : Type} `{HL : FirmwareLaws F}.

Lemma set_page_zero f m : ram_ok m -> same_words (SetMem (f * 4096) PAGE_SIZE 0 m) (zero_page (f * 4096) m).
Proof.
  intros Hm g i Hi. apply frame_word_ext; [by apply fl_set_ok|by apply zero_page_ok|].
  intros j Hj. rewrite fl_set by done. unfold idx_ok in Hi.
  destruct (in_bytes (f * 4096) PAGE_SIZE (g * 4096 + 8 * i + j)) eqn:E.
  - apply in_bytes_spec in E. unfold PAGE_SIZE in E. assert (g = f) as -> by lia.
    rewrite load8_frame_word, zero_page_in by done. by rewrite Z.shiftr_0_l.
  - apply in_bytes_false in E. unfold PAGE_SIZE in E.
    rewrite !load8_frame_word by done. rewrite zero_page_out; [done|].
    intros k Hk E'. apply word_inj in E' as [-> _]; [lia|done|done].
Qed.

(** ** The space *)

Definition upper (r : Z) (m : gmap Z Z) : gmap Z Z := <[r * 4096 := 0]> m.

(** The pages of the tables above entry 0: owned, and none of the low ones. *)
Definition table_page (f : F) (low : list Z) (g : Z) : bool :=
  owned f g && bool_decide (g ∉ low).

(** [r], [pt] and [pds]: the page numbers of the PML4, of the PDPT behind its
    entry 0 and of the 512 page directories; [P]: the page numbers above
    512 GiB that are mapped. *)
Record space (r pt : Z) (pds : list Z) (P : Z -> bool) (s : loader F) : Prop := {
  sp_ok : ram_ok s.(mem);
  sp_frames : forall g, g ∈ r :: pt :: pds -> 0 < g < 2 ^ 40 /\ owned s.(fw) g = true;
  sp_nodup : NoDup (r :: pt :: pds);
  sp_len : length pds = 512%nat;
  sp_id4 : s.(mem) !!! (r * 4096 + 8 * 0) = link_entry (pt * 4096);
  sp_id3 : forall j, idx_ok j -> s.(mem) !!! (pt * 4096 + 8 * j) = link_entry (aget pds j * 4096);
  sp_id2 : forall i j, idx_ok i -> idx_ok j ->
    s.(mem) !!! (aget pds j * 4096 + 8 * i) = huge_entry (j * 0x40000000 + i * 0x200000);
  sp_wf : tables_wf (upper r s.(mem)) (r * 4096) (table_page s.(fw) (pt :: pds));
  sp_leaf : forall v, leaf_addr v (leaf (upper r s.(mem)) (r * 4096) v) =
    if P (vpn v) then Some (v mod 2 ^ 48) else None;
}.

(** The pages that hold tables. *)
Definition in_tables (r pt : Z) (pds : list Z) (s : loader F) (g : Z) : Prop :=
  g ∈ pt :: pds \/ ~ not_table (upper r s.(mem)) (r * 4096) g.

Lemma in_tables_path r pt pds s q g : path_ok q ->
  descend (upper r s.(mem)) (r * 4096) q = Some (g * 4096) -> in_tables r pt pds s g.
Proof. intros Hq Hd. right. intros Hn. by apply (Hn q _ Hq Hd). Qed.

Lemma aget_in (l : list Z) j : 0 <= j < Z.of_nat (length l) -> aget l j ∈ l.
Proof.
  intros Hj. unfold aget. rewrite (proj2 (Z.ltb_ge _ _)) by lia.
  apply list_elem_of_lookup_2 with (Z.to_nat j).
  apply list_lookup_lookup_total_lt. lia.
Qed.

(** A tree is determined by the words of its tables. *)
Lemma tables_agree m m' f used : tables_wf m (f * 4096) used ->
  (forall q a i, path_ok q -> idx_ok i -> descend m (f * 4096) q = Some a ->
     m' !!! (a + 8 * i) = m !!! (a + 8 * i)) ->
  tables_wf m' (f * 4096) used /\
  (forall q, path_ok q -> descend m' (f * 4096) q = descend m (f * 4096) q) /\
  forall v, leaf m' (f * 4096) v = leaf m (f * 4096) v.
Proof.
  intros Hwf E.
  assert (forall q, path_ok q -> descend m' (f * 4096) q = descend m (f * 4096) q) as D.
  { intros q. induction q as [|i q IH] using rev_ind; intros Hq; [done|].
    apply path_ok_snoc_inv in Hq as (Hq & _ & Hi). rewrite !descend_snoc, IH by done.
    destruct (descend m (f * 4096) q) as [a|] eqn:Ha; [|done]. unfold step. by rewrite (E q). }
  split_and!; [|done|].
  - constructor.
    + intros q a Hq. rewrite D by done. by apply (tw_frame _ _ _ Hwf).
    + intros p q a Hp Hq. rewrite !D by done. by apply (tw_inj _ _ _ Hwf).
    + intros q a i Hq Hl Hi Ha. rewrite D in Ha by done. rewrite (E q) by done.
      by apply (tw_nops _ _ _ Hwf q).
  - intros v. unfold leaf. rewrite D by apply vpath_ok.
    destruct (descend m _ _) as [a|] eqn:Ha; [|done].
    rewrite (E (vpath v)); auto using vpath_ok with archa.
Qed.

Section fixed.
Context (r pt : Z) (pds : list Z).

Lemma space_nodup s P : space r pt pds P s -> r ∉ pt :: pds /\ pt ∉ pds.
Proof. intros [_ _ Hnd _ _ _ _ _ _]. by apply NoDup_cons in Hnd as [? [? ?]%NoDup_cons]. Qed.

(** The tree above entry 0 has its tables in pages that are none of the low ones. *)
Lemma space_table s P q a : space r pt pds P s -> path_ok q ->
  descend (upper r s.(mem)) (r * 4096) q = Some a ->
  exists g, a = g * 4096 /\ 0 < g < 2 ^ 40 /\ owned s.(fw) g = true /\ g ∉ pt :: pds.
Proof.
  intros Hs Hq Ha. destruct (tw_frame _ _ _ (sp_wf _ _ _ _ _ Hs) q a Hq Ha) as (g & -> & Hg & Hu).
  unfold table_page in Hu. apply andb_true_iff in Hu as [? Hu%bool_decide_eq_true].
  by exists g.
Qed.

(** A word of the upper tree is a word of memory, entry 0 of the root apart. *)
Lemma upper_word m g i : idx_ok i -> (g, i) <> (r, 0) ->
  upper r m !!! (g * 4096 + 8 * i) = m !!! (g * 4096 + 8 * i).
Proof.
  intros Hi Hne. unfold upper. apply lookup_total_insert_ne. intros E.
  replace (r * 4096) with (r * 4096 + 8 * 0) in E by lia.
  apply word_inj in E as [-> <-]; [done|unfold idx_ok; lia|done].
Qed.

(** States that agree on the tables have the same space. *)
Lemma space_keeps X P s s' : space r pt pds P s -> keeps X s s' ->
  (forall g, in_tables r pt pds s g -> ~ X g) ->
  space r pt pds P s' /\ forall g, in_tables r pt pds s' g <-> in_tables r pt pds s g.
Proof.
  intros Hs HK HX. pose proof Hs as [Hok Hfr Hnd Hlen H4 H3 H2 Hwf Hlf].
  pose proof (space_nodup s P Hs) as [Hr Hpt].
  assert (forall g i, idx_ok i -> in_tables r pt pds s g -> owned s.(fw) g = true ->
    s'.(mem) !!! (g * 4096 + 8 * i) = s.(mem) !!! (g * 4096 + 8 * i)) as Hw.
  { intros g i Hi Hg Ho. apply (keeps_word X); [done..|by apply HX|done]. }
  assert (in_tables r pt pds s r) as Htr.
  { apply (in_tables_path _ _ _ _ []); [path_tac|done]. }
  assert (idx_ok 0) as HI by (unfold idx_ok; lia).
  destruct (tables_agree (upper r s.(mem)) (upper r s'.(mem)) r _ Hwf) as (Hwf' & D & Lf).
  { intros q a i Hq Hi Ha. destruct (space_table s P q a Hs Hq Ha) as (g & -> & _ & Ho & _).
    destruct (decide ((g, i) = (r, 0))) as [[= -> ->]|Hne].
    - unfold upper. replace (r * 4096 + 8 * 0) with (r * 4096) by lia.
      by rewrite !lookup_total_insert_eq.
    - rewrite !upper_word by done. apply Hw; [done| |done]. by apply (in_tables_path _ _ _ _ q). }
  split.
  - constructor; try done.
    + by apply (kp_ok _ _ _ HK).
    + intros g Hg. destruct (Hfr g Hg) as [? ?]. split; [done|]. by apply (kp_owned _ _ _ HK).
    + rewrite Hw; [done..|]. apply Hfr. set_solver.
    + intros j Hj. rewrite Hw; [by apply H3|done|left; set_solver|apply Hfr; set_solver].
    + intros i j Hi Hj. assert (aget pds j ∈ pds) as Hin by (apply aget_in; unfold idx_ok in Hj; lia).
      rewrite Hw; [by apply H2|done|left; set_solver|apply Hfr; set_solver].
    + refine (tables_wf_mono _ _ _ _ _ Hwf'). intros g _. unfold table_page.
      rewrite !andb_true_iff. intros [? ?]. split; [|done]. by apply (kp_owned _ _ _ HK).
    + intros v. by rewrite Lf.
  - intros g. unfold in_tables, not_table. split; (intros [Hg|Hn]; [by left|right]);
      intros Hc; apply Hn; intros q a Hq Ha; (apply (Hc q a Hq)); [by rewrite <-D|by rewrite D].
Qed.

(** ** One table more *)

Definition grows (s s' : loader F) : Prop :=
  keeps (in_tables r pt pds s) s s' /\
  forall g, owned s.(fw) g = true -> in_tables r pt pds s' g -> in_tables r pt pds s g.

#[export] Instance grows_preorder : PreOrder grows.
Proof.
  split; [intros s; split; [done|auto]|].
  intros s t u [K1 T1] [K2 T2]. split.
  - destruct K1 as [O1 B1 R1], K2 as [O2 B2 R2]. constructor; [auto| |auto].
    intros a Ha Hn. rewrite B2; [by apply B1|auto|]. intros Hc. by apply Hn, T1.
  - intros g Hg Hu. apply T1; [done|]. apply T2; [|done]. by apply (kp_owned _ _ _ K1).
Qed.

Lemma load8_insert_frame (m : gmap Z Z) f i v a : idx_ok i -> a / PAGE_SIZE <> f ->
  load8 (<[f * 4096 + 8 * i := v]> m) a = load8 m a.
Proof.
  intros Hi Ha. unfold idx_ok in Hi. replace (f * 4096 + 8 * i) with (8 * (f * 512 + i)) by lia.
  apply load8_insert_word. intros E. apply Ha. unfold PAGE_SIZE.
  symmetry. apply (Z.div_unique _ _ _ (8 * i + a mod 8)); [|Z.div_mod_to_equations; lia].
  pose proof (Z.mod_pos_bound a 8). lia.
Qed.

Lemma link_entry_u64 f : 0 <= f < 2 ^ 40 -> in_u64 (link_entry (f * 4096)).
Proof. intros. rewrite link_entry_eq. unfold in_u64. lia. Qed.

(** The memory with a new table in page [g], linked at entry [i] of page [h]. *)
Definition link_mem (h i g : Z) (m : gmap Z Z) : gmap Z Z :=
  <[h * 4096 + 8 * i := link_entry (g * 4096)]> (SetMem (g * 4096) PAGE_SIZE 0 m).

Lemma link_mem_upper h i g m : ram_ok m -> idx_ok i -> (h, i) <> (r, 0) -> g <> r ->
  same_words (link_table (h * 4096) i (g * 4096) (upper r m)) (upper r (link_mem h i g m)).
Proof.
  intros Hm Hi Hne Hg. unfold link_table, link_mem, upper. intros f k Hk.
  assert (idx_ok 0) as HI by (unfold idx_ok; lia).
  destruct (decide ((f, k) = (r, 0))) as [[= -> ->]|Hfk].
  - replace (r * 4096 + 8 * 0) with (r * 4096) by lia. rewrite lookup_total_insert_eq.
    rewrite lookup_total_insert_ne.
    + rewrite zero_page_out; [by rewrite lookup_total_insert_eq|].
      intros j Hj E. replace (r * 4096) with (r * 4096 + 8 * 0) in E by lia.
      apply word_inj in E as [? _]; congruence.
    + intros E. replace (r * 4096) with (r * 4096 + 8 * 0) in E by lia.
      apply word_inj in E as [-> ->]; [done|done|done].
  - rewrite (lookup_total_insert_ne (<[_ := _]> _) (r * 4096)).
    2:{ intros E. replace (r * 4096) with (r * 4096 + 8 * 0) in E by lia.
        apply word_inj in E as [-> <-]; [done..|done]. }
    rewrite !lookup_total_insert. case_decide; [done|].
    rewrite <-(set_page_zero g (<[r * 4096 := 0]> m)); [|apply insert_ok; [done|unfold in_u64; lia]|done].
    apply frame_word_ext.
    + apply fl_set_ok, insert_ok; [done|unfold in_u64; lia].
    + by apply fl_set_ok.
    + intros j Hj. rewrite !fl_set by done. case_match; [done|].
      rewrite !load8_frame_word by done. rewrite lookup_total_insert_ne; [done|].
      intros E. replace (r * 4096) with (r * 4096 + 8 * 0) in E by lia.
      apply word_inj in E as [-> <-]; [done..|done].
Qed.

(** Outside the new page and the page of the link nothing changes. *)
Lemma link_mem_byte h i g m a : idx_ok i -> a / PAGE_SIZE <> h -> a / PAGE_SIZE <> g ->
  load8 (link_mem h i g m) a = load8 m a.
Proof.
  intros Hi Hh Hg. unfold link_mem. rewrite load8_insert_frame by done. rewrite fl_set by done.
  rewrite (proj2 (in_bytes_false _ _ _)); [done|]. intros Hb. apply Hg.
  unfold PAGE_SIZE in *. symmetry. apply (Z.div_unique _ _ _ (a - g * 4096)); lia.
Qed.

Lemma link_mem_ok h i g m : ram_ok m -> 0 <= g < 2 ^ 40 -> ram_ok (link_mem h i g m).
Proof. intros Hm Hg. apply insert_ok; [by apply fl_set_ok|by apply link_entry_u64]. Qed.

Lemma link_mem_word h i g m f k : ram_ok m -> 0 <= g < 2 ^ 40 -> idx_ok i -> idx_ok k -> f <> h -> f <> g ->
  link_mem h i g m !!! (f * 4096 + 8 * k) = m !!! (f * 4096 + 8 * k).
Proof.
  intros Hm Hg Hi Hk Hh Hfg. apply frame_word_ext; [by apply link_mem_ok|done|].
  intros j Hj. assert ((f * 4096 + 8 * k + j) / PAGE_SIZE = f) as E.
  { unfold PAGE_SIZE, idx_ok in *. symmetry. apply (Z.div_unique _ _ _ (8 * k + j)); lia. }
  apply link_mem_byte; [done|congruence..].
Qed.

Lemma low_r : r ∈ r :: pt :: pds.
Proof. apply elem_of_cons. by left. Qed.
Lemma low_pt : pt ∈ pt :: pds.
Proof. apply elem_of_cons. by left. Qed.

Section link.
Context (P : Z -> bool) (s : loader F) (p : list Z) (h i g : Z) (f' : F).
Context (Hs : space r pt pds P s) (Hp : path_ok p) (Hlen : (length p <= 2)%nat) (Hi : idx_ok i)
  (Hne : (h, i) <> (r, 0)) (Ht : descend (upper r s.(mem)) (r * 4096) p = Some (h * 4096))
  (Habs : present (s.(mem) !!! (h * 4096 + 8 * i)) = false)
  (Hg : 0 < g < 2 ^ 40) (Hfree : owned s.(fw) g = false)
  (Hown : forall q, owned f' q = owned s.(fw) q || (q =? g)).
Local Notation s' := (mk_loader f' (link_mem h i g s.(mem)) s.(con) s.(ser) s.(pools) s.(handles) s.(cr3)).

(** The new page is none of the low tables, and the page of the link is none of them but the root. *)
Lemma link_low x : x ∈ r :: pt :: pds -> x <> g.
Proof. intros Hx ->. destruct (sp_frames _ _ _ _ _ Hs g Hx) as [_ ?]. congruence. Qed.

Lemma link_from : 0 < h < 2 ^ 40 /\ h ∉ pt :: pds.
Proof. destruct (space_table s P p _ Hs Hp Ht) as (h' & Eh & ? & _ & ?). by assert (h' = h) as -> by lia. Qed.

Lemma link_fresh : table_page s.(fw) (pt :: pds) g = false.
Proof. unfold table_page. by rewrite Hfree. Qed.

Lemma link_owned x : table_page s.(fw) (pt :: pds) x = true -> table_page f' (pt :: pds) x = true.
Proof. unfold table_page. rewrite !andb_true_iff, Hown. intros [-> ?]. done. Qed.

Lemma link_new : table_page f' (pt :: pds) g = true.
Proof.
  unfold table_page. rewrite Hown, Z.eqb_refl, orb_true_r. apply bool_decide_eq_true.
  intros Hin. by apply (link_low g); [by apply elem_of_cons; right|].
Qed.

Lemma link_upper :
  same_words (link_table (h * 4096) i (g * 4096) (upper r s.(mem))) (upper r (link_mem h i g s.(mem))).
Proof.
  apply link_mem_upper; [apply (sp_ok _ _ _ _ _ Hs)|done..|]. apply not_eq_sym, link_low, low_r.
Qed.

Lemma link_tables : tables_wf (link_table (h * 4096) i (g * 4096) (upper r s.(mem))) (r * 4096)
  (table_page f' (pt :: pds)).
Proof.
  pose proof (sp_wf _ _ _ _ _ Hs) as Hwf.
  exact (link_wf _ _ _ _ p _ i g Hwf Hp Hlen Hi Ht Hg link_fresh (fun x _ => link_owned x) link_new).
Qed.

Lemma link_descend q : path_ok q -> descend (upper r s'.(mem)) (r * 4096) q =
  descend (link_table (h * 4096) i (g * 4096) (upper r s.(mem))) (r * 4096) q.
Proof. intros Hq. symmetry. apply descend_ext; [apply link_upper|apply Hq]. Qed.

Lemma link_elsewhere x k : idx_ok k -> x <> h -> x <> g ->
  s'.(mem) !!! (x * 4096 + 8 * k) = s.(mem) !!! (x * 4096 + 8 * k).
Proof. intros. apply link_mem_word; [apply (sp_ok _ _ _ _ _ Hs)|lia|done..]. Qed.

Lemma link_grows : grows s s'.
Proof.
  pose proof (sp_ok _ _ _ _ _ Hs) as Hok. split.
  - constructor.
    + intros q Hq. cbn. by rewrite Hown, Hq.
    + intros a Ha Hn. apply link_mem_byte; [done| |].
      * intros E. apply Hn. rewrite E. by apply (in_tables_path _ _ _ _ p).
      * intros E. rewrite E in Ha. congruence.
    + intros Hm. apply link_mem_ok; [done|lia].
  - intros x Hx [Hin|Hnn]; [by left|right]. intros Hn. apply Hnn. intros q a Hq Ha E.
    rewrite link_descend in Ha by done.
    destruct (link_cases _ _ _ (sp_wf _ _ _ _ _ Hs) p _ i g Hp Hlen Hi Ht Hg link_fresh q a Hq Ha)
      as [[_ ->]|[_ Ho]].
    + assert (x = g) as -> by lia. congruence.
    + by apply (Hn q a Hq Ho).
Qed.

(** The entry 0 of the root, the four-level table and the page directories stand as they were. *)
Lemma link_root : s'.(mem) !!! (r * 4096 + 8 * 0) = s.(mem) !!! (r * 4096 + 8 * 0).
Proof.
  pose proof (sp_ok _ _ _ _ _ Hs) as Hok. assert (idx_ok 0) as HI by (unfold idx_ok; lia).
  assert (g <> r) as Hgr by (apply not_eq_sym, link_low, low_r).
  cbn [mem].
  destruct (decide (h = r)) as [E0|]; [rewrite E0 in *|by apply link_elsewhere; try done; apply not_eq_sym].
  unfold link_mem. rewrite lookup_total_insert_ne.
  - rewrite set_page_zero, zero_page_out; [done| |done|done].
    intros k Hk E. apply word_inj in E as [? _]; congruence.
  - intros E. apply word_inj in E as [_ ->]; [done|done|done].
Qed.

Lemma link_tail x k : x ∈ pt :: pds -> idx_ok k ->
  s'.(mem) !!! (x * 4096 + 8 * k) = s.(mem) !!! (x * 4096 + 8 * k).
Proof.
  intros Hx Hk. apply link_elsewhere; [done| |].
  - intros ->. by apply link_from.
  - apply link_low, elem_of_cons. by right.
Qed.

Lemma space_link :
  grows s s' /\ space r pt pds P s' /\
  descend (upper r s'.(mem)) (r * 4096) (p ++ [i]) = Some (g * 4096).
Proof.
  pose proof Hs as [Hok Hfr Hnd Hl5 H4 H3 H2 Hwf Hlf]. split_and!; [exact link_grows| |].
  - constructor; try done.
    + apply link_mem_ok; [done|lia].
    + intros x Hx. destruct (Hfr x Hx) as [? ?]. split; [done|]. cbn. by rewrite Hown, orb_true_iff; left.
    + by rewrite link_root.
    + intros j Hj. rewrite link_tail; [by apply H3|apply low_pt|done].
    + intros k j Hk Hj. rewrite link_tail; [by apply H2| |done].
      apply elem_of_cons. right. apply aget_in. unfold idx_ok in Hj. lia.
    + exact (tables_ext _ _ _ _ link_upper link_tables).
    + intros v. rewrite <-Hlf. rewrite <-(link_leaf _ _ _ p _ i g v Hwf Hp Hlen Hi Ht).
      * f_equal. symmetry. exact (leaf_ext _ _ _ _ v link_upper link_tables).
      * by rewrite upper_word.
      * done.
      * exact link_fresh.
  - rewrite link_descend by (by apply path_ok_snoc).
    exact (link_descend_new _ _ _ Hwf p _ i g Hp Hlen Hi Ht Hg link_fresh [] (path_ok_snoc p i Hp Hlen Hi)).
Qed.
End link.
End fixed.
End firmware.
