(* ===== verification/BootPagingTheorems.v ===== *)
(** * The hand-off address space: theorems *)

From S2P Require Import Prelude Pmm PageTable Efi EfiFacts BootPaging BootPagingFacts.

Section firmware.
Context {F : Type} `{HL : FirmwareLaws F}.

Section fixed.
Context (r pt : Z) (pds : list Z).
Notation space := (space r pt pds).
Notation grows := (grows r pt pds).

(** ** Mapping a page *)

Lemma level_absent s table i : 
  present (s.(mem) !!! (table + 8 * i)) = false ->
  handoff_level table i s =
  let '(st, a, f) := AllocatePages AllocateAnyPages EfiLoaderData 1 0 s.(fw) in
  if EFI_ERROR st then Done ((st, 0), set_fw f s)
  else
    let m := <[table + 8 * i := link_entry a]> (SetMem a PAGE_SIZE 0 s.(mem)) in
    Done ((EFI_SUCCESS, Z.land (m !!! (table + 8 * i)) PTE_ADDR_MASK), set_mem m (set_fw f s)).
Proof.
  intros Ha. unfold handoff_level, load_word.
  rewrite (bind_eq _ _ _ _ _ (gets_eq _ s)). cbv beta. rewrite Ha.
  unfold allocate_table, allocate_pages, call, mbind, M_bind, mret, M_ret, store_word, on_mem, gets.
  destruct (AllocatePages _ _ _ _ _) as [[st a] f]. destruct (EFI_ERROR st) eqn:E; cbv beta iota zeta.
  - by rewrite E.
  - change (EFI_ERROR EFI_SUCCESS) with false. reflexivity.
Qed.

Lemma frame_page g : (g * 4096) / PAGE_SIZE = g /\ (g * 4096) mod PAGE_SIZE = 0.
Proof. unfold PAGE_SIZE. change 0x1000 with 4096. rewrite Z.div_mul, Z.mod_mul by lia. done. Qed.

(** What one level does: it ends with an error and the space as before, or
    with the table of the path extended by the index. *)
Definition level_post (P : Z -> bool) (p : list Z) (i : Z) (s : loader F) (st a : Z) (s' : loader F) : Prop :=
  grows s s' /\ space P s' /\
  (EFI_ERROR st = true \/ EFI_ERROR st = false /\
   descend (upper r s'.(mem)) (r * 4096) (p ++ [i]) = Some a).

Lemma handoff_level_spec P s p h i : space P s ->
  path_ok p -> (length p <= 2)%nat -> idx_ok i -> (p, i) <> ([], 0) ->
  descend (upper r s.(mem)) (r * 4096) p = Some (h * 4096) ->
  exists st a s', handoff_level (h * 4096) i s = Done ((st, a), s') /\ level_post P p i s st a s'.
Proof.
  intros Hs Hp Hlen Hi Hne Ht.
  assert ((h, i) <> (r, 0)) as Hne'.
  { intros [= -> ->]. apply Hne. f_equal.
    apply (tw_inj _ _ _ (sp_wf _ _ _ _ _ Hs) p [] (r * 4096)); [done|path_tac|done|done]. }
  destruct (present (s.(mem) !!! (h * 4096 + 8 * i))) eqn:E.
  - exists EFI_SUCCESS, (Z.land (s.(mem) !!! (h * 4096 + 8 * i)) PTE_ADDR_MASK), s.
    unfold handoff_level, load_word. rewrite (bind_eq _ _ _ _ _ (gets_eq _ s)). cbv beta. rewrite E.
    split; [done|]. split_and!; [done|done|right; split; [done|]].
    rewrite descend_snoc, Ht. unfold step. by rewrite upper_word, E.
  - rewrite level_absent by done.
    destruct (AllocatePages _ _ _ _ _) as [[st a] f'] eqn:Ea.
    apply fl_alloc in Ea as [[Est Hown]|(Est & Hal & Hpos & Hmax & _ & _ & Hfree & Hown)]; [| |lia].
    + rewrite Est. do 3 eexists. split; [done|].
      destruct (space_keeps r pt pds (fun _ => False) P s (set_fw f' s) Hs) as [Hs' Ht'].
      { by apply keeps_fw. } { intros g _ []. }
      split_and!; [split|done|by left].
      * by apply keeps_fw.
      * intros g _. by apply Ht'.
    + rewrite Est. cbv zeta. do 3 eexists. split; [done|].
      assert (a = a / PAGE_SIZE * 4096) as Eg.
      { unfold PAGE_SIZE in *. Z.div_mod_to_equations. lia. }
      set (g := a / PAGE_SIZE) in *. clearbody g. subst a.
      assert (forall q, in_range g 1 q = (q =? g)) as Hin by (intros; unfold in_range; lia).
      destruct (space_link r pt pds P s p h i g f' Hs Hp Hlen Hi Hne' Ht E) as (Hg & Hs' & Hd).
      * unfold PAGE_SIZE in *. lia.
      * apply Hfree. by rewrite Hin, Z.eqb_refl.
      * intros q. by rewrite Hown, Hin.
      * split_and!; [exact Hg|exact Hs'|right; split; [done|]].
        rewrite lookup_total_insert_eq, link_entry_addr by (unfold PAGE_SIZE in *; lia). exact Hd.
Qed.

(** The pages mapped after [physical] is. *)
Definition with_page (P : Z -> bool) (physical q : Z) : bool := P q || (q =? physical / PAGE_SIZE).

Lemma leaf_addr_identity v p : vpn v = p -> 0 <= p < 2 ^ 40 ->
  leaf_addr v (Some (link_entry (p * 4096))) = Some (v mod 2 ^ 48).
Proof.
  intros Hv Hp. unfold leaf_addr. rewrite link_entry_present, link_entry_addr by done.
  f_equal. unfold vpn in Hv. change (2 ^ 12) with 4096.
  replace (2 ^ 48) with (4096 * 2 ^ 36) by lia. rewrite (Z.rem_mul_r v 4096) by lia. lia.
Qed.

(** Writing the last-level entry of a page above 512 GiB. *)
Lemma space_write P s p t : space P s ->
  0 <= p < 2 ^ 36 -> pml4_index (p * 4096) <> 0 ->
  descend (upper r s.(mem)) (r * 4096) (vpath (p * 4096)) = Some (t * 4096) ->
  let s' := set_mem (<[t * 4096 + 8 * pt_index (p * 4096) := link_entry (p * 4096)]> s.(mem)) s in
  grows s s' /\ space (with_page P (p * 4096)) s'.
Proof.
  intros Hs Hp Hi4 Ht s'. pose proof Hs as [Hok Hfr Hnd Hlen H4 H3 H2 Hwf Hlf].
  set (virt := p * 4096) in *. set (e := link_entry virt) in *.
  assert (vpn virt = p) as Hvp.
  { unfold vpn, virt. rewrite Z.div_mul by lia. by apply Z.mod_small. }
  destruct (space_table r pt pds s P _ _ Hs (vpath_ok virt) Ht) as (t' & Et & Ht0 & Hto & Htl).
  assert (t' = t) as -> by lia. clear Et.
  assert (t <> r) as Htr.
  { intros ->. assert (vpath virt = []) as E; [|done].
    apply (tw_inj _ _ _ Hwf _ _ (r * 4096)); [apply vpath_ok|path_tac|done|done]. }
  pose proof (leaf_word_interior _ _ _ (vpath virt) (t * 4096) (pt_index virt) Hwf (vpath_ok virt) eq_refl
    (pt_index_ok virt) Ht) as Hint.
  set (w := t * 4096 + 8 * pt_index virt) in *.
  pose proof (write_wf _ _ _ Hwf w e Hint) as Hwf'.
  assert (upper r s'.(mem) = <[w := e]> (upper r s.(mem))) as Eu.
  { unfold s', upper. cbn [mem set_mem]. apply insert_insert_ne. unfold w. intros E.
    replace (r * 4096) with (r * 4096 + 8 * 0) in E by lia.
    apply word_inj in E as [? _]; [congruence|unfold idx_ok; lia|auto with archa]. }
  assert (forall g i, idx_ok i -> g <> t -> s'.(mem) !!! (g * 4096 + 8 * i) = s.(mem) !!! (g * 4096 + 8 * i)) as Hw.
  { intros g i Hi Hg. unfold s'. cbn [mem set_mem]. apply lookup_total_insert_ne. intros E.
    apply word_inj in E as [? _]; [congruence|auto with archa|done]. }
  assert (forall x, x ∈ pt :: pds -> x <> t) as Hlow by (intros x Hx ->; done).
  assert (idx_ok 0) as HI by (unfold idx_ok; lia).
  split; [split|constructor; try done].
  - constructor; [done| |].
    + intros a Ha Hn. unfold s'. cbn [mem set_mem]. apply load8_insert_frame; [auto with archa|].
      intros E. apply Hn. rewrite E. by apply (in_tables_path _ _ _ _ (vpath virt)); [apply vpath_ok|].
    + intros Hm. apply insert_ok; [done|]. apply link_entry_u64. lia.
  - intros g Hg [Hl|Hn]; [by left|right]. intros Hc. apply Hn. intros q a Hq. rewrite Eu.
    rewrite (write_descend _ _ w e Hint q Hq). by apply Hc.
  - apply insert_ok; [done|]. apply link_entry_u64. lia.
  - by rewrite Hw.
  - intros j Hj. rewrite Hw; [by apply H3|done|]. apply Hlow, elem_of_cons. by left.
  - intros i j Hi Hj. rewrite Hw; [by apply H2|done|]. apply Hlow, elem_of_cons. right.
    apply aget_in. unfold idx_ok in Hj. lia.
  - by rewrite Eu.
  - intros v. rewrite Eu. unfold w. rewrite (write_leaf_leaf _ _ _ virt _ e v Hwf Ht).
    unfold with_page. rewrite (proj1 (frame_page p) : virt / PAGE_SIZE = p). case_decide as Hv.
    + rewrite Hvp in Hv. rewrite Hv, Z.eqb_refl, orb_true_r. apply leaf_addr_identity; [done|lia].
    + rewrite Hlf. rewrite Hvp in Hv. rewrite (proj2 (Z.eqb_neq _ _) Hv), orb_false_r. done.
Qed.

Definition page_post (P : Z -> bool) (physical : Z) (s : loader F) (st : Z) (s' : loader F) : Prop :=
  grows s s' /\
  (EFI_ERROR st = true /\ space P s' \/ EFI_ERROR st = false /\ space (with_page P physical) s').

Lemma map_handoff_page_spec P s p : space P s -> 0 <= p < 2 ^ 36 -> pml4_index (p * 4096) <> 0 ->
  exists st s', map_handoff_page (r * 4096) (p * 4096) s = Done (st, s') /\ page_post P (p * 4096) s st s'.
Proof.
  intros Hs Hp Hi4. set (v := p * 4096) in *. unfold map_handoff_page.
  destruct (handoff_level_spec P s [] r (pml4_index v) Hs) as (st1 & a1 & s1 & E1 & G1 & S1 & R1);
    [path_tac|cbn; lia|auto with archa|congruence|done|].
  rewrite (bind_eq _ _ _ _ _ E1). destruct R1 as [Er|[Er D1]]; rewrite Er.
  { do 2 eexists. split; [done|]. split; [done|by left]. }
  cbn [app] in D1. destruct (space_table r pt pds s1 P [pml4_index v] a1 S1 ltac:(path_tac) D1) as (h1 & -> & _).
  destruct (handoff_level_spec P s1 [pml4_index v] h1 (pdpt_index v) S1) as (st2 & a2 & s2 & E2 & G2 & S2 & R2);
    [path_tac|cbn; lia|auto with archa|done|done|].
  rewrite (bind_eq _ _ _ _ _ E2). destruct R2 as [Er2|[Er2 D2]]; rewrite Er2.
  { do 2 eexists. split; [done|]. split; [by etransitivity|by left]. }
  cbn [app] in D2. destruct (space_table r pt pds s2 P [pml4_index v; pdpt_index v] a2 S2 ltac:(path_tac) D2) as (h2 & -> & _).
  destruct (handoff_level_spec P s2 [pml4_index v; pdpt_index v] h2 (pd_index v) S2) as (st3 & a3 & s3 & E3 & G3 & S3 & R3);
    [path_tac|cbn; lia|auto with archa|done|done|].
  rewrite (bind_eq _ _ _ _ _ E3). destruct R3 as [Er3|[Er3 D3]]; rewrite Er3.
  { do 2 eexists. split; [done|]. split; [by do 2 (etransitivity; [done|])|by left]. }
  cbn [app] in D3. change [pml4_index v; pdpt_index v; pd_index v] with (vpath v) in D3.
  destruct (space_table r pt pds s3 P _ _ S3 (vpath_ok v) D3) as (h3 & -> & _).
  assert (Z.land v PTE_ADDR_MASK = v) as Em by (apply mask_frame; lia). rewrite Em.
  destruct (space_write P s3 p h3 S3 Hp Hi4 D3) as [G4 S4].
  do 2 eexists. split; [reflexivity|]. split; [|by right].
  do 3 (etransitivity; [eassumption|]). exact G4.
Qed.

(** ** Ranges *)

Lemma space_iff (P Q : Z -> bool) s : (forall q, 0 <= q < 2 ^ 36 -> P q = Q q) -> space P s -> space Q s.
Proof.
  intros E [Hok Hfr Hnd Hlen H4 H3 H2 Hwf Hlf]. constructor; try done.
  intros v. rewrite Hlf, E; [done|]. unfold vpn. by apply Z.mod_pos_bound.
Qed.

(** The pages above 512 GiB from page [a] on that begin below [e]. *)
Definition with_range (P : Z -> bool) (a e q : Z) : bool :=
  P q || ((2 ^ 27 <=? q) && (a <=? q) && (q * 4096 <? e)).

Definition range_post (P : Z -> bool) (a e : Z) (s : loader F) (st : Z) (s' : loader F) : Prop :=
  grows s s' /\
  (EFI_ERROR st = true /\ (exists P', space P' s') \/ EFI_ERROR st = false /\ space (with_range P a e) s').

Lemma handoff_loop_spec e : forall fuel P s p, space P s -> 0 <= p -> e <= 2 ^ 48 ->
  e - p * 4096 <= Z.of_nat fuel * 4096 ->
  exists st s', handoff_loop fuel (r * 4096) (p * 4096) e s = Done (st, s') /\ range_post P p e s st s'.
Proof.
  induction fuel as [|fuel IH]; intros P s p Hs Hp He Hf; cbn [handoff_loop];
    destruct (Z.ltb_spec (p * 4096) e) as [Hlt|Hge]; cbn [negb]; [lia| | |];
    try (do 2 eexists; split; [reflexivity|]; split; [done|right; split; [done|]];
      apply (space_iff P); [|done]; intros q _; unfold with_range; destruct (P q); [done|]; cbn [orb]; lia).
  assert (u64 (p * 4096 + PAGE_SIZE) = (p + 1) * 4096) as ->.
  { unfold PAGE_SIZE. rewrite u64_id; [lia|unfold in_u64; lia]. }
  unfold HANDOFF_IDENTITY_SIZE. destruct (Z.ltb_spec (p * 4096) (512 * 1024 * 1024 * 1024)) as [Hlow|Hhigh].
  - destruct (IH P s (p + 1) Hs ltac:(lia) He ltac:(lia)) as (st & s' & -> & G & R).
    do 2 eexists. split; [done|]. split; [done|]. destruct R as [R|[Er R]]; [by left|right].
    split; [done|]. apply (space_iff (with_range P (p + 1) e)); [|done].
    intros q _. unfold with_range. destruct (P q); [done|]; cbn [orb]; lia.
  - destruct (map_handoff_page_spec P s p Hs ltac:(lia)) as (st & s1 & E1 & G1 & R1).
    { rewrite pml4_index_eq. intros E. assert (p / 2 ^ 27 mod 512 = 0) as E'.
      { rewrite <-E. f_equal. replace (2 ^ 39) with (4096 * 2 ^ 27) by lia.
        rewrite <-Z.div_div, Z.div_mul by lia. done. }
      rewrite Z.mod_small in E'; Z.div_mod_to_equations; lia. }
    rewrite (bind_eq _ _ _ _ _ E1). destruct R1 as [[Er S1]|[Er S1]]; rewrite Er.
    { do 2 eexists. split; [done|]. split; [done|left]. eauto. }
    destruct (IH _ s1 (p + 1) S1 ltac:(lia) He ltac:(lia)) as (st2 & s2 & -> & G2 & R2).
    do 2 eexists. split; [done|]. split; [by etransitivity|].
    destruct R2 as [R2|[Er2 S2]]; [by left|right]. split; [done|].
    refine (space_iff _ _ _ _ S2). intros q Hq. unfold with_range, with_page.
    rewrite (proj1 (frame_page p)). destruct (P q); [done|]; cbn [orb]. lia.
Qed.

Lemma map_handoff_range_spec P s physical size : space P s ->
  0 <= physical -> 0 <= size -> physical + size <= 2 ^ 48 ->
  exists st s', map_handoff_range (r * 4096) physical size s = Done (st, s') /\
    range_post P (physical / 4096) (physical + size) s st s'.
Proof.
  intros Hs Hp Hz Hm. unfold map_handoff_range. rewrite u64_id by (unfold in_u64; lia).
  destruct (Z.ltb_spec (physical + size) physical); [lia|].
  assert (physical - physical mod PAGE_SIZE = physical / 4096 * 4096) as ->.
  { unfold PAGE_SIZE. Z.div_mod_to_equations. lia. }
  apply handoff_loop_spec; [done|Z.div_mod_to_equations; lia|done|].
  unfold PAGE_SIZE. Z.div_mod_to_equations. lia.
Qed.

(** ** The processor's view *)

Lemma huge_entry_eq a : 0 <= a -> a mod 2 ^ 21 = 0 -> huge_entry a = a + 131.
Proof.
  intros Ha Hm. unfold huge_entry, PTE_PRESENT, PTE_RW, PTE_PS. rewrite <-!Z.lor_assoc.
  change (Z.lor 1 (Z.lor 2 128)) with 131. symmetry. apply Z.add_nocarry_lor.
  apply Z.bits_inj'. intros n Hn. rewrite Z.land_spec, Z.bits_0.
  destruct (decide (n < 21)).
  - apply andb_false_intro1. rewrite (Z.div_mod a (2 ^ 21)) by lia. rewrite Hm, Z.add_0_r.
    rewrite Z.mul_comm. by apply Z.mul_pow2_bits_low.
  - apply andb_false_intro2. apply Z.bits_above_log2; [lia|]. change (Z.log2 131) with 7. lia.
Qed.

Lemma huge_present a : 0 <= a -> a mod 2 ^ 21 = 0 ->
  present (huge_entry a) = true /\ Z.land (huge_entry a) PTE_PS <> 0 /\
  (a < 2 ^ 52 -> Z.land (huge_entry a) 0x000FFFFFFFE00000 = a).
Proof.
  intros Ha Hm. rewrite huge_entry_eq by done. split_and!.
  - unfold present, PTE_PRESENT. change 1 with (Z.ones 1). rewrite Z.land_ones by lia.
    change (2 ^ 1) with 2. destruct (Z.eqb_spec ((a + 131) mod 2) 0); [|done].
    change (2 ^ 21) with 2097152 in Hm. Z.div_mod_to_equations. lia.
  - unfold PTE_PS. change 128 with (Z.shiftl 1 7). apply Z.eqb_neq.
    rewrite land_bit_zero by lia. apply negb_false_iff. rewrite Z.testbit_true by lia.
    change (2 ^ 7) with 128. change (2 ^ 21) with 2097152 in Hm. Z.div_mod_to_equations. lia.
  - intros Hlt. change 0x000FFFFFFFE00000 with (Z.shiftl (Z.ones 31) 21).
    assert (a + 131 = Z.lor a 131) as E.
    { rewrite <-huge_entry_eq by done. unfold huge_entry. by rewrite <-!Z.lor_assoc. }
    apply Z.bits_inj'. intros n Hn. rewrite Z.land_spec, Z.shiftl_spec by lia.
    destruct (decide (n < 21)).
    + rewrite (Z.testbit_neg_r _ (n - 21)) by lia. rewrite andb_false_r. symmetry.
      rewrite (Z.div_mod a (2 ^ 21)), Hm, Z.add_0_r, Z.mul_comm by lia. by apply Z.mul_pow2_bits_low.
    + rewrite E, Z.lor_spec. rewrite (Z.bits_above_log2 131 n) by (change (Z.log2 131) with 7; lia).
      rewrite orb_false_r. destruct (decide (n < 52)).
      * rewrite Z.ones_spec_low by lia. apply andb_true_r.
      * rewrite Z.ones_spec_high by lia. rewrite andb_false_r. symmetry.
        rewrite <-(Z.mod_small a (2 ^ 52)) by lia. apply Z.mod_pow2_bits_high. lia.
Qed.

Lemma low_walk P s v : space P s -> pml4_index v = 0 ->
  walk s.(mem) (r * 4096) v = Some (v mod 2 ^ 48).
Proof.
  intros [Hok Hfr Hnd Hlen H4 H3 H2 Hwf Hlf] Hi. unfold walk.
  assert (0 < r < 2 ^ 40) as Hr by (apply Hfr, elem_of_cons; by left).
  assert (0 < pt < 2 ^ 40) as Hpt by (apply Hfr, elem_of_cons; right; apply elem_of_cons; by left).
  rewrite mask_frame, Hi, H4, link_entry_present, link_entry_addr by lia. cbn [negb].
  pose proof (pdpt_index_ok v) as Hj. pose proof (pd_index_ok v) as Hk.
  set (j := pdpt_index v) in *. set (k := pd_index v) in *.
  assert (0 < aget pds j < 2 ^ 40) as Hpd.
  { apply Hfr, elem_of_cons. right. apply elem_of_cons. right. apply aget_in. unfold idx_ok in Hj. lia. }
  rewrite H3, link_entry_present, link_entry_nops, link_entry_addr by (done || lia). cbn [negb Z.eqb].
  rewrite H2 by done. unfold idx_ok in *.
  set (a := j * 0x40000000 + k * 0x200000).
  assert (a mod 2 ^ 21 = 0) as Ha.
  { unfold a. replace (j * 0x40000000 + k * 0x200000) with ((j * 512 + k) * 2 ^ 21) by lia.
    apply Z.mod_mul. lia. }
  destruct (huge_present a) as (Hp & Hps & Hm); [unfold a; lia|done|].
  rewrite Hp, (proj2 (Z.eqb_neq _ _) Hps), Hm by (unfold a; lia). cbn [negb]. f_equal.
  unfold a, j, k. rewrite pdpt_index_eq, pd_index_eq. rewrite pml4_index_eq in Hi.
  clear -Hi. change (2 ^ 39) with (2097152 * 262144) in Hi. change (2 ^ 30) with (2097152 * 512).
  change (2 ^ 21) with 2097152. change (2 ^ 48) with (2097152 * 134217728).
  rewrite <-!Z.div_div in * by lia. rewrite (Z.rem_mul_r v 2097152 134217728) by lia.
  generalize dependent (v / 2097152). intros y Hi. Z.div_mod_to_equations. lia.
Qed.

(** Above 512 GiB entry 0 plays no part. *)
Lemma high_walk P s v : space P s -> pml4_index v <> 0 ->
  walk s.(mem) (r * 4096) v = if P (vpn v) then Some (v mod 2 ^ 48) else None.
Proof.
  intros Hs Hi. pose proof Hs as [Hok Hfr Hnd Hlen H4 H3 H2 Hwf Hlf].
  assert (0 < r < 2 ^ 40) as Hr by (apply Hfr, elem_of_cons; by left).
  assert (Z.land (r * 4096) PTE_ADDR_MASK = r * 4096) as Em by (apply mask_frame; lia).
  set (m := s.(mem)) in *. set (u := upper r m) in *.
  assert (walk u (r * 4096) v = if P (vpn v) then Some (v mod 2 ^ 48) else None) as <-.
  { rewrite (walk_leaf _ _ (table_page s.(fw) (pt :: pds))) by (by rewrite Em).
    rewrite Em. apply Hlf. }
  assert (forall q a i, path_ok q -> idx_ok i -> (q, i) <> ([], 0) ->
    descend u (r * 4096) q = Some a -> m !!! (a + 8 * i) = u !!! (a + 8 * i)) as Hw.
  { intros q a i Hq Hii Hne Ha. destruct (space_table r pt pds s P q a Hs Hq Ha) as (g & -> & _).
    symmetry. apply upper_word; [done|]. intros [= -> ->]. apply Hne. f_equal.
    apply (tw_inj _ _ _ Hwf q [] (r * 4096)); [done|path_tac|done|done]. }
  unfold walk. rewrite !Em.
  rewrite (Hw [] _ (pml4_index v)); [|path_tac|auto with archa|congruence|done].
  destruct (present (u !!! (r * 4096 + 8 * pml4_index v))) eqn:E4; cbn [negb]; [|done].
  set (a3 := Z.land _ PTE_ADDR_MASK).
  assert (descend u (r * 4096) [pml4_index v] = Some a3) as D3 by (cbn; unfold step; by rewrite E4).
  rewrite (Hw [pml4_index v] a3); [|path_tac|auto with archa|congruence|done].
  destruct (present (u !!! (a3 + _))) eqn:E3; cbn [negb]; [|done].
  case_match eqn:Ep; [done|].
  set (a2 := Z.land (u !!! (a3 + _)) PTE_ADDR_MASK).
  assert (descend u (r * 4096) [pml4_index v; pdpt_index v] = Some a2) as D2.
  { change [pml4_index v; pdpt_index v] with ([pml4_index v] ++ [pdpt_index v]).
    rewrite descend_snoc, D3. unfold step. by rewrite E3. }
  rewrite (Hw [pml4_index v; pdpt_index v] a2); [|path_tac|auto with archa|congruence|done].
  destruct (present (u !!! (a2 + _))) eqn:E2; cbn [negb]; [|done].
  case_match eqn:Ep2; [done|].
  set (a1 := Z.land (u !!! (a2 + _)) PTE_ADDR_MASK).
  assert (descend u (r * 4096) (vpath v) = Some a1) as D1.
  { change (vpath v) with ([pml4_index v; pdpt_index v] ++ [pd_index v]).
    rewrite descend_snoc, D2. unfold step. by rewrite E2. }
  by rewrite (Hw (vpath v) a1); [|apply vpath_ok|auto with archa|unfold vpath; congruence|done].
Qed.

(** The walk is the identity on what is mapped and fails elsewhere. *)
Lemma space_walk P s v : space P s ->
  walk s.(mem) (r * 4096) v =
  if (vpn v <? 2 ^ 27) || P (vpn v) then Some (v mod 2 ^ 48) else None.
Proof.
  intros Hs. assert (pml4_index v = vpn v / 2 ^ 27) as E.
  { rewrite pml4_index_eq. unfold vpn. replace (2 ^ 39) with (4096 * 2 ^ 27) by lia.
    rewrite <-Z.div_div by lia. generalize (v / 4096). intros y.
    change (2 ^ 36) with (2 ^ 27 * 512). rewrite Z.rem_mul_r by lia.
    change (2 ^ 27) with 134217728. Z.div_mod_to_equations. lia. }
  assert (0 <= vpn v < 2 ^ 36) as Hv by (unfold vpn; by apply Z.mod_pos_bound).
  destruct (decide (pml4_index v = 0)) as [Hi|Hi].
  - rewrite (low_walk P) by done. destruct (Z.ltb_spec (vpn v) (2 ^ 27)); [done|].
    rewrite Hi in E. change (2 ^ 27) with 134217728 in *. Z.div_mod_to_equations. lia.
  - rewrite (high_walk P) by done. destruct (Z.ltb_spec (vpn v) (2 ^ 27)); [|done].
    exfalso. apply Hi. rewrite E. apply Z.div_small. lia.
Qed.
End fixed.

(** ** Building the tables *)

(** Only the firmware has changed, and the pages [l] are owned now. *)
Record took (l : list Z) (s s' : loader F) : Prop := {
  tk_mem : s'.(mem) = s.(mem);
  tk_free : forall g, g ∈ l -> owned s.(fw) g = false /\ 0 < g < 2 ^ 40;
  tk_owned : forall q, owned s'.(fw) q = owned s.(fw) q || bool_decide (q ∈ l);
  tk_nodup : NoDup l;
}.

Lemma took_keeps X l s s' : took l s s' -> keeps X s s'.
Proof.
  intros [M _ O _]. constructor; [|by rewrite M|by rewrite M].
  intros q Hq. by rewrite O, Hq.
Qed.

Lemma took_cons g l s s1 s' : took [g] s s1 -> took l s1 s' -> took (g :: l) s s'.
Proof.
  intros [M1 F1 O1 N1] [M2 F2 O2 N2]. constructor.
  - by rewrite M2.
  - intros q [->|Hq]%elem_of_cons; [apply F1, elem_of_cons; by left|].
    destruct (F2 q Hq) as [Hf ?]. split; [|done]. rewrite O1 in Hf. by apply orb_false_iff in Hf as [? _].
  - intros q. rewrite O2, O1, <-orb_assoc. f_equal. apply eq_bool_prop_intro.
    rewrite orb_True, !bool_decide_spec, list_elem_of_singleton, elem_of_cons. tauto.
  - apply NoDup_cons. split; [|done]. intros Hg. destruct (F2 g Hg) as [Hf _]. rewrite O1 in Hf.
    apply orb_false_iff in Hf as [_ Hf]. apply bool_decide_eq_false in Hf. apply Hf, elem_of_cons. by left.
Qed.

(** One page, or a panic. *)
Lemma alloc_page_spec s :
  exists s1, (or_panic (allocate_pages AllocateAnyPages 1 0) s = Done (None, s1) /\ took [] s s1) \/
    exists g, or_panic (allocate_pages AllocateAnyPages 1 0) s = Done (Some (g * 4096), s1) /\ took [g] s s1.
Proof.
  unfold or_panic, allocate_pages, call, mbind, M_bind, mret, M_ret.
  destruct (AllocatePages _ _ _ _ _) as [[st a] f'] eqn:Ea. exists (set_fw f' s).
  apply fl_alloc in Ea as [[Est Hown]|(Est & Hal & Hpos & Hmax & _ & _ & Hfree & Hown)]; [| |lia].
  - left. rewrite Est. split; [done|]. constructor; [done| | |apply NoDup_nil_2].
    + intros g Hg. by apply elem_of_nil in Hg.
    + intros q. cbn. by rewrite Hown, orb_false_r.
  - right. exists (a / PAGE_SIZE). rewrite Est. unfold PAGE_SIZE in *.
    assert (forall q, in_range (a / 0x1000) 1 q = (q =? a / 0x1000)) as Hin by (intros; unfold in_range; lia).
    split; [do 2 f_equal; f_equal; Z.div_mod_to_equations; lia|]. constructor; [done| | |apply NoDup_singleton].
    + intros g ->%list_elem_of_singleton. split; [apply Hfree; by rewrite Hin, Z.eqb_refl|].
      Z.div_mod_to_equations. lia.
    + intros q. cbn [fw set_fw]. rewrite Hown, Hin. f_equal. apply eq_bool_prop_intro.
      rewrite bool_decide_spec, list_elem_of_singleton, Is_true_true, Z.eqb_eq. done.
Qed.

Lemma allocate_pds_spec n : forall s,
  exists s1, (allocate_pds n s = Done (None, s1) /\ exists l, took l s s1) \/
    exists l, allocate_pds n s = Done (Some (map (fun g => g * 4096) l), s1) /\ took l s s1 /\ length l = n.
Proof.
  induction n as [|n IH]; intros s; cbn [allocate_pds].
  - exists s. right. exists []. split_and!; [done| |done]. constructor; [done| | |apply NoDup_nil_2].
    + intros g Hg. by apply elem_of_nil in Hg.
    + intros q. by rewrite orb_false_r.
  - unfold attempt. destruct (alloc_page_spec s) as (s1 & [[E T]|(g & E & T)]);
      rewrite (bind_eq _ _ _ _ _ E).
    + exists s1. left. split; [done|by eexists].
    + destruct (IH s1) as (s2 & [[E2 (l & T2)]|(l & E2 & T2 & Hl)]);
        rewrite (bind_eq _ _ _ _ _ E2); exists s2.
      * left. split; [done|]. exists (g :: l). exact (took_cons g l s s1 s2 T T2).
      * right. exists (g :: l). split_and!; [done|exact (took_cons g l s s1 s2 T T2)|by cbn; rewrite Hl].
Qed.

Lemma clear_pages_spec l : forall m, ram_ok m ->
  let m' := clear_pages (map (fun g => g * 4096) l) m in
  ram_ok m' /\
  (forall g i, g ∈ l -> idx_ok i -> m' !!! (g * 4096 + 8 * i) = 0) /\
  (forall a, a / PAGE_SIZE ∉ l -> load8 m' a = load8 m a).
Proof.
  induction l as [|x l IH]; intros m Hm; cbn [map]; unfold clear_pages in *; cbn [fold_left].
  - split_and!; [done| |done]. intros g i Hg. by apply elem_of_nil in Hg.
  - destruct (IH (SetMem (x * 4096) PAGE_SIZE 0 m)) as (Hok & Hz & Hb); [by apply fl_set_ok|].
    split_and!; [done| |].
    + intros g i Hg Hi. destruct (decide (g ∈ l)) as [|Hn]; [by apply Hz|].
      apply elem_of_cons in Hg as [->|]; [|done].
      transitivity (zero_page (x * 4096) m !!! (x * 4096 + 8 * i)); [|by apply zero_page_in].
      rewrite <-set_page_zero by done.
      apply frame_word_ext; [done|by apply fl_set_ok|].
      intros j Hj. apply Hb. unfold PAGE_SIZE, idx_ok in *.
      by rewrite <-(Z.div_unique (x * 4096 + 8 * i + j) 0x1000 x (8 * i + j)) by lia.
    + intros a Ha. apply not_elem_of_cons in Ha as [Hx Ha]. rewrite Hb by done. rewrite fl_set by done.
      rewrite (proj2 (in_bytes_false _ _ _)); [done|]. intros Hin. apply Hx.
      unfold PAGE_SIZE in *. symmetry. apply (Z.div_unique _ _ _ (a - x * 4096)); lia.
Qed.

(** [m'] is [m] but for the words of the pages [l] and entry 0 of page [r]. *)
Record filled (r : Z) (l : list Z) (m m' : gmap Z Z) : Prop := {
  fd_ok : ram_ok m -> ram_ok m';
  fd_word : forall g i, idx_ok i -> g ∉ l -> (g, i) <> (r, 0) ->
    m' !!! (g * 4096 + 8 * i) = m !!! (g * 4096 + 8 * i);
  fd_byte : forall a, a / PAGE_SIZE ∉ l -> a / PAGE_SIZE <> r -> load8 m' a = load8 m a;
}.

Lemma filled_refl r l m : filled r l m m.
Proof. by constructor. Qed.

Lemma filled_trans r l m1 m2 m3 : filled r l m1 m2 -> filled r l m2 m3 -> filled r l m1 m3.
Proof.
  intros [O1 W1 B1] [O2 W2 B2]. constructor; [auto| |].
  - intros. by rewrite W2, W1.
  - intros. by rewrite B2, B1.
Qed.

Lemma filled_insert r l m g i v : in_u64 v -> idx_ok i -> g ∈ l \/ (g, i) = (r, 0) ->
  filled r l m (<[g * 4096 + 8 * i := v]> m).
Proof.
  intros Hv Hi Hg. constructor.
  - intros Hm. by apply insert_ok.
  - intros h k Hk Hl Hne. apply lookup_total_insert_ne. intros E.
    apply word_inj in E as [-> ->]; [|done|done]. destruct Hg; done.
  - intros a Ha Hr. apply load8_insert_frame; [done|]. intros E. destruct Hg as [Hg|[= -> ->]]; [|done].
    by rewrite E in Ha.
Qed.

Lemma huge_u64 i j : idx_ok i -> idx_ok j -> in_u64 (huge_entry (j * 0x40000000 + i * 0x200000)).
Proof.
  unfold idx_ok. intros Hi Hj.
  replace (j * 0x40000000 + i * 0x200000) with ((j * 512 + i) * 2 ^ 21) by lia.
  rewrite huge_entry_eq by (try (apply Z.mod_mul; lia); lia). unfold in_u64. lia.
Qed.

Lemma fill_pd_spec r l d j m : d ∈ l -> idx_ok j ->
  filled r l m (fill_pd (d * 4096) j m) /\
  (forall i, idx_ok i -> fill_pd (d * 4096) j m !!! (d * 4096 + 8 * i) = huge_entry (j * 0x40000000 + i * 0x200000)) /\
  forall g i, idx_ok i -> g <> d ->
    fill_pd (d * 4096) j m !!! (g * 4096 + 8 * i) = m !!! (g * 4096 + 8 * i).
Proof.
  intros Hd Hj. unfold fill_pd.
  apply (for_up_inv (fun k m' => filled r l m m' /\
    (forall i, 0 <= i < k -> m' !!! (d * 4096 + 8 * i) = huge_entry (j * 0x40000000 + i * 0x200000)) /\
    forall g i, idx_ok i -> g <> d -> m' !!! (g * 4096 + 8 * i) = m !!! (g * 4096 + 8 * i))
    (fun i m => <[d * 4096 + 8 * i := huge_entry (j * 0x40000000 + i * 0x200000)]> m) 512 0 m).
  - split_and!; [apply filled_refl|intros; lia|done].
  - intros k t Hk (Hf & Hin & Hout). assert (idx_ok k) by (unfold idx_ok; lia). split_and!.
    + eapply filled_trans; [done|]. apply filled_insert; [by apply huge_u64|done|by left].
    + intros i Hi. rewrite lookup_total_insert. case_decide as E.
      * apply word_inj in E as [_ ->]; [done|done|unfold idx_ok; lia].
      * apply Hin. assert (i <> k) by (intros ->; done). lia.
    + intros g i Hi Hg. rewrite lookup_total_insert_ne; [by apply Hout|].
      intros E. by apply word_inj in E as [? _].
Qed.

Lemma aget_map (l : list Z) j : 0 <= j < Z.of_nat (length l) ->
  aget (map (fun g => g * 4096) l) j = aget l j * 4096.
Proof.
  intros Hj. unfold aget. rewrite (proj2 (Z.ltb_ge _ _)) by lia.
  apply (list_lookup_total_fmap (fun g => g * 4096)). lia.
Qed.

Lemma aget_inj (l : list Z) i j : NoDup l -> 0 <= i < Z.of_nat (length l) -> 0 <= j < Z.of_nat (length l) ->
  aget l i = aget l j -> i = j.
Proof.
  intros Hn Hi Hj E. unfold aget in E. rewrite !(proj2 (Z.ltb_ge _ _)) in E by lia.
  assert (Z.to_nat i = Z.to_nat j); [|lia].
  apply (NoDup_lookup l _ _ (l !!! Z.to_nat i)); [done| |rewrite E];
    apply list_lookup_lookup_total_lt; lia.
Qed.

Lemma fill_tables_spec r pt pds m : NoDup (r :: pt :: pds) -> length pds = 512%nat ->
  (forall g, g ∈ r :: pt :: pds -> 0 < g < 2 ^ 40) ->
  let m' := fill_tables (r * 4096) (pt * 4096) (map (fun g => g * 4096) pds) m in
  filled r (pt :: pds) m m' /\
  m' !!! (r * 4096 + 8 * 0) = link_entry (pt * 4096) /\
  (forall j, idx_ok j -> m' !!! (pt * 4096 + 8 * j) = link_entry (aget pds j * 4096)) /\
  forall i j, idx_ok i -> idx_ok j ->
    m' !!! (aget pds j * 4096 + 8 * i) = huge_entry (j * 0x40000000 + i * 0x200000).
Proof.
  intros Hnd Hlen Hfr. apply NoDup_cons in Hnd as [Hr Hnd]. apply NoDup_cons in Hnd as [Hpt Hnd].
  assert (0 < pt < 2 ^ 40) as Hptr by (apply Hfr, elem_of_cons; right; apply elem_of_cons; by left).
  assert (forall j, idx_ok j -> aget pds j ∈ pds) as Hin by (intros j Hj; apply aget_in; unfold idx_ok in Hj; lia).
  assert (idx_ok 0) as HI by (unfold idx_ok; lia).
  assert (pt <> r) as Hptr' by (intros ->; apply Hr, elem_of_cons; by left).
  unfold fill_tables.
  set (m0 := <[r * 4096 + 8 * 0 := link_entry (pt * 4096)]> m).
  apply (for_up_inv (fun k m' => filled r (pt :: pds) m m' /\
    m' !!! (r * 4096 + 8 * 0) = link_entry (pt * 4096) /\
    (forall j, 0 <= j < k -> m' !!! (pt * 4096 + 8 * j) = link_entry (aget pds j * 4096)) /\
    forall i j, idx_ok i -> 0 <= j < k ->
      m' !!! (aget pds j * 4096 + 8 * i) = huge_entry (j * 0x40000000 + i * 0x200000)) _ 512 0 m0).
  - split_and!; [|apply lookup_total_insert_eq|intros; lia|intros; lia].
    apply filled_insert; [apply link_entry_u64; lia|done|by right].
  - intros k t Hk (Hf & H4 & H3 & H2). assert (idx_ok k) as Hik by (unfold idx_ok; lia).
    rewrite aget_map by lia. set (d := aget pds k) in *. assert (d ∈ pds) as Hd by (by apply Hin).
    assert (pt <> d) by (intros ->; done).
    assert (r <> d) by (intros ->; apply Hr, elem_of_cons; by right).
    assert (0 < d < 2 ^ 40) as Hdr by (apply Hfr, elem_of_cons; right; apply elem_of_cons; by right).
    destruct (fill_pd_spec r (pt :: pds) d k (<[pt * 4096 + 8 * k := link_entry (d * 4096)]> t))
      as (Hf2 & Hnew & Hold); [apply elem_of_cons; by right|done|].
    assert (forall g i, idx_ok i -> (g, i) <> (pt, k) ->
      (<[pt * 4096 + 8 * k := link_entry (d * 4096)]> t) !!! (g * 4096 + 8 * i) = t !!! (g * 4096 + 8 * i)) as Hins.
    { intros g i Hi Hne. apply lookup_total_insert_ne. intros E.
      by apply word_inj in E as [-> ->]. }
    split_and!.
    + eapply filled_trans; [done|]. eapply filled_trans; [|done].
      apply filled_insert; [apply link_entry_u64; lia|done|left; apply elem_of_cons; by left].
    + rewrite Hold, Hins; [done|done|congruence|done|done].
    + intros j Hj. assert (idx_ok j) by (unfold idx_ok; lia). rewrite Hold by done.
      destruct (decide (j = k)) as [->|]; [apply lookup_total_insert_eq|].
      rewrite Hins; [apply H3; lia|done|congruence].
    + intros i j Hi Hj. destruct (decide (j = k)) as [->|Hjk]; [by apply Hnew|].
      assert (aget pds j <> d) by (intros E; apply Hjk, (aget_inj pds); done || lia).
      rewrite Hold by done. rewrite Hins; [apply H2; [done|lia]|done|].
      intros [= E _]. apply Hpt. rewrite <-E. apply Hin. unfold idx_ok; lia.
Qed.

#[local] Opaque fill_tables clear_pages.

(** [build_tables] panics or yields the space of the first 512 GiB, in pages
    that were not owned. *)
(** The root has no entry but the one of the low tables, which [upper] leaves out. *)
Lemma bare_root r m : ram_ok m -> (forall i, idx_ok i -> (r, i) <> (r, 0) -> m !!! (r * 4096 + 8 * i) = 0) ->
  forall i, idx_ok i -> upper r m !!! (r * 4096 + 8 * i) = 0.
Proof.
  intros Hok Hz i Hi. destruct (decide (i = 0)) as [->|Hi0].
  - unfold upper. replace (r * 4096 + 8 * 0) with (r * 4096) by lia. apply lookup_total_insert_eq.
  - assert ((r, i) <> (r, 0)) as Hne by congruence. rewrite upper_word by done. by apply Hz.
Qed.

(** The pages just allocated, cleared and filled, are an address space. *)
Lemma fresh_space r pt pds s s3 : ram_ok s.(mem) -> length pds = 512%nat -> took (r :: pt :: pds) s s3 ->
  let bases := map (fun g => g * 4096) in
  let s' := set_mem (fill_tables (r * 4096) (pt * 4096) (bases pds)
    (clear_pages (bases (r :: pt :: pds)) s.(mem))) s3 in
  space r pt pds (fun _ => false) s' /\ keeps (fun _ => False) s s' /\
  forall g, owned s.(fw) g = true -> ~ in_tables r pt pds s' g.
Proof.
  intros Hok Hlen [TM TF TO TN] bases s'. set (low := r :: pt :: pds) in *.
  destruct (clear_pages_spec low s.(mem) Hok) as (Hok1 & Hz & Hb1). fold bases in Hok1, Hz, Hb1.
  subst s'. set (m1 := clear_pages (bases low) s.(mem)) in *.
  destruct (fill_tables_spec r pt pds m1 TN Hlen (fun g Hg => proj2 (TF g Hg))) as (Hf & H4 & H3 & H2).
  fold bases in Hf, H4, H3, H2. set (m2 := fill_tables (r * 4096) (pt * 4096) (bases pds) m1) in *.
  clearbody m2 m1.
  assert (r ∈ low) as Hrin by (apply elem_of_cons; by left).
  destruct (TF r Hrin) as [_ Hr]. pose proof TN as [Hrl _]%NoDup_cons.
  assert (forall i, idx_ok i -> upper r m2 !!! (r * 4096 + 8 * i) = 0) as Hup.
  { apply bare_root; [by apply (fd_ok _ _ _ _ Hf)|]. intros i Hi Hne.
    rewrite (fd_word _ _ _ _ Hf) by done. by apply Hz. }
  assert (forall g, g ∈ low -> owned s3.(fw) g = true) as Hol.
  { intros g Hg. rewrite TO. apply orb_true_iff. right. by apply bool_decide_eq_true. }
  assert (table_page s3.(fw) (pt :: pds) r = true) as Hur.
  { unfold table_page. rewrite Hol by done. by apply bool_decide_eq_true. }
  split_and!.
  - constructor; cbn [mem fw set_mem]; [|..|exact TN|exact Hlen|exact H4|exact H3|exact H2| |].
    + by apply (fd_ok _ _ _ _ Hf).
    + intros g Hg. split; [by apply TF|by apply Hol].
    + by apply empty_root_wf.
    + intros v. by rewrite empty_leaf.
  - constructor; cbn [mem fw set_mem].
    + intros q Hq. by rewrite TO, Hq.
    + intros a Ha _. assert (a / PAGE_SIZE ∉ low) as Hn.
      { intros Hin. destruct (TF _ Hin) as [? _]. congruence. }
      apply not_elem_of_cons in Hn as Hn'. destruct Hn' as [Hn1 Hn2].
      rewrite (fd_byte _ _ _ _ Hf) by done. by apply Hb1.
    + intros _. by apply (fd_ok _ _ _ _ Hf).
  - intros g Hg [Hin|Hn].
    + destruct (TF g) as [? _]; [apply elem_of_cons; by right|congruence].
    + apply Hn. intros q a Hq Ha ->. cbn [mem set_mem] in Ha.
      destruct (empty_descend _ r q _ Hup Hq Ha) as [_ E].
      destruct (TF g) as [? _]; [|congruence]. apply elem_of_cons. left. lia.
Qed.

Lemma build_tables_spec s : ram_ok s.(mem) ->
  exists s', (build_tables s = Done (None, s') /\ keeps (fun _ => False) s s') \/
    exists r pt pds, build_tables s = Done (Some (r * 4096), s') /\
      space r pt pds (fun _ => false) s' /\ keeps (fun _ => False) s s' /\
      forall g, owned s.(fw) g = true -> ~ in_tables r pt pds s' g.
Proof.
  intros Hok. unfold build_tables, attempt.
  destruct (alloc_page_spec s) as (s1 & [[E1 T1]|(r & E1 & T1)]); rewrite (bind_eq _ _ _ _ _ E1).
  { exists s1. left. split; [done|]. by eapply took_keeps. }
  destruct (alloc_page_spec s1) as (s2 & [[E2 T2]|(pt & E2 & T2)]); rewrite (bind_eq _ _ _ _ _ E2).
  { exists s2. left. split; [done|]. eapply took_keeps. exact (took_cons _ _ _ _ _ T1 T2). }
  destruct (allocate_pds_spec 512 s2) as (s3 & [[E3 (l & T3)]|(pds & E3 & T3 & Hlen)]);
    rewrite (bind_eq _ _ _ _ _ E3);
    pose proof (took_cons _ _ _ _ _ T1 (took_cons _ _ _ _ _ T2 T3)) as T.
  { exists s3. left. split; [done|]. by eapply took_keeps. }
  destruct (fresh_space r pt pds s s3 Hok Hlen T) as (Hs & Hk & Ht).
  eexists. right. exists r, pt, pds. split; [|by split_and!].
  rewrite <-(tk_mem _ _ _ T). unfold on_mem. cbv zeta. unfold mbind, M_bind. reflexivity.
Qed.
End firmware.
