(* ===== verification/BootElf.v ===== *)
(** * Loading the kernel and the RAM disk

    [load_file] and the segment loop of [efi_main] ([bootloader/uefi.c]), with
    the ELF structures of [bootloader/elf.h]. *)

From S2P Require Import Prelude Pmm PageTable Efi BootLib BootPaging.

Section load.
Context {F : Type} `{Firmware F}.

(** ** Files *)

(** From the first [GetInfo] to the label [load_file_cleanup]: the status,
    [*fileSize], [fileInfo] and [fileBuffer] there. *)
Definition load_body (file loadAddress : Z) : M (loader F) (Z * Z * Z * Z) :=
  '(Status, fileInfoSize, _) ← call (FileGetInfo file 0 false);
  if negb (Status =? EFI_BUFFER_TOO_SMALL) then
    _ ← uefi_println (L "[!] GetInfo size failed"); mret (Status, 0, 0, 0)
  else
  '(Status, fileInfo) ← alloc_pool EfiLoaderData fileInfoSize;
  if EFI_ERROR Status then
    _ ← uefi_println (L "[!] FileInfo allocation failed"); mret (Status, 0, 0, 0)
  else
  '(Status, _, FileSize) ← call (FileGetInfo file fileInfoSize true);
  if EFI_ERROR Status then
    _ ← uefi_println (L "[!] GetInfo failed"); mret (Status, 0, fileInfo, 0)
  else if FileSize =? 0 then
    _ ← uefi_println (L "[!] File is empty"); mret (EFI_LOAD_ERROR, FileSize, fileInfo, 0)
  else
  '(Status, fileBuffer) ← alloc_pool EfiLoaderData FileSize;
  if EFI_ERROR Status then
    _ ← uefi_println (L "[!] File buffer failed"); mret (Status, FileSize, fileInfo, 0)
  else
  '(Status, readSize, data) ← call (FileRead file FileSize);
  _ ← on_mem (store_bytes fileBuffer data);
  if EFI_ERROR Status || negb (readSize =? FileSize) then
    _ ← uefi_println (L "[!] File read failed");
    mret (if negb (EFI_ERROR Status) then EFI_LOAD_ERROR else Status, FileSize, fileInfo, fileBuffer)
  else
  '(Status, address) ← allocate_pages AllocateAddress (EFI_SIZE_TO_PAGES FileSize) loadAddress;
  if EFI_ERROR Status then
    _ ← uefi_println (L "[!] File pages failed"); mret (Status, FileSize, fileInfo, fileBuffer)
  else
  _ ← on_mem (CopyMem address fileBuffer FileSize);
  mret (Status, FileSize, fileInfo, fileBuffer).

(** The status, [*fileSize] and [*LoadedImage]. *)
Definition load_file (ImageHandle : Z) (path : option (list Z)) (loadAddress : Z)
    (image : loaded_image) : M (loader F) (Z * Z * loaded_image) :=
  match path with
  | None => mret (EFI_INVALID_PARAMETER, 0, image)
  | Some path =>
      '(Status, interface) ← call (HandleProtocol ImageHandle LoadedImageProtocol);
      if EFI_ERROR Status then
        _ ← uefi_println (L "[!] Failed to get loaded image"); mret (Status, 0, image)
      else
      image ← gets (fun s => ImageData interface s.(fw));
      '(Status, fs) ← call (HandleProtocol image.(DeviceHandle) SimpleFileSystem);
      if EFI_ERROR Status then
        _ ← uefi_println (L "[!] No filesystem on device"); mret (Status, 0, image)
      else
      '(Status, root) ← open_handle (OpenVolume fs);
      if EFI_ERROR Status then
        _ ← uefi_println (L "[!] OpenVolume failed"); mret (Status, 0, image)
      else
      '(Status, file) ← open_handle (FileOpen root path);
      if EFI_ERROR Status then
        _ ← uefi_println (L "[!] File not found");
        _ ← close_handle root;
        mret (Status, 0, image)
      else
      '(Status, fileSize, fileInfo, fileBuffer) ← load_body file loadAddress;
      _ ← (if negb (fileBuffer =? 0) then free_pool fileBuffer else mret tt);
      _ ← (if negb (fileInfo =? 0) then free_pool fileInfo else mret tt);
      _ ← close_handle file;
      _ ← close_handle root;
      mret (Status, if EFI_ERROR Status then 0 else fileSize, image)
  end.

(** ** The ELF image *)

Definition e_ident (m : ram) (kernel i : Z) : Z := load8 m (kernel + i).
Definition e_entry (m : ram) (kernel : Z) : Z := load_le 8 m (kernel + 24).
Definition e_phoff (m : ram) (kernel : Z) : Z := load_le 8 m (kernel + 32).
Definition e_phnum (m : ram) (kernel : Z) : Z := load_le 2 m (kernel + 56).

Record Elf64_Phdr := mk_phdr {
  p_type : Z;
  p_flags : Z;
  p_offset : Z;
  p_vaddr : Z;
  p_paddr : Z;
  p_filesz : Z;
  p_memsz : Z;
  p_align : Z;
}.

Definition load_phdr (m : ram) (a : Z) : Elf64_Phdr :=
  mk_phdr (load_le 4 m a) (load_le 4 m (a + 4)) (load_le 8 m (a + 8)) (load_le 8 m (a + 16))
    (load_le 8 m (a + 24)) (load_le 8 m (a + 32)) (load_le 8 m (a + 40)) (load_le 8 m (a + 48)).

Definition get_program_headers (m : ram) (kernel : Z) : Z := u64 (kernel + e_phoff m kernel).

Definition is_elf (m : ram) (kernel : Z) : bool :=
  (e_ident m kernel 0 =? 0x7F) && (e_ident m kernel 1 =? 69) &&
  (e_ident m kernel 2 =? 76) && (e_ident m kernel 3 =? 70).

(** [kernel_phys_start], [kernel_phys_end], [kernel_virt_start] and
    [kernel_virt_end]. *)
Record bounds := mk_bounds { phys_start : Z; phys_end : Z; virt_start : Z; virt_end : Z }.
Definition UINT64_MAX : Z := 0xFFFFFFFFFFFFFFFF.
Definition no_bounds : bounds := mk_bounds UINT64_MAX 0 UINT64_MAX 0.

Definition extend (p : Elf64_Phdr) (b : bounds) : bounds :=
  let pe := u64 (p.(p_paddr) + p.(p_memsz)) in
  let ve := u64 (p.(p_vaddr) + p.(p_memsz)) in
  mk_bounds
    (if p.(p_paddr) <? b.(phys_start) then p.(p_paddr) else b.(phys_start))
    (if b.(phys_end) <? pe then pe else b.(phys_end))
    (if p.(p_vaddr) <? b.(virt_start) then p.(p_vaddr) else b.(virt_start))
    (if b.(virt_end) <? ve then ve else b.(virt_end)).

(** The body of the loop for a header of type PT_LOAD; the header is read
    again after each write to memory. *)
Definition load_segment (kernelAddr a : Z) (b : bounds) : M (loader F) (option bounds) :=
  p ← gets (fun s => load_phdr s.(mem) a);
  addr ←? or_panic (allocate_pages AllocateAddress (EFI_SIZE_TO_PAGES p.(p_memsz)) p.(p_paddr));
  _ ← on_mem (CopyMem p.(p_vaddr) (u64 (kernelAddr + p.(p_offset))) p.(p_filesz));
  p ← gets (fun s => load_phdr s.(mem) a);
  _ ← (if p.(p_filesz) <? p.(p_memsz) then
         on_mem (SetMem (u64 (p.(p_vaddr) + p.(p_filesz))) (p.(p_memsz) - p.(p_filesz)) 0)
       else mret tt);
  p ← gets (fun s => load_phdr s.(mem) a);
  mret (Some (extend p b)).

Fixpoint segment_loop (fuel : nat) (kernelAddr phdr i : Z) (b : bounds) : M (loader F) (option bounds) :=
  n ← gets (fun s => e_phnum s.(mem) kernelAddr);
  if negb (i <? n) then mret (Some b) else
  match fuel with
  | O => fault
  | S fuel' =>
      type ← gets (fun s => p_type (load_phdr s.(mem) (u64 (phdr + 56 * i))));
      if negb (type =? 1) then segment_loop fuel' kernelAddr phdr (u16 (i + 1)) b else
      b' ←? load_segment kernelAddr (u64 (phdr + 56 * i)) b;
      segment_loop fuel' kernelAddr phdr (u16 (i + 1)) b'
  end.

(** [e_phnum] has 16 bits, so the loop has at most 65535 rounds. *)
Definition load_segments (kernelAddr phdr : Z) : M (loader F) (option bounds) :=
  segment_loop (Z.to_nat 65536) kernelAddr phdr 0 no_bounds.
End load.
