(* ===== verification/BootElfFacts.v ===== *)
(** * Loading the kernel and the RAM disk: lemmas *)

From S2P Require Import Prelude Pmm PageTable Efi EfiFacts BootLib BootPaging BootElf.

Section firmware.
Context {F : Type} `{HL : FirmwareLaws F}.

Lemma println_quiet str s : exists s', uefi_println str s = Done (tt, s') /\ quiet s s'.
Proof.
  unfold uefi_println. destruct (output_quiet str s) as (s1 & E1 & Q1).
  rewrite (bind_eq _ _ _ _ _ E1). destruct (output_quiet crlf s1) as (s2 & -> & Q2).
  eexists. split; [done|]. by etransitivity.
Qed.

(** ** Pool buffers and file handles *)

Lemma remove_one_cons b (l : list Z) : b ∈ l -> b :: remove_one b l ≡ₚ l.
Proof.
  intros Hb. unfold remove_one. destruct (list_find (eq b) l) as [[i y]|] eqn:E.
  - apply list_find_Some in E as (Hi & <- & _). symmetry. by apply delete_Permutation.
  - apply list_find_None in E. rewrite Forall_forall in E. by destruct (E b Hb).
Qed.

Lemma remove_one_perm b (l l' : list Z) : l' ≡ₚ l ++ [b] -> remove_one b l' ≡ₚ l.
Proof.
  intros Hp. apply (Permutation_app_inv_l [b]). cbn. rewrite remove_one_cons.
  - by rewrite Hp, (Permutation_app_comm l).
  - rewrite Hp. apply elem_of_app. right. by apply list_elem_of_singleton.
Qed.

(** What [alloc_pool] does: an error, or a buffer outside the owned pages. *)
Lemma alloc_pool_spec type size s :
  exists st b s', alloc_pool type size s = Done ((st, b), s') /\
    (forall q, owned s'.(fw) q = owned s.(fw) q) /\ s'.(mem) = s.(mem) /\
    s'.(handles) = s.(handles) /\
    if EFI_ERROR st then s'.(pools) = s.(pools)
    else s'.(pools) = s.(pools) ++ [b] /\ b <> 0 /\
      forall a, in_bytes b size a = true -> owned s.(fw) (a / PAGE_SIZE) = false.
Proof.
  unfold alloc_pool, call, modify, mbind, M_bind, mret, M_ret.
  destruct (AllocatePool type size s.(fw)) as [[st b] f'] eqn:E.
  apply fl_pool in E as [Ho Hb]. do 3 eexists. split; [done|].
  destruct (EFI_ERROR st); cbn [fw mem handles pools set_fw set_pools]; split_and!; try done.
  - by apply Hb.
  - by apply Hb.
Qed.

Lemma free_pool_spec b l s : s.(pools) ≡ₚ l ++ [b] ->
  exists s', free_pool b s = Done (tt, s') /\ keeps (fun _ => False) s s' /\
    (forall q, owned s'.(fw) q = owned s.(fw) q) /\ s'.(mem) = s.(mem) /\
    s'.(pools) ≡ₚ l /\ s'.(handles) = s.(handles).
Proof.
  intros Hp. eexists. split; [reflexivity|]. cbn [fw mem pools handles set_fw set_pools].
  assert (forall q, owned (FreePool b s.(fw)) q = owned s.(fw) q) as Ho by (intros; apply fl_free).
  split_and!; try done; [by apply keeps_fw|]. by apply remove_one_perm.
Qed.

Lemma close_handle_spec h l s : s.(handles) ≡ₚ l ++ [h] ->
  exists s', close_handle h s = Done (tt, s') /\ keeps (fun _ => False) s s' /\
    (forall q, owned s'.(fw) q = owned s.(fw) q) /\ s'.(mem) = s.(mem) /\
    s'.(pools) = s.(pools) /\ s'.(handles) ≡ₚ l.
Proof.
  intros Hp. eexists. split; [reflexivity|]. cbn [fw mem pools handles set_fw set_handles].
  assert (forall q, owned (FileClose h s.(fw)) q = owned s.(fw) q) as Ho by (intros; apply fl_close).
  split_and!; try done; [by apply keeps_fw|]. by apply remove_one_perm.
Qed.

(** ** The body of [load_file] *)

(** From [s] to [s'] the buffers [l] were obtained and no page. *)
Record got (l : list Z) (s s' : loader F) : Prop := {
  gt_keeps : keeps (fun _ => False) s s';
  gt_owned : forall q, owned s'.(fw) q = owned s.(fw) q;
  gt_pools : s'.(pools) = s.(pools) ++ l;
  gt_handles : s'.(handles) = s.(handles);
}.

Lemma got_refl s : got [] s s.
Proof. constructor; [done..|by rewrite app_nil_r|done]. Qed.

Lemma got_quiet l s t u : got l s t -> quiet t u -> got l s u.
Proof.
  intros [K O P Hh] Q. constructor.
  - etransitivity; [exact K|]. by apply quiet_keeps.
  - intros q. by rewrite (qt_owned _ _ Q), O.
  - by rewrite (qt_pools _ _ Q).
  - by rewrite (qt_handles _ _ Q).
Qed.

(** A pool buffer more, or an error and nothing else. *)
Lemma alloc_pool_got type size l s t : got l s t ->
  exists st b u, alloc_pool type size t = Done ((st, b), u) /\
    if EFI_ERROR st then got l s u
    else got (l ++ [b]) s u /\ b <> 0 /\
      forall a, in_bytes b size a = true -> owned u.(fw) (a / PAGE_SIZE) = false.
Proof.
  intros [K O P Hh]. destruct (alloc_pool_spec type size t) as (st & b & u & E & O' & M & H' & R).
  exists st, b, u. split; [done|].
  assert (keeps (fun _ => False) s u) as Ku by (etransitivity; [exact K|by apply keeps_fw]).
  assert (forall q, owned u.(fw) q = owned s.(fw) q) as Ou by (intros q; by rewrite O', O).
  destruct (EFI_ERROR st).
  - constructor; [done..|by rewrite R|by rewrite H'].
  - destruct R as (P' & H0 & Hf). split_and!; [|done|intros a Ha; rewrite O'; by apply Hf].
    constructor; [done..|by rewrite P', P, app_assoc|by rewrite H'].
Qed.

(** Writing outside the owned pages. *)
Lemma got_write l s t m : got l s t ->
  (forall a, owned t.(fw) (a / PAGE_SIZE) = true -> load8 m a = load8 t.(mem) a) ->
  (ram_ok t.(mem) -> ram_ok m) -> got l s (set_mem m t).
Proof.
  intros [K O P Hh] Hm Hok. constructor; [|done..].
  etransitivity; [exact K|]. constructor; [done|intros a Ha _; by apply Hm|done].
Qed.

(** [file] was opened under the name [path]. *)
Definition opened (path : list Z) (file : Z) : Prop := exists root f,
  EFI_ERROR (FileOpen root path f).1.1 = false /\ (FileOpen root path f).1.2 = file.

(** [data]: what was read when as many bytes as the file has were asked for. *)
Definition whole_file (file : Z) (data : list Z) : Prop := exists n f g st g',
  let size := Z.of_nat (length data) in
  EFI_ERROR (FileGetInfo file n true f).1.1.1 = false /\ (FileGetInfo file n true f).1.2 = size /\
  EFI_ERROR st = false /\ FileRead file size g = (st, size, data, g').

(** The [size] bytes of a file lie at [address], in pages obtained since [s]. *)
Record loaded (file address size : Z) (s s' : loader F) : Prop := {
  ld_size : 0 < size;
  ld_aligned : address mod PAGE_SIZE = 0 /\ 0 < address /\ address + size <= 2 ^ 52;
  ld_data : exists data, whole_file file data /\ Z.of_nat (length data) = size /\
    forall k, 0 <= k < size -> load8 s'.(mem) (address + k) = u8 (aget data k);
  ld_pages : forall a, in_bytes address size a = true ->
    owned s.(fw) (a / PAGE_SIZE) = false /\ owned s'.(fw) (a / PAGE_SIZE) = true;
}.

(** The buffers behind the two pointers of the cleanup code. *)
Definition buffers (info buffer : Z) : list Z :=
  (if info =? 0 then [] else [info]) ++ (if buffer =? 0 then [] else [buffer]).

Record body_post (file address St size info buffer : Z) (s s' : loader F) : Prop := {
  bp_keeps : keeps (fun _ => False) s s';
  bp_pools : s'.(pools) = s.(pools) ++ buffers info buffer;
  bp_handles : s'.(handles) = s.(handles);
  bp_loaded : EFI_ERROR St = false -> loaded file address size s s';
}.

Lemma got_error l file address St size info buffer s s' : got l s s' -> EFI_ERROR St = true ->
  l = buffers info buffer -> body_post file address St size info buffer s s'.
Proof.
  intros [K O P Hh] E ->. constructor; [done..|]. by rewrite E.
Qed.

(** Copying [size] bytes from a buffer outside the owned pages to new pages. *)
Lemma copy_new_pages l file address size buffer data s t f' :
  got l s t -> 0 < size -> Z.of_nat (length data) = size -> address mod PAGE_SIZE = 0 -> 0 < address ->
  address + EFI_SIZE_TO_PAGES size * PAGE_SIZE <= 2 ^ 52 ->
  whole_file file data ->
  (forall k, 0 <= k < size -> load8 t.(mem) (buffer + k) = u8 (aget data k)) ->
  (forall q, in_range (address / PAGE_SIZE) (EFI_SIZE_TO_PAGES size) q = true -> owned t.(fw) q = false) ->
  (forall q, owned f' q = owned t.(fw) q || in_range (address / PAGE_SIZE) (EFI_SIZE_TO_PAGES size) q) ->
  let u := set_mem (CopyMem address buffer size t.(mem)) (set_fw f' t) in
  keeps (fun _ => False) s u /\ loaded file address size s u.
Proof.
  intros [K O P Hh] Hsz Hlen Hal Hpos Hmax Hread Hbuf Hfree Hown u.
  pose proof (size_to_pages size ltac:(lia)) as Hp.
  assert (forall a, in_bytes address size a = true ->
    in_range (address / PAGE_SIZE) (EFI_SIZE_TO_PAGES size) (a / PAGE_SIZE) = true) as Hin.
  { intros a Ha%in_bytes_spec. apply page_of_byte; [done|lia]. }
  split.
  - etransitivity; [exact K|]. constructor.
    + intros q Hq. cbn. by rewrite Hown, Hq.
    + intros a Ha _. cbn [mem set_mem u]. rewrite fl_copy by lia.
      destruct (in_bytes address size a) eqn:E; [|done].
      rewrite (Hfree _ (Hin a E)) in Ha. done.
    + intros Hm. by apply fl_copy_ok.
  - constructor; [done|split_and!; [done..|lia]| |].
    + exists data. split_and!; [done|done|].
      intros k Hk. cbn [mem set_mem u]. rewrite fl_copy by lia.
      rewrite (proj2 (in_bytes_spec _ _ _)) by lia. replace (address + k - address) with k by lia.
      by apply Hbuf.
    + intros a Ha. split.
      * rewrite <-O. by apply Hfree, Hin.
      * cbn [fw set_mem set_fw u]. by rewrite Hown, (Hin a Ha), orb_true_r.
Qed.

Section body.
Context (file address : Z) (s : loader F).

(** [m], run from [t], ends as [load_body] does. *)
Definition body_ends (m : M (loader F) (Z * Z * Z * Z)) (t : loader F) : Prop :=
  exists St size info buffer s', m t = Done ((St, size, info, buffer), s') /\
    body_post file address St size info buffer s s'.

(** The exits with a message. *)
Lemma fails str l St size info buffer t : got l s t -> EFI_ERROR St = true -> l = buffers info buffer ->
  body_ends (_ ← uefi_println str; mret (St, size, info, buffer)) t.
Proof.
  intros G E El. unfold body_ends. quietly (println_quiet str t). do 5 eexists. split; [done|].
  eapply got_error; [by eapply got_quiet|done|done].
Qed.

Lemma buffers_two info buffer : info <> 0 -> buffer <> 0 -> buffers info buffer = [info; buffer].
Proof. intros Hi Hb. unfold buffers. by rewrite (proj2 (Z.eqb_neq _ _) Hi), (proj2 (Z.eqb_neq _ _) Hb). Qed.

(** The pages and the copy; the file lies at [buf]. *)
Lemma pages_end size info buf data w : got [info; buf] s w -> info <> 0 -> buf <> 0 -> 0 < size ->
  Z.of_nat (length data) = size -> whole_file file data ->
  (forall k, 0 <= k < size -> load8 w.(mem) (buf + k) = u8 (aget data k)) ->
  body_ends (
    '(Status, a) ← allocate_pages AllocateAddress (EFI_SIZE_TO_PAGES size) address;
    if EFI_ERROR Status then
      _ ← uefi_println (L "[!] File pages failed"); mret (Status, size, info, buf)
    else _ ← on_mem (CopyMem a buf size); mret (Status, size, info, buf)) w.
Proof.
  intros G Hi Hb Hsz Hlen Hwhole Hbuf. pose proof (buffers_two info buf Hi Hb) as Hb2.
  pose proof (size_to_pages size ltac:(lia)) as Hpg. unfold body_ends, allocate_pages, call at 1, mbind at 1, M_bind at 1.
  destruct (AllocatePages _ _ _ _ _) as [[st6 addr] f6] eqn:Ea.
  apply fl_alloc in Ea as [[Er6 Hown]|(Er6 & Hal & Hpos & Hmax & Haddr & _ & Hfree & Hown)];
    [| |unfold PAGE_SIZE in Hpg; lia]; rewrite Er6.
  { apply (fails _ [info; buf]); [|done|done]. apply (got_quiet _ _ _ _ G). by constructor. }
  rewrite (Haddr eq_refl) in *.
  destruct (copy_new_pages [info; buf] file address size buf data s w f6) as [K Hld]; try done.
  do 5 eexists. split; [reflexivity|]. constructor; [done| | |done].
  - cbn [pools set_mem set_fw]. rewrite Hb2. apply (gt_pools _ _ _ G).
  - apply (gt_handles _ _ _ G).
Qed.

(** What [FileRead] stores in the pool buffer touches no page of the loader. *)
Lemma stored_got l buf size data t : got l s t -> Z.of_nat (length data) <= size ->
  (forall a, in_bytes buf size a = true -> owned t.(fw) (a / PAGE_SIZE) = false) ->
  got l s (set_mem (store_bytes buf data t.(mem)) t).
Proof.
  intros G Hlen Hout. apply got_write; [done| |by apply store_bytes_ok].
  intros a Ha. rewrite load8_store_bytes. destruct (in_bytes buf (Z.of_nat (length data)) a) eqn:Eb; [|done].
  rewrite Hout in Ha; [done|]. apply in_bytes_spec in Eb. apply in_bytes_spec. lia.
Qed.

(** From [FileRead] on. *)
Lemma read_end size info buf t : got [info; buf] s t -> info <> 0 -> buf <> 0 -> 0 < size ->
  (forall a, in_bytes buf size a = true -> owned t.(fw) (a / PAGE_SIZE) = false) ->
  (exists n f, EFI_ERROR (FileGetInfo file n true f).1.1.1 = false /\ (FileGetInfo file n true f).1.2 = size) ->
  body_ends (
    '(Status, readSize, data) ← call (FileRead file size);
    _ ← on_mem (store_bytes buf data);
    if EFI_ERROR Status || negb (readSize =? size) then
      _ ← uefi_println (L "[!] File read failed");
      mret (if negb (EFI_ERROR Status) then EFI_LOAD_ERROR else Status, size, info, buf)
    else
    '(Status, a) ← allocate_pages AllocateAddress (EFI_SIZE_TO_PAGES size) address;
    if EFI_ERROR Status then
      _ ← uefi_println (L "[!] File pages failed"); mret (Status, size, info, buf)
    else _ ← on_mem (CopyMem a buf size); mret (Status, size, info, buf)) t.
Proof.
  intros G Hi Hb Hsz Hout (n & f & Hinfo & Hsize). unfold body_ends. quietly (call_quiet (FileRead file size) t (fl_read file size)).
  destruct (FileRead file size t.(fw)) as [[[st5 rsz] data] f5] eqn:Er. cbn [fst].
  destruct (fl_read_data _ _ _ _ _ _ _ (Z.lt_le_incl _ _ Hsz) Er) as [Hlen Hlen'].
  rewrite (bind_eq (on_mem _) _ t0 tt (set_mem (store_bytes buf data t0.(mem)) t0)) by done.
  set (w := set_mem (store_bytes buf data t0.(mem)) t0).
  assert (got [info; buf] s w) as Gw.
  { apply (stored_got _ _ size); [by apply (got_quiet _ _ _ _ G)|done|]. intros a Ha. rewrite (qt_owned _ _ Q). by apply Hout. }
  destruct (EFI_ERROR st5 || negb (rsz =? size)) eqn:Ebad.
  { apply (fails _ [info; buf]); [done| |by rewrite buffers_two]. by destruct (EFI_ERROR st5) eqn:E5. }
  apply orb_false_iff in Ebad as [Er5 Ersz]. apply negb_false_iff, Z.eqb_eq in Ersz as ->.
  specialize (Hlen' Er5). apply (pages_end size info buf data w); try done.
  - exists n, f, t.(fw), st5, f5. cbv zeta. rewrite Hlen'. by split_and!.
  - intros k Hk. cbn [mem set_mem w]. rewrite load8_store_bytes.
    rewrite (proj2 (in_bytes_spec _ _ _)) by lia. do 2 f_equal. lia.
Qed.

Lemma load_body_spec : body_ends (load_body file address) s.
Proof.
  unfold load_body, body_ends.
  quietly (call_quiet (FileGetInfo file 0 false) s (fl_info file 0 false)).
  pose proof (fl_info_small file s.(fw)) as Hsmall.
  destruct (FileGetInfo file 0 false s.(fw)) as [[[st1 isz] fs1] f1]. cbn [fst] in Hsmall |- *.
  pose proof (got_quiet _ _ _ _ (got_refl s) Q) as G0.
  destruct (negb (st1 =? EFI_BUFFER_TOO_SMALL)); [by apply (fails _ [])|].
  destruct (alloc_pool_got EfiLoaderData isz [] s t G0) as (st2 & info & u & E2 & R2).
  rewrite (bind_eq _ _ _ _ _ E2). destruct (EFI_ERROR st2) eqn:Er2; [by apply (fails _ [])|].
  destruct R2 as (G1 & Hi0 & _). cbn [app] in G1.
  assert ([info] = buffers info 0) as Hb1 by (unfold buffers; by rewrite (proj2 (Z.eqb_neq _ _) Hi0)).
  quietly (call_quiet (FileGetInfo file isz true) u (fl_info file isz true)).
  pose proof (fl_info_size file isz true u.(fw)) as Hsz.
  destruct (FileGetInfo file isz true u.(fw)) as [[[st3 isz'] size] f3] eqn:Ei. cbn [fst snd] in Hsz |- *.
  pose proof (got_quiet _ _ _ _ G1 Q0) as G2. destruct (EFI_ERROR st3) eqn:Er3; [by apply (fails _ [info])|].
  destruct (Z.eqb_spec size 0) as [|Hnz]; [by apply (fails _ [info])|].
  destruct (alloc_pool_got EfiLoaderData size [info] s t0 G2) as (st4 & buf & v & E4 & R4).
  rewrite (bind_eq _ _ _ _ _ E4). destruct (EFI_ERROR st4) eqn:Er4; [by apply (fails _ [info])|].
  destruct R4 as (G3 & Hb0 & Hout).
  apply (read_end size info buf v); try done; [lia|].
  exists isz, u.(fw). by rewrite Ei.
Qed.
End body.
End firmware.
