(* ===== verification/BootElfTheorems.v ===== *)
(** * Loading the kernel and the RAM disk: theorems *)

From S2P Require Import Prelude Pmm PageTable Efi EfiFacts BootLib BootPaging BootElf BootElfFacts.

Section firmware.
Context {F : Type} `{HL : FirmwareLaws F}.

(** Memory and ownership unchanged, whatever was released. *)
Definition same_data (s s' : loader F) : Prop :=
  (forall q, owned s'.(fw) q = owned s.(fw) q) /\ s'.(mem) = s.(mem).

Lemma loaded_data file a n s t u : loaded file a n s t -> same_data t u -> loaded file a n s u.
Proof.
  intros [L1 L2 L3 L4] [O M]. constructor; [done..|by rewrite M|]. intros b Hb. rewrite O. by apply L4.
Qed.

(** The two conditional [FreePool]s of the cleanup code. *)
Lemma free_buffers info buffer l s : s.(pools) ≡ₚ l ++ buffers info buffer ->
  exists s', (_ ← (if negb (buffer =? 0) then free_pool buffer else mret tt);
              (if negb (info =? 0) then free_pool info else mret tt)) s = Done (tt, s') /\
    keeps (fun _ => False) s s' /\ same_data s s' /\ s'.(pools) ≡ₚ l /\ s'.(handles) = s.(handles).
Proof.
  intros Hp. unfold buffers in Hp.
  assert (exists t, (if negb (buffer =? 0) then free_pool buffer else mret tt) s = Done (tt, t) /\
    keeps (fun _ => False) s t /\ same_data s t /\ t.(handles) = s.(handles) /\
    t.(pools) ≡ₚ l ++ (if info =? 0 then [] else [info])) as (t & E1 & K1 & [O1 M1] & H1 & P1).
  { destruct (buffer =? 0); cbn [negb].
    - exists s. split_and!; [done|done|done|done|]. by rewrite Hp, app_nil_r.
    - rewrite app_assoc in Hp. destruct (free_pool_spec _ _ s Hp) as (t & ? & ? & ? & ? & ? & ?).
      by exists t. }
  rewrite (bind_eq _ _ _ _ _ E1). destruct (info =? 0); cbn [negb].
  - exists t. rewrite app_nil_r in P1. by split_and!.
  - destruct (free_pool_spec _ _ t P1) as (u & ? & ? & O2 & M2 & ? & H2).
    exists u. split_and!; [done|by etransitivity| |done|congruence].
    split; [intros q; by rewrite O2|congruence].
Qed.

(** From [s] to [t] the handles [l] were opened and nothing else was done. *)
Record idle (l : list Z) (s t : loader F) : Prop := {
  id_keeps : keeps (fun _ => False) s t;
  id_data : same_data s t;
  id_pools : t.(pools) = s.(pools);
  id_handles : t.(handles) ≡ₚ s.(handles) ++ l;
}.

Lemma idle_refl s : idle [] s s.
Proof. constructor; [done..|by rewrite app_nil_r]. Qed.

Lemma idle_quiet l s t u : idle l s t -> quiet t u -> idle l s u.
Proof.
  intros [K [O M] P Hh] Q. constructor.
  - etransitivity; [exact K|by apply quiet_keeps].
  - split; [intros q; by rewrite (qt_owned _ _ Q), O|by rewrite (qt_mem _ _ Q), M].
  - by rewrite (qt_pools _ _ Q).
  - by rewrite (qt_handles _ _ Q).
Qed.

(** Opening a handle: an error, or one handle more. *)
Lemma idle_open service l s t : (forall f q, owned (service f).2 q = owned f q) -> idle l s t ->
  exists st h u, open_handle service t = Done ((st, h), u) /\ (service t.(fw)).1 = (st, h) /\
    idle (if EFI_ERROR st then l else l ++ [h]) s u.
Proof.
  intros Ho [K [O M] P Hh]. unfold open_handle, call, modify, mbind, M_bind, mret, M_ret.
  specialize (Ho t.(fw)). destruct (service t.(fw)) as [[st h] f]. do 3 eexists. split; [done|]. split; [done|].
  assert (keeps (fun _ => False) s (set_fw f t)) as K' by (etransitivity; [exact K|by apply keeps_fw]).
  assert (forall q, owned f q = owned s.(fw) q) as O' by (intros q; by rewrite Ho, O).
  destruct (EFI_ERROR st); constructor; try done; [by destruct K'|]. cbn [handles set_handles set_fw].
  by rewrite Hh, app_assoc.
Qed.

Lemma idle_close h l s t : idle (l ++ [h]) s t -> exists u, close_handle h t = Done (tt, u) /\ idle l s u.
Proof.
  intros [K [O M] P Hh]. destruct (close_handle_spec h (s.(handles) ++ l) t) as (u & E & K' & O' & M' & P' & H').
  { by rewrite Hh, app_assoc. }
  exists u. split; [done|]. constructor; [by etransitivity| |by rewrite P'|done].
  split; [intros q; by rewrite O', O|by rewrite M'].
Qed.

(** The contract of [load_file]. *)
Record file_post (path : option (list Z)) (loadAddress : Z) (s : loader F) (Status size : Z) (s' : loader F) : Prop := {
  fp_keeps : keeps (fun _ => False) s s';
  fp_pools : s'.(pools) ≡ₚ s.(pools);
  fp_handles : s'.(handles) ≡ₚ s.(handles);
  fp_error : EFI_ERROR Status = true -> size = 0;
  fp_loaded : EFI_ERROR Status = false -> exists p file,
    path = Some p /\ opened p file /\ loaded file loadAddress size s s';
}.

Lemma file_post_error path a s St t : idle [] s t -> EFI_ERROR St = true -> file_post path a s St 0 t.
Proof.
  intros [K _ P Hh] E. rewrite app_nil_r in Hh. constructor; [done|by rewrite P|done..|by rewrite E].
Qed.

Section load_file.
Context (ImageHandle : Z) (path : list Z) (loadAddress : Z) (image : loaded_image) (s : loader F).

(** [m], run from [t], ends as [load_file] does. *)
Definition file_ends (m : M (loader F) (Z * Z * loaded_image)) (t : loader F) : Prop :=
  exists St size img u, m t = Done ((St, size, img), u) /\
    file_post (Some path) loadAddress s St size u /\ (EFI_ERROR St = false -> exists h f, img = ImageData h f).

(** The exits with a message. *)
Lemma file_fails str St img t : idle [] s t -> EFI_ERROR St = true ->
  file_ends (_ ← uefi_println str; mret (St, 0, img)) t.
Proof.
  intros G E. unfold file_ends. quietly (println_quiet str t). do 4 eexists. split; [done|].
  split; [|congruence]. apply file_post_error; [by eapply idle_quiet|done].
Qed.

(** From the open file on. *)
Lemma file_body root file img t : idle [root; file] s t -> opened path file -> (exists h f, img = ImageData h f) ->
  file_ends (
    '(Status, fileSize, fileInfo, fileBuffer) ← load_body file loadAddress;
    _ ← (if negb (fileBuffer =? 0) then free_pool fileBuffer else mret tt);
    _ ← (if negb (fileInfo =? 0) then free_pool fileInfo else mret tt);
    _ ← close_handle file;
    _ ← close_handle root;
    mret (Status, if EFI_ERROR Status then 0 else fileSize, img)) t.
Proof.
  intros [K [O M] P Hh] Hop Himg. unfold file_ends.
  destruct (load_body_spec file loadAddress t) as (St & size & info & buf & w & E5 & [K5 P5 H5 L5]).
  rewrite (bind_eq _ _ _ _ _ E5). cbv beta iota.
  destruct (free_buffers info buf s.(pools) w) as (x & E6 & K6 & D6 & P6 & H6); [by rewrite P5, P|].
  destruct (close_handle_spec file (s.(handles) ++ [root]) x) as (y & E7 & K7 & O7 & M7 & P7 & H7).
  { rewrite H6, H5, Hh. by rewrite <-app_assoc. }
  destruct (close_handle_spec root s.(handles) y H7) as (z & E8 & K8 & O8 & M8 & P8 & H8).
  exists St, (if EFI_ERROR St then 0 else size), img, z. split.
  { apply (proj1 (bind_Done _ _ _ _ _)) in E6 as ([] & w' & Ea & Eb).
    by rewrite (bind_eq _ _ _ _ _ Ea), (bind_eq _ _ _ _ _ Eb), (bind_eq _ _ _ _ _ E7), (bind_eq _ _ _ _ _ E8). }
  split; [|done]. constructor; [|by rewrite P8, P7|done|by intros ->|].
  - clear -K K5 K6 K7 K8. do 4 (etransitivity; [eassumption|]). done.
  - intros Er. rewrite Er. exists path, file. split; [done|]. split; [done|]. destruct D6 as [O6 M6].
    assert (loaded file loadAddress size t z) as [L1 L2 L3 L4].
    { apply (loaded_data _ _ _ _ w); [by apply L5|].
      split; [intros q; by rewrite O8, O7, O6|by rewrite M8, M7, M6]. }
    constructor; [done..|]. intros a Ha. rewrite <-O. by apply L4.
Qed.

Lemma load_file_some : file_ends (load_file ImageHandle (Some path) loadAddress image) s.
Proof.
  unfold load_file, file_ends. pose proof (idle_refl s) as G.
  quietly (call_quiet (HandleProtocol ImageHandle LoadedImageProtocol) s (fl_handle _ _)).
  apply (idle_quiet _ _ _ _ G) in Q as G1.
  destruct (HandleProtocol _ _ s.(fw)) as [[st1 h1] f1]. cbn [fst]. destruct (EFI_ERROR st1) eqn:Er1; [by apply file_fails|].
  rewrite (bind_eq _ _ _ _ _ (gets_eq _ t)). cbv beta. set (img := ImageData h1 t.(fw)).
  quietly (call_quiet (HandleProtocol img.(DeviceHandle) SimpleFileSystem) t (fl_handle _ _)).
  apply (idle_quiet _ _ _ _ G1) in Q0 as G2.
  destruct (HandleProtocol _ _ t.(fw)) as [[st2 fs] f2]. cbn [fst]. destruct (EFI_ERROR st2) eqn:Er2; [by apply file_fails|].
  destruct (idle_open (OpenVolume fs) _ _ _ (fl_volume _) G2) as (st3 & root & u & E3 & _ & G3).
  rewrite (bind_eq _ _ _ _ _ E3). destruct (EFI_ERROR st3) eqn:Er3; [by apply file_fails|]. cbn [app] in G3.
  destruct (idle_open (FileOpen root path) _ _ _ (fl_open _ _) G3) as (st4 & file & v & E4 & Ef4 & G4).
  rewrite (bind_eq _ _ _ _ _ E4). destruct (EFI_ERROR st4) eqn:Er4.
  - quietly (println_quiet (L "[!] File not found") v). apply (idle_quiet _ _ _ _ G4) in Q1 as G5.
    destruct (idle_close root [] s t1 G5) as (w & E5 & G6). rewrite (bind_eq _ _ _ _ _ E5).
    do 4 eexists. split; [done|]. split; [by apply file_post_error|congruence].
  - apply (file_body root file img v); [exact G4|exists root, u.(fw); by rewrite Ef4|by exists h1, t.(fw)].
Qed.
End load_file.

Lemma load_file_post ImageHandle path loadAddress image s :
  exists St size img s', load_file ImageHandle path loadAddress image s = Done ((St, size, img), s') /\
    file_post path loadAddress s St size s' /\ (EFI_ERROR St = false -> exists h f, img = ImageData h f).
Proof.
  destruct path as [path|]; [apply load_file_some|].
  do 4 eexists. split; [done|]. split; [apply file_post_error; [apply idle_refl|done]|done].
Qed.

Lemma or_panic_alloc type n a (s : loader F) st r f' :
  AllocatePages type EfiLoaderData n a s.(fw) = (st, r, f') ->
  or_panic (allocate_pages type n a) s = Done (if EFI_ERROR st then None else Some r, set_fw f' s).
Proof.
  intros E. unfold or_panic, allocate_pages, call, mbind, M_bind, mret, M_ret. by rewrite E.
Qed.

(** ** Segments *)

Definition bounds_ok (b : bounds) : Prop :=
  in_u64 b.(phys_start) /\ in_u64 b.(phys_end) /\ in_u64 b.(virt_start) /\ in_u64 b.(virt_end).

Section segments.
(** The image: [size] bytes at [kernel] in pages the loader owns, with its
    headers inside and its segments linked to run where they are loaded. *)
Context (s : loader F) (kernel size : Z).

Definition phdr_addr (i : Z) : Z := kernel + e_phoff s.(mem) kernel + 56 * i.
Definition header (i : Z) : Elf64_Phdr := load_phdr s.(mem) (phdr_addr i).

Definition segment_ok (p : Elf64_Phdr) : Prop :=
  p.(p_vaddr) = p.(p_paddr) /\ p.(p_filesz) <= p.(p_memsz) /\ p.(p_offset) + p.(p_filesz) <= size.

Record image_ok : Prop := {
  im_ram : ram_ok s.(mem);
  im_range : 0 <= kernel /\ kernel + size <= 2 ^ 52 /\ 64 <= size;
  im_owned : forall a, in_bytes kernel size a = true -> owned s.(fw) (a / PAGE_SIZE) = true;
  im_headers : e_phoff s.(mem) kernel + 56 * e_phnum s.(mem) kernel <= size;
  im_segments : forall i, 0 <= i < e_phnum s.(mem) kernel -> (header i).(p_type) = 1 -> segment_ok (header i);
}.
Context (Him : image_ok).

Lemma image_byte t a : keeps (fun _ => False) s t -> in_bytes kernel size a = true ->
  load8 t.(mem) a = load8 s.(mem) a.
Proof. intros K Ha. apply (kp_bytes _ _ _ K); [|tauto]. by apply (im_owned Him). Qed.

Lemma image_field n t a : keeps (fun _ => False) s t -> kernel <= a -> a + Z.of_nat n <= kernel + size ->
  load_le n t.(mem) a = load_le n s.(mem) a.
Proof.
  intros K Ha Hn. apply load_le_ext. intros j Hj. apply image_byte; [done|].
  apply in_bytes_spec. lia.
Qed.

Lemma image_phnum t : keeps (fun _ => False) s t -> e_phnum t.(mem) kernel = e_phnum s.(mem) kernel.
Proof. intros K. destruct (im_range Him) as (? & ? & ?). apply image_field; [done|lia..]. Qed.

Lemma phnum_range : 0 <= e_phnum s.(mem) kernel < 65536.
Proof. apply (load_le_range 2). Qed.

Lemma phdr_in i : 0 <= i < e_phnum s.(mem) kernel ->
  kernel <= phdr_addr i /\ phdr_addr i + 56 <= kernel + size.
Proof.
  intros Hi. unfold phdr_addr. pose proof (load_le_range 8 s.(mem) (kernel + 32)) as Hp.
  pose proof (im_headers Him). unfold e_phoff in *. destruct (im_range Him). lia.
Qed.

Lemma image_header t i : keeps (fun _ => False) s t -> 0 <= i < e_phnum s.(mem) kernel ->
  load_phdr t.(mem) (phdr_addr i) = header i.
Proof.
  intros K Hi. pose proof (phdr_in i Hi) as [Ha Hb]. unfold header, load_phdr.
  f_equal; apply image_field; done || lia.
Qed.

Lemma header_range i : 0 <= (header i).(p_paddr) < 2 ^ 64 /\ 0 <= (header i).(p_memsz) /\
  0 <= (header i).(p_filesz) /\ 0 <= (header i).(p_offset).
Proof.
  unfold header, load_phdr. cbn. pose proof (fun a => load_le_range 8 s.(mem) a) as Hr.
  change (256 ^ Z.of_nat 8) with (2 ^ 64) in Hr. split_and!; apply Hr.
Qed.

(** A loaded segment: its bytes and its pages. *)
Record placed (p : Elf64_Phdr) (t : loader F) : Prop := {
  pl_bytes : forall k, 0 <= k < p.(p_memsz) -> load8 t.(mem) (p.(p_paddr) + k) =
    if k <? p.(p_filesz) then load8 s.(mem) (kernel + p.(p_offset) + k) else 0;
  pl_pages : forall a, in_bytes p.(p_paddr) p.(p_memsz) a = true ->
    owned s.(fw) (a / PAGE_SIZE) = false /\ owned t.(fw) (a / PAGE_SIZE) = true;
  pl_fits : 0 < p.(p_paddr) /\ p.(p_paddr) + p.(p_memsz) <= 2 ^ 52;
}.

Lemma placed_keeps p t u : placed p t -> keeps (fun _ => False) t u -> placed p u.
Proof.
  intros [B P Hf] K. constructor; [| |done].
  - intros k Hk. rewrite (kp_bytes _ _ _ K); [by apply B| |tauto]. apply P, in_bytes_spec. lia.
  - intros a Ha. destruct (P a Ha). split; [done|]. by apply (kp_owned _ _ _ K).
Qed.

(** The memory after the copy and after the clearing of the rest. *)
Definition copied_mem (p : Elf64_Phdr) (m : ram) : ram := CopyMem p.(p_paddr) (kernel + p.(p_offset)) p.(p_filesz) m.
Definition placed_mem (p : Elf64_Phdr) (m : ram) : ram :=
  if p.(p_filesz) <? p.(p_memsz)
  then SetMem (u64 (p.(p_paddr) + p.(p_filesz))) (p.(p_memsz) - p.(p_filesz)) 0 (copied_mem p m) else copied_mem p m.

Lemma copied_byte p m a : 0 <= p.(p_filesz) -> load8 (copied_mem p m) a =
  if in_bytes p.(p_paddr) p.(p_filesz) a then load8 m (kernel + p.(p_offset) + (a - p.(p_paddr))) else load8 m a.
Proof. intros Hf. by apply fl_copy. Qed.

Lemma placed_byte p m a : 0 <= p.(p_filesz) <= p.(p_memsz) -> 0 <= p.(p_paddr) -> p.(p_paddr) + p.(p_memsz) <= 2 ^ 52 ->
  load8 (placed_mem p m) a =
  if in_bytes p.(p_paddr) p.(p_memsz) a then
    (if a - p.(p_paddr) <? p.(p_filesz) then load8 m (kernel + p.(p_offset) + (a - p.(p_paddr))) else 0)
  else load8 m a.
Proof.
  intros Hf Hp Hm. unfold placed_mem. destruct (Z.ltb_spec p.(p_filesz) p.(p_memsz)).
  - rewrite fl_set, copied_byte by lia. rewrite u64_id by (unfold in_u64; lia). unfold in_bytes.
    destruct (Z.leb_spec (p.(p_paddr) + p.(p_filesz)) a), (Z.ltb_spec a (p.(p_paddr) + p.(p_filesz) + (p.(p_memsz) - p.(p_filesz)))),
      (Z.leb_spec p.(p_paddr) a), (Z.ltb_spec a (p.(p_paddr) + p.(p_memsz))), (Z.ltb_spec a (p.(p_paddr) + p.(p_filesz))),
      (Z.ltb_spec (a - p.(p_paddr)) p.(p_filesz)); cbn [andb]; done || lia.
  - rewrite copied_byte by lia. replace p.(p_filesz) with p.(p_memsz) by lia.
    destruct (in_bytes _ _ a) eqn:E; [|done]. apply in_bytes_spec in E. by rewrite (proj2 (Z.ltb_lt _ _)) by lia.
Qed.

Lemma placed_ok p m : ram_ok m -> ram_ok (copied_mem p m) /\ ram_ok (placed_mem p m).
Proof.
  intros Hm. assert (ram_ok (copied_mem p m)) by (by apply fl_copy_ok). split; [done|].
  unfold placed_mem. destruct (_ <? _); [by apply fl_set_ok|done].
Qed.

(** Writing inside pages obtained just now. *)
Lemma write_new_pages (t : loader F) f' base n m :
  (forall q, owned f' q = owned t.(fw) q || in_range (base / PAGE_SIZE) (EFI_SIZE_TO_PAGES n) q) ->
  (forall q, in_range (base / PAGE_SIZE) (EFI_SIZE_TO_PAGES n) q = true -> owned t.(fw) q = false) ->
  (forall a, in_bytes base n a = true -> in_range (base / PAGE_SIZE) (EFI_SIZE_TO_PAGES n) (a / PAGE_SIZE) = true) ->
  (forall a, in_bytes base n a = false -> load8 m a = load8 t.(mem) a) -> (ram_ok t.(mem) -> ram_ok m) ->
  keeps (fun _ => False) t (set_mem m (set_fw f' t)).
Proof.
  intros Hown Hfree Hin Hm Hok. constructor; [intros q Hq; cbn; by rewrite Hown, Hq| |done].
  intros a Ha _. apply Hm. destruct (in_bytes base n a) eqn:E; [|done]. rewrite (Hfree _ (Hin a E)) in Ha. done.
Qed.

Lemma load_segment_spec t i b : keeps (fun _ => False) s t -> 0 <= i < e_phnum s.(mem) kernel ->
  (header i).(p_type) = 1 ->
  exists u, keeps (fun _ => False) t u /\
    (load_segment kernel (phdr_addr i) b t = Done (None, u) \/
     load_segment kernel (phdr_addr i) b t = Done (Some (extend (header i) b), u) /\ placed (header i) u).
Proof.
  intros K Hi Hty. set (p := header i) in *.
  destruct (im_segments Him i Hi Hty) as (Hv & Hfm & Hoff). fold p in Hv, Hfm, Hoff.
  destruct (header_range i) as (Hpa & Hms & Hfs & Ho). fold p in Hpa, Hms, Hfs, Ho.
  destruct (im_range Him) as (Hk0 & Hk1 & _). pose proof (size_to_pages p.(p_memsz) Hms) as Hpg.
  unfold load_segment. rewrite (bind_eq _ _ _ _ _ (gets_eq _ t)). cbv beta.
  rewrite image_header by done. fold p. unfold attempt.
  destruct (AllocatePages AllocateAddress EfiLoaderData (EFI_SIZE_TO_PAGES p.(p_memsz)) p.(p_paddr) t.(fw))
    as [[st addr] f'] eqn:Ea.
  rewrite (bind_eq _ _ _ _ _ (or_panic_alloc _ _ _ _ _ _ _ Ea)).
  apply fl_alloc in Ea as [[Er Hown]|(Er & Hal & Hpos & Hmax & Haddr & _ & Hfree & Hown)];
    [| |unfold PAGE_SIZE in Hpg; lia]; rewrite Er.
  { exists (set_fw f' t). split; [by apply keeps_fw|by left]. }
  rewrite (Haddr eq_refl) in *. clear Haddr addr.
  assert (forall a, in_bytes p.(p_paddr) p.(p_memsz) a = true ->
    in_range (p.(p_paddr) / PAGE_SIZE) (EFI_SIZE_TO_PAGES p.(p_memsz)) (a / PAGE_SIZE) = true) as Hin.
  { intros a Ha%in_bytes_spec. apply page_of_byte; [done|lia]. }
  rewrite u64_id by (unfold in_u64; lia). rewrite Hv. fold (copied_mem p t.(mem)).
  pose proof (fun m => write_new_pages t f' _ _ m Hown Hfree Hin) as Hkeep.
  assert (keeps (fun _ => False) t (set_mem (copied_mem p t.(mem)) (set_fw f' t))) as K1.
  { apply Hkeep; [|apply placed_ok]. intros a Ha. rewrite copied_byte by done. apply in_bytes_false in Ha.
    by rewrite (proj2 (in_bytes_false _ _ _)) by lia. }
  assert (keeps (fun _ => False) t (set_mem (placed_mem p t.(mem)) (set_fw f' t))) as K2.
  { apply Hkeep; [|apply placed_ok]. intros a Ha. by rewrite placed_byte, Ha by lia. }
  exists (set_mem (placed_mem p t.(mem)) (set_fw f' t)). split; [done|right]. split.
  - rewrite (bind_eq (on_mem _) _ _ tt (set_mem (copied_mem p t.(mem)) (set_fw f' t))) by done.
    rewrite (bind_eq _ _ _ _ _ (gets_eq _ _)). cbv beta.
    rewrite image_header by (done || by etransitivity). fold p. rewrite Hv.
    rewrite (bind_eq _ _ _ tt (set_mem (placed_mem p t.(mem)) (set_fw f' t))) by (unfold placed_mem; by destruct (_ <? _)).
    rewrite (bind_eq _ _ _ _ _ (gets_eq _ _)). cbv beta. by rewrite image_header by (done || by etransitivity).
  - constructor; [| |lia]; intros a Ha.
    + cbn [mem set_mem]. rewrite placed_byte, (proj2 (in_bytes_spec _ _ _)) by lia.
      replace (p.(p_paddr) + a - p.(p_paddr)) with a by lia. destruct (Z.ltb_spec a p.(p_filesz)); [|done].
      apply image_byte; [done|]. apply in_bytes_spec. lia.
    + cbn [fw set_mem set_fw]. rewrite Hown, (Hin a Ha), orb_true_r. split; [|done].
      destruct (owned s.(fw) (a / PAGE_SIZE)) eqn:Eo; [|done].
      apply (kp_owned _ _ _ K) in Eo. by rewrite (Hfree _ (Hin a Ha)) in Eo.
Qed.

(** The extent of the headers below [n]. *)
Fixpoint bounds_upto (n : nat) : bounds :=
  match n with
  | O => no_bounds
  | S k =>
      let p := header (Z.of_nat k) in
      if p.(p_type) =? 1 then extend p (bounds_upto k) else bounds_upto k
  end.

Lemma segment_loop_spec fuel : forall i t, keeps (fun _ => False) s t ->
  Z.of_nat i <= e_phnum s.(mem) kernel -> e_phnum s.(mem) kernel - Z.of_nat i <= Z.of_nat fuel ->
  (forall j, 0 <= j < Z.of_nat i -> (header j).(p_type) = 1 -> placed (header j) t) ->
  exists u, keeps (fun _ => False) s u /\
    (segment_loop fuel kernel (kernel + e_phoff s.(mem) kernel) (Z.of_nat i) (bounds_upto i) t = Done (None, u) \/
     segment_loop fuel kernel (kernel + e_phoff s.(mem) kernel) (Z.of_nat i) (bounds_upto i) t =
       Done (Some (bounds_upto (Z.to_nat (e_phnum s.(mem) kernel))), u) /\
     forall j, 0 <= j < e_phnum s.(mem) kernel -> (header j).(p_type) = 1 -> placed (header j) u).
Proof.
  pose proof phnum_range as Hn. destruct (im_range Him) as (? & ? & ?).
  induction fuel as [|fuel IH]; intros i t K Hi Hf Hp; cbn [segment_loop];
    rewrite (bind_eq _ _ _ _ _ (gets_eq _ t)); cbv beta; rewrite image_phnum by done;
    destruct (Z.ltb_spec (Z.of_nat i) (e_phnum s.(mem) kernel)) as [Hlt|Hge]; cbn [negb]; [lia| | |];
    try (exists t; split; [done|right]; replace (e_phnum s.(mem) kernel) with (Z.of_nat i) by lia;
      rewrite Nat2Z.id; by split).
  assert (u64 (kernel + e_phoff s.(mem) kernel + 56 * Z.of_nat i) = phdr_addr (Z.of_nat i)) as ->.
  { pose proof (phdr_in (Z.of_nat i) ltac:(lia)). unfold phdr_addr in *. apply u64_id. unfold in_u64. lia. }
  rewrite (bind_eq _ _ _ _ _ (gets_eq _ t)). cbv beta. rewrite image_header by (done || lia).
  assert (u16 (Z.of_nat i + 1) = Z.of_nat (S i)) as -> by (unfold u16; rewrite Z.mod_small; lia).
  assert (forall u, keeps (fun _ => False) t u ->
    ((header (Z.of_nat i)).(p_type) = 1 -> placed (header (Z.of_nat i)) u) ->
    forall j, 0 <= j < Z.of_nat (S i) -> (header j).(p_type) = 1 -> placed (header j) u) as Hnext.
  { intros u Ku Hu j Hj Hty. destruct (decide (j = Z.of_nat i)) as [->|]; [by apply Hu|].
    apply placed_keeps with t; [apply Hp; [lia|done]|done]. }
  destruct (Z.eqb_spec (header (Z.of_nat i)).(p_type) 1) as [Hty|Hty]; cbn [negb].
  - unfold attempt. destruct (load_segment_spec t (Z.of_nat i) (bounds_upto i) K ltac:(lia) Hty)
      as (u & Ku & [E|[E Hpl]]); rewrite (bind_eq _ _ _ _ _ E).
    { exists u. split; [by etransitivity|by left]. }
    pose proof (IH (S i) u) as IH'. cbn [bounds_upto] in IH'. rewrite Hty in IH'. apply IH'; try lia.
    + by etransitivity.
    + by apply Hnext.
  - pose proof (IH (S i) t) as IH'. cbn [bounds_upto] in IH'.
    rewrite (proj2 (Z.eqb_neq _ _) Hty) in IH'. apply IH'; try lia; [done|]. by apply Hnext.
Qed.

Lemma bounds_upto_ok n : bounds_ok (bounds_upto n).
Proof.
  induction n as [|n IH]; cbn [bounds_upto]; [unfold bounds_ok, no_bounds, UINT64_MAX, in_u64; cbn; lia|].
  destruct (_ =? 1); [|done]. destruct IH as (B1 & B2 & B3 & B4).
  destruct (header_range (Z.of_nat n)) as (Hp & _). pose proof (u64_range) as Hu.
  assert (in_u64 (header (Z.of_nat n)).(p_vaddr)) as Hv
    by (apply (load_le_range 8 s.(mem) (phdr_addr (Z.of_nat n) + 16))).
  unfold bounds_ok, extend. cbn. split_and!; case_match; try done; apply Hu.
Qed.

(** Every segment lies within the extent. *)
Lemma bounds_upto_le n j : 0 <= j < Z.of_nat n -> (header j).(p_type) = 1 ->
  (header j).(p_paddr) + (header j).(p_memsz) < 2 ^ 64 -> (header j).(p_vaddr) = (header j).(p_paddr) ->
  let b := bounds_upto n in let p := header j in
  b.(phys_start) <= p.(p_paddr) /\ p.(p_paddr) + p.(p_memsz) <= b.(phys_end) /\
  b.(virt_start) <= p.(p_vaddr) /\ p.(p_vaddr) + p.(p_memsz) <= b.(virt_end).
Proof.
  intros Hj Hty Hfit Hv. cbv zeta. destruct (header_range j) as (? & ? & _).
  induction n as [|n IH]; [lia|]. cbn [bounds_upto].
  destruct (decide (j = Z.of_nat n)) as [->|Hne].
  - rewrite Hty. rewrite Z.eqb_refl. rewrite !Hv. cbn [extend phys_start phys_end virt_start virt_end].
    rewrite ?Hv, !u64_id by (unfold in_u64; lia).
    repeat case_match; rewrite ?Z.ltb_lt, ?Z.ltb_ge in *; lia.
  - specialize (IH ltac:(lia)). destruct (_ =? 1); [|done].
    cbn [extend phys_start phys_end virt_start virt_end].
    repeat case_match; rewrite ?Z.ltb_lt, ?Z.ltb_ge in *; lia.
Qed.
End segments.
End firmware.
