(* ===== verification/BootGop.v ===== *)
(** * Devices and graphics in the loader

    The device listings of [efi_main] ([bootloader/uefi.c]), the choice of a
    graphics mode, and what is drawn before the kernel is entered. *)

From S2P Require Import Prelude Pmm PageTable Efi BootLib BootPaging.

(** The processor as the loader asks for it: CPUID, whether page 0 can be
    written, and the values of the variables that are read before they are
    written when a leaf is missing: [max_ext], the registers of the vendor and
    of the brand string, and the CHAR16 string of the vendor. *)
Record cpu_env := mk_cpu_env {
  ce_cpuid : cpuid_fn;
  ce_page0 : bool;
  ce_max_ext : Z;
  ce_vendor_regs : Z * Z * Z * Z;
  ce_brand_regs : Z * Z * Z * Z;
  ce_vendor16 : list Z;
}.

Section gop.
Context {F : Type} `{Firmware F}.

(** [for] over a list of handles. *)
Fixpoint each {A : Type} (body : Z -> A -> M (loader F) unit) (i : Z) (l : list A) : M (loader F) unit :=
  match l with
  | [] => mret tt
  | a :: r => _ ← body i a; each body (i + 1) r
  end.

(** ** The processor *)

(** [*p = v] for a null pointer to [unsigned int], where the compiler emits the
    store: it goes to address 0 if the firmware's tables let page 0 be written,
    and is a page fault otherwise. *)
Definition store_null (page0 : bool) (v : Z) : M (loader F) unit :=
  if page0 then on_mem (store_le 4 0 v) else fault.

(** [__get_cpuid(0x80000000, &max_ext, NULL, NULL, NULL)], which stores EBX, ECX
    and EDX through the null pointers, in this order. *)
Definition get_max_ext (env : cpu_env) : M (loader F) Z :=
  match env.(ce_cpuid) 0x80000000 with
  | None => mret env.(ce_max_ext)
  | Some (eax, ebx, ecx, edx) =>
      _ ← store_null env.(ce_page0) ebx;
      _ ← store_null env.(ce_page0) ecx;
      _ ← store_null env.(ce_page0) edx;
      mret eax
  end.

(** The CHAR16 string of the vendor, if it is set. *)
Definition print_cpu (env : cpu_env) : M (loader F) (list Z) :=
  max_ext ← get_max_ext env;
  _ ← uefi_println (L "----- CPU -----");
  if max_ext <? 0x80000004 then
    _ ← uefi_println (L "CPUID is not supported."); mret env.(ce_vendor16)
  else
    let vendor16 := vendor_to_char16 (get_cpu_vendor env.(ce_cpuid) env.(ce_vendor_regs)) in
    _ ← uefi_print (L "CPU Vendor string: ");
    _ ← output_string vendor16;
    _ ← output_string crlf;
    let brand16 := ascii_to_char16 (get_cpu_brand env.(ce_cpuid) env.(ce_brand_regs)) 64 in
    _ ← uefi_print (L "CPU: ");
    _ ← output_string brand16;
    _ ← output_string crlf;
    mret vendor16.

(** ** PCI devices *)

Definition pci_device (handle : Z) : M (loader F) unit :=
  '(st, PciIo) ← call (HandleProtocol handle PciIoProtocol);
  if EFI_ERROR st then mret tt else
  '(pst, v) ← call (PciRead PciIo 1 0x00);
  let VendorId := u16 v in
  if EFI_ERROR pst then mret tt else
  if (VendorId =? 0) || (VendorId =? 0xFFFF) then mret tt else
  '(cst, Class) ← call (PciRead PciIo 2 0x08);
  if EFI_ERROR cst then uefi_println (L "PCI read failed") else
  let BaseClass := Z.land (Z.shiftr Class 24) 0xFF in
  if negb (BaseClass =? 0x03) && negb (VendorId =? 0) then mret tt else
  let '(name, i) := pci_vendor_name VendorId 0 in
  _ ← uefi_print (L "Found device: ");
  _ ← output_string (ascii_to_char16 name 32);
  _ ← (if negb (i =? 0) then
         _ ← uefi_print (L " 0x");
         uefi_print (decimal VendorId 25)
       else mret tt);
  output_string crlf.

(** [false]: the loader returns to the firmware. *)
Definition pci_scan : M (loader F) bool :=
  _ ← uefi_println (L "----- GPU (PCI/e) -----");
  '(st, Handles, buffer) ← call (LocateHandleBuffer PciIoProtocol);
  if EFI_ERROR st then _ ← uefi_println (L "PCI scan failed."); mret false else
  _ ← uefi_print (L "Detected devices (PCI/e): ");
  _ ← output_string (decimal (Z.of_nat (length Handles)) 25);
  _ ← output_string crlf;
  _ ← each (fun _ h => pci_device h) 0 Handles;
  _ ← tell (FreePool buffer);
  mret true.

(** ** Graphics devices *)

Definition gop_device (i handle : Z) : M (loader F) unit :=
  '(Status, Gop) ← call (HandleProtocol handle GraphicsOutput);
  if EFI_ERROR Status then mret tt else
  mode ← gets (fun s => GopMode Gop s.(fw));
  _ ← uefi_print (crlf ++ L "GPU ");
  _ ← uefi_print (decimal i 32);
  _ ← uefi_println [];
  _ ← uefi_print (L "GPU resolution: ");
  _ ← output_string (decimal mode.(Info).(HorizontalResolution) 16);
  _ ← uefi_print (L "x");
  _ ← output_string (decimal mode.(Info).(VerticalResolution) 16);
  _ ← uefi_print (L ", Pixels per scanline: ");
  _ ← output_string (decimal mode.(Info).(PixelsPerScanLine) 16);
  _ ← uefi_print crlf;
  _ ← uefi_print (L "Framebuffer base: 0x");
  _ ← output_string (decimal mode.(FrameBufferBase) 16);
  _ ← uefi_print (L ", Size: ");
  _ ← output_string (decimal mode.(FrameBufferSize) 16);
  uefi_println crlf.

Definition gop_scan : M (loader F) unit :=
  _ ← uefi_println (L " --- GPU --- ");
  '(Status, GopHandles, _) ← call (LocateHandleBuffer GraphicsOutput);
  if EFI_ERROR Status then uefi_println (L "[!] Failed GPU lookup... (Terminating)") else
  _ ← uefi_print (L "[*] GPU (GOP) devices found: ");
  _ ← output_string (decimal (Z.of_nat (length GopHandles)) 8);
  _ ← uefi_println [];
  _ ← uefi_println (L "[+] Identifing GPU's...");
  each gop_device 0 GopHandles.

(** ** The monitor

    [float] arithmetic: an [int] rounded to 24 bits, and the quotient of two
    such values truncated to an integer. *)

(** [n / d] rounded to the nearest integer, ties to even. *)
Definition round_even (n d : Z) : Z :=
  let q := n / d in
  let r := n mod d in
  if 2 * r <? d then q else if d <? 2 * r then q + 1 else if Z.even q then q else q + 1.

Definition float_of_int (n : Z) : Z :=
  if n <? 2 ^ 24 then n
  else let k := Z.log2 n - 23 in round_even n (2 ^ k) * 2 ^ k.

Definition float_quotient (a b : Z) : Z :=
  if a <? b then 0 else
  let k := 23 - Z.log2 (a / b) in
  if 0 <=? k then round_even (a * 2 ^ k) b / 2 ^ k
  else round_even a (b * 2 ^ (- k)) * 2 ^ (- k).

(** HActive, VActive and the refresh rate, from the first detailed timing
    descriptor; [None] when the pixel clock is 0 and [fault] when the total
    size is 0 (the rate is infinite). *)
Definition parse_edid (edid : list Z) : M (loader F) (option (Z * Z * Z)) :=
  let DTD k := aget edid (54 + k) in
  let PixelClock := Z.lor (DTD 0) (Z.shiftl (DTD 1) 8) in
  if PixelClock =? 0 then
    _ ← uefi_println (L "[!] No valid pixel clock."); mret None
  else
  let HActive := u16 (DTD 2 + Z.shiftl (Z.land (DTD 4) 0xF0) 4) in
  let VActive := u16 (DTD 5 + Z.shiftl (Z.land (DTD 7) 0xF0) 4) in
  let HTotal := u16 (HActive + (DTD 3 + Z.shiftl (Z.land (DTD 4) 0x0F) 8)) in
  let VTotal := u16 (VActive + (DTD 6 + Z.shiftl (Z.land (DTD 7) 0x0F) 8)) in
  if HTotal * VTotal =? 0 then fault else
  mret (Some (HActive, VActive,
    float_quotient (float_of_int (PixelClock * 10000)) (float_of_int (HTotal * VTotal)))).

(** ** The mode *)

(** [foundMode] and [choosenMode]. *)
Record pick := mk_pick { foundMode : bool; choosenMode : Z }.

Definition linear (info : mode_info) : bool :=
  (info.(PixelFormat) =? PixelRedGreenBlueReserved8BitPerColor) ||
  (info.(PixelFormat) =? PixelBlueGreenRedReserved8BitPerColor).

(** One round of the loop; [true] is a [break].  [monitor] is the active
    size the monitor reports, if any. *)
Definition query_mode (gop i printGOP : Z) (preferClassic : bool) (monitor : option (Z * Z)) (p : pick)
    : M (loader F) (bool * pick) :=
  '(Status, ptr, info) ← call (QueryMode gop i);
  if EFI_ERROR Status then mret (false, p) else
  _ ← uefi_print [9];
  _ ← uefi_print (decimal info.(HorizontalResolution) 512);
  _ ← uefi_print (L "x");
  _ ← uefi_println (decimal info.(VerticalResolution) 512);
  _ ← (if negb (printGOP =? 0) then printGOPStats info else mret tt);
  if negb (linear info) then _ ← tell (FreePool ptr); mret (false, p) else
  let p := if p.(foundMode) then p else mk_pick true i in
  let exact := match monitor with
    | Some (h, v) => (info.(HorizontalResolution) =? h) && (info.(VerticalResolution) =? v)
    | None => false
    end in
  if exact then _ ← tell (FreePool ptr); mret (true, mk_pick p.(foundMode) i) else
  if preferClassic && (info.(HorizontalResolution) =? 1920) && (info.(VerticalResolution) =? 1080)
  then _ ← tell (FreePool ptr); mret (true, mk_pick p.(foundMode) i) else
  _ ← tell (FreePool ptr);
  mret (false, p).

Fixpoint mode_loop (fuel : nat) (gop i printGOP : Z) (preferClassic : bool) (monitor : option (Z * Z))
    (p : pick) : M (loader F) pick :=
  mode ← gets (fun s => GopMode gop s.(fw));
  if negb (i <? mode.(MaxMode)) then mret p else
  match fuel with
  | O => fault
  | S n =>
      '(stop, p') ← query_mode gop i printGOP preferClassic monitor p;
      if (stop : bool) then mret p' else mode_loop n gop (i + 1) printGOP preferClassic monitor p'
  end.

(** From the label [gop_pick] to [gop_end]; [monitor] carries the refresh
    rate, and [None] stands for [skip_monitor]. *)
Definition pick_mode (gop printGOP : Z) (monitor : option (Z * Z * Z)) : M (loader F) (option Z) :=
  _ ← uefi_println (L "Modes available: ");
  mode ← gets (fun s => GopMode gop s.(fw));
  p ← mode_loop (Z.to_nat mode.(MaxMode)) gop 0 printGOP true (fst <$> monitor) (mk_pick false 0);
  if negb p.(foundMode) then
    _ ← uefi_println (L "[!] No supported linear framebuffer mode."); mret None
  else
  _ ← uefi_println (L "Mode was choosen..");
  match monitor with
  | None =>
      mode ← gets (fun s => GopMode gop s.(fw));
      mret (Some mode.(Mode))
  | Some (HActive, VActive, RefreshHz) =>
      _ ← uefi_println (L "--- Monitor ---");
      _ ← uefi_print (L "Refresh rate: ");
      _ ← uefi_println (decimal RefreshHz 64);
      _ ← uefi_print (L "Resolution: ");
      _ ← uefi_print (decimal HActive 32);
      _ ← uefi_print (L "x");
      _ ← uefi_print (decimal VActive 32);
      mret (Some p.(choosenMode))
  end.

(** The interface and the mode to use.  [printGOP] is initialised only on the
    path that reads the EDID; [indeterminate] is its value on the other. *)
Definition choose_mode (indeterminate : Z) : M (loader F) (option (Z * Z)) :=
  _ ← uefi_println (L " --- GPU GOP --- ");
  _ ← uefi_println (L "[+] Loading GOP mode.");
  '(Status, gop) ← call (LocateProtocol GraphicsOutput);
  if EFI_ERROR Status then
    _ ← uefi_println (L "[!] GOP protocol is unavailable."); mret None
  else
  _ ← uefi_println (L "[*] Loaded GOP protocol.");
  '(Status, Edid) ← call (LocateProtocol EdidDiscovered);
  '(SizeOfEdid, ptr, edid) ← gets (fun s => EdidData Edid s.(fw));
  if EFI_ERROR Status || (Edid =? 0) || (SizeOfEdid <? 128) || (ptr =? 0) then
    _ ← uefi_println (L "[!] No available information about monitor, prefering 1920x1080 resolution");
    mode ←? pick_mode gop indeterminate None;
    mret (Some (gop, mode))
  else
  monitor ←? parse_edid edid;
  mode ←? pick_mode gop 1 (Some monitor);
  mret (Some (gop, mode)).

(** ** Drawing *)

(** [fb[i] = color] *)
Definition put32 (fb i color : Z) (m : ram) : ram := store_le 4 (fb + 4 * i) color m.

Definition fill_screen (fb width height pitch color : Z) (m : ram) : ram :=
  for_up (Z.to_nat height) 0 (fun y m =>
    for_up (Z.to_nat width) 0 (fun x m => put32 fb (u64 (y * pitch + x)) color m) m) m.

(** [bmp[i]]; a file of [length bmp] bytes. *)
Definition bmp_byte (bmp : list Z) (i : Z) : M (loader F) Z :=
  if (0 <=? i) && (i <? Z.of_nat (length bmp)) then mret (aget bmp i) else fault.

Fixpoint bmp_le (n : nat) (bmp : list Z) (i : Z) : M (loader F) Z :=
  match n with
  | O => mret 0
  | S n' => b ← bmp_byte bmp i; r ← bmp_le n' bmp (i + 1); mret (b + 256 * r)
  end.

Definition draw_block (fb fb_width fb_height pitch posX posY scale x y color : Z) : M (loader F) unit :=
  for_upM (Z.to_nat scale) 0 (fun sy =>
    for_upM (Z.to_nat scale) 0 (fun sx =>
      let draw_x := u64 (posX + x * scale + sx) in
      let draw_y := u64 (posY + y * scale + sy) in
      if (draw_x <? fb_width) && (draw_y <? fb_height)
      then on_mem (put32 fb (u64 (draw_y * pitch + draw_x)) color)
      else mret tt)).

Definition DrawBMP (fb fb_width fb_height pitch posX posY : Z) (bmp : list Z) (scale : Z)
    : M (loader F) unit :=
  type ← bmp_le 2 bmp 0;
  bpp ← bmp_le 2 bmp 28;
  if negb (type =? 0x4D42) then mret tt else
  if negb (bpp =? 24) then mret tt else
  offset ← bmp_le 4 bmp 10;
  w ← bmp_le 4 bmp 18;
  h ← bmp_le 4 bmp 22;
  if (s32 w <=? 0) || (s32 h <=? 0) || (scale =? 0) then mret tt else
  let rowSize := Z.land (u64 (w * 3 + 3)) (Z.lnot 3) in
  for_upM (Z.to_nat h) 0 (fun y =>
    for_upM (Z.to_nat w) 0 (fun x =>
      let pixel := offset + (h - 1 - y) * rowSize + x * 3 in
      r ← bmp_byte bmp (pixel + 2);
      g ← bmp_byte bmp (pixel + 1);
      b ← bmp_byte bmp pixel;
      let color := Z.lor (Z.lor (Z.shiftl r 16) (Z.shiftl g 8)) b in
      draw_block fb fb_width fb_height pitch posX posY scale x y color)).
End gop.
