(* ===== verification/LogoData.v ===== *)
(** * The logo ([common/logo.h])

    The bitmap file the loader draws, row by row as in the C array. *)

From S2P Require Import Prelude.

Definition logo_bmp_rows : list (list Z) := [
  [0x42; 0x4d; 0x3a; 0x1e; 0x00; 0x00; 0x00; 0x00; 0x00; 0x00; 0x8a; 0x00];
  [0x00; 0x00; 0x7c; 0x00; 0x00; 0x00; 0x32; 0x00; 0x00; 0x00; 0x32; 0x00];
  [0x00; 0x00; 0x01; 0x00; 0x18; 0x00; 0x00; 0x00; 0x00; 0x00; 0xb0; 0x1d];
  [0x00; 0x00; 0x23; 0x2e; 0x00; 0x00; 0x23; 0x2e; 0x00; 0x00; 0x00; 0x00];
  [0x00; 0x00; 0x00; 0x00; 0x00; 0x00; 0x00; 0x00; 0xff; 0x00; 0x00; 0xff];
  [0x00; 0x00; 0xff; 0x00; 0x00; 0x00; 0x00; 0x00; 0x00; 0x00; 0x42; 0x47];
  [0x52; 0x73; 0x00; 0x00; 0x00; 0x00; 0x00; 0x00; 0x00; 0x00; 0x00; 0x00];
  [0x00; 0x00; 0x00; 0x00; 0x00; 0x00; 0x00; 0x00; 0x00; 0x00; 0x00; 0x00];
  [0x00; 0x00; 0x00; 0x00; 0x00; 0x00; 0x00; 0x00; 0x00; 0x00; 0x00; 0x00];
  [0x00; 0x00; 0x00; 0x00; 0x00; 0x00; 0x00; 0x00; 0x00; 0x00; 0x00; 0x00];
  [0x00; 0x00; 0x02; 0x00; 0x00; 0x00; 0x00; 0x00; 0x00; 0x00; 0x00; 0x00];
  [0x00; 0x00; 0x00; 0x00; 0x00; 0x00; 0xff; 0xff; 0xff; 0xff; 0xff; 0xff];
  [0xff; 0xff; 0xff; 0xff; 0xff; 0xff; 0xff; 0xff; 0xff; 0xff; 0xff; 0xff];
  [0xff; 0xff; 0xff; 0xff; 0xff; 0xff; 0xff; 0xff; 0xff; 0xff; 0xff; 0xff];
  [0xff; 0xff; 0xff; 0xff; 0xff; 0xff; 0xff; 0xff; 0xff; 0xff; 0xff; 0xff];
  [0xff; 0xff; 0xff; 0xff; 0xff; 0xff; 0xff; 0xff; 0xff; 0xff; 0xff; 0xff];
  [0xff; 0xff; 0xff; 0xff; 0xff; 0xff; 0xff; 0xff; 0xff; 0xff; 0xff; 0xff];
  [0xff; 0xff; 0xff; 0xff; 0xff; 0xff; 0xff; 0xff; 0xff; 0xff; 0xff; 0xff];
  [0xff; 0xff; 0xff; 0xff; 0xff; 0xff; 0xff; 0xff; 0xff; 0xff; 0xff; 0xff];
  [0xff; 0xff; 0xff; 0xff; 0xff; 0xff; 0xff; 0xff; 0xff; 0xff; 0xff; 0xff];
  [0xff; 0xff; 0xff; 0xff; 0xff; 0xff; 0xff; 0xff; 0xff; 0xff; 0xff; 0xff];
  [0xff; 0xff; 0xff; 0xff; 0xff; 0xff; 0xff; 0xff; 0xff; 0xff; 0xff; 0xff];
  [0xff; 0xff; 0xff; 0xff; 0xff; 0xff; 0xff; 0xff; 0xff; 0xff; 0xff; 0xff];
  [0xff; 0xff; 0xff; 0xff; 0xff; 0xff; 0xff; 0xff; 0xff; 0xff; 0xff; 0xff];
  [0x00; 0x00; 0xff; 0xff; 0xff; 0xff; 0xff; 0xff; 0xff; 0xff; 0xff; 0xff];
  [0xff; 0xff; 0xff; 0xff; 0xff; 0xff; 0xff; 0xff; 0xff; 0xff; 0xff; 0xff];
  [0xff; 0xff; 0xff; 0xff; 0xff; 0xff; 0xff; 0xff; 0xff; 0xff; 0xff; 0xff];
  [0xff; 0xff; 0xff; 0xff; 0xff; 0xff; 0xff; 0xff; 0xff; 0xff; 0xff; 0xff];
  [0xff; 0xff; 0xff; 0xff; 0xff; 0xff; 0xff; 0xff; 0xff; 0xff; 0xff; 0xff];
  [0xff; 0xff; 0xff; 0xff; 0xff; 0xff; 0xff; 0xff; 0xff; 0xff; 0xff; 0xff];
  [0xff; 0xff; 0xff; 0xff; 0xff; 0xff; 0xff; 0xff; 0xff; 0xff; 0xff; 0xff];
  [0xff; 0xff; 0xff; 0xff; 0xff; 0xff; 0xff; 0xff; 0xff; 0xff; 0xff; 0xff];
  [0xff; 0xff; 0xff; 0xff; 0xff; 0xff; 0xff; 0xff; 0xff; 0xff; 0xff; 0xff];
  [0xff; 0xff; 0xff; 0xff; 0xff; 0xff; 0xff; 0xff; 0xff; 0xff; 0xff; 0xff];
  [0xff; 0xff; 0xff; 0xff; 0xff; 0xff; 0xff; 0xff; 0xff; 0xff; 0xff; 0xff];
  [0xff; 0xff; 0xff; 0xff; 0xff; 0xff; 0xff; 0xff; 0xff; 0xff; 0xff; 0xff];
  [0xff; 0xff; 0xff; 0xff; 0xff; 0xff; 0xff; 0xff; 0x00; 0x00; 0xff; 0xff];
  [0xff; 0xff; 0xff; 0xff; 0xff; 0xff; 0xff; 0xff; 0xff; 0xff; 0xff; 0xff];
  [0xff; 0xff; 0xff; 0xff; 0xff; 0xff; 0xff; 0xff; 0xff; 0xff; 0xff; 0xff];
  [0xff; 0xff; 0xff; 0xff; 0xff; 0xff; 0xff; 0xff; 0xff; 0xff; 0xff; 0xff];
  [0xff; 0xff; 0xff; 0xff; 0xff; 0xff; 0xff; 0xff; 0xff; 0xff; 0xff; 0xff];
  [0xff; 0xff; 0xff; 0xff; 0xff; 0xff; 0xff; 0xff; 0xff; 0xff; 0xff; 0xff];
  [0xff; 0xff; 0xff; 0xff; 0xff; 0xff; 0xff; 0xff; 0xff; 0xff; 0xff; 0xff];
  [0xff; 0xff; 0xff; 0xff; 0xff; 0xff; 0xff; 0xff; 0xff; 0xff; 0xff; 0xff];
  [0xff; 0xff; 0xff; 0xff; 0xff; 0xff; 0xff; 0xff; 0xff; 0xff; 0xff; 0xff];
  [0xff; 0xff; 0xff; 0xff; 0xff; 0xff; 0xff; 0xff; 0xff; 0xff; 0xff; 0xff];
  [0xff; 0xff; 0xff; 0xff; 0xff; 0xff; 0xff; 0xff; 0xff; 0xff; 0xff; 0xff];
  [0xff; 0xff; 0xff; 0xff; 0xff; 0xff; 0xff; 0xff; 0xff; 0xff; 0xff; 0xff];
  [0xff; 0xff; 0xff; 0xff; 0xff; 0xff; 0xff; 0xff; 0xff; 0xff; 0xff; 0xff];
  [0xff; 0xff; 0xff; 0xff; 0x00; 0x00; 0xff; 0xff; 0xff; 0xff; 0xff; 0xff];
  [0xff; 0xff; 0xff; 0xff; 0xff; 0xff; 0xff; 0xff; 0xff; 0xff; 0xff; 0xff];
  [0xff; 0xff; 0xff; 0xff; 0xff; 0xff; 0xff; 0xff; 0xff; 0xff; 0xff; 0xff];
  [0xff; 0xff; 0xff; 0xff; 0xff; 0xff; 0xff; 0xff; 0xff; 0xff; 0xff; 0xff];
  [0xff; 0xff; 0xff; 0xff; 0xff; 0xff; 0xff; 0xff; 0xff; 0xff; 0xff; 0xff];
  [0xff; 0xff; 0xff; 0xff; 0xff; 0xff; 0xff; 0xff; 0xff; 0xff; 0xff; 0xff];
  [0xff; 0xff; 0xff; 0xff; 0xff; 0xff; 0xff; 0xff; 0xff; 0xff; 0xff; 0xff];
  [0xff; 0xff; 0xff; 0xff; 0xff; 0xff; 0xff; 0xff; 0xff; 0xff; 0xff; 0xff];
  [0xff; 0xff; 0xff; 0xff; 0xff; 0xff; 0xff; 0xff; 0xff; 0xff; 0xff; 0xff];
  [0xff; 0xff; 0xff; 0xff; 0xff; 0xff; 0xff; 0xff; 0xff; 0xff; 0xff; 0xff];
  [0xff; 0xff; 0xff; 0xff; 0xff; 0xff; 0xff; 0xff; 0xff; 0xff; 0xff; 0xff];
  [0xff; 0xff; 0xff; 0xff; 0xff; 0xff; 0xff; 0xff; 0xff; 0xff; 0xff; 0xff];
  [0xff; 0xff; 0xff; 0xff; 0xff; 0xff; 0xff; 0xff; 0xff; 0xff; 0xff; 0xff];
  [0x00; 0x00; 0xff; 0xff; 0xff; 0xff; 0xff; 0xff; 0xff; 0xff; 0xff; 0xff];
  [0xff; 0xff; 0xff; 0xff; 0xff; 0xff; 0xff; 0xff; 0xff; 0xff; 0xff; 0xff];
  [0xff; 0xff; 0xff; 0xff; 0xff; 0xff; 0xff; 0xff; 0xff; 0xff; 0xff; 0xff];
  [0xff; 0xff; 0xff; 0xff; 0xff; 0xff; 0xff; 0xff; 0xff; 0xff; 0xff; 0xff];
  [0xff; 0xff; 0xff; 0xff; 0xff; 0xff; 0xff; 0xff; 0xff; 0xff; 0xff; 0xff];
  [0xff; 0xff; 0xff; 0xff; 0xff; 0xff; 0xff; 0xff; 0xff; 0xff; 0xff; 0xff];
  [0xff; 0xff; 0xff; 0xff; 0xff; 0xff; 0xff; 0xff; 0xff; 0xff; 0xff; 0xff];
  [0xff; 0xff; 0xff; 0xff; 0xff; 0xff; 0xff; 0xff; 0xff; 0xff; 0xff; 0xff];
  [0xff; 0xff; 0xff; 0xff; 0xff; 0xff; 0xff; 0xff; 0xff; 0xff; 0xff; 0xff];
  [0xff; 0xff; 0xff; 0xff; 0xff; 0xff; 0xff; 0xff; 0xff; 0xff; 0xff; 0xff];
  [0xff; 0xff; 0xff; 0xff; 0xff; 0xff; 0xff; 0xff; 0xff; 0xff; 0xff; 0xff];
  [0xff; 0xff; 0xff; 0xff; 0xff; 0xff; 0xff; 0xff; 0xff; 0xff; 0xff; 0xff];
  [0xff; 0xff; 0xff; 0xff; 0xff; 0xff; 0xff; 0xff; 0x00; 0x00; 0xff; 0xff];
  [0xff; 0xff; 0xff; 0xff; 0xff; 0xff; 0xff; 0xff; 0xff; 0xff; 0xff; 0xff];
  [0xff; 0xff; 0xff; 0xff; 0xff; 0xff; 0xff; 0xff; 0xff; 0xff; 0xff; 0xff];
  [0xff; 0xff; 0xff; 0xff; 0xff; 0xff; 0xff; 0xff; 0xff; 0xff; 0xff; 0xff];
  [0xff; 0xff; 0xff; 0xff; 0xff; 0xff; 0xff; 0xff; 0xff; 0xff; 0xff; 0xff];
  [0xff; 0xff; 0xff; 0xff; 0xff; 0xff; 0xff; 0xff; 0xff; 0xff; 0xff; 0xff];
  [0xff; 0xff; 0xff; 0xff; 0xff; 0xff; 0xff; 0xff; 0xff; 0xff; 0xff; 0xff];
  [0xff; 0xff; 0xff; 0xff; 0xff; 0xff; 0xff; 0xff; 0xff; 0xff; 0xff; 0xff];
  [0xff; 0xff; 0xff; 0xff; 0xff; 0xff; 0xff; 0xff; 0xff; 0xff; 0xff; 0xff];
  [0xff; 0xff; 0xff; 0xff; 0xff; 0xff; 0xff; 0xff; 0xff; 0xff; 0xff; 0xff];
  [0xff; 0xff; 0xff; 0xff; 0xff; 0xff; 0xff; 0xff; 0xff; 0xff; 0xff; 0xff];
  [0xff; 0xff; 0xff; 0xff; 0xff; 0xff; 0xff; 0xff; 0xff; 0xff; 0xff; 0xff];
  [0xff; 0xff; 0xff; 0xff; 0xff; 0xff; 0xff; 0xff; 0xff; 0xff; 0xff; 0xff];
  [0xff; 0xff; 0xff; 0xff; 0x00; 0x00; 0xff; 0xff; 0xff; 0xff; 0xff; 0xff];
  [0xff; 0xff; 0xff; 0xff; 0xff; 0xff; 0xff; 0xff; 0xff; 0x8a; 0x8a; 0x8a];
  [0xc2; 0xc2; 0xc2; 0xff; 0xff; 0xff; 0xff; 0xff; 0xff; 0x8c; 0x8b; 0x8b];
  [0xab; 0xaa; 0xaa; 0x8a; 0x8a; 0x8a; 0xff; 0xff; 0xff; 0xc2; 0xc2; 0xc2];
  [0x8a; 0x8a; 0x8a; 0xff; 0xff; 0xff; 0xff; 0xff; 0xff; 0xff; 0xff; 0xff];
  [0xd0; 0xd0; 0xd0; 0xd0; 0xd0; 0xd0; 0xff; 0xff; 0xff; 0xff; 0xff; 0xff];
  [0xff; 0xff; 0xff; 0xff; 0xff; 0xff; 0xff; 0xff; 0xff; 0xff; 0xff; 0xff];
  [0xff; 0xff; 0xff; 0xff; 0xff; 0xff; 0xff; 0xff; 0xff; 0xd0; 0xd0; 0xd0];
  [0xd0; 0xd0; 0xd0; 0xff; 0xff; 0xff; 0xff; 0xff; 0xff; 0xff; 0xff; 0xff];
  [0xff; 0xff; 0xff; 0xff; 0xff; 0xff; 0xd0; 0xd0; 0xd0; 0x66; 0x65; 0x65];
  [0xbd; 0xbc; 0xbc; 0x9e; 0x9d; 0x9d; 0xab; 0xaa; 0xaa; 0xff; 0xff; 0xff];
  [0xff; 0xff; 0xff; 0xff; 0xff; 0xff; 0xff; 0xff; 0xff; 0xff; 0xff; 0xff];
  [0xff; 0xff; 0xff; 0xff; 0xff; 0xff; 0xff; 0xff; 0xff; 0xff; 0xff; 0xff];
  [0x00; 0x00; 0xff; 0xff; 0xff; 0xff; 0xff; 0xff; 0xff; 0xff; 0xff; 0xff];
  [0xff; 0xff; 0x71; 0x70; 0x70; 0xa9; 0xa9; 0xa9; 0xd0; 0xd0; 0xd0; 0xff];
  [0xff; 0xff; 0xd0; 0xd0; 0xd0; 0x71; 0x70; 0x70; 0xee; 0xee; 0xee; 0xc2];
  [0xc2; 0xc2; 0x8c; 0x8b; 0x8b; 0xee; 0xee; 0xee; 0x8a; 0x8a; 0x8a; 0xd0];
  [0xd0; 0xd0; 0xff; 0xff; 0xff; 0xff; 0xff; 0xff; 0xee; 0xee; 0xee; 0xab];
  [0xaa; 0xaa; 0xff; 0xff; 0xff; 0xff; 0xff; 0xff; 0xff; 0xff; 0xff; 0xff];
  [0xff; 0xff; 0xff; 0xff; 0xff; 0xff; 0xff; 0xff; 0xff; 0xff; 0xff; 0xee];
  [0xee; 0xee; 0x9b; 0x9a; 0x9a; 0xb4; 0xb4; 0xb4; 0xb0; 0xaf; 0xaf; 0x7f];
  [0x7e; 0x7e; 0xc9; 0xc8; 0xc8; 0xff; 0xff; 0xff; 0xff; 0xff; 0xff; 0xee];
  [0xee; 0xee; 0x8d; 0x8d; 0x8d; 0xe8; 0xe7; 0xe7; 0xe8; 0xe7; 0xe7; 0xad];
  [0xac; 0xac; 0x9a; 0x99; 0x99; 0xbd; 0xbc; 0xbc; 0xff; 0xff; 0xff; 0xff];
  [0xff; 0xff; 0xff; 0xff; 0xff; 0xff; 0xff; 0xff; 0xff; 0xff; 0xff; 0xff];
  [0xff; 0xff; 0xff; 0xff; 0xff; 0xff; 0xff; 0xff; 0x00; 0x00; 0xff; 0xff];
  [0xff; 0xff; 0xff; 0xff; 0xff; 0xff; 0xff; 0xd0; 0xd0; 0xd0; 0xc2; 0xc2];
  [0xc2; 0xff; 0xff; 0xff; 0xab; 0xaa; 0xaa; 0x82; 0x82; 0x82; 0xab; 0xaa];
  [0xaa; 0xee; 0xee; 0xee; 0xff; 0xff; 0xff; 0xee; 0xee; 0xee; 0xab; 0xaa];
  [0xaa; 0xff; 0xff; 0xff; 0xff; 0xff; 0xff; 0xff; 0xff; 0xff; 0xff; 0xff];
  [0xff; 0xff; 0xff; 0xff; 0xff; 0xff; 0xff; 0x8c; 0x8b; 0x8b; 0xff; 0xff];
  [0xff; 0xff; 0xff; 0xff; 0xff; 0xff; 0xff; 0xff; 0xff; 0xff; 0xff; 0xff];
  [0xff; 0xff; 0xff; 0xff; 0xff; 0xff; 0xff; 0xad; 0xac; 0xac; 0xad; 0xac];
  [0xac; 0xe8; 0xe7; 0xe7; 0xef; 0xef; 0xef; 0xae; 0xae; 0xae; 0x8f; 0x8e];
  [0x8e; 0x9b; 0x9a; 0x9a; 0xff; 0xff; 0xff; 0xd9; 0xd8; 0xd8; 0x8d; 0x8d];
  [0x8d; 0xff; 0xff; 0xff; 0xff; 0xff; 0xff; 0xff; 0xff; 0xff; 0x8c; 0x8c];
  [0x8c; 0xbd; 0xbc; 0xbc; 0xff; 0xff; 0xff; 0xff; 0xff; 0xff; 0xff; 0xff];
  [0xff; 0xff; 0xff; 0xff; 0xff; 0xff; 0xff; 0xff; 0xff; 0xff; 0xff; 0xff];
  [0xff; 0xff; 0xff; 0xff; 0x00; 0x00; 0xff; 0xff; 0xff; 0xff; 0xff; 0xff];
  [0xff; 0xff; 0xff; 0xd0; 0xd0; 0xd0; 0x8a; 0x8a; 0x8a; 0xff; 0xff; 0xff];
  [0xff; 0xff; 0xff; 0x8c; 0x8b; 0x8b; 0xd0; 0xd0; 0xd0; 0xd0; 0xd0; 0xd0];
  [0xff; 0xff; 0xff; 0xff; 0xff; 0xff; 0xab; 0xaa; 0xaa; 0xee; 0xee; 0xee];
  [0xff; 0xff; 0xff; 0xff; 0xff; 0xff; 0xff; 0xff; 0xff; 0xff; 0xff; 0xff];
  [0xff; 0xff; 0xff; 0xab; 0xaa; 0xaa; 0xee; 0xee; 0xee; 0xff; 0xff; 0xff];
  [0xff; 0xff; 0xff; 0xff; 0xff; 0xff; 0xff; 0xff; 0xff; 0xff; 0xff; 0xff];
  [0xe8; 0xe7; 0xe7; 0xbd; 0xbc; 0xbc; 0x71; 0x70; 0x70; 0xff; 0xff; 0xff];
  [0xff; 0xff; 0xff; 0xff; 0xff; 0xff; 0xc9; 0xc8; 0xc8; 0xa2; 0xa2; 0xa2];
  [0xd8; 0xd7; 0xd7; 0xe8; 0xe7; 0xe7; 0xe8; 0xe7; 0xe7; 0xff; 0xff; 0xff];
  [0xff; 0xff; 0xff; 0xff; 0xff; 0xff; 0xbd; 0xbc; 0xbc; 0xbd; 0xbc; 0xbc];
  [0xff; 0xff; 0xff; 0xff; 0xff; 0xff; 0xff; 0xff; 0xff; 0xff; 0xff; 0xff];
  [0xff; 0xff; 0xff; 0xff; 0xff; 0xff; 0xff; 0xff; 0xff; 0xff; 0xff; 0xff];
  [0x00; 0x00; 0xff; 0xff; 0xff; 0xff; 0xff; 0xff; 0xff; 0xff; 0xff; 0xff];
  [0xff; 0xff; 0xff; 0xff; 0xff; 0xff; 0xff; 0xff; 0xff; 0xff; 0xff; 0xff];
  [0xff; 0xff; 0xd0; 0xd0; 0xd0; 0xd0; 0xd0; 0xd0; 0xff; 0xff; 0xff; 0xff];
  [0xff; 0xff; 0xd0; 0xd0; 0xd0; 0xd0; 0xd0; 0xd0; 0xff; 0xff; 0xff; 0xee];
  [0xee; 0xee; 0xab; 0xaa; 0xaa; 0xff; 0xff; 0xff; 0xff; 0xff; 0xff; 0xab];
  [0xaa; 0xaa; 0xee; 0xee; 0xee; 0xff; 0xff; 0xff; 0xff; 0xff; 0xff; 0xff];
  [0xff; 0xff; 0xff; 0xff; 0xff; 0xff; 0xff; 0xff; 0xf6; 0xf6; 0xf6; 0xa4];
  [0xa3; 0xa3; 0xd0; 0xd0; 0xd0; 0xff; 0xff; 0xff; 0xff; 0xff; 0xff; 0xff];
  [0xff; 0xff; 0xee; 0xee; 0xee; 0x9b; 0x9a; 0x9a; 0xe3; 0xe3; 0xe3; 0xff];
  [0xff; 0xff; 0xff; 0xff; 0xff; 0xff; 0xff; 0xff; 0xff; 0xff; 0xff; 0xff];
  [0xff; 0xff; 0xb0; 0xaf; 0xaf; 0x72; 0x72; 0x72; 0xff; 0xff; 0xff; 0xff];
  [0xff; 0xff; 0xff; 0xff; 0xff; 0xff; 0xff; 0xff; 0xff; 0xff; 0xff; 0xff];
  [0xff; 0xff; 0xff; 0xff; 0xff; 0xff; 0xff; 0xff; 0x00; 0x00; 0xff; 0xff];
  [0xff; 0xff; 0xff; 0xff; 0xff; 0xff; 0xff; 0xff; 0xff; 0xff; 0xff; 0xff];
  [0xff; 0xff; 0xff; 0xff; 0xff; 0xff; 0xff; 0xff; 0xff; 0xff; 0xa9; 0xa9];
  [0xa9; 0xa9; 0xa9; 0xa9; 0xff; 0xff; 0xff; 0xff; 0xff; 0xff; 0xd0; 0xd0];
  [0xd0; 0xd0; 0xd0; 0xd0; 0xff; 0xff; 0xff; 0xff; 0xff; 0xff; 0xab; 0xaa];
  [0xaa; 0x79; 0x78; 0x79; 0xff; 0xff; 0xff; 0x8c; 0x8b; 0x8b; 0xff; 0xff];
  [0xff; 0xff; 0xff; 0xff; 0xff; 0xff; 0xff; 0xff; 0xff; 0xff; 0xff; 0xff];
  [0xff; 0xff; 0xff; 0xff; 0xf6; 0xf6; 0xf6; 0x75; 0x73; 0x74; 0xd0; 0xd0];
  [0xd0; 0xff; 0xff; 0xff; 0xff; 0xff; 0xff; 0xff; 0xff; 0xff; 0xff; 0xff];
  [0xff; 0x8c; 0x8b; 0x8b; 0xd4; 0xd4; 0xd4; 0xff; 0xff; 0xff; 0xe8; 0xe7];
  [0xe7; 0xb4; 0xb4; 0xb4; 0x8f; 0x8e; 0x8e; 0x8d; 0x8d; 0x8d; 0x73; 0x73];
  [0x73; 0xee; 0xee; 0xee; 0xff; 0xff; 0xff; 0xff; 0xff; 0xff; 0xff; 0xff];
  [0xff; 0xff; 0xff; 0xff; 0xff; 0xff; 0xff; 0xff; 0xff; 0xff; 0xff; 0xff];
  [0xff; 0xff; 0xff; 0xff; 0x00; 0x00; 0xff; 0xff; 0xff; 0xff; 0xff; 0xff];
  [0xff; 0xff; 0xff; 0xff; 0xff; 0xff; 0xff; 0xff; 0xff; 0xff; 0xff; 0xff];
  [0xff; 0xff; 0xff; 0xff; 0xff; 0xff; 0xd0; 0xd0; 0xd0; 0xd0; 0xd0; 0xd0];
  [0xff; 0xff; 0xff; 0xee; 0xee; 0xee; 0xab; 0xaa; 0xaa; 0xff; 0xff; 0xff];
  [0xff; 0xff; 0xff; 0xff; 0xff; 0xff; 0xff; 0xff; 0xff; 0xab; 0xaa; 0xaa];
  [0xd0; 0xd0; 0xd0; 0x8c; 0x8b; 0x8b; 0xff; 0xff; 0xff; 0xff; 0xff; 0xff];
  [0xff; 0xff; 0xff; 0xff; 0xff; 0xff; 0xff; 0xff; 0xff; 0xff; 0xff; 0xff];
  [0xff; 0xff; 0xff; 0xd8; 0xd7; 0xd7; 0x87; 0x86; 0x86; 0xff; 0xff; 0xff];
  [0xff; 0xff; 0xff; 0xff; 0xff; 0xff; 0xff; 0xff; 0xff; 0x8d; 0x8d; 0x8d];
  [0xca; 0xc9; 0xc9; 0xff; 0xff; 0xff; 0xad; 0xac; 0xac; 0xbd; 0xbc; 0xbc];
  [0xc9; 0xc8; 0xc8; 0xee; 0xee; 0xee; 0xff; 0xff; 0xff; 0xff; 0xff; 0xff];
  [0xff; 0xff; 0xff; 0xff; 0xff; 0xff; 0xff; 0xff; 0xff; 0xff; 0xff; 0xff];
  [0xff; 0xff; 0xff; 0xff; 0xff; 0xff; 0xff; 0xff; 0xff; 0xff; 0xff; 0xff];
  [0x00; 0x00; 0xff; 0xff; 0xff; 0xff; 0xff; 0xff; 0xff; 0xff; 0xff; 0xff];
  [0xff; 0xff; 0xff; 0xff; 0xff; 0xff; 0xff; 0xff; 0xff; 0xff; 0xff; 0xff];
  [0xff; 0xff; 0xff; 0xff; 0xff; 0x8c; 0x8b; 0x8b; 0xda; 0xd9; 0xd9; 0xbe];
  [0xbe; 0xbe; 0x8c; 0x8b; 0x8b; 0xff; 0xff; 0xff; 0xff; 0xff; 0xff; 0xff];
  [0xff; 0xff; 0xff; 0xff; 0xff; 0xd0; 0xd0; 0xd0; 0x9e; 0x9d; 0x9d; 0xab];
  [0xaa; 0xaa; 0xff; 0xff; 0xff; 0xff; 0xff; 0xff; 0xff; 0xff; 0xff; 0xff];
  [0xff; 0xff; 0xff; 0xff; 0xff; 0xff; 0xff; 0xff; 0xff; 0xff; 0xff; 0xd7];
  [0xd7; 0xd7; 0x8f; 0x8f; 0x8f; 0x69; 0x68; 0x68; 0xee; 0xee; 0xee; 0xd0];
  [0xd0; 0xd0; 0x90; 0x8f; 0x8f; 0x8d; 0x8d; 0x8d; 0xee; 0xee; 0xee; 0xff];
  [0xff; 0xff; 0xb0; 0xaf; 0xaf; 0xc9; 0xc8; 0xc8; 0xff; 0xff; 0xff; 0xff];
  [0xff; 0xff; 0xff; 0xff; 0xff; 0xff; 0xff; 0xff; 0xff; 0xff; 0xff; 0xff];
  [0xff; 0xff; 0xff; 0xff; 0xff; 0xff; 0xff; 0xff; 0xff; 0xff; 0xff; 0xff];
  [0xff; 0xff; 0xff; 0xff; 0xff; 0xff; 0xff; 0xff; 0x00; 0x00; 0xff; 0xff];
  [0xff; 0xff; 0xff; 0xff; 0xff; 0xff; 0xff; 0xff; 0xff; 0xff; 0xff; 0xff];
  [0xff; 0xff; 0xff; 0xff; 0xff; 0xff; 0xff; 0xff; 0xff; 0xff; 0xff; 0xff];
  [0xff; 0xff; 0xff; 0xff; 0x9c; 0x9b; 0x9b; 0x9a; 0x9a; 0x9a; 0xd0; 0xd0];
  [0xd0; 0xff; 0xff; 0xff; 0xff; 0xff; 0xff; 0xff; 0xff; 0xff; 0xff; 0xff];
  [0xff; 0xff; 0xff; 0xff; 0xab; 0xaa; 0xaa; 0x82; 0x82; 0x82; 0xff; 0xff];
  [0xff; 0xff; 0xff; 0xff; 0xff; 0xff; 0xff; 0xff; 0xff; 0xff; 0xff; 0xff];
  [0xff; 0xff; 0xff; 0xff; 0xff; 0xff; 0xff; 0xf6; 0xf6; 0xf6; 0xca; 0xc9];
  [0xc9; 0x72; 0x72; 0x72; 0x3e; 0x3c; 0x3c; 0x71; 0x71; 0x71; 0xa2; 0xa2];
  [0xa2; 0xf6; 0xf6; 0xf6; 0xff; 0xff; 0xff; 0xff; 0xff; 0xff; 0xd8; 0xd7];
  [0xd7; 0xac; 0xab; 0xab; 0x84; 0x83; 0x83; 0x78; 0x78; 0x78; 0xad; 0xac];
  [0xac; 0xff; 0xff; 0xff; 0xff; 0xff; 0xff; 0xff; 0xff; 0xff; 0xff; 0xff];
  [0xff; 0xff; 0xff; 0xff; 0xff; 0xff; 0xff; 0xff; 0xff; 0xff; 0xff; 0xff];
  [0xff; 0xff; 0xff; 0xff; 0x00; 0x00; 0xff; 0xff; 0xff; 0xff; 0xff; 0xff];
  [0xff; 0xff; 0xff; 0xff; 0xff; 0xff; 0xff; 0xff; 0xff; 0xff; 0xff; 0xff];
  [0xff; 0xff; 0xff; 0xff; 0xff; 0xff; 0xff; 0xff; 0xff; 0xff; 0xff; 0xff];
  [0xff; 0xff; 0xff; 0xff; 0xff; 0xff; 0xff; 0xff; 0xff; 0xff; 0xff; 0xff];
  [0xff; 0xff; 0xff; 0xff; 0xff; 0xff; 0xff; 0xff; 0xff; 0xff; 0xff; 0xff];
  [0xff; 0xff; 0xff; 0xff; 0xff; 0xff; 0xff; 0xff; 0xff; 0xff; 0xff; 0xff];
  [0xff; 0xff; 0xff; 0xff; 0xff; 0xff; 0xff; 0xff; 0xff; 0xff; 0xff; 0xff];
  [0xff; 0xff; 0xff; 0xff; 0xff; 0xff; 0xff; 0xff; 0xff; 0xff; 0xff; 0xff];
  [0xf6; 0xf6; 0xf6; 0xf7; 0xf7; 0xf7; 0xfe; 0xfe; 0xfe; 0xff; 0xff; 0xff];
  [0xff; 0xff; 0xff; 0xff; 0xff; 0xff; 0xf6; 0xf6; 0xf6; 0xac; 0xab; 0xab];
  [0x84; 0x83; 0x83; 0x7d; 0x7d; 0x7d; 0xa5; 0xa5; 0xa5; 0xff; 0xff; 0xff];
  [0xff; 0xff; 0xff; 0xff; 0xff; 0xff; 0xff; 0xff; 0xff; 0xff; 0xff; 0xff];
  [0xff; 0xff; 0xff; 0xff; 0xff; 0xff; 0xff; 0xff; 0xff; 0xff; 0xff; 0xff];
  [0x00; 0x00; 0xff; 0xff; 0xff; 0xff; 0xff; 0xff; 0xff; 0xff; 0xff; 0xff];
  [0xff; 0xff; 0xff; 0xff; 0xff; 0xff; 0xff; 0xff; 0xff; 0xff; 0xff; 0xff];
  [0xff; 0xff; 0xff; 0xff; 0xff; 0xff; 0xff; 0xff; 0xff; 0xff; 0xff; 0xff];
  [0xff; 0xff; 0xf4; 0xf4; 0xf4; 0xff; 0xff; 0xff; 0xff; 0xff; 0xff; 0xff];
  [0xff; 0xff; 0xff; 0xff; 0xff; 0xff; 0xff; 0xff; 0xff; 0xff; 0xff; 0xff];
  [0xff; 0xff; 0xff; 0xff; 0xff; 0xff; 0xff; 0xff; 0xff; 0xff; 0xff; 0xff];
  [0xff; 0xff; 0xff; 0xff; 0xff; 0xff; 0xff; 0xff; 0xff; 0xff; 0xff; 0xff];
  [0xff; 0xff; 0xff; 0xff; 0xff; 0xff; 0xff; 0xff; 0xff; 0xff; 0xff; 0xe3];
  [0xe3; 0xe3; 0xd8; 0xd7; 0xd7; 0xe8; 0xe7; 0xe7; 0xe8; 0xe7; 0xe7; 0xff];
  [0xff; 0xff; 0xff; 0xff; 0xff; 0xff; 0xff; 0xff; 0xff; 0xff; 0xff; 0xff];
  [0xff; 0xff; 0xff; 0xff; 0xff; 0xff; 0xff; 0xff; 0xff; 0xff; 0xff; 0xff];
  [0xff; 0xff; 0xff; 0xff; 0xff; 0xff; 0xff; 0xff; 0xff; 0xff; 0xff; 0xff];
  [0xff; 0xff; 0xff; 0xff; 0xff; 0xff; 0xff; 0xff; 0x00; 0x00; 0xff; 0xff];
  [0xff; 0xff; 0xff; 0xff; 0xff; 0xff; 0xff; 0xff; 0xff; 0xff; 0xff; 0xff];
  [0xff; 0xff; 0xff; 0xff; 0xff; 0xff; 0xff; 0xff; 0xff; 0xff; 0xff; 0xff];
  [0xff; 0xff; 0xff; 0xff; 0xff; 0xff; 0xff; 0xf6; 0xf6; 0xf6; 0xce; 0xce];
  [0xce; 0xde; 0xdd; 0xdd; 0xff; 0xff; 0xff; 0xff; 0xff; 0xff; 0xff; 0xff];
  [0xff; 0xff; 0xff; 0xff; 0xff; 0xff; 0xff; 0xff; 0xff; 0xff; 0xff; 0xff];
  [0xff; 0xff; 0xff; 0xff; 0xff; 0xff; 0xff; 0xff; 0xff; 0xff; 0xff; 0xff];
  [0xff; 0xff; 0xff; 0xff; 0xff; 0xff; 0xff; 0xff; 0xff; 0xff; 0xff; 0xff];
  [0xff; 0xff; 0xff; 0xff; 0xff; 0xff; 0xff; 0xd6; 0xd6; 0xd6; 0xd4; 0xd4];
  [0xd4; 0xd8; 0xd8; 0xd8; 0xdd; 0xdd; 0xdd; 0xff; 0xff; 0xff; 0xff; 0xff];
  [0xff; 0xff; 0xff; 0xff; 0xff; 0xff; 0xff; 0xff; 0xff; 0xff; 0xff; 0xff];
  [0xff; 0xff; 0xff; 0xff; 0xff; 0xff; 0xff; 0xff; 0xff; 0xff; 0xff; 0xff];
  [0xff; 0xff; 0xff; 0xff; 0xff; 0xff; 0xff; 0xff; 0xff; 0xff; 0xff; 0xff];
  [0xff; 0xff; 0xff; 0xff; 0x00; 0x00; 0xff; 0xff; 0xff; 0xff; 0xff; 0xff];
  [0xff; 0xff; 0xff; 0xff; 0xff; 0xff; 0xff; 0xff; 0xff; 0xff; 0xff; 0xff];
  [0xff; 0xff; 0xff; 0xff; 0xff; 0xff; 0xff; 0xff; 0xff; 0xff; 0xff; 0xff];
  [0xff; 0xff; 0xff; 0xd6; 0xd6; 0xd6; 0x87; 0x87; 0x87; 0xa3; 0xa2; 0xa2];
  [0xff; 0xff; 0xff; 0xff; 0xff; 0xff; 0xff; 0xff; 0xff; 0xff; 0xff; 0xff];
  [0xff; 0xff; 0xff; 0xff; 0xff; 0xff; 0xff; 0xff; 0xff; 0xff; 0xff; 0xff];
  [0xff; 0xff; 0xff; 0xff; 0xff; 0xff; 0xff; 0xff; 0xff; 0xff; 0xff; 0xff];
  [0xff; 0xff; 0xff; 0xff; 0xff; 0xff; 0xff; 0xff; 0xff; 0xff; 0xff; 0xff];
  [0xff; 0xff; 0xff; 0xd4; 0xd4; 0xd4; 0xad; 0xac; 0xac; 0x92; 0x92; 0x92];
  [0xd8; 0xd8; 0xd8; 0xff; 0xff; 0xff; 0xff; 0xff; 0xff; 0xff; 0xff; 0xff];
  [0xff; 0xff; 0xff; 0xff; 0xff; 0xff; 0xff; 0xff; 0xff; 0xff; 0xff; 0xff];
  [0xff; 0xff; 0xff; 0xff; 0xff; 0xff; 0xff; 0xff; 0xff; 0xff; 0xff; 0xff];
  [0xff; 0xff; 0xff; 0xff; 0xff; 0xff; 0xff; 0xff; 0xff; 0xff; 0xff; 0xff];
  [0x00; 0x00; 0xff; 0xff; 0xff; 0xff; 0xff; 0xff; 0xff; 0xff; 0xff; 0xff];
  [0xff; 0xff; 0xff; 0xff; 0xff; 0xff; 0xff; 0xff; 0xff; 0xff; 0xff; 0xff];
  [0xff; 0xff; 0xff; 0xff; 0xff; 0xff; 0xff; 0xff; 0xff; 0xff; 0xff; 0xe3];
  [0xe3; 0xe3; 0xac; 0xac; 0xac; 0x66; 0x65; 0x65; 0x9e; 0x9e; 0x9e; 0xf6];
  [0xf6; 0xf6; 0xff; 0xff; 0xff; 0xff; 0xff; 0xff; 0xff; 0xff; 0xff; 0xff];
  [0xff; 0xff; 0xff; 0xff; 0xff; 0xff; 0xff; 0xff; 0xff; 0xff; 0xff; 0xff];
  [0xff; 0xff; 0xff; 0xff; 0xff; 0xff; 0xff; 0xff; 0xff; 0xff; 0xff; 0xff];
  [0xff; 0xff; 0xff; 0xff; 0xff; 0xff; 0xff; 0xff; 0xe8; 0xe7; 0xe7; 0xd4];
  [0xd4; 0xd4; 0x73; 0x73; 0x73; 0xb0; 0xaf; 0xaf; 0xf6; 0xf6; 0xf6; 0xff];
  [0xff; 0xff; 0xff; 0xff; 0xff; 0xff; 0xff; 0xff; 0xff; 0xff; 0xff; 0xff];
  [0xff; 0xff; 0xff; 0xff; 0xff; 0xff; 0xff; 0xff; 0xff; 0xff; 0xff; 0xff];
  [0xff; 0xff; 0xff; 0xff; 0xff; 0xff; 0xff; 0xff; 0xff; 0xff; 0xff; 0xff];
  [0xff; 0xff; 0xff; 0xff; 0xff; 0xff; 0xff; 0xff; 0x00; 0x00; 0xff; 0xff];
  [0xff; 0xff; 0xff; 0xff; 0xff; 0xff; 0xff; 0xff; 0xff; 0xff; 0xff; 0xff];
  [0xff; 0xff; 0xff; 0xff; 0xff; 0xff; 0xff; 0xff; 0xff; 0xff; 0xff; 0xff];
  [0xff; 0xff; 0xff; 0xff; 0xff; 0xff; 0xff; 0xff; 0xff; 0xff; 0xd4; 0xd4];
  [0xd4; 0xad; 0xac; 0xac; 0xa6; 0xa6; 0xa6; 0x8e; 0x8d; 0x8d; 0xff; 0xff];
  [0xff; 0xff; 0xff; 0xff; 0xff; 0xff; 0xff; 0xff; 0xff; 0xff; 0xff; 0xff];
  [0xff; 0xff; 0xff; 0xff; 0xff; 0xff; 0xff; 0xff; 0xff; 0xff; 0xff; 0xff];
  [0xff; 0xff; 0xff; 0xff; 0xff; 0xff; 0xff; 0xff; 0xff; 0xff; 0xff; 0xff];
  [0xff; 0xff; 0xff; 0xff; 0xd5; 0xd5; 0xd5; 0xd4; 0xd4; 0xd4; 0x74; 0x73];
  [0x73; 0xdd; 0xdd; 0xdd; 0xff; 0xff; 0xff; 0xff; 0xff; 0xff; 0xff; 0xff];
  [0xff; 0xff; 0xff; 0xff; 0xff; 0xff; 0xff; 0xff; 0xff; 0xff; 0xff; 0xff];
  [0xff; 0xff; 0xff; 0xff; 0xff; 0xff; 0xff; 0xff; 0xff; 0xff; 0xff; 0xff];
  [0xff; 0xff; 0xff; 0xff; 0xff; 0xff; 0xff; 0xff; 0xff; 0xff; 0xff; 0xff];
  [0xff; 0xff; 0xff; 0xff; 0x00; 0x00; 0xff; 0xff; 0xff; 0xff; 0xff; 0xff];
  [0xff; 0xff; 0xff; 0xff; 0xff; 0xff; 0xff; 0xff; 0xff; 0xff; 0xff; 0xff];
  [0xff; 0xff; 0xff; 0xff; 0xff; 0xff; 0xff; 0xff; 0xff; 0xff; 0xff; 0xff];
  [0xff; 0xff; 0xff; 0xff; 0xff; 0xff; 0xff; 0xff; 0xff; 0xd5; 0xd4; 0xd4];
  [0xbc; 0xbb; 0xbb; 0x76; 0x76; 0x76; 0x8e; 0x8e; 0x8e; 0xff; 0xff; 0xff];
  [0xff; 0xff; 0xff; 0xff; 0xff; 0xff; 0xff; 0xff; 0xff; 0xff; 0xff; 0xff];
  [0xff; 0xff; 0xff; 0xff; 0xff; 0xff; 0xff; 0xff; 0xff; 0xff; 0xff; 0xff];
  [0xff; 0xff; 0xff; 0xff; 0xff; 0xff; 0xff; 0xff; 0xff; 0xf6; 0xf6; 0xf6];
  [0xc6; 0xc6; 0xc6; 0x6a; 0x6a; 0x6a; 0xae; 0xae; 0xae; 0xe3; 0xe3; 0xe3];
  [0xff; 0xff; 0xff; 0xff; 0xff; 0xff; 0xff; 0xff; 0xff; 0xff; 0xff; 0xff];
  [0xff; 0xff; 0xff; 0xff; 0xff; 0xff; 0xff; 0xff; 0xff; 0xff; 0xff; 0xff];
  [0xff; 0xff; 0xff; 0xff; 0xff; 0xff; 0xff; 0xff; 0xff; 0xff; 0xff; 0xff];
  [0xff; 0xff; 0xff; 0xff; 0xff; 0xff; 0xff; 0xff; 0xff; 0xff; 0xff; 0xff];
  [0x00; 0x00; 0xff; 0xff; 0xff; 0xff; 0xff; 0xff; 0xff; 0xff; 0xff; 0xff];
  [0xff; 0xff; 0xff; 0xff; 0xff; 0xff; 0xff; 0xff; 0xff; 0xff; 0xff; 0xff];
  [0xff; 0xff; 0xff; 0xff; 0xff; 0xff; 0xff; 0xff; 0xff; 0xff; 0xff; 0xff];
  [0xff; 0xff; 0xff; 0xff; 0xff; 0xff; 0xff; 0xff; 0xd4; 0xd4; 0xd4; 0xb4];
  [0xb4; 0xb4; 0x7b; 0x7a; 0x7a; 0xae; 0xae; 0xae; 0xff; 0xff; 0xff; 0xe8];
  [0xe7; 0xe7; 0xf6; 0xf6; 0xf6; 0xff; 0xff; 0xff; 0xff; 0xff; 0xff; 0xff];
  [0xff; 0xff; 0xff; 0xff; 0xff; 0xff; 0xff; 0xff; 0xff; 0xff; 0xff; 0xff];
  [0xff; 0xff; 0xff; 0xff; 0xff; 0xd8; 0xd7; 0xd7; 0x8d; 0x8d; 0x8d; 0x84];
  [0x84; 0x84; 0xe8; 0xe7; 0xe7; 0xe8; 0xe7; 0xe7; 0xff; 0xff; 0xff; 0xff];
  [0xff; 0xff; 0xff; 0xff; 0xff; 0xff; 0xff; 0xff; 0xff; 0xff; 0xff; 0xff];
  [0xff; 0xff; 0xff; 0xff; 0xff; 0xff; 0xff; 0xff; 0xff; 0xff; 0xff; 0xff];
  [0xff; 0xff; 0xff; 0xff; 0xff; 0xff; 0xff; 0xff; 0xff; 0xff; 0xff; 0xff];
  [0xff; 0xff; 0xff; 0xff; 0xff; 0xff; 0xff; 0xff; 0x00; 0x00; 0xff; 0xff];
  [0xff; 0xff; 0xff; 0xff; 0xff; 0xff; 0xff; 0xff; 0xff; 0xff; 0xff; 0xff];
  [0xff; 0xff; 0xff; 0xff; 0xff; 0xff; 0xff; 0xff; 0xff; 0xff; 0xff; 0xff];
  [0xff; 0xff; 0xff; 0xff; 0xff; 0xff; 0xff; 0xff; 0xff; 0xff; 0xff; 0xff];
  [0xff; 0xff; 0xff; 0xff; 0xf6; 0xf6; 0xf6; 0xcb; 0xcb; 0xcb; 0xa3; 0xa2];
  [0xa3; 0x8c; 0x8c; 0x8c; 0xdd; 0xdd; 0xdd; 0xd5; 0xd5; 0xd5; 0xd4; 0xd4];
  [0xd4; 0xd4; 0xd4; 0xd4; 0xd4; 0xd4; 0xd4; 0xd4; 0xd4; 0xd4; 0xd4; 0xd4];
  [0xd4; 0xd7; 0xd6; 0xd6; 0xd7; 0xd6; 0xd6; 0xd6; 0xd6; 0xd6; 0xd3; 0xd3];
  [0xd3; 0xb7; 0xb6; 0xb6; 0x80; 0x7f; 0x7f; 0xc6; 0xc6; 0xc6; 0xdd; 0xdd];
  [0xdd; 0xff; 0xff; 0xff; 0xff; 0xff; 0xff; 0xff; 0xff; 0xff; 0xff; 0xff];
  [0xff; 0xff; 0xff; 0xff; 0xff; 0xff; 0xff; 0xff; 0xff; 0xff; 0xff; 0xff];
  [0xff; 0xff; 0xff; 0xff; 0xff; 0xff; 0xff; 0xff; 0xff; 0xff; 0xff; 0xff];
  [0xff; 0xff; 0xff; 0xff; 0xff; 0xff; 0xff; 0xff; 0xff; 0xff; 0xff; 0xff];
  [0xff; 0xff; 0xff; 0xff; 0x00; 0x00; 0xff; 0xff; 0xff; 0xff; 0xff; 0xff];
  [0xff; 0xff; 0xff; 0xff; 0xff; 0xff; 0xff; 0xff; 0xff; 0xff; 0xff; 0xff];
  [0xff; 0xff; 0xff; 0xff; 0xff; 0xff; 0xff; 0xff; 0xff; 0xff; 0xff; 0xff];
  [0xff; 0xff; 0xff; 0xff; 0xff; 0xff; 0xff; 0xff; 0xff; 0xff; 0xff; 0xff];
  [0xff; 0xff; 0xff; 0xd5; 0xd5; 0xd5; 0xb3; 0xb3; 0xb3; 0x97; 0x97; 0x97];
  [0x5e; 0x5d; 0x5e; 0xc2; 0xc2; 0xc2; 0xc2; 0xc2; 0xc2; 0x8d; 0x8d; 0x8d];
  [0x8d; 0x8d; 0x8d; 0x8d; 0x8d; 0x8d; 0x8d; 0x8d; 0x8d; 0x73; 0x73; 0x73];
  [0x73; 0x73; 0x73; 0x73; 0x73; 0x73; 0x66; 0x66; 0x66; 0x31; 0x2f; 0x30];
  [0x8b; 0x8a; 0x8a; 0xd7; 0xd7; 0xd7; 0xff; 0xff; 0xff; 0xff; 0xff; 0xff];
  [0xff; 0xff; 0xff; 0xff; 0xff; 0xff; 0xff; 0xff; 0xff; 0xff; 0xff; 0xff];
  [0xff; 0xff; 0xff; 0xff; 0xff; 0xff; 0xff; 0xff; 0xff; 0xff; 0xff; 0xff];
  [0xff; 0xff; 0xff; 0xff; 0xff; 0xff; 0xff; 0xff; 0xff; 0xff; 0xff; 0xff];
  [0xff; 0xff; 0xff; 0xff; 0xff; 0xff; 0xff; 0xff; 0xff; 0xff; 0xff; 0xff];
  [0x00; 0x00; 0xff; 0xff; 0xff; 0xff; 0xff; 0xff; 0xff; 0xff; 0xff; 0xff];
  [0xff; 0xff; 0xff; 0xff; 0xff; 0xff; 0xff; 0xff; 0xff; 0xff; 0xff; 0xff];
  [0xff; 0xff; 0xff; 0xff; 0xff; 0xff; 0xff; 0xff; 0xff; 0xff; 0xff; 0xff];
  [0xff; 0xff; 0xff; 0xff; 0xff; 0xff; 0xff; 0xff; 0xff; 0xff; 0xff; 0xff];
  [0xff; 0xff; 0xb8; 0xb8; 0xb8; 0xa3; 0xa3; 0xa3; 0x63; 0x62; 0x62; 0x8d];
  [0x8d; 0x8d; 0xc5; 0xc5; 0xc5; 0xce; 0xce; 0xce; 0xcc; 0xcc; 0xcc; 0xca];
  [0xc9; 0xca; 0xc8; 0xc8; 0xc8; 0xd8; 0xd8; 0xd8; 0xd7; 0xd7; 0xd7; 0xd6];
  [0xd6; 0xd6; 0xa7; 0xa7; 0xa7; 0x81; 0x81; 0x81; 0xd4; 0xd4; 0xd4; 0xe8];
  [0xe7; 0xe7; 0xff; 0xff; 0xff; 0xff; 0xff; 0xff; 0xff; 0xff; 0xff; 0xff];
  [0xff; 0xff; 0xff; 0xff; 0xff; 0xff; 0xff; 0xff; 0xff; 0xff; 0xff; 0xff];
  [0xff; 0xff; 0xff; 0xff; 0xff; 0xff; 0xff; 0xff; 0xff; 0xff; 0xff; 0xff];
  [0xff; 0xff; 0xff; 0xff; 0xff; 0xff; 0xff; 0xff; 0xff; 0xff; 0xff; 0xff];
  [0xff; 0xff; 0xff; 0xff; 0xff; 0xff; 0xff; 0xff; 0x00; 0x00; 0xff; 0xff];
  [0xff; 0xff; 0xff; 0xff; 0xff; 0xff; 0xff; 0xff; 0xff; 0xff; 0xff; 0xff];
  [0xff; 0xff; 0xff; 0xff; 0xff; 0xff; 0xff; 0xff; 0xff; 0xff; 0xff; 0xff];
  [0xff; 0xff; 0xff; 0xff; 0xff; 0xff; 0xff; 0xff; 0xff; 0xff; 0xff; 0xff];
  [0xff; 0xff; 0xff; 0xff; 0xff; 0xff; 0xff; 0xff; 0xff; 0xff; 0xff; 0xff];
  [0xff; 0xbd; 0xbd; 0xbd; 0xda; 0xd9; 0xd9; 0x5e; 0x5d; 0x5d; 0xdd; 0xdd];
  [0xdd; 0xff; 0xff; 0xff; 0xff; 0xff; 0xff; 0xff; 0xff; 0xff; 0xff; 0xff];
  [0xff; 0xff; 0xff; 0xff; 0xff; 0xff; 0xff; 0xff; 0xff; 0xff; 0xaf; 0xaf];
  [0xaf; 0x72; 0x72; 0x72; 0xd4; 0xd4; 0xd4; 0xff; 0xff; 0xff; 0xff; 0xff];
  [0xff; 0xff; 0xff; 0xff; 0xff; 0xff; 0xff; 0xff; 0xff; 0xff; 0xff; 0xff];
  [0xff; 0xff; 0xff; 0xff; 0xff; 0xff; 0xff; 0xff; 0xff; 0xff; 0xff; 0xff];
  [0xff; 0xff; 0xff; 0xff; 0xff; 0xff; 0xff; 0xff; 0xff; 0xff; 0xff; 0xff];
  [0xff; 0xff; 0xff; 0xff; 0xff; 0xff; 0xff; 0xff; 0xff; 0xff; 0xff; 0xff];
  [0xff; 0xff; 0xff; 0xff; 0x00; 0x00; 0xff; 0xff; 0xff; 0xff; 0xff; 0xff];
  [0xff; 0xff; 0xff; 0xff; 0xff; 0xff; 0xff; 0xff; 0xff; 0xff; 0xff; 0xff];
  [0xff; 0xff; 0xff; 0xff; 0xff; 0xff; 0xff; 0xff; 0xff; 0xff; 0xff; 0xff];
  [0xff; 0xff; 0xff; 0xff; 0xff; 0xff; 0xff; 0xff; 0xff; 0xff; 0xff; 0xff];
  [0xff; 0xff; 0xff; 0xff; 0xff; 0xff; 0xff; 0xff; 0xff; 0xdd; 0xdc; 0xdc];
  [0xc5; 0xc5; 0xc5; 0x91; 0x90; 0x90; 0xc6; 0xc6; 0xc6; 0xff; 0xff; 0xff];
  [0xff; 0xff; 0xff; 0xff; 0xff; 0xff; 0xff; 0xff; 0xff; 0xff; 0xff; 0xff];
  [0xff; 0xff; 0xff; 0xd4; 0xd4; 0xd4; 0x8d; 0x8d; 0x8d; 0xc6; 0xc6; 0xc6];
  [0xe0; 0xe0; 0xe0; 0xff; 0xff; 0xff; 0xff; 0xff; 0xff; 0xff; 0xff; 0xff];
  [0xff; 0xff; 0xff; 0xff; 0xff; 0xff; 0xff; 0xff; 0xff; 0xff; 0xff; 0xff];
  [0xff; 0xff; 0xff; 0xff; 0xff; 0xff; 0xff; 0xff; 0xff; 0xff; 0xff; 0xff];
  [0xff; 0xff; 0xff; 0xff; 0xff; 0xff; 0xff; 0xff; 0xff; 0xff; 0xff; 0xff];
  [0xff; 0xff; 0xff; 0xff; 0xff; 0xff; 0xff; 0xff; 0xff; 0xff; 0xff; 0xff];
  [0x00; 0x00; 0xff; 0xff; 0xff; 0xff; 0xff; 0xff; 0xff; 0xff; 0xff; 0xff];
  [0xff; 0xff; 0xff; 0xff; 0xff; 0xff; 0xff; 0xff; 0xff; 0xff; 0xff; 0xff];
  [0xff; 0xff; 0xff; 0xff; 0xff; 0xff; 0xff; 0xff; 0xff; 0xff; 0xff; 0xff];
  [0xff; 0xff; 0xff; 0xff; 0xff; 0xff; 0xff; 0xff; 0xff; 0xff; 0xff; 0xff];
  [0xff; 0xff; 0xff; 0xff; 0xff; 0xff; 0xff; 0xff; 0xc2; 0xc1; 0xc1; 0xa2];
  [0xa1; 0xa1; 0x73; 0x72; 0x72; 0xd5; 0xd4; 0xd4; 0xff; 0xff; 0xff; 0xff];
  [0xff; 0xff; 0xff; 0xff; 0xff; 0xff; 0xff; 0xff; 0xff; 0xff; 0xff; 0xaf];
  [0xaf; 0xaf; 0x8c; 0x8c; 0x8c; 0xd4; 0xd4; 0xd4; 0xe3; 0xe3; 0xe3; 0xff];
  [0xff; 0xff; 0xff; 0xff; 0xff; 0xff; 0xff; 0xff; 0xff; 0xff; 0xff; 0xff];
  [0xff; 0xff; 0xff; 0xff; 0xff; 0xff; 0xff; 0xff; 0xff; 0xff; 0xff; 0xff];
  [0xff; 0xff; 0xff; 0xff; 0xff; 0xff; 0xff; 0xff; 0xff; 0xff; 0xff; 0xff];
  [0xff; 0xff; 0xff; 0xff; 0xff; 0xff; 0xff; 0xff; 0xff; 0xff; 0xff; 0xff];
  [0xff; 0xff; 0xff; 0xff; 0xff; 0xff; 0xff; 0xff; 0x00; 0x00; 0xff; 0xff];
  [0xff; 0xff; 0xff; 0xff; 0xff; 0xff; 0xff; 0xff; 0xff; 0xff; 0xff; 0xff];
  [0xff; 0xff; 0xff; 0xff; 0xff; 0xff; 0xff; 0xff; 0xff; 0xff; 0xff; 0xff];
  [0xff; 0xff; 0xff; 0xff; 0xff; 0xff; 0xff; 0xff; 0xff; 0xff; 0xff; 0xff];
  [0xff; 0xff; 0xff; 0xff; 0xff; 0xff; 0xff; 0xff; 0xff; 0xff; 0xff; 0xff];
  [0xff; 0xff; 0xff; 0xff; 0xec; 0xec; 0xec; 0xbd; 0xbd; 0xbd; 0x74; 0x73];
  [0x73; 0x8d; 0x8d; 0x8d; 0xd6; 0xd6; 0xd6; 0xff; 0xff; 0xff; 0xff; 0xff];
  [0xff; 0xff; 0xff; 0xff; 0xff; 0xff; 0xff; 0x8d; 0x8d; 0x8d; 0xa1; 0xa1];
  [0xa1; 0xd5; 0xd4; 0xd4; 0xff; 0xff; 0xff; 0xff; 0xff; 0xff; 0xff; 0xff];
  [0xff; 0xff; 0xff; 0xff; 0xff; 0xff; 0xff; 0xff; 0xff; 0xff; 0xff; 0xff];
  [0xff; 0xff; 0xff; 0xff; 0xff; 0xff; 0xff; 0xff; 0xff; 0xff; 0xff; 0xff];
  [0xff; 0xff; 0xff; 0xff; 0xff; 0xff; 0xff; 0xff; 0xff; 0xff; 0xff; 0xff];
  [0xff; 0xff; 0xff; 0xff; 0xff; 0xff; 0xff; 0xff; 0xff; 0xff; 0xff; 0xff];
  [0xff; 0xff; 0xff; 0xff; 0x00; 0x00; 0xff; 0xff; 0xff; 0xff; 0xff; 0xff];
  [0xff; 0xff; 0xff; 0xff; 0xff; 0xff; 0xff; 0xff; 0xff; 0xff; 0xff; 0xff];
  [0xff; 0xff; 0xff; 0xff; 0xff; 0xff; 0xff; 0xff; 0xff; 0xff; 0xff; 0xff];
  [0xff; 0xff; 0xff; 0xff; 0xff; 0xff; 0xff; 0xff; 0xff; 0xff; 0xff; 0xff];
  [0xff; 0xff; 0xff; 0xff; 0xff; 0xff; 0xff; 0xff; 0xff; 0xff; 0xff; 0xff];
  [0xff; 0xff; 0xff; 0xe8; 0xe8; 0xe8; 0xc5; 0xc5; 0xc5; 0x85; 0x85; 0x85];
  [0xc8; 0xc8; 0xc8; 0xf6; 0xf6; 0xf6; 0xff; 0xff; 0xff; 0xff; 0xff; 0xff];
  [0xd4; 0xd4; 0xd4; 0x8d; 0x8d; 0x8d; 0xd4; 0xd4; 0xd4; 0xd6; 0xd6; 0xd6];
  [0xff; 0xff; 0xff; 0xff; 0xff; 0xff; 0x84; 0x82; 0x1a; 0x84; 0x82; 0x1a];
  [0x84; 0x82; 0x1a; 0x84; 0x82; 0x1a; 0x84; 0x82; 0x1a; 0x84; 0x82; 0x1a];
  [0xff; 0xff; 0xff; 0xff; 0xff; 0xff; 0xff; 0xff; 0xff; 0xff; 0xff; 0xff];
  [0xff; 0xff; 0xff; 0xff; 0xff; 0xff; 0xff; 0xff; 0xff; 0xff; 0xff; 0xff];
  [0xff; 0xff; 0xff; 0xff; 0xff; 0xff; 0xff; 0xff; 0xff; 0xff; 0xff; 0xff];
  [0x00; 0x00; 0xff; 0xff; 0xff; 0xff; 0xff; 0xff; 0xff; 0xff; 0xff; 0xff];
  [0xff; 0xff; 0xff; 0xff; 0xff; 0xff; 0xff; 0xff; 0xff; 0xff; 0xff; 0xff];
  [0xff; 0xff; 0xff; 0xff; 0xff; 0xff; 0xff; 0xff; 0xff; 0xff; 0xff; 0xff];
  [0xff; 0xff; 0xff; 0xff; 0xff; 0xff; 0xff; 0xff; 0xff; 0xff; 0xff; 0xff];
  [0xff; 0xff; 0xff; 0xff; 0xff; 0xff; 0xff; 0xff; 0xff; 0xff; 0xff; 0xf4];
  [0xf4; 0xf4; 0xd7; 0xd7; 0xd7; 0xd4; 0xd4; 0xd4; 0x73; 0x73; 0x73; 0xd4];
  [0xd4; 0xd4; 0xff; 0xff; 0xff; 0xff; 0xff; 0xff; 0xae; 0xae; 0xae; 0x5d];
  [0x5c; 0x5c; 0xd4; 0xd4; 0xd4; 0xe8; 0xe7; 0xe7; 0xff; 0xff; 0xff; 0xff];
  [0xff; 0xff; 0x84; 0x82; 0x1a; 0x84; 0x82; 0x1a; 0x84; 0x82; 0x1a; 0x84];
  [0x82; 0x1a; 0x84; 0x82; 0x1a; 0x84; 0x82; 0x1a; 0xff; 0xff; 0xff; 0xff];
  [0xff; 0xff; 0xff; 0xff; 0xff; 0xff; 0xff; 0xff; 0xff; 0xff; 0xff; 0xff];
  [0xff; 0xff; 0xff; 0xff; 0xff; 0xff; 0xff; 0xff; 0xff; 0xff; 0xff; 0xff];
  [0xff; 0xff; 0xff; 0xff; 0xff; 0xff; 0xff; 0xff; 0x00; 0x00; 0xff; 0xff];
  [0xff; 0xff; 0xff; 0xff; 0xff; 0xff; 0xff; 0xff; 0xff; 0xff; 0xff; 0xff];
  [0xff; 0xff; 0xff; 0xff; 0xff; 0xff; 0xff; 0xff; 0xff; 0xff; 0xff; 0xff];
  [0xff; 0xff; 0xff; 0xff; 0xff; 0xff; 0xff; 0xff; 0xff; 0xff; 0xff; 0xff];
  [0xff; 0xff; 0xff; 0xff; 0xff; 0xff; 0xff; 0xff; 0xff; 0xff; 0xff; 0xff];
  [0xff; 0xff; 0xff; 0xff; 0xff; 0xff; 0xff; 0xff; 0xff; 0xff; 0xe6; 0xe6];
  [0xe6; 0xc9; 0xc9; 0xc9; 0x5d; 0x5c; 0x5c; 0xad; 0xac; 0xac; 0xd7; 0xd7];
  [0xd7; 0xff; 0xff; 0xff; 0xad; 0xac; 0xac; 0xad; 0xac; 0xac; 0xd6; 0xd6];
  [0xd6; 0xe8; 0xe7; 0xe7; 0xff; 0xff; 0xff; 0xff; 0xff; 0xff; 0x0a; 0x02];
  [0xff; 0x0a; 0x02; 0xff; 0x0a; 0xff; 0x00; 0x0a; 0xff; 0x00; 0xff; 0x00];
  [0x00; 0xff; 0x00; 0x00; 0xff; 0xff; 0xff; 0xff; 0xff; 0xff; 0xff; 0xff];
  [0xff; 0xff; 0xff; 0xff; 0xff; 0xff; 0xff; 0xff; 0xff; 0xff; 0xff; 0xff];
  [0xff; 0xff; 0xff; 0xff; 0xff; 0xff; 0xff; 0xff; 0xff; 0xff; 0xff; 0xff];
  [0xff; 0xff; 0xff; 0xff; 0x00; 0x00; 0xff; 0xff; 0xff; 0xff; 0xff; 0xff];
  [0xff; 0xff; 0xff; 0xff; 0xff; 0xff; 0xff; 0xff; 0xff; 0xff; 0xff; 0xff];
  [0xff; 0xff; 0xff; 0xff; 0xff; 0xff; 0xff; 0xff; 0xff; 0xff; 0xff; 0xff];
  [0xff; 0xff; 0xff; 0xff; 0xff; 0xff; 0xff; 0xff; 0xff; 0xff; 0xff; 0xff];
  [0xff; 0xff; 0xff; 0xff; 0xff; 0xff; 0xff; 0xff; 0xff; 0xff; 0xff; 0xff];
  [0xff; 0xff; 0xff; 0xff; 0xff; 0xff; 0xfb; 0xfb; 0xfb; 0xed; 0xed; 0xed];
  [0xcb; 0xcb; 0xcb; 0x73; 0x73; 0x73; 0x8d; 0x8d; 0x8d; 0xf6; 0xf6; 0xf6];
  [0xad; 0xac; 0xac; 0xae; 0xad; 0xad; 0xd4; 0xd4; 0xd4; 0xff; 0xff; 0xff];
  [0xff; 0xff; 0xff; 0xff; 0xff; 0xff; 0x0a; 0x02; 0xff; 0x0a; 0x02; 0xff];
  [0x0a; 0xff; 0x00; 0x0a; 0xff; 0x00; 0xff; 0x00; 0x00; 0xff; 0x00; 0x00];
  [0xff; 0xff; 0xff; 0xff; 0xff; 0xff; 0xff; 0xff; 0xff; 0xff; 0xff; 0xff];
  [0xff; 0xff; 0xff; 0xff; 0xff; 0xff; 0xff; 0xff; 0xff; 0xff; 0xff; 0xff];
  [0xff; 0xff; 0xff; 0xff; 0xff; 0xff; 0xff; 0xff; 0xff; 0xff; 0xff; 0xff];
  [0x00; 0x00; 0xff; 0xff; 0xff; 0xff; 0xff; 0xff; 0xff; 0xff; 0xff; 0xff];
  [0xff; 0xff; 0xff; 0xff; 0xff; 0xff; 0xff; 0xff; 0xff; 0xff; 0xff; 0xff];
  [0xff; 0xff; 0xff; 0xff; 0xff; 0xff; 0xff; 0xff; 0xff; 0xff; 0xff; 0xff];
  [0xff; 0xff; 0xff; 0xff; 0xff; 0xff; 0xff; 0xff; 0xff; 0xff; 0xff; 0xff];
  [0xff; 0xff; 0xff; 0xff; 0xff; 0xff; 0xff; 0xff; 0xff; 0xff; 0xff; 0xff];
  [0xff; 0xff; 0xff; 0xff; 0xff; 0xf4; 0xf4; 0xf4; 0xc7; 0xc7; 0xc7; 0xd4];
  [0xd4; 0xd4; 0xa2; 0xa2; 0xa2; 0x5e; 0x5d; 0x5d; 0xad; 0xac; 0xac; 0xad];
  [0xad; 0xad; 0xd5; 0xd5; 0xd5; 0xff; 0xff; 0xff; 0xff; 0xff; 0xff; 0xff];
  [0xff; 0xff; 0x0a; 0x02; 0xff; 0x0a; 0x02; 0xff; 0x0a; 0xff; 0x00; 0x0a];
  [0xff; 0x00; 0xff; 0x00; 0x00; 0xff; 0x00; 0x00; 0xff; 0xff; 0xff; 0xff];
  [0xff; 0xff; 0xff; 0xff; 0xff; 0xff; 0xff; 0xff; 0xff; 0xff; 0xff; 0xff];
  [0xff; 0xff; 0xff; 0xff; 0xff; 0xff; 0xff; 0xff; 0xff; 0xff; 0xff; 0xff];
  [0xff; 0xff; 0xff; 0xff; 0xff; 0xff; 0xff; 0xff; 0x00; 0x00; 0xff; 0xff];
  [0xff; 0xff; 0xff; 0xff; 0xff; 0xff; 0xff; 0xff; 0xff; 0xff; 0xff; 0xff];
  [0xff; 0xff; 0xff; 0xff; 0xff; 0xff; 0xff; 0xff; 0xff; 0xff; 0xff; 0xff];
  [0xff; 0xff; 0xff; 0xff; 0xff; 0xff; 0xff; 0xff; 0xff; 0xff; 0xff; 0xff];
  [0xff; 0xff; 0xff; 0xff; 0xff; 0xff; 0xff; 0xff; 0xff; 0xff; 0xff; 0xff];
  [0xff; 0xff; 0xff; 0xff; 0xff; 0xff; 0xff; 0xff; 0xff; 0xff; 0xff; 0xff];
  [0xff; 0xff; 0xff; 0xff; 0xe6; 0xe6; 0xe6; 0xc9; 0xc8; 0xc9; 0xd4; 0xd4];
  [0xd4; 0x73; 0x73; 0x73; 0x4b; 0x4a; 0x4a; 0xad; 0xac; 0xac; 0xff; 0xff];
  [0xff; 0xff; 0xff; 0xff; 0xff; 0xff; 0xff; 0xff; 0xff; 0xff; 0x0a; 0x02];
  [0xff; 0x0a; 0x02; 0xff; 0x0a; 0xff; 0x00; 0x0a; 0xff; 0x00; 0xff; 0x00];
  [0x00; 0xff; 0x00; 0x00; 0xff; 0xff; 0xff; 0xff; 0xff; 0xff; 0xff; 0xff];
  [0xff; 0xff; 0xff; 0xff; 0xff; 0xff; 0xff; 0xff; 0xff; 0xff; 0xff; 0xff];
  [0xff; 0xff; 0xff; 0xff; 0xff; 0xff; 0xff; 0xff; 0xff; 0xff; 0xff; 0xff];
  [0xff; 0xff; 0xff; 0xff; 0x00; 0x00; 0xff; 0xff; 0xff; 0xff; 0xff; 0xff];
  [0xff; 0xff; 0xff; 0xff; 0xff; 0xff; 0xff; 0xff; 0xff; 0xff; 0xff; 0xff];
  [0xff; 0xff; 0xff; 0xff; 0xff; 0xff; 0xff; 0xff; 0xff; 0xff; 0xff; 0xff];
  [0xff; 0xff; 0xff; 0xff; 0xff; 0xff; 0xff; 0xff; 0xff; 0xff; 0xff; 0xff];
  [0xff; 0xff; 0xff; 0xff; 0xff; 0xff; 0xff; 0xff; 0xff; 0xff; 0xff; 0xff];
  [0xff; 0xff; 0xff; 0xff; 0xff; 0xff; 0xff; 0xff; 0xff; 0xff; 0xff; 0xff];
  [0xff; 0xff; 0xff; 0xe4; 0xe4; 0xe4; 0xc4; 0xc4; 0xc4; 0xad; 0xac; 0xac];
  [0x72; 0x71; 0x71; 0xad; 0xac; 0xac; 0xff; 0xff; 0xff; 0xff; 0xff; 0xff];
  [0xff; 0xff; 0xff; 0xff; 0xff; 0xff; 0x0a; 0x02; 0xff; 0x0a; 0x02; 0xff];
  [0x0a; 0xff; 0x00; 0x0a; 0xff; 0x00; 0xff; 0x00; 0x00; 0xff; 0x00; 0x00];
  [0xff; 0xff; 0xff; 0xff; 0xff; 0xff; 0xff; 0xff; 0xff; 0xff; 0xff; 0xff];
  [0xff; 0xff; 0xff; 0xff; 0xff; 0xff; 0xff; 0xff; 0xff; 0xff; 0xff; 0xff];
  [0xff; 0xff; 0xff; 0xff; 0xff; 0xff; 0xff; 0xff; 0xff; 0xff; 0xff; 0xff];
  [0x00; 0x00; 0xff; 0xff; 0xff; 0xff; 0xff; 0xff; 0xff; 0xff; 0xff; 0xff];
  [0xff; 0xff; 0xff; 0xff; 0xff; 0xff; 0xff; 0xff; 0xff; 0xff; 0xff; 0xff];
  [0xff; 0xff; 0xff; 0xff; 0xff; 0xff; 0xff; 0xff; 0xff; 0xff; 0xff; 0xff];
  [0xff; 0xff; 0xff; 0xff; 0xff; 0xff; 0xff; 0xff; 0xff; 0xff; 0xff; 0xff];
  [0xff; 0xff; 0xff; 0xff; 0xff; 0xff; 0xff; 0xff; 0xff; 0xff; 0xff; 0xff];
  [0xff; 0xff; 0xff; 0xff; 0xff; 0xff; 0xff; 0xff; 0xff; 0xff; 0xff; 0xf4];
  [0xf4; 0xf4; 0xcb; 0xcb; 0xcb; 0xd4; 0xd4; 0xd4; 0x73; 0x72; 0x72; 0x99];
  [0x99; 0x99; 0xff; 0xff; 0xff; 0xff; 0xff; 0xff; 0xff; 0xff; 0xff; 0xff];
  [0xff; 0xff; 0x0a; 0x02; 0xff; 0x0a; 0x02; 0xff; 0x0a; 0xff; 0x00; 0x0a];
  [0xff; 0x00; 0xff; 0x00; 0x00; 0xff; 0x00; 0x00; 0xff; 0xff; 0xff; 0xff];
  [0xff; 0xff; 0xff; 0xff; 0xff; 0xff; 0xff; 0xff; 0xff; 0xff; 0xff; 0xff];
  [0xff; 0xff; 0xff; 0xff; 0xff; 0xff; 0xff; 0xff; 0xff; 0xff; 0xff; 0xff];
  [0xff; 0xff; 0xff; 0xff; 0xff; 0xff; 0xff; 0xff; 0x00; 0x00; 0xff; 0xff];
  [0xff; 0xff; 0xff; 0xff; 0xff; 0xff; 0xff; 0xff; 0xff; 0xff; 0xff; 0xff];
  [0xff; 0xff; 0xff; 0xff; 0xff; 0xff; 0xff; 0xff; 0xff; 0xff; 0xff; 0xff];
  [0xff; 0xff; 0xff; 0xff; 0xff; 0xff; 0xff; 0xff; 0xff; 0xff; 0xff; 0xff];
  [0xff; 0xff; 0xff; 0xff; 0xff; 0xff; 0xff; 0xff; 0xff; 0xff; 0xff; 0xff];
  [0xff; 0xff; 0xff; 0xff; 0xff; 0xff; 0xff; 0xff; 0xff; 0xff; 0xff; 0xff];
  [0xff; 0xff; 0xff; 0xff; 0xff; 0xff; 0xff; 0xff; 0xff; 0xff; 0xed; 0xed];
  [0xed; 0xde; 0xde; 0xde; 0xad; 0xad; 0xad; 0x72; 0x72; 0x72; 0xf6; 0xf6];
  [0xf6; 0xff; 0xff; 0xff; 0xff; 0xff; 0xff; 0xff; 0xff; 0xff; 0x02; 0x00];
  [0xff; 0x08; 0x02; 0xff; 0x0a; 0xff; 0x00; 0x0a; 0xff; 0x00; 0xff; 0x00];
  [0x00; 0xff; 0x00; 0x00; 0xff; 0xff; 0xff; 0xff; 0xff; 0xff; 0xff; 0xff];
  [0xff; 0xff; 0xff; 0xff; 0xff; 0xff; 0xff; 0xff; 0xff; 0xff; 0xff; 0xff];
  [0xff; 0xff; 0xff; 0xff; 0xff; 0xff; 0xff; 0xff; 0xff; 0xff; 0xff; 0xff];
  [0xff; 0xff; 0xff; 0xff; 0x00; 0x00; 0xff; 0xff; 0xff; 0xff; 0xff; 0xff];
  [0xff; 0xff; 0xff; 0xff; 0xff; 0xff; 0xff; 0xff; 0xff; 0xff; 0xff; 0xff];
  [0xff; 0xff; 0xff; 0xff; 0xff; 0xff; 0xff; 0xff; 0xff; 0xff; 0xff; 0xff];
  [0xff; 0xff; 0xff; 0xff; 0xff; 0xff; 0xff; 0xff; 0xff; 0xff; 0xff; 0xff];
  [0xff; 0xff; 0xff; 0xff; 0xff; 0xff; 0xff; 0xff; 0xff; 0xff; 0xff; 0xff];
  [0xff; 0xff; 0xff; 0xff; 0xff; 0xff; 0xff; 0xff; 0xff; 0xff; 0xff; 0xff];
  [0xff; 0xff; 0xff; 0xff; 0xff; 0xff; 0xfb; 0xfb; 0xfb; 0xed; 0xed; 0xed];
  [0xff; 0xff; 0xff; 0xd6; 0xd6; 0xd6; 0xd6; 0xd6; 0xd6; 0xff; 0xff; 0xff];
  [0xff; 0xff; 0xff; 0xff; 0xff; 0xff; 0x18; 0x17; 0xff; 0x08; 0x02; 0xff];
  [0x0a; 0xff; 0x00; 0x0a; 0xff; 0x00; 0xff; 0x00; 0x00; 0xff; 0x00; 0x00];
  [0xff; 0xff; 0xff; 0xff; 0xff; 0xff; 0xff; 0xff; 0xff; 0xff; 0xff; 0xff];
  [0xff; 0xff; 0xff; 0xff; 0xff; 0xff; 0xff; 0xff; 0xff; 0xff; 0xff; 0xff];
  [0xff; 0xff; 0xff; 0xff; 0xff; 0xff; 0xff; 0xff; 0xff; 0xff; 0xff; 0xff];
  [0x00; 0x00; 0xff; 0xff; 0xff; 0xff; 0xff; 0xff; 0xff; 0xff; 0xff; 0xff];
  [0xff; 0xff; 0xff; 0xff; 0xff; 0xff; 0xff; 0xff; 0xff; 0xff; 0xff; 0xff];
  [0xff; 0xff; 0xff; 0xff; 0xff; 0xff; 0xff; 0xff; 0xff; 0xff; 0xff; 0xff];
  [0xff; 0xff; 0xff; 0xff; 0xff; 0xff; 0xff; 0xff; 0xff; 0xff; 0xff; 0xff];
  [0xff; 0xff; 0xff; 0xff; 0xff; 0xff; 0xff; 0xff; 0xff; 0xff; 0xff; 0xff];
  [0xff; 0xff; 0xff; 0xff; 0xff; 0xff; 0xff; 0xff; 0xff; 0xff; 0xff; 0xff];
  [0xff; 0xff; 0xff; 0xff; 0xff; 0xff; 0xff; 0xff; 0xff; 0xff; 0xff; 0xff];
  [0xff; 0xff; 0xff; 0xff; 0xff; 0xff; 0xff; 0xff; 0xff; 0xff; 0xff; 0xff];
  [0xff; 0xff; 0xff; 0xff; 0xff; 0xff; 0xff; 0xff; 0xff; 0xff; 0xff; 0xff];
  [0xff; 0xff; 0xff; 0xff; 0xff; 0xff; 0xff; 0xff; 0xff; 0xff; 0xff; 0xff];
  [0xff; 0xff; 0xff; 0xff; 0xff; 0xff; 0xff; 0xff; 0xff; 0xff; 0xff; 0xff];
  [0xff; 0xff; 0xff; 0xff; 0xff; 0xff; 0xff; 0xff; 0xff; 0xff; 0xff; 0xff];
  [0xff; 0xff; 0xff; 0xff; 0xff; 0xff; 0xff; 0xff; 0x00; 0x00; 0xff; 0xff];
  [0xff; 0xff; 0xff; 0xff; 0xff; 0xff; 0xff; 0xff; 0xff; 0xff; 0xff; 0xff];
  [0xff; 0xff; 0xff; 0xff; 0xff; 0xff; 0xff; 0xff; 0xff; 0xff; 0xff; 0xff];
  [0xff; 0xff; 0xff; 0xff; 0xff; 0xff; 0xff; 0xff; 0xff; 0xff; 0xff; 0xff];
  [0xff; 0xff; 0xff; 0xff; 0xff; 0xff; 0xff; 0xff; 0xff; 0xff; 0xff; 0xff];
  [0xff; 0xff; 0xff; 0xff; 0xff; 0xff; 0xff; 0xff; 0xff; 0xff; 0xff; 0xff];
  [0xff; 0xff; 0xff; 0xff; 0xff; 0xff; 0xff; 0xff; 0xff; 0xff; 0xff; 0xff];
  [0xff; 0xff; 0xff; 0xff; 0xff; 0xff; 0xff; 0xff; 0xff; 0xff; 0xff; 0xff];
  [0xff; 0xff; 0xff; 0xff; 0xff; 0xff; 0xff; 0xff; 0xff; 0xff; 0xff; 0xff];
  [0xff; 0xff; 0xff; 0xff; 0xff; 0xff; 0xff; 0xff; 0xff; 0xff; 0xff; 0xff];
  [0xff; 0xff; 0xff; 0xff; 0xff; 0xff; 0xff; 0xff; 0xff; 0xff; 0xff; 0xff];
  [0xff; 0xff; 0xff; 0xff; 0xff; 0xff; 0xff; 0xff; 0xff; 0xff; 0xff; 0xff];
  [0xff; 0xff; 0xff; 0xff; 0xff; 0xff; 0xff; 0xff; 0xff; 0xff; 0xff; 0xff];
  [0xff; 0xff; 0xff; 0xff; 0x00; 0x00; 0xff; 0xff; 0xff; 0xff; 0xff; 0xff];
  [0xff; 0xff; 0xff; 0xff; 0xff; 0xff; 0xff; 0xff; 0xff; 0xff; 0xff; 0xff];
  [0xff; 0xff; 0xff; 0xff; 0xff; 0xff; 0xff; 0xff; 0xff; 0xff; 0xff; 0xff];
  [0xff; 0xff; 0xff; 0xff; 0xff; 0xff; 0xff; 0xff; 0xff; 0xff; 0xff; 0xff];
  [0xff; 0xff; 0xff; 0xff; 0xff; 0xff; 0xff; 0xff; 0xff; 0xff; 0xff; 0xff];
  [0xff; 0xff; 0xff; 0xff; 0xff; 0xff; 0xff; 0xff; 0xff; 0xff; 0xff; 0xff];
  [0xff; 0xff; 0xff; 0xff; 0xff; 0xff; 0xff; 0xff; 0xff; 0xff; 0xff; 0xff];
  [0xff; 0xff; 0xff; 0xff; 0xff; 0xff; 0xff; 0xff; 0xff; 0xff; 0xff; 0xff];
  [0xff; 0xff; 0xff; 0xff; 0xff; 0xff; 0xff; 0xff; 0xff; 0xff; 0xff; 0xff];
  [0xff; 0xff; 0xff; 0xff; 0xff; 0xff; 0xff; 0xff; 0xff; 0xff; 0xff; 0xff];
  [0xff; 0xff; 0xff; 0xff; 0xff; 0xff; 0xff; 0xff; 0xff; 0xff; 0xff; 0xff];
  [0xff; 0xff; 0xff; 0xff; 0xff; 0xff; 0xff; 0xff; 0xff; 0xff; 0xff; 0xff];
  [0xff; 0xff; 0xff; 0xff; 0xff; 0xff; 0xff; 0xff; 0xff; 0xff; 0xff; 0xff];
  [0x00; 0x00; 0xff; 0xff; 0xff; 0xff; 0xff; 0xff; 0xff; 0xff; 0xff; 0xff];
  [0xff; 0xff; 0xff; 0xff; 0xff; 0xff; 0xff; 0xff; 0xff; 0xff; 0xff; 0xff];
  [0xff; 0xff; 0xff; 0xff; 0xff; 0xff; 0xff; 0xff; 0xff; 0xff; 0xff; 0xff];
  [0xff; 0xff; 0xff; 0xff; 0xff; 0xff; 0xff; 0xff; 0xff; 0xff; 0xff; 0xff];
  [0xff; 0xff; 0xff; 0xff; 0xff; 0xff; 0xff; 0xff; 0xff; 0xff; 0xff; 0xff];
  [0xff; 0xff; 0xff; 0xff; 0xff; 0xff; 0xff; 0xff; 0xff; 0xff; 0xff; 0xff];
  [0xff; 0xff; 0xff; 0xff; 0xff; 0xff; 0xff; 0xff; 0xff; 0xff; 0xff; 0xff];
  [0xff; 0xff; 0xff; 0xff; 0xff; 0xff; 0xff; 0xff; 0xff; 0xff; 0xff; 0xff];
  [0xff; 0xff; 0xff; 0xff; 0xff; 0xff; 0xff; 0xff; 0xff; 0xff; 0xff; 0xff];
  [0xff; 0xff; 0xff; 0xff; 0xff; 0xff; 0xff; 0xff; 0xff; 0xff; 0xff; 0xff];
  [0xff; 0xff; 0xff; 0xff; 0xff; 0xff; 0xff; 0xff; 0xff; 0xff; 0xff; 0xff];
  [0xff; 0xff; 0xff; 0xff; 0xff; 0xff; 0xff; 0xff; 0xff; 0xff; 0xff; 0xff];
  [0xff; 0xff; 0xff; 0xff; 0xff; 0xff; 0xff; 0xff; 0x00; 0x00; 0xff; 0xff];
  [0xff; 0xff; 0xff; 0xff; 0xff; 0xff; 0xff; 0xff; 0xff; 0xff; 0xff; 0xff];
  [0xff; 0xff; 0xff; 0xff; 0xff; 0xff; 0xff; 0xff; 0xff; 0xff; 0xff; 0xff];
  [0xff; 0xff; 0xff; 0xff; 0xff; 0xff; 0xff; 0xff; 0xff; 0xff; 0xff; 0xff];
  [0xff; 0xff; 0xff; 0xff; 0xff; 0xff; 0xff; 0xff; 0xff; 0xff; 0xff; 0xff];
  [0xff; 0xff; 0xff; 0xff; 0xff; 0xff; 0xff; 0xff; 0xff; 0xff; 0xff; 0xff];
  [0xff; 0xff; 0xff; 0xff; 0xff; 0xff; 0xff; 0xff; 0xff; 0xff; 0xff; 0xff];
  [0xff; 0xff; 0xff; 0xff; 0xff; 0xff; 0xff; 0xff; 0xff; 0xff; 0xff; 0xff];
  [0xff; 0xff; 0xff; 0xff; 0xff; 0xff; 0xff; 0xff; 0xff; 0xff; 0xff; 0xff];
  [0xff; 0xff; 0xff; 0xff; 0xff; 0xff; 0xff; 0xff; 0xff; 0xff; 0xff; 0xff];
  [0xff; 0xff; 0xff; 0xff; 0xff; 0xff; 0xff; 0xff; 0xff; 0xff; 0xff; 0xff];
  [0xff; 0xff; 0xff; 0xff; 0xff; 0xff; 0xff; 0xff; 0xff; 0xff; 0xff; 0xff];
  [0xff; 0xff; 0xff; 0xff; 0xff; 0xff; 0xff; 0xff; 0xff; 0xff; 0xff; 0xff];
  [0xff; 0xff; 0xff; 0xff; 0x00; 0x00; 0xff; 0xff; 0xff; 0xff; 0xff; 0xff];
  [0xff; 0xff; 0xff; 0xff; 0xff; 0xff; 0xff; 0xff; 0xff; 0xff; 0xff; 0xff];
  [0xff; 0xff; 0xff; 0xff; 0xff; 0xff; 0xff; 0xff; 0xff; 0xff; 0xff; 0xff];
  [0xff; 0xff; 0xff; 0xff; 0xff; 0xff; 0xff; 0xff; 0xff; 0xff; 0xff; 0xff];
  [0xff; 0xff; 0xff; 0xff; 0xff; 0xff; 0xff; 0xff; 0xff; 0xff; 0xff; 0xff];
  [0xff; 0xff; 0xff; 0xff; 0xff; 0xff; 0xff; 0xff; 0xff; 0xff; 0xff; 0xff];
  [0xff; 0xff; 0xff; 0xff; 0xff; 0xff; 0xff; 0xff; 0xff; 0xff; 0xff; 0xff];
  [0xff; 0xff; 0xff; 0xff; 0xff; 0xff; 0xff; 0xff; 0xff; 0xff; 0xff; 0xff];
  [0xff; 0xff; 0xff; 0xff; 0xff; 0xff; 0xff; 0xff; 0xff; 0xff; 0xff; 0xff];
  [0xff; 0xff; 0xff; 0xff; 0xff; 0xff; 0xff; 0xff; 0xff; 0xff; 0xff; 0xff];
  [0xff; 0xff; 0xff; 0xff; 0xff; 0xff; 0xff; 0xff; 0xff; 0xff; 0xff; 0xff];
  [0xff; 0xff; 0xff; 0xff; 0xff; 0xff; 0xff; 0xff; 0xff; 0xff; 0xff; 0xff];
  [0xff; 0xff; 0xff; 0xff; 0xff; 0xff; 0xff; 0xff; 0xff; 0xff; 0xff; 0xff];
  [0x00; 0x00; 0xff; 0xff; 0xff; 0xff; 0xff; 0xff; 0xff; 0xff; 0xff; 0xff];
  [0xff; 0xff; 0xff; 0xff; 0xff; 0xff; 0xff; 0xff; 0xff; 0xff; 0xff; 0xff];
  [0xff; 0xff; 0xff; 0xff; 0xff; 0xff; 0xff; 0xff; 0xff; 0xff; 0xff; 0xff];
  [0xff; 0xff; 0xff; 0xff; 0xff; 0xff; 0xff; 0xff; 0xff; 0xff; 0xff; 0xff];
  [0xff; 0xff; 0xff; 0xff; 0xff; 0xff; 0xff; 0xff; 0xff; 0xff; 0xff; 0xff];
  [0xff; 0xff; 0xff; 0xff; 0xff; 0xff; 0xff; 0xff; 0xff; 0xff; 0xff; 0xff];
  [0xff; 0xff; 0xff; 0xff; 0xff; 0xff; 0xff; 0xff; 0xff; 0xff; 0xff; 0xff];
  [0xff; 0xff; 0xff; 0xff; 0xff; 0xff; 0xff; 0xff; 0xff; 0xff; 0xff; 0xff];
  [0xff; 0xff; 0xff; 0xff; 0xff; 0xff; 0xff; 0xff; 0xff; 0xff; 0xff; 0xff];
  [0xff; 0xff; 0xff; 0xff; 0xff; 0xff; 0xff; 0xff; 0xff; 0xff; 0xff; 0xff];
  [0xff; 0xff; 0xff; 0xff; 0xff; 0xff; 0xff; 0xff; 0xff; 0xff; 0xff; 0xff];
  [0xff; 0xff; 0xff; 0xff; 0xff; 0xff; 0xff; 0xff; 0xff; 0xff; 0xff; 0xff];
  [0xff; 0xff; 0xff; 0xff; 0xff; 0xff; 0xff; 0xff; 0x00; 0x00; 0xff; 0xff];
  [0xff; 0xff; 0xff; 0xff; 0xff; 0xff; 0xff; 0xff; 0xff; 0xff; 0xff; 0xff];
  [0xff; 0xff; 0xff; 0xff; 0xff; 0xff; 0xff; 0xff; 0xff; 0xff; 0xff; 0xff];
  [0xff; 0xff; 0xff; 0xff; 0xff; 0xff; 0xff; 0xff; 0xff; 0xff; 0xff; 0xff];
  [0xff; 0xff; 0xff; 0xff; 0xff; 0xff; 0xff; 0xff; 0xff; 0xff; 0xff; 0xff];
  [0xff; 0xff; 0xff; 0xff; 0xff; 0xff; 0xff; 0xff; 0xff; 0xff; 0xff; 0xff];
  [0xff; 0xff; 0xff; 0xff; 0xff; 0xff; 0xff; 0xff; 0xff; 0xff; 0xff; 0xff];
  [0xff; 0xff; 0xff; 0xff; 0xff; 0xff; 0xff; 0xff; 0xff; 0xff; 0xff; 0xff];
  [0xff; 0xff; 0xff; 0xff; 0xff; 0xff; 0xff; 0xff; 0xff; 0xff; 0xff; 0xff];
  [0xff; 0xff; 0xff; 0xff; 0xff; 0xff; 0xff; 0xff; 0xff; 0xff; 0xff; 0xff];
  [0xff; 0xff; 0xff; 0xff; 0xff; 0xff; 0xff; 0xff; 0xff; 0xff; 0xff; 0xff];
  [0xff; 0xff; 0xff; 0xff; 0xff; 0xff; 0xff; 0xff; 0xff; 0xff; 0xff; 0xff];
  [0xff; 0xff; 0xff; 0xff; 0xff; 0xff; 0xff; 0xff; 0xff; 0xff; 0xff; 0xff];
  [0xff; 0xff; 0xff; 0xff; 0x00; 0x00; 0xff; 0xff; 0xff; 0xff; 0xff; 0xff];
  [0xff; 0xff; 0xff; 0xff; 0xff; 0xff; 0xff; 0xff; 0xff; 0xff; 0xff; 0xff];
  [0xff; 0xff; 0xff; 0xff; 0xff; 0xff; 0xff; 0xff; 0xff; 0xff; 0xff; 0xff];
  [0xff; 0xff; 0xff; 0xff; 0xff; 0xff; 0xff; 0xff; 0xff; 0xff; 0xff; 0xff];
  [0xff; 0xff; 0xff; 0xff; 0xff; 0xff; 0xff; 0xff; 0xff; 0xff; 0xff; 0xff];
  [0xff; 0xff; 0xff; 0xff; 0xff; 0xff; 0xff; 0xff; 0xff; 0xff; 0xff; 0xff];
  [0xff; 0xff; 0xff; 0xff; 0xff; 0xff; 0xff; 0xff; 0xff; 0xff; 0xff; 0xff];
  [0xff; 0xff; 0xff; 0xff; 0xff; 0xff; 0xff; 0xff; 0xff; 0xff; 0xff; 0xff];
  [0xff; 0xff; 0xff; 0xff; 0xff; 0xff; 0xff; 0xff; 0xff; 0xff; 0xff; 0xff];
  [0xff; 0xff; 0xff; 0xff; 0xff; 0xff; 0xff; 0xff; 0xff; 0xff; 0xff; 0xff];
  [0xff; 0xff; 0xff; 0xff; 0xff; 0xff; 0xff; 0xff; 0xff; 0xff; 0xff; 0xff];
  [0xff; 0xff; 0xff; 0xff; 0xff; 0xff; 0xff; 0xff; 0xff; 0xff; 0xff; 0xff];
  [0xff; 0xff; 0xff; 0xff; 0xff; 0xff; 0xff; 0xff; 0xff; 0xff; 0xff; 0xff];
  [0x00; 0x00; 0xff; 0xff; 0xff; 0xff; 0xff; 0xff; 0xff; 0xff; 0xff; 0xff];
  [0xff; 0xff; 0xff; 0xff; 0xff; 0xff; 0xff; 0xff; 0xff; 0xff; 0xff; 0xff];
  [0xff; 0xff; 0xff; 0xff; 0xff; 0xff; 0xff; 0xff; 0xff; 0xff; 0xff; 0xff];
  [0xff; 0xff; 0xff; 0xff; 0xff; 0xff; 0xff; 0xff; 0xff; 0xff; 0xff; 0xff];
  [0xff; 0xff; 0xff; 0xff; 0xff; 0xff; 0xff; 0xff; 0xff; 0xff; 0xff; 0xff];
  [0xff; 0xff; 0xff; 0xff; 0xff; 0xff; 0xff; 0xff; 0xff; 0xff; 0xff; 0xff];
  [0xff; 0xff; 0xff; 0xff; 0xff; 0xff; 0xff; 0xff; 0xff; 0xff; 0xff; 0xff];
  [0xff; 0xff; 0xff; 0xff; 0xff; 0xff; 0xff; 0xff; 0xff; 0xff; 0xff; 0xff];
  [0xff; 0xff; 0xff; 0xff; 0xff; 0xff; 0xff; 0xff; 0xff; 0xff; 0xff; 0xff];
  [0xff; 0xff; 0xff; 0xff; 0xff; 0xff; 0xff; 0xff; 0xff; 0xff; 0xff; 0xff];
  [0xff; 0xff; 0xff; 0xff; 0xff; 0xff; 0xff; 0xff; 0xff; 0xff; 0xff; 0xff];
  [0xff; 0xff; 0xff; 0xff; 0xff; 0xff; 0xff; 0xff; 0xff; 0xff; 0xff; 0xff];
  [0xff; 0xff; 0xff; 0xff; 0xff; 0xff; 0xff; 0xff; 0x00; 0x00]
].
Definition logo_bmp : list Z := concat logo_bmp_rows.
Definition logo_bmp_len : Z := 7738.
