(* ===== verification/Boot.v ===== *)
(** * The loader ([bootloader/uefi.c])

    [efi_main] from its entry to the call of the kernel. *)

From S2P Require Import Prelude FromBoot Pmm PageTable Efi BootLib BootPaging BootElf BootGop LogoData.

(** What the loader finds in the processor and on its stack: CPUID and what goes
    with it, RSP, the address of its local pointer to the record, the vendor
    string of the firmware, and the values of the other variables it reads before
    it writes them. *)
Record boot_env := mk_boot_env {
  be_cpu : cpu_env;
  be_rsp : Z;
  be_local : Z;
  be_firmware_vendor : list Z;
  be_printGOP : Z;
  be_image : loaded_image;
}.

(** How [efi_main] ends: it returns to the firmware, or it calls the kernel's
    entry with the address of the hand-off record. *)
Inductive boot_end :=
  | Returned (Status : Z)
  | Entered (entry : Z) (address : Z).

(** ** The hand-off record in memory *)

(** [sizeof(BootInfo)] *)
Definition sizeof_BootInfo : Z := 120.

Definition load_record (m : ram) (a : Z) : BootInfo :=
  mk_BootInfo (load_le 8 m a) (load_le 8 m (a + 8)) (load_le 8 m (a + 16))
    (load_le 4 m (a + 24)) (load_le 4 m (a + 28)) (load_le 4 m (a + 32)) (load_le 4 m (a + 36))
    (load_le 8 m (a + 40)) (load_le 8 m (a + 48)) (load_le 8 m (a + 56))
    (load_le 8 m (a + 64)) (load_le 8 m (a + 72)) (load_le 8 m (a + 80)) (load_le 8 m (a + 88))
    (load_le 8 m (a + 96)) (load_le 8 m (a + 104)) (load_le 8 m (a + 112)).

(** The stores of [efi_main], as a list of offset, width and value in their order. *)
Definition record_fields (b : BootInfo) : list (Z * nat * Z) :=
  [ (0, 8%nat, b.(magic)); (8, 8%nat, b.(framebuffer_base)); (16, 8%nat, b.(framebuffer_size));
    (24, 4%nat, b.(width)); (28, 4%nat, b.(height)); (32, 4%nat, b.(pixels_per_scanline));
    (36, 4%nat, b.(framebuffer_pixel_format));
    (104, 8%nat, b.(initramfs_address)); (112, 8%nat, b.(initramfs_size));
    (64, 8%nat, b.(kernel_physical_address)); (72, 8%nat, b.(kernel_physical_address_start));
    (80, 8%nat, b.(kernel_physical_address_end)); (88, 8%nat, b.(kernel_virtual_address));
    (96, 8%nat, b.(kernel_size));
    (40, 8%nat, b.(memory_map)); (48, 8%nat, b.(memory_map_size)); (56, 8%nat, b.(memory_descriptor_size)) ].

Definition store_fields (a : Z) (l : list (Z * nat * Z)) (m : ram) : ram :=
  fold_left (fun m '(off, n, v) => store_le n (a + off) v m) l m.
Definition store_record (a : Z) (b : BootInfo) (m : ram) : ram := store_fields a (record_fields b) m.

Section boot.
Context {F : Type} `{Firmware F}.

Definition write_cr3 (value : Z) : M (loader F) unit := modify (fun s =>
  mk_loader s.(fw) s.(mem) s.(con) s.(ser) s.(pools) s.(handles) value).

(** [while (ReadKeyStroke(...) != EFI_SUCCESS);] with at most [polls] rounds. *)
Fixpoint wait_key (polls : nat) : M (loader F) unit :=
  match polls with
  | O => kernel_panic "no key was pressed"
  | S n =>
      '(st, _) ← call (fun f => let '(st, f') := ReadKeyStroke f in (st, tt, f'));
      if st =? EFI_SUCCESS then mret tt else wait_key n
  end.

(** ** Stages of [efi_main] *)

(** Up to the vendor string of the firmware. *)
Definition greeting (env : boot_env) : M (loader F) unit :=
  _ ← tell ClearScreen;
  _ ← uefi_println (L "[System] Booted, 1st stage...");
  _ ← uefi_println (L "[System] Machine stats:");
  _ ← uefi_println (L "-----------------------");
  _ ← uefi_print (L "Firmware Vendor: ");
  _ ← output_string env.(be_firmware_vendor);
  output_string crlf.

(** Up to the listing of the graphics devices; [false]: return at once. *)
Definition machine_stats (env : boot_env) : M (loader F) bool :=
  _ ← greeting env;
  vendor16 ← print_cpu env.(be_cpu);
  let a := isCPUVM vendor16 in
  proceed ← (if a =? 1 then mret true else
    _ ← (if a =? 2 then
           uefi_println (L "Failed to recognise CPU, not registered in database.")
         else mret tt);
    pci_scan);
  if (proceed : bool) then _ ← gop_scan; mret true else mret false.

(** What the file stage leaves: the images' addresses and sizes, the loader's
    own image and the extent of the kernel. *)
Record files := mk_files {
  f_kernel_size : Z;
  f_ramdisk_size : Z;
  f_image : loaded_image;
  f_bounds : bounds;
}.

Definition kernelAddr : Z := 0x600000.
Definition ramdisk_addr : Z := 0x300000.

(** The kernel in memory: the test of its magic number, then its segments. *)
Definition parse_kernel (kernelSize ramdisk_size : Z) (image : loaded_image) : M (loader F) (option files) :=
  phdr ← gets (fun s => get_program_headers s.(mem) kernelAddr);
  elf ← gets (fun s => is_elf s.(mem) kernelAddr);
  if negb elf then _ ← uefi_println (L "[-] kernel.elf is not ELF"); mret None else
  _ ← uefi_println (L "[+] Parsing kernel.elf");
  b ←? load_segments kernelAddr phdr;
  _ ← uefi_print (L "Entry = ");
  entry ← gets (fun s => e_entry s.(mem) kernelAddr);
  _ ← uefi_print_hex entry;
  mret (Some (mk_files kernelSize ramdisk_size image b)).

Definition load_files (ImageHandle : Z) (env : boot_env) : M (loader F) (option files) :=
  _ ← uefi_println (L "--- KERNEL ---");
  _ ← uefi_println (L "[+] Loading files...");
  _ ← uefi_print (L "[+] Loading kernel...");
  '(Status, kernelSize, image) ← load_file ImageHandle (Some (L "kernel.elf")) kernelAddr env.(be_image);
  if EFI_ERROR Status then mret None else
  _ ← uefi_println (L "OK");
  _ ← uefi_print (L "[+] Loading ramdisk...");
  '(Status, ramdisk_size, image) ← load_file ImageHandle (Some (L "ramdiskfs.cpio")) ramdisk_addr image;
  if EFI_ERROR Status then mret None else
  _ ← uefi_println (L "OK");
  _ ← uefi_print (L "kernelPhysAddr = ");
  _ ← uefi_print_hex kernelAddr;
  _ ← uefi_print (L "kernelSize = ");
  _ ← uefi_print_hex kernelSize;
  _ ← uefi_print (L "First 8 bytes = ");
  first ← gets (fun s => load_le 8 s.(mem) kernelAddr);
  _ ← uefi_print_hex first;
  parse_kernel kernelSize ramdisk_size image.

(** From the label [gop_end] to the picture. *)
Definition enter_gop (polls : nat) (gop choosenMode : Z) : M (loader F) unit :=
  mode ← gets (fun s => GopMode gop s.(fw));
  _ ← uefi_print (L "[+] Choose mode: ");
  _ ← uefi_print (decimal mode.(Info).(HorizontalResolution) 512);
  _ ← uefi_print (L "x");
  _ ← uefi_println (decimal mode.(Info).(VerticalResolution) 512);
  _ ← uefi_print (L "framebuffer_size=");
  _ ← uefi_print_hex mode.(FrameBufferSize);
  _ ← uefi_print (L "framebuffer_addr=");
  _ ← uefi_print_hex mode.(FrameBufferBase);
  _ ← uefi_println [];
  _ ← uefi_println (L "Press any key to enter kernel...");
  _ ← wait_key polls;
  _ ← uefi_println (L "[+] Entering GOP mode..");
  mode ← gets (fun s => GopMode gop s.(fw));
  (* the status of SetMode is overwritten *)
  _ ← (if mode.(Mode) =? choosenMode then mret tt else
       '(_, _) ← call (fun f => let '(st, f') := SetMode gop choosenMode f in (st, tt, f')); mret tt);
  _ ← tell ClearScreen;
  mode ← gets (fun s => GopMode gop s.(fw));
  let fb := mode.(FrameBufferBase) in
  let width := mode.(Info).(HorizontalResolution) in
  let height := mode.(Info).(VerticalResolution) in
  let pitch := mode.(Info).(PixelsPerScanLine) in
  _ ← on_mem (fill_screen fb width height pitch 0x00102030);
  DrawBMP fb width height pitch
    (if 200 <? width then (width - 200) / 2 else 0)
    (if 200 <? height then (height - 200) / 2 else 0) logo_bmp 4.

(** The status of a call that yields nothing else. *)
Definition check {A : Type} (m : M (loader F) Z) (k : M (loader F) (option A)) : M (loader F) (option A) :=
  Status ← m; if EFI_ERROR Status then mret None else k.

(** The ranges that must stay mapped when CR3 changes. *)
Definition map_handoff (pml4 rsp gop : Z) (image : loaded_image) : M (loader F) (option unit) :=
  check (map_handoff_range pml4 image.(ImageBase) image.(ImageSize)) (
  let stack_start := if 0x10000 <? rsp then rsp - 0x10000 else 0 in
  check (map_handoff_range pml4 stack_start 0x20000) (
  mode ← gets (fun s => GopMode gop s.(fw));
  check (map_handoff_range pml4 mode.(FrameBufferBase) mode.(FrameBufferSize)) (
  mret (Some tt)))).

(** [GetMemoryMap] with a buffer: the map is written there. *)
Definition get_memory_map (size buffer : Z) : M (loader F) map_reply :=
  '(r, _) ← call (fun f => let '(r, f') := GetMemoryMap size (negb (buffer =? 0)) f in (r, tt, f'));
  _ ← (if EFI_ERROR r.(mr_status) || (buffer =? 0) then mret tt else on_mem (store_bytes buffer r.(mr_bytes)));
  mret r.

Definition exit_boot_services (MapKey : Z) : M (loader F) Z :=
  '(st, _) ← call (fun f => let '(st, f') := ExitBootServices MapKey f in (st, tt, f'));
  mret st.

(** From the first [ExitBootServices] to the one that succeeds. *)
Definition leave_firmware (MapKey capacity bootInfo MemoryMap : Z) : M (loader F) (option unit) :=
  Status ← exit_boot_services MapKey;
  if negb (EFI_ERROR Status) then mret (Some tt) else
  _ ← uefi_println (L "[!] ExitBootServices failed");
  r ← get_memory_map capacity MemoryMap;
  if EFI_ERROR r.(mr_status) then
    _ ← uefi_println (L "[!] Memory map refresh failed"); mret None
  else
  _ ← on_mem (store_fields bootInfo [(48, 8%nat, r.(mr_size)); (56, 8%nat, r.(mr_descriptor_size))]);
  Status ← exit_boot_services r.(mr_key);
  if EFI_ERROR Status then
    _ ← uefi_println (L "[!] ExitBootServices retry failed"); mret None
  else mret (Some tt).

(** What [efi_main] writes into the record. *)
Definition new_record (mode : gop_mode) (fs : files) (MemoryMap size descriptor : Z) : BootInfo :=
  let b := fs.(f_bounds) in
  mk_BootInfo BOOTINFOMAGIC
    mode.(FrameBufferBase) mode.(FrameBufferSize)
    mode.(Info).(HorizontalResolution) mode.(Info).(VerticalResolution)
    mode.(Info).(PixelsPerScanLine) mode.(Info).(PixelFormat)
    MemoryMap size descriptor
    b.(phys_start) b.(phys_start) b.(phys_end) b.(virt_start) (u64 (b.(virt_end) - b.(virt_start)))
    ramdisk_addr fs.(f_ramdisk_size).

(** The record, and the firmware left: the record's address. *)
Definition hand_over (gop : Z) (fs : files) : M (loader F) (option Z) :=
  '(Status, bootInfoAddr) ← allocate_pages AllocateMaxAddress (EFI_SIZE_TO_PAGES sizeof_BootInfo) 0xFFFFFFFF;
  if EFI_ERROR Status then
    _ ← uefi_println (L "[!] Failed to allocate pool for bootinfo..."); mret None
  else
  r ← get_memory_map 0 0;
  if negb (r.(mr_status) =? EFI_BUFFER_TOO_SMALL) then
    _ ← uefi_println (L "[!] Memory map size lookup failed"); mret None
  else
  let capacity := u64 (r.(mr_size) + u64 (r.(mr_descriptor_size) * 8)) in
  '(Status, MemoryMap) ← allocate_pages AllocateMaxAddress (EFI_SIZE_TO_PAGES capacity) 0xFFFFFFFF;
  if EFI_ERROR Status then
    _ ← uefi_println (L "[!] Memory map alloc failed"); mret None
  else
  r ← get_memory_map capacity MemoryMap;
  if EFI_ERROR r.(mr_status) then
    _ ← uefi_println (L "[!] Memory map failed"); mret None
  else
  mode ← gets (fun s => GopMode gop s.(fw));
  _ ← on_mem (store_record bootInfoAddr (new_record mode fs MemoryMap r.(mr_size) r.(mr_descriptor_size)));
  _ ← serial_write (L "bootInfo ptr: ");
  _ ← serial_write_hex bootInfoAddr;
  _ ← serial_write (L "magic: ");
  magic ← gets (fun s => load_le 8 s.(mem) bootInfoAddr);
  _ ← serial_write_hex magic;
  _ ←? leave_firmware r.(mr_key) capacity bootInfoAddr MemoryMap;
  mret (Some bootInfoAddr).

(** Everything after the device listings; [None] is [goto panic]. *)
Definition boot_kernel (polls : nat) (ImageHandle : Z) (env : boot_env) : M (loader F) (option boot_end) :=
  _ ← uefi_println (L "--- RAM ---");
  _ ← uefi_println (L "[+] Initializing Virt to Phys passthru" ++ crlf);
  pml4 ←? build_tables;
  fs ←? load_files ImageHandle env;
  x ←? choose_mode env.(be_printGOP);
  let '(gop, choosenMode) := x : Z * Z in
  _ ← enter_gop polls gop choosenMode;
  _ ←? map_handoff pml4 env.(be_rsp) gop fs.(f_image);
  bootInfoAddr ←? hand_over gop fs;
  _ ← serial_write (L "BootInfo address: ");
  _ ← serial_write_hex env.(be_local);
  _ ← serial_write (L "Magic: ");
  magic ← gets (fun s => load_le 8 s.(mem) bootInfoAddr);
  _ ← serial_write_hex magic;
  _ ← write_cr3 pml4;
  _ ← serial_write (L "Booting into kernel..." ++ [10]);
  entry ← gets (fun s => e_entry s.(mem) kernelAddr);
  mret (Some (Entered entry bootInfoAddr)).

Definition efi_main (polls : nat) (ImageHandle : Z) (env : boot_env) : M (loader F) boot_end :=
  proceed ← machine_stats env;
  if negb proceed then mret (Returned EFI_SUCCESS) else
  r ← boot_kernel polls ImageHandle env;
  match r with
  | Some e => mret e
  | None =>
      _ ← uefi_println (L "(panic) Boot process failed, halting...");
      _ ← uefi_println (L "Stopped. Press any key to shutdown.");
      _ ← wait_key polls;
      _ ← tell ResetSystem;
      mret (Returned EFI_SUCCESS)
  end.
End boot.
