(* ===== verification/BootRecord.v ===== *)
(** * The hand-off record in memory: lemmas *)

From S2P Require Import Prelude FromBoot Pmm PageTable Efi EfiFacts BootLib BootPaging BootElf BootGop Boot.

(** Every field fits its width. *)
Record record_ok (b : BootInfo) : Prop := {
  ro_magic : in_u64 b.(magic);
  ro_base : in_u64 b.(framebuffer_base);
  ro_size : in_u64 b.(framebuffer_size);
  ro_width : in_u32 b.(width);
  ro_height : in_u32 b.(height);
  ro_pitch : in_u32 b.(pixels_per_scanline);
  ro_format : in_u32 b.(framebuffer_pixel_format);
  ro_map : in_u64 b.(memory_map);
  ro_map_size : in_u64 b.(memory_map_size);
  ro_descriptor : in_u64 b.(memory_descriptor_size);
  ro_phys : in_u64 b.(kernel_physical_address);
  ro_start : in_u64 b.(kernel_physical_address_start);
  ro_end : in_u64 b.(kernel_physical_address_end);
  ro_virt : in_u64 b.(kernel_virtual_address);
  ro_kernel : in_u64 b.(kernel_size);
  ro_ramdisk : in_u64 b.(initramfs_address);
  ro_ramdisk_size : in_u64 b.(initramfs_size);
}.

(** [memory_map_size] and [memory_descriptor_size] replaced. *)
Definition set_map (size descriptor : Z) (b : BootInfo) : BootInfo :=
  mk_BootInfo b.(magic) b.(framebuffer_base) b.(framebuffer_size) b.(width) b.(height)
    b.(pixels_per_scanline) b.(framebuffer_pixel_format) b.(memory_map) size descriptor
    b.(kernel_physical_address) b.(kernel_physical_address_start) b.(kernel_physical_address_end)
    b.(kernel_virtual_address) b.(kernel_size) b.(initramfs_address) b.(initramfs_size).

Ltac fields := cbn [magic framebuffer_base framebuffer_size width height pixels_per_scanline
  framebuffer_pixel_format memory_map memory_map_size memory_descriptor_size kernel_physical_address
  kernel_physical_address_start kernel_physical_address_end kernel_virtual_address kernel_size
  initramfs_address initramfs_size] in *.

(** A load past stores at distinct fields. *)
Ltac load_stored :=
  repeat first [rewrite load_le_store_le | rewrite load_le_store_out by (cbn [Z.of_nat]; lia)].

Lemma load_store_record a b m : record_ok b -> load_record (store_record a b m) a = b.
Proof.
  intros [H1 H2 H3 H4 H5 H6 H7 H8 H9 H10 H11 H12 H13 H14 H15 H16 H17].
  unfold store_record, store_fields, record_fields, load_record. cbn [fold_left]. rewrite Z.add_0_r.
  destruct b. fields. f_equal; load_stored; apply Z.mod_small; assumption.
Qed.

Lemma load_refreshed a size descriptor m : in_u64 size -> in_u64 descriptor ->
  load_record (store_fields a [(48, 8%nat, size); (56, 8%nat, descriptor)] m) a =
  set_map size descriptor (load_record m a).
Proof.
  intros Hs Hd. unfold store_fields, load_record, set_map. cbn [fold_left]. f_equal; load_stored; try done;
    by apply Z.mod_small.
Qed.

(** The record is all there is to read. *)
Lemma load_record_ext m m' a :
  (forall c, in_bytes a sizeof_BootInfo c = true -> load8 m c = load8 m' c) -> load_record m a = load_record m' a.
Proof.
  intros E. unfold load_record. f_equal; apply load_le_ext; intros j Hj; apply E, in_bytes_spec;
    unfold sizeof_BootInfo; lia.
Qed.

Lemma store_fields_ok a l : forall m, ram_ok m -> ram_ok (store_fields a l m).
Proof.
  induction l as [|[[off n] v] l IH]; intros m Hm; [done|]. cbn [store_fields fold_left] in *.
  by apply IH, store_le_ok.
Qed.

(** Stores within the record leave everything else. *)
Lemma store_fields_out a l c : Forall (fun '(off, n, _) => 0 <= off /\ off + Z.of_nat n <= sizeof_BootInfo) l ->
  forall m, in_bytes a sizeof_BootInfo c = false -> load8 (store_fields a l m) c = load8 m c.
Proof.
  intros Hl m Hc. revert m. induction Hl as [|[[off n] v] l [H0 Hn] Hl IH]; intros m; [done|].
  change (load8 (store_fields a l (store_le n (a + off) v m)) c = load8 m c).
  rewrite IH, load8_store_le. apply in_bytes_false in Hc. by rewrite (proj2 (in_bytes_false _ _ _)) by lia.
Qed.

Lemma record_fields_in b : Forall (fun '(off, n, _) => 0 <= off /\ off + Z.of_nat n <= sizeof_BootInfo) (record_fields b).
Proof. unfold record_fields, sizeof_BootInfo. repeat (apply Forall_cons_2; [lia|]). by apply Forall_nil_2. Qed.
