(* ===== verification/BootFacts.v ===== *)
(** * The stages of the loader: what they leave alone

    [tame m]: [m] comes to an end without a fault, and the pages that were owned
    keep their owner and contents. *)

From S2P Require Import Prelude Pmm PageTable Efi EfiFacts BootLib BootPaging BootElf BootElfFacts BootElfTheorems BootGop LogoData Boot.

Create HintDb tame.

Notation from := (keeps (fun _ => False)).

Section firmware.
Context {F : Type} `{HL : FirmwareLaws F}.

Definition tame {A : Type} (m : M (loader F) A) : Prop :=
  forall s, exists a s', m s = Done (a, s') /\ from s s'.

Lemma tame_bind {A B : Type} (m : M (loader F) A) (f : A -> M (loader F) B) :
  tame m -> (forall a, tame (f a)) -> tame (m ≫= f).
Proof.
  intros Hm Hf s. destruct (Hm s) as (a & t & E & K). rewrite (bind_eq _ _ _ _ _ E).
  destruct (Hf a t) as (b & u & Eu & Ku). exists b, u. split; [done|by transitivity t].
Qed.

Lemma tame_ret {A : Type} (a : A) : tame (mret a).
Proof. intros s. by exists a, s. Qed.

Lemma tame_gets {A : Type} (f : loader F -> A) : tame (gets f).
Proof. intros s. by exists (f s), s. Qed.

Lemma quiet_from s s' : quiet s s' -> from s s'.
Proof. apply quiet_keeps. Qed.

Lemma tame_call {A : Type} (service : F -> A * F) :
  (forall f q, owned (service f).2 q = owned f q) -> tame (call service).
Proof.
  intros Ho s. destruct (call_quiet service s Ho) as (s' & -> & Q).
  do 2 eexists. split; [done|by apply quiet_from].
Qed.

Lemma tame_tell (service : F -> F) : (forall f q, owned (service f) q = owned f q) -> tame (tell service).
Proof.
  intros Ho s. destruct (tell_quiet service s Ho) as (s' & -> & Q).
  do 2 eexists. split; [done|by apply quiet_from].
Qed.

Lemma tame_output str : tame (output_string str).
Proof.
  intros s. destruct (output_quiet str s) as (s' & -> & Q).
  do 2 eexists. split; [done|by apply quiet_from].
Qed.

Lemma tame_attempt {A B : Type} (m : M (loader F) (option A)) (k : A -> M (loader F) (option B)) :
  tame m -> (forall a, tame (k a)) -> tame (attempt m k).
Proof.
  intros Hm Hk. apply tame_bind; [done|]. intros [a|]; [apply Hk|apply tame_ret].
Qed.

(** Ownership-preserving services with a wrapped result. *)
Lemma tame_call_fst {A : Type} (service : F -> A * F) :
  (forall f q, owned (service f).2 q = owned f q) ->
  tame (call (fun f => let '(a, f') := service f in (a, tt, f'))).
Proof.
  intros Ho. apply tame_call. intros f q. specialize (Ho f q). by destruct (service f).
Qed.
End firmware.

#[export] Hint Resolve tame_ret tame_gets tame_output : tame.

(** Runs through the binds and branches of a stage. *)
Ltac tame_steps := repeat first [progress intros|
  lazymatch goal with
  | |- tame (mbind _ _) => apply tame_bind
  | |- tame (attempt _ _) => apply tame_attempt
  | |- tame (let '(_, _) := ?x in _) => destruct x
  | |- tame (if ?b then _ else _) => destruct b
  | |- tame (match ?x with Some _ => _ | None => _ end) => destruct x
  | |- tame (call _) => first [apply tame_call; intros; autorewrite with firmware; done | apply tame_call_fst; intros; autorewrite with firmware; done]
  | |- tame (tell _) => apply tame_tell; intros; autorewrite with firmware; done
  | |- tame _ => solve [auto with tame nocore]
  end].

Section stages.
Context {F : Type} `{HL : FirmwareLaws F}.

Lemma tame_println str : tame (uefi_println str).
Proof. unfold uefi_println. tame_steps. Qed.
Hint Resolve tame_println : tame.
Lemma tame_print str : tame (uefi_print str).
Proof. unfold uefi_print. tame_steps. Qed.
Hint Resolve tame_print : tame.
Lemma tame_print_hex v : tame (uefi_print_hex v).
Proof. unfold uefi_print_hex. tame_steps. Qed.
Hint Resolve tame_print_hex : tame.
Lemma tame_stats i : tame (printGOPStats i).
Proof. unfold printGOPStats. tame_steps. Qed.
Hint Resolve tame_stats : tame.

Lemma tame_each {A : Type} (body : Z -> A -> M (loader F) unit) l :
  (forall i a, tame (body i a)) -> forall i, tame (each body i l).
Proof. intros Hb. induction l as [|a l IH]; intros i; cbn [each]; tame_steps. Qed.

Lemma tame_pci_device h : tame (pci_device h).
Proof. unfold pci_device. tame_steps. Qed.
Hint Resolve tame_pci_device : tame.

Lemma tame_pci_scan : tame pci_scan.
Proof. unfold pci_scan. tame_steps. apply tame_each. tame_steps. Qed.
Hint Resolve tame_pci_scan : tame.

Lemma tame_gop_device i h : tame (gop_device i h).
Proof. unfold gop_device. tame_steps. Qed.
Hint Resolve tame_gop_device : tame.

Lemma tame_gop_scan : tame gop_scan.
Proof. unfold gop_scan. tame_steps. apply tame_each. tame_steps. Qed.
Hint Resolve tame_gop_scan : tame.

(** ** The processor, and what is written through the null pointers *)

(** The stores of [__get_cpuid] are page faults. *)
Definition null_faults (env : cpu_env) : bool :=
  negb env.(ce_page0) && match env.(ce_cpuid) 0x80000000 with Some _ => true | None => false end.

(** Memory after them. *)
Definition null_written (env : cpu_env) (s : loader F) : loader F :=
  match env.(ce_cpuid) 0x80000000 with
  | None => s
  | Some (_, ebx, ecx, edx) => set_mem (store_le 4 0 edx (store_le 4 0 ecx (store_le 4 0 ebx s.(mem)))) s
  end.

Lemma null_written_fw env s : (null_written env s).(fw) = s.(fw).
Proof. unfold null_written. by destruct (ce_cpuid env 0x80000000) as [[[[a b] c] d]|]. Qed.

Lemma null_written_ok env s : ram_ok s.(mem) -> ram_ok (null_written env s).(mem).
Proof.
  intros Hs. unfold null_written. destruct (ce_cpuid env 0x80000000) as [[[[a b] c] d]|]; [|done].
  cbn [mem set_mem]. by do 3 apply store_le_ok.
Qed.

Lemma null_written_quiet env s t : quiet s t -> from (null_written env s) (null_written env t).
Proof.
  intros [O Em _ _ _]. apply keeps_fw; [intros q; by rewrite !null_written_fw|].
  unfold null_written. destruct (ce_cpuid env 0x80000000) as [[[[a b] c] d]|]; [|done].
  cbn [mem set_mem]. by rewrite Em.
Qed.

Lemma get_max_ext_run env s : get_max_ext env s =
  if null_faults env then Fault else
  Done (match env.(ce_cpuid) 0x80000000 with Some (eax, _, _, _) => eax | None => env.(ce_max_ext) end,
    null_written env s).
Proof.
  unfold get_max_ext, null_faults, null_written, store_null.
  destruct (ce_cpuid env 0x80000000) as [[[[a b] c] d]|]; [|by rewrite andb_false_r].
  by destruct (ce_page0 env).
Qed.

Lemma print_cpu_run env s :
  if null_faults env then print_cpu env s = Fault
  else exists v t, print_cpu env s = Done (v, t) /\ from (null_written env s) t.
Proof.
  unfold print_cpu. destruct (null_faults env) eqn:E; unfold mbind at 1, M_bind at 1;
    rewrite get_max_ext_run, E; [done|].
  set (max_ext := match _ with Some _ => _ | None => _ end). clearbody max_ext.
  match goal with |- exists v t, ?m (null_written env s) = _ /\ _ => assert (tame m) as Ht; [|exact (Ht _)] end.
  tame_steps.
Qed.

Lemma greeting_quiet env s : exists t, greeting (F := F) env s = Done (tt, t) /\ quiet s t.
Proof.
  unfold greeting.
  destruct (tell_quiet ClearScreen s fl_clear) as (s1 & E1 & Q1). rewrite (bind_eq _ _ _ _ _ E1).
  destruct (println_quiet (L "[System] Booted, 1st stage...") s1) as (s2 & E2 & Q2). rewrite (bind_eq _ _ _ _ _ E2).
  destruct (println_quiet (L "[System] Machine stats:") s2) as (s3 & E3 & Q3). rewrite (bind_eq _ _ _ _ _ E3).
  destruct (println_quiet (L "-----------------------") s3) as (s4 & E4 & Q4). rewrite (bind_eq _ _ _ _ _ E4).
  destruct (output_quiet (L "Firmware Vendor: ") s4) as (s5 & E5 & Q5). unfold uefi_print at 1. rewrite (bind_eq _ _ _ _ _ E5).
  destruct (output_quiet env.(be_firmware_vendor) s5) as (s6 & E6 & Q6). rewrite (bind_eq _ _ _ _ _ E6).
  destruct (output_quiet crlf s6) as (s7 & E7 & Q7). exists s7. split; [done|].
  do 6 (etransitivity; [eassumption|]). done.
Qed.

Lemma machine_stats_run env s :
  if null_faults env.(be_cpu) then machine_stats env s = Fault
  else exists go t, machine_stats env s = Done (go, t) /\ from (null_written env.(be_cpu) s) t.
Proof.
  unfold machine_stats. destruct (greeting_quiet env s) as (s1 & E1 & Q1). rewrite (bind_eq _ _ _ _ _ E1).
  pose proof (print_cpu_run env.(be_cpu) s1) as Hp. destruct (null_faults env.(be_cpu)).
  { unfold mbind, M_bind. by rewrite Hp. }
  destruct Hp as (v & s2 & E2 & K2). rewrite (bind_eq _ _ _ _ _ E2). cbv zeta.
  assert (from (null_written env.(be_cpu) s) s2) as K by (etransitivity; [by apply null_written_quiet|exact K2]).
  match goal with |- exists go t, ?m s2 = _ /\ _ => assert (tame m) as Ht by tame_steps end.
  destruct (Ht s2) as (go & t & -> & Kt). exists go, t. split; [done|by transitivity s2].
Qed.
End stages.
