(* ===== verification/BootGopFacts.v ===== *)
(** * The choice of the graphics mode: lemmas and theorem *)

From S2P Require Import Prelude Pmm PageTable Efi EfiFacts BootLib BootPaging BootGop.

(** The modes of a device do not change: [mode_at g i] is what [QueryMode]
    reports for mode [i], [None] when it fails. *)
Class GopLaws (F : Type) `{FirmwareLaws F} := {
  mode_at : Z -> Z -> option mode_info;
  gl_query : forall g i f, let '(st, _, info) := (QueryMode g i f).1 in
    mode_at g i = if EFI_ERROR st then None else Some info;
}.

Section firmware.
Context {F : Type} `{HG : GopLaws F}.

(** ** Printing *)

(** Memory, ownership, resources and the graphics modes stay. *)
Record still (s s' : loader F) : Prop := {
  st_quiet : quiet s s';
  st_mode : forall g, GopMode g s'.(fw) = GopMode g s.(fw);
}.

#[export] Instance still_preorder : PreOrder still.
Proof.
  split; [by constructor|]. intros s t u [Q1 M1] [Q2 M2].
  constructor; [by etransitivity|intros g; by rewrite M2, M1].
Qed.

Definition prints (m : M (loader F) unit) : Prop :=
  forall s, exists s', m s = Done (tt, s') /\ still s s'.

Lemma prints_output str : prints (output_string str).
Proof.
  intros s. destruct (output_quiet str s) as (s' & E & Q). exists s'. split; [done|]. split; [done|].
  injection E as <-. intros g. apply fl_gop_output.
Qed.

Lemma prints_seq (m k : M (loader F) unit) : prints m -> prints k -> prints (_ ← m; k).
Proof.
  intros Hm Hk s. destruct (Hm s) as (t & E & S1). rewrite (bind_eq _ _ _ _ _ E).
  destruct (Hk t) as (u & -> & S2). exists u. split; [done|by etransitivity].
Qed.

Lemma prints_skip : prints (mret tt).
Proof. intros s. by exists s. Qed.

Lemma prints_println str : prints (uefi_println str).
Proof. apply prints_seq; apply prints_output. Qed.

Lemma prints_free b : prints (tell (FreePool b)).
Proof.
  intros s. destruct (tell_quiet (FreePool b) s) as (s' & E & Q); [intros; apply fl_free|].
  exists s'. split; [done|]. split; [done|]. injection E as <-. intros g. apply fl_gop_free.
Qed.

Lemma prints_stats info : prints (printGOPStats info).
Proof.
  unfold printGOPStats, uefi_print.
  repeat lazymatch goal with
  | |- prints (uefi_println _) => apply prints_println
  | |- prints (output_string _) => apply prints_output
  | |- prints (mbind _ _) => apply prints_seq
  end.
Qed.

(** ** The loop *)

Section choice.
Context (g : Z) (monitor : option (Z * Z)).

(** A mode with a linear frame buffer, and one the loop stops at. *)
Definition usable (i : Z) : bool :=
  match mode_at g i with Some info => linear info | None => false end.
Definition preferred (i : Z) : bool :=
  match mode_at g i with
  | Some info => linear info &&
      (match monitor with
       | Some (h, v) => (info.(HorizontalResolution) =? h) && (info.(VerticalResolution) =? v)
       | None => false
       end
       || (info.(HorizontalResolution) =? 1920) && (info.(VerticalResolution) =? 1080))
  | None => false
  end.

Definition first (P : Z -> bool) (i : Z) : Prop :=
  0 <= i /\ P i = true /\ forall j, 0 <= j < i -> P j = false.

(** The choice among the modes below [n]. *)
Inductive picks (n : Z) : pick -> Prop :=
  | pick_preferred i : i < n -> first preferred i -> picks n (mk_pick true i)
  | pick_first i : i < n -> first usable i -> (forall j, 0 <= j < n -> preferred j = false) ->
      picks n (mk_pick true i)
  | pick_none c : (forall j, 0 <= j < n -> usable j = false) -> picks n (mk_pick false c).

Lemma preferred_usable i : preferred i = true -> usable i = true.
Proof. unfold preferred, usable. destruct (mode_at g i); [|done]. intros [? _]%andb_true_iff. done. Qed.

(** What one round does to the choice. *)
Lemma query_mode_spec i printGOP p s :
  exists s', query_mode g i printGOP true monitor p s =
    Done ((preferred i, if preferred i then mk_pick true i
                        else if usable i then (if p.(foundMode) then p else mk_pick true i) else p), s') /\
    still s s'.
Proof.
  unfold query_mode. pose proof (gl_query g i s.(fw)) as Hq.
  destruct (call_quiet (QueryMode g i) s) as (s1 & E1 & Q1); [intros; apply fl_query|].
  assert (still s s1) as S1.
  { split; [done|]. intros h. unfold call in E1. destruct (QueryMode g i s.(fw)) as [a f] eqn:Eq.
    injection E1 as <-. cbn. pose proof (fl_gop_query h g i s.(fw)) as Hg. by rewrite Eq in Hg. }
  rewrite (bind_eq _ _ _ _ _ E1). unfold preferred, usable. clear E1 Q1.
  destruct (QueryMode g i s.(fw)).1 as [[st ptr] info]. rewrite Hq.
  destruct (EFI_ERROR st); [by exists s1|].
  unfold uefi_print.
  destruct (prints_output [9] s1) as (s2 & E2 & S2). rewrite (bind_eq _ _ _ _ _ E2).
  destruct (prints_output (decimal info.(HorizontalResolution) 512) s2) as (s3 & E3 & S3).
  rewrite (bind_eq _ _ _ _ _ E3).
  destruct (prints_output (L "x") s3) as (s4 & E4 & S4). rewrite (bind_eq _ _ _ _ _ E4).
  destruct (prints_println (decimal info.(VerticalResolution) 512) s4) as (s5 & E5 & S5).
  rewrite (bind_eq _ _ _ _ _ E5).
  assert (exists s6, (if negb (printGOP =? 0) then printGOPStats info else mret tt) s5 = Done (tt, s6) /\ still s5 s6)
    as (s6 & E6 & S6) by (destruct (printGOP =? 0); [apply prints_skip|apply prints_stats]).
  rewrite (bind_eq _ _ _ _ _ E6).
  destruct (prints_free ptr s6) as (s7 & E7 & S7).
  assert (still s s7) as S by (do 6 (etransitivity; [eassumption|]); done). exists s7.
  destruct (linear info); cbn [negb andb]; [|by rewrite (bind_eq _ _ _ _ _ E7)].
  destruct (match monitor with Some _ => _ | None => _ end); cbn [orb].
  { rewrite (bind_eq _ _ _ _ _ E7). split; [|done]. by destruct p as [[] ?]. }
  destruct (info.(HorizontalResolution) =? 1920), (info.(VerticalResolution) =? 1080); cbn [andb];
    rewrite (bind_eq _ _ _ _ _ E7); (split; [|done]); by destruct p as [[] ?].
Qed.

Lemma mode_loop_spec printGOP fuel : forall i p s,
  0 <= i <= (GopMode g s.(fw)).(MaxMode) -> (GopMode g s.(fw)).(MaxMode) - i <= Z.of_nat fuel ->
  (if p.(foundMode) then first usable p.(choosenMode) /\ p.(choosenMode) < i
   else forall j, 0 <= j < i -> usable j = false) ->
  (forall j, 0 <= j < i -> preferred j = false) ->
  exists p' s', mode_loop fuel g i printGOP true monitor p s = Done (p', s') /\ still s s' /\
    picks (GopMode g s.(fw)).(MaxMode) p'.
Proof.
  induction fuel as [|fuel IH]; intros i p s Hi Hf Hp Hn; cbn [mode_loop];
    rewrite (bind_eq _ _ _ _ _ (gets_eq _ s)); cbv beta;
    destruct (Z.ltb_spec i (GopMode g s.(fw)).(MaxMode)) as [Hlt|Hge]; cbn [negb]; [lia| | |];
    try (exists p, s; split_and!; [done|done|]; replace (GopMode g s.(fw)).(MaxMode) with i by lia;
      destruct p as [[] c]; cbn in Hp; [destruct Hp; by apply pick_first|by apply pick_none]).
  destruct (query_mode_spec i printGOP p s) as (s1 & E1 & S1). rewrite (bind_eq _ _ _ _ _ E1).
  destruct (preferred i) eqn:Ep.
  { do 2 eexists. split_and!; [done|done|]. apply pick_preferred; [done|]. split_and!; [lia|done|done]. }
  rewrite <-(st_mode _ _ S1 g) in *.
  destruct (IH (i + 1) (if usable i then if p.(foundMode) then p else mk_pick true i else p) s1)
    as (p' & s' & E & S2 & Hpk); [lia|lia| | |].
  - destruct p as [[] c]; cbn [foundMode choosenMode] in *.
    + destruct Hp as [Hp Hc]. destruct (usable i); cbn; (split; [done|lia]).
    + destruct (usable i) eqn:Eu; cbn [foundMode choosenMode].
      * split; [|lia]. split_and!; [lia|done|done].
      * intros j Hj. destruct (decide (j = i)) as [->|]; [done|]. apply Hp. lia.
  - intros j Hj. destruct (decide (j = i)) as [->|]; [done|]. apply Hn. lia.
  - exists p', s'. split_and!; [done|by etransitivity|done].
Qed.
End choice.

(** The result of [pick_mode]: a panic without a linear mode; the active mode
    without a monitor; else the first preferred mode or the first linear one. *)
Definition picked (g : Z) (mode : gop_mode) (monitor : option (Z * Z * Z)) (r : option Z) : Prop :=
  match r with
  | None => forall j, 0 <= j < mode.(MaxMode) -> usable g j = false
  | Some m =>
      (exists i, 0 <= i < mode.(MaxMode) /\ usable g i = true) /\
      match monitor with
      | None => m = mode.(Mode)
      | Some (h, v, _) =>
          m < mode.(MaxMode) /\
          (first (preferred g (Some (h, v))) m \/
           first (usable g) m /\ forall j, 0 <= j < mode.(MaxMode) -> preferred g (Some (h, v)) j = false)
      end
  end.

(** The end of [pick_mode]. *)
Lemma finish_pick g (monitor : option (Z * Z * Z)) m s :
  exists r s', (match monitor with
    | None =>
        mode ← gets (fun s => GopMode g s.(fw));
        mret (Some mode.(Mode))
    | Some (HActive, VActive, RefreshHz) =>
        _ ← uefi_println (L "--- Monitor ---");
        _ ← uefi_print (L "Refresh rate: ");
        _ ← uefi_println (decimal RefreshHz 64);
        _ ← uefi_print (L "Resolution: ");
        _ ← uefi_print (decimal HActive 32);
        _ ← uefi_print (L "x");
        _ ← uefi_print (decimal VActive 32);
        mret (Some m)
    end) s = Done (r, s') /\ still s s' /\
    r = match monitor with None => Some (GopMode g s.(fw)).(Mode) | Some _ => Some m end.
Proof.
  destruct monitor as [[[h v] rate]|]; [|by do 2 eexists]. unfold uefi_print.
  destruct (prints_println (L "--- Monitor ---") s) as (s1 & E1 & S1). rewrite (bind_eq _ _ _ _ _ E1).
  destruct (prints_output (L "Refresh rate: ") s1) as (s2 & E2 & S2). rewrite (bind_eq _ _ _ _ _ E2).
  destruct (prints_println (decimal rate 64) s2) as (s3 & E3 & S3). rewrite (bind_eq _ _ _ _ _ E3).
  destruct (prints_output (L "Resolution: ") s3) as (s4 & E4 & S4). rewrite (bind_eq _ _ _ _ _ E4).
  destruct (prints_output (decimal h 32) s4) as (s5 & E5 & S5). rewrite (bind_eq _ _ _ _ _ E5).
  destruct (prints_output (L "x") s5) as (s6 & E6 & S6). rewrite (bind_eq _ _ _ _ _ E6).
  destruct (prints_output (decimal v 32) s6) as (s7 & E7 & S7). rewrite (bind_eq _ _ _ _ _ E7).
  do 2 eexists. split_and!; [done| |done]. do 6 (etransitivity; [eassumption|]). done.
Qed.

Lemma pick_mode_picked g printGOP monitor s :
  exists r s', pick_mode g printGOP monitor s = Done (r, s') /\ still s s' /\
    picked g (GopMode g s.(fw)) monitor r.
Proof.
  unfold pick_mode. destruct (prints_println (L "Modes available: ") s) as (s1 & E1 & S1).
  rewrite (bind_eq _ _ _ _ _ E1), (bind_eq _ _ _ _ _ (gets_eq _ s1)). cbv beta.
  rewrite <-(st_mode _ _ S1 g).
  assert (0 <= (GopMode g s1.(fw)).(MaxMode)) as Hmax by (destruct (fl_gop_types g s1.(fw)); lia).
  destruct (mode_loop_spec g (fst <$> monitor) printGOP (Z.to_nat (GopMode g s1.(fw)).(MaxMode)) 0 (mk_pick false 0) s1)
    as (p & s2 & E2 & S2 & Hp); [lia|lia|cbn; intros; lia|intros; lia|].
  rewrite (bind_eq _ _ _ _ _ E2).
  assert (still s s2) as S12 by (by etransitivity).
  destruct Hp as [i Hi Hpre|i Hi Hfst Hno|c Hno]; cbn [foundMode choosenMode negb].
  3:{ destruct (prints_println (L "[!] No supported linear framebuffer mode.") s2) as (s3 & E3 & S3).
      rewrite (bind_eq _ _ _ _ _ E3). do 2 eexists. split_and!; [done|by etransitivity|done]. }
  all: destruct (prints_println (L "Mode was choosen..") s2) as (s3 & E3 & S3);
    rewrite (bind_eq _ _ _ _ _ E3); assert (still s s3) as S13 by (by etransitivity);
    destruct (finish_pick g monitor i s3) as (r & s4 & E4 & S4 & Hr);
    exists r, s4; (split; [exact E4|split; [by etransitivity|]]);
    rewrite (st_mode _ _ S3 g), (st_mode _ _ S2 g) in Hr.
  - assert (usable g i = true) by (apply (preferred_usable g (fst <$> monitor)), Hpre).
    destruct Hpre as (Hi0 & Hpre & Hmin). destruct monitor as [[[h v] rate]|]; subst r; cbn.
    + split; [by exists i|]. split; [done|by left].
    + split; [by exists i|done].
  - destruct Hfst as (Hi0 & Hu & Hmin). destruct monitor as [[[h v] rate]|]; subst r; cbn.
    + split; [by exists i|]. split; [done|by right].
    + split; [by exists i|done].
Qed.
End firmware.
#[export] Existing Instance still_preorder.
