(* ===== verification/BootDraw.v ===== *)
(** * What the loader draws: lemmas and theorem *)

From S2P Require Import Prelude Efi EfiFacts BootLib BootPaging BootGop LogoData.

Section frame.
(** A frame buffer at [fb]: [height] rows of [pitch] pixels, [width] of which
    are visible. *)
Context (fb width height pitch : Z).
Context (Hw : 0 <= width <= pitch) (Hh : 0 <= height) (Hfit : height * pitch < 2 ^ 62).

Definition pixel (m : gmap Z Z) (X Y : Z) : Z := load_le 4 m (fb + 4 * (Y * pitch + X)).

Definition in_frame (a : Z) : Prop := fb <= a < fb + 4 * (height * pitch).

(** [m'] is [m] with the pixels repainted that [C] gives a colour. *)
Record painted (C : Z -> Z -> option Z) (m m' : gmap Z Z) : Prop := {
  pt_pixel : forall X Y, 0 <= X < pitch -> 0 <= Y < height ->
    pixel m' X Y = match C X Y with Some c => c | None => pixel m X Y end;
  pt_outside : forall a, ~ in_frame a -> load8 m' a = load8 m a;
  pt_ok : ram_ok m -> ram_ok m';
}.

Lemma painted_id m : painted (fun _ _ => None) m m.
Proof. by constructor. Qed.

Lemma painted_over C1 C2 C m1 m2 m3 : painted C1 m1 m2 -> painted C2 m2 m3 ->
  (forall X Y, 0 <= X < pitch -> 0 <= Y < height ->
    C X Y = match C2 X Y with Some c => Some c | None => C1 X Y end) ->
  painted C m1 m3.
Proof.
  intros [P1 O1 R1] [P2 O2 R2] E. constructor; [| |auto].
  - intros X Y HX HY. rewrite P2, E by done. destruct (C2 X Y); [done|]. by apply P1.
  - intros a Ha. by rewrite O2, O1.
Qed.

Lemma load32_put32 m i j c : 0 <= c < 2 ^ 32 ->
  load_le 4 (put32 fb i c m) (fb + 4 * j) = if j =? i then c else load_le 4 m (fb + 4 * j).
Proof.
  intros Hc. unfold put32. destruct (Z.eqb_spec j i) as [->|Hne].
  - cbn [load_le]. rewrite !load8_store_le. unfold in_bytes. cbn [Z.of_nat].
    repeat (rewrite (proj2 (Z.leb_le _ _)), (proj2 (Z.ltb_lt _ _)) by lia). cbn [andb].
    replace (fb + 4 * i - (fb + 4 * i)) with 0 by lia.
    replace (fb + 4 * i + 1 - (fb + 4 * i)) with 1 by lia.
    replace (fb + 4 * i + 1 + 1 - (fb + 4 * i)) with 2 by lia.
    replace (fb + 4 * i + 1 + 1 + 1 - (fb + 4 * i)) with 3 by lia.
    change (256 ^ 0) with 1. change (256 ^ 1) with 256. change (256 ^ 2) with 65536.
    change (256 ^ 3) with 16777216. Z.div_mod_to_equations. lia.
  - apply load_le_ext. intros k Hk. rewrite load8_store_le.
    rewrite (proj2 (in_bytes_false _ _ _)) by lia. done.
Qed.

Lemma pixel_unique X Y X' Y' : 0 <= X < pitch -> 0 <= X' < pitch ->
  Y * pitch + X = Y' * pitch + X' -> X = X' /\ Y = Y'.
Proof.
  intros HX HX' E. assert (Y = Y') as ->; [|lia].
  assert (forall A B, 0 <= B < pitch -> (A * pitch + B) / pitch = A) as Hd.
  { intros A B HB. symmetry. apply (Z.div_unique_pos _ _ _ B); lia. }
  by rewrite <-(Hd Y X HX), <-(Hd Y' X' HX'), E.
Qed.

Lemma painted_put X0 Y0 c m : 0 <= X0 < pitch -> 0 <= Y0 < height -> 0 <= c < 2 ^ 32 ->
  painted (fun X Y => if (X =? X0) && (Y =? Y0) then Some c else None) m
    (put32 fb (u64 (Y0 * pitch + X0)) c m).
Proof.
  intros HX HY Hc. assert (0 <= Y0 * pitch + X0 < height * pitch) as Hin by nia.
  rewrite u64_id by (unfold in_u64; lia). constructor.
  - intros X Y HX' HY'. unfold pixel. rewrite load32_put32 by done.
    destruct (Z.eqb_spec (Y * pitch + X) (Y0 * pitch + X0)) as [E|E].
    + destruct (pixel_unique X Y X0 Y0) as [-> ->]; [done..|]. by rewrite !Z.eqb_refl.
    + destruct (Z.eqb_spec X X0), (Z.eqb_spec Y Y0); cbn [andb]; [congruence|done..].
  - intros a Ha. unfold put32. rewrite load8_store_le.
    rewrite (proj2 (in_bytes_false _ _ _)); [done|]. unfold in_frame in Ha. lia.
  - apply store_le_ok.
Qed.

(** ** Loops *)

Lemma painted_for (R B : Z -> Z -> Z -> option Z) (body : Z -> gmap Z Z -> gmap Z Z) n m :
  (forall k m, 0 <= k < Z.of_nat n -> painted (B k) m (body k m)) ->
  (forall X Y, 0 <= X < pitch -> 0 <= Y < height -> R 0 X Y = None) ->
  (forall k X Y, 0 <= k < Z.of_nat n -> 0 <= X < pitch -> 0 <= Y < height ->
    R (k + 1) X Y = match B k X Y with Some c => Some c | None => R k X Y end) ->
  painted (R (Z.of_nat n)) m (for_up n 0 body m).
Proof.
  intros Hb H0 Hs.
  assert (forall j, (j <= n)%nat -> painted (R (Z.of_nat j)) m (for_up j 0 body m)) as Hj; [|by apply Hj].
  induction j as [|j IH]; intros Hj.
  - cbn. apply (painted_over _ _ _ _ _ _ (painted_id m) (painted_id m)). intros X Y HX HY. by rewrite H0.
  - rewrite for_up_S_r. eapply painted_over; [apply IH; lia|apply Hb; lia|].
    intros X Y HX HY. rewrite Nat2Z.inj_succ, <-Z.add_1_r, Z.add_0_l. apply Hs; lia.
Qed.

Lemma fill_screen_painted c m : 0 <= c < 2 ^ 32 ->
  painted (fun X Y => if X <? width then Some c else None) m (fill_screen fb width height pitch c m).
Proof.
  intros Hc. unfold fill_screen.
  assert (forall y m, 0 <= y < height -> painted (fun X Y => if (X <? width) && (Y =? y) then Some c else None) m
    (for_up (Z.to_nat width) 0 (fun x m => put32 fb (u64 (y * pitch + x)) c m) m)) as Hrow.
  { intros y m' Hy.
    pose proof (painted_for (fun k X Y => if (X <? k) && (Y =? y) then Some c else None)
      (fun x X Y => if (X =? x) && (Y =? y) then Some c else None)
      (fun x m => put32 fb (u64 (y * pitch + x)) c m) (Z.to_nat width) m') as Hp.
    rewrite Z2Nat.id in Hp by lia. apply Hp.
    - intros k m'' Hk. apply painted_put; lia.
    - intros X Y HX HY. by rewrite (proj2 (Z.ltb_ge _ _)) by lia.
    - intros k X Y Hk HX HY. destruct (Y =? y); rewrite ?andb_true_r, ?andb_false_r; [|done].
      destruct (Z.ltb_spec X (k + 1)), (Z.eqb_spec X k), (Z.ltb_spec X k); done || lia. }
  pose proof (painted_for (fun k X Y => if (X <? width) && (Y <? k) then Some c else None)
    (fun y X Y => if (X <? width) && (Y =? y) then Some c else None)
    (fun y m => for_up (Z.to_nat width) 0 (fun x m => put32 fb (u64 (y * pitch + x)) c m) m)
    (Z.to_nat height) m) as Hp.
  rewrite Z2Nat.id in Hp by lia. eapply painted_over; [apply painted_id|apply Hp|].
  - intros k m' Hk. by apply Hrow.
  - intros X Y HX HY. by rewrite (proj2 (Z.ltb_ge Y 0)), andb_false_r by lia.
  - intros k X Y Hk HX HY. destruct (X <? width); cbn [andb]; [|done].
    destruct (Z.ltb_spec Y (k + 1)), (Z.eqb_spec Y k), (Z.ltb_spec Y k); done || lia.
  - intros X Y HX HY. cbv beta. rewrite (proj2 (Z.ltb_lt Y height)), andb_true_r by lia. by destruct (X <? width).
Qed.

(** The same for loops of the loader's monad that only write memory. *)
Definition draws {F : Type} (m : M (loader F) unit) (C : Z -> Z -> option Z) : Prop :=
  forall s, exists mem', m s = Done (tt, set_mem mem' s) /\ painted C s.(mem) mem'.

Lemma draws_iff {F : Type} (m : M (loader F) unit) C C' :
  (forall X Y, 0 <= X < pitch -> 0 <= Y < height -> C X Y = C' X Y) -> draws m C -> draws m C'.
Proof.
  intros E Hm s. destruct (Hm s) as (m' & -> & P). exists m'. split; [done|].
  eapply painted_over; [apply painted_id|exact P|]. intros X Y HX HY. rewrite <-E by done.
  by destruct (C X Y).
Qed.

Lemma draws_for {F : Type} (R B : Z -> Z -> Z -> option Z) (body : Z -> M (loader F) unit) n :
  (forall k, 0 <= k < n -> draws (body k) (B k)) ->
  (forall X Y, 0 <= X < pitch -> 0 <= Y < height -> R 0 X Y = None) ->
  (forall k X Y, 0 <= k < n -> 0 <= X < pitch -> 0 <= Y < height ->
    R (k + 1) X Y = match B k X Y with Some c => Some c | None => R k X Y end) ->
  0 <= n -> draws (for_upM (Z.to_nat n) 0 body) (R n).
Proof.
  intros Hb H0 Hs Hn.
  assert (forall (l : nat) i s, 0 <= i -> i + Z.of_nat l = n -> forall m0, painted (R i) m0 s.(mem) ->
    exists m', for_upM l i body s = Done (tt, set_mem m' s) /\ painted (R n) m0 m') as Hl.
  { induction l as [|l IH]; intros i s Hi Hl m0 Hp; cbn [for_upM].
    - exists s.(mem). assert (i = n) as -> by lia. split; [by destruct s|done].
    - destruct (Hb i ltac:(lia) s) as (m1 & E1 & P1). rewrite (bind_eq _ _ _ _ _ E1).
      destruct (IH (i + 1) (set_mem m1 s) ltac:(lia) ltac:(lia) m0) as (m2 & E2 & P2).
      { eapply painted_over; [exact Hp|exact P1|]. intros X Y HX HY. apply Hs; [lia|done..]. }
      by exists m2. }
  intros s. apply (Hl (Z.to_nat n) 0 s); [lia|lia|].
  eapply painted_over; [apply painted_id|apply painted_id|]. intros X Y HX HY. by rewrite H0.
Qed.

(** ** The picture *)

(** The square of a bitmap pixel. *)
Definition in_block (posX posY scale x y X Y : Z) : bool :=
  (posX + x * scale <=? X) && (X <? posX + x * scale + scale) &&
  (posY + y * scale <=? Y) && (Y <? posY + y * scale + scale) && (X <? width) && (Y <? height).

Lemma draw_block_draws {F : Type} posX posY scale x y color :
  0 <= posX -> 0 <= posY -> 0 < scale -> 0 <= x -> 0 <= y ->
  posX + x * scale + scale < 2 ^ 63 -> posY + y * scale + scale < 2 ^ 63 -> 0 <= color < 2 ^ 32 ->
  draws (F := F) (draw_block fb width height pitch posX posY scale x y color)
    (fun X Y => if in_block posX posY scale x y X Y then Some color else None).
Proof.
  intros HpX HpY Hs Hx Hy HfX HfY Hc. unfold draw_block.
  set (X0 := posX + x * scale) in *. set (Y0 := posY + y * scale) in *.
  assert (0 <= X0 /\ 0 <= Y0) as [HX0 HY0] by (unfold X0, Y0; nia).
  assert (forall sy, 0 <= sy < scale -> draws (F := F) (for_upM (Z.to_nat scale) 0 (fun sx =>
      if (u64 (X0 + sx) <? width) && (u64 (Y0 + sy) <? height)
      then on_mem (put32 fb (u64 (u64 (Y0 + sy) * pitch + u64 (X0 + sx))) color) else mret tt))
    (fun X Y => if (X0 <=? X) && (X <? X0 + scale) && (Y =? Y0 + sy) && (X <? width) && (Y <? height)
      then Some color else None)) as Hrow.
  { intros sy Hsy.
    apply (draws_for (fun k X Y => if (X0 <=? X) && (X <? X0 + k) && (Y =? Y0 + sy) && (X <? width) && (Y <? height)
        then Some color else None)
      (fun sx X Y => if (X =? X0 + sx) && (Y =? Y0 + sy) && (X <? width) && (Y <? height) then Some color else None));
      [| | |lia].
    - intros sx Hsx s. rewrite !u64_id by (unfold in_u64; lia).
      destruct (Z.ltb_spec (X0 + sx) width) as [HX|HX], (Z.ltb_spec (Y0 + sy) height) as [HY|HY]; cbn [andb];
        [eexists; split; [reflexivity|]|exists s.(mem); split; [by destruct s|]..].
      + eapply painted_over; [apply painted_id|apply (painted_put (X0 + sx) (Y0 + sy) color); lia|].
        intros X Y HX' HY'. cbv beta. destruct (Z.eqb_spec X (X0 + sx)) as [->|], (Z.eqb_spec Y (Y0 + sy)) as [->|];
          cbn [andb]; try done. by rewrite !(proj2 (Z.ltb_lt _ _)) by lia.
      + eapply painted_over; [apply painted_id|apply painted_id|]. intros X Y HX' HY'. cbv beta.
        destruct (Z.eqb_spec Y (Y0 + sy)) as [->|]; [lia|]. by rewrite andb_false_r.
      + eapply painted_over; [apply painted_id|apply painted_id|]. intros X Y HX' HY'. cbv beta.
        destruct (Z.eqb_spec X (X0 + sx)) as [->|]; [|done]. rewrite (proj2 (Z.ltb_ge (X0 + sx) width)) by lia.
        by rewrite andb_false_r.
      + eapply painted_over; [apply painted_id|apply painted_id|]. intros X Y HX' HY'. cbv beta.
        destruct (Z.eqb_spec X (X0 + sx)) as [->|]; [|done]. rewrite (proj2 (Z.ltb_ge (X0 + sx) width)) by lia.
        by rewrite andb_false_r.
    - intros X Y HX HY. destruct (Z.leb_spec X0 X), (Z.ltb_spec X (X0 + 0)); done || lia.
    - intros k X Y Hk HX HY. destruct (Y =? Y0 + sy), (X <? width), (Y <? height);
        rewrite ?andb_true_r, ?andb_false_r; try done.
      destruct (Z.eqb_spec X (X0 + k)), (Z.leb_spec X0 X), (Z.ltb_spec X (X0 + (k + 1))), (Z.ltb_spec X (X0 + k));
        done || lia. }
  eapply draws_iff; [|apply (draws_for
    (fun k X Y => if (X0 <=? X) && (X <? X0 + scale) && (Y0 <=? Y) && (Y <? Y0 + k) && (X <? width) && (Y <? height)
      then Some color else None)
    (fun sy X Y => if (X0 <=? X) && (X <? X0 + scale) && (Y =? Y0 + sy) && (X <? width) && (Y <? height)
      then Some color else None) _ scale); [exact Hrow| | |lia]].
  - intros X Y HX HY. reflexivity.
  - intros X Y HX HY. destruct (Z.leb_spec Y0 Y), (Z.ltb_spec Y (Y0 + 0)); rewrite ?andb_false_r; done || lia.
  - intros k X Y Hk HX HY. destruct (X0 <=? X), (X <? X0 + scale), (X <? width), (Y <? height);
      rewrite ?andb_true_r, ?andb_false_r; cbn [andb]; try done.
    destruct (Z.eqb_spec Y (Y0 + k)), (Z.leb_spec Y0 Y), (Z.ltb_spec Y (Y0 + (k + 1))), (Z.ltb_spec Y (Y0 + k));
      done || lia.
Qed.
End frame.

(** ** Bitmap files *)

Fixpoint bytes_le (n : nat) (bmp : list Z) (i : Z) : Z :=
  match n with O => 0 | S n' => aget bmp i + 256 * bytes_le n' bmp (i + 1) end.

Definition row_size (w : Z) : Z := (w * 3 + 3) / 4 * 4.

(** A 24-bit bitmap of [w] by [h] pixels with its pixels at [offset]. *)
Record bmp_ok (bmp : list Z) (w h offset : Z) : Prop := {
  bm_bytes : Forall (fun b => 0 <= b < 256) bmp;
  bm_type : bytes_le 2 bmp 0 = 0x4D42;
  bm_bpp : bytes_le 2 bmp 28 = 24;
  bm_offset : bytes_le 4 bmp 10 = offset;
  bm_width : bytes_le 4 bmp 18 = w;
  bm_height : bytes_le 4 bmp 22 = h;
  bm_size : 0 < w < 2 ^ 16 /\ 0 < h < 2 ^ 16 /\ 30 <= offset;
  bm_fits : offset + h * row_size w <= Z.of_nat (length bmp);
}.

(** The colour of the pixel in column [x] and row [y] from the top. *)
Definition bmp_color (bmp : list Z) (w h offset x y : Z) : Z :=
  let pixel := offset + (h - 1 - y) * row_size w + x * 3 in
  Z.lor (Z.lor (Z.shiftl (aget bmp (pixel + 2)) 16) (Z.shiftl (aget bmp (pixel + 1)) 8)) (aget bmp pixel).

Lemma lor_below a b n : 0 <= n -> 0 <= a < 2 ^ n -> 0 <= b < 2 ^ n -> 0 <= Z.lor a b < 2 ^ n.
Proof.
  intros Hn Ha Hb. split; [apply Z.lor_nonneg; lia|].
  assert (Z.lor a b = Z.lor a b mod 2 ^ n) as ->; [|by apply Z.mod_pos_bound; lia].
  apply Z.bits_inj'. intros j Hj. rewrite Z.testbit_mod_pow2 by lia.
  destruct (Z.ltb_spec j n); [done|]. cbn. rewrite Z.lor_spec.
  rewrite <-(Z.mod_small a (2 ^ n)), <-(Z.mod_small b (2 ^ n)) by done.
  by rewrite !Z.mod_pow2_bits_high by lia.
Qed.

Lemma row_size_land w : 0 <= w < 2 ^ 16 -> Z.land (u64 (w * 3 + 3)) (Z.lnot 3) = row_size w.
Proof.
  intros Hw. rewrite u64_id by (unfold in_u64; lia). change (Z.lnot 3) with (Z.lnot (Z.ones 2)).
  rewrite <-Z.ldiff_land, Z.ldiff_ones_r by lia.
  rewrite Z.shiftl_mul_pow2, Z.shiftr_div_pow2 by lia. done.
Qed.

Section bitmap.
Context {F : Type} `{Firmware F}.
Context (bmp : list Z) (w h offset : Z) (Hbmp : bmp_ok bmp w h offset).

Lemma bmp_byte_eq i (s : loader F) : 0 <= i < Z.of_nat (length bmp) -> bmp_byte bmp i s = Done (aget bmp i, s).
Proof.
  intros Hi. unfold bmp_byte. by rewrite (proj2 (Z.leb_le _ _)), (proj2 (Z.ltb_lt _ _)) by lia.
Qed.

Lemma bmp_le_eq n : forall i (s : loader F), 0 <= i -> i + Z.of_nat n <= Z.of_nat (length bmp) ->
  bmp_le n bmp i s = Done (bytes_le n bmp i, s).
Proof.
  induction n as [|n IH]; intros i s Hi Hn; [done|]. cbn [bmp_le bytes_le].
  rewrite (bind_eq _ _ _ _ _ (bmp_byte_eq i s ltac:(lia))), (bind_eq _ _ _ _ _ (IH (i + 1) s ltac:(lia) ltac:(lia))).
  done.
Qed.

Lemma row_size_pos : 0 <= row_size w /\ w * 3 <= row_size w.
Proof. destruct (bm_size _ _ _ _ Hbmp). unfold row_size. Z.div_mod_to_equations. lia. Qed.

Lemma pixel_range x y : 0 <= x < w -> 0 <= y < h ->
  let p := offset + (h - 1 - y) * row_size w + x * 3 in 0 <= p /\ p + 2 < Z.of_nat (length bmp).
Proof.
  intros Hx Hy. cbv zeta. pose proof row_size_pos. pose proof (bm_fits _ _ _ _ Hbmp).
  destruct (bm_size _ _ _ _ Hbmp) as (? & ? & ?). nia.
Qed.

Lemma bmp_color_range x y : 0 <= x < w -> 0 <= y < h -> 0 <= bmp_color bmp w h offset x y < 2 ^ 32.
Proof.
  intros Hx Hy. pose proof (pixel_range x y Hx Hy) as Hp. cbv zeta in Hp. unfold bmp_color. cbv zeta.
  set (p := offset + _ + _) in *.
  assert (forall i, 0 <= i < Z.of_nat (length bmp) -> 0 <= aget bmp i < 256) as Hb.
  { intros i Hi. pose proof (bm_bytes _ _ _ _ Hbmp) as Hf. rewrite Forall_lookup in Hf.
    apply (Hf (Z.to_nat i)). unfold aget. rewrite (proj2 (Z.ltb_ge _ _)) by lia.
    apply list_lookup_lookup_total_lt. lia. }
  pose proof (Hb p ltac:(lia)). pose proof (Hb (p + 1) ltac:(lia)). pose proof (Hb (p + 2) ltac:(lia)).
  rewrite !Z.shiftl_mul_pow2 by lia. change (2 ^ 16) with 65536. change (2 ^ 8) with 256.
  apply lor_below; [lia|apply lor_below; lia|lia].
Qed.

Context (fb width height pitch posX posY scale : Z).
Context (Hw : 0 <= width <= pitch) (Hh : 0 <= height) (Hfit : height * pitch < 2 ^ 62).
Context (HposX : 0 <= posX < 2 ^ 32) (HposY : 0 <= posY < 2 ^ 32) (Hscale : 0 < scale < 2 ^ 8).

(** The bitmap enlarged [scale] times, cut at the edges of the screen. *)
Definition picture (X Y : Z) : option Z :=
  if (posX <=? X) && (posY <=? Y) && ((X - posX) / scale <? w) && ((Y - posY) / scale <? h) &&
     (X <? width) && (Y <? height)
  then Some (bmp_color bmp w h offset ((X - posX) / scale) ((Y - posY) / scale)) else None.

Lemma block_quotient pos k X : (pos + k * scale <=? X) && (X <? pos + k * scale + scale) = ((X - pos) / scale =? k).
Proof.
  destruct (Z.eqb_spec ((X - pos) / scale) k) as [<-|Hne].
  - pose proof (Z.div_mod (X - pos) scale ltac:(lia)). pose proof (Z.mod_pos_bound (X - pos) scale ltac:(lia)).
    apply andb_true_iff. split; [apply Z.leb_le|apply Z.ltb_lt]; lia.
  - destruct (Z.leb_spec (pos + k * scale) X), (Z.ltb_spec X (pos + k * scale + scale)); try done.
    exfalso. apply Hne. symmetry. apply (Z.div_unique_pos _ _ _ (X - pos - k * scale)); lia.
Qed.

Lemma in_block_eq x y X Y : in_block width height posX posY scale x y X Y =
  ((X - posX) / scale =? x) && ((Y - posY) / scale =? y) && (X <? width) && (Y <? height).
Proof.
  unfold in_block. rewrite <-(block_quotient posX x X), <-(block_quotient posY y Y).
  by rewrite <-!andb_assoc.
Qed.

Lemma quotient_nonneg pos X : ((X - pos) / scale <? 0) = negb (pos <=? X).
Proof.
  destruct (Z.leb_spec pos X); cbn [negb].
  - apply Z.ltb_ge. apply Z.div_pos; lia.
  - apply Z.ltb_lt. apply Z.div_lt_upper_bound; lia.
Qed.

(** The first [n] enlarged pixels from [pos] on reach [X]. *)
Definition within (pos n X : Z) : bool := (pos <=? X) && ((X - pos) / scale <? n).

Lemma within_0 pos X : within pos 0 X = false.
Proof. unfold within. rewrite quotient_nonneg. by destruct (pos <=? X). Qed.

Lemma within_succ pos k X : 0 <= k -> within pos (k + 1) X = ((X - pos) / scale =? k) || within pos k X.
Proof.
  intros Hk. unfold within. pose proof (quotient_nonneg pos X) as Hq. set (q := (X - pos) / scale) in *.
  destruct (pos <=? X); cbn [negb andb] in *.
  - apply Z.ltb_ge in Hq. destruct (Z.eqb_spec q k), (Z.ltb_spec q (k + 1)), (Z.ltb_spec q k); done || lia.
  - apply Z.ltb_lt in Hq. by rewrite (proj2 (Z.eqb_neq q k)) by lia.
Qed.

(** The first [k] pixels of row [y], and the first [k] rows. *)
Definition row_picture (y k X Y : Z) : option Z :=
  if within posX k X && ((Y - posY) / scale =? y) && (X <? width) && (Y <? height)
  then Some (bmp_color bmp w h offset ((X - posX) / scale) y) else None.

Definition rows_picture (k X Y : Z) : option Z :=
  if within posX w X && within posY k Y && (X <? width) && (Y <? height)
  then Some (bmp_color bmp w h offset ((X - posX) / scale) ((Y - posY) / scale)) else None.

Lemma draw_row y : 0 <= y < h ->
  draws fb height pitch (for_upM (Z.to_nat w) 0 (fun x =>
      let pixel := offset + (h - 1 - y) * row_size w + x * 3 in
      r ← bmp_byte bmp (pixel + 2);
      g ← bmp_byte bmp (pixel + 1);
      b ← bmp_byte bmp pixel;
      let color := Z.lor (Z.lor (Z.shiftl r 16) (Z.shiftl g 8)) b in
      draw_block (F := F) fb width height pitch posX posY scale x y color)) (row_picture y w).
Proof.
  intros Hy. pose proof (bm_size _ _ _ _ Hbmp) as (Hw0 & Hh0 & Ho).
  apply (draws_for fb height pitch (row_picture y)
    (fun x X Y => if in_block width height posX posY scale x y X Y
      then Some (bmp_color bmp w h offset x y) else None)); [| | |lia].
  - intros x Hx s. pose proof (pixel_range x y Hx Hy) as Hp. cbv zeta in Hp.
    set (p := offset + (h - 1 - y) * row_size w + x * 3) in *. cbv zeta.
    rewrite (bind_eq _ _ _ _ _ (bmp_byte_eq (p + 2) s ltac:(lia))),
      (bind_eq _ _ _ _ _ (bmp_byte_eq (p + 1) s ltac:(lia))), (bind_eq _ _ _ _ _ (bmp_byte_eq p s ltac:(lia))).
    apply draw_block_draws; [done..|lia|lia|lia|lia|lia|nia|nia|].
    apply (bmp_color_range x y Hx Hy).
  - intros X Y HX HY. unfold row_picture. by rewrite within_0.
  - intros k X Y Hk HX HY. unfold row_picture. rewrite in_block_eq, within_succ by lia.
    destruct (Z.eqb_spec ((X - posX) / scale) k) as [->|]; [|done]. cbn [andb orb].
    by destruct ((Y - posY) / scale =? y), (X <? width), (Y <? height), (within posX k X).
Qed.

Lemma draw_rows :
  draws fb height pitch (for_upM (Z.to_nat h) 0 (fun y => for_upM (Z.to_nat w) 0 (fun x =>
      let pixel := offset + (h - 1 - y) * row_size w + x * 3 in
      r ← bmp_byte bmp (pixel + 2);
      g ← bmp_byte bmp (pixel + 1);
      b ← bmp_byte bmp pixel;
      let color := Z.lor (Z.lor (Z.shiftl r 16) (Z.shiftl g 8)) b in
      draw_block (F := F) fb width height pitch posX posY scale x y color))) (rows_picture h).
Proof.
  pose proof (bm_size _ _ _ _ Hbmp) as (Hw0 & Hh0 & Ho).
  apply (draws_for fb height pitch rows_picture (fun y => row_picture y w)); [| | |lia].
  - exact draw_row.
  - intros X Y HX HY. unfold rows_picture. by rewrite within_0, andb_false_r.
  - intros k X Y Hk HX HY. unfold rows_picture, row_picture. rewrite within_succ by lia.
    destruct (Z.eqb_spec ((Y - posY) / scale) k) as [->|]; cbn [orb];
      destruct (within posX w X), (X <? width), (Y <? height), (within posY k Y); done.
Qed.

Lemma draw_bmp_draws :
  draws fb height pitch (DrawBMP (F := F) fb width height pitch posX posY bmp scale) picture.
Proof.
  pose proof Hbmp as [Hby Hty Hbpp Hoff Hwid Hhei (Hw0 & Hh0 & Ho) Hf].
  pose proof row_size_pos as [Hr0 Hr].
  assert (30 <= Z.of_nat (length bmp)) as Hlen by nia.
  assert (forall n, 0 < n < 2 ^ 16 -> (s32 n <=? 0) = false) as Hs32.
  { intros n Hn. apply Z.leb_gt. unfold s32. rewrite Z.mod_small; lia. }
  eapply draws_iff; [|intros s; unfold DrawBMP].
  2:{ rewrite (bind_eq _ _ _ _ _ (bmp_le_eq 2 0 s ltac:(lia) ltac:(lia))), Hty.
      rewrite (bind_eq _ _ _ _ _ (bmp_le_eq 2 28 s ltac:(lia) ltac:(lia))), Hbpp.
      change (negb (0x4D42 =? 0x4D42)) with false. change (negb (24 =? 24)) with false. cbv iota.
      rewrite (bind_eq _ _ _ _ _ (bmp_le_eq 4 10 s ltac:(lia) ltac:(lia))), Hoff.
      rewrite (bind_eq _ _ _ _ _ (bmp_le_eq 4 18 s ltac:(lia) ltac:(lia))), Hwid.
      rewrite (bind_eq _ _ _ _ _ (bmp_le_eq 4 22 s ltac:(lia) ltac:(lia))), Hhei.
      rewrite (Hs32 w), (Hs32 h), (proj2 (Z.eqb_neq scale 0)) by lia. cbn [orb].
      rewrite row_size_land by lia. exact (draw_rows s). }
  intros X Y HX HY. unfold picture, rows_picture, within.
  destruct (posX <=? X), (posY <=? Y), ((X - posX) / scale <? w), ((Y - posY) / scale <? h); done.
Qed.
End bitmap.

Lemma logo_ok : bmp_ok logo_bmp 50 50 138.
Proof.
  constructor; try (vm_compute; done).
  - apply Forall_forall. intros b Hb.
    assert (forallb (fun b => (0 <=? b) && (b <? 256)) logo_bmp = true) as Hall by (vm_compute; done).
    rewrite forallb_forall in Hall. apply list_elem_of_In in Hb. specialize (Hall b Hb). lia.
Qed.
