(* ===== verification/BootReturn.v ===== *)
(** * When the kernel returns

    [kernel_main] returns when it does not accept the record.  [efi_main] then
    paints the screen grey, says so on the serial port and halts. *)

From S2P Require Import Prelude Efi EfiFacts BootLib BootPaging BootGop BootDraw Boot.

Section returned.
Context {F : Type}.

(** What follows [entry(bootInfo)] up to the halt loop; the geometry is what
    [efi_main] read before it left the firmware. *)
Definition kernel_returned (fb width height pitch : Z) : M (loader F) unit :=
  _ ← on_mem (fill_screen fb width height pitch 0x00404040);
  serial_write (10 :: L "[BOOT] Returned to boot").

(** Every visible pixel is grey; the padding of the rows and all other memory
    are as they were. *)
Theorem kernel_returned_grey fb width height pitch (s : loader F) :
  0 <= width <= pitch -> 0 <= height -> height * pitch < 2 ^ 62 ->
  exists t, kernel_returned fb width height pitch s = Done (tt, t) /\
    t.(fw) = s.(fw) /\ t.(con) = s.(con) /\ t.(ser) = s.(ser) ++ 10 :: L "[BOOT] Returned to boot" /\
    (forall X Y, 0 <= X < pitch -> 0 <= Y < height ->
      pixel fb pitch t.(mem) X Y = if X <? width then 0x404040 else pixel fb pitch s.(mem) X Y) /\
    forall a, ~ in_frame fb height pitch a -> load8 t.(mem) a = load8 s.(mem) a.
Proof.
  intros Hw Hh Hfit.
  destruct (fill_screen_painted fb width height pitch Hw Hh Hfit 0x404040 s.(mem) ltac:(lia)) as [P O _].
  eexists. split; [reflexivity|]. split; [done|]. split; [done|]. split; [done|]. split; [|exact O].
  intros X Y HX HY. etrans; [by apply P|]. by destruct (X <? width).
Qed.
End returned.
