(* ===== verification/BootStages.v ===== *)
(** * The stages of [efi_main], one lemma each *)

From S2P Require Import Prelude FromBoot Pmm PageTable Efi EfiFacts BootLib BootPaging BootPagingFacts BootPagingTheorems BootElf BootElfFacts BootElfTheorems BootGop BootGopFacts BootDraw LogoData Boot BootFacts.

(** ** The kernel file *)

(** The file as a memory of its own. *)
Definition file_mem (data : list Z) : gmap Z Z := store_bytes 0 data ∅.

Definition file_header (data : list Z) (i : Z) : Elf64_Phdr :=
  load_phdr (file_mem data) (e_phoff (file_mem data) 0 + 56 * i).

(** The headers lie inside the file, and every segment to be loaded is linked
    to run where it is loaded and has its bytes inside the file. *)
Record kernel_file (data : list Z) : Prop := {
  kf_size : 64 <= Z.of_nat (length data);
  kf_headers : e_phoff (file_mem data) 0 + 56 * e_phnum (file_mem data) 0 <= Z.of_nat (length data);
  kf_segments : forall i, 0 <= i < e_phnum (file_mem data) 0 -> (file_header data i).(p_type) = 1 ->
    segment_ok (Z.of_nat (length data)) (file_header data i);
}.

Lemma file_mem_byte data k : 0 <= k < Z.of_nat (length data) -> load8 (file_mem data) k = u8 (aget data k).
Proof.
  intros Hk. unfold file_mem. rewrite load8_store_bytes, (proj2 (in_bytes_spec _ _ _)) by lia.
  by rewrite Z.sub_0_r.
Qed.

Section stages.
Context {F : Type} `{HG : GopLaws F}.

(** ** Pages of the tables and pages of data *)

Lemma in_tables_owned r pt pds P (s : loader F) g : space r pt pds P s -> in_tables r pt pds s g ->
  owned s.(fw) g = true.
Proof.
  intros Hs [Hin|Hn].
  - apply (sp_frames _ _ _ _ _ Hs), elem_of_cons. by right.
  - destruct (owned s.(fw) g) eqn:E; [done|]. exfalso. apply Hn. intros q a Hq Ha ->.
    destruct (space_table r pt pds s P q _ Hs Hq Ha) as (h & Eh & _ & Ho & _).
    assert (h = g) as -> by lia. congruence.
Qed.

(** Pages obtained since [s] hold no table as long as the tables stay. *)
Lemma new_not_table r pt pds P (s t : loader F) g : space r pt pds P s -> from s t ->
  owned s.(fw) g = false -> ~ in_tables r pt pds t g.
Proof.
  intros Hs K Hg Ht. destruct (space_keeps r pt pds _ P s t Hs K) as [_ E]; [tauto|].
  apply E in Ht. apply (in_tables_owned r pt pds P) in Ht; [congruence|done].
Qed.

Lemma space_from r pt pds P (s t : loader F) : space r pt pds P s -> from s t -> space r pt pds P t.
Proof. intros Hs K. eapply space_keeps; [done|exact K|tauto]. Qed.

(** ** What was loaded stays *)

Lemma loaded_from f a n (s t u : loader F) : loaded f a n s t -> from t u -> loaded f a n s u.
Proof.
  intros [L1 L2 (data & L3 & L4 & L5) L6] K. constructor; [done|done| |].
  - exists data. split_and!; [done|done|]. intros k Hk. rewrite (kp_bytes _ _ _ K); [by apply L5| |tauto].
    apply L6, in_bytes_spec. lia.
  - intros b Hb. destruct (L6 b Hb). split; [done|]. by apply (kp_owned _ _ _ K).
Qed.

Lemma loaded_earlier f a n (s t u : loader F) : from s t -> loaded f a n t u -> loaded f a n s u.
Proof.
  intros K [L1 L2 L3 L4]. constructor; [done|done|done|]. intros b Hb. destruct (L4 b Hb) as [Hf ?].
  split; [|done]. destruct (owned s.(fw) (b / PAGE_SIZE)) eqn:E; [|done].
  apply (kp_owned _ _ _ K) in E. congruence.
Qed.

(** The file at [a] seen through memory. *)
Lemma loaded_file a n (t : loader F) data : Z.of_nat (length data) = n ->
  (forall k, 0 <= k < n -> load8 t.(mem) (a + k) = u8 (aget data k)) ->
  (forall m k, 0 <= k -> k + Z.of_nat m <= n -> load_le m t.(mem) (a + k) = load_le m (file_mem data) k).
Proof.
  intros Hn Hb m k Hk Hm. revert k Hk Hm. induction m as [|m IH]; intros k Hk Hm; [done|]. cbn [load_le].
  rewrite Hb, file_mem_byte by lia. do 2 f_equal. replace (a + k + 1) with (a + (k + 1)) by lia. apply IH; lia.
Qed.

Section image.
Context (a n : Z) (t : loader F) (data : list Z).
Context (Hn : Z.of_nat (length data) = n).
Context (Hb : forall k, 0 <= k < n -> load8 t.(mem) (a + k) = u8 (aget data k)).

Lemma file_field m k : 0 <= k -> k + Z.of_nat m <= n -> load_le m t.(mem) (a + k) = load_le m (file_mem data) k.
Proof. apply (loaded_file a n t data Hn Hb). Qed.

Lemma file_is_elf : 4 <= n -> is_elf t.(mem) a = is_elf (file_mem data) 0.
Proof.
  intros Hs. unfold is_elf, e_ident. rewrite !Hb, !file_mem_byte by lia. done.
Qed.

Context (Hk : kernel_file data).

Lemma file_phoff : e_phoff t.(mem) a = e_phoff (file_mem data) 0.
Proof. pose proof (kf_size _ Hk). unfold e_phoff. rewrite Z.add_0_l. apply file_field; lia. Qed.
Lemma file_phnum : e_phnum t.(mem) a = e_phnum (file_mem data) 0.
Proof. pose proof (kf_size _ Hk). unfold e_phnum. rewrite Z.add_0_l. apply file_field; lia. Qed.
Lemma file_entry : e_entry t.(mem) a = e_entry (file_mem data) 0.
Proof. pose proof (kf_size _ Hk). unfold e_entry. rewrite Z.add_0_l. apply file_field; lia. Qed.

Lemma file_header_eq i : 0 <= i < e_phnum (file_mem data) 0 -> header t a i = file_header data i.
Proof.
  intros Hi. unfold header, file_header, phdr_addr. rewrite file_phoff.
  pose proof (kf_headers _ Hk). pose proof (load_le_range 8 (file_mem data) 32) as Ho.
  change (load_le 8 (file_mem data) 32) with (e_phoff (file_mem data) 0) in Ho.
  set (o := e_phoff (file_mem data) 0 + 56 * i).
  replace (a + e_phoff (file_mem data) 0 + 56 * i) with (a + o) by (unfold o; lia).
  unfold load_phdr. rewrite <-!Z.add_assoc. f_equal; apply file_field; unfold o; lia.
Qed.

Lemma file_image_ok : ram_ok t.(mem) -> 0 <= a -> a + n <= 2 ^ 52 ->
  (forall b, in_bytes a n b = true -> owned t.(fw) (b / PAGE_SIZE) = true) -> image_ok t a n.
Proof.
  intros Hr Ha Hmax Hown. pose proof (kf_size _ Hk). constructor; [done|lia|done| |].
  - rewrite file_phoff, file_phnum. pose proof (kf_headers _ Hk). lia.
  - intros i Hi Hty. rewrite file_phnum in Hi. rewrite file_header_eq in * by done.
    rewrite <-Hn. by apply (kf_segments _ Hk).
Qed.
End image.

(** ** The files *)

(** The kernel in memory: the image at [kernelAddr], and its segments in pages
    obtained since [s], with the bytes of the file and zeros behind them. *)
Record kernel_loaded (data : list Z) (s t : loader F) : Prop := {
  kl_file : kernel_file data;
  kl_image : forall k, 0 <= k < Z.of_nat (length data) -> load8 t.(mem) (kernelAddr + k) = u8 (aget data k);
  kl_image_pages : forall a, in_bytes kernelAddr (Z.of_nat (length data)) a = true ->
    owned s.(fw) (a / PAGE_SIZE) = false /\ owned t.(fw) (a / PAGE_SIZE) = true;
  kl_segments : forall i, 0 <= i < e_phnum (file_mem data) 0 ->
    let p := file_header data i in p.(p_type) = 1 -> forall k, 0 <= k < p.(p_memsz) ->
    load8 t.(mem) (p.(p_paddr) + k) = if k <? p.(p_filesz) then u8 (aget data (p.(p_offset) + k)) else 0;
  kl_segment_pages : forall i, 0 <= i < e_phnum (file_mem data) 0 ->
    let p := file_header data i in p.(p_type) = 1 -> forall a, in_bytes p.(p_paddr) p.(p_memsz) a = true ->
    owned s.(fw) (a / PAGE_SIZE) = false /\ owned t.(fw) (a / PAGE_SIZE) = true;
}.

Lemma kernel_loaded_from data (s t u : loader F) : kernel_loaded data s t -> from t u -> kernel_loaded data s u.
Proof.
  intros [K1 K2 K3 K4 K5] K. constructor; [done|..].
  - intros k Hk. rewrite (kp_bytes _ _ _ K); [by apply K2| |tauto]. apply K3, in_bytes_spec. lia.
  - intros b Hb. destruct (K3 b Hb). split; [done|]. by apply (kp_owned _ _ _ K).
  - intros i Hi p Hty k Hk. rewrite (kp_bytes _ _ _ K); [by apply K4| |tauto].
    apply (K5 i Hi Hty), in_bytes_spec. fold p. lia.
  - intros i Hi p Hty b Hb. destruct (K5 i Hi Hty b Hb). split; [done|]. by apply (kp_owned _ _ _ K).
Qed.

(** [data] is the file the loader finds under the name [path]. *)
Definition file_named (path data : list Z) : Prop := exists h, opened path h /\ whole_file h data.

(** What the loader takes the file kernel.elf of its volume for: at least as
    long as an ELF header, and a kernel if it begins like an ELF file. *)
Definition kernel_files_ok : Prop := forall data, file_named (L "kernel.elf") data ->
  64 <= Z.of_nat (length data) /\ (is_elf (file_mem data) 0 = true -> kernel_file data).

(** The extent covers the segments. *)
Definition covers (data : list Z) (b : bounds) : Prop := forall i, 0 <= i < e_phnum (file_mem data) 0 ->
  let p := file_header data i in p.(p_type) = 1 ->
  b.(phys_start) <= p.(p_paddr) /\ p.(p_paddr) + p.(p_memsz) <= b.(phys_end).

Record files_post (s : loader F) (r : option files) (t : loader F) : Prop := {
  fs_from : from s t;
  fs_some : forall x, r = Some x ->
    (exists data, file_named (L "kernel.elf") data /\ kernel_loaded data s t /\ covers data x.(f_bounds)) /\
    bounds_ok x.(f_bounds) /\
    (exists f, opened (L "ramdiskfs.cpio") f /\ loaded f ramdisk_addr x.(f_ramdisk_size) s t) /\
    (exists h f, x.(f_image) = ImageData h f);
}.

Lemma files_none s t : from s t -> files_post s None t.
Proof. intros K. by constructor. Qed.

Lemma println_from str (s : loader F) : exists t, uefi_println str s = Done (tt, t) /\ from s t.
Proof. destruct (println_quiet str s) as (t & ? & ?). exists t. split; [done|by apply quiet_from]. Qed.
Lemma print_from str (s : loader F) : exists t, uefi_print str s = Done (tt, t) /\ from s t.
Proof. destruct (output_quiet str s) as (t & ? & ?). exists t. split; [done|by apply quiet_from]. Qed.
Lemma print_hex_from v (s : loader F) : exists t, uefi_print_hex v s = Done (tt, t) /\ from s t.
Proof. apply println_from. Qed.
End stages.

(** Runs a step with a lemma [exists t, m s = Done (_, t) /\ from s t]. *)
Ltac run E := let t := fresh "t" in let R := fresh "R" in let K := fresh "K" in
  destruct E as (t & R & K); rewrite (bind_eq _ _ _ _ _ R); clear R.
(** [from s t] along the steps run so far. *)
Ltac from_trans := repeat first [eassumption | etransitivity; [eassumption|]].

Section files.
Context {F : Type} `{HG : GopLaws F}.

(** The segments of a loaded image. *)
Lemma load_segments_spec f n (s t : loader F) data : from s t -> ram_ok t.(mem) ->
  loaded f kernelAddr n s t -> Z.of_nat (length data) = n ->
  (forall k, 0 <= k < n -> load8 t.(mem) (kernelAddr + k) = u8 (aget data k)) -> kernel_file data ->
  exists r u, load_segments kernelAddr (get_program_headers t.(mem) kernelAddr) t = Done (r, u) /\ from t u /\
    forall b, r = Some b -> kernel_loaded data s u /\ covers data b /\ bounds_ok b.
Proof.
  intros Kst Hr [Hn0 (Hal & Hpos & Hmax) _ Hpg] Hn Hb Hkf.
  assert (image_ok t kernelAddr n) as Him.
  { apply (file_image_ok kernelAddr n t data Hn Hb Hkf Hr); [unfold kernelAddr; lia|done|]. intros b Hb'. by apply Hpg. }
  assert (e_phnum t.(mem) kernelAddr = e_phnum (file_mem data) 0) as Enum by (by apply (file_phnum kernelAddr n t data)).
  assert (get_program_headers t.(mem) kernelAddr = kernelAddr + e_phoff t.(mem) kernelAddr) as ->.
  { unfold get_program_headers. apply u64_id. pose proof (im_headers _ _ _ Him). destruct (im_range _ _ _ Him).
    pose proof (phnum_range t kernelAddr). pose proof (load_le_range 8 t.(mem) (kernelAddr + 32)) as Ho.
    change (load_le 8 t.(mem) (kernelAddr + 32)) with (e_phoff t.(mem) kernelAddr) in Ho.
    unfold in_u64. lia. }
  pose proof (phnum_range t kernelAddr) as Hnum. unfold load_segments.
  assert (e_phnum t.(mem) kernelAddr - Z.of_nat 0 <= Z.of_nat (Z.to_nat 65536)) as Hfuel
    by (rewrite Z2Nat.id; lia).
  destruct (segment_loop_spec t kernelAddr n Him (Z.to_nat 65536) 0 t ltac:(done) ltac:(lia) Hfuel
    ltac:(intros; lia)) as (u & Ku & [E|[E Hpl]]).
  { exists None, u. split_and!; [exact E|done|done]. }
  eexists _, u. split_and!; [exact E|done|]. intros b [= <-].
  assert (forall i, 0 <= i < e_phnum (file_mem data) 0 -> (file_header data i).(p_type) = 1 ->
    header t kernelAddr i = file_header data i /\ placed t kernelAddr (file_header data i) u) as Hph.
  { intros i Hi Hty. assert (header t kernelAddr i = file_header data i) as Eh
      by (by apply (file_header_eq kernelAddr n t data)).
    split; [done|]. rewrite <-Eh. apply Hpl; [by rewrite Enum|by rewrite Eh]. }
  split_and!; [| |apply bounds_upto_ok].
  - constructor; [done|..].
    + intros k Hk. rewrite (kp_bytes _ _ _ Ku); [apply Hb; lia| |tauto]. apply Hpg, in_bytes_spec. lia.
    + intros a Ha. rewrite Hn in Ha. destruct (Hpg a Ha). split; [done|]. by apply (kp_owned _ _ _ Ku).
    + intros i Hi p Hty k Hk. destruct (Hph i Hi Hty) as [_ [B _ _]]. fold p in B. rewrite B by done.
      destruct (Z.ltb_spec k p.(p_filesz)); [|done].
      destruct (kf_segments _ Hkf i Hi Hty) as (_ & _ & Hoff). fold p in Hoff.
      rewrite <-Z.add_assoc. apply Hb. pose proof (load_le_range 8 (file_mem data)
        (e_phoff (file_mem data) 0 + 56 * i + 8)) as Ho. change (load_le 8 _ _) with p.(p_offset) in Ho. lia.
    + intros i Hi p Hty a Ha. destruct (Hph i Hi Hty) as [_ [_ P _]]. destruct (P a Ha) as [Hf ?].
      split; [|done]. destruct (owned s.(fw) (a / PAGE_SIZE)) eqn:Eo; [|done].
      apply (kp_owned _ _ _ Kst) in Eo. congruence.
  - intros i Hi p Hty. destruct (Hph i Hi Hty) as [Eh [_ _ [Hp0 Hp1]]]. fold p in Hp0, Hp1.
    destruct (kf_segments _ Hkf i Hi Hty) as (Hv & _).
    pose proof (bounds_upto_le t kernelAddr (Z.to_nat (e_phnum t.(mem) kernelAddr)) i) as B.
    rewrite Eh in B. fold p in B, Hv. destruct B as (B1 & B2 & _); [lia|done|lia|done|]. by split.
Qed.

(** The kernel read from its image at [kernelAddr], the ramdisk in place already. *)
Lemma parse_kernel_spec n1 n2 image file1 file2 (s t : loader F) :
  kernel_files_ok (F := F) -> ram_ok s.(mem) -> from s t ->
  opened (L "kernel.elf") file1 -> loaded file1 kernelAddr n1 s t ->
  opened (L "ramdiskfs.cpio") file2 -> loaded file2 ramdisk_addr n2 s t ->
  (exists h f, image = ImageData h f) ->
  exists r u, parse_kernel n1 n2 image t = Done (r, u) /\ files_post s r u.
Proof.
  intros Hfiles Hr Kst Ho1 Hk Ho2 Hrd Him. unfold parse_kernel. rewrite !(bind_eq _ _ _ _ _ (gets_eq _ t)). cbv beta.
  pose proof (ld_data _ _ _ _ _ Hk) as (data & Hwhole & Hlen & Hbytes).
  assert (file_named (L "kernel.elf") data) as Hnamed by (by exists file1).
  destruct (Hfiles _ Hnamed) as [Hmin Helf].
  rewrite (file_is_elf kernelAddr n1 t data) by (done || lia).
  destruct (is_elf (file_mem data) 0); cbn [negb].
  2:{ run (println_from (L "[-] kernel.elf is not ELF") t). do 2 eexists. split; [done|]. apply files_none. by transitivity t. }
  run (println_from (L "[+] Parsing kernel.elf") t).
  assert (forall k, 0 <= k < n1 -> load8 t0.(mem) (kernelAddr + k) = load8 t.(mem) (kernelAddr + k)) as Hsame.
  { intros k Hkr. apply (kp_bytes _ _ _ K); [|tauto]. apply (ld_pages _ _ _ _ _ Hk), in_bytes_spec. lia. }
  assert (get_program_headers t.(mem) kernelAddr = get_program_headers t0.(mem) kernelAddr) as ->.
  { unfold get_program_headers, e_phoff. do 2 f_equal. apply load_le_ext. intros j Hj. symmetry.
    rewrite <-Z.add_assoc. apply Hsame. lia. }
  assert (from s t0) as Kst' by (by transitivity t).
  destruct (load_segments_spec file1 n1 s t0 data) as (r & u & Es & Ku & Hsome);
    [done|by apply (kp_ok _ _ _ Kst')|by eapply loaded_from|done| |by apply Helf|].
  { intros k Hkr. rewrite Hsame by done. by apply Hbytes. }
  unfold attempt. rewrite (bind_eq _ _ _ _ _ Es). assert (from s u) as Ksu by (by transitivity t0).
  destruct r as [b|]; [|by do 2 eexists; split; [|apply files_none]].
  run (print_from (L "Entry = ") u). rewrite (bind_eq _ _ _ _ _ (gets_eq _ t1)). cbv beta.
  run (print_hex_from (e_entry t1.(mem) kernelAddr) t1). do 2 eexists. split; [done|].
  destruct (Hsome b eq_refl) as (Hkl & Hcov & Hbo). assert (from u t2) as Kut by (by transitivity t1).
  constructor; [by transitivity u|]. intros x [= <-]. cbn. split_and!; [|exact Hbo|exists file2; split; [done|]|done].
  - exists data. split_and!; [done|by eapply kernel_loaded_from|done].
  - eapply loaded_from; [exact Hrd|]. transitivity t0; [done|]. by transitivity u.
Qed.

Lemma load_files_spec handle env (s : loader F) : kernel_files_ok (F := F) -> ram_ok s.(mem) ->
  exists r t, load_files handle env s = Done (r, t) /\ files_post s r t.
Proof.
  intros Hfiles Hr. unfold load_files.
  run (println_from (L "--- KERNEL ---") s). run (println_from (L "[+] Loading files...") t).
  run (print_from (L "[+] Loading kernel...") t0).
  destruct (load_file_post handle (Some (L "kernel.elf")) kernelAddr env.(be_image) t1)
    as (St1 & n1 & img1 & u1 & E1 & [K1' _ _ _ L1] & _). rewrite (bind_eq _ _ _ _ _ E1). cbv beta iota. clear E1.
  assert (from s t1) as Ks1 by (transitivity t; [done|by transitivity t0]).
  assert (from s u1) as Ks2 by (by transitivity t1).
  destruct (EFI_ERROR St1); [by exists None, u1; split; [|apply files_none]|].
  run (println_from (L "OK") u1). run (print_from (L "[+] Loading ramdisk...") t2).
  destruct (load_file_post handle (Some (L "ramdiskfs.cpio")) ramdisk_addr img1 t3)
    as (St2 & n2 & img2 & u2 & E2 & [K2' _ _ _ L2] & I2). rewrite (bind_eq _ _ _ _ _ E2). cbv beta iota. clear E2.
  assert (from u1 t3) as K13 by (by transitivity t2). assert (from s t3) as Ks3 by (by transitivity u1).
  assert (from u1 u2) as K12 by (by transitivity t3). assert (from s u2) as Ks4 by (by transitivity u1).
  destruct (EFI_ERROR St2); [by exists None, u2; split; [|apply files_none]|].
  destruct (L1 eq_refl) as (p1 & file1 & [= <-] & Ho1 & Hl1).
  destruct (L2 eq_refl) as (p2 & file2 & [= <-] & Ho2 & Hl2). specialize (I2 eq_refl).
  run (println_from (L "OK") u2). run (print_from (L "kernelPhysAddr = ") t4).
  run (print_hex_from kernelAddr t5). run (print_from (L "kernelSize = ") t6).
  run (print_hex_from n1 t7). run (print_from (L "First 8 bytes = ") t8).
  rewrite (bind_eq _ _ _ _ _ (gets_eq _ t9)). cbv beta. run (print_hex_from (load_le 8 t9.(mem) kernelAddr) t9).
  assert (from u2 t10) as K2t by (clear -K4 K5 K6 K7 K8 K9 K10; from_trans).
  apply (parse_kernel_spec n1 n2 img2 file1 file2 s t10); try done.
  - by transitivity u2.
  - apply loaded_earlier with t1; [done|]. eapply loaded_from; [exact Hl1|]. by transitivity u2.
  - apply loaded_earlier with t3; [done|]. by eapply loaded_from.
Qed.
End files.

(** ** The graphics mode *)

Section gop.
Context {F : Type} `{HG : GopLaws F}.

(** No monitor reports an empty timing together with a pixel clock. *)
Definition monitors_ok : Prop := forall e f (s : loader F), parse_edid (EdidData e f).2 s <> Fault.

Lemma parse_edid_still edid (s : loader F) : parse_edid edid s <> Fault ->
  exists r t, parse_edid edid s = Done (r, t) /\ still s t.
Proof.
  unfold parse_edid. cbv zeta. destruct (_ =? 0).
  - intros _. destruct (prints_println (L "[!] No valid pixel clock.") s) as (t & E & S).
    rewrite (bind_eq _ _ _ _ _ E). by exists None, t.
  - destruct (_ =? 0); [done|]. intros _. eexists _, s. split; [reflexivity|done].
Qed.

Lemma still_from (s t : loader F) : still s t -> from s t.
Proof. intros [Q _]. by apply quiet_from. Qed.

Lemma choose_mode_from i (s : loader F) : monitors_ok ->
  exists r t, choose_mode i s = Done (r, t) /\ from s t.
Proof.
  intros Hm. unfold choose_mode.
  run (println_from (L " --- GPU GOP --- ") s). run (println_from (L "[+] Loading GOP mode.") t).
  destruct (call_quiet (LocateProtocol GraphicsOutput) t0 (fl_locate _)) as (t1 & E1 & Q1).
  rewrite (bind_eq _ _ _ _ _ E1). apply quiet_from in Q1. destruct (LocateProtocol GraphicsOutput _).1 as [st gop].
  destruct (EFI_ERROR st).
  { run (println_from (L "[!] GOP protocol is unavailable.") t1). do 2 eexists. split; [done|]. from_trans. }
  run (println_from (L "[*] Loaded GOP protocol.") t1).
  destruct (call_quiet (LocateProtocol EdidDiscovered) t2 (fl_locate _)) as (t3 & E3 & Q3).
  rewrite (bind_eq _ _ _ _ _ E3). apply quiet_from in Q3. destruct (LocateProtocol EdidDiscovered _).1 as [st' e].
  rewrite (bind_eq _ _ _ _ _ (gets_eq _ t3)). cbv beta.
  specialize (Hm e t3.(fw) t3). destruct (EdidData e t3.(fw)) as [[sz ptr] edid]. cbn [snd] in Hm.
  assert (from s t3) as Ks by from_trans.
  unfold attempt. destruct (_ || _).
  - run (println_from (L "[!] No available information about monitor, prefering 1920x1080 resolution") t3).
    destruct (pick_mode_picked gop i None t4) as (r & u & Er & Su & _). rewrite (bind_eq _ _ _ _ _ Er).
    apply still_from in Su. destruct r; do 2 eexists; (split; [done|]); (transitivity t3; [done|from_trans]).
  - destruct (parse_edid_still edid t3 Hm) as (m & u & E & Su). rewrite (bind_eq _ _ _ _ _ E).
    apply still_from in Su. destruct m as [m|]; [|do 2 eexists; split; [done|by transitivity t3]].
    destruct (pick_mode_picked gop 1 (Some m) u) as (r & v & Er & Sv & _). rewrite (bind_eq _ _ _ _ _ Er).
    apply still_from in Sv. destruct r; do 2 eexists; (split; [done|]); (transitivity u; [by transitivity t3|done]).
Qed.

(** ** The picture *)

Section screen.
Context (Hlin : screens_linear (F := F)).

(** Painting in the frame buffer leaves the owned pages alone. *)
Lemma painted_from g C (s : loader F) m :
  let mode := GopMode g s.(fw) in
  painted mode.(FrameBufferBase) mode.(Info).(VerticalResolution) mode.(Info).(PixelsPerScanLine) C s.(mem) m ->
  from s (set_mem m s).
Proof.
  cbv zeta. intros [_ Hout Hok]. constructor; [done| |done]. intros a Ha _. apply Hout. unfold in_frame. intros Hin.
  destruct (Hlin g s.(fw)) as [(_ & Hw & Hfit) Hfree]. pose proof (fl_gop_types g s.(fw)) as Ht. cbv zeta in Ht.
  rewrite Hfree in Ha; [done|]. apply in_bytes_spec. lia.
Qed.

Lemma draw_screen_from g (s : loader F) : let mode := GopMode g s.(fw) in
  let fb := mode.(FrameBufferBase) in
  let width := mode.(Info).(HorizontalResolution) in
  let height := mode.(Info).(VerticalResolution) in
  let pitch := mode.(Info).(PixelsPerScanLine) in
  exists t, (_ ← on_mem (fill_screen fb width height pitch 0x00102030);
    DrawBMP fb width height pitch
      (if 200 <? width then (width - 200) / 2 else 0)
      (if 200 <? height then (height - 200) / 2 else 0) logo_bmp 4) s = Done (tt, t) /\ from s t.
Proof.
  cbv zeta. destruct (Hlin g s.(fw)) as [(Hmax & Hwp & Hfit) _].
  destruct (fl_gop_types g s.(fw)) as (_ & [Hb _] & [Hsz _] & Hw32 & Hh & Hp & _).
  set (fb := FrameBufferBase _) in *. set (width := HorizontalResolution _) in *.
  set (height := VerticalResolution _) in *. set (pitch := PixelsPerScanLine _) in *.
  assert (0 <= width <= pitch) as Hw by lia.
  pose proof (fill_screen_painted fb width height pitch Hw ltac:(lia) ltac:(lia) 0x00102030 s.(mem) ltac:(lia)) as P1.
  set (m1 := fill_screen fb width height pitch 0x00102030 s.(mem)) in *.
  rewrite (bind_eq _ _ _ tt (set_mem m1 s)) by done.
  set (posX := if 200 <? width then (width - 200) / 2 else 0).
  set (posY := if 200 <? height then (height - 200) / 2 else 0).
  assert (0 <= posX < 2 ^ 32 /\ 0 <= posY < 2 ^ 32) as [HX HY].
  { unfold posX, posY. destruct (Z.ltb_spec 200 width), (Z.ltb_spec 200 height); Z.div_mod_to_equations; lia. }
  destruct (draw_bmp_draws logo_bmp 50 50 138 logo_ok fb width height pitch posX posY 4 Hw ltac:(lia)
    HX HY ltac:(lia) (set_mem m1 s)) as (m2 & -> & P2).
  exists (set_mem m2 (set_mem m1 s)). split; [done|].
  transitivity (set_mem m1 s); [by apply (painted_from g _ s m1 P1)|].
  exact (painted_from g _ (set_mem m1 s) m2 P2).
Qed.

(** A key is pressed within [n] polls. *)
Fixpoint key_within (n : nat) (f : F) : bool :=
  match n with
  | O => false
  | S k => ((ReadKeyStroke f).1 =? EFI_SUCCESS) || key_within k (ReadKeyStroke f).2
  end.
(** However long the loader waits, the user presses a key. *)
Definition keys_come (polls : nat) : Prop := forall f, key_within polls f = true.

Lemma wait_key_from n : forall s : loader F, key_within n s.(fw) = true ->
  exists t, wait_key n s = Done (tt, t) /\ from s t.
Proof.
  induction n as [|n IH]; intros s Hk; [done|]. cbn [key_within wait_key] in *.
  set (t := set_fw (ReadKeyStroke s.(fw)).2 s).
  assert (from s t) as K by (apply keeps_fw; [|done]; intros q; apply fl_key).
  rewrite (bind_eq _ _ _ ((ReadKeyStroke s.(fw)).1, tt) t)
    by (unfold t, call; by destruct (ReadKeyStroke s.(fw))).
  cbv beta iota. destruct (_ =? EFI_SUCCESS); [by exists t|].
  destruct (IH t Hk) as (u & -> & Ku). exists u. split; [done|by transitivity t].
Qed.

Lemma tame_wait_key polls : keys_come polls -> tame (F := F) (wait_key polls).
Proof. intros Hk s. exists tt. by apply wait_key_from. Qed.

Lemma tame_draw_screen g : tame (F := F) (
  mode ← gets (fun s => GopMode g s.(fw));
  let fb := mode.(FrameBufferBase) in
  let width := mode.(Info).(HorizontalResolution) in
  let height := mode.(Info).(VerticalResolution) in
  let pitch := mode.(Info).(PixelsPerScanLine) in
  _ ← on_mem (fill_screen fb width height pitch 0x00102030);
  DrawBMP fb width height pitch
    (if 200 <? width then (width - 200) / 2 else 0)
    (if 200 <? height then (height - 200) / 2 else 0) logo_bmp 4).
Proof.
  intros s. rewrite (bind_eq _ _ _ _ _ (gets_eq _ s)). exists tt. apply draw_screen_from.
Qed.

Lemma tame_enter_gop polls g m : keys_come polls -> tame (F := F) (enter_gop polls g m).
Proof.
  intros Hkeys. pose proof (@tame_println F _ _) as T1. pose proof (@tame_print F _ _) as T2.
  pose proof (@tame_print_hex F _ _) as T3. pose proof (tame_wait_key polls Hkeys) as T4.
  unfold enter_gop. cbv zeta.
  do 13 (apply tame_bind; [tame_steps|intros]).
  apply tame_bind; [tame_steps|intros]. apply tame_bind; [tame_steps|intros].
  apply tame_bind; [tame_steps|intros]. apply tame_draw_screen.
Qed.
End screen.
End gop.
