(* ===== verification/BootHandOver.v ===== *)
(** * Leaving the firmware: lemmas

    The ranges mapped for the hand-off, and the last stage of [efi_main]: the
    record, the memory map and [ExitBootServices]. *)

From S2P Require Import Prelude FromBoot Pmm PageTable Efi EfiFacts BootLib BootPaging BootPagingFacts BootPagingTheorems BootElf BootElfFacts BootElfTheorems BootGop BootGopFacts LogoData Boot BootRecord BootFacts BootStages.

Section firmware.
Context {F : Type} `{HG : GopLaws F}.

(** ** The graphics mode while pages are mapped *)

Definition same_mode (s t : loader F) : Prop := forall g, GopMode g t.(fw) = GopMode g s.(fw).

Definition mode_kept {A : Type} (m : M (loader F) A) : Prop :=
  forall s, match m s with Done (_, t) => same_mode s t | _ => True end.

Lemma mode_kept_bind {A B : Type} (m : M (loader F) A) (f : A -> M (loader F) B) :
  mode_kept m -> (forall a, mode_kept (f a)) -> mode_kept (m ≫= f).
Proof.
  intros Hm Hf s. unfold mbind, M_bind. specialize (Hm s). destruct (m s) as [[a t]|w|]; [|done..].
  specialize (Hf a t). destruct (f a t) as [[b u]|w|]; [|done..].
  intros g. by rewrite Hf, Hm.
Qed.

Lemma mode_kept_alloc t n a : mode_kept (allocate_pages t n a).
Proof.
  intros s. unfold allocate_pages, call.
  pose proof (fun g => fl_gop_alloc g t EfiLoaderData n a s.(fw)) as Hg.
  destruct (AllocatePages t EfiLoaderData n a s.(fw)) as [r f]. exact Hg.
Qed.

Lemma mode_kept_level table i : mode_kept (handoff_level table i).
Proof.
  unfold handoff_level. apply mode_kept_bind; [done|]. intros e. destruct (present e); [done|].
  apply mode_kept_bind; [|intros [st a]; by destruct (EFI_ERROR st)].
  unfold allocate_table. apply mode_kept_bind; [apply mode_kept_alloc|]. intros [st a].
  by destruct (EFI_ERROR st).
Qed.

Lemma mode_kept_page pml4 p : mode_kept (map_handoff_page pml4 p).
Proof.
  unfold map_handoff_page. do 3 (apply mode_kept_bind; [apply mode_kept_level|]; intros [? ?];
    destruct (EFI_ERROR _); [done|]). done.
Qed.

Lemma mode_kept_range pml4 a n : mode_kept (map_handoff_range pml4 a n).
Proof.
  unfold map_handoff_range. destruct (_ <? _); [done|].
  generalize (a - a mod PAGE_SIZE), (u64 (a + n)), (Z.to_nat (n / PAGE_SIZE + 2)). intros p e fuel.
  revert p. induction fuel as [|fuel IH]; intros p; cbn [handoff_loop]; destruct (negb (p <? e)); try done.
  destruct (p <? HANDOFF_IDENTITY_SIZE); [apply IH|].
  apply mode_kept_bind; [apply mode_kept_page|]. intros st. destruct (EFI_ERROR st); [done|apply IH].
Qed.

(** ** The mapped ranges *)

(** The pages of [n] bytes from [a] on that lie above 512 GiB. *)
Definition high_pages (a n q : Z) : bool := (2 ^ 27 <=? q) && (a / 4096 <=? q) && (q * 4096 <? a + n).

Definition handoff_pages (image : loaded_image) (rsp : Z) (mode : gop_mode) (q : Z) : bool :=
  high_pages image.(ImageBase) image.(ImageSize) q ||
  high_pages (if 0x10000 <? rsp then rsp - 0x10000 else 0) 0x20000 q ||
  high_pages mode.(FrameBufferBase) mode.(FrameBufferSize) q.

Section tables.
Context (r pt : Z) (pds : list Z).
Notation space := (space r pt pds).
Notation grows := (grows r pt pds).

Lemma map_range_run P (s : loader F) a n : space P s -> 0 <= a -> 0 <= n -> a + n <= 2 ^ 48 ->
  exists st t, map_handoff_range (r * 4096) a n s = Done (st, t) /\ grows s t /\ same_mode s t /\
    (EFI_ERROR st = false -> space (fun q => P q || high_pages a n q) t).
Proof.
  intros Hs Ha Hn Hm. destruct (map_handoff_range_spec r pt pds P s a n Hs Ha Hn Hm) as (st & t & E & G & R).
  exists st, t. split_and!; [done|done| |].
  - pose proof (mode_kept_range (r * 4096) a n s) as Hk. by rewrite E in Hk.
  - intros Er. destruct R as [[Er' _]|[_ S]]; [congruence|exact S].
Qed.

Lemma map_handoff_spec (s : loader F) rsp gop image : space (fun _ => false) s ->
  (exists h f, image = ImageData h f) -> 0 <= rsp <= 2 ^ 47 -> screens_linear (F := F) ->
  exists x t, map_handoff (r * 4096) rsp gop image s = Done (x, t) /\ grows s t /\
    (x = Some tt -> space (handoff_pages image rsp (GopMode gop t.(fw))) t).
Proof.
  intros Hs (h & f & ->) Hrsp Hlin. unfold map_handoff, check.
  pose proof (fl_image h f) as (Hi1 & Hi2 & Hi3). cbv zeta in *.
  destruct (map_range_run _ s _ _ Hs Hi1 Hi2 Hi3) as (st1 & t1 & E1 & G1 & _ & S1).
  rewrite (bind_eq _ _ _ _ _ E1). destruct (EFI_ERROR st1); [by exists None, t1|].
  set (start := if 0x10000 <? rsp then rsp - 0x10000 else 0).
  assert (0 <= start /\ start + 0x20000 <= 2 ^ 48) as [Hst1 Hst2].
  { unfold start. destruct (Z.ltb_spec 0x10000 rsp); lia. }
  destruct (map_range_run _ t1 start 0x20000 (S1 eq_refl) Hst1 ltac:(lia) Hst2) as (st2 & t2 & E2 & G2 & _ & S2).
  rewrite (bind_eq _ _ _ _ _ E2). assert (grows s t2) as G12 by (by transitivity t1).
  destruct (EFI_ERROR st2); [by exists None, t2|].
  rewrite (bind_eq _ _ _ _ _ (gets_eq _ t2)). cbv beta.
  destruct (fl_gop_types gop t2.(fw)) as (_ & [Hf1 _] & [Hf2 _] & _), (Hlin gop t2.(fw)) as [[Hf3 _] _].
  destruct (map_range_run _ t2 _ _ (S2 eq_refl) Hf1 Hf2 Hf3) as (st3 & t3 & E3 & G3 & M3 & S3).
  rewrite (bind_eq _ _ _ _ _ E3). assert (grows s t3) as G13 by (by transitivity t2).
  destruct (EFI_ERROR st3); [by exists None, t3|].
  exists (Some tt), t3. split_and!; [done|done|]. intros _. rewrite M3. exact (S3 eq_refl).
Qed.

(** What was loaded outside the tables survives their growth. *)
Lemma grows_byte (s t u : loader F) P a : space P s -> from s t -> grows t u ->
  owned s.(fw) (a / PAGE_SIZE) = false -> owned t.(fw) (a / PAGE_SIZE) = true ->
  load8 u.(mem) a = load8 t.(mem) a /\ owned u.(fw) (a / PAGE_SIZE) = true.
Proof.
  intros Hs K [Kg _] Hf Ho. split; [|by apply (kp_owned _ _ _ Kg)].
  apply (kp_bytes _ _ _ Kg); [done|]. by apply (new_not_table _ _ _ P s).
Qed.

Lemma kernel_loaded_grows data (s t u : loader F) P : space P s -> from s t -> grows t u ->
  kernel_loaded data s t -> kernel_loaded data s u.
Proof.
  intros Hs K G [K1 K2 K3 K4 K5]. constructor; [done|..].
  - intros k Hk. assert (in_bytes kernelAddr (Z.of_nat (length data)) (kernelAddr + k) = true) as Hin
      by (apply in_bytes_spec; lia).
    destruct (K3 _ Hin) as [Hf Ho]. destruct (grows_byte s t u P _ Hs K G Hf Ho) as [-> _]. by apply K2.
  - intros a Ha. destruct (K3 a Ha) as [Hf Ho]. destruct (grows_byte s t u P a Hs K G Hf Ho). done.
  - intros i Hi p Hty k Hk. assert (in_bytes p.(p_paddr) p.(p_memsz) (p.(p_paddr) + k) = true) as Hin
      by (apply in_bytes_spec; lia).
    destruct (K5 i Hi Hty _ Hin) as [Hf Ho]. destruct (grows_byte s t u P _ Hs K G Hf Ho) as [-> _].
    by apply (K4 i Hi Hty).
  - intros i Hi p Hty a Ha. destruct (K5 i Hi Hty a Ha) as [Hf Ho].
    destruct (grows_byte s t u P a Hs K G Hf Ho). done.
Qed.

Lemma loaded_grows f a n (s t u : loader F) P : space P s -> from s t -> grows t u ->
  loaded f a n s t -> loaded f a n s u.
Proof.
  intros Hs K G [L1 L2 (data & L3 & L4 & L5) L6]. constructor; [done|done| |].
  - exists data. split_and!; [done|done|]. intros k Hk.
    destruct (L6 (a + k)) as [Hf Ho]; [apply in_bytes_spec; lia|].
    destruct (grows_byte s t u P _ Hs K G Hf Ho) as [-> _]. by apply L5.
  - intros b Hb. destruct (L6 b Hb) as [Hf Ho]. destruct (grows_byte s t u P b Hs K G Hf Ho). done.
Qed.
End tables.

(** ** The memory map *)

Lemma get_memory_map_spec n buffer (s : loader F) :
  let r := (GetMemoryMap n (negb (buffer =? 0)) s.(fw)).1 in
  let f := (GetMemoryMap n (negb (buffer =? 0)) s.(fw)).2 in
  get_memory_map n buffer s = Done (r, if EFI_ERROR r.(mr_status) || (buffer =? 0) then set_fw f s
    else set_mem (store_bytes buffer r.(mr_bytes) s.(mem)) (set_fw f s)).
Proof.
  cbv zeta. unfold get_memory_map, call, on_mem, mbind, M_bind, mret, M_ret.
  destruct (GetMemoryMap n (negb (buffer =? 0)) s.(fw)) as [r f]. cbn [fst snd].
  by destruct (EFI_ERROR _ || _).
Qed.

(** The map that lies in memory is the one whose key [ExitBootServices]
    accepted, with no firmware call in between. *)
Definition map_accepted (info : BootInfo) (t : loader F) : Prop := exists n f,
  let r := (GetMemoryMap n true f).1 in
  let f' := (GetMemoryMap n true f).2 in
  EFI_ERROR r.(mr_status) = false /\
  info.(memory_map_size) = r.(mr_size) /\ info.(memory_descriptor_size) = r.(mr_descriptor_size) /\
  (forall k, 0 <= k < r.(mr_size) -> load8 t.(mem) (info.(memory_map) + k) = u8 (aget r.(mr_bytes) k)) /\
  EFI_ERROR (ExitBootServices r.(mr_key) f').1 = false /\ t.(fw) = (ExitBootServices r.(mr_key) f').2.

(** The record but for the two fields a refresh changes. *)
Definition same_record (i j : BootInfo) : Prop :=
  set_map 0 0 i = set_map 0 0 j.

Lemma exit_spec key (s : loader F) :
  exit_boot_services key s = Done ((ExitBootServices key s.(fw)).1, set_fw (ExitBootServices key s.(fw)).2 s).
Proof.
  unfold exit_boot_services, call, mbind, M_bind, mret, M_ret.
  by destruct (ExitBootServices key s.(fw)) as [st f].
Qed.

Lemma serial_from str (s : loader F) : exists t, serial_write str s = Done (tt, t) /\ from s t /\
  t.(fw) = s.(fw) /\ t.(mem) = s.(mem).
Proof. eexists. split; [reflexivity|]. split_and!; [by apply keeps_fw|done|done]. Qed.

Lemma serial_hex_from v (s : loader F) : exists t, serial_write_hex v s = Done (tt, t) /\ from s t /\
  t.(fw) = s.(fw) /\ t.(mem) = s.(mem).
Proof. eexists. split; [reflexivity|]. split_and!; [by apply keeps_fw|done|done]. Qed.

Section leave.
(** [s]: the state before the record's pages and the buffer at [buffer],
    [capacity] bytes, were obtained. *)
Context (s : loader F) (addr buffer capacity : Z).
Context (Hbuf : 0 < buffer) (Hpages : forall a, in_bytes buffer capacity a = true -> owned s.(fw) (a / PAGE_SIZE) = false).
Context (Hrec : forall a, in_bytes addr sizeof_BootInfo a = true -> owned s.(fw) (a / PAGE_SIZE) = false).
Context (Hdis : forall a, in_bytes addr sizeof_BootInfo a = true -> in_bytes buffer capacity a = false).

Notation in_record := (fun '(off, n, _) => 0 <= off /\ off + Z.of_nat n <= sizeof_BootInfo).

Lemma fields_from l (u : loader F) : Forall in_record l -> from s u ->
  from s (set_mem (store_fields addr l u.(mem)) u).
Proof.
  intros Hl [O B R]. constructor; [done| |intros Hr; by apply store_fields_ok, R].
  intros a Ha Hx. cbn [mem set_mem]. rewrite store_fields_out; [by apply B|done|].
  destruct (in_bytes addr _ a) eqn:E; [|done]. apply Hrec in E. congruence.
Qed.

(** The map lies at [buffer] as the firmware at [f0] gives it. *)
Definition map_stored (f0 : F) (m : ram) : Prop :=
  let r := (GetMemoryMap capacity true f0).1 in
  forall k, 0 <= k < r.(mr_size) -> load8 m (buffer + k) = u8 (aget r.(mr_bytes) k).

Lemma map_fits f0 k : let r := (GetMemoryMap capacity true f0).1 in
  EFI_ERROR r.(mr_status) = false -> 0 <= k < r.(mr_size) -> in_bytes buffer capacity (buffer + k) = true.
Proof.
  cbv zeta. intros E Hk. destruct (fl_reply capacity true f0) as (_ & _ & Hl).
  destruct (Hl E) as [_ Hc]. apply in_bytes_spec. lia.
Qed.

Lemma map_stored_fields f0 l m : EFI_ERROR (GetMemoryMap capacity true f0).1.(mr_status) = false ->
  Forall in_record l -> map_stored f0 m -> map_stored f0 (store_fields addr l m).
Proof.
  intros E Hl Hm k Hk. rewrite store_fields_out; [by apply Hm|done|]. pose proof (map_fits f0 k E Hk) as Hb.
  destruct (in_bytes addr _ _) eqn:Ea; [|done]. apply Hdis in Ea. congruence.
Qed.

Lemma map_step (u : loader F) : from s u ->
  let r := (GetMemoryMap capacity true u.(fw)).1 in
  let f := (GetMemoryMap capacity true u.(fw)).2 in
  exists t, get_memory_map capacity buffer u = Done (r, t) /\ from s t /\ t.(fw) = f /\
    load_record t.(mem) addr = load_record u.(mem) addr /\
    (EFI_ERROR r.(mr_status) = false -> map_stored u.(fw) t.(mem)).
Proof.
  intros K. cbv zeta. eexists. split.
  { rewrite get_memory_map_spec. by rewrite (proj2 (Z.eqb_neq buffer 0)) by lia. }
  rewrite orb_false_r. cbn [negb].
  pose proof (fl_reply capacity true u.(fw)) as (_ & _ & Hlen). cbv zeta in Hlen.
  assert (from u (set_fw (GetMemoryMap capacity true u.(fw)).2 u)) as K1.
  { apply keeps_fw; [|done]. intros q. apply fl_map. }
  destruct (EFI_ERROR _); [split_and!; [by transitivity u|done|done|done]|].
  destruct (Hlen eq_refl) as [Hl Hcap].
  assert (forall a, in_bytes buffer capacity a = false ->
    in_bytes buffer (Z.of_nat (length (GetMemoryMap capacity true u.(fw)).1.(mr_bytes))) a = false) as Hin.
  { intros a. rewrite !in_bytes_false. lia. }
  split_and!; [|done|..].
  - destruct K as [O B R]. constructor.
    + intros q Hq. cbn. rewrite fl_map. by apply O.
    + intros a Ha Hx. cbn [mem set_mem set_fw]. rewrite load8_store_bytes, Hin; [by apply B|].
      destruct (in_bytes buffer capacity a) eqn:E; [|done]. apply Hpages in E. congruence.
    + intros Hr. by apply store_bytes_ok, R.
  - apply load_record_ext. intros a Ha. cbn [mem set_mem set_fw]. by rewrite load8_store_bytes, Hin by (by apply Hdis).
  - intros _ k Hk. cbn [mem set_mem]. rewrite load8_store_bytes, (proj2 (in_bytes_spec _ _ _)) by lia.
    do 2 f_equal. lia.
Qed.

Lemma accepted f0 (t : loader F) : let r := (GetMemoryMap capacity true f0).1 in
  let f := (GetMemoryMap capacity true f0).2 in let info := load_record t.(mem) addr in
  info.(memory_map) = buffer -> info.(memory_map_size) = r.(mr_size) ->
  info.(memory_descriptor_size) = r.(mr_descriptor_size) ->
  EFI_ERROR r.(mr_status) = false -> map_stored f0 t.(mem) ->
  EFI_ERROR (ExitBootServices r.(mr_key) f).1 = false -> t.(fw) = (ExitBootServices r.(mr_key) f).2 ->
  map_accepted info t.
Proof. cbv zeta. intros Hm. intros. exists capacity, f0. cbv zeta. rewrite Hm. by split_and!. Qed.

Lemma exit_from (u : loader F) key : from s u -> from s (set_fw (ExitBootServices key u.(fw)).2 u).
Proof. intros K. transitivity u; [done|]. apply keeps_fw; [|done]. intros q. apply fl_exit. Qed.

(** [u]: the state after the map was read at [f0] and the record written. *)
Lemma leave_firmware_spec (u : loader F) f0 : from s u ->
  let r := (GetMemoryMap capacity true f0).1 in let info := load_record u.(mem) addr in
  u.(fw) = (GetMemoryMap capacity true f0).2 -> EFI_ERROR r.(mr_status) = false ->
  info.(memory_map) = buffer -> info.(memory_map_size) = r.(mr_size) ->
  info.(memory_descriptor_size) = r.(mr_descriptor_size) -> map_stored f0 u.(mem) ->
  exists x t, leave_firmware r.(mr_key) capacity addr buffer u = Done (x, t) /\ from s t /\
    (x = Some tt -> same_record info (load_record t.(mem) addr) /\ map_accepted (load_record t.(mem) addr) t).
Proof.
  cbv zeta. intros K Hfw Her Hm Hsz Hds Hb. unfold leave_firmware.
  rewrite (bind_eq _ _ _ _ _ (exit_spec _ u)). rewrite Hfw.
  pose proof (exit_from u (GetMemoryMap capacity true f0).1.(mr_key) K) as Kt. rewrite Hfw in Kt.
  set (t := set_fw _ u) in *. destruct (EFI_ERROR (ExitBootServices _ _).1) eqn:Ex; cbn [negb].
  2:{ exists (Some tt), t. split_and!; [done|done|]. intros _. split; [done|]. by apply (accepted f0). }
  destruct (println_quiet (L "[!] ExitBootServices failed") t) as (t0 & E0 & Q0). rewrite (bind_eq _ _ _ _ _ E0).
  assert (t0.(mem) = u.(mem)) as Em by (by rewrite (qt_mem _ _ Q0)).
  apply quiet_from in Q0.
  destruct (map_step t0) as (v & E & Kv & Hfv & Hrv & Hbv); [by transitivity t|].
  rewrite (bind_eq _ _ _ _ _ E).
  destruct (EFI_ERROR (mr_status (GetMemoryMap capacity true t0.(fw)).1)) eqn:Er2.
  { run (println_from (L "[!] Memory map refresh failed") v). do 2 eexists.
    split_and!; [done|by transitivity v|done]. }
  specialize (Hbv eq_refl). set (r2 := (GetMemoryMap capacity true t0.(fw)).1) in *.
  set (l := [(48, 8%nat, r2.(mr_size)); (56, 8%nat, r2.(mr_descriptor_size))]).
  assert (Forall in_record l) as Hl by (unfold l, sizeof_BootInfo; repeat (apply Forall_cons_2; [lia|]); by apply Forall_nil_2).
  set (w := set_mem (store_fields addr l v.(mem)) v).
  assert (from s w) as Kw by (by apply fields_from).
  rewrite (bind_eq (on_mem _) _ _ tt w), (bind_eq _ _ _ _ _ (exit_spec _ w)) by done.
  apply (exit_from w r2.(mr_key)) in Kw. set (x := set_fw _ w) in *.
  destruct (EFI_ERROR (ExitBootServices r2.(mr_key) w.(fw)).1) eqn:Ex2.
  { run (println_from (L "[!] ExitBootServices retry failed") x). do 2 eexists.
    split_and!; [done|by transitivity x|done]. }
  do 2 eexists. split_and!; [done|done|]. intros _.
  pose proof (fl_reply capacity true t0.(fw)) as (Hr1 & Hr2 & _). cbv zeta in Hr1, Hr2. fold r2 in Hr1, Hr2.
  assert (load_record x.(mem) addr = set_map r2.(mr_size) r2.(mr_descriptor_size) (load_record t0.(mem) addr)) as Ei.
  { unfold x, w, l. cbn [mem set_fw set_mem]. rewrite load_refreshed by (unfold in_u64; lia). by rewrite Hrv. }
  rewrite Em in Ei. split; [by rewrite Ei|].
  apply (accepted t0.(fw)); [by rewrite Ei..|done|by apply map_stored_fields| |]; fold r2; by rewrite <-Hfv.
Qed.

(** Writing the record and leaving: [u] is the state after the map was read. *)
Lemma record_spec (u : loader F) f0 info : from s u -> record_ok info ->
  let r := (GetMemoryMap capacity true f0).1 in
  u.(fw) = (GetMemoryMap capacity true f0).2 -> EFI_ERROR r.(mr_status) = false ->
  info.(memory_map) = buffer -> info.(memory_map_size) = r.(mr_size) ->
  info.(memory_descriptor_size) = r.(mr_descriptor_size) -> map_stored f0 u.(mem) ->
  exists x t, (
    _ ← on_mem (store_record addr info);
    _ ← serial_write (L "bootInfo ptr: ");
    _ ← serial_write_hex addr;
    _ ← serial_write (L "magic: ");
    magic ← gets (fun s => load_le 8 s.(mem) addr);
    _ ← serial_write_hex magic;
    _ ←? leave_firmware r.(mr_key) capacity addr buffer;
    mret (Some addr)) u = Done (x, t) /\ from s t /\
    forall a, x = Some a -> a = addr /\ same_record info (load_record t.(mem) addr) /\
      map_accepted (load_record t.(mem) addr) t.
Proof.
  cbv zeta. intros K Hok Hfw Her Hm Hsz Hds Hb.
  set (v := set_mem (store_record addr info u.(mem)) u). rewrite (bind_eq (on_mem _) _ _ tt v) by done.
  assert (from s v) as Kv by (apply fields_from; [apply record_fields_in|done]).
  destruct (serial_from (L "bootInfo ptr: ") v) as (t5 & E5 & K5 & F5 & X5). rewrite (bind_eq _ _ _ _ _ E5).
  destruct (serial_hex_from addr t5) as (t6 & E6 & K6 & F6 & X6). rewrite (bind_eq _ _ _ _ _ E6).
  destruct (serial_from (L "magic: ") t6) as (t7 & E7 & K7 & F7 & X7). rewrite (bind_eq _ _ _ _ _ E7).
  rewrite (bind_eq _ _ _ _ _ (gets_eq _ t7)). cbv beta.
  destruct (serial_hex_from (load_le 8 t7.(mem) addr) t7) as (t8 & E8 & K8 & F8 & X8). rewrite (bind_eq _ _ _ _ _ E8).
  assert (from s t8) as Ks8 by (clear -Kv K5 K6 K7 K8; from_trans).
  assert (t8.(mem) = v.(mem) /\ t8.(fw) = u.(fw)) as [Em Ef] by (by rewrite F8, F7, F6, F5, X8, X7, X6, X5).
  assert (load_record t8.(mem) addr = info) as Ei by (rewrite Em; by apply load_store_record).
  destruct (leave_firmware_spec t8 f0 Ks8) as (x & t9 & E9 & K9 & R9);
    [by rewrite Ef|done|by rewrite Ei..| |].
  { rewrite Em. apply map_stored_fields; [done|apply record_fields_in|done]. }
  unfold attempt. rewrite (bind_eq _ _ _ _ _ E9). rewrite Ei in R9.
  destruct x as [[]|]; do 2 eexists; (split_and!; [done|done|]); [|done]. intros a [= <-].
  split; [done|]. by apply R9.
Qed.
End leave.

(** ** The record *)

(** The contents of the hand-off record. *)
Record handed (gop : Z) (fs : files) (addr : Z) (info : BootInfo) (s t : loader F) : Prop := {
  ho_address : 0 < addr /\ addr + sizeof_BootInfo <= 2 ^ 32;
  ho_magic : info.(magic) = BOOTINFOMAGIC;
  ho_frame : let mode := GopMode gop s.(fw) in
    info.(framebuffer_base) = mode.(FrameBufferBase) /\ info.(framebuffer_size) = mode.(FrameBufferSize) /\
    info.(width) = mode.(Info).(HorizontalResolution) /\ info.(height) = mode.(Info).(VerticalResolution) /\
    info.(pixels_per_scanline) = mode.(Info).(PixelsPerScanLine) /\
    info.(framebuffer_pixel_format) = mode.(Info).(PixelFormat);
  ho_kernel : let b := fs.(f_bounds) in
    info.(kernel_physical_address_start) = b.(phys_start) /\ info.(kernel_physical_address_end) = b.(phys_end);
  ho_ramdisk : info.(initramfs_address) = ramdisk_addr /\ info.(initramfs_size) = fs.(f_ramdisk_size);
  ho_map : map_accepted info t;
}.

(** Pages obtained below 4 GiB. *)
Lemma allocate_low n (s : loader F) : 0 <= n ->
  exists st a t, allocate_pages AllocateMaxAddress n 0xFFFFFFFF s = Done ((st, a), t) /\ from s t /\ same_mode s t /\
    (EFI_ERROR st = false -> a mod PAGE_SIZE = 0 /\ 0 < a /\ a + n * PAGE_SIZE <= 2 ^ 32 /\
      forall q, in_range (a / PAGE_SIZE) n q = true -> owned s.(fw) q = false /\ owned t.(fw) q = true).
Proof.
  intros Hn. unfold allocate_pages, call.
  pose proof (fun g => fl_gop_alloc g AllocateMaxAddress EfiLoaderData n 0xFFFFFFFF s.(fw)) as Hg.
  destruct (AllocatePages _ _ _ _ _) as [[st a] f] eqn:E. exists st, a, (set_fw f s).
  apply fl_alloc in E; [|done]. destruct E as [[Er Hown]|(Er & Hal & Hpos & _ & _ & Hmax & Hfree & Hown)].
  - split_and!; [done|by apply keeps_fw|exact Hg|congruence].
  - specialize (Hmax eq_refl). split_and!; [done| |exact Hg|intros _; split_and!; [done|done|lia|]].
    + constructor; [|done|done]. intros q Hq. cbn [fw set_fw]. by rewrite Hown, Hq.
    + intros q Hq. split; [by apply Hfree|]. cbn [fw set_fw]. by rewrite Hown, Hq, orb_true_r.
Qed.

Lemma map_mode n buffer (s : loader F) : mode_kept (get_memory_map n buffer).
Proof.
  clear s. intros s. rewrite get_memory_map_spec. cbv zeta. intros g.
  pose proof (fl_gop_map g n (negb (buffer =? 0)) s.(fw)) as Hg. by destruct (_ || _).
Qed.

Lemma size_lookup (s : loader F) : exists r t, get_memory_map 0 0 s = Done (r, t) /\ from s t /\ same_mode s t /\
  0 <= r.(mr_size) < 2 ^ 32 /\ 0 <= r.(mr_descriptor_size) < 2 ^ 16.
Proof.
  pose proof (map_mode 0 0 s s) as Hk. pose proof (get_memory_map_spec 0 0 s) as E. cbv zeta in E.
  rewrite orb_true_r in E. rewrite E in Hk. do 2 eexists. split_and!; [exact E| |exact Hk|..].
  1: apply keeps_fw; [|done]; intros q; apply fl_map.
  all: pose proof (fl_reply 0 false s.(fw)) as Hr; cbv zeta in Hr; cbn [negb Z.eqb]; lia.
Qed.

(** The pages of the record and those of the memory map are new and distinct. *)
Lemma fresh_pages (s t1 t2 t3 : loader F) addr buffer capacity : from s t1 -> from t1 t2 ->
  addr mod PAGE_SIZE = 0 -> buffer mod PAGE_SIZE = 0 -> capacity <= EFI_SIZE_TO_PAGES capacity * PAGE_SIZE ->
  (forall q, in_range (addr / PAGE_SIZE) 1 q = true -> owned s.(fw) q = false /\ owned t1.(fw) q = true) ->
  (forall q, in_range (buffer / PAGE_SIZE) (EFI_SIZE_TO_PAGES capacity) q = true ->
    owned t2.(fw) q = false /\ owned t3.(fw) q = true) ->
  (forall a, in_bytes buffer capacity a = true -> owned s.(fw) (a / PAGE_SIZE) = false) /\
  (forall a, in_bytes addr sizeof_BootInfo a = true -> owned s.(fw) (a / PAGE_SIZE) = false) /\
  (forall a, in_bytes addr sizeof_BootInfo a = true -> in_bytes buffer capacity a = false).
Proof.
  intros K1 K2 Ha Hb Hc Hrec Hmap.
  assert (forall a, in_bytes buffer capacity a = true -> owned t2.(fw) (a / PAGE_SIZE) = false) as Hb'.
  { intros a Hin%in_bytes_spec. apply Hmap, page_of_byte; [done|lia]. }
  assert (forall a, in_bytes addr sizeof_BootInfo a = true ->
    owned s.(fw) (a / PAGE_SIZE) = false /\ owned t1.(fw) (a / PAGE_SIZE) = true) as Ha'.
  { intros a Hin%in_bytes_spec. apply Hrec, page_of_byte; [done|]. unfold sizeof_BootInfo, PAGE_SIZE in *. lia. }
  split_and!.
  - intros a Hin%Hb'. destruct (owned s.(fw) (a / PAGE_SIZE)) eqn:E; [|done].
    apply (kp_owned _ _ _ K1), (kp_owned _ _ _ K2) in E. congruence.
  - intros a Hin. by apply Ha'.
  - intros a Hin. destruct (in_bytes buffer capacity a) eqn:E; [|done]. apply Hb' in E.
    destruct (Ha' a Hin) as [_ Ho]. apply (kp_owned _ _ _ K2) in Ho. congruence.
Qed.

Lemma new_record_ok g (f : F) fs buffer size descriptor : bounds_ok fs.(f_bounds) -> in_u64 fs.(f_ramdisk_size) ->
  in_u64 buffer -> in_u64 size -> in_u64 descriptor ->
  record_ok (new_record (GopMode g f) fs buffer size descriptor).
Proof.
  intros (B1 & B2 & B3 & B4) Hrd Hb Hs Hd. pose proof (fl_gop_types g f) as Hf. cbv zeta in Hf.
  pose proof (u64_range (fs.(f_bounds).(virt_end) - fs.(f_bounds).(virt_start))).
  unfold in_u64 in *. constructor; cbn; unfold in_u64, in_u32, BOOTINFOMAGIC, ramdisk_addr; lia.
Qed.

Lemma hand_over_spec gop fs (s : loader F) : bounds_ok fs.(f_bounds) -> 0 <= fs.(f_ramdisk_size) < 2 ^ 52 ->
  exists x t, hand_over gop fs s = Done (x, t) /\ from s t /\
    forall addr, x = Some addr -> handed gop fs addr (load_record t.(mem) addr) s t.
Proof.
  intros Hbo Hrd. unfold hand_over.
  destruct (allocate_low (EFI_SIZE_TO_PAGES sizeof_BootInfo) s) as (st1 & addr & t1 & E1 & K1 & M1 & A1); [done|].
  rewrite (bind_eq _ _ _ _ _ E1). destruct (EFI_ERROR st1).
  { run (println_from (L "[!] Failed to allocate pool for bootinfo...") t1).
    do 2 eexists. split_and!; [done|by transitivity t1|done]. }
  destruct (size_lookup t1) as (r0 & t2 & E2 & K2 & M2 & Hsz & Hds). rewrite (bind_eq _ _ _ _ _ E2).
  destruct (_ =? EFI_BUFFER_TOO_SMALL); cbn [negb].
  2:{ run (println_from (L "[!] Memory map size lookup failed") t2).
      do 2 eexists. split_and!; [done|transitivity t2; [by transitivity t1|done]|done]. }
  cbv zeta. rewrite !u64_id by (rewrite ?u64_id by (unfold in_u64; lia); unfold in_u64; lia).
  set (capacity := r0.(mr_size) + r0.(mr_descriptor_size) * 8) in *.
  assert (0 <= capacity) as Hcap by lia. pose proof (size_to_pages capacity Hcap) as Hpg.
  destruct (allocate_low (EFI_SIZE_TO_PAGES capacity) t2) as (st3 & buffer & t3 & E3 & K3 & M3 & A3).
  { unfold PAGE_SIZE in Hpg. lia. }
  assert (from s t2) as K12 by (by transitivity t1). assert (from s t3) as K13 by (by transitivity t2).
  rewrite (bind_eq _ _ _ _ _ E3). destruct (EFI_ERROR st3).
  { run (println_from (L "[!] Memory map alloc failed") t3). do 2 eexists. split_and!; [done|by transitivity t3|done]. }
  destruct (A1 eq_refl) as (Hal1 & Hpos1 & Hmax1 & Hrec). destruct (A3 eq_refl) as (Hal & Hpos & Hmax & Hfree).
  destruct (fresh_pages s t1 t2 t3 addr buffer capacity) as (Hpages & Hrecord & Hdis); try done; [lia|].
  destruct (map_step s addr buffer capacity Hpos Hpages Hdis t3 K13) as (t4 & E4 & K4 & F4 & _ & B4).
  pose proof (map_mode capacity buffer t3 t3) as M4. rewrite E4 in M4.
  rewrite (bind_eq _ _ _ _ _ E4). set (r := (GetMemoryMap capacity true t3.(fw)).1) in *.
  destruct (EFI_ERROR r.(mr_status)) eqn:Er.
  { run (println_from (L "[!] Memory map failed") t4). do 2 eexists. split_and!; [done|by transitivity t4|done]. }
  rewrite (bind_eq _ _ _ _ _ (gets_eq _ t4)). cbv beta.
  assert (GopMode gop t4.(fw) = GopMode gop s.(fw)) as Emode by (by rewrite M4, M3, M2, M1). rewrite Emode.
  set (info := new_record _ _ _ _ _).
  pose proof (fl_reply capacity true t3.(fw)) as (Hr1 & Hr2 & _). cbv zeta in Hr1, Hr2. fold r in Hr1, Hr2.
  destruct (record_spec s addr buffer capacity Hpos Hpages Hrecord Hdis t4 t3.(fw) info) as (x & t & E & K & R);
    try done; [apply new_record_ok; unfold in_u64; try done; lia|by apply B4|].
  fold r in E. exists x, t. split_and!; [exact E|done|]. intros a Ha. destruct (R a Ha) as (-> & Hsame & Hacc).
  destruct (load_record t.(mem) addr). unfold same_record, set_map in Hsame. cbn in Hsame.
  injection Hsame as <- <- <- <- <- <- <- <- <- <- <- <- <- <- <-.
  change (EFI_SIZE_TO_PAGES sizeof_BootInfo) with 1 in Hmax1. unfold PAGE_SIZE in Hmax1.
  constructor; try done. unfold sizeof_BootInfo. lia.
Qed.
End firmware.
