(* ===== verification/BootMain.v ===== *)
(** * [efi_main]: its stages put together

    What the machine looks like when the loader calls the kernel
    ([kernel_entered]), and that [boot_kernel] brings it there or panics. *)

From S2P Require Import Prelude FromBoot Pmm PageTable Efi EfiFacts BootLib BootPaging BootPagingFacts BootPagingTheorems BootElf BootElfFacts BootElfTheorems BootGop BootGopFacts LogoData Boot BootRecord BootFacts BootStages BootHandOver.

Section firmware.
Context {F : Type} `{HG : GopLaws F}.

(** The machine the kernel finds; [s]: the machine the loader found.  Its
    tables map the first 512 GiB and what of the loader's image, of the stack
    and of the frame buffer lies above, each address to itself; the kernel and
    the RAM disk lie in pages that were free; the record, [info] as it reads at
    [addr], describes them, the frame buffer, and the memory map the firmware
    was left with. *)
Record kernel_entered (rsp : Z) (s t : loader F) (entry addr : Z) (info : BootInfo) : Prop := {
  ke_info : info = load_record t.(mem) addr;
  ke_walk : exists h f, let image := ImageData h f in forall v,
    walk t.(mem) t.(cr3) v =
    if (vpn v <? 2 ^ 27) || high_pages image.(ImageBase) image.(ImageSize) (vpn v) ||
       high_pages (if 0x10000 <? rsp then rsp - 0x10000 else 0) 0x20000 (vpn v) ||
       high_pages info.(framebuffer_base) info.(framebuffer_size) (vpn v)
    then Some (v mod 2 ^ 48) else None;
  ke_kernel : exists data, file_named (L "kernel.elf") data /\ kernel_loaded data s t /\
    entry = e_entry (file_mem data) 0 /\
    forall i, 0 <= i < e_phnum (file_mem data) 0 -> let p := file_header data i in p.(p_type) = 1 ->
    info.(kernel_physical_address_start) <= p.(p_paddr) /\
    p.(p_paddr) + p.(p_memsz) <= info.(kernel_physical_address_end);
  ke_ramdisk : info.(initramfs_address) = ramdisk_addr /\
    exists f, opened (L "ramdiskfs.cpio") f /\ loaded f ramdisk_addr info.(initramfs_size) s t;
  ke_record : (0 < addr /\ addr + sizeof_BootInfo <= 2 ^ 32) /\ info.(magic) = BOOTINFOMAGIC;
  ke_frame : exists gop f, let mode := GopMode gop f in
    info.(framebuffer_base) = mode.(FrameBufferBase) /\ info.(framebuffer_size) = mode.(FrameBufferSize) /\
    info.(width) = mode.(Info).(HorizontalResolution) /\ info.(height) = mode.(Info).(VerticalResolution) /\
    info.(pixels_per_scanline) = mode.(Info).(PixelsPerScanLine) /\
    info.(framebuffer_pixel_format) = mode.(Info).(PixelFormat);
  ke_map : map_accepted info t;
}.

(** The tables grow in pages that were not owned at [s]. *)
Lemma grows_from r pt pds (s t u : loader F) : from s t -> grows r pt pds t u ->
  (forall g, owned s.(fw) g = true -> ~ in_tables r pt pds t g) -> from s u.
Proof.
  intros [O B R] [[O' B' R'] _] Hn. constructor; [auto| |auto].
  intros a Ha Hx. rewrite B'; [by apply B|by apply O|by apply Hn].
Qed.

Lemma kernel_loaded_earlier data (s t u : loader F) : from s t -> kernel_loaded data t u -> kernel_loaded data s u.
Proof.
  intros K [K1 K2 K3 K4 K5].
  assert (forall q, owned t.(fw) q = false -> owned s.(fw) q = false) as Hf.
  { intros q Hq. destruct (owned s.(fw) q) eqn:E; [|done]. apply (kp_owned _ _ _ K) in E. congruence. }
  constructor; [done..| |done|].
  - intros a Ha. destruct (K3 a Ha). auto.
  - intros i Hi p Hty a Ha. destruct (K5 i Hi Hty a Ha). auto.
Qed.

(** The last stage keeps the tables and what was loaded. *)
Lemma last_stage rsp gop fs r pt pds (s s1 t u v : loader F) addr info :
  space r pt pds (fun _ => false) s1 -> from s s1 ->
  (exists data, file_named (L "kernel.elf") data /\ kernel_loaded data s1 t /\ covers data fs.(f_bounds)) ->
  (exists f, opened (L "ramdiskfs.cpio") f /\ loaded f ramdisk_addr fs.(f_ramdisk_size) s1 t) ->
  (exists h f, fs.(f_image) = ImageData h f) ->
  space r pt pds (handoff_pages fs.(f_image) rsp (GopMode gop t.(fw))) t ->
  from t u -> handed gop fs addr info t u -> info = load_record u.(mem) addr ->
  v.(fw) = u.(fw) -> v.(mem) = u.(mem) -> v.(cr3) = r * 4096 ->
  kernel_entered rsp s v (e_entry v.(mem) kernelAddr) addr info.
Proof.
  intros Hs1 K0 (data & Hd & Hk & Hcov) (f & Ho & Hrd) (h & g & Himg) Hs Kt [Ha Hm Hf Hb Hr Hmap] Ei Efw Emem Ecr3.
  assert (from u v) as Kv by (apply keeps_fw; [intros q; by rewrite Efw|done]).
  constructor.
  - by rewrite Emem.
  - exists h, g. cbv zeta. intros w. rewrite <-Himg, Emem, Ecr3.
    pose proof (space_from r pt pds _ t u Hs Kt) as Hsu. rewrite (space_walk r pt pds _ u w Hsu).
    destruct Hf as (Hfb & Hfs & _). unfold handoff_pages. rewrite Hfb, Hfs, <-!orb_assoc. done.
  - exists data. split; [done|]. split_and!.
    + apply kernel_loaded_earlier with s1; [done|].
      apply kernel_loaded_from with u; [|done]. by apply kernel_loaded_from with t.
    + pose proof (kernel_loaded_from data s1 t u Hk Kt) as Hku.
      rewrite Emem. apply (file_entry kernelAddr (Z.of_nat (length data)) u data eq_refl); [apply (kl_image _ _ _ Hku)|].
      apply (kl_file _ _ _ Hku).
    + intros i Hi p Hty. destruct Hb as [-> ->]. by apply Hcov.
  - destruct Hr as [-> ->]. split; [done|]. exists f. split; [done|]. apply loaded_earlier with s1; [done|].
    apply loaded_from with u; [|done]. by apply loaded_from with t.
  - by split.
  - by exists gop, t.(fw).
  - destruct Hmap as (n & f' & Hmap). exists n, f'. cbv zeta in *. by rewrite Emem, Efw.
Qed.

Lemma kernel_entered_earlier rsp (s0 s t : loader F) entry addr info : from s0 s ->
  kernel_entered rsp s t entry addr info -> kernel_entered rsp s0 t entry addr info.
Proof.
  intros K [I W (data & Hd & Hk & He) (Hr & f & Ho & Hl) R Fr Mp]. constructor; try done.
  - exists data. split; [done|]. split; [|done]. by apply kernel_loaded_earlier with s.
  - split; [done|]. exists f. split; [done|]. by apply loaded_earlier with s.
Qed.

Lemma serial_cr3 str (s : loader F) : exists t, serial_write str s = Done (tt, t) /\ t.(fw) = s.(fw) /\
  t.(mem) = s.(mem) /\ t.(cr3) = s.(cr3).
Proof. by eexists. Qed.

Context (polls : nat) (env : boot_env).
Context (Hkeys : keys_come (F := F) polls) (Hfiles : kernel_files_ok (F := F)) (Hmon : monitors_ok (F := F)).
Context (Hlin : screens_linear (F := F)).
Context (Hrsp : 0 <= env.(be_rsp) <= 2 ^ 47).

(** How a stage that may panic ends; [s]: the machine the loader found. *)
Definition boot_post (s : loader F) (x : option boot_end) (t : loader F) : Prop :=
  from s t /\
  forall e, x = Some e -> exists entry addr, e = Entered entry addr /\
    kernel_entered env.(be_rsp) s t entry addr (load_record t.(mem) addr).

Lemma boot_panic s t : from s t -> boot_post s None t.
Proof. by split. Qed.

(** From the mode on. *)
Lemma enter_spec r pt pds fs gop m (s s1 s2 : loader F) : ram_ok s.(mem) ->
  space r pt pds (fun _ => false) s1 -> from s s1 ->
  (forall g, owned s.(fw) g = true -> ~ in_tables r pt pds s1 g) -> from s1 s2 ->
  (exists data, file_named (L "kernel.elf") data /\ kernel_loaded data s1 s2 /\ covers data fs.(f_bounds)) ->
  (exists f, opened (L "ramdiskfs.cpio") f /\ loaded f ramdisk_addr fs.(f_ramdisk_size) s1 s2) ->
  bounds_ok fs.(f_bounds) -> (exists h f, fs.(f_image) = ImageData h f) ->
  exists x t, (
    _ ← enter_gop polls gop m;
    _ ←? map_handoff (r * 4096) env.(be_rsp) gop fs.(f_image);
    bootInfoAddr ←? hand_over gop fs;
    _ ← serial_write (L "BootInfo address: ");
    _ ← serial_write_hex env.(be_local);
    _ ← serial_write (L "Magic: ");
    magic ← gets (fun s => load_le 8 s.(mem) bootInfoAddr);
    _ ← serial_write_hex magic;
    _ ← write_cr3 (r * 4096);
    _ ← serial_write (L "Booting into kernel..." ++ [10]);
    entry ← gets (fun s => e_entry s.(mem) kernelAddr);
    mret (Some (Entered entry bootInfoAddr))) s2 = Done (x, t) /\ boot_post s x t.
Proof.
  intros Hok Hs1 K01 Hnew K12 (data & Hd & Hk & Hcov) (f & Ho & Hrd) Hbo Himg.
  destruct (tame_enter_gop Hlin polls gop m Hkeys s2) as ([] & s3 & E3 & K23). rewrite (bind_eq _ _ _ _ _ E3).
  assert (from s1 s3) as K13 by (by transitivity s2).
  destruct (map_handoff_spec r pt pds s3 env.(be_rsp) gop fs.(f_image)) as (x & s4 & E4 & G4 & S4);
    [by apply (space_from _ _ _ _ s1)|done|done|done|].
  assert (forall g, owned s1.(fw) g = true -> owned s.(fw) g = true -> ~ in_tables r pt pds s3 g) as Hnew3.
  { intros g Hg1 Hg Ht. destruct (space_keeps r pt pds _ _ s1 s3 Hs1 K13) as [_ E]; [tauto|].
    apply E in Ht. by apply (Hnew g). }
  assert (from s s4) as K04.
  { apply (grows_from r pt pds s s3 s4); [by transitivity s1|done|].
    intros g Hg. apply Hnew3; [by apply (kp_owned _ _ _ K01)|done]. }
  unfold attempt at 1. rewrite (bind_eq _ _ _ _ _ E4).
  destruct x as [[]|]; [|do 2 eexists; split; [done|by apply boot_panic]]. specialize (S4 eq_refl).
  assert (0 <= fs.(f_ramdisk_size) < 2 ^ 52) as Hsize.
  { pose proof (ld_size _ _ _ _ _ Hrd). destruct (ld_aligned _ _ _ _ _ Hrd) as (_ & _ & Hm). unfold ramdisk_addr in Hm. lia. }
  destruct (hand_over_spec gop fs s4 Hbo Hsize) as (y & s5 & E5 & K45 & R5).
  unfold attempt. rewrite (bind_eq _ _ _ _ _ E5).
  destruct y as [addr|]; [|do 2 eexists; split; [done|apply boot_panic; by transitivity s4]].
  specialize (R5 addr eq_refl).
  destruct (serial_from (L "BootInfo address: ") s5) as (t1 & E6 & T1 & F1 & M1). rewrite (bind_eq _ _ _ _ _ E6).
  destruct (serial_hex_from env.(be_local) t1) as (t2 & E7 & T2 & F2 & M2). rewrite (bind_eq _ _ _ _ _ E7).
  destruct (serial_from (L "Magic: ") t2) as (t3 & E8 & T3 & F3 & M3). rewrite (bind_eq _ _ _ _ _ E8).
  rewrite (bind_eq _ _ _ _ _ (gets_eq _ t3)). cbv beta.
  destruct (serial_hex_from (load_le 8 t3.(mem) addr) t3) as (t4 & E9 & T4 & F4 & M4). rewrite (bind_eq _ _ _ _ _ E9).
  set (t5 := mk_loader t4.(fw) t4.(mem) t4.(con) t4.(ser) t4.(pools) t4.(handles) (r * 4096)).
  rewrite (bind_eq (write_cr3 _) _ _ tt t5) by done.
  destruct (serial_cr3 (L "Booting into kernel..." ++ [10]) t5) as (t6 & E10 & F6 & M6 & C6).
  rewrite (bind_eq _ _ _ _ _ E10), (bind_eq _ _ _ _ _ (gets_eq _ t6)). cbv beta.
  assert (t6.(fw) = s5.(fw) /\ t6.(mem) = s5.(mem)) as [Ef Em].
  { rewrite F6, M6. unfold t5. cbn [fw mem]. by rewrite F4, F3, F2, F1, M4, M3, M2, M1. }
  do 2 eexists. split; [done|]. split.
  { transitivity s4; [done|]. transitivity s5; [done|]. apply keeps_fw; [intros q; by rewrite Ef|done]. }
  intros e [= <-]. do 2 eexists. split; [done|].
  apply (last_stage env.(be_rsp) gop fs r pt pds s s1 s4 s5 t6 addr); try (by rewrite Em); try done.
  - exists data. split; [done|]. split; [|done].
    apply (kernel_loaded_grows r pt pds data s1 s3 s4 _ Hs1 K13 G4). by apply kernel_loaded_from with s2.
  - exists f. split; [done|]. apply (loaded_grows r pt pds f _ _ s1 s3 s4 _ Hs1 K13 G4). by apply loaded_from with s2.
Qed.

Lemma boot_kernel_spec handle (s : loader F) : ram_ok s.(mem) ->
  exists x t, boot_kernel polls handle env s = Done (x, t) /\ boot_post s x t.
Proof.
  intros Hok. unfold boot_kernel.
  run (println_from (L "--- RAM ---") s).
  run (println_from (L "[+] Initializing Virt to Phys passthru" ++ crlf) t).
  assert (from s t0) as Ks by (by transitivity t).
  destruct (build_tables_spec t0) as (s1 & [[E1 K1]|(r & pt & pds & E1 & Hs1 & K1 & Hnew)]);
    [by apply (kp_ok _ _ _ Ks)| |]; unfold attempt at 1; rewrite (bind_eq _ _ _ _ _ E1).
  { do 2 eexists. split; [done|]. apply boot_panic. by transitivity t0. }
  assert (from s s1) as K01 by (by transitivity t0).
  destruct (load_files_spec handle env s1 Hfiles) as (x & s2 & E2 & [K12 Hx]); [by apply (kp_ok _ _ _ K01)|].
  unfold attempt at 1. rewrite (bind_eq _ _ _ _ _ E2).
  destruct x as [fs|]; [|do 2 eexists; split; [done|apply boot_panic; by transitivity s1]].
  destruct (Hx fs eq_refl) as (Hk & Hbo & Hrd & Himg).
  destruct (choose_mode_from env.(be_printGOP) s2 Hmon) as (y & s3 & E3 & K23).
  assert (from s1 s3) as K13 by (by transitivity s2).
  unfold attempt at 1. rewrite (bind_eq _ _ _ _ _ E3).
  destruct y as [[gop m]|]; [|do 2 eexists; split; [done|apply boot_panic; by transitivity s1]].
  apply (enter_spec r pt pds fs gop m s s1 s3); try done.
  - intros g Hg. apply Hnew. by apply (kp_owned _ _ _ Ks).
  - destruct Hk as (data & Hd & Hk & Hcov). exists data. split; [done|]. split; [|done]. by apply kernel_loaded_from with s2.
  - destruct Hrd as (f & Ho & Hrd). exists f. split; [done|]. by apply loaded_from with s2.
Qed.

(** Every run of the loader comes to an end, or to the store through a null
    pointer. *)
Lemma efi_main_ends handle (s0 : loader F) : ram_ok s0.(mem) ->
  let s := null_written env.(be_cpu) s0 in
  if null_faults env.(be_cpu) then efi_main polls handle env s0 = Fault
  else exists e t, efi_main polls handle env s0 = Done (e, t) /\ from s t /\
    match e with
    | Returned st => st = EFI_SUCCESS
    | Entered entry addr => kernel_entered env.(be_rsp) s t entry addr (load_record t.(mem) addr)
    end.
Proof.
  intros Hok0 s. pose proof (null_written_ok env.(be_cpu) s0 Hok0 : ram_ok s.(mem)) as Hok.
  unfold efi_main. pose proof (machine_stats_run env s0) as H1. fold s in H1.
  destruct (null_faults env.(be_cpu)); [unfold mbind, M_bind; by rewrite H1|].
  destruct H1 as (go & s1 & E1 & K1). rewrite (bind_eq _ _ _ _ _ E1).
  destruct go; cbn [negb]; [|by exists (Returned EFI_SUCCESS), s1].
  destruct (boot_kernel_spec handle s1) as (x & s2 & E2 & K2 & H2); [by apply (kp_ok _ _ _ K1)|].
  rewrite (bind_eq _ _ _ _ _ E2). assert (from s s2) as K02 by (by transitivity s1).
  destruct x as [e|].
  - destruct (H2 e eq_refl) as (entry & addr & -> & Hk). do 2 eexists. split_and!; [done|done|].
    by apply (kernel_entered_earlier env.(be_rsp) s s1).
  - run (println_from (L "(panic) Boot process failed, halting...") s2).
    run (println_from (L "Stopped. Press any key to shutdown.") t).
    destruct (tame_wait_key polls Hkeys t0) as ([] & s3 & E3 & K3). rewrite (bind_eq _ _ _ _ _ E3).
    destruct (tell_quiet ResetSystem s3 fl_reset) as (s4 & E4 & Q4). rewrite (bind_eq _ _ _ _ _ E4).
    apply quiet_from in Q4. do 2 eexists. split_and!; [done| |done].
    clear -K02 K K0 K3 Q4. from_trans.
Qed.
End firmware.
