(* ===== verification/BootSim.v ===== *)
(** * A firmware

    A small firmware with two files, 3 GiB of memory, one graphics mode and a
    user who presses a key: an instance of what the loader relies on, at which
    its theorems are applied. *)

From S2P Require Import Prelude FromBoot Pmm PageTable Efi EfiFacts BootLib BootPaging BootElf BootElfFacts BootGop BootGopFacts LogoData Boot BootFacts BootStages.

(** ** Memory: the ranges handed out, as page numbers with their lengths *)

Definition sim : Type := list (Z * Z).
Definition limit : Z := 0xC0000.

Definition taken (f : sim) (q : Z) : bool :=
  (q <? limit) && existsb (fun r : Z * Z => in_range r.1 r.2 q) f.

Definition apart (p n : Z) (r : Z * Z) : bool := (p + n <=? r.1) || (r.1 + r.2 <=? p).

(** The first page above all ranges, and above 1 MiB. *)
Definition next_page (f : sim) : Z := foldr (fun (r : Z * Z) m => Z.max (r.1 + r.2) m) 0x1000 f.

Definition sim_page (type : EFI_ALLOCATE_TYPE) (a : Z) (f : sim) : Z :=
  match type with AllocateAddress => a / PAGE_SIZE | _ => next_page f end.
Definition sim_fits (type : EFI_ALLOCATE_TYPE) (n a p : Z) : bool :=
  match type with
  | AllocateAddress => a =? p * PAGE_SIZE
  | AllocateMaxAddress => p * PAGE_SIZE + n * PAGE_SIZE <=? a + 1
  | _ => true
  end.
Definition sim_alloc (type : EFI_ALLOCATE_TYPE) (n a : Z) (f : sim) : Z * Z * sim :=
  let p := sim_page type a f in
  if sim_fits type n a p && (0 <? p) && (p + n <=? limit) && forallb (apart p n) f
  then (EFI_SUCCESS, p * PAGE_SIZE, (p, n) :: f)
  else (EFI_OUT_OF_RESOURCES, 0, f).

Lemma sim_alloc_ok type n a f st r f' : 0 <= n -> sim_alloc type n a f = (st, r, f') ->
  (EFI_ERROR st = true /\ forall q, taken f' q = taken f q) \/
  (EFI_ERROR st = false /\ r mod PAGE_SIZE = 0 /\ 0 < r /\ r + n * PAGE_SIZE <= 2 ^ 52 /\
   (type = AllocateAddress -> r = a) /\
   (type = AllocateMaxAddress -> r + n * PAGE_SIZE <= a + 1) /\
   (forall q, in_range (r / PAGE_SIZE) n q = true -> taken f q = false) /\
   forall q, taken f' q = taken f q || in_range (r / PAGE_SIZE) n q).
Proof.
  intros Hn. unfold sim_alloc. cbv zeta. set (p := sim_page type a f).
  destruct (sim_fits type n a p && (0 <? p) && (p + n <=? limit) && forallb (apart p n) f) eqn:E;
    intros [= <- <- <-]; [right|by left].
  apply andb_true_iff in E as [E Hap]. apply andb_true_iff in E as [E Hlim%Z.leb_le].
  apply andb_true_iff in E as [Hfit Hp%Z.ltb_lt]. unfold limit in Hlim.
  assert (p * PAGE_SIZE / PAGE_SIZE = p /\ (p * PAGE_SIZE) mod PAGE_SIZE = 0) as [-> ->].
  { unfold PAGE_SIZE. by rewrite Z.div_mul, Z.mod_mul by lia. }
  unfold PAGE_SIZE in *. split_and!; try done; try lia.
  - intros ->. unfold sim_fits, PAGE_SIZE in Hfit. cbv beta iota in Hfit. clearbody p. lia.
  - intros ->. unfold sim_fits, PAGE_SIZE in Hfit. cbv beta iota in Hfit. clearbody p. lia.
  - intros q Hq. unfold taken. apply andb_false_iff. right. apply not_true_iff_false. intros Hex.
    apply existsb_exists in Hex as (x & Hx & Hin). rewrite forallb_forall in Hap. specialize (Hap x Hx).
    unfold apart, in_range in *. lia.
  - intros q. unfold taken, limit. cbn [existsb fst snd].
    destruct (Z.ltb_spec q 0xC0000); cbn [andb orb]; [by rewrite orb_comm|].
    symmetry. apply not_true_iff_false. intros Hq%in_range_spec. lia.
Qed.

(** ** Files *)

(** An executable of one segment with four bytes at 1 MiB, eight in memory. *)
Definition kernel_elf : list Z :=
  [0x7F; 69; 76; 70; 2; 1; 1; 0; 0; 0; 0; 0; 0; 0; 0; 0] ++
  [2; 0; 62; 0; 1; 0; 0; 0; 0; 0; 16; 0; 0; 0; 0; 0; 64; 0; 0; 0; 0; 0; 0; 0] ++
  [0; 0; 0; 0; 0; 0; 0; 0; 0; 0; 0; 0; 64; 0; 56; 0; 1; 0; 0; 0; 0; 0; 0; 0] ++
  [1; 0; 0; 0; 5; 0; 0; 0; 120; 0; 0; 0; 0; 0; 0; 0; 0; 0; 16; 0; 0; 0; 0; 0] ++
  [0; 0; 16; 0; 0; 0; 0; 0; 4; 0; 0; 0; 0; 0; 0; 0; 8; 0; 0; 0; 0; 0; 0; 0; 0; 16; 0; 0; 0; 0; 0; 0] ++
  [0xF4; 0xEB; 0xFD; 0x90].

Definition sim_file (h : Z) : list Z :=
  if h =? 2 then kernel_elf else if h =? 3 then [1; 2; 3] else [].
Definition sim_open (path : list Z) : Z * Z :=
  if bool_decide (path = L "kernel.elf") then (EFI_SUCCESS, 2)
  else if bool_decide (path = L "ramdiskfs.cpio") then (EFI_SUCCESS, 3) else (EFI_NOT_FOUND, 0).
Definition sim_read (h n : Z) : Z * Z * list Z :=
  let data := take (Z.to_nat n) (sim_file h) in (EFI_SUCCESS, Z.of_nat (length data), data).

(** ** Graphics *)

Definition sim_info : mode_info := mk_info 0 64 48 1 (0, 0, 0, 0) 64.
Definition sim_gop : gop_mode := mk_gop_mode 1 0 sim_info 36 0xC0000000 12288.
Definition sim_query (i : Z) : Z * Z * mode_info :=
  if (0 <=? i) && (i <? 1) then (EFI_SUCCESS, 0x100000000, sim_info) else (EFI_INVALID_PARAMETER, 0, sim_info).

(** ** The services *)

Definition sim_map (n : Z) (buffer : bool) : map_reply :=
  mk_map_reply (if buffer && (48 <=? n) then EFI_SUCCESS else EFI_BUFFER_TOO_SMALL) 48 7 48 (replicate 48 0).
Definition sim_bytes (s n : Z) (m : gmap Z Z) : list Z := map (fun i => load8 m (s + i)) (seqZ 0 n).

#[export] Instance sim_firmware : Firmware sim := {
  AllocatePages type _ n a f := sim_alloc type n a f;
  AllocatePool _ _ f := (EFI_SUCCESS, 0x100000000, f);
  FreePool _ f := f;
  CopyMem d s n m := store_bytes d (sim_bytes s n m) m;
  SetMem d n v m := store_bytes d (replicate (Z.to_nat n) v) m;
  GetMemoryMap n buffer f := (sim_map n buffer, f);
  ExitBootServices _ f := (EFI_SUCCESS, f);
  HandleProtocol _ _ f := (EFI_SUCCESS, 1, f);
  LocateProtocol _ f := (EFI_SUCCESS, 1, f);
  LocateHandleBuffer _ f := (EFI_SUCCESS, [], 0, f);
  OutputString _ f := f;
  ClearScreen f := f;
  ReadKeyStroke f := (EFI_SUCCESS, f);
  ResetSystem f := f;
  ImageData _ _ := mk_image 1 0x7E000000 0x9000;
  OpenVolume _ f := (EFI_SUCCESS, 1, f);
  FileOpen _ path f := (sim_open path, f);
  FileGetInfo h _ buffer f := (if buffer then EFI_SUCCESS else EFI_BUFFER_TOO_SMALL, 80,
    Z.of_nat (length (sim_file h)), f);
  FileRead h n f := (sim_read h n, f);
  FileClose _ f := f;
  PciRead _ _ _ f := (EFI_SUCCESS, 0x12348086, f);
  GopMode _ _ := sim_gop;
  QueryMode _ i f := (sim_query i, f);
  SetMode _ _ f := (EFI_SUCCESS, f);
  EdidData _ _ := (0, 0, []);
}.

Lemma high_free f a : 0xC0000000 <= a -> taken f (a / PAGE_SIZE) = false.
Proof.
  intros Ha. unfold taken, limit, PAGE_SIZE.
  destruct (Z.ltb_spec (a / 0x1000) 0xC0000); [|done]. Z.div_mod_to_equations. lia.
Qed.

Lemma sim_bytes_at s n m i : 0 <= i < n -> aget (sim_bytes s n m) i = load8 m (s + i).
Proof.
  intros Hi. unfold aget, sim_bytes. rewrite (proj2 (Z.ltb_ge _ _)) by lia.
  apply list_lookup_total_correct. rewrite list_lookup_fmap, lookup_seqZ_lt by lia. cbn. do 2 f_equal. lia.
Qed.

#[export] Instance sim_laws : FirmwareLaws sim.
Proof.
  refine {| owned := taken |}; try done; cbn.
  - intros type _ n a f st r f' Hn. by apply sim_alloc_ok.
  - intros _ size f st r f' [= <- <- <-]. split; [done|]. intros _. split; [done|].
    intros a Ha%in_bytes_spec. apply high_free. lia.
  - intros d s n m a Hn. rewrite load8_store_bytes. unfold sim_bytes at 1.
    rewrite length_map, length_seqZ, Z2Nat.id by done.
    destruct (in_bytes d n a) eqn:E; [|done]. apply in_bytes_spec in E. rewrite sim_bytes_at by lia.
    apply u8_id, load8_range.
  - intros d s n m Hm. by apply store_bytes_ok.
  - intros d n v m a Hn. rewrite load8_store_bytes, length_replicate, Z2Nat.id by done.
    destruct (in_bytes d n a) eqn:E; [|done]. apply in_bytes_spec in E. f_equal.
    unfold aget. rewrite (proj2 (Z.ltb_ge _ _)) by lia. apply lookup_total_replicate_2. lia.
  - intros d n v m Hm. by apply store_bytes_ok.
  - intros h n b f. lia.
  - intros h n f st k data f' Hn [= <- <- <- <-]. rewrite length_take. lia.
  - intros _ f _. split; [by unfold rows_fit; cbn|]. intros a Ha%in_bytes_spec. apply high_free. cbn in Ha. lia.
  - intros n b f. unfold sim_map; cbn. split_and!; try lia.
    destruct b; cbn; [|done]. destruct (Z.leb_spec 48 n); done.
Defined.

#[export] Instance sim_gop_laws : GopLaws sim.
Proof.
  refine {| mode_at := fun _ i => if (0 <=? i) && (i <? 1) then Some sim_info else None |}.
  intros g i f. cbn. unfold sim_query. by destruct (_ && _).
Defined.

(** ** The hypotheses of the loader's theorems *)

Lemma sim_keys : keys_come (F := sim) 1.
Proof. done. Qed.

Lemma sim_screens : screens_linear (F := sim).
Proof. by apply formats_linear. Qed.

Lemma sim_monitors : monitors_ok (F := sim).
Proof. intros e f s. vm_compute. done. Qed.

Lemma kernel_elf_ok : kernel_file kernel_elf.
Proof.
  assert (e_phnum (file_mem kernel_elf) 0 = 1) as En by (vm_compute; done).
  constructor; [vm_compute; done|vm_compute; done|].
  rewrite En. intros i Hi _. assert (i = 0) as -> by lia. vm_compute. split_and!; done.
Qed.

Lemma sim_files : kernel_files_ok (F := sim).
Proof.
  intros data (h & (root & f & Ho & Eh) & n & f1 & g & st & g' & Ei & Es & Est & Er).
  assert (h = 2) as -> by (rewrite <-Eh; vm_compute; done). clear Ho Eh.
  cbn in Es, Er. unfold sim_read in Er. rewrite <-Es in Er.
  injection Er as _ Ed. rewrite <-Ed. clear. split; [vm_compute; done|].
  intros _. exact kernel_elf_ok.
Qed.

(** A machine with empty memory. *)
Definition sim_start : loader sim := mk_loader [] ∅ [] [] [] [] 0.

Lemma sim_ram : ram_ok sim_start.(mem).
Proof. intros a. cbn. rewrite lookup_total_empty. by split. Qed.
