(* ===== verification/BootLibFacts.v ===== *)
(** * The loader's strings: lemmas

    Decimal numbers and the comparison of CHAR16 strings. *)

From S2P Require Import Prelude Stdio StdioFacts Efi BootLib.

(** ** Decimal numbers *)

Lemma decimal_loop_dec fuel : forall room n, 0 <= n < 10 ^ Z.of_nat fuel ->
  decimal_loop fuel room n = take room (rev (dec_digits fuel n)).
Proof.
  induction fuel as [|k IH]; intros room n Hn; [by destruct room|].
  cbn [decimal_loop dec_digits]. destruct room as [|room]; [done|].
  rewrite rev_app_distr. cbn [rev app take]. f_equal. rewrite Nat2Z.inj_succ, Z.pow_succ_r in Hn by lia.
  destruct (Z.eqb_spec (n / 10) 0), (Z.ltb_spec n 10).
  - by destruct room.
  - Z.div_mod_to_equations. lia.
  - rewrite Z.div_small in * by lia. by destruct room.
  - apply IH. Z.div_mod_to_equations. lia.
Qed.

Lemma aget_rev (l : list Z) i : 0 <= i < Z.of_nat (length l) -> aget (rev l) i = aget l (Z.of_nat (length l) - 1 - i).
Proof.
  intros Hi. unfold aget. rewrite !(proj2 (Z.ltb_ge _ _)) by lia.
  rewrite rev_alt. change (rev_append l []) with (reverse l). rewrite !list_lookup_total_alt, reverse_lookup by lia. do 3 f_equal. lia.
Qed.

Lemma aget_aset (l : list Z) i j x : 0 <= i < Z.of_nat (length l) ->
  aget (aset l i x) j = if decide (i = j) then x else aget l j.
Proof. intros Hi. case_decide as E; [subst; by apply aget_aset_eq|by apply aget_aset_ne]. Qed.

(** Swapping both ends inwards reverses the list. *)
Lemma reverse_in_place_rev buf : reverse_in_place buf = rev buf.
Proof.
  unfold reverse_in_place. cbv zeta. set (pos := Z.of_nat (length buf)).
  set (body := fun (i : Z) (b : list Z) => _).
  assert (0 <= pos / 2 /\ pos - 1 <= 2 * (pos / 2) <= pos) as [Hh0 Hh] by (Z.div_mod_to_equations; lia).
  pose proof (for_up_inv (fun i b => length b = length buf /\ forall j, 0 <= j < pos ->
    aget b j = if (j <? i) || (pos - 1 - j <? i) then aget buf (pos - 1 - j) else aget buf j)
    body (Z.to_nat (pos / 2)) 0 buf) as Hinv. cbv beta in Hinv.
  destruct Hinv as [Hlen Hall].
  - split; [done|]. intros j Hj. by rewrite !(proj2 (Z.ltb_ge _ _)) by lia.
  - intros i b Hi [Hl Hb]. rewrite Z2Nat.id in Hi by lia. unfold body.
    split; [by rewrite !length_aset|]. intros j Hj. rewrite !aget_aset by (rewrite ?length_aset; lia).
    rewrite !Hb by lia. repeat case_decide; subst;
      repeat match goal with |- context [?a <? ?c] => destruct (Z.ltb_spec a c) end; cbn [orb];
      (lia || done || (f_equal; lia)).
  - apply list_eq_aget; [by rewrite length_rev|]. intros j Hj. rewrite Hall by lia.
    rewrite Z2Nat.id, Z.add_0_l by lia. rewrite aget_rev by lia. fold pos.
    destruct (Z.ltb_spec j (pos / 2)), (Z.ltb_spec (pos - 1 - j) (pos / 2)); cbn [orb]; try done.
    f_equal. lia.
Qed.

(** The digits that fit, of the low-order end. *)
Lemma decimalConvert_dec n room : in_u64 n ->
  decimalConvert n (S room) = Some (drop (length (dec n) - room) (dec n)).
Proof.
  intros Hn. unfold decimalConvert. rewrite reverse_in_place_rev. unfold in_u64 in Hn.
  rewrite decimal_loop_dec by (change (10 ^ Z.of_nat 20) with 100000000000000000000; lia).
  by rewrite firstn_rev, rev_involutive.
Qed.

(** ** Comparison of strings *)

Lemma strcmp16_eq x : forall y, 0 ∉ x -> 0 ∉ y -> strcmp16 x y = 0 <-> x = y.
Proof.
  induction x as [|c x IH]; intros y Hx Hy; cbn [strcmp16].
  - destruct y as [|d y]; cbn; [done|]. apply not_elem_of_cons in Hy as [Hd _].
    split; [intros; lia|done].
  - apply not_elem_of_cons in Hx as [Hc Hx]. destruct (Z.eqb_spec c (hd 0 y)) as [E|E].
    + destruct y as [|d y]; [done|]. cbn in E |- *. subst d. apply not_elem_of_cons in Hy as [_ Hy].
      rewrite IH by done. split; congruence.
    + split; [lia|]. intros <-. done.
Qed.

(** The entries of the table that are virtual machines and that a string of
    twelve characters can be equal to. *)
Definition vm_vendors : list (list Z) :=
  [L "TCGTCGTCGTCG"; L "VMwareVMware"; L "VBoxVBoxVBox"; L "XenVMMXenVMM"].

Lemma find_cpu_vm x l : 0 ∉ x -> Forall (fun e => 0 ∉ e.1) l -> NoDup l.*1 ->
  find_cpu x l = 1 <-> (x, 1) ∈ l.
Proof.
  intros Hx. induction l as [|[name vm] l IH]; intros Hl Hn; cbn [find_cpu].
  - split; [done|]. intros H. by apply elem_of_nil in H.
  - apply Forall_cons in Hl as [Hname Hl]. cbn in Hname, Hn. apply NoDup_cons in Hn as [Hni Hn].
    rewrite elem_of_cons. destruct (Z.eqb_spec (strcmp16 x name) 0) as [E|E].
    + apply strcmp16_eq in E; [|done..]. subst name. split; [intros ->; by left|].
      intros [[= ->]|Hin]; [done|]. exfalso. apply Hni, list_elem_of_fmap. by exists (x, 1).
    + rewrite IH by done. split; [by right|]. intros [[= <- <-]|Hin]; [|done].
      exfalso. apply E. by apply strcmp16_eq.
Qed.

Lemma isCPUVM_vm x : 0 ∉ x -> length x = 12%nat -> isCPUVM x = 1 <-> x ∈ vm_vendors.
Proof.
  intros Hx Hlen. unfold isCPUVM. rewrite find_cpu_vm; [|done| |].
  - split; intros Hin; apply list_elem_of_In in Hin.
    + assert (forallb (fun e : list Z * Z => negb (e.2 =? 1) || negb (length e.1 =? 12)%nat ||
        bool_decide (e.1 ∈ vm_vendors)) isCPUVMArray = true) as Hall by (vm_compute; done).
      rewrite forallb_forall in Hall. specialize (Hall _ Hin). cbn [fst snd] in Hall.
      rewrite Hlen in Hall. by apply bool_decide_eq_true in Hall.
    + assert (forallb (fun v => bool_decide ((v, 1) ∈ isCPUVMArray)) vm_vendors = true) as Hall by (vm_compute; done).
      rewrite forallb_forall in Hall. by apply Hall, bool_decide_eq_true in Hin.
  - apply Forall_forall. intros e He.
    assert (forallb (fun e : list Z * Z => bool_decide (0 ∉ e.1)) isCPUVMArray = true) as Hall by (vm_compute; done).
    rewrite forallb_forall in Hall. apply list_elem_of_In in He. by apply Hall, bool_decide_eq_true in He.
  - apply (bool_decide_unpack _). vm_compute. done.
Qed.

Lemma char_to_char16_nonzero c : 0 < c < 256 -> char_to_char16 c <> 0.
Proof.
  intros Hc. unfold char_to_char16. destruct (Z.ltb_spec c 128); [lia|]. unfold u16.
  rewrite <-(Z.mod_unique (c - 256) 65536 (-1) (c - 256 + 65536)); lia.
Qed.

Lemma vendor16_ok v : Forall in_u8 v -> (12 <= length v)%nat ->
  0 ∉ vendor_to_char16 v /\ length (vendor_to_char16 v) = 12%nat.
Proof.
  intros Hv Hl. unfold vendor_to_char16. split; [|rewrite length_map, length_take; lia].
  intros H. apply list_elem_of_fmap in H as (c & E & Hc).
  pose proof (Forall_take in_u8 12 v Hv) as Ht. rewrite Forall_forall in Ht. specialize (Ht c Hc). unfold in_u8 in Ht.
  destruct (Z.eqb_spec c 0); [done|]. symmetry in E. apply char_to_char16_nonzero in E; [done|lia].
Qed.

Lemma reg_bytes_ok r : Forall in_u8 (reg_bytes r).
Proof. unfold reg_bytes. repeat constructor; apply u8_range. Qed.

Lemma get_cpu_vendor_ok cpuid regs0 :
  Forall in_u8 (get_cpu_vendor cpuid regs0) /\ length (get_cpu_vendor cpuid regs0) = 13%nat.
Proof.
  unfold get_cpu_vendor. destruct (default regs0 (cpuid 0)) as [[[a b] c] d]. split; [|done].
  rewrite !Forall_app. split_and!; [apply reg_bytes_ok..|]. apply Forall_singleton. unfold in_u8. lia.
Qed.
