(* ===== verification/BootTheorems.v ===== *)
(** * The loader: theorems *)

From S2P Require Import Prelude FromBoot Pmm PageTable Init Stdio StdioFacts Efi EfiFacts BootLib BootLibFacts BootPaging BootPagingFacts BootPagingTheorems BootElf BootElfFacts BootElfTheorems BootGop BootGopFacts BootDraw LogoData Boot BootFacts BootStages BootHandOver BootMain BootSim.

(** ** [efi_main] *)

(** C4. Every run of [efi_main] comes to an end, on every machine.  On a processor
    with the extended leaves whose firmware does not let page 0 be written it ends
    in a fault, at the stores of [__get_cpuid] through null pointers
    ([null_faults]).  On every other it writes the twelve bytes of these stores to
    address 0, if at all ([null_written]), and then, provided that the user presses
    a key when asked to and that the screen is one the loader can draw on
    ([screens_linear]), returns to the firmware with EFI_SUCCESS, or enters the
    kernel at the entry point of kernel.elf.  In that case CR3 holds tables that
    map the first 512 GiB, the loader's image, the stack and the frame buffer to
    themselves and nothing else; the file, its segments (with zeros behind them)
    and the RAM disk lie in pages that were free before; the record, as it reads in
    memory, carries the magic number, the extent of the kernel, the RAM disk and
    the frame buffer; and the memory map in it is the one whose key
    ExitBootServices accepted.  Apart from these stores, pages that were owned
    before the run keep their contents. *)
Theorem efi_main_boots {F : Type} `{HG : GopLaws F} polls handle env (s0 : loader F) :
  keys_come (F := F) polls -> kernel_files_ok (F := F) -> monitors_ok (F := F) -> screens_linear (F := F) ->
  0 <= env.(be_rsp) <= 2 ^ 47 -> ram_ok s0.(mem) ->
  let s := null_written env.(be_cpu) s0 in
  if null_faults env.(be_cpu) then efi_main polls handle env s0 = Fault
  else exists e t, efi_main polls handle env s0 = Done (e, t) /\ from s t /\
    match e with
    | Returned st => st = EFI_SUCCESS
    | Entered entry addr => kernel_entered env.(be_rsp) s t entry addr (load_record t.(mem) addr)
    end.
Proof. intros Hk Hf Hm Hl Hr Hok. by apply efi_main_ends. Qed.

(** The machine of the examples: a processor with the extended leaves, and a
    page 0 that can be written. *)
Definition sim_cpuid (leaf : Z) : option (Z * Z * Z * Z) :=
  if leaf =? 0 then Some (13, 0x756E6547, 0x6C65746E, 0x49656E69) (* GenuineIntel *)
  else if leaf =? 0x80000000 then Some (0x80000008, 0x68747541, 0x444D4163, 0x69746E65)
  else if (0x80000001 <=? leaf) && (leaf <=? 0x80000008) then Some (0x20202020, 0x20555043, 0, 0) else None.
Definition sim_cpu (page0 : bool) : cpu_env := mk_cpu_env sim_cpuid page0 0 (0, 0, 0, 0) (0, 0, 0, 0) [].
Definition sim_env (page0 : bool) : boot_env :=
  mk_boot_env (sim_cpu page0) 0x7F000000 0x7EFFFF00 (L "sim") 0 (mk_image 0 0 0).

Lemma efi_main_boots_witness :
  efi_main (F := sim) 1 0 (sim_env false) sim_start = Fault /\
  let s := set_mem (store_le 4 0 0x69746E65 (store_le 4 0 0x444D4163 (store_le 4 0 0x68747541 ∅))) sim_start in
  exists e t, efi_main (F := sim) 1 0 (sim_env true) sim_start = Done (e, t) /\ from s t /\
    match e with
    | Returned st => st = EFI_SUCCESS
    | Entered entry addr => kernel_entered 0x7F000000 s t entry addr (load_record t.(mem) addr)
    end.
Proof.
  split.
  - apply (efi_main_boots 1 0 (sim_env false) sim_start sim_keys sim_files sim_monitors sim_screens); [cbn; lia|exact sim_ram].
  - apply (efi_main_boots 1 0 (sim_env true) sim_start sim_keys sim_files sim_monitors sim_screens); [cbn; lia|exact sim_ram].
Defined.

(** C11. The kernel's checks accept what the loader hands over: when [efi_main]
    enters the kernel, [kernel_main] finds no fault with the record, unless
    the graphics mode has no frame buffer address, no size, or a pixel format
    the kernel does not draw in.  [efi_main] gets to its end on every machine on
    which the stores through null pointers do not fault, provided that the screen
    is one the loader can draw on, whatever its pixel format is called. *)
Theorem hand_off_accepted {F : Type} `{HG : GopLaws F} polls handle env (s : loader F) :
  keys_come (F := F) polls -> kernel_files_ok (F := F) -> monitors_ok (F := F) -> screens_linear (F := F) ->
  0 <= env.(be_rsp) <= 2 ^ 47 -> ram_ok s.(mem) -> null_faults env.(be_cpu) = false ->
  exists e t, efi_main polls handle env s = Done (e, t) /\
    forall entry addr, e = Entered entry addr -> let info := load_record t.(mem) addr in
    check_boot addr info =
      if info.(framebuffer_base) =? 0 then Some "Frame buffer base addr is missing"%string
      else if (info.(width) =? 0) || (info.(height) =? 0) then Some "Sizes (of frame buffer) are missing"%string
      else if 1 <? info.(framebuffer_pixel_format) then Some "Unsupported frame buffer pixel format"%string
      else None.
Proof.
  intros Hk Hf Hm Hlin Hr Hok Hnull.
  pose proof (efi_main_ends polls env Hk Hf Hm Hlin Hr handle s Hok) as He. cbv zeta in He. rewrite Hnull in He.
  destruct He as (e & t & E & _ & He).
  exists e, t. split; [done|]. intros entry addr -> info.
  destruct He as [_ _ _ (Ea & f & _ & Hl) [[Ha _] Hmg] _ _]. fold info in Ea, Hl, Hmg. pose proof (ld_size _ _ _ _ _ Hl) as Hsz.
  unfold check_boot. rewrite (proj2 (Z.eqb_neq addr 0)), Hmg, Z.eqb_refl by lia. cbn [negb].
  rewrite Ea, (proj2 (Z.eqb_neq info.(initramfs_size) 0)) by lia. done.
Qed.

Lemma hand_off_accepted_witness :
  exists e t, efi_main (F := sim) 1 0 (sim_env true) sim_start = Done (e, t) /\
    forall entry addr, e = Entered entry addr -> let info := load_record t.(mem) addr in
    check_boot addr info =
      if info.(framebuffer_base) =? 0 then Some "Frame buffer base addr is missing"%string
      else if (info.(width) =? 0) || (info.(height) =? 0) then Some "Sizes (of frame buffer) are missing"%string
      else if 1 <? info.(framebuffer_pixel_format) then Some "Unsupported frame buffer pixel format"%string
      else None.
Proof.
  apply (hand_off_accepted 1 0 (sim_env true) sim_start sim_keys sim_files sim_monitors sim_screens);
    [cbn; lia|exact sim_ram|reflexivity].
Defined.

(** ** The hand-off address space *)

(** C8. [build_tables] stops without a page, or yields tables in pages that
    were free; a range below 2^48 that is then mapped is refused for lack of
    pages, or the tables translate every address of the first 512 GiB and of
    the pages the range touches to itself and no other address. *)
Theorem handoff_identity {F : Type} `{HL : FirmwareLaws F} (s : loader F) physical size : ram_ok s.(mem) ->
  0 <= physical -> 0 <= size -> physical + size <= 2 ^ 48 ->
  exists r t, build_tables s = Done (r, t) /\ from s t /\ forall pml4, r = Some pml4 ->
    pml4 mod PAGE_SIZE = 0 /\ owned s.(fw) (pml4 / PAGE_SIZE) = false /\
    (forall v, walk t.(mem) pml4 v = if vpn v <? 2 ^ 27 then Some (v mod 2 ^ 48) else None) /\
    exists st u, map_handoff_range pml4 physical size t = Done (st, u) /\ from s u /\
      (EFI_ERROR st = false -> forall v, walk u.(mem) pml4 v =
        if (vpn v <? 2 ^ 27) || high_pages physical size (vpn v) then Some (v mod 2 ^ 48) else None).
Proof.
  intros Hok Hp Hz Hm.
  destruct (build_tables_spec s Hok) as (t & [[E K]|(r & pt & pds & E & Hs & K & Hnew)]); do 2 eexists;
    (split; [exact E|]); (split; [done|]); [done|]. intros pml4 [= <-].
  destruct (frame_page r) as [E1 E2]. split_and!; [done| | |].
  - rewrite E1. destruct (owned s.(fw) r) eqn:Eo; [|done]. destruct (Hnew r Eo). right. intros Hn.
    by apply (Hn [] (r * 4096) ltac:(path_tac)).
  - intros v. rewrite (space_walk r pt pds _ t v Hs). by rewrite orb_false_r.
  - destruct (map_handoff_range_spec r pt pds _ t physical size Hs Hp Hz Hm) as (st & u & E' & G & R).
    exists st, u. split_and!; [done|by apply (grows_from r pt pds s t u)|]. intros Er v.
    destruct R as [[Er' _]|[_ S]]; [congruence|]. by rewrite (space_walk r pt pds _ u v S).
Qed.

Lemma handoff_identity_witness : exists r t, build_tables sim_start = Done (r, t) /\ from sim_start t /\
  forall pml4, r = Some pml4 ->
    pml4 mod PAGE_SIZE = 0 /\ owned sim_start.(fw) (pml4 / PAGE_SIZE) = false /\
    (forall v, walk t.(mem) pml4 v = if vpn v <? 2 ^ 27 then Some (v mod 2 ^ 48) else None) /\
    exists st u, map_handoff_range pml4 0x8000001800 0x1000 t = Done (st, u) /\ from sim_start u /\
      (EFI_ERROR st = false -> forall v, walk u.(mem) pml4 v =
        if (vpn v <? 2 ^ 27) || high_pages 0x8000001800 0x1000 (vpn v) then Some (v mod 2 ^ 48) else None).
Proof. apply (handoff_identity sim_start 0x8000001800 0x1000 sim_ram); lia. Defined.

(** ** Files *)

(** C9. [load_file] always comes to an end, whatever the firmware answers.
    Every pool buffer it obtained is freed and every handle it opened is
    closed; pages that were owned keep their contents; an error comes with
    size 0; and a success with all bytes of the file of that name at the
    address asked for, in pages that were free. *)
Theorem load_file_contract {F : Type} `{HL : FirmwareLaws F} handle path address image (s : loader F) :
  exists St size img t, load_file handle path address image s = Done ((St, size, img), t) /\
    from s t /\ t.(pools) ≡ₚ s.(pools) /\ t.(handles) ≡ₚ s.(handles) /\
    (EFI_ERROR St = true -> size = 0) /\
    (EFI_ERROR St = false -> exists p file, path = Some p /\ opened p file /\ loaded file address size s t).
Proof.
  destruct (load_file_post handle path address image s) as (St & size & img & t & E & [K P Hh Er Hl] & _).
  by exists St, size, img, t.
Qed.

(** ** Graphics *)

(** The mode [pick_mode] chooses: there is none if no mode has a linear
    frame buffer; with a monitor, it is the first linear mode of the monitor's
    size or of 1920x1080, and the first linear one if there is none of these;
    without a monitor it is the mode that is active. Memory, files and modes
    stay as they are. *)
Theorem pick_mode_choice {F : Type} `{HG : GopLaws F} gop printGOP monitor (s : loader F) :
  exists r t, pick_mode gop printGOP monitor s = Done (r, t) /\ quiet s t /\
    picked gop (GopMode gop s.(fw)) monitor r.
Proof.
  destruct (pick_mode_picked gop printGOP monitor s) as (r & t & E & [Q _] & P). by exists r, t.
Qed.

(** C38. [DrawBMP] draws exactly the picture of a 24-bit file that its size
    admits: every visible pixel of the scaled square of a bitmap pixel gets
    its colour, all other pixels and all bytes outside the frame buffer stay,
    and the file is read inside its bounds. *)
Theorem DrawBMP_picture {F : Type} `{HF : Firmware F} bmp w h offset fb width height pitch posX posY scale
    (s : loader F) :
  bmp_ok bmp w h offset -> 0 <= width <= pitch -> height * pitch < 2 ^ 62 ->
  0 <= posX < 2 ^ 32 -> 0 <= posY < 2 ^ 32 -> 0 < scale < 2 ^ 8 ->
  exists m, DrawBMP fb width height pitch posX posY bmp scale s = Done (tt, set_mem m s) /\
    painted fb height pitch (picture bmp w h offset width height posX posY scale) s.(mem) m.
Proof.
  intros Hb Hw Hf HX HY Hs. exact (draw_bmp_draws bmp w h offset Hb fb width height pitch posX posY scale Hw Hf HX HY Hs s).
Qed.

Lemma DrawBMP_picture_witness :
  exists m, DrawBMP 0xC0000000 800 600 1024 300 200 logo_bmp 4 sim_start = Done (tt, set_mem m sim_start) /\
    painted 0xC0000000 600 1024 (picture logo_bmp 50 50 138 800 600 300 200 4) sim_start.(mem) m.
Proof. apply (DrawBMP_picture logo_bmp 50 50 138 _ _ _ _ _ _ _ _ logo_ok); lia. Defined.

(** ** Strings *)

(** [decimalConvert] stores the decimal digits of its argument, or as many
    of the last ones as there is room for: always a decimal number, the value
    modulo a power of ten. *)
Theorem decimalConvert_digits n room : in_u64 n ->
  decimalConvert n (S room) = Some (drop (length (dec n) - room) (dec n)) /\ is_decimal n (dec n).
Proof. intros Hn. split; [by apply decimalConvert_dec|by apply dec_ok]. Qed.

Lemma decimalConvert_digits_witness :
  decimalConvert 1234567 5 = Some (drop (length (dec 1234567) - 4) (dec 1234567)) /\ is_decimal 1234567 (dec 1234567).
Proof. apply (decimalConvert_digits 1234567 4). unfold in_u64. lia. Defined.

(** The detection of a virtual machine answers for the vendor strings of
    twelve characters only, whatever else the table holds. *)
Lemma vm_detection cpuid regs0 :
  let vendor := vendor_to_char16 (get_cpu_vendor cpuid regs0) in isCPUVM vendor = 1 <-> vendor ∈ vm_vendors.
Proof.
  cbv zeta. destruct (get_cpu_vendor_ok cpuid regs0) as [Hb Hl]. destruct (vendor16_ok _ Hb) as [H0 Hlen]; [lia|].
  by apply isCPUVM_vm.
Qed.
